(* ===== verification/_CoqProject ===== *)
-Q . S2P
Prelude.v
Sepext.v
Vsprintf.v
Tracer.v
Usnl.v
Concurrent.v
Tracepoint.v
Probes.v
Dynamic.v
Sepextmod.v
Linked.v
Pktq.v
Crc.v
Bcmutils.v
Printf.v
Address.v
Bprintf.v
Seqfile.v
Kallsyms.v
Ksymfile.v
Ksymgen.v
Softirq.v
Deferred.v
Backlog.v
Semaphore.v
Completion.v
Gotext.v
Delay.v
Pipeline.v
Analyse.v
