(* ===== verification/Prelude.v ===== *)
(** * The SEPExtract tracer and the kernel code it instruments

    The repository is a Linux 3.0 kernel for OMAP boards (32-bit little-endian
    ARM, two CPUs, preemptible) instrumented with the SEPExtract tracer. Kernel
    code calls tracepoints; the tracer's module registers probes with them; a
    probe records fixed-size entries in a buffer; a user-space process fetches
    the entries over a netlink socket and writes them as text; programs in Go
    compute delays and the structure of services from the text. This library
    models the tracer, the tracepoint registry between the kernel and its
    probes, kernel code that fires the tracepoints, and the analysis.

    ** Files and what they model

    - [Prelude]: machine integers ([u8] to [s64]), little-endian bytes, bit
      operations, arrays with bounds ([zget], [zset]), tactics and hints.
    - [Sepext]: the enumerations, tables and structures
      ([sepext_trace.h], [sepextract-structures.h], [sepextdefs.c]), the layout
      of [struct sepentry], and one constructor of [tp_event] for every
      tracepoint of [include/trace/sepextract.h].
    - [Vsprintf]: [lib/ctype.c], and of [lib/vsprintf.c] the number scanning
      ([simple_strtoull], [vsscanf]) and the decimal conversion [put_dec].
    - [Tracer]: [sepext_trace.c] and [globals.c] as the record [tracer] and one
      function per operation ([trace_entry], [nl_rcv_func], [run_command],
      [initialize_tracer], [cleanup_tracer], ...). [LogSpec] is its
      specification, a bounded log.
    - [Concurrent]: [trace_entry] as the sequence of its accesses to shared
      memory, interleaved by any number of callers.
    - [Usnl]: the reader [usnl.c] as a machine over the socket it shares with
      the tracer, and the text it writes.
    - [Tracepoint]: [kernel/tracepoint.c] with probe arrays in a heap,
      [jhash], the modules of [kernel/module.c], and the call site.
    - [Probes]: the probes of [static.c], the packet extractors, the activation
      of the probes in [Tracepoint].
    - [Dynamic]: [dynamic.c] (kretprobes installed through a proc file) and
      [st.c] (symbol lookup).
    - [Sepextmod]: [sepext.c], which loads and unloads all of the above.
    - [Linked]: segments of linked lists in memory and lists per CPU, for the
      files below.
    - [Pktq]: the packet queues of the wireless driver ([bcmutils.c]) and
      [dhd_prec_enq]. [PktqSpec] is their specification on lists.
    - [Crc], [Bcmutils]: the other utilities of [bcmutils.c]: checksums, strings
      and numbers, tagged parameters, counters, power units, NVRAM files,
      packet chains, firmware variables and priorities.
    - [Printf]: [vsnprintf] with [number], [string], [format_decode] and the
      pointer formats of [lib/vsprintf.c]. [Address]: the texts of addresses in
      its callers. [Bprintf]: the binary variants [vbin_printf] and
      [bstr_printf].
    - [Seqfile]: [fs/seq_file.c]. [SeqOps] are the operations of a sequential
      file, [SeqRecords] is what its iterator promises; the theorems about
      reads are proved against it.
    - [Kallsyms]: the symbol table of [kernel/kallsyms.c]. [Ksymfile]: its file
      [/proc/kallsyms], an instance of [SeqRecords] that prints with [Printf];
      symbols in [printf] formats; the lookups of [st.c]. [Ksymgen]: the
      generator of the table, [scripts/kallsyms.c].
    - [Softirq]: softirqs, interrupt entry and exit, and tasklets
      ([kernel/softirq.c], [interrupt.h], [hardirq.h]).
      [softirq_client] is what a softirq promises to the code that runs it.
    - [Deferred]: the tasklets of [Softirq] as such a client, ksoftirqd, and
      tasklets of CPUs that go away.
    - [Backlog]: packet reception in [net/core/dev.c] on several CPUs: queues,
      receive packet steering and the softirq NET_RX, as a transition system
      whose steps are the sections with interrupts disabled.
    - [Semaphore]: [kernel/semaphore.c] as a labelled transition system.
    - [Completion]: the completions of [kernel/sched.c] and their wait queue,
      in the same way.
    - [Gotext]: strings, numbers and lines as the Go programs use them.
    - [Delay]: [intraosdelay.go] and [migrationdelay.go], from the text of a
      trace to the delays they print.
    - [Pipeline]: the composition of [Tracer], [Usnl] and [Delay].
    - [Analyse]: [analyse.go], the reconstruction of services from a trace, on
      a heap of shared entries. [StackSpec] is its specification on stacks.

    ** Conventions

    Pure and stateful C functions are functions on explicit states; effects on
    the outside (messages, wake-ups, events) are returned. [None] is a fault:
    an access outside an array or to memory that is not allocated, a [BUG()],
    or loop fuel that ran out. The theorems state that the result is [Some], so
    neither happens. Results of allocations, user copies, clocks and of code
    outside the model are arguments. The configuration is that of the
    repository's [.config]: SEPEXTRACTTRACER, SEPEXT_MIGRATION and
    SEPEXT_PKTEXTR set, SEPEXT_TRACEPOINTS_ENABLED not, SMP with two CPUs,
    PREEMPT, HZ 128, KALLSYMS_ALL, no modules, no lockdep and no jump labels.

    ** What the theorems show

    - Tracer: no sequence of operations leaves the trace buffer and the
      counters stay consistent; the buffer implements a bounded log, also when
      calls interleave on several CPUs; the calls that overflow it ask for the
      reader once; no call blocks and every schedule ends.
    - Reader: a full buffer is written out completely and in order, or up to
      the entry with which a reader that counts a service has seen enough; once
      tracing is off, a stop request drains the buffer and ends the reader; and
      the first round from initialisation to the file is composed of all parts.
    - Registry: registering and unregistering change exactly the probes of one
      name, errors change nothing, call sites run the registered probes in
      order, and arrays are not used after they are freed.
    - Probes and module: events become entries of the log, packets of the
      packet generator with their port and number; activation connects
      each probe to its tracepoint; loading and unloading give everything back.
    - Text: [vsnprintf] returns the length of the text and never writes
      outside its buffer, whatever its size and address; numbers are printed as
      their flags say, as long as the 16-bit width does not wrap around, and
      can be scanned back; the local arrays of the pointer formats are large enough,
      and recording the arguments in binary form changes nothing.
    - Checksums equal a shift register over the polynomial and detect bursts;
      tagged parameters are found exactly where they are.
    - Symbols: names and addresses are looked up as the table says, and fit
      their buffers; the generator compresses by the most frequent pair,
      finishes, and writes a table from which the kernel reads the symbols of
      the map back, the preferred one among aliases.
    - Files: a read at any position of a sequential file delivers the bytes
      there, whatever the sizes of reads, records and buffer, also when an
      allocation or a copy fails on the way, and otherwise reading to the end
      gives all records; for [/proc/kallsyms] one line per symbol with a name.
    - Packet queues: every operation, flushes whose filter keeps the last packet
      included, refines its specification on lists, the discard policy is
      followed, flushing frees each packet once.
    - Softirqs: pending softirqs run in order, at most ten passes, the rest is
      left to ksoftirqd; events nest; tasklets run once and in order, and when
      an interrupt schedules them, before its exit returns or in ksoftirqd.
    - Reception: in every interleaving each CPU passes on the packets accepted
      for it once and in order, no packet is left without a softirq or an
      interrupt that will attend to it, and a softirq processes its budget.
    - Semaphores: acquisitions never exceed the initial count plus releases, and
      a release goes to the task that waited longest.
    - Completions: what was added and what the waiters took differ by [done],
      modulo 2^32; no wake-up is lost.
    - Analysis: the delays printed are those between the recorded events, end
      to end from the calls of [trace_entry] to the output; the analyser
      reconstructs the tree of services and interrupts that produced a trace.

    Theorems whose names end in a fault ([..._lost], [..._off_by_one],
    [..._leaks]) are concrete runs on which the code does not do what it means
    to.

    ** Fuel and bounds

    [vsscanf_loop] gets the length of the format, [put_dec_loop] four rounds of
    five digits (a 64-bit number has at most 20), [jhash_loop] the length of the
    key, the searches in linked queues the number of packets plus one,
    [softirq_pass] 32 bits and [softirq_restart] the ten passes of
    [MAX_SOFTIRQ_RESTART], [tasklet_loop] the number of tasklets, [backlog_loop]
    three rounds (it empties the queue to process, refills it once and takes a
    packet or returns), [vsnprintf_loop] twice the length of the format,
    [search_loop] 33 halvings of a 32-bit range, [replace_loop] the length of
    the symbol, [Ksymgen.expand_symbol] 258 nested calls (a slot is made of
    codes given away before it), and the loops of [seq_read] a
    round for every record and for every byte by which the buffer may have to
    grow ([rounds_left]). Each bound is
    an invariant of the code, and the theorems conclude that the result is
    defined.

    ** Not modelled

    Memory ordering below sequential consistency; lock acquisition (functions
    run under their lock as one step); the services the tracer only calls
    (kprobes, netlink, vmalloc), which are arguments; the format [%pV]; the scan of
    the lines of [nm] and the text of the assembler source in the generator of
    the symbol table; the remaining
    instrumented code (scheduler, the rest of the network stack, drivers,
    timers); the statistics and signatures that [analyse.go] makes of the
    services; the scripts; and the unmodified kernel. *)

From stdpp Require Import prelude gmap list strings.
From Stdlib Require Import ZArith Lia.

Open Scope Z_scope.

(** ** Machine integers

    A w-bit unsigned integer is a [Z] in [[0, 2^w)]; [wrapu w] is the
    conversion of C to such a type, [wraps w] the conversion to the signed
    type of the same width (two's complement, as on ARM with gcc). *)

Definition wrapu (w x : Z) : Z := x mod 2 ^ w.
Definition wraps (w x : Z) : Z := (x + 2 ^ (w - 1)) mod 2 ^ w - 2 ^ (w - 1).

Definition u8 (x : Z) : Z := wrapu 8 x.
Definition u16 (x : Z) : Z := wrapu 16 x.
Definition u32 (x : Z) : Z := wrapu 32 x.
Definition u64 (x : Z) : Z := wrapu 64 x.
Definition s8 (x : Z) : Z := wraps 8 x.
Definition s16 (x : Z) : Z := wraps 16 x.
Definition s32 (x : Z) : Z := wraps 32 x.
Definition s64 (x : Z) : Z := wraps 64 x.

Definition UINT_MAX : Z := 4294967295.
Definition INT_MAX : Z := 2147483647.

(** C truth values. *)
Definition zbool (b : bool) : Z := if b then 1 else 0.
Definition ctrue (x : Z) : bool := negb (x =? 0).

Create HintDb width.
Create Rewrite HintDb width.

Lemma wrapu_range w x : 0 <= w -> 0 <= wrapu w x < 2 ^ w.
Proof. intros. unfold wrapu. apply Z.mod_pos_bound. lia. Qed.

Lemma wrapu_id w x : 0 <= x < 2 ^ w -> wrapu w x = x.
Proof. intros. unfold wrapu. by apply Z.mod_small. Qed.

Lemma wrapu_wrapu w x : 0 <= w -> wrapu w (wrapu w x) = wrapu w x.
Proof. intros. apply wrapu_id, wrapu_range. done. Qed.

Lemma wraps_id w x : 0 < w -> - 2 ^ (w - 1) <= x < 2 ^ (w - 1) -> wraps w x = x.
Proof.
  intros Hw Hx. unfold wraps.
  assert (2 ^ w = 2 * 2 ^ (w - 1)) as Hp.
  { rewrite <- Z.pow_succ_r by lia. f_equal. lia. }
  rewrite Z.mod_small by lia. lia.
Qed.

Lemma wraps_range w x : 0 < w -> - 2 ^ (w - 1) <= wraps w x < 2 ^ (w - 1).
Proof.
  intros Hw. unfold wraps.
  assert (2 ^ w = 2 * 2 ^ (w - 1)) as Hp.
  { rewrite <- Z.pow_succ_r by lia. f_equal. lia. }
  pose proof (Z.mod_pos_bound (x + 2 ^ (w - 1)) (2 ^ w)). lia.
Qed.

Lemma u8_range x : 0 <= u8 x < 256.
Proof. by apply (wrapu_range 8). Qed.
Lemma u16_range x : 0 <= u16 x < 65536.
Proof. by apply (wrapu_range 16). Qed.
Lemma u32_range x : 0 <= u32 x < 4294967296.
Proof. by apply (wrapu_range 32). Qed.
Lemma u8_id x : 0 <= x < 256 -> u8 x = x.
Proof. apply (wrapu_id 8). Qed.
Lemma u16_id x : 0 <= x < 65536 -> u16 x = x.
Proof. apply (wrapu_id 16). Qed.
Lemma u32_id x : 0 <= x < 4294967296 -> u32 x = x.
Proof. apply (wrapu_id 32). Qed.
Lemma s32_id x : -2147483648 <= x < 2147483648 -> s32 x = x.
Proof. apply (wraps_id 32). lia. Qed.
Lemma s32_range x : -2147483648 <= s32 x < 2147483648.
Proof. apply (wraps_range 32). lia. Qed.

#[export] Hint Resolve u8_range u16_range u32_range s32_range : width.
#[export] Hint Rewrite u8_id u16_id u32_id s32_id using lia : width.

(** Facts [lia] needs about every truncation in sight. *)
Ltac pose_widths :=
  repeat match goal with
  | |- context [u8 ?x] => assert_fails (assert (0 <= u8 x < 256) by assumption);
      pose proof (u8_range x)
  | |- context [u16 ?x] => assert_fails (assert (0 <= u16 x < 65536) by assumption);
      pose proof (u16_range x)
  | |- context [u32 ?x] => assert_fails (assert (0 <= u32 x < 4294967296) by assumption);
      pose proof (u32_range x)
  end.

(** Case split on every boolean comparison in the goal and the hypotheses,
    turning each into the proposition it decides. *)
Ltac zcase :=
  repeat match goal with
  | |- context [?a <? ?b] => destruct (Z.ltb_spec a b)
  | |- context [?a <=? ?b] => destruct (Z.leb_spec a b)
  | |- context [?a =? ?b] => destruct (Z.eqb_spec a b)
  | H : context [?a <? ?b] |- _ => destruct (Z.ltb_spec a b)
  | H : context [?a <=? ?b] |- _ => destruct (Z.leb_spec a b)
  | H : context [?a =? ?b] |- _ => destruct (Z.eqb_spec a b)
  end.

(** [lia] with [/] and [mod] by constants. *)
Ltac dlia := Z.to_euclidean_division_equations; lia.

(** ** Bytes in memory (little endian, as the ARM build of the repository) *)

Fixpoint le_bytes (n : nat) (x : Z) : list Z :=
  match n with
  | O => []
  | S n' => x mod 256 :: le_bytes n' (x / 256)
  end.

Fixpoint le_val (l : list Z) : Z :=
  match l with
  | [] => 0
  | b :: l' => b + 256 * le_val l'
  end.

Definition byte_range (b : Z) : Prop := 0 <= b < 256.

(** Checking a boolean property of every byte by computation. *)
Lemma byte_forallb (P : Z -> bool) :
  forallb P (seqZ 0 256) = true -> forall c, byte_range c -> P c = true.
Proof.
  intros H c Hc. rewrite forallb_forall in H. apply H.
  apply list_elem_of_In, elem_of_seqZ. unfold byte_range in Hc. lia.
Qed.

Lemma length_le_bytes n x : length (le_bytes n x) = n.
Proof. revert x. induction n; simpl; auto. Qed.

Lemma le_bytes_range n x : Forall byte_range (le_bytes n x).
Proof.
  revert x. induction n; simpl; intros; constructor; auto.
  apply Z.mod_pos_bound. lia.
Qed.

Lemma le_val_bytes n x : 0 <= x < 256 ^ Z.of_nat n -> le_val (le_bytes n x) = x.
Proof.
  revert x. induction n as [|n IH]; cbn [le_bytes le_val]; intros x Hx; [simpl in Hx; lia|].
  rewrite Nat2Z.inj_succ, Z.pow_succ_r in Hx by lia.
  rewrite IH.
  - pose proof (Z.div_mod x 256). lia.
  - split; [apply Z.div_pos; lia|]. apply Z.div_lt_upper_bound; lia.
Qed.

Lemma le_val_range l : Forall byte_range l -> 0 <= le_val l < 256 ^ Z.of_nat (length l).
Proof.
  induction 1 as [|b l Hb Hl IH]; cbn [le_val length]; [simpl; lia|].
  rewrite Nat2Z.inj_succ, Z.pow_succ_r by lia. unfold byte_range in Hb. lia.
Qed.

Lemma le_val_app l1 l2 :
  le_val (l1 ++ l2) = le_val l1 + 256 ^ Z.of_nat (length l1) * le_val l2.
Proof.
  induction l1 as [|b l1 IH]; cbn [le_val length app].
  - rewrite Z.pow_0_r. lia.
  - rewrite IH, Nat2Z.inj_succ, Z.pow_succ_r by lia. lia.
Qed.

(** Byte order conversions of [include/linux/byteorder] on a little-endian
    machine. *)
Definition ntohs (x : Z) : Z := Z.lor (Z.shiftl (Z.land x 255) 8) (Z.land (Z.shiftr x 8) 255).
Definition ntohl (x : Z) : Z :=
  Z.lor (Z.lor (Z.shiftl (Z.land x 255) 24) (Z.shiftl (Z.land (Z.shiftr x 8) 255) 16))
        (Z.lor (Z.shiftl (Z.land (Z.shiftr x 16) 255) 8) (Z.land (Z.shiftr x 24) 255)).

Lemma lor_shiftl a b n : 0 <= n -> 0 <= b < 2 ^ n -> Z.lor (Z.shiftl a n) b = a * 2 ^ n + b.
Proof.
  intros Hn Hb. assert (Z.land (Z.shiftl a n) b = 0) as H0.
  { apply Z.bits_inj'. intros i Hi. rewrite Z.land_spec, Z.bits_0.
    destruct (Z.ltb_spec i n); [by rewrite Z.shiftl_spec_low|].
    rewrite <- (Z.mod_small b (2 ^ n)), Z.mod_pow2_bits_high by lia. apply andb_false_r. }
  rewrite <- Z.lxor_lor, <- Z.add_nocarry_lxor by done. by rewrite Z.shiftl_mul_pow2.
Qed.

Lemma land_255 x : Z.land x 255 = x mod 256.
Proof. apply (Z.land_ones x 8). lia. Qed.

(** A value stored in network byte order and loaded by the machine. *)
Lemma ntohs_be x : 0 <= x < 65536 -> ntohs (le_val (rev (le_bytes 2 x))) = x.
Proof.
  intros Hx. cbn [le_bytes rev app le_val]. unfold ntohs. rewrite !land_255, Z.shiftr_div_pow2 by lia.
  rewrite lor_shiftl by dlia. dlia.
Qed.

Lemma ntohl_be x : 0 <= x < 4294967296 -> ntohl (le_val (rev (le_bytes 4 x))) = x.
Proof.
  intros Hx. cbn [le_bytes rev app le_val]. unfold ntohl. rewrite !land_255, !Z.shiftr_div_pow2 by lia.
  set (b0 := x mod 256). set (b1 := (x / 256) mod 256). set (b2 := (x / 256 / 256) mod 256).
  set (b3 := (x / 256 / 256 / 256) mod 256).
  assert (0 <= b0 < 256 /\ 0 <= b1 < 256 /\ 0 <= b2 < 256 /\ 0 <= b3 < 256) as (? & ? & ? & ?)
    by (repeat split; apply Z.mod_pos_bound; lia).
  replace ((b3 + 256 * (b2 + 256 * (b1 + 256 * (b0 + 256 * 0)))) mod 256) with b3 by dlia.
  replace ((b3 + 256 * (b2 + 256 * (b1 + 256 * (b0 + 256 * 0)))) / 2 ^ 8 mod 256) with b2 by dlia.
  replace ((b3 + 256 * (b2 + 256 * (b1 + 256 * (b0 + 256 * 0)))) / 2 ^ 16 mod 256) with b1 by dlia.
  replace ((b3 + 256 * (b2 + 256 * (b1 + 256 * (b0 + 256 * 0)))) / 2 ^ 24 mod 256) with b0 by dlia.
  rewrite (lor_shiftl b1 b0 8) by lia.
  rewrite <- Z.lor_assoc, (lor_shiftl b2 (b1 * 2 ^ 8 + b0) 16), lor_shiftl by lia.
  subst b0 b1 b2 b3. dlia.
Qed.

(** ** Bit operations on words *)

Definition test_bit (n x : Z) : bool := Z.testbit x n.
Definition set_bit (n x : Z) : Z := Z.lor x (Z.shiftl 1 n).
Definition clear_bit (n x : Z) : Z := Z.ldiff x (Z.shiftl 1 n).

#[global] Arguments test_bit : simpl never.
#[global] Arguments set_bit : simpl never.
#[global] Arguments clear_bit : simpl never.

Lemma test_set_bit n m x : 0 <= n -> 0 <= m ->
  test_bit m (set_bit n x) = (m =? n) || test_bit m x.
Proof.
  intros. unfold test_bit, set_bit.
  rewrite Z.lor_spec, Z.shiftl_1_l, Z.pow2_bits_eqb, orb_comm, Z.eqb_sym by lia. done.
Qed.

Lemma test_clear_bit n m x : 0 <= n -> 0 <= m ->
  test_bit m (clear_bit n x) = negb (m =? n) && test_bit m x.
Proof.
  intros. unfold test_bit, clear_bit.
  rewrite Z.ldiff_spec, Z.shiftl_1_l, Z.pow2_bits_eqb, andb_comm, Z.eqb_sym by lia. done.
Qed.

#[export] Hint Rewrite test_set_bit test_clear_bit using lia : width.

(** ** Arrays indexed by machine integers

    [zget]/[zset] are array accesses of C: [None] is an access outside the
    array, which the theorems show the code never makes (or makes, where the
    code lacks a bounds check). *)

Definition zget {A} (l : list A) (i : Z) : option A :=
  if 0 <=? i then l !! Z.to_nat i else None.

Definition zset {A} (l : list A) (i : Z) (x : A) : option (list A) :=
  if (0 <=? i) && (i <? Z.of_nat (length l)) then Some (<[Z.to_nat i := x]> l) else None.

Section arrays.
Context {A : Type}.
Implicit Types (l : list A) (x : A).

Lemma zget_Some l i x : zget l i = Some x -> 0 <= i < Z.of_nat (length l).
Proof.
  unfold zget. destruct (Z.leb_spec 0 i); [|done].
  intros H1%lookup_lt_Some. lia.
Qed.

Lemma zget_is_Some l i : 0 <= i < Z.of_nat (length l) -> is_Some (zget l i).
Proof.
  intros. unfold zget. destruct (Z.leb_spec 0 i); [|lia].
  apply lookup_lt_is_Some. lia.
Qed.

Lemma zset_is_Some l i x : 0 <= i < Z.of_nat (length l) -> zset l i x = Some (<[Z.to_nat i := x]> l).
Proof.
  intros. unfold zset. destruct (Z.leb_spec 0 i), (Z.ltb_spec i (Z.of_nat (length l))); try lia. done.
Qed.

Lemma zset_Some_inv l i x l' :
  zset l i x = Some l' -> 0 <= i < Z.of_nat (length l) /\ l' = <[Z.to_nat i := x]> l.
Proof.
  unfold zset. destruct (Z.leb_spec 0 i), (Z.ltb_spec i (Z.of_nat (length l)));
    simpl; intros; simplify_eq; auto with lia.
Qed.

Lemma zset_None l i x : zset l i x = None <-> ~ (0 <= i < Z.of_nat (length l)).
Proof.
  unfold zset. destruct (Z.leb_spec 0 i), (Z.ltb_spec i (Z.of_nat (length l)));
    simpl; split; intros; try done; lia.
Qed.

Lemma zset_length l i x l' : zset l i x = Some l' -> length l' = length l.
Proof. intros [_ ->]%zset_Some_inv. apply length_insert. Qed.

Lemma zget_zset_eq l i x l' : zset l i x = Some l' -> zget l' i = Some x.
Proof.
  intros [? ->]%zset_Some_inv. unfold zget. destruct (Z.leb_spec 0 i); [|lia].
  apply list_lookup_insert_eq. lia.
Qed.

Lemma zget_zset_ne l i j x l' : zset l i x = Some l' -> i <> j -> zget l' j = zget l j.
Proof.
  intros [? ->]%zset_Some_inv Hne. unfold zget. destruct (Z.leb_spec 0 j); [|done].
  apply list_lookup_insert_ne. lia.
Qed.
End arrays.

(** ** Lists *)

Lemma NoDup_fmap_eq {A B} (f : A -> B) (l : list A) (x y : A) :
  NoDup (f <$> l) -> x ∈ l -> y ∈ l -> f x = f y -> x = y.
Proof.
  intros Hnd [i Hi]%list_elem_of_lookup_1 [j Hj]%list_elem_of_lookup_1 E.
  assert ((f <$> l) !! i = Some (f x)) as H1 by (by rewrite list_lookup_fmap, Hi).
  assert ((f <$> l) !! j = Some (f x)) as H2 by (by rewrite list_lookup_fmap, Hj, E).
  pose proof (NoDup_lookup _ _ _ _ Hnd H1 H2). congruence.
Qed.

(** ** Errno values used by the modelled code *)

Definition EPERM : Z := 1.
Definition ENOENT : Z := 2.
Definition EINTR : Z := 4.
Definition ENOMEM : Z := 12.
Definition EEXIST : Z := 17.
Definition ETIME : Z := 62.
Definition ERESTARTSYS : Z := 512.
