(* ===== verification/Sepext.v ===== *)
(** * SEPExtract: data model

    The enumerations, tables and structures of
    [kernel/trace/sepextracttracer/sepext_trace.h],
    [include/trace/sepextract-structures.h] and
    [kernel/trace/sepextract/sepextdefs.c], the in-memory layout of
    [struct sepentry], and the tracepoint calls the instrumented kernel code
    makes ([include/trace/sepextract.h]). *)

From S2P Require Import Prelude.
From stdpp Require Import prelude gmap list strings.
From Stdlib Require Import ZArith Lia.

Open Scope Z_scope.
Open Scope string_scope.
Open Scope list_scope.

(** [enum sepentry_type]: the kinds of trace entries. [__TYPE_LAST] is
    declared as 0, an alias of [__TYPE_FIRST]. *)
Inductive sepentry_type :=
  | __TYPE_FIRST | CTXSWITCH | SERVICEENTRY | SERVICEEXIT | PEUSTART | PEUSTOP
  | PKTEXTRACT | PKTEXTRACTN | PKTSTART | PKTSTOP | PKTENQ | PKTDEQ | LOOPSTART
  | LOOPRESTART | LOOPSTOP | QUEUECOND | THREADCOND | STATECOND | CONDEND | PKTQUEUE
  | PKTQUEUEN | SRVQUEUE | STATEQUEUE | TTWAKEUP | WAKEUP | SIRQRAISE | SLEEP
  | HIRQSTART | HIRQSTOP | SOFTIRQSTART | SOFTIRQSTOP | TASKLETSTART | TASKLETSTOP
  | ENQUEUE | DEQUEUE | WAITCOMPL | COMPL | SEMUP | SEMDOWN | TEMPSYNCH | MIGRATE
  | STARTIDS | ID_QUEUE | ID_SYNCH | ID_STATE.

#[export] Instance sepentry_type_eq_dec : EqDecision sepentry_type.
Proof. solve_decision. Defined.

Definition sepentry_type_val (x : sepentry_type) : Z :=
  match x with
  | __TYPE_FIRST => 0 | CTXSWITCH => 1 | SERVICEENTRY => 2 | SERVICEEXIT => 3
  | PEUSTART => 4 | PEUSTOP => 5 | PKTEXTRACT => 6 | PKTEXTRACTN => 7 | PKTSTART => 8
  | PKTSTOP => 9 | PKTENQ => 10 | PKTDEQ => 11 | LOOPSTART => 12 | LOOPRESTART => 13
  | LOOPSTOP => 14 | QUEUECOND => 15 | THREADCOND => 16 | STATECOND => 17
  | CONDEND => 18 | PKTQUEUE => 19 | PKTQUEUEN => 20 | SRVQUEUE => 21 | STATEQUEUE => 22
  | TTWAKEUP => 23 | WAKEUP => 24 | SIRQRAISE => 25 | SLEEP => 26 | HIRQSTART => 27
  | HIRQSTOP => 28 | SOFTIRQSTART => 29 | SOFTIRQSTOP => 30 | TASKLETSTART => 31
  | TASKLETSTOP => 32 | ENQUEUE => 33 | DEQUEUE => 34 | WAITCOMPL => 35 | COMPL => 36
  | SEMUP => 37 | SEMDOWN => 38 | TEMPSYNCH => 39 | MIGRATE => 40 | STARTIDS => 41
  | ID_QUEUE => 42 | ID_SYNCH => 43 | ID_STATE => 44
  end.

Definition __TYPE_LAST : sepentry_type := __TYPE_FIRST.

(** [typestrings]: the text [usnl] prints for entry type [t], at index [t - 1]. *)
Definition typestrings : list string :=
  [
   "CTXSW     "; "SRVENTRY  "; "SRVEXIT   "; "PEUSTART  "; "PEUSTOP   ";
   "PKTEXTR   "; "PKTEXTRN  "; "PKTSTART  "; "PKTSTOP   "; "PKTENQ    ";
   "PKTDEQ    "; "LOOPSTART "; "LOOPRSTART"; "LOOPSTOP  "; "QUEUECOND ";
   "THREADCOND"; "STATECOND "; "CONDEND   "; "PKTQUEUE  "; "PKTQUEUEN ";
   "SRVQUEUE  "; "STATEQUEUE"; "TTWAKEUP  "; "WAKEUP    "; "SIRQRAISE ";
   "SLEEP     "; "HIRQENTRY "; "HIRQEXIT  "; "SIRQENTRY "; "SIRQEXIT  ";
   "TSKLENTRY "; "TSKLEXIT  "; "ENQUEUE   "; "DEQUEUE   "; "WAITCOMPL ";
   "COMPL     "; "SEMUP     "; "SEMDOWN   "; "TEMPSYNCH "; "MIGRATE"; "----------";
   "ID_QUEUE"; "ID_SYNCH"; "ID_STATE"].

(** [enum sem_queue_id]: packet and service queues. *)
Inductive sem_queue_id :=
  | PKTQ_NOLOC | PKTQ_IP_BACKLOG | PKTQ_BCM4329_TXQ | PKTQ_WL1251_TXQ | PKTQ_NIC_RX
  | PKTQ_NIC_TX | PKTQ_NIC | PKTQ_DMA_READYCMD1 | PKTQ_DMA_READYCMD2
  | PKTQ_DMA_READYCMD3 | PKTQ_DMA_READYCMD4 | PKTQ_DMA_READYCMD5 | PKTQ_DMA_READYCMD6
  | PKTQ_DMA_READYCMD7 | PKTQ_DMA_READYCMD8 | PKTQ_DMA_READYCMD9 | PKTQ_DMA_READYCMD10
  | PKTQ_DMA_READYCMD11 | PKTQ_DMA_READYCMD12 | PKTQ_DMA_READYCMD13
  | PKTQ_DMA_READYCMD14 | PKTQ_DMA_READYCMD15 | PKTQ_DMA_READYCMD16 | PKTQ_QDISK
  | LAST_PKTQ | SRVQ_HI_SOFTIRQ | SRVQ_TIMER_SOFTIRQ | SRVQ_NET_TX_SOFTIRQ
  | SRVQ_NET_RX_SOFTIRQ | SRVQ_BLOCK_SOFTIRQ | SRVQ_BLOCK_IOPOLL_SOFTIRQ
  | SRVQ_TASKLET_SOFTIRQ | SRVQ_SCHED_SOFTIRQ | SRVQ_HRTIMER_SOFTIRQ | SRVQ_TASKLET
  | SRVQ_TASKLET_HI | SRVQ_HRTIMER | SRVQ_OMAP2MCSPI | SRVQ_WL1251_HWWORK | SRVQ_HIRQ
  | QUEUE_LASTSRVQ | STQ_SPISIZES | STQ_SPIOPERATIONS | QUEUE_LASTREGISTERED.

#[export] Instance sem_queue_id_eq_dec : EqDecision sem_queue_id.
Proof. solve_decision. Defined.

Definition sem_queue_id_val (x : sem_queue_id) : Z :=
  match x with
  | PKTQ_NOLOC => 0 | PKTQ_IP_BACKLOG => 1 | PKTQ_BCM4329_TXQ => 2
  | PKTQ_WL1251_TXQ => 3 | PKTQ_NIC_RX => 4 | PKTQ_NIC_TX => 5 | PKTQ_NIC => 6
  | PKTQ_DMA_READYCMD1 => 7 | PKTQ_DMA_READYCMD2 => 8 | PKTQ_DMA_READYCMD3 => 9
  | PKTQ_DMA_READYCMD4 => 10 | PKTQ_DMA_READYCMD5 => 11 | PKTQ_DMA_READYCMD6 => 12
  | PKTQ_DMA_READYCMD7 => 13 | PKTQ_DMA_READYCMD8 => 14 | PKTQ_DMA_READYCMD9 => 15
  | PKTQ_DMA_READYCMD10 => 16 | PKTQ_DMA_READYCMD11 => 17 | PKTQ_DMA_READYCMD12 => 18
  | PKTQ_DMA_READYCMD13 => 19 | PKTQ_DMA_READYCMD14 => 20 | PKTQ_DMA_READYCMD15 => 21
  | PKTQ_DMA_READYCMD16 => 22 | PKTQ_QDISK => 23 | LAST_PKTQ => 24
  | SRVQ_HI_SOFTIRQ => 25 | SRVQ_TIMER_SOFTIRQ => 26 | SRVQ_NET_TX_SOFTIRQ => 27
  | SRVQ_NET_RX_SOFTIRQ => 28 | SRVQ_BLOCK_SOFTIRQ => 29
  | SRVQ_BLOCK_IOPOLL_SOFTIRQ => 30 | SRVQ_TASKLET_SOFTIRQ => 31
  | SRVQ_SCHED_SOFTIRQ => 32 | SRVQ_HRTIMER_SOFTIRQ => 33 | SRVQ_TASKLET => 34
  | SRVQ_TASKLET_HI => 35 | SRVQ_HRTIMER => 36 | SRVQ_OMAP2MCSPI => 37
  | SRVQ_WL1251_HWWORK => 38 | SRVQ_HIRQ => 39 | QUEUE_LASTSRVQ => 40
  | STQ_SPISIZES => 41 | STQ_SPIOPERATIONS => 42 | QUEUE_LASTREGISTERED => 43
  end.

(** [enum sem_queue_type]. *)
Inductive sem_queue_type :=
  | QT_FIFO | QT_PRIO | QT_RED | QT_BITMAP.

#[export] Instance sem_queue_type_eq_dec : EqDecision sem_queue_type.
Proof. solve_decision. Defined.

Definition sem_queue_type_val (x : sem_queue_type) : Z :=
  match x with
  | QT_FIFO => 0 | QT_PRIO => 1 | QT_RED => 2 | QT_BITMAP => 3
  end.

(** [enum sem_queue_operation]. *)
Inductive sem_queue_operation :=
  | QUEUE_ENQUEUE | QUEUE_DEQUEUE.

#[export] Instance sem_queue_operation_eq_dec : EqDecision sem_queue_operation.
Proof. solve_decision. Defined.

Definition sem_queue_operation_val (x : sem_queue_operation) : Z :=
  match x with
  | QUEUE_ENQUEUE => 0 | QUEUE_DEQUEUE => 1
  end.

(** [enum sem_queue_condition]. *)
Inductive sem_queue_condition :=
  | QUEUE_NOTEMPTY | QUEUE_EMPTY.

#[export] Instance sem_queue_condition_eq_dec : EqDecision sem_queue_condition.
Proof. solve_decision. Defined.

Definition sem_queue_condition_val (x : sem_queue_condition) : Z :=
  match x with
  | QUEUE_NOTEMPTY => 0 | QUEUE_EMPTY => 1
  end.

(** [enum sem_synch_id]. *)
Inductive sem_synch_id :=
  | SYNCH_TEMPORARY | SYNCH_DPC | SYNCH_MCSPI_RX | SYNCH_MCSPI_TX | SYNCH_LASTREGISTERED
  | SYNCH_LAST.

#[export] Instance sem_synch_id_eq_dec : EqDecision sem_synch_id.
Proof. solve_decision. Defined.

Definition sem_synch_id_val (x : sem_synch_id) : Z :=
  match x with
  | SYNCH_TEMPORARY => 0 | SYNCH_DPC => 1 | SYNCH_MCSPI_RX => 2 | SYNCH_MCSPI_TX => 3
  | SYNCH_LASTREGISTERED => 4 | SYNCH_LAST => 50
  end.

(** [enum sem_synch_type]. *)
Inductive sem_synch_type :=
  | ST_SEMAPHORE | ST_COMPLETION.

#[export] Instance sem_synch_type_eq_dec : EqDecision sem_synch_type.
Proof. solve_decision. Defined.

Definition sem_synch_type_val (x : sem_synch_type) : Z :=
  match x with
  | ST_SEMAPHORE => 0 | ST_COMPLETION => 1
  end.

(** [enum sem_synch_scope]. *)
Inductive sem_synch_scope :=
  | SYNCH_LOCAL | SYNCH_GLOBAL.

#[export] Instance sem_synch_scope_eq_dec : EqDecision sem_synch_scope.
Proof. solve_decision. Defined.

Definition sem_synch_scope_val (x : sem_synch_scope) : Z :=
  match x with
  | SYNCH_LOCAL => 0 | SYNCH_GLOBAL => 1
  end.

(** [enum sem_thread_condition]. *)
Inductive sem_thread_condition :=
  | THREAD_NOTREADY | THREAD_READY.

#[export] Instance sem_thread_condition_eq_dec : EqDecision sem_thread_condition.
Proof. solve_decision. Defined.

Definition sem_thread_condition_val (x : sem_thread_condition) : Z :=
  match x with
  | THREAD_NOTREADY => 0 | THREAD_READY => 1
  end.

(** [enum sem_state_id]. *)
Inductive sem_state_id :=
  | STATE_IDENTIFYVIADEVICEFILE | STATE_WORKPENDING | STATE_RESCHEDQDISC
  | STATE_STOPQDISC | STATE_READINTERRUPT | STATE_INTERRUPT | STATE_INTERRUPTENABLED
  | STATE_NUMTXCOMPLETE | STATE_IFFORXMIT | STATE_SIZEOFNEXTRXFROMNIC
  | STATE_TRIGGERNICTX | STATE_SINGLE_READ | STATE_DATA_AVAILABLE | STATE_CTRL_AVAILABLE
  | STATE_LASTREGISTERED.

#[export] Instance sem_state_id_eq_dec : EqDecision sem_state_id.
Proof. solve_decision. Defined.

Definition sem_state_id_val (x : sem_state_id) : Z :=
  match x with
  | STATE_IDENTIFYVIADEVICEFILE => 0 | STATE_WORKPENDING => 1 | STATE_RESCHEDQDISC => 2
  | STATE_STOPQDISC => 3 | STATE_READINTERRUPT => 4 | STATE_INTERRUPT => 5
  | STATE_INTERRUPTENABLED => 6 | STATE_NUMTXCOMPLETE => 7 | STATE_IFFORXMIT => 8
  | STATE_SIZEOFNEXTRXFROMNIC => 9 | STATE_TRIGGERNICTX => 10 | STATE_SINGLE_READ => 11
  | STATE_DATA_AVAILABLE => 12 | STATE_CTRL_AVAILABLE => 13
  | STATE_LASTREGISTERED => 100
  end.

(** [enum sem_state_scope]. *)
Inductive sem_state_scope :=
  | STATE_LOCAL | STATE_GLOBAL.

#[export] Instance sem_state_scope_eq_dec : EqDecision sem_state_scope.
Proof. solve_decision. Defined.

Definition sem_state_scope_val (x : sem_state_scope) : Z :=
  match x with
  | STATE_LOCAL => 0 | STATE_GLOBAL => 1
  end.

(** [enum sem_state_operation]. *)
Inductive sem_state_operation :=
  | STATE_READ | STATE_WRITE.

#[export] Instance sem_state_operation_eq_dec : EqDecision sem_state_operation.
Proof. solve_decision. Defined.

Definition sem_state_operation_val (x : sem_state_operation) : Z :=
  match x with
  | STATE_READ => 0 | STATE_WRITE => 1
  end.

(** [struct sem_queue_struct] and [struct sem_synch]; [head] and [variable]
    are addresses (0 = NULL). *)
Record sem_queue_struct := MkQueue {
  sq_type : sem_queue_type; sq_size : Z; sq_head : Z; sq_stringid : string }.

Record sem_synch := MkSynch {
  ss_type : sem_synch_type; ss_variable : Z; ss_stringid : string }.

Definition MAX_QUEUES : Z := 100.
Definition MAX_SYNCH : Z := 50.
Definition MAX_STATE : Z := 100.

(** A C array initialiser zero-fills the elements it does not name. *)
Definition pad {A} (n : nat) (z : A) (l : list A) : list A := l ++ replicate (n - length l) z.

(** [sem_queues] and [sem_synchvars] of [kernel/trace/sepextract/sepextdefs.c]. *)
Definition sem_queues : list sem_queue_struct :=
  pad 100 (MkQueue QT_FIFO 0 0 EmptyString) [
    MkQueue QT_FIFO 0 0 "noloc";
    MkQueue QT_FIFO 1000 0 "ip:backlog";
    MkQueue QT_FIFO 256 0 "bcm4329:txq";
    MkQueue QT_FIFO 0 0 "nic:rxtx";
    MkQueue QT_FIFO 0 0 "dma:readycmd1";
    MkQueue QT_FIFO 0 0 "dma:readycmd2";
    MkQueue QT_FIFO 0 0 "dma:readycmd3";
    MkQueue QT_FIFO 0 0 "dma:readycmd4";
    MkQueue QT_FIFO 0 0 "dma:readycmd5";
    MkQueue QT_FIFO 0 0 "dma:readycmd6";
    MkQueue QT_FIFO 0 0 "dma:readycmd7";
    MkQueue QT_FIFO 0 0 "dma:readycmd8";
    MkQueue QT_FIFO 0 0 "dma:readycmd9";
    MkQueue QT_FIFO 0 0 "dma:readycmd10";
    MkQueue QT_FIFO 0 0 "dma:readycmd11";
    MkQueue QT_FIFO 0 0 "dma:readycmd12";
    MkQueue QT_FIFO 0 0 "dma:readycmd13";
    MkQueue QT_FIFO 0 0 "dma:readycmd14";
    MkQueue QT_FIFO 0 0 "dma:readycmd15";
    MkQueue QT_FIFO 0 0 "dma:readycmd16";
    MkQueue QT_FIFO 0 0 "kernel:qdisc";
    MkQueue QT_FIFO 0 0 "lastpktq";
    MkQueue QT_FIFO 1 0 "softirq:hi";
    MkQueue QT_FIFO 1 0 "softirq:timer";
    MkQueue QT_FIFO 1 0 "softirq:tx";
    MkQueue QT_FIFO 1 0 "softirq:rx";
    MkQueue QT_FIFO 1 0 "softirq:block";
    MkQueue QT_FIFO 1 0 "softirq:block-iopoll";
    MkQueue QT_FIFO 1 0 "softirq:tasklet";
    MkQueue QT_FIFO 1 0 "softirq:sched";
    MkQueue QT_FIFO 1 0 "softirq:hrtimer";
    MkQueue QT_FIFO 0 0 "tasklet:scheduled";
    MkQueue QT_FIFO 0 0 "tasklet:scheduled-hi";
    MkQueue QT_FIFO 0 0 "hrtimer:scheduled";
    MkQueue QT_FIFO 0 0 "wl1251:hwwork"].

Definition sem_synchvars : list sem_synch :=
  pad 50 (MkSynch ST_SEMAPHORE 0 EmptyString) [
    MkSynch ST_COMPLETION 0 "temporary:completion";
    MkSynch ST_SEMAPHORE 0 "bcm4329:dpc";
    MkSynch ST_SEMAPHORE 0 "wl12xx:mcspirx";
    MkSynch ST_SEMAPHORE 0 "wl12xx:mcspitx"].

(** [struct sem_state_condition] has a string only. *)
Definition sem_statevars : list string := pad 100 EmptyString ["kernel:workpending"%string].

(** ** Messages between the tracer and [usnl] *)

Definition NETLINK_NICTEST : Z := 17.
Definition END_OF_DATA : Z := 1000001.
Definition START_TRACING : Z := 1000002.
Definition STOP_TRACING : Z := 1000003.
Definition SYNC_COMPLETE : Z := 1000004.
Definition WAKE_UP_USNL : Z := 1000005.
Definition REQUEST_ENTRY : Z := 1000006.
Definition SEPEXT_STOP : Z := 1.
Definition MAX_EXTRACTORS : Z := 100.

(** ** [struct sepentry] and its layout

    The buffer is allocated with [vmalloc] and not cleared, so the [type]
    field of an entry is a plain 32-bit value: only [trace_entry] makes it the
    value of a [sepentry_type]. On the 32-bit ARM target [int], [long] and
    pointers have 4 bytes, [short] 2, and no padding is needed. *)
Record sepentry := MkEntry {
  se_type : Z;
  se_cycles : Z;
  se_pid1 : Z;
  se_pid2 : Z;
  se_data : Z;
  se_addr : Z;
  se_location : Z;
  se_currpid : Z;
  se_cpu : Z }.

#[export] Instance sepentry_eq_dec : EqDecision sepentry.
Proof. solve_decision. Defined.

Definition sizeof_sepentry : Z := 32.
Definition sizeof_uint : Z := 4.

(** The bytes [memcpy] takes from a [struct sepentry]. *)
Definition sepentry_bytes (e : sepentry) : list Z :=
  le_bytes 4 (se_type e) ++ le_bytes 4 (se_cycles e) ++ le_bytes 4 (se_pid1 e)
  ++ le_bytes 4 (se_pid2 e) ++ le_bytes 4 (se_data e) ++ le_bytes 4 (se_addr e)
  ++ le_bytes 4 (se_location e) ++ le_bytes 2 (se_currpid e) ++ le_bytes 2 (se_cpu e).

Definition field (off len : nat) (b : list Z) : Z := le_val (take len (drop off b)).

(** Reading the same bytes through a [struct sepentry *]. *)
Definition bytes_sepentry (b : list Z) : sepentry := {|
  se_type := field 0 4 b; se_cycles := field 4 4 b; se_pid1 := field 8 4 b;
  se_pid2 := field 12 4 b; se_data := field 16 4 b; se_addr := field 20 4 b;
  se_location := field 24 4 b; se_currpid := field 28 2 b; se_cpu := field 30 2 b |}.

(** The fields hold values of their C types. *)
Record sepentry_wf (e : sepentry) : Prop := {
  wf_type : 0 <= se_type e < 4294967296;
  wf_cycles : 0 <= se_cycles e < 4294967296;
  wf_pid1 : 0 <= se_pid1 e < 4294967296;
  wf_pid2 : 0 <= se_pid2 e < 4294967296;
  wf_data : 0 <= se_data e < 4294967296;
  wf_addr : 0 <= se_addr e < 4294967296;
  wf_location : 0 <= se_location e < 4294967296;
  wf_currpid : 0 <= se_currpid e < 65536;
  wf_cpu : 0 <= se_cpu e < 65536 }.

(** An entry written by [trace_entry]: its type is one of the enumeration. *)
Definition recorded (e : sepentry) : Prop :=
  sepentry_wf e /\ exists t : sepentry_type, t <> __TYPE_FIRST /\ se_type e = sepentry_type_val t.

(** ** Calls of [trace_entry] and of the tracepoints *)

(** The arguments of one call of [trace_entry]. *)
Record te_args := MkTe {
  te_location : Z; te_type : sepentry_type; te_pid1 : Z; te_pid2 : Z;
  te_data : Z; te_addr : Z }.

(** The tracepoints of [include/trace/sepextract.h] that instrumented code
    calls, with their arguments. *)
Inductive tp_event :=
  | tp_srventry (address : Z)
  | tp_srvexit (address : Z)
  | tp_ctxswitch (prev_pid next_pid : Z)
  | tp_hirqstart (irq : Z)
  | tp_hirqstop (irq : Z)
  | tp_peustart (address : Z)
  | tp_peustop (address : Z)
  | tp_pktqueue (pktdata queue head : Z) (op : sem_queue_operation)
  | tp_srvqueue (address queue head : Z) (op : sem_queue_operation)
  | tp_loopstart (maxIterations perQueue from to : Z)
  | tp_looprestart
  | tp_loopstop
  | tp_migrate (newCPU pid : Z)
  | tp_queuecondition (condition : sem_queue_condition) (from to : Z)
  | tp_statecondition (condition : sem_state_id) (value readwrite global : Z)
  | tp_semaphore_up (location sem : Z) (scope : sem_synch_scope)
  | tp_semaphore_down (location sem : Z) (scope : sem_synch_scope)
  | tp_wakeup (location pid : Z)
  | tp_dequeuerq (location pid flags : Z)
  | tp_wait_for_completion (location x : Z) (scope : sem_synch_scope)
  | tp_wait_for_completion_timeout (location x timeout : Z) (scope : sem_synch_scope)
  | tp_wait_for_completion_interruptible (location x : Z) (scope : sem_synch_scope)
  | tp_wait_for_completion_interruptible_timeout (location x timeout : Z) (scope : sem_synch_scope)
  | tp_wait_for_completion_killable (location x : Z) (scope : sem_synch_scope)
  | tp_wait_for_completion_killable_timeout (location x timeout : Z) (scope : sem_synch_scope)
  | tp_try_wait_for_completion (location x : Z) (scope : sem_synch_scope)
  | tp_complete (location x : Z) (scope : sem_synch_scope)
  | tp_complete_all (location x : Z) (scope : sem_synch_scope)
  | tp_tempsynch (location : Z) (type : sem_synch_type) (variable : Z) (scope : sem_synch_scope)
  | tp_softirqraise (sirq : Z)
  | tp_softirqstart (sirq : Z)
  | tp_softirqstop (sirq : Z)
  | tp_pktextract (value length global : Z).

(** ** Layout lemmas *)

Lemma length_sepentry_bytes e : length (sepentry_bytes e) = 32%nat.
Proof. reflexivity. Qed.

Lemma le_val_u32 x : 0 <= x < 4294967296 -> le_val (le_bytes 4 x) = x.
Proof. apply (le_val_bytes 4). Qed.

Lemma le_val_u16 x : 0 <= x < 65536 -> le_val (le_bytes 2 x) = x.
Proof. apply (le_val_bytes 2). Qed.

Lemma bytes_sepentry_bytes e : sepentry_wf e -> bytes_sepentry (sepentry_bytes e) = e.
Proof.
  intros []. destruct e as [ty cy p1 p2 da ad lo cp cu]; simpl in *.
  unfold bytes_sepentry. f_equal.
  - by apply (le_val_u32 ty).
  - by apply (le_val_u32 cy).
  - by apply (le_val_u32 p1).
  - by apply (le_val_u32 p2).
  - by apply (le_val_u32 da).
  - by apply (le_val_u32 ad).
  - by apply (le_val_u32 lo).
  - by apply (le_val_u16 cp).
  - by apply (le_val_u16 cu).
Qed.

(** An entry sent over the netlink socket as the bytes of its structure
    is read back by [usnl] as the same entry. *)
Theorem sepentry_roundtrip (e : sepentry) :
  sepentry_wf e -> bytes_sepentry (sepentry_bytes e) = e.
Proof. apply bytes_sepentry_bytes. Qed.

Definition sample_entry : sepentry := MkEntry 6 4000000000 12 2 77 0 3221225472 310 1.

Lemma sample_entry_recorded : recorded sample_entry.
Proof. split; [split; simpl; lia|]. by exists PKTEXTRACT. Qed.

Lemma sepentry_roundtrip_witness :
  sepentry_wf sample_entry /\ bytes_sepentry (sepentry_bytes sample_entry) = sample_entry.
Proof.
  assert (sepentry_wf sample_entry) as H by (split; simpl; lia).
  split; [exact H|]. exact (sepentry_roundtrip sample_entry H).
Defined.

(** ** The first word of a message

    [usnl] tells control messages from entries by the first [unsigned int] of
    the payload, which in an entry is its type. *)

Definition first_word (b : list Z) : Z := field 0 4 b.

Lemma sepentry_type_val_range t : 0 <= sepentry_type_val t <= 44.
Proof. destruct t; simpl; lia. Qed.

Lemma sepentry_type_val_inj t1 t2 : sepentry_type_val t1 = sepentry_type_val t2 -> t1 = t2.
Proof. destruct t1, t2; simpl; done. Qed.

Lemma first_word_entry e : sepentry_wf e -> first_word (sepentry_bytes e) = se_type e.
Proof. intros []. by apply (le_val_u32 (se_type e)). Qed.

Lemma recorded_type_range e : recorded e -> 0 < se_type e <= 44.
Proof.
  intros (_ & t & Hne & ->). pose proof (sepentry_type_val_range t).
  destruct t; simpl in *; try lia. done.
Qed.

(** [usnl] indexes [typestrings] with [type - 1]. *)
Definition typestring (ty : Z) : option string := zget typestrings (ty - 1).

(** The enumeration and the name table agree in length: [usnl] finds a
    name for every entry [trace_entry] can record, and only the type 0 (which
    no probe uses) would index outside the table. *)
Theorem typestrings_cover (t : sepentry_type) :
  is_Some (typestring (sepentry_type_val t)) <-> t <> __TYPE_FIRST.
Proof.
  split.
  - intros [s Hs] ->. done.
  - intros Hne. destruct t; try done; eexists; reflexivity.
Qed.

(** The queue table of [sepextdefs.c] is not aligned with the enumeration
    that indexes it: the three identifiers added after [PKTQ_BCM4329_TXQ] have
    no row, so the row of every later queue is that of another one. *)
Theorem sem_queues_misaligned :
  (fun q => sq_stringid <$> zget sem_queues (sem_queue_id_val q))
    <$> [PKTQ_BCM4329_TXQ; PKTQ_NIC; SRVQ_HI_SOFTIRQ; SRVQ_TASKLET_SOFTIRQ; SRVQ_TASKLET]
  = [Some "bcm4329:txq"; Some "dma:readycmd3"; Some "softirq:rx"; Some "tasklet:scheduled";
     Some "wl1251:hwwork"].
Proof. reflexivity. Qed.
