(* ===== verification/Vsprintf.v ===== *)
(** * Number scanning and printing of the kernel

    [lib/ctype.c] and [include/linux/ctype.h], [skip_spaces] of
    [lib/string.c], and the parts of [lib/vsprintf.c] the tracer's proc files
    rely on: [simple_strtoull] and its siblings, [vsscanf], and the decimal
    conversion [put_dec].

    A C string is the list of its bytes before the terminating NUL, so the
    character at the end of the list is 0; a pointer into the string is the
    suffix it points to. [char] is unsigned and [long] has 32 bits on the
    target. *)

From S2P Require Import Prelude.
From stdpp Require Import prelude gmap list strings.
From Stdlib Require Import ZArith Lia Ascii.

Open Scope Z_scope.
Open Scope list_scope.

Definition bytes_of (s : string) : list Z :=
  (fun c => Z.of_N (N_of_ascii c)) <$> String.list_ascii_of_string s.

(** [*p] and [p[i]] of a NUL-terminated string. *)
Definition ch (p : list Z) : Z := default 0 (p !! 0%nat).
Definition ch_at (p : list Z) (i : nat) : Z := default 0 (p !! i).

Module Ctype.

Definition _U : Z := 1.
Definition _L : Z := 2.
Definition _D : Z := 4.
Definition _C : Z := 8.
Definition _P : Z := 16.
Definition _S : Z := 32.
Definition _X : Z := 64.
Definition _SP : Z := 128.

Definition _ctype : list Z := [
    8; 8; 8; 8; 8; 8; 8; 8;
    8; 40; 40; 40; 40; 40; 8; 8;
    8; 8; 8; 8; 8; 8; 8; 8;
    8; 8; 8; 8; 8; 8; 8; 8;
    160; 16; 16; 16; 16; 16; 16; 16;
    16; 16; 16; 16; 16; 16; 16; 16;
    4; 4; 4; 4; 4; 4; 4; 4;
    4; 4; 16; 16; 16; 16; 16; 16;
    16; 65; 65; 65; 65; 65; 65; 1;
    1; 1; 1; 1; 1; 1; 1; 1;
    1; 1; 1; 1; 1; 1; 1; 1;
    1; 1; 1; 16; 16; 16; 16; 16;
    16; 66; 66; 66; 66; 66; 66; 2;
    2; 2; 2; 2; 2; 2; 2; 2;
    2; 2; 2; 2; 2; 2; 2; 2;
    2; 2; 2; 16; 16; 16; 16; 8;
    0; 0; 0; 0; 0; 0; 0; 0; 0; 0; 0; 0; 0; 0; 0; 0;
    0; 0; 0; 0; 0; 0; 0; 0; 0; 0; 0; 0; 0; 0; 0; 0;
    160; 16; 16; 16; 16; 16; 16; 16; 16; 16; 16; 16; 16; 16; 16; 16;
    16; 16; 16; 16; 16; 16; 16; 16; 16; 16; 16; 16; 16; 16; 16; 16;
    1; 1; 1; 1; 1; 1; 1; 1; 1; 1; 1; 1; 1; 1; 1; 1;
    1; 1; 1; 1; 1; 1; 1; 16; 1; 1; 1; 1; 1; 1; 1; 2;
    2; 2; 2; 2; 2; 2; 2; 2; 2; 2; 2; 2; 2; 2; 2; 2;
    2; 2; 2; 2; 2; 2; 2; 16; 2; 2; 2; 2; 2; 2; 2; 2].

Definition __ismask (x : Z) : Z := default 0 (zget _ctype (u8 x)).
Definition isdigit (c : Z) : bool := ctrue (Z.land (__ismask c) _D).
Definition isspace (c : Z) : bool := ctrue (Z.land (__ismask c) _S).
Definition isxdigit (c : Z) : bool := ctrue (Z.land (__ismask c) (Z.lor _D _X)).
Definition isupper (c : Z) : bool := ctrue (Z.land (__ismask c) _U).
Definition islower (c : Z) : bool := ctrue (Z.land (__ismask c) _L).

End Ctype.
Export Ctype.

Definition TOLOWER (x : Z) : Z := Z.lor x 32.

(** [skip_spaces] of [lib/string.c]. *)
Fixpoint skip_spaces (str : list Z) : list Z :=
  match str with
  | [] => []
  | c :: str' => if isspace c then skip_spaces str' else str
  end.

Definition simple_guess_base (cp : list Z) : Z :=
  if ch cp =? 48 then
    if (TOLOWER (ch_at cp 1) =? 120) && isxdigit (ch_at cp 2) then 16 else 8
  else 10.

(** The digit loop of [simple_strtoull]. *)
Fixpoint strtoull_loop (base result : Z) (cp : list Z) : Z * list Z :=
  match cp with
  | [] => (result, [])
  | c :: cp' =>
      if isxdigit c then
        let value := if isdigit c then u32 (c - 48) else u32 (TOLOWER c - 97 + 10) in
        if base <=? value then (result, cp)
        else strtoull_loop base (u64 (result * base + value)) cp'
      else (result, cp)
  end.

(** The result and [*endp]. *)
Definition simple_strtoull (cp : list Z) (base : Z) : Z * list Z :=
  let base := if base =? 0 then simple_guess_base cp else base in
  let cp := if (base =? 16) && (ch cp =? 48) && (TOLOWER (ch_at cp 1) =? 120)
            then drop 2 cp else cp in
  strtoull_loop base 0 cp.

Definition simple_strtoul (cp : list Z) (base : Z) : Z * list Z :=
  let '(r, endp) := simple_strtoull cp base in (u32 r, endp).

Definition simple_strtol (cp : list Z) (base : Z) : Z * list Z :=
  if ch cp =? 45 then
    let '(r, endp) := simple_strtoul (drop 1 cp) base in (s32 (u32 (- r)), endp)
  else let '(r, endp) := simple_strtoul cp base in (s32 r, endp).

Definition simple_strtoll (cp : list Z) (base : Z) : Z * list Z :=
  if ch cp =? 45 then
    let '(r, endp) := simple_strtoull (drop 1 cp) base in (s64 (u64 (- r)), endp)
  else let '(r, endp) := simple_strtoull cp base in (s64 r, endp).

Fixpoint skip_atoi_loop (i : Z) (s : list Z) : Z * list Z :=
  match s with
  | [] => (i, [])
  | c :: s' => if isdigit c then skip_atoi_loop (s32 (i * 10 + c - 48)) s' else (i, s)
  end.

Definition skip_atoi (s : list Z) : Z * list Z := skip_atoi_loop 0 s.

(** ** [vsscanf]

    The values stored through the variadic pointers are returned in order:
    an integer of a given width, the bytes stored for [%c] and [%s], or the
    count stored for [%n]. *)

Inductive scan_store :=
  | StNum (bits : Z) (signed : bool) (v : Z)
  | StBytes (l : list Z)
  | StCount (n : Z).

Record scan := MkScan {
  sc_str : list Z; sc_fmt : list Z; sc_num : Z; sc_out : list scan_store }.

(** How one iteration of the loop of [vsscanf] ends. *)
Inductive scan_res :=
  | ScContinue (s : scan)
  | ScBreak (s : scan)
  | ScReturn (s : scan).

Fixpoint scan_c (fw : Z) (str : list Z) : list Z * list Z :=
  match str with
  | [] => ([], [])
  | c :: str' =>
      let fw := s16 (fw - 1) in
      if (0 <? fw) && ctrue (ch str')
      then let '(cs, rest) := scan_c fw str' in (c :: cs, rest)
      else ([c], str')
  end.

Fixpoint scan_s (fw : Z) (str : list Z) : list Z * list Z :=
  match str with
  | [] => ([], [])
  | c :: str' =>
      if negb (isspace c) && ctrue fw
      then let '(cs, rest) := scan_s (s16 (fw - 1)) str' in (c :: cs, rest)
      else ([], str)
  end.

Fixpoint skip_fmt_star (fmt : list Z) : list Z :=
  match fmt with
  | [] => []
  | c :: fmt' => if isspace c || (c =? 37) then fmt else skip_fmt_star fmt'
  end.

Fixpoint skip_nonspace (str : list Z) : list Z :=
  match str with
  | [] => []
  | c :: str' => if isspace c then str else skip_nonspace str'
  end.

(** The conversion qualifier: 'h', 'l', 'L', 'z', 'Z', the doubled 'hh' as
    'H' and 'll' as 'L', and 255 for none. *)
Definition scan_qualifier (fmt : list Z) : Z * list Z :=
  let c := ch fmt in
  if (c =? 104) || (TOLOWER c =? 108) || (TOLOWER c =? 122) then
    let fmt := drop 1 fmt in
    if c =? ch fmt then
      if c =? 104 then (72, drop 1 fmt)
      else if c =? 108 then (76, drop 1 fmt)
      else (c, fmt)
    else (c, fmt)
  else (255, fmt).

(** The store of an integer conversion, by qualifier. *)
Definition scan_number (qualifier base : Z) (is_sign : bool) (str : list Z) : scan_store * list Z :=
  if qualifier =? 72 then
    if is_sign then let '(v, next) := simple_strtol str base in (StNum 8 true (s8 v), next)
    else let '(v, next) := simple_strtoul str base in (StNum 8 false (u8 v), next)
  else if qualifier =? 104 then
    if is_sign then let '(v, next) := simple_strtol str base in (StNum 16 true (s16 v), next)
    else let '(v, next) := simple_strtoul str base in (StNum 16 false (u16 v), next)
  else if qualifier =? 108 then
    if is_sign then let '(v, next) := simple_strtol str base in (StNum 32 true v, next)
    else let '(v, next) := simple_strtoul str base in (StNum 32 false v, next)
  else if qualifier =? 76 then
    if is_sign then let '(v, next) := simple_strtoll str base in (StNum 64 true v, next)
    else let '(v, next) := simple_strtoull str base in (StNum 64 false v, next)
  else if (qualifier =? 90) || (qualifier =? 122) then
    let '(v, next) := simple_strtoul str base in (StNum 32 false v, next)
  else
    if is_sign then let '(v, next) := simple_strtol str base in (StNum 32 true (s32 v), next)
    else let '(v, next) := simple_strtoul str base in (StNum 32 false (u32 v), next).

(** The integer conversions after the [switch] on the conversion character. *)
Definition scan_integer (qualifier base : Z) (is_sign : bool) (s : scan) : scan_res :=
  let str := skip_spaces (sc_str s) in
  let digit := if is_sign && (ch str =? 45) then ch_at str 1 else ch str in
  if (digit =? 0)
     || ((base =? 16) && negb (isxdigit digit))
     || ((base =? 10) && negb (isdigit digit))
     || ((base =? 8) && (negb (isdigit digit) || (55 <? digit)))
     || ((base =? 0) && negb (isdigit digit))
  then ScBreak (MkScan str (sc_fmt s) (sc_num s) (sc_out s))
  else
    let '(st, next) := scan_number qualifier base is_sign str in
    ScContinue (MkScan next (sc_fmt s) (s32 (sc_num s + 1)) (sc_out s ++ [st])).

(** The [switch] on the conversion character: [fmt] is past the conversion character [c]. *)
Definition scan_conversion (buf : list Z) (c qualifier field_width : Z) (s : scan) : scan_res :=
  if c =? 99 then
    let '(cs, rest) := scan_c (if field_width =? -1 then 1 else field_width) (sc_str s) in
    ScContinue (MkScan rest (sc_fmt s) (s32 (sc_num s + 1)) (sc_out s ++ [StBytes cs]))
  else if c =? 115 then
    let '(cs, rest) := scan_s (if field_width =? -1 then 32767 else field_width)
                              (skip_spaces (sc_str s)) in
    ScContinue (MkScan rest (sc_fmt s) (s32 (sc_num s + 1)) (sc_out s ++ [StBytes (cs ++ [0])]))
  else if c =? 110 then
    ScContinue (MkScan (sc_str s) (sc_fmt s) (sc_num s)
      (sc_out s ++ [StCount (Z.of_nat (length buf) - Z.of_nat (length (sc_str s)))]))
  else if c =? 111 then scan_integer qualifier 8 false s
  else if (c =? 120) || (c =? 88) then scan_integer qualifier 16 false s
  else if c =? 105 then scan_integer qualifier 0 true s
  else if c =? 100 then scan_integer qualifier 10 true s
  else if c =? 117 then scan_integer qualifier 10 false s
  else if c =? 37 then
    if negb (ch (sc_str s) =? 37)
    then ScReturn (MkScan (drop 1 (sc_str s)) (sc_fmt s) (sc_num s) (sc_out s))
    else ScContinue (MkScan (drop 1 (sc_str s)) (sc_fmt s) (sc_num s) (sc_out s))
  else ScReturn s.

(** One iteration of the loop of [vsscanf], entered with both non-empty. *)
Definition vsscanf_iter (buf : list Z) (s : scan) : scan_res :=
  let '(fmt, str) :=
    if isspace (ch (sc_fmt s))
    then (skip_spaces (drop 1 (sc_fmt s)), skip_spaces (sc_str s))
    else (sc_fmt s, sc_str s) in
  if negb (ch fmt =? 37) && ctrue (ch fmt) then
    if ch fmt =? ch str
    then ScContinue (MkScan (drop 1 str) (drop 1 fmt) (sc_num s) (sc_out s))
    else ScBreak (MkScan (drop 1 str) (drop 1 fmt) (sc_num s) (sc_out s))
  else if ch fmt =? 0 then ScBreak (MkScan str fmt (sc_num s) (sc_out s))
  else
    let fmt := drop 1 fmt in
    if ch fmt =? 42 then
      ScContinue (MkScan (skip_nonspace str) (skip_fmt_star fmt) (sc_num s) (sc_out s))
    else
      let '(field_width, fmt) :=
        if isdigit (ch fmt) then let '(i, f) := skip_atoi fmt in (s16 i, f) else (-1, fmt) in
      let '(qualifier, fmt) := scan_qualifier fmt in
      if (ch fmt =? 0) || (ch str =? 0)
      then ScBreak (MkScan str fmt (sc_num s) (sc_out s))
      else scan_conversion buf (ch fmt) qualifier field_width
             (MkScan str (drop 1 fmt) (sc_num s) (sc_out s)).

(** The trailing [%n] the code fills after the loop. *)
Definition vsscanf_tail (buf : list Z) (s : scan) : Z * list scan_store :=
  if (ch (sc_fmt s) =? 37) && (ch_at (sc_fmt s) 1 =? 110)
  then (sc_num s, sc_out s ++ [StCount (Z.of_nat (length buf) - Z.of_nat (length (sc_str s)))])
  else (sc_num s, sc_out s).

(** [None] is running out of fuel; [vsscanf_terminates] shows that the length
    of the format is enough. *)
Fixpoint vsscanf_loop (fuel : nat) (buf : list Z) (s : scan) : option (Z * list scan_store) :=
  match fuel with
  | O => None
  | S fuel' =>
      if ctrue (ch (sc_fmt s)) && ctrue (ch (sc_str s)) then
        match vsscanf_iter buf s with
        | ScContinue s' => vsscanf_loop fuel' buf s'
        | ScBreak s' => Some (vsscanf_tail buf s')
        | ScReturn s' => Some (sc_num s', sc_out s')
        end
      else Some (vsscanf_tail buf s)
  end.

Definition vsscanf (buf fmt : list Z) : option (Z * list scan_store) :=
  vsscanf_loop (S (length fmt)) buf (MkScan buf fmt 0 []).

Definition sscanf (buf fmt : list Z) : option (Z * list scan_store) := vsscanf buf fmt.

Example sscanf_ex1 : sscanf (bytes_of "4 20 2") (bytes_of "%u %u %u")
  = Some (3, [StNum 32 false 4; StNum 32 false 20; StNum 32 false 2]).
Proof. vm_compute. reflexivity. Qed.

Example sscanf_ex2 : sscanf (bytes_of "0xc001D00d  12") (bytes_of "%x %x")
  = Some (2, [StNum 32 false 3221344269; StNum 32 false 18]).
Proof. vm_compute. reflexivity. Qed.

Example sscanf_ex3 : sscanf (bytes_of " -17 abc rest") (bytes_of "%hhd%s%n")
  = Some (2, [StNum 8 true (-17); StBytes [97; 98; 99; 0]; StCount 8]).
Proof. vm_compute. reflexivity. Qed.

(** ** Decimal conversion

    [put_dec_trunc], [put_dec_full] and [put_dec] return the characters they
    append to the buffer, least significant digit first. The arguments of the
    first two are below 100000, where no intermediate value leaves 32 bits. *)

Definition put_dec_trunc (q : Z) : list Z :=
  let d1 := Z.land (Z.shiftr q 4) 15 in
  let d2 := Z.land (Z.shiftr q 8) 15 in
  let d3 := Z.shiftr q 12 in
  let d0 := 6 * (d3 + d2 + d1) + Z.land q 15 in
  let q := Z.shiftr (d0 * 205) 11 in
  let d0 := d0 - 10 * q in
  (d0 + 48) ::
  let d1 := q + 9 * d3 + 5 * d2 + d1 in
  if negb (d1 =? 0) then
    let q := Z.shiftr (d1 * 205) 11 in
    let d1 := d1 - 10 * q in
    (d1 + 48) ::
    let d2 := q + 2 * d2 in
    if negb (d2 =? 0) || negb (d3 =? 0) then
      let q := Z.shiftr (d2 * 13) 7 in
      let d2 := d2 - 10 * q in
      (d2 + 48) ::
      let d3 := q + 4 * d3 in
      if negb (d3 =? 0) then
        let q := Z.shiftr (d3 * 205) 11 in
        let d3 := d3 - 10 * q in
        (d3 + 48) :: (if negb (q =? 0) then [q + 48] else [])
      else []
    else []
  else [].

Definition put_dec_full (q : Z) : list Z :=
  let d1 := Z.land (Z.shiftr q 4) 15 in
  let d2 := Z.land (Z.shiftr q 8) 15 in
  let d3 := Z.shiftr q 12 in
  let d0 := 6 * (d3 + d2 + d1) + Z.land q 15 in
  let q := Z.shiftr (d0 * 205) 11 in
  let d0 := d0 - 10 * q in
  let d1 := q + 9 * d3 + 5 * d2 + d1 in
  let q := Z.shiftr (d1 * 205) 11 in
  let d1 := d1 - 10 * q in
  let d2 := q + 2 * d2 in
  let q := Z.shiftr (d2 * 13) 7 in
  let d2 := d2 - 10 * q in
  let d3 := q + 4 * d3 in
  let q := Z.shiftr (d3 * 205) 11 in
  let d3 := d3 - 10 * q in
  [d0 + 48; d1 + 48; d2 + 48; d3 + 48; q + 48].

(** [do_div(num, 100000)] divides in place and returns the remainder. *)
Fixpoint put_dec_loop (fuel : nat) (num : Z) : option (list Z) :=
  match fuel with
  | O => None
  | S fuel' =>
      if num <? 100000 then Some (put_dec_trunc num)
      else (put_dec_full (num mod 100000) ++.) <$> put_dec_loop fuel' (num / 100000)
  end.

Definition put_dec (num : Z) : option (list Z) := put_dec_loop 4 num.

(** Reference: the decimal digits of [n], least significant first, with no
    leading zero ([fuel] bounds their number). *)
Fixpoint dec_lsb (fuel : nat) (n : Z) : list Z :=
  match fuel with
  | O => []
  | S fuel' => n mod 10 :: (if n / 10 =? 0 then [] else dec_lsb fuel' (n / 10))
  end.

Example put_dec_ex : put_dec 18446744073709551615
  = Some ((fun d => d + 48) <$> dec_lsb 20 18446744073709551615).
Proof. vm_compute. reflexivity. Qed.

Section put_dec_proofs.

Lemma shiftr_div x n : 0 <= n -> Z.shiftr x n = x / 2 ^ n.
Proof. apply Z.shiftr_div_pow2. Qed.

Lemma land_15 x : Z.land x 15 = x mod 16.
Proof. by apply (Z.land_ones x 4). Qed.

Lemma mul_205 x : 0 <= x <= 400 -> x * 205 / 2048 = x / 10.
Proof.
  intros. symmetry. apply (Z.div_unique _ _ _ (2 * (x / 10) + 205 * (x mod 10))).
  - left. dlia.
  - pose proof (Z.div_mod x 10). dlia.
Qed.

Lemma mul_13 x : 0 <= x <= 68 -> x * 13 / 128 = x / 10.
Proof.
  intros. symmetry. apply (Z.div_unique _ _ _ (2 * (x / 10) + 13 * (x mod 10))).
  - left. dlia.
  - pose proof (Z.div_mod x 10). dlia.
Qed.

(** The four hexadecimal digits of [q], the partial sums of the code and the
    decimal digits they stand for. *)
Lemma dec_partial_sums q :
  0 <= q < 100000 ->
  let d1 := q / 16 mod 16 in let d2 := q / 256 mod 16 in let d3 := q / 4096 in
  let s0 := 6 * (d3 + d2 + d1) + q mod 16 in
  let s1 := s0 / 10 + 9 * d3 + 5 * d2 + d1 in
  let s2 := s1 / 10 + 2 * d2 in
  let s3 := s2 / 10 + 4 * d3 in
  (0 <= s0 <= 400 /\ 0 <= s1 <= 400 /\ 0 <= s2 <= 68 /\ 0 <= s3 <= 400) /\
  (0 <= d1 /\ 0 <= d2 /\ 0 <= d3) /\
  q mod 10 = s0 - 10 * (s0 / 10) /\ q / 10 = s1 + 20 * d2 + 400 * d3 /\
  q / 10 mod 10 = s1 - 10 * (s1 / 10) /\ q / 10 / 10 = s2 + 40 * d3 /\
  q / 10 / 10 mod 10 = s2 - 10 * (s2 / 10) /\ q / 10 / 10 / 10 = s3 /\
  q / 10 / 10 / 10 mod 10 = s3 - 10 * (s3 / 10) /\ q / 10 / 10 / 10 / 10 = s3 / 10 /\
  s3 / 10 < 10.
Proof.
  intros Hq d1 d2 d3 s0 s1 s2 s3.
  assert (q = 4096 * d3 + 256 * d2 + 16 * d1 + q mod 16) as Hsplit by (subst d1 d2 d3; dlia).
  assert (0 <= d1 < 16) by (subst d1; dlia). assert (0 <= d2 < 16) by (subst d2; dlia).
  assert (0 <= d3 < 25) by (subst d3; dlia). assert (0 <= q mod 16 < 16) by dlia.
  clearbody d1 d2 d3. subst s0. set (s0 := 6 * (d3 + d2 + d1) + q mod 16) in *.
  assert (q = s0 + 10 * d1 + 250 * d2 + 4090 * d3) by dlia.
  assert (0 <= s0 <= 400) by dlia. clearbody s0.
  assert (q / 10 = s1 + 20 * d2 + 400 * d3) by (subst s1; dlia).
  assert (0 <= s1 <= 400) by (subst s1; dlia).
  assert (q mod 10 = s0 - 10 * (s0 / 10)) by dlia. clearbody s1.
  assert (q / 10 / 10 = s2 + 40 * d3) by (subst s2; dlia).
  assert (0 <= s2 <= 68) by (subst s2; dlia).
  assert (q / 10 mod 10 = s1 - 10 * (s1 / 10)) by dlia. clearbody s2.
  assert (q / 10 / 10 / 10 = s3) by (subst s3; dlia).
  assert (0 <= s3 <= 400) by (subst s3; dlia).
  assert (q / 10 / 10 mod 10 = s2 - 10 * (s2 / 10)) by dlia. clearbody s3.
  repeat split; dlia.
Qed.

Lemma put_dec_full_spec q :
  0 <= q < 100000 ->
  put_dec_full q = (fun d => d + 48) <$>
    [q mod 10; q / 10 mod 10; q / 10 / 10 mod 10; q / 10 / 10 / 10 mod 10; q / 10 / 10 / 10 / 10].
Proof.
  intros Hq. pose proof (dec_partial_sums q Hq) as H; cbv zeta in H.
  destruct H as ((H0 & H1 & H2 & H3) & _ & E0 & _ & E1 & _ & E2 & _ & E3 & E4 & _).
  unfold put_dec_full. rewrite !shiftr_div, !land_15 by lia.
  change (2 ^ 4) with 16. change (2 ^ 8) with 256. change (2 ^ 12) with 4096.
  change (2 ^ 11) with 2048. change (2 ^ 7) with 128. cbn [fmap list_fmap].
  rewrite E0, E1, E2, E3, E4.
  rewrite (mul_205 _ H0), (mul_205 _ H1), (mul_13 _ H2), (mul_205 _ H3). done.
Qed.

Lemma put_dec_trunc_spec q :
  0 <= q < 100000 -> put_dec_trunc q = (fun d => d + 48) <$> dec_lsb 5 q.
Proof.
  intros Hq. pose proof (dec_partial_sums q Hq) as H; cbv zeta in H.
  destruct H as ((H0 & H1 & H2 & H3) & Hd & E0 & F1 & E1 & F2 & E2 & F3 & E3 & E4 & H10).
  unfold put_dec_trunc. rewrite !shiftr_div, !land_15 by lia.
  change (2 ^ 4) with 16. change (2 ^ 8) with 256. change (2 ^ 12) with 4096.
  change (2 ^ 11) with 2048. change (2 ^ 7) with 128. cbv zeta.
  rewrite (mul_205 _ H0), (mul_205 _ H1), (mul_13 _ H2), (mul_205 _ H3).
  cbn [dec_lsb]. rewrite E4, E3, F3, E2, F2, E1, F1, E0.
  set (s1 := _ / 10 + 9 * _ + 5 * _ + _) in *.
  set (s2 := s1 / 10 + 2 * _) in *. set (s3 := s2 / 10 + 4 * _) in *.
  rewrite (Z.mod_small (s3 / 10)), (Z.div_small (s3 / 10)) by dlia.
  assert (s1 = 0 -> q / 256 mod 16 = 0 /\ q / 4096 = 0) by (subst s1; dlia).
  assert (0 <= s3 / 10) by dlia.
  clear E0 F1 E1 F2 E2 F3 E3 E4. clearbody s3 s2 s1.
  set (d2 := q / 256 mod 16) in *. set (d3 := q / 4096) in *. clearbody d2 d3.
  set (t := s3 / 10) in *. clearbody t.
  zcase; simpl; try reflexivity; exfalso; lia.
Qed.

Lemma dec_lsb_step5 f n :
  100000 <= n ->
  dec_lsb (5 + f) n =
    (let q := n mod 100000 in
     [q mod 10; q / 10 mod 10; q / 10 / 10 mod 10; q / 10 / 10 / 10 mod 10; q / 10 / 10 / 10 / 10])
    ++ dec_lsb f (n / 100000).
Proof.
  intros Hn. cbn [dec_lsb Nat.add app]. rewrite !Z.div_div by lia. cbn [Z.mul Pos.mul].
  zcase; try dlia. do 5 (apply (f_equal2 cons); [dlia|]). done.
Qed.

Lemma dec_lsb_fuel f k n : 0 <= n < 10 ^ Z.of_nat f -> (0 < f)%nat -> dec_lsb (f + k) n = dec_lsb f n.
Proof.
  revert n. induction f as [|f IH]; intros n Hn Hf; [lia|].
  cbn [dec_lsb Nat.add]. f_equal. destruct (Z.eqb_spec (n / 10) 0); [done|].
  rewrite Nat2Z.inj_succ, Z.pow_succ_r in Hn by lia.
  destruct f; [simpl in Hn; dlia|]. apply IH; [|lia].
  split; [dlia|]. apply Z.div_lt_upper_bound; lia.
Qed.

Lemma put_dec_loop_S f num :
  put_dec_loop (S f) num =
    if num <? 100000 then Some (put_dec_trunc num)
    else (put_dec_full (num mod 100000) ++.) <$> put_dec_loop f (num / 100000).
Proof. done. Qed.

Lemma put_dec_loop_spec f num :
  0 <= num < 100000 ^ Z.of_nat (S f) ->
  put_dec_loop (S f) num = Some ((fun d => d + 48) <$> dec_lsb (5 + 5 * f) num).
Proof.
  revert num. induction f as [|f IH]; intros num Hnum;
    rewrite Nat2Z.inj_succ, Z.pow_succ_r in Hnum by lia;
    rewrite put_dec_loop_S; destruct (Z.ltb_spec num 100000).
  - by rewrite put_dec_trunc_spec by lia.
  - simpl in Hnum. lia.
  - rewrite put_dec_trunc_spec by lia. by rewrite (dec_lsb_fuel 5) by (simpl Z.of_nat; lia).
  - rewrite IH by (split; [apply Z.div_pos; lia | apply Z.div_lt_upper_bound; lia]).
    replace (5 + 5 * S f)%nat with (5 + (5 + 5 * f))%nat by lia.
    rewrite (dec_lsb_step5 (5 + 5 * f) num), fmap_app by lia. cbv zeta.
    rewrite put_dec_full_spec by (apply Z.mod_pos_bound; lia). done.
Qed.

(** Value of a list of digits, least significant first. *)
Fixpoint lsb_val (ds : list Z) : Z :=
  match ds with [] => 0 | d :: ds' => d + 10 * lsb_val ds' end.

Lemma lsb_val_dec f n : 0 <= n < 10 ^ Z.of_nat f -> lsb_val (dec_lsb f n) = n.
Proof.
  revert n. induction f as [|f IH]; intros n Hn; [simpl in *; lia|].
  rewrite Nat2Z.inj_succ, Z.pow_succ_r in Hn by lia. cbn [dec_lsb].
  destruct (Z.eqb_spec (n / 10) 0); cbn [lsb_val]; [dlia|].
  rewrite IH; [dlia|]. split; [dlia|]. apply Z.div_lt_upper_bound; lia.
Qed.

Lemma dec_lsb_digits f n : Forall (fun d => 0 <= d <= 9) (dec_lsb f n).
Proof.
  revert n. induction f as [|f IH]; intros n; cbn [dec_lsb]; constructor.
  - dlia.
  - destruct (_ =? _); [constructor|apply IH].
Qed.
End put_dec_proofs.

(** ** Scanning what was printed *)

Section scan_proofs.

Lemma isdigit_dec d : 0 <= d <= 9 -> isdigit (d + 48) = true /\ isxdigit (d + 48) = true.
Proof.
  intros Hr. assert (d ∈ seqZ 0 10) as Hd by (apply elem_of_seqZ; lia). clear Hr.
  revert d Hd. apply (proj1 (Forall_forall _ _)). repeat constructor.
Qed.

(** A hexadecimal letter is not a decimal digit. *)
Lemma xdigit_letter c :
  byte_range c -> isdigit c = false -> isxdigit c = true -> 10 <= u32 (TOLOWER c - 97 + 10).
Proof.
  intros Hc Hd Hx. apply Z.leb_le.
  revert c Hc Hd Hx.
  assert (forall c, byte_range c ->
    (isdigit c || negb (isxdigit c) || (10 <=? u32 (TOLOWER c - 97 + 10))) = true) as H
    by (apply byte_forallb; vm_compute; reflexivity).
  intros c Hc Hd Hx. specialize (H c Hc). by rewrite Hd, Hx in H.
Qed.

Definition horner (r : Z) (ds : list Z) : Z := foldl (fun r d => u64 (r * 10 + d)) r ds.

Lemma strtoull_loop_stop r rest :
  Forall byte_range rest -> isdigit (ch rest) = false -> strtoull_loop 10 r rest = (r, rest).
Proof.
  destruct rest as [|c rest]; [done|]. intros Hb Hd. simpl. change (ch (c :: rest)) with c in Hd.
  destruct (isxdigit c) eqn:Hx; [|done]. rewrite Hd.
  pose proof (xdigit_letter c (Forall_inv Hb) Hd Hx).
  by destruct (Z.leb_spec 10 (u32 (TOLOWER c - 97 + 10))); [|lia].
Qed.

Lemma strtoull_loop_digits ds r rest :
  Forall (fun d => 0 <= d <= 9) ds -> Forall byte_range rest -> isdigit (ch rest) = false ->
  strtoull_loop 10 r (((fun d => d + 48) <$> ds) ++ rest) = (horner r ds, rest).
Proof.
  intros Hds Hb Hrest. revert r. induction Hds as [|d ds Hd Hds IH]; intros r.
  - by apply strtoull_loop_stop.
  - cbn [fmap list_fmap app strtoull_loop]. destruct (isdigit_dec d Hd) as [-> ->].
    replace (d + 48 - 48) with d by lia. rewrite u32_id by lia.
    destruct (Z.leb_spec 10 d); [lia|]. apply IH.
Qed.

Lemma horner_rev ds : horner 0 (rev ds) = u64 (lsb_val ds).
Proof.
  unfold horner. induction ds as [|d ds IH]; cbn [rev lsb_val]; [done|].
  rewrite foldl_app, IH. cbn [foldl]. unfold u64, wrapu.
  rewrite <- Zplus_mod_idemp_l, Zmult_mod_idemp_l, Zplus_mod_idemp_l. f_equal. lia.
Qed.

Definition dec_chars (n : Z) : list Z := rev ((fun d => d + 48) <$> dec_lsb 20 n).

Lemma dec_chars_alt n : dec_chars n = (fun d => d + 48) <$> rev (dec_lsb 20 n).
Proof. unfold dec_chars. symmetry. apply map_rev. Qed.

Lemma strtoull_dec_chars n rest :
  0 <= n < 2 ^ 64 -> Forall byte_range rest -> isdigit (ch rest) = false ->
  simple_strtoull (dec_chars n ++ rest) 10 = (n, rest).
Proof.
  intros Hn Hb Hrest. unfold simple_strtoull. simpl (if 10 =? 0 then _ else _).
  change (10 =? 16) with false. cbn [andb].
  rewrite dec_chars_alt, strtoull_loop_digits; auto.
  - rewrite horner_rev, lsb_val_dec by lia. unfold u64. by rewrite wrapu_id.
  - apply Forall_rev, dec_lsb_digits.
Qed.
End scan_proofs.


(** [put_dec], which splits the number with multiplications and shifts
    instead of divisions, writes exactly the decimal digits of any 64-bit
    number. *)
Theorem put_dec_correct (num : Z) :
  0 <= num < 2 ^ 64 -> put_dec num = Some ((fun d => d + 48) <$> dec_lsb 20 num).
Proof. intros. apply (put_dec_loop_spec 3). lia. Qed.

Lemma put_dec_correct_witness :
  0 <= 4294967295 < 2 ^ 64 /\
  put_dec 4294967295 = Some ((fun d => d + 48) <$> dec_lsb 20 4294967295).
Proof. split; [lia|]. apply (put_dec_correct 4294967295). lia. Defined.

(** A 64-bit number printed by [put_dec] is read back by
    [simple_strtoull], which stops exactly behind it. *)
Theorem put_dec_strtoull (num : Z) (rest : list Z) :
  0 <= num < 2 ^ 64 -> Forall byte_range rest -> isdigit (ch rest) = false ->
  exists digits, put_dec num = Some digits /\
    simple_strtoull (rev digits ++ rest) 10 = (num, rest).
Proof.
  intros Hn Hb Hrest. eexists. split; [apply (put_dec_loop_spec 3); lia|].
  by apply strtoull_dec_chars.
Qed.

Lemma put_dec_strtoull_witness :
  exists digits, put_dec 100000 = Some digits /\
    simple_strtoull (rev digits ++ [32; 55]) 10 = (100000, [32; 55]).
Proof.
  apply (put_dec_strtoull 100000 [32; 55]); [lia| |reflexivity].
  repeat constructor; unfold byte_range; lia.
Defined.

(** ** Termination of [vsscanf] *)

Section vsscanf_termination.

Lemma skip_spaces_le s : (length (skip_spaces s) <= length s)%nat.
Proof. induction s as [|c s IH]; simpl; [lia|]. destruct (isspace c); simpl; lia. Qed.

Lemma skip_fmt_star_le s : (length (skip_fmt_star s) <= length s)%nat.
Proof. induction s as [|c s IH]; simpl; [lia|]. destruct (_ || _); simpl; lia. Qed.

Lemma skip_atoi_le i s j s' : skip_atoi_loop i s = (j, s') -> (length s' <= length s)%nat.
Proof.
  revert i. induction s as [|c s IH]; simpl; intros i H; simplify_eq; [done|].
  destruct (isdigit c); simplify_eq; simpl; [apply IH in H|]; lia.
Qed.

Lemma scan_qualifier_le s q s' : scan_qualifier s = (q, s') -> (length s' <= length s)%nat.
Proof.
  unfold scan_qualifier. intros. repeat case_match; simplify_eq; rewrite ?length_drop; lia.
Qed.

Lemma scan_integer_fmt q b sg s s' : scan_integer q b sg s = ScContinue s' -> sc_fmt s' = sc_fmt s.
Proof. unfold scan_integer. intros. repeat case_match; by simplify_eq. Qed.

Lemma scan_conversion_fmt buf c q fw s s' :
  scan_conversion buf c q fw s = ScContinue s' -> sc_fmt s' = sc_fmt s.
Proof.
  unfold scan_conversion. intros.
  repeat case_match; simplify_eq; simpl; eauto using scan_integer_fmt.
Qed.

Lemma ch_nonempty s : ctrue (ch s) = true -> (0 < length s)%nat.
Proof. destruct s; simpl; [done|lia]. Qed.

(** Every iteration that continues consumes part of the format. *)
Lemma vsscanf_iter_fmt buf s s' :
  ctrue (ch (sc_fmt s)) = true -> vsscanf_iter buf s = ScContinue s' ->
  (length (sc_fmt s') < length (sc_fmt s))%nat.
Proof.
  intros Hf%ch_nonempty. unfold vsscanf_iter.
  destruct (if isspace (ch (sc_fmt s)) then _ else _) as [fmt str] eqn:Hsp.
  assert (length fmt <= length (sc_fmt s))%nat as Hle.
  { destruct (isspace _); simplify_eq; [|done].
    pose proof (skip_spaces_le (drop 1 (sc_fmt s))). rewrite length_drop in *. lia. }
  destruct (negb (ch fmt =? 37) && ctrue (ch fmt)) eqn:Hlit.
  { intros. apply andb_prop in Hlit as [_ Hlit%ch_nonempty].
    case_match; simplify_eq. simpl. rewrite length_drop. lia. }
  destruct (Z.eqb_spec (ch fmt) 0); [done|].
  assert (0 < length fmt)%nat by (destruct fmt; simpl in *; [done|lia]).
  assert (length (drop 1 fmt) < length fmt)%nat by (rewrite length_drop; lia).
  destruct (ch (drop 1 fmt) =? 42).
  { intros; simplify_eq. simpl. pose proof (skip_fmt_star_le (drop 1 fmt)). lia. }
  destruct (if isdigit _ then _ else _) as [fw fmt1] eqn:Hfw.
  assert (length fmt1 <= length (drop 1 fmt))%nat.
  { destruct (isdigit _); [|by simplify_eq]. destruct (skip_atoi _) as [i f] eqn:Ha.
    apply skip_atoi_le in Ha. by simplify_eq. }
  destruct (scan_qualifier fmt1) as [q fmt2] eqn:Hq. apply scan_qualifier_le in Hq.
  destruct (_ || _); [done|]. intros ->%scan_conversion_fmt. simpl. rewrite length_drop. lia.
Qed.

Lemma vsscanf_loop_fuel fuel buf s :
  (length (sc_fmt s) < fuel)%nat -> is_Some (vsscanf_loop fuel buf s).
Proof.
  revert s. induction fuel as [|fuel IH]; intros s Hs; [lia|]. cbn [vsscanf_loop].
  destruct (ctrue (ch (sc_fmt s))) eqn:Hf; cbn [andb]; [|eauto].
  destruct (ctrue (ch (sc_str s))); [|eauto].
  destruct (vsscanf_iter buf s) eqn:Hi; [|eauto|eauto].
  apply IH. apply vsscanf_iter_fmt in Hi; auto. lia.
Qed.

Lemma sscanf_total buf fmt : is_Some (sscanf buf fmt).
Proof. apply vsscanf_loop_fuel. simpl. lia. Qed.
End vsscanf_termination.

(** [vsscanf] terminates on every buffer and every format: the format's
    length bounds the iterations of its loop. *)
Theorem vsscanf_terminates (buf fmt : list Z) : is_Some (vsscanf buf fmt).
Proof. apply sscanf_total. Qed.

(** ** Reading a packet extractor specification *)

Section sscanf_unsigned.

Lemma dec_chars_head n : 0 <= n -> isdigit (ch (dec_chars n)) = true /\ dec_chars n <> [].
Proof.
  intros Hn. rewrite dec_chars_alt.
  pose proof (dec_lsb_digits 20 n) as Hd. apply Forall_rev in Hd.
  destruct (rev (dec_lsb 20 n)) as [|d ds] eqn:E.
  - apply (f_equal (@rev Z)) in E. rewrite rev_involutive in E. discriminate E.
  - cbn. split; [|done]. apply isdigit_dec, (Forall_inv Hd).
Qed.

Lemma digit_char c : isdigit c = true -> isspace c = false /\ (c =? 0) = false.
Proof.
  assert (forallb (fun c => negb (isdigit c) || negb (isspace c)) (seqZ 0 256) = true) as Hb
    by (vm_compute; reflexivity).
  intros Hd. split.
  - pose proof (byte_forallb _ Hb (u8 c) (u8_range c)) as H.
    assert (forall x, __ismask (u8 x) = __ismask x) as Hu
      by (intros; unfold __ismask; rewrite (u8_id (u8 x)); [done|apply u8_range]).
    cbv beta in H. unfold isdigit, isspace in *. rewrite !Hu, Hd in H.
    by apply negb_true_iff in H.
  - destruct (Z.eqb_spec c 0); [|done]. subst. done.
Qed.

Lemma skip_spaces_digit s : isdigit (ch s) = true -> skip_spaces s = s.
Proof.
  destruct s as [|c s]; [done|]. intros Hd. simpl.
  by destruct (digit_char c Hd) as [-> _].
Qed.

Lemma ch_app_nonempty l1 l2 : l1 <> [] -> ch (l1 ++ l2) = ch l1.
Proof. by destruct l1. Qed.

(** One [%u] conversion on a printed 32-bit number. *)
Lemma scan_integer_u n rest fmt num out :
  0 <= n < 2 ^ 32 -> Forall byte_range rest -> isdigit (ch rest) = false ->
  scan_integer 255 10 false (MkScan (dec_chars n ++ rest) fmt num out)
  = ScContinue (MkScan rest fmt (s32 (num + 1)) (out ++ [StNum 32 false n])).
Proof.
  intros Hn Hb Hrest. destruct (dec_chars_head n) as [Hd Hne]; [lia|].
  unfold scan_integer. cbn [sc_str sc_fmt sc_num sc_out andb].
  rewrite skip_spaces_digit by (by rewrite ch_app_nonempty).
  rewrite ch_app_nonempty by done. rewrite Hd. destruct (digit_char _ Hd) as [_ ->].
  cbn [negb orb andb Z.eqb Pos.eqb]. unfold scan_number. cbn [Z.eqb Pos.eqb orb].
  unfold simple_strtoul. rewrite strtoull_dec_chars by (auto; lia).
  by rewrite !(u32_id n) by lia.
Qed.

Lemma vsscanf_iter_u buf n rest fmt num out :
  0 <= n < 2 ^ 32 -> Forall byte_range rest -> isdigit (ch rest) = false ->
  vsscanf_iter buf (MkScan (dec_chars n ++ rest) (37 :: 117 :: fmt) num out)
  = ScContinue (MkScan rest fmt (s32 (num + 1)) (out ++ [StNum 32 false n])).
Proof.
  intros Hn Hb Hrest. destruct (dec_chars_head n) as [Hd Hne]; [lia|].
  unfold vsscanf_iter. simpl sc_fmt. simpl sc_str. simpl sc_num. simpl sc_out.
  change (isspace (ch (37 :: 117 :: fmt))) with false. cbv iota beta.
  change (isdigit (ch (drop 1 (37 :: 117 :: fmt)))) with false.
  cbn -[scan_conversion dec_chars app ch]. rewrite ch_app_nonempty by done.
  destruct (digit_char _ Hd) as [_ ->]. cbn -[scan_integer dec_chars app].
  by apply scan_integer_u.
Qed.

Lemma vsscanf_iter_space_u buf n rest fmt num out :
  0 <= n < 2 ^ 32 -> Forall byte_range rest -> isdigit (ch rest) = false ->
  vsscanf_iter buf (MkScan (32 :: dec_chars n ++ rest) (32 :: 37 :: 117 :: fmt) num out)
  = ScContinue (MkScan rest fmt (s32 (num + 1)) (out ++ [StNum 32 false n])).
Proof.
  intros Hn Hb Hrest. rewrite <- (vsscanf_iter_u buf n rest fmt num out) by done.
  destruct (dec_chars_head n) as [Hd Hne]; [lia|].
  assert (skip_spaces (dec_chars n ++ rest) = dec_chars n ++ rest) as Hs
    by (apply skip_spaces_digit; by rewrite ch_app_nonempty).
  unfold vsscanf_iter at 1. cbn [sc_fmt sc_str].
  change (isspace (ch (32 :: 37 :: 117 :: fmt))) with true. cbv iota.
  change (skip_spaces (drop 1 (32 :: 37 :: 117 :: fmt))) with (37 :: 117 :: fmt).
  change (skip_spaces (32 :: dec_chars n ++ rest)) with (skip_spaces (dec_chars n ++ rest)).
  rewrite Hs. done.
Qed.

Lemma dec_chars_ctrue n l : 0 <= n -> ctrue (ch (dec_chars n ++ l)) = true.
Proof.
  intros Hn. destruct (dec_chars_head n Hn) as [Hd Hne]. rewrite ch_app_nonempty by done.
  unfold ctrue. by destruct (digit_char _ Hd) as [_ ->].
Qed.

Lemma dec_chars_bytes n : Forall byte_range (dec_chars n).
Proof.
  rewrite dec_chars_alt. apply Forall_fmap, Forall_rev.
  eapply Forall_impl; [apply dec_lsb_digits|]. unfold byte_range. simpl. lia.
Qed.

Lemma vsscanf_loop_continue fuel buf s s' :
  ctrue (ch (sc_fmt s)) = true -> ctrue (ch (sc_str s)) = true ->
  vsscanf_iter buf s = ScContinue s' ->
  vsscanf_loop (S fuel) buf s = vsscanf_loop fuel buf s'.
Proof. intros Hf Hs Hi. cbn [vsscanf_loop]. by rewrite Hf, Hs, Hi. Qed.
End sscanf_unsigned.

Lemma scan_three_unsigned a b c rest :
  0 <= a < 2 ^ 32 -> 0 <= b < 2 ^ 32 -> 0 <= c < 2 ^ 32 ->
  Forall byte_range rest -> isdigit (ch rest) = false ->
  sscanf (dec_chars a ++ 32 :: dec_chars b ++ 32 :: dec_chars c ++ rest) (bytes_of "%u %u %u")
  = Some (3, [StNum 32 false a; StNum 32 false b; StNum 32 false c]).
Proof.
  intros Ha Hb Hc Hr Hd. unfold sscanf, vsscanf.
  assert (forall n l, Forall byte_range l -> Forall byte_range (32 :: dec_chars n ++ l)) as Hsp.
  { intros. constructor; [unfold byte_range; lia|]. apply Forall_app. auto using dec_chars_bytes. }
  change (bytes_of "%u %u %u") with [37; 117; 32; 37; 117; 32; 37; 117].
  generalize (dec_chars a ++ 32 :: dec_chars b ++ 32 :: dec_chars c ++ rest) at 1 as buf; intros buf.
  cbn [length].
  erewrite vsscanf_loop_continue;
    [|reflexivity|apply dec_chars_ctrue; lia|apply vsscanf_iter_u; auto].
  erewrite vsscanf_loop_continue;
    [|reflexivity|reflexivity|apply vsscanf_iter_space_u; auto].
  erewrite vsscanf_loop_continue;
    [|reflexivity|reflexivity|apply vsscanf_iter_space_u; auto].
  reflexivity.
Qed.

(** The three unsigned numbers of a packet extractor specification,
    written in decimal and separated by spaces, are read back by
    [sscanf(..., "%u %u %u", ...)] as they are, for any 32-bit values and
    whatever follows the last digit. *)
Theorem sscanf_three_unsigned (a b c : Z) (rest : list Z) :
  0 <= a < 2 ^ 32 -> 0 <= b < 2 ^ 32 -> 0 <= c < 2 ^ 32 ->
  Forall byte_range rest -> isdigit (ch rest) = false ->
  sscanf (dec_chars a ++ 32 :: dec_chars b ++ 32 :: dec_chars c ++ rest) (bytes_of "%u %u %u")
  = Some (3, [StNum 32 false a; StNum 32 false b; StNum 32 false c]).
Proof. apply scan_three_unsigned. Qed.

Lemma sscanf_three_unsigned_witness :
  sscanf (dec_chars 6 ++ 32 :: dec_chars 34 ++ 32 :: dec_chars 4 ++ [10]) (bytes_of "%u %u %u")
  = Some (3, [StNum 32 false 6; StNum 32 false 34; StNum 32 false 4]).
Proof.
  apply (sscanf_three_unsigned 6 34 4 [10]); try lia; [|reflexivity].
  constructor; [unfold byte_range; lia|constructor].
Defined.

(** ** What callers of [sscanf] use *)

(** A C string in a buffer: the bytes before the first NUL. *)
Fixpoint cstr (b : list Z) : list Z :=
  match b with
  | [] => []
  | c :: b' => if c =? 0 then [] else c :: cstr b'
  end.

(** The value the [n]-th conversion stored, 0 if it stored none. *)
Definition stored (out : list scan_store) (n : nat) : Z :=
  match out !! n with Some (StNum _ _ v) => v | _ => 0 end.

Lemma cstr_app l rest : Forall (fun c => c <> 0) l -> cstr (l ++ 0 :: rest) = l.
Proof.
  induction 1 as [|c l Hc _ IH]; [done|]. simpl. destruct (Z.eqb_spec c 0); [done|]. by rewrite IH.
Qed.

(** ** Hexadecimal text

    Reference for the digits that the conversion [%x] prints of an
    [unsigned int] (in the kernel's [sprintf] as in the C library's). *)
Fixpoint hex_lsb (fuel : nat) (n : Z) : list Z :=
  match fuel with
  | O => []
  | S fuel' => n mod 16 :: (if n / 16 =? 0 then [] else hex_lsb fuel' (n / 16))
  end.

Definition hex_digit (d : Z) : Z := if d <? 10 then d + 48 else d + 87.
Definition hex_chars (n : Z) : list Z := rev (hex_digit <$> hex_lsb 8 n).
