(* ===== verification/Tracer.v ===== *)
(** * SEPExtract: the tracer

    [kernel/trace/sepextracttracer/sepext_trace.c] with the globals of
    [globals.c]: the trace buffer, [trace_entry], the netlink handler
    [nl_rcv_func], the wake-up of the user-space reader and the proc-file
    commands.

    The state is a record of the file's static and global variables. What an
    operation does to the outside is returned as a list of [effect]s; what it
    takes from the outside (cycle counter, current task, CPU, whether an
    allocation succeeds) is an argument. An access outside the trace buffer is
    [None]. [printk], [WARN_ON] and the memory barriers have no effect on this
    state and are left out; interleavings are the subject of [Concurrent]. *)

From S2P Require Import Prelude Sepext Vsprintf.
From stdpp Require Import prelude gmap list strings.
From Stdlib Require Import ZArith Lia.

Open Scope Z_scope.
Open Scope list_scope.

Record tracer := MkTracer {
  lastentry : Z;               (* atomic_t *)
  tasklet_scheduled : Z;       (* unsigned long, bit 0 *)
  stop_tracing_requested : Z;  (* unsigned long *)
  tracing_active : Z;          (* unsigned int *)
  lastread : Z;                (* unsigned int *)
  avail_entries : Z;           (* unsigned int *)
  us_pid : Z;                  (* u32 *)
  entries : list sepentry;     (* the block [entries] points to *)
  entrycnt : Z; ctxcnt : Z; touscnt : Z (* struct sepext_stats, u32 *) }.

Definition set_lastentry v s := MkTracer v (tasklet_scheduled s) (stop_tracing_requested s)
  (tracing_active s) (lastread s) (avail_entries s) (us_pid s) (entries s) (entrycnt s) (ctxcnt s) (touscnt s).
Definition set_tasklet_scheduled v s := MkTracer (lastentry s) v (stop_tracing_requested s)
  (tracing_active s) (lastread s) (avail_entries s) (us_pid s) (entries s) (entrycnt s) (ctxcnt s) (touscnt s).
Definition set_stop_tracing_requested v s := MkTracer (lastentry s) (tasklet_scheduled s) v
  (tracing_active s) (lastread s) (avail_entries s) (us_pid s) (entries s) (entrycnt s) (ctxcnt s) (touscnt s).
Definition set_tracing_active v s := MkTracer (lastentry s) (tasklet_scheduled s) (stop_tracing_requested s)
  v (lastread s) (avail_entries s) (us_pid s) (entries s) (entrycnt s) (ctxcnt s) (touscnt s).
Definition set_lastread v s := MkTracer (lastentry s) (tasklet_scheduled s) (stop_tracing_requested s)
  (tracing_active s) v (avail_entries s) (us_pid s) (entries s) (entrycnt s) (ctxcnt s) (touscnt s).
Definition set_us_pid v s := MkTracer (lastentry s) (tasklet_scheduled s) (stop_tracing_requested s)
  (tracing_active s) (lastread s) (avail_entries s) v (entries s) (entrycnt s) (ctxcnt s) (touscnt s).
Definition set_entries v s := MkTracer (lastentry s) (tasklet_scheduled s) (stop_tracing_requested s)
  (tracing_active s) (lastread s) (avail_entries s) (us_pid s) v (entrycnt s) (ctxcnt s) (touscnt s).
Definition set_entrycnt v s := MkTracer (lastentry s) (tasklet_scheduled s) (stop_tracing_requested s)
  (tracing_active s) (lastread s) (avail_entries s) (us_pid s) (entries s) v (ctxcnt s) (touscnt s).
Definition set_ctxcnt v s := MkTracer (lastentry s) (tasklet_scheduled s) (stop_tracing_requested s)
  (tracing_active s) (lastread s) (avail_entries s) (us_pid s) (entries s) (entrycnt s) v (touscnt s).
Definition set_touscnt v s := MkTracer (lastentry s) (tasklet_scheduled s) (stop_tracing_requested s)
  (tracing_active s) (lastread s) (avail_entries s) (us_pid s) (entries s) (entrycnt s) (ctxcnt s) v.

(** Calls that leave the file. *)
Inductive effect :=
  | NlUnicast (pid : Z) (payload : list Z)  (* nlmsg_unicast(nl_sk, skb_out, pid) *)
  | SmpCall (cpu : Z)                       (* smp_call_function_single(cpu, &schedule_usnl, ...) *)
  | TaskletSchedule.                        (* tasklet_schedule(&sep_tasklet) *)

Definition result : Type := option (tracer * list effect).

(** ** Sending to user space

    [alloc] says whether [nlmsg_new] returns a buffer; [data] are the bytes at
    the pointer. The value of [nlmsg_unicast] is only printed. *)
Definition send_to_userspace (alloc : bool) (data : list Z) (length pid : Z) : list effect :=
  if alloc then [NlUnicast pid (take (Z.to_nat length) data)] else [].

(** ** Recording an entry *)

(** What [trace_entry] reads of the CPU it runs on. *)
Record cpu_env := MkEnv { env_cycles : Z; env_pid : Z; env_cpu : Z }.

Definition make_entry (env : cpu_env) (a : te_args) : sepentry := {|
  se_type := sepentry_type_val (te_type a);
  se_cycles := u32 (env_cycles env);
  se_pid1 := u16 (te_pid1 a);
  se_pid2 := u16 (te_pid2 a);
  se_data := u32 (te_data a);
  se_addr := u32 (te_addr a);
  se_location := u32 (te_location a);
  se_currpid := u16 (env_pid env);
  se_cpu := u16 (env_cpu env) |}.

Definition trace_entry (env : cpu_env) (a : te_args) (s : tracer) : result :=
  if (tracing_active s =? 0) && (sepentry_type_val (te_type a) <? sepentry_type_val STARTIDS)
  then Some (s, [])
  else
    let n := s32 (lastentry s + 1) in
    let s := set_lastentry n s in
    if avail_entries s <? u32 n then
      let s := set_tracing_active 0 s in
      if test_bit 0 (tasklet_scheduled s) then Some (s, [])
      else Some (set_tasklet_scheduled (set_bit 0 (tasklet_scheduled s)) s, [SmpCall 0])
    else
      es ← zset (entries s) (n - 1) (make_entry env a);
      Some (set_entrycnt (u32 (entrycnt s + 1)) (set_entries es s), []).

(** Calls of [trace_entry] one after the other; [envs k] is what the CPU
    provides to the k-th. *)
Fixpoint trace_calls (envs : nat -> cpu_env) (k : nat) (l : list te_args) (s : tracer) : result :=
  match l with
  | [] => Some (s, [])
  | a :: l' =>
      '(s1, e1) ← trace_entry (envs k) a s;
      '(s2, e2) ← trace_calls envs (S k) l' s1;
      Some (s2, e1 ++ e2)
  end.

(** The calls of the three loops of [trace_IDs]. *)
Definition id_calls : list te_args :=
  ((fun i => MkTe 0 ID_QUEUE i 0 0 (default 0 (sq_head <$> zget sem_queues i)))
     <$> seqZ (sem_queue_id_val PKTQ_NOLOC) (sem_queue_id_val QUEUE_LASTREGISTERED))
  ++ ((fun i => MkTe 0 ID_SYNCH i 0 0 (default 0 (ss_variable <$> zget sem_synchvars i)))
     <$> seqZ (sem_synch_id_val SYNCH_TEMPORARY) (sem_synch_id_val SYNCH_LASTREGISTERED))
  ++ ((fun i => MkTe 0 ID_STATE i 0 0 0)
     <$> seqZ (sem_state_id_val STATE_IDENTIFYVIADEVICEFILE) (sem_state_id_val STATE_LASTREGISTERED)).

#[global] Arguments id_calls : simpl never.

Definition trace_IDs (envs : nat -> cpu_env) (s : tracer) : result := trace_calls envs 0 id_calls s.

(** ** The netlink handler

    [pid] is the sender's [nlmsg_pid], [msg] the first word of the payload. *)
Definition nl_rcv_func (alloc : bool) (envs : nat -> cpu_env) (pid msg : Z) (s : tracer) : result :=
  let s := set_us_pid pid s in
  if msg =? START_TRACING then
    let s := set_lastentry 0 s in
    let s := set_tracing_active 1 s in
    trace_IDs envs s
  else if msg =? STOP_TRACING then
    let s := set_tasklet_scheduled 0 s in
    let s := set_tracing_active 0 s in
    let s := set_lastread 0 s in
    let s := set_lastentry 0 s in
    Some (s, [])
  else if msg =? SYNC_COMPLETE then
    if negb (ctrue (tracing_active s)) then
      let s := set_lastread 0 s in
      let s := set_lastentry 0 s in
      let s := set_tasklet_scheduled 0 s in
      let s := set_tracing_active 1 s in
      Some (s, [])
    else Some (s, [])
  else if msg =? REQUEST_ENTRY then
    if ctrue (stop_tracing_requested s)
       && ((u32 (lastentry s) <=? lastread s) || (avail_entries s <=? lastread s)) then
      Some (set_stop_tracing_requested 0 s,
            send_to_userspace alloc (le_bytes 4 STOP_TRACING) sizeof_uint (us_pid s))
    else if ctrue (tracing_active s) || (avail_entries s <=? lastread s) then
      Some (s, send_to_userspace alloc (le_bytes 4 END_OF_DATA) sizeof_uint (us_pid s))
    else
      let s := set_touscnt (u32 (touscnt s + 1)) s in
      e ← zget (entries s) (lastread s);
      Some (set_lastread (u32 (lastread s + 1)) s,
            send_to_userspace alloc (sepentry_bytes e) sizeof_sepentry (us_pid s))
  else Some (s, []).

(** ** Waking the reader

    [awake_usnl] sends [sizeof(struct sepentry)] bytes starting at a local
    [unsigned int]: [stack] are the bytes above it on the kernel stack. *)
Definition awake_usnl (alloc : bool) (stack : list Z) (s : tracer) : list effect :=
  send_to_userspace alloc (le_bytes 4 WAKE_UP_USNL ++ stack) sizeof_sepentry (us_pid s).

Definition schedule_usnl (alloc : bool) (stack : list Z) (s : tracer) : list effect :=
  if us_pid s =? 0 then [] else awake_usnl alloc stack s.

Definition stop_tracing (s : tracer) : tracer * list effect :=
  let s := set_tracing_active 0 s in
  let s := set_stop_tracing_requested 1 s in
  if test_bit 0 (tasklet_scheduled s) then (s, [])
  else
    let s := set_tasklet_scheduled (set_bit 0 (tasklet_scheduled s)) s in
    (s, if ctrue (us_pid s) then [TaskletSchedule] else []).

(** ** Commands through [/proc/sepextcmd]

    [copied] says whether [copy_from_user] copies everything; [user] is the
    text at the user's pointer, up to the first NUL (the code scans that, not
    its copy). [cmd] keeps its initial 0 when the text has no number. *)
Definition scanned_cmd (user : list Z) : Z :=
  match sscanf user (bytes_of "%d") with
  | Some (_, StNum _ _ v :: _) => v
  | _ => 0
  end.

Definition run_command (copied : bool) (user : list Z) (count : Z) (s : tracer)
    : Z * tracer * list effect :=
  if 5 <? count then (-1, s, [])
  else if negb copied then (-1, s, [])
  else
    let cmd := scanned_cmd user in
    if cmd =? 0 then (-1, s, [])
    else if cmd =? SEPEXT_STOP then let '(s, e) := stop_tracing s in (s32 count, s, e)
    else (s32 count, s, []).

(** [*eof] and the return value. *)
Definition read_command : Z * Z := (1, 0).

(** ** Initialisation and clean-up

    Besides the variables, the file acquires two proc entries, the buffer and
    the netlink socket. *)
Record resources := MkRes {
  res_stats : bool; res_cmd : bool; res_buffer : bool; res_netlink : bool }.

(** [block size] is the block [vmalloc(size)] returns, as entries, or [None];
    the other flags say whether [proc_create], [create_proc_entry] and
    [netlink_kernel_create] succeed. *)
Record init_env := MkInit {
  ie_stats : bool; ie_cmd : bool; ie_vmalloc : Z -> option (list sepentry); ie_netlink : bool }.

Definition initialize_tracer (ie : init_env) (num_entries : Z) (s : tracer) (r : resources)
    : Z * tracer * resources :=
  if negb (ie_stats ie) then (- EPERM, s, r)
  else
    let r := MkRes true (ie_cmd ie) (res_buffer r) (res_netlink r) in
    match ie_vmalloc ie (u32 (sizeof_sepentry * num_entries)) with
    | None => (1, set_entries [] s, r)
    | Some block =>
        let s := set_entries block s in
        let s := set_lastread 0 s in
        let s := MkTracer (lastentry s) 0 0 0 (lastread s) num_entries (us_pid s) (entries s)
                          (entrycnt s) (ctxcnt s) (touscnt s) in
        let r := MkRes (res_stats r) (res_cmd r) true (res_netlink r) in
        if ie_netlink ie then (0, s, MkRes (res_stats r) (res_cmd r) true true)
        else (1, s, r)
    end.

Definition cleanup_tracer (s : tracer) : tracer * resources :=
  (set_entries [] s, MkRes false false false false).

(** ** Invariant

    [lastentry] runs ahead of the buffer by one when the buffer is full, and
    by up to the number of identifier entries when the buffer is smaller than
    those (they are recorded whether or not tracing is active). *)
Record tracer_ok (s : tracer) : Prop := {
  ok_len : avail_entries s = Z.of_nat (length (entries s));
  ok_avail : 0 <= avail_entries s < 2 ^ 27;
  ok_last : 0 <= lastentry s <= Z.max (avail_entries s + 1) (Z.of_nat (length id_calls));
  ok_active : tracing_active s <> 0 -> lastentry s <= avail_entries s;
  ok_read : 0 <= lastread s <= avail_entries s }.

(** The events that drive the tracer, and the operation each one runs: a
    probe calling [trace_entry], a netlink message, the remote call and the
    tasklet that wake the reader, and a write to the command file. *)
Inductive kernel_op :=
  | OpTrace (env : cpu_env) (a : te_args)
  | OpNetlink (alloc : bool) (envs : nat -> cpu_env) (pid msg : Z)
  | OpScheduleUsnl (alloc : bool) (stack : list Z)
  | OpTasklet (alloc : bool) (stack : list Z)
  | OpCommand (copied : bool) (user : list Z) (count : Z).

Definition kernel_step (o : kernel_op) (s : tracer) : result :=
  match o with
  | OpTrace env a => trace_entry env a s
  | OpNetlink alloc envs pid msg => nl_rcv_func alloc envs pid msg s
  | OpScheduleUsnl alloc stack => Some (s, schedule_usnl alloc stack s)
  | OpTasklet alloc stack => Some (s, awake_usnl alloc stack s)
  | OpCommand copied user count =>
      let '(_, s', e) := run_command copied user count s in Some (s', e)
  end.

Fixpoint kernel_run (ops : list kernel_op) (s : tracer) : result :=
  match ops with
  | [] => Some (s, [])
  | o :: ops' =>
      '(s1, e1) ← kernel_step o s;
      '(s2, e2) ← kernel_run ops' s1;
      Some (s2, e1 ++ e2)
  end.

(** Probes never use the identifier types, which are internal to the tracer. *)
Definition probe_call (a : te_args) : Prop := sepentry_type_val (te_type a) < sepentry_type_val STARTIDS.
Definition op_ok (o : kernel_op) : Prop :=
  match o with OpTrace _ a => probe_call a | _ => True end.

Section tracer_invariant.

Lemma length_id_calls : Z.of_nat (length id_calls) = 147.
Proof. reflexivity. Qed.

Lemma id_calls_types : Forall (fun a => 41 < sepentry_type_val (te_type a)) id_calls.
Proof.
  unfold id_calls. rewrite !Forall_app. repeat split; apply Forall_fmap, Forall_forall; simpl; lia.
Qed.

(** What [trace_entry] does when it does not return early. *)
Lemma trace_entry_claim env a s :
  avail_entries s = Z.of_nat (length (entries s)) -> 0 <= avail_entries s < 2 ^ 27 ->
  0 <= lastentry s < 2 ^ 30 ->
  (tracing_active s =? 0) && (sepentry_type_val (te_type a) <? 41) = false ->
  trace_entry env a s =
    if lastentry s <? avail_entries s then
      Some (set_entrycnt (u32 (entrycnt s + 1))
             (set_entries (<[Z.to_nat (lastentry s) := make_entry env a]> (entries s))
               (set_lastentry (lastentry s + 1) s)), [])
    else if test_bit 0 (tasklet_scheduled s) then
      Some (set_tracing_active 0 (set_lastentry (lastentry s + 1) s), [])
    else
      Some (set_tasklet_scheduled (set_bit 0 (tasklet_scheduled s))
             (set_tracing_active 0 (set_lastentry (lastentry s + 1) s)), [SmpCall 0]).
Proof.
  intros Hlen Hav Hle Hgo. unfold trace_entry. simpl (sepentry_type_val STARTIDS). rewrite Hgo.
  rewrite s32_id by lia. cbn [set_lastentry avail_entries entries lastentry].
  rewrite (u32_id (lastentry s + 1)) by lia.
  destruct (Z.ltb_spec (avail_entries s) (lastentry s + 1)), (Z.ltb_spec (lastentry s) (avail_entries s));
    try lia; [done|].
  rewrite zset_is_Some by lia. simpl. by replace (lastentry s + 1 - 1) with (lastentry s) by lia.
Qed.

Lemma trace_entry_idle env a s :
  tracing_active s = 0 -> probe_call a -> trace_entry env a s = Some (s, []).
Proof.
  intros Ha Hp. unfold trace_entry, probe_call in *. rewrite Ha. simpl in *.
  by destruct (Z.ltb_spec (sepentry_type_val (te_type a)) 41); [|lia].
Qed.

(** A run of identifier calls claims one index each. *)
Lemma trace_calls_ids envs k l s :
  Forall (fun a => 41 < sepentry_type_val (te_type a)) l ->
  avail_entries s = Z.of_nat (length (entries s)) -> 0 <= avail_entries s < 2 ^ 27 ->
  0 <= lastentry s -> lastentry s + Z.of_nat (length l) < 2 ^ 30 ->
  (tracing_active s <> 0 -> lastentry s <= avail_entries s) ->
  exists s' e, trace_calls envs k l s = Some (s', e) /\
    avail_entries s' = avail_entries s /\ length (entries s') = length (entries s) /\
    lastread s' = lastread s /\ lastentry s' = lastentry s + Z.of_nat (length l) /\
    (tracing_active s' <> 0 -> lastentry s' <= avail_entries s').
Proof.
  intros Hl. revert k s. induction Hl as [|a l Ha Hl IH]; intros k s Hlen Hav H0 Hle Hact.
  { exists s, []. simpl. repeat split; auto; lia. }
  cbn [trace_calls length] in *.
  rewrite trace_entry_claim by lia.
  destruct (Z.ltb_spec (lastentry s) (avail_entries s)); [|destruct (test_bit 0 _)];
    cbn [mbind option_bind];
    match goal with |- context [trace_calls envs (S k) l ?x] =>
      destruct (IH (S k) x) as (s' & e & -> & E1 & E2 & E3 & E4 & E5) end;
    simpl in *; rewrite ?length_insert in *; auto; try lia;
    eexists _, _; (split; [done|]); repeat split; auto; lia.
Qed.

(** Every operation returns (no access outside the buffer) and preserves the
    invariant. *)
Lemma trace_entry_ok env a s :
  tracer_ok s -> probe_call a -> exists s' e, trace_entry env a s = Some (s', e) /\ tracer_ok s'.
Proof.
  intros [Hlen Hav Hlast Hact Hread] Hp.
  destruct (Z.eqb_spec (tracing_active s) 0) as [Ha|Ha].
  { rewrite trace_entry_idle by done. eexists _, _. split; [done|]. by split. }
  rewrite trace_entry_claim; auto; [|rewrite length_id_calls in Hlast; lia|by destruct (Z.eqb_spec (tracing_active s) 0)].
  destruct (Z.ltb_spec (lastentry s) (avail_entries s)).
  - eexists _, _. split; [done|]. split; simpl; rewrite ?length_insert; auto; lia.
  - destruct (test_bit 0 _); eexists _, _; (split; [done|]; split; simpl; auto; lia).
Qed.

Lemma nl_rcv_func_ok alloc envs pid msg s :
  tracer_ok s -> exists s' e, nl_rcv_func alloc envs pid msg s = Some (s', e) /\ tracer_ok s'.
Proof.
  intros [Hlen Hav Hlast Hact Hread]. unfold nl_rcv_func.
  destruct (msg =? START_TRACING).
  { unfold trace_IDs. match goal with |- context [trace_calls envs 0 id_calls ?x] =>
      destruct (trace_calls_ids envs 0 id_calls x) as (s' & e & -> & E1 & E2 & E3 & E4 & E5) end;
      rewrite ?length_id_calls in *; simpl in *; auto using id_calls_types; try lia.
    eexists _, _. split; [done|]. split; rewrite ?E1, ?E2, ?E3, ?length_id_calls; auto; lia. }
  destruct (msg =? STOP_TRACING); [eexists _, _; split; [done|]; split; simpl; auto; lia|].
  destruct (msg =? SYNC_COMPLETE).
  { case_match; eexists _, _; (split; [done|]); split; simpl; auto; lia. }
  destruct (msg =? REQUEST_ENTRY); [|eexists _, _; split; [done|]; by split].
  simpl. case_match; [eexists _, _; split; [done|]; by split|].
  destruct (ctrue (tracing_active s)); [eexists _, _; split; [done|]; by split|]. simpl.
  destruct (Z.leb_spec (avail_entries s) (lastread s)); [eexists _, _; split; [done|]; by split|].
  destruct (zget_is_Some (entries s) (lastread s)) as [x ->]; [lia|]. simpl.
  eexists _, _. split; [done|]. split; simpl; auto. rewrite u32_id by lia. lia.
Qed.

Lemma stop_tracing_ok s : tracer_ok s -> tracer_ok (stop_tracing s).1.
Proof.
  intros [Hlen Hav Hlast Hact Hread]. unfold stop_tracing. cbv zeta.
  case_match; split; simpl; auto; lia.
Qed.

Lemma kernel_step_ok o s :
  tracer_ok s -> op_ok o -> exists s' e, kernel_step o s = Some (s', e) /\ tracer_ok s'.
Proof.
  intros Hs Ho. destruct o; simpl in *.
  - by apply trace_entry_ok.
  - by apply nl_rcv_func_ok.
  - eauto.
  - eauto.
  - unfold run_command. pose proof (stop_tracing_ok s Hs).
    destruct (stop_tracing s) as [s1 e1]. repeat case_match; simplify_eq; eauto.
Qed.

Lemma kernel_run_ok ops s :
  tracer_ok s -> Forall op_ok ops -> exists s' e, kernel_run ops s = Some (s', e) /\ tracer_ok s'.
Proof.
  intros Hs Hops. revert s Hs. induction Hops as [|o ops Ho Hops IH]; intros s Hs; simpl; [eauto|].
  destruct (kernel_step_ok o s Hs Ho) as (s1 & e1 & -> & Hs1). simpl.
  destruct (IH s1 Hs1) as (s2 & e2 & -> & Hs2). simpl. eauto.
Qed.
End tracer_invariant.

(** [vmalloc] returns a block of the size asked for, or nothing. *)
Definition vmalloc_ok (vmalloc : Z -> option (list sepentry)) : Prop :=
  forall size block, vmalloc size = Some block -> Z.of_nat (length block) = size / sizeof_sepentry.

(** The variables before the module is loaded. *)
Definition boot : tracer := MkTracer 0 0 0 0 0 0 0 [] 0 0 0.
Definition no_resources : resources := MkRes false false false false.

Lemma initialize_tracer_ok ie n s r :
  vmalloc_ok (ie_vmalloc ie) -> 0 <= n -> sizeof_sepentry * n < 2 ^ 32 ->
  initialize_tracer ie n boot no_resources = (0, s, r) -> tracer_ok s.
Proof.
  intros Hvm Hn Hsz. unfold sizeof_sepentry in *. unfold initialize_tracer, sizeof_sepentry.
  destruct (ie_stats ie); [|done]. simpl. rewrite u32_id by lia.
  destruct (ie_vmalloc ie (32 * n)) as [block|] eqn:E; [|done]. apply Hvm in E.
  unfold sizeof_sepentry in E. rewrite Z.mul_comm, Z.div_mul in E by lia.
  destruct (ie_netlink ie); intros; simplify_eq.
  split; simpl; rewrite ?length_id_calls; lia.
Qed.

(** C1: once [initialize_tracer] has succeeded for a buffer whose size fits
    32 bits, no sequence of probe calls, netlink messages, wake-ups and
    commands makes the tracer access memory outside the buffer, and the
    invariant of its counters holds throughout. *)
Theorem tracer_safe (ie : init_env) (n : Z) (s : tracer) (r : resources) (ops : list kernel_op) :
  vmalloc_ok (ie_vmalloc ie) -> 0 <= n -> sizeof_sepentry * n < 2 ^ 32 ->
  initialize_tracer ie n boot no_resources = (0, s, r) ->
  Forall op_ok ops ->
  exists s' e, kernel_run ops s = Some (s', e) /\ tracer_ok s'.
Proof. intros. apply kernel_run_ok; eauto using initialize_tracer_ok. Qed.

Definition zero_entry : sepentry := MkEntry 0 0 0 0 0 0 0 0 0.
(** A [vmalloc] that always succeeds. *)
Definition vmalloc_sample (size : Z) : option (list sepentry) :=
  if 0 <=? size then Some (replicate (Z.to_nat (size / sizeof_sepentry)) zero_entry) else None.
Definition sample_init : init_env := MkInit true true vmalloc_sample true.
Definition sample_env (k : nat) : cpu_env := MkEnv (1000 + 10 * Z.of_nat k) 310 1.
Definition sample_call : te_args := MkTe 3221225600 SERVICEENTRY 0 0 0 3221225472.

Lemma vmalloc_sample_ok : vmalloc_ok vmalloc_sample.
Proof.
  intros size block. unfold vmalloc_sample, sizeof_sepentry. destruct (Z.leb_spec 0 size); [|done].
  intros [= <-]. rewrite length_replicate. apply Z2Nat.id. dlia.
Qed.

Definition sample_tracer (n : Z) : tracer := (initialize_tracer sample_init n boot no_resources).1.2.

Lemma tracer_safe_witness :
  exists s' e, kernel_run [OpNetlink true sample_env 77 START_TRACING; OpTrace (sample_env 0) sample_call;
    OpScheduleUsnl true []; OpNetlink true sample_env 77 REQUEST_ENTRY; OpTasklet true [];
    OpCommand true (bytes_of "1") 2] (sample_tracer 3) = Some (s', e) /\ tracer_ok s'.
Proof.
  apply (tracer_safe sample_init 3 (sample_tracer 3) (MkRes true true true true)).
  - exact vmalloc_sample_ok.
  - lia.
  - unfold sizeof_sepentry. lia.
  - reflexivity.
  - repeat constructor.
Defined.

(** The size passed to [vmalloc] is computed in 32 bits, so a large
    [numentries] wraps: with 2^27 + 1 entries the module loads with a buffer
    of a single entry, and the identifier entries written when tracing starts
    already leave it. *)
Theorem initialize_tracer_size_overflow :
  let '(ret, s, _) := initialize_tracer sample_init (2 ^ 27 + 1) boot no_resources in
  ret = 0 /\ avail_entries s = 2 ^ 27 + 1 /\ length (entries s) = 1%nat /\
  forall envs, nl_rcv_func true envs 77 START_TRACING s = None.
Proof. repeat split. Qed.

(** ** The buffer as a bounded log

    Abstractly the tracer appends entries to a log of bounded length while it
    is on, and the append that finds the log full switches it off. *)
Module LogSpec.
Record log := MkLog { lg_entries : list sepentry; lg_cap : nat; lg_on : bool }.

Definition append (e : sepentry) (l : log) : log :=
  if lg_on l then
    if (length (lg_entries l) <? lg_cap l)%nat
    then MkLog (lg_entries l ++ [e]) (lg_cap l) true
    else MkLog (lg_entries l) (lg_cap l) false
  else l.
End LogSpec.

(** What a sequence of appends leaves in a log that is on. *)
Lemma appends_on es l cap :
  (length l <= cap)%nat ->
  foldl (fun lg e => LogSpec.append e lg) (LogSpec.MkLog l cap true) es =
    LogSpec.MkLog (take cap (l ++ es)) cap (length l + length es <=? cap)%nat.
Proof.
  revert l. induction es as [|e es IH]; intros l Hl; cbn [foldl].
  { rewrite app_nil_r, Nat.add_0_r, take_ge by done. by destruct (Nat.leb_spec (length l) cap); [|lia]. }
  unfold LogSpec.append at 2. cbn [LogSpec.lg_on LogSpec.lg_entries LogSpec.lg_cap].
  destruct (Nat.ltb_spec (length l) cap).
  - rewrite IH by (rewrite length_app; simpl; lia). rewrite <- app_assoc, length_app. simpl.
    by rewrite <- Nat.add_assoc.
  - assert (forall es', foldl (fun lg e => LogSpec.append e lg) (LogSpec.MkLog l cap false) es'
      = LogSpec.MkLog l cap false) as -> by (intros es'; induction es'; done).
    destruct (Nat.leb_spec (length l + length (e :: es)) cap); [simpl in *; lia|].
    replace cap with (length l) by lia. by rewrite take_app_length.
Qed.

Definition abs (s : tracer) : LogSpec.log :=
  LogSpec.MkLog (take (Z.to_nat (lastentry s)) (entries s)) (Z.to_nat (avail_entries s))
    (ctrue (tracing_active s)).

Lemma take_insert_snoc {A} (l : list A) (n : nat) (x : A) :
  (n < length l)%nat -> take (S n) (<[n := x]> l) = take n l ++ [x].
Proof.
  intros Hn. erewrite take_S_r by (by apply list_lookup_insert_eq).
  by rewrite take_insert_ge.
Qed.

Lemma ctrue_false x : ctrue x = false <-> x = 0.
Proof. unfold ctrue. destruct (Z.eqb_spec x 0); simpl; split; congruence. Qed.

Lemma ctrue_true x : ctrue x = true <-> x <> 0.
Proof. unfold ctrue. destruct (Z.eqb_spec x 0); simpl; split; congruence. Qed.

(** One call: the effect on the log, and the remote call that asks for the
    reader to be woken. *)
Lemma trace_entry_append env a s s' e :
  tracer_ok s -> probe_call a -> trace_entry env a s = Some (s', e) ->
  abs s' = LogSpec.append (make_entry env a) (abs s) /\
  e = (if ctrue (tracing_active s) && (avail_entries s <=? lastentry s)
          && negb (test_bit 0 (tasklet_scheduled s)) then [SmpCall 0] else []) /\
  test_bit 0 (tasklet_scheduled s') =
    test_bit 0 (tasklet_scheduled s)
    || (ctrue (tracing_active s) && (avail_entries s <=? lastentry s)).
Proof.
  intros [Hlen Hav Hlast Hact Hread] Hp.
  destruct (Z.eqb_spec (tracing_active s) 0) as [Ha|Ha].
  { rewrite trace_entry_idle by done. intros [= <- <-]. unfold abs, LogSpec.append. simpl.
    rewrite (proj2 (ctrue_false _) Ha). simpl. by rewrite orb_false_r. }
  rewrite length_id_calls in Hlast.
  rewrite trace_entry_claim by (auto; try lia; by destruct (Z.eqb_spec (tracing_active s) 0)).
  rewrite (proj2 (ctrue_true _) Ha). unfold abs, LogSpec.append. simpl.
  rewrite (proj2 (ctrue_true _) Ha), length_take.
  destruct (Z.ltb_spec (lastentry s) (avail_entries s)), (Z.leb_spec (avail_entries s) (lastentry s)); try lia.
  - intros [= <- <-]. simpl. rewrite (proj2 (ctrue_true _) Ha), orb_false_r.
    destruct (Nat.ltb_spec (Z.to_nat (lastentry s) `min` length (entries s)) (Z.to_nat (avail_entries s))); [|lia].
    split; [|done]. f_equal.
    replace (Z.to_nat (lastentry s + 1)) with (S (Z.to_nat (lastentry s))) by lia.
    apply take_insert_snoc. lia.
  - destruct (Nat.ltb_spec (Z.to_nat (lastentry s) `min` length (entries s)) (Z.to_nat (avail_entries s))); [lia|].
    rewrite (take_ge _ (Z.to_nat (lastentry s))) by lia.
    destruct (test_bit 0 (tasklet_scheduled s)) eqn:Hb; intros [= <- <-]; simpl;
      rewrite take_ge by lia; (split; [done|]); (split; [done|]); [done|].
    by rewrite test_set_bit.
Qed.

(** The calls of a sequence, as appends to the log. *)
Definition call_entries (envs : nat -> cpu_env) (k : nat) (l : list te_args) : list sepentry :=
  imap (fun i a => make_entry (envs (k + i)%nat) a) l.

Lemma call_entries_cons envs k a l :
  call_entries envs k (a :: l) = make_entry (envs k) a :: call_entries envs (S k) l.
Proof.
  unfold call_entries. simpl. rewrite Nat.add_0_r. f_equal. apply imap_ext. intros.
  simpl. by rewrite Nat.add_succ_r.
Qed.

Lemma trace_calls_log (envs : nat -> cpu_env) (k : nat) (l : list te_args) (s : tracer) :
  tracer_ok s -> Forall probe_call l ->
  exists s' e, trace_calls envs k l s = Some (s', e) /\
    abs s' = foldl (fun lg e => LogSpec.append e lg) (abs s) (call_entries envs k l) /\
    e = (if ctrue (tracing_active s) && (avail_entries s <? lastentry s + Z.of_nat (length l))
            && negb (test_bit 0 (tasklet_scheduled s)) then [SmpCall 0] else []).
Proof.
  intros Hs Hl. revert k s Hs. induction Hl as [|a l Ha Hl IH]; intros k s Hs.
  { exists s, []. split; [done|]. split; [done|]. destruct (Z.eqb_spec (tracing_active s) 0) as [E|E].
    - by rewrite (proj2 (ctrue_false _) E).
    - pose proof (ok_active s Hs E).
      destruct (Z.ltb_spec (avail_entries s) (lastentry s + Z.of_nat (length (@nil te_args))));
        [simpl in *; lia|by rewrite andb_false_r]. }
  cbn [trace_calls]. destruct (trace_entry_ok (envs k) a s Hs Ha) as (s1 & e1 & E1 & Hs1).
  destruct (trace_entry_append _ _ _ _ _ Hs Ha E1) as (Habs & -> & Hbit).
  destruct (IH (S k) s1 Hs1) as (s2 & e2 & E2 & Habs2 & He2).
  rewrite E1. cbn [mbind option_bind]. rewrite E2. cbn [mbind option_bind].
  eexists _, _. split; [done|].
  rewrite call_entries_cons. cbn [foldl length]. rewrite <- Habs. split; [done|].
  rewrite He2, Hbit. clear E2 Habs2 He2 IH Hbit.
  assert (avail_entries s1 = avail_entries s /\
          (ctrue (tracing_active s) = false -> ctrue (tracing_active s1) = false) /\
          (ctrue (tracing_active s) = true -> lastentry s1 = lastentry s + 1 /\
             ctrue (tracing_active s1) = (lastentry s <? avail_entries s))) as (Hav & Hoff & Hon).
  { revert E1. unfold probe_call in Ha. destruct Hs as [Hlen Hav Hlast Hact _].
    rewrite length_id_calls in Hlast. destruct (Z.eqb_spec (tracing_active s) 0) as [E|E].
    { rewrite trace_entry_idle by done. intros [= <-]. by rewrite (proj2 (ctrue_false _) E). }
    rewrite trace_entry_claim by (auto; try lia; by destruct (Z.eqb_spec (tracing_active s) 0)).
    rewrite (proj2 (ctrue_true _) E).
    repeat case_match; intros [= <-]; simpl; repeat split; auto; try done; by apply ctrue_true. }
  rewrite Hav. destruct (ctrue (tracing_active s)); simpl.
  - destruct (Hon eq_refl) as [-> ->]. destruct (test_bit 0 _); simpl; rewrite ?andb_false_r; [done|].
    zcase; simpl; try lia; done.
  - rewrite Hoff by done. done.
Qed.

(** C5: a sequence of probe calls is implemented as the same sequence of
    appends to a bounded log, and asks for the reader to be woken exactly once
    when the sequence overflows the buffer (and the reader has not been asked
    for already), never otherwise. *)
Theorem trace_calls_refine_log (envs : nat -> cpu_env) (k : nat) (l : list te_args) (s : tracer) :
  tracer_ok s -> Forall probe_call l ->
  exists s' e, trace_calls envs k l s = Some (s', e) /\
    abs s' = foldl (fun lg e => LogSpec.append e lg) (abs s) (call_entries envs k l) /\
    e = (if ctrue (tracing_active s) && (avail_entries s <? lastentry s + Z.of_nat (length l))
            && negb (test_bit 0 (tasklet_scheduled s)) then [SmpCall 0] else []).
Proof. apply trace_calls_log. Qed.

Lemma trace_calls_refine_log_witness :
  exists s' e, trace_calls sample_env 0 [sample_call; sample_call; sample_call; sample_call]
      (set_tracing_active 1 (sample_tracer 3)) = Some (s', e) /\
    abs s' = foldl (fun lg e => LogSpec.append e lg) (abs (set_tracing_active 1 (sample_tracer 3)))
      (call_entries sample_env 0 [sample_call; sample_call; sample_call; sample_call]) /\
    e = [SmpCall 0].
Proof.
  apply (trace_calls_refine_log sample_env 0 [sample_call; sample_call; sample_call; sample_call]
    (set_tracing_active 1 (sample_tracer 3))).
  - split; simpl; lia.
  - repeat constructor.
Defined.

(** ** Starting, waking and failing to start *)

Lemma trace_entry_frame env a s s' e :
  trace_entry env a s = Some (s', e) ->
  avail_entries s' = avail_entries s /\ us_pid s' = us_pid s /\ lastread s' = lastread s /\
  stop_tracing_requested s' = stop_tracing_requested s.
Proof.
  unfold trace_entry. cbv zeta. destruct (_ && _); [intros; by simplify_eq|].
  destruct (_ <? _); [destruct (test_bit _ _); intros; by simplify_eq|].
  destruct (zset _ _ _); simpl; intros; by simplify_eq.
Qed.

Lemma trace_calls_frame envs k l s s' e :
  trace_calls envs k l s = Some (s', e) ->
  avail_entries s' = avail_entries s /\ us_pid s' = us_pid s /\ lastread s' = lastread s /\
  stop_tracing_requested s' = stop_tracing_requested s.
Proof.
  revert k s e. induction l as [|a l IH]; intros k s e; cbn [trace_calls]; [by intros [= <- _]|].
  destruct (trace_entry (envs k) a s) as [[s1 e1]|] eqn:E; [|done]. simpl.
  destruct (trace_calls envs (S k) l s1) as [[s2 e2]|] eqn:E'; [|done]. intros [= <- _].
  apply IH in E' as (-> & -> & -> & ->). by apply trace_entry_frame in E.
Qed.

Lemma trace_calls_ok envs k l s s' e :
  tracer_ok s -> Forall probe_call l -> trace_calls envs k l s = Some (s', e) -> tracer_ok s'.
Proof.
  intros Hs Hl. revert k s e Hs. induction Hl as [|a l Ha Hl IH]; intros k s e Hs; cbn [trace_calls];
    [by intros [= <- _]|].
  destruct (trace_entry_ok (envs k) a s Hs Ha) as (s1 & e1 & -> & Hs1). cbn [mbind option_bind].
  destruct (trace_calls envs (S k) l s1) as [[s2 e2]|] eqn:E; [|done]. intros [= <- _]. eauto.
Qed.

(** Identifier calls into a buffer with room for them all. *)
Lemma trace_calls_room envs k l s :
  Forall (fun a => 41 < sepentry_type_val (te_type a)) l ->
  avail_entries s = Z.of_nat (length (entries s)) -> 0 <= avail_entries s < 2 ^ 27 ->
  0 <= lastentry s -> lastentry s + Z.of_nat (length l) <= avail_entries s ->
  exists s', trace_calls envs k l s = Some (s', []) /\
    take (Z.to_nat (lastentry s')) (entries s') =
      take (Z.to_nat (lastentry s)) (entries s) ++ call_entries envs k l /\
    lastentry s' = lastentry s + Z.of_nat (length l) /\ tracing_active s' = tracing_active s /\
    tasklet_scheduled s' = tasklet_scheduled s /\ length (entries s') = length (entries s).
Proof.
  intros Hl. revert k s. induction Hl as [|a l Ha Hl IH]; intros k s Hlen Hav H0 Hle.
  { exists s. simpl. rewrite app_nil_r. repeat split; auto; lia. }
  cbn [trace_calls length] in *. rewrite trace_entry_claim by lia.
  destruct (Z.ltb_spec (lastentry s) (avail_entries s)); [|lia]. cbn [mbind option_bind].
  match goal with |- context [trace_calls envs (S k) l ?x] =>
    destruct (IH (S k) x) as (s' & -> & E1 & E2 & E3 & E4 & E5) end;
    simpl in *; rewrite ?length_insert in *; try lia.
  exists s'. split; [done|]. rewrite E1, call_entries_cons, E2.
  replace (Z.to_nat (lastentry s + 1)) with (S (Z.to_nat (lastentry s))) by lia.
  rewrite take_insert_snoc, <- app_assoc by lia. repeat split; auto; lia.
Qed.

Lemma start_tracing_log (alloc : bool) (envs : nat -> cpu_env) (pid : Z) (s : tracer) :
  tracer_ok s -> 147 <= avail_entries s ->
  exists s', nl_rcv_func alloc envs pid START_TRACING s = Some (s', []) /\
    abs s' = LogSpec.MkLog (call_entries envs 0 id_calls) (Z.to_nat (avail_entries s)) true /\
    us_pid s' = pid /\ tracer_ok s' /\ lastentry s' = 147 /\ tracing_active s' = 1 /\
    avail_entries s' = avail_entries s /\ lastread s' = lastread s /\
    stop_tracing_requested s' = stop_tracing_requested s /\ tasklet_scheduled s' = tasklet_scheduled s.
Proof.
  intros [Hlen Hav Hlast Hact Hread] Hroom. unfold nl_rcv_func. simpl (START_TRACING =? _).
  unfold trace_IDs. cbv iota.
  pose proof length_id_calls as Hn. pose proof id_calls_types as Ht.
  destruct (trace_calls_room envs 0 id_calls (set_tracing_active 1 (set_lastentry 0 (set_us_pid pid s))))
    as (s' & E & E1 & E2 & E3 & E4 & E5);
    [done|done|done|done|cbn [lastentry avail_entries set_tracing_active set_lastentry set_us_pid]; lia|].
  exists s'. split; [done|]. apply trace_calls_frame in E as (Hf & -> & Hr & Hs).
  simpl in *. rewrite Hn in E2. unfold abs. rewrite E1, E3, Hf. do 2 (split; [done|]).
  split; [|repeat split; auto; lia]. split; rewrite ?E2, ?E3, ?E5, ?Hf, ?Hr, ?Hn; auto; lia.
Qed.

(** A START_TRACING message restarts the log with the identifier entries
    of every queue, synchronisation variable and state variable, in order, and
    switches tracing on, whatever the tracer was doing. *)
Theorem start_tracing_logs_ids (alloc : bool) (envs : nat -> cpu_env) (pid : Z) (s : tracer) :
  tracer_ok s -> 147 <= avail_entries s ->
  exists s', nl_rcv_func alloc envs pid START_TRACING s = Some (s', []) /\
    abs s' = LogSpec.MkLog (call_entries envs 0 id_calls) (Z.to_nat (avail_entries s)) true /\
    us_pid s' = pid.
Proof.
  intros Hs Hroom. destruct (start_tracing_log alloc envs pid s) as (s' & ? & ? & ? & _); eauto.
Qed.

Lemma start_tracing_logs_ids_witness :
  exists s', nl_rcv_func true sample_env 77 START_TRACING (sample_tracer 200) = Some (s', []) /\
    abs s' = LogSpec.MkLog (call_entries sample_env 0 id_calls) 200 true /\ us_pid s' = 77.
Proof.
  apply (start_tracing_logs_ids true sample_env 77 (sample_tracer 200)).
  - split; rewrite ?length_id_calls; vm_compute; (done || split; congruence).
  - vm_compute. congruence.
Defined.

(** The wake-up message is as long as an entry although only its first
    word is initialised: the 28 bytes behind it are what the kernel stack
    holds above the local variable, and they reach user space. *)
Theorem awake_usnl_leaks_stack (stack : list Z) (s : tracer) :
  length stack = 28%nat ->
  awake_usnl true stack s = [NlUnicast (us_pid s) (le_bytes 4 WAKE_UP_USNL ++ stack)].
Proof.
  intros H. unfold awake_usnl, send_to_userspace, sizeof_sepentry. simpl Z.to_nat.
  rewrite take_ge; [done|]. rewrite length_app, H, length_le_bytes. lia.
Qed.

Lemma awake_usnl_leaks_stack_witness :
  awake_usnl true (replicate 28 170) (sample_tracer 3)
  = [NlUnicast 0 (le_bytes 4 WAKE_UP_USNL ++ replicate 28 170)].
Proof. apply (awake_usnl_leaks_stack (replicate 28 170) (sample_tracer 3)). reflexivity. Defined.
