(* ===== verification/Usnl.v ===== *)
(** * SEPExtract: the user-space reader

    [kernel/trace/sepextracttracer/usnl.c], the process that switches tracing
    on, fetches the entries over the netlink socket and writes them to
    [/sdcard/trace.out], together with the tracer it talks to.

    [main] is a machine whose program counter is at the points where the
    process enters the kernel. [sendmsg] runs [nl_rcv_func] of [Tracer]
    synchronously, as the netlink socket does; what the kernel sends is queued
    on the socket; the remote call and the tasklet that wake the reader are
    pending until they are delivered. The output of [fprintf] is the bytes
    written; [printf], [fsync], [socket], [bind] and [malloc] do not affect
    this state. The calls of the C library's [sscanf] on the arguments are
    parameters: their return value and what they store. *)

From S2P Require Import Prelude Sepext Vsprintf Tracer.
From stdpp Require Import prelude gmap list strings.
From Stdlib Require Import ZArith Lia.

Open Scope Z_scope.
Open Scope list_scope.

Definition TO_OBTAIN : Z := 100000.

(** ** The text of an entry *)

(** The two [fprintf] calls of an entry; [None] is an index outside
    [typestrings]. *)
Definition entry_line (e : sepentry) : option (list Z) :=
  name ← typestring (se_type e);
  Some (bytes_of name ++ [32] ++ dec_chars (se_cpu e) ++ [32] ++ dec_chars (u16 (se_currpid e)) ++ [32]
        ++ dec_chars (se_cycles e) ++ [32] ++ dec_chars (u16 (se_pid1 e)) ++ [32]
        ++ dec_chars (u16 (se_pid2 e)) ++ [32] ++ hex_chars (se_data e) ++ [32]
        ++ hex_chars (se_addr e) ++ [32] ++ hex_chars (se_location e) ++ [10]).

Definition EOD_line : list Z := bytes_of "EOD" ++ [10].

Example entry_line_ex :
  entry_line (MkEntry 7 123456 65541 0 48879 3221225472 10 310 1)
  = Some (bytes_of (default EmptyString (typestring 7)) ++ bytes_of " 1 310 123456 5 0 beef c0000000 a" ++ [10]).
Proof. vm_compute. reflexivity. Qed.

(** ** State *)

Inductive upc := UStart | UTop | UReply | UWake | UStop | UDone.

Record usnl := MkUsnl {
  u_pc : upc;
  u_data : list Z;      (* the 32 bytes at NLMSG_DATA(nlh) *)
  u_file : list Z;      (* /sdcard/trace.out *)
  u_curcount : Z; u_totcount : Z; u_inservice : Z;  (* int *)
  u_incount : Z; u_outcount : Z;                    (* unsigned int *)
  u_srvaddr : Z; u_toobtain : Z }.

Definition set_pc v u := MkUsnl v (u_data u) (u_file u) (u_curcount u) (u_totcount u) (u_inservice u)
  (u_incount u) (u_outcount u) (u_srvaddr u) (u_toobtain u).
Definition set_data v u := MkUsnl (u_pc u) v (u_file u) (u_curcount u) (u_totcount u) (u_inservice u)
  (u_incount u) (u_outcount u) (u_srvaddr u) (u_toobtain u).
Definition fprintf v u := MkUsnl (u_pc u) (u_data u) (u_file u ++ v) (u_curcount u) (u_totcount u)
  (u_inservice u) (u_incount u) (u_outcount u) (u_srvaddr u) (u_toobtain u).
Definition set_curcount v u := MkUsnl (u_pc u) (u_data u) (u_file u) v (u_totcount u) (u_inservice u)
  (u_incount u) (u_outcount u) (u_srvaddr u) (u_toobtain u).
Definition set_inservice v u := MkUsnl (u_pc u) (u_data u) (u_file u) (u_curcount u) (u_totcount u) v
  (u_incount u) (u_outcount u) (u_srvaddr u) (u_toobtain u).
Definition set_incount v u := MkUsnl (u_pc u) (u_data u) (u_file u) (u_curcount u) (u_totcount u)
  (u_inservice u) v (u_outcount u) (u_srvaddr u) (u_toobtain u).
Definition set_outcount v u := MkUsnl (u_pc u) (u_data u) (u_file u) (u_curcount u) (u_totcount u)
  (u_inservice u) (u_incount u) v (u_srvaddr u) (u_toobtain u).

Lemma usnl_ext u v :
  u_pc u = u_pc v -> u_data u = u_data v -> u_file u = u_file v -> u_curcount u = u_curcount v ->
  u_totcount u = u_totcount v -> u_inservice u = u_inservice v -> u_incount u = u_incount v ->
  u_outcount u = u_outcount v -> u_srvaddr u = u_srvaddr v -> u_toobtain u = u_toobtain v -> u = v.
Proof. destruct u, v. simpl. congruence. Qed.

(** The command line: [argc], and for the two [sscanf] calls the value they
    return and what [srvaddr] and [toobtain] hold afterwards. [None] is
    [exit(1)]. *)
Definition parse_args (argc : Z) (scan1 scan2 : Z * Z) : option (Z * Z) :=
  if negb (argc =? 1) then
    if argc <? 3 then None
    else if scan1.1 =? 0 then None
    else if scan2.1 =? 0 then None
    else Some (u32 scan1.2, u32 scan2.2)
  else Some (0, 0).

Definition usnl_init (args : Z * Z) : usnl :=
  MkUsnl UStart (replicate 32 0) [] 0 0 0 0 0 args.1 args.2.

(** The reader, the tracer, the messages queued on the socket and the pending
    remote calls and tasklets. *)
Record system := MkSys {
  kern : tracer; usr : usnl; queue : list (list Z); pend : list effect }.

(** [pid] is the reader's process id, [alloc] whether the kernel finds memory
    for its replies, [envs] what the CPU provides to [trace_IDs]. *)
Section reader.
Context (pid : Z) (alloc : bool) (envs : nat -> cpu_env).

Definition post1 (s : system) (e : effect) : system :=
  match e with
  | NlUnicast p m => if p =? pid then MkSys (kern s) (usr s) (queue s ++ [m]) (pend s) else s
  | SmpCall _ | TaskletSchedule => MkSys (kern s) (usr s) (queue s) (pend s ++ [e])
  end.

Definition post (es : list effect) (s : system) : system := foldl post1 s es.

(** [*((unsigned int * ) NLMSG_DATA(nlh)) = m; sendmsg(sock_fd,&msg,0);] *)
Definition sendmsg (m : Z) (s : system) : option system :=
  let u := set_data (le_bytes 4 m ++ drop 4 (u_data (usr s))) (usr s) in
  '(k, es) ← nl_rcv_func alloc envs pid (first_word (u_data u)) (kern s);
  Some (post es (MkSys k u (queue s) (pend s))).

(** [recvmsg(sock_fd, &msg, 0);], [None] when it blocks. *)
Definition recvmsg (s : system) : option system :=
  match queue s with
  | [] => None
  | m :: q =>
      Some (MkSys (kern s) (set_data (take 32 (m ++ drop (length m) (u_data (usr s)))) (usr s)) q (pend s))
  end.

Definition with_usr (f : usnl -> usnl) (s : system) : system :=
  MkSys (kern s) (f (usr s)) (queue s) (pend s).

(** The part of the loop that handles an entry. *)
Definition handle_entry (u : usnl) : option usnl :=
  let current_entry := bytes_sepentry (u_data u) in
  line ← entry_line current_entry;
  let u := fprintf line u in
  let u := set_curcount (s32 (u_curcount u + 1)) u in
  let u :=
    if (se_type current_entry =? sepentry_type_val SERVICEENTRY) && ctrue (u_srvaddr u)
       && (se_addr current_entry =? u_srvaddr u)
    then set_incount (u32 (u_incount u + 1)) (set_inservice 1 u)
    else if (se_type current_entry =? sepentry_type_val SERVICEEXIT) && ctrue (u_srvaddr u)
            && (se_addr current_entry =? u_srvaddr u) && ctrue (u_inservice u)
    then set_inservice 0 (set_outcount (u32 (u_outcount u + 1)) u)
    else u in
  if ctrue (u_srvaddr u) && (u_toobtain u <=? u_outcount u) then Some (set_pc UStop u)
  else if negb (ctrue (u_srvaddr u)) && (TO_OBTAIN <=? u_totcount u) then Some (set_pc UStop u)
  else Some (set_pc UTop u).

Inductive ustep := UStep (s : system) | UBlock | UExit | UFault.

Definition run_send (m : Z) (next : upc) (s : system) : ustep :=
  match sendmsg m s with
  | None => UFault
  | Some s => UStep (with_usr (set_pc next) s)
  end.

(** The reader from one entry into the kernel to the next. *)
Definition usnl_step (s : system) : ustep :=
  match u_pc (usr s) with
  | UStart => run_send START_TRACING UTop s
  | UTop =>
      if u_totcount (usr s) <? TO_OBTAIN then run_send REQUEST_ENTRY UReply s
      else UStep (with_usr (set_pc UStop) s)
  | UReply =>
      match recvmsg s with
      | None => UBlock
      | Some s =>
          let w := first_word (u_data (usr s)) in
          if w =? STOP_TRACING then UStep (with_usr (set_pc UStop) s)
          else if w =? END_OF_DATA then
            let s := with_usr (fprintf EOD_line) s in
            if ctrue (u_curcount (usr s)) then run_send SYNC_COMPLETE UWake s
            else UStep (with_usr (set_pc UWake) s)
          else if w =? WAKE_UP_USNL then UStep (with_usr (set_pc UTop) s)
          else match handle_entry (usr s) with
               | None => UFault
               | Some u => UStep (with_usr (fun _ => u) s)
               end
      end
  | UWake =>
      match recvmsg s with
      | None => UBlock
      | Some s => UStep (with_usr (fun u => set_pc UTop (set_curcount 0 (set_inservice 0 u))) s)
      end
  | UStop => run_send STOP_TRACING UDone s
  | UDone => UExit
  end.

(** [n] steps of the reader, none of which blocks, faults or exits. *)
Fixpoint usnl_run (n : nat) (s : system) : option system :=
  match n with
  | O => Some s
  | S n' => match usnl_step s with UStep s' => usnl_run n' s' | _ => None end
  end.

(** The whole system: a probe fires, a command is written, a pending wake-up
    is delivered, or the reader runs (blocked or exited, it stays as it is). *)
Inductive sys_event :=
  | EvProbe (env : cpu_env) (a : te_args)
  | EvCommand (copied : bool) (user : list Z) (count : Z)
  | EvDeliver (stack : list Z)
  | EvUsnl.

Definition sys_step (ev : sys_event) (s : system) : option system :=
  match ev with
  | EvProbe env a =>
      '(k, es) ← trace_entry env a (kern s);
      Some (post es (MkSys k (usr s) (queue s) (pend s)))
  | EvCommand copied user count =>
      let '(_, k, es) := run_command copied user count (kern s) in
      Some (post es (MkSys k (usr s) (queue s) (pend s)))
  | EvDeliver stack =>
      match pend s with
      | [] => Some s
      | e :: p =>
          let s := MkSys (kern s) (usr s) (queue s) p in
          Some (post (match e with
                      | SmpCall _ => schedule_usnl alloc stack (kern s)
                      | _ => awake_usnl alloc stack (kern s)
                      end) s)
      end
  | EvUsnl =>
      match usnl_step s with
      | UStep s' => Some s'
      | UBlock | UExit => Some s
      | UFault => None
      end
  end.

Fixpoint sys_run (evs : list sys_event) (s : system) : option system :=
  match evs with
  | [] => Some s
  | ev :: evs' => s' ← sys_step ev s; sys_run evs' s'
  end.
End reader.

(** ** What the tracer answers to a request *)

Lemma first_word_msg m rest : 0 <= m < 4294967296 -> first_word (le_bytes 4 m ++ rest) = m.
Proof.
  intros Hm. unfold first_word, field. rewrite drop_0, take_app_length'; [|by rewrite length_le_bytes].
  by apply le_val_u32.
Qed.

Lemma first_word_recv m rest : 0 <= m < 4294967296 -> first_word (take 32 (le_bytes 4 m ++ rest)) = m.
Proof.
  intros Hm. unfold first_word, field. rewrite drop_0, take_take. simpl (4 `min` 32)%nat.
  by apply (first_word_msg m rest).
Qed.

(** Some entries are left to read. *)
Definition readable (k : tracer) : Prop :=
  tracing_active k = 0 /\ lastread k < avail_entries k /\
  (stop_tracing_requested k <> 0 -> lastread k < lastentry k).

Lemma request_entry_sends envs pid k e :
  tracer_ok k -> readable k -> zget (entries k) (lastread k) = Some e ->
  nl_rcv_func true envs pid REQUEST_ENTRY k =
    Some (set_lastread (lastread k + 1) (set_touscnt (u32 (touscnt k + 1)) (set_us_pid pid k)),
          [NlUnicast pid (sepentry_bytes e)]).
Proof.
  intros [Hlen Hav Hlast Hact Hread] (Ha & Hr & Hs) He. rewrite length_id_calls in Hlast.
  unfold nl_rcv_func. cbn [set_us_pid set_touscnt tracing_active stop_tracing_requested lastread lastentry
    avail_entries entries touscnt us_pid]. simpl (REQUEST_ENTRY =? _). cbv iota.
  rewrite Ha, He, !u32_id by lia. unfold ctrue. simpl (negb (0 =? 0)). cbn [orb mbind option_bind].
  destruct (Z.eqb_spec (stop_tracing_requested k) 0); simpl; repeat zcase; simpl; try lia; try done.
Qed.

Lemma request_entry_eod envs pid k :
  stop_tracing_requested k = 0 \/ lastread k < u32 (lastentry k) /\ lastread k < avail_entries k ->
  tracing_active k <> 0 \/ avail_entries k <= lastread k ->
  nl_rcv_func true envs pid REQUEST_ENTRY k =
    Some (set_us_pid pid k, [NlUnicast pid (le_bytes 4 END_OF_DATA)]).
Proof.
  intros Hs Hr. unfold nl_rcv_func. cbv zeta. cbn [stop_tracing_requested set_us_pid tracing_active
    avail_entries lastread lastentry]. simpl (REQUEST_ENTRY =? _). cbv iota.
  assert (ctrue (stop_tracing_requested k)
    && ((u32 (lastentry k) <=? lastread k) || (avail_entries k <=? lastread k)) = false) as ->
    by (unfold ctrue; destruct (Z.eqb_spec (stop_tracing_requested k) 0); simpl; lia).
  unfold ctrue. destruct (Z.eqb_spec (tracing_active k) 0); simpl; [|done].
  destruct (Z.leb_spec (avail_entries k) (lastread k)); [done|lia].
Qed.

Lemma request_entry_stop envs pid k :
  tracer_ok k -> stop_tracing_requested k <> 0 ->
  lastentry k <= lastread k \/ avail_entries k <= lastread k ->
  nl_rcv_func true envs pid REQUEST_ENTRY k =
    Some (set_stop_tracing_requested 0 (set_us_pid pid k), [NlUnicast pid (le_bytes 4 STOP_TRACING)]).
Proof.
  intros [Hlen Hav Hlast Hact Hread] Hs Hr. rewrite length_id_calls in Hlast.
  unfold nl_rcv_func. cbv zeta. cbn [stop_tracing_requested set_us_pid tracing_active
    avail_entries lastread lastentry]. simpl (REQUEST_ENTRY =? _). cbv iota.
  rewrite u32_id by lia. unfold ctrue. destruct (Z.eqb_spec (stop_tracing_requested k) 0); [done|].
  simpl. destruct (Z.leb_spec (lastentry k) (lastread k)), (Z.leb_spec (avail_entries k) (lastread k));
    simpl; try lia; done.
Qed.

(** ** One exchange *)

Lemma entry_line_recorded e : recorded e -> is_Some (entry_line e).
Proof.
  intros (_ & t & Hne & Ht). unfold entry_line. rewrite Ht.
  assert (is_Some (typestring (sepentry_type_val t))) as [n ->]; [|simpl; eauto].
  destruct t; try done; eexists; reflexivity.
Qed.

Definition line_of (e : sepentry) : list Z := default [] (entry_line e).

(** The services the reader counts: an entry of the service on the command
    line opens one, an exit closes it. *)
Definition count_service (e : sepentry) (u : usnl) : usnl :=
  if ctrue (u_srvaddr u) && (se_addr e =? u_srvaddr u) then
    if se_type e =? sepentry_type_val SERVICEENTRY then set_incount (u32 (u_incount u + 1)) (set_inservice 1 u)
    else if (se_type e =? sepentry_type_val SERVICEEXIT) && ctrue (u_inservice u)
    then set_inservice 0 (set_outcount (u32 (u_outcount u + 1)) u)
    else u
  else u.

(** A reader that counts a service has seen enough of them. *)
Definition obtained (u : usnl) : bool := ctrue (u_srvaddr u) && (u_toobtain u <=? u_outcount u).

(** Of the entries that are left, those the reader asks for, and whether it
    has then seen enough. *)
Fixpoint reader_takes (u : usnl) (es : list sepentry) : list sepentry * bool :=
  match es with
  | [] => ([], false)
  | e :: es' =>
      let u := count_service e u in
      if obtained u then ([e], true) else let '(l, enough) := reader_takes u es' in (e :: l, enough)
  end.

(** Without a service on the command line it asks for all of them. *)
Lemma reader_takes_all u es : u_srvaddr u = 0 -> reader_takes u es = (es, false).
Proof.
  intros Hs. induction es as [|e es IH]; [done|]. cbn [reader_takes].
  assert (count_service e u = u) as -> by (unfold count_service; by rewrite Hs).
  assert (obtained u = false) as -> by (unfold obtained; by rewrite Hs). by rewrite IH.
Qed.

(** It asks for the first ones, and for all that are left if it has not seen
    enough. *)
Lemma reader_takes_prefix u es read enough :
  reader_takes u es = (read, enough) -> exists left, es = read ++ left /\ (enough = false -> left = []).
Proof.
  revert u read. induction es as [|e es IH]; intros u read; cbn [reader_takes]; [intros [= <- <-]; by exists []|].
  destruct (obtained (count_service e u)); [intros [= <- <-]; by exists es|].
  destruct (reader_takes (count_service e u) es) as [l b] eqn:E. intros [= <- <-].
  destruct (IH _ _ E) as (left & -> & ?). by exists left.
Qed.

Lemma reader_takes_ext u v es :
  u_srvaddr u = u_srvaddr v -> u_toobtain u = u_toobtain v -> u_inservice u = u_inservice v -> u_outcount u = u_outcount v ->
  reader_takes u es = reader_takes v es.
Proof.
  revert u v. induction es as [|e es IH]; intros u v H1 H2 H3 H4; [done|]. cbn [reader_takes].
  assert (u_srvaddr (count_service e u) = u_srvaddr (count_service e v) /\
    u_toobtain (count_service e u) = u_toobtain (count_service e v) /\
    u_inservice (count_service e u) = u_inservice (count_service e v) /\
    u_outcount (count_service e u) = u_outcount (count_service e v)) as (E1 & E2 & E3 & E4).
  { unfold count_service. rewrite H1, H3. repeat case_match; cbn; rewrite ?H4; auto. }
  unfold obtained. rewrite E1, E2, E4, (IH (count_service e u) (count_service e v)) by done. done.
Qed.

Section dialogue.
Context (pid : Z) (envs : nat -> cpu_env).

Lemma handle_entry_counts e u :
  u_totcount u = 0 -> recorded e -> u_data u = sepentry_bytes e ->
  handle_entry u =
    let u := count_service e (set_curcount (s32 (u_curcount u + 1)) (fprintf (line_of e) u)) in
    Some (set_pc (if obtained u then UStop else UTop) u).
Proof.
  intros Ht Hr Hd. unfold handle_entry, line_of. rewrite Hd, bytes_sepentry_bytes by apply Hr.
  destruct (entry_line_recorded e Hr) as [l ->]. cbn [mbind option_bind default from_option id]. cbv zeta.
  unfold count_service, obtained. cbn [u_srvaddr u_inservice fprintf set_curcount].
  destruct (ctrue (u_srvaddr u)) eqn:Es, (se_addr e =? u_srvaddr u), (se_type e =? sepentry_type_val SERVICEENTRY),
    (se_type e =? sepentry_type_val SERVICEEXIT), (ctrue (u_inservice u));
    cbn [andb u_srvaddr u_toobtain u_outcount u_totcount fprintf set_curcount set_incount set_inservice set_outcount];
    rewrite ?Es, ?Ht; cbn [andb negb]; repeat case_match; done.
Qed.

Lemma step_top k k' u q p m :
  u_pc u = UTop -> u_totcount u = 0 ->
  nl_rcv_func true envs pid REQUEST_ENTRY k = Some (k', [NlUnicast pid m]) ->
  usnl_step pid true envs (MkSys k u q p) =
    UStep (MkSys k' (set_pc UReply (set_data (le_bytes 4 REQUEST_ENTRY ++ drop 4 (u_data u)) u)) (q ++ [m]) p).
Proof.
  intros Hpc Ht E. unfold usnl_step, run_send, sendmsg. cbn [usr kern queue pend set_data u_data].
  rewrite Hpc, Ht, first_word_msg by (unfold REQUEST_ENTRY; lia). rewrite E.
  simpl. by rewrite Z.eqb_refl.
Qed.

Lemma step_reply_entry k u q p e :
  u_pc u = UReply -> u_totcount u = 0 -> length (u_data u) = 32%nat -> recorded e ->
  usnl_step pid true envs (MkSys k u (sepentry_bytes e :: q) p) =
    let u := count_service e (set_curcount (s32 (u_curcount u + 1)) (fprintf (line_of e) (set_data (sepentry_bytes e) u))) in
    UStep (MkSys k (set_pc (if obtained u then UStop else UTop) u) q p).
Proof.
  intros Hpc Ht Hd Hrec. unfold usnl_step, recvmsg. cbn [usr kern queue pend]. rewrite Hpc.
  rewrite length_sepentry_bytes, drop_ge, app_nil_r, take_ge by (rewrite ?length_sepentry_bytes; lia).
  cbn [usr set_data u_data]. rewrite first_word_entry by apply Hrec.
  pose proof (recorded_type_range e Hrec). unfold STOP_TRACING, END_OF_DATA, WAKE_UP_USNL.
  rewrite !(proj2 (Z.eqb_neq _ _)) by lia.
  by rewrite (handle_entry_counts e (set_data (sepentry_bytes e) u) Ht Hrec eq_refl).
Qed.

Lemma count_service_frame e u :
  u_data (count_service e u) = u_data u /\ u_file (count_service e u) = u_file u /\
  u_curcount (count_service e u) = u_curcount u /\ u_totcount (count_service e u) = u_totcount u.
Proof. unfold count_service. repeat case_match; done. Qed.

(** What the reader has done when it has asked for the entries [read]. *)
Record reads (u u' : usnl) (read : list sepentry) (enough : bool) : Prop := {
  rd_pc : u_pc u' = if enough then UStop else UTop;
  rd_file : u_file u' = u_file u ++ concat (line_of <$> read);
  rd_data : length (u_data u') = 32%nat;
  rd_tot : u_totcount u' = 0;
  rd_cur : 0 <= u_curcount u -> u_curcount u + Z.of_nat (length read) < 2 ^ 31 ->
    u_curcount u' = u_curcount u + Z.of_nat (length read) }.

Lemma usnl_run_app n m s s' :
  usnl_run pid true envs n s = Some s' -> usnl_run pid true envs (n + m) s = usnl_run pid true envs m s'.
Proof.
  revert s. induction n as [|n IH]; intros s; simpl; [by intros [= ->]|].
  destruct (usnl_step _ _ _ _); try done. apply IH.
Qed.

(** One request that is answered with an entry. *)
Lemma first_exchange k u p e :
  tracer_ok k -> readable k -> zget (entries k) (lastread k) = Some e -> recorded e ->
  u_pc u = UTop -> u_totcount u = 0 -> length (u_data u) = 32%nat ->
  exists u1, usnl_run pid true envs 2 (MkSys k u [] p) =
      Some (MkSys (set_lastread (lastread k + 1) (set_touscnt (u32 (touscnt k + 1)) (set_us_pid pid k))) u1 [] p) /\
    reads u u1 [e] (obtained (count_service e u)) /\
    forall es, reader_takes u1 es = reader_takes (count_service e u) es.
Proof.
  intros Hk Hr He Hre Hpc Ht Hd. cbn [usnl_run].
  erewrite step_top; [|done|done|by apply request_entry_sends]. cbn [app].
  rewrite step_reply_entry; [|done|done|simpl; rewrite length_drop; lia|done]. cbv zeta.
  set (u0 := set_curcount _ _).
  assert (u_srvaddr (count_service e u0) = u_srvaddr (count_service e u) /\
    u_toobtain (count_service e u0) = u_toobtain (count_service e u) /\
    u_inservice (count_service e u0) = u_inservice (count_service e u) /\
    u_outcount (count_service e u0) = u_outcount (count_service e u)) as (E1 & E2 & E3 & E4).
  { unfold count_service, u0. cbn [u_srvaddr u_inservice set_curcount fprintf set_data set_pc]. repeat case_match; done. }
  assert (obtained (count_service e u0) = obtained (count_service e u)) as -> by (unfold obtained; by rewrite E1, E2, E4).
  destruct (count_service_frame e u0) as (F1 & F2 & F3 & F4).
  eexists. split; [reflexivity|]. split; [|intros es; by apply reader_takes_ext].
  split; cbn [u_pc u_file u_data u_totcount u_curcount set_pc fmap list_fmap concat length Z.of_nat]; rewrite ?F1, ?F2, ?F3, ?F4.
  - done.
  - cbn [u0 u_file set_curcount fprintf set_data set_pc]. by rewrite app_nil_r.
  - apply length_sepentry_bytes.
  - done.
  - intros H0 H1. cbn [u0 u_curcount set_curcount fprintf set_data set_pc]. apply s32_id. lia.
Qed.

(** As long as the requests are answered with entries, their lines are
    written; the reader stops when it has seen enough. *)
Lemma drain_entries n k u p :
  tracer_ok k -> tracing_active k = 0 -> lastread k + Z.of_nat n <= avail_entries k ->
  (stop_tracing_requested k <> 0 -> lastread k + Z.of_nat n <= lastentry k) ->
  Forall recorded (take n (drop (Z.to_nat (lastread k)) (entries k))) ->
  u_pc u = UTop -> u_totcount u = 0 -> length (u_data u) = 32%nat ->
  let '(read, enough) := reader_takes u (take n (drop (Z.to_nat (lastread k)) (entries k))) in
  exists u' up t, reads u u' read enough /\
  usnl_run pid true envs (2 * length read) (MkSys k u [] p) =
    Some (MkSys (set_us_pid up (set_touscnt t (set_lastread (lastread k + Z.of_nat (length read)) k))) u' [] p).
Proof.
  revert k u. induction n as [|n IH]; intros k u Hk Ha Hav Hst Hrec Hpc Ht Hd.
  { exists u, (us_pid k), (touscnt k). split; [split; cbn; rewrite ?app_nil_r; done || lia|]. destruct k. cbn. by rewrite Z.add_0_r. }
  pose proof Hk as [Hlen Hav' Hlast Hact Hread].
  destruct (zget_is_Some (entries k) (lastread k)) as [e He]; [lia|].
  assert (entries k !! Z.to_nat (lastread k) = Some e) as Hlk.
  { unfold zget in He. by destruct (Z.leb_spec 0 (lastread k)); [|lia]. }
  rewrite (drop_S _ e) in Hrec |- * by done. cbn [take] in Hrec |- *. apply Forall_cons in Hrec as [Hre Hrec].
  cbn [reader_takes]. set (k1 := set_lastread (lastread k + 1) (set_touscnt (u32 (touscnt k + 1)) (set_us_pid pid k))).
  destruct (first_exchange k u p e) as (u1 & E1 & Hu1 & Hsame); try done.
  { split; [done|]. split; [lia|]. intros ?%Hst. lia. }
  fold k1 in E1. destruct Hu1 as [Hpc1 Hfile1 Hd1 Ht1 Hc1]. destruct (obtained (count_service e u)).
  { exists u1, pid, (u32 (touscnt k + 1)). split; [by split|]. exact E1. }
  assert (Z.to_nat (lastread k + 1) = S (Z.to_nat (lastread k))) as Hto by lia.
  pose proof (IH k1 u1) as H. cbn [k1 lastread set_lastread entries set_touscnt set_us_pid] in H. rewrite Hto, Hsame in H.
  specialize (H ltac:(split; simpl; auto; lia) Ha ltac:(simpl; lia) ltac:(simpl; intros ?%Hst; lia) Hrec Hpc1 Ht1 Hd1).
  destruct (reader_takes (count_service e u) _) as [l b]. destruct H as (u' & up & t & Hrd & E2). exists u', up, t. split.
  - destruct Hrd as [Hp2 Hf2 Hd2 Ht2 Hc2]. cbn [length] in *. split; try done.
    + rewrite Hf2, Hfile1. cbn [fmap list_fmap concat]. by rewrite app_nil_r, <- app_assoc.
    + intros Hc0 Hc. cbn [length] in *. specialize (Hc1 ltac:(lia) ltac:(lia)). rewrite Hc2 by lia. lia.
  - cbn [length]. replace (2 * S (length l))%nat with (2 + 2 * length l)%nat by lia.
    rewrite (usnl_run_app 2 (2 * length l) _ _ E1), E2. do 2 f_equal. unfold set_us_pid, set_touscnt, set_lastread. simpl. f_equal. lia.
Qed.

(** Receiving a control message. *)
Lemma recv_control k u q p w : 0 <= w < 4294967296 ->
  exists d, first_word d = w /\ (length (u_data u) = 32%nat -> length d = 32%nat) /\
    recvmsg (MkSys k u (le_bytes 4 w :: q) p) = Some (MkSys k (set_data d u) q p).
Proof.
  intros Hw. eexists. split; [|split; [|reflexivity]]; [by apply first_word_recv|].
  cbn [usr]. intros Hd. rewrite length_take, length_app, length_drop, length_le_bytes. lia.
Qed.

Lemma sync_complete k :
  tracing_active k = 0 ->
  nl_rcv_func true envs pid SYNC_COMPLETE k =
    Some (set_tracing_active 1 (set_tasklet_scheduled 0 (set_lastentry 0 (set_lastread 0 (set_us_pid pid k)))), []).
Proof. intros Ha. unfold nl_rcv_func. cbn [tracing_active set_us_pid]. by rewrite Ha. Qed.

Lemma step_reply_eod k u q p :
  u_pc u = UReply -> u_curcount u <> 0 -> tracing_active k = 0 ->
  exists d, usnl_step pid true envs (MkSys k u (le_bytes 4 END_OF_DATA :: q) p) =
    UStep (MkSys (set_tracing_active 1 (set_tasklet_scheduled 0 (set_lastentry 0 (set_lastread 0 (set_us_pid pid k)))))
      (set_pc UWake (set_data d (fprintf EOD_line u))) q p).
Proof.
  intros Hpc Hc Ha. unfold usnl_step. cbn [usr]. rewrite Hpc.
  destruct (recv_control k u q p END_OF_DATA) as (d & Hd & _ & ->); [unfold END_OF_DATA; lia|].
  cbn [usr set_data u_data]. rewrite Hd. simpl (END_OF_DATA =? _). cbv iota.
  cbn [with_usr usr fprintf set_data u_curcount]. rewrite (proj2 (ctrue_true _) Hc).
  unfold run_send, sendmsg. cbn [usr kern queue pend set_data fprintf u_data].
  rewrite first_word_msg by (unfold SYNC_COMPLETE; lia). rewrite sync_complete by done.
  eexists. reflexivity.
Qed.

(** End of data when nothing has been read since the last wake-up. *)
Lemma step_reply_eod_idle k u q p :
  u_pc u = UReply -> u_curcount u = 0 -> length (u_data u) = 32%nat ->
  exists d, length d = 32%nat /\ usnl_step pid true envs (MkSys k u (le_bytes 4 END_OF_DATA :: q) p) =
    UStep (MkSys k (set_pc UWake (set_data d (fprintf EOD_line u))) q p).
Proof.
  intros Hpc Hc Hlen. unfold usnl_step. cbn [usr]. rewrite Hpc.
  destruct (recv_control k u q p END_OF_DATA) as (d & Hd & Hdl & ->); [unfold END_OF_DATA; lia|].
  cbn [usr set_data u_data]. rewrite Hd. simpl (END_OF_DATA =? _). cbv iota.
  cbn [with_usr usr fprintf set_data u_curcount]. rewrite Hc. exists d. auto.
Qed.

Lemma step_reply_stop k u q p :
  u_pc u = UReply ->
  exists d, usnl_step pid true envs (MkSys k u (le_bytes 4 STOP_TRACING :: q) p) =
    UStep (MkSys k (set_pc UStop (set_data d u)) q p).
Proof.
  intros Hpc. unfold usnl_step. cbn [usr]. rewrite Hpc.
  destruct (recv_control k u q p STOP_TRACING) as (d & Hd & _ & ->); [unfold STOP_TRACING; lia|].
  cbn [usr set_data u_data]. rewrite Hd. eexists. reflexivity.
Qed.

Lemma step_stop k u q p :
  u_pc u = UStop ->
  exists d, usnl_step pid true envs (MkSys k u q p) =
    UStep (MkSys (set_lastentry 0 (set_lastread 0 (set_tracing_active 0 (set_tasklet_scheduled 0 (set_us_pid pid k)))))
      (set_pc UDone (set_data d u)) q p).
Proof.
  intros Hpc. unfold usnl_step. cbn [usr]. rewrite Hpc. unfold run_send, sendmsg.
  cbn [usr kern queue pend set_data u_data].
  rewrite first_word_msg by (unfold STOP_TRACING; lia). eexists. reflexivity.
Qed.
End dialogue.

(** The entries of the buffer the reader has not read. *)
Definition unread (k : tracer) : list sepentry := drop (Z.to_nat (lastread k)) (LogSpec.lg_entries (abs k)).

Lemma unread_entries k : tracer_ok k -> lastread k <= Z.min (lastentry k) (avail_entries k) ->
  unread k = take (Z.to_nat (Z.min (lastentry k) (avail_entries k) - lastread k)) (drop (Z.to_nat (lastread k)) (entries k)).
Proof.
  intros [Hlen Hav Hlast Hact Hread] Hr. unfold unread, abs. cbn [LogSpec.lg_entries]. rewrite take_drop_commute.
  replace (Z.to_nat (lastread k) + Z.to_nat _)%nat with (Z.to_nat (lastentry k) `min` length (entries k))%nat by lia.
  by rewrite <- take_take, (take_ge (entries k) (length _)) by lia.
Qed.

(** The reader asks for what is left in the buffer. *)
Lemma drain_unread (pid : Z) (envs : nat -> cpu_env) (k : tracer) (u : usnl) (p : list effect) :
  tracer_ok k -> tracing_active k = 0 -> lastread k <= Z.min (lastentry k) (avail_entries k) ->
  Forall recorded (LogSpec.lg_entries (abs k)) ->
  u_pc u = UTop -> u_totcount u = 0 -> length (u_data u) = 32%nat ->
  let '(read, enough) := reader_takes u (unread k) in
  exists u' up t, reads u u' read enough /\
    (enough = false -> length read = Z.to_nat (Z.min (lastentry k) (avail_entries k) - lastread k)) /\
    (length read <= Z.to_nat (Z.min (lastentry k) (avail_entries k) - lastread k))%nat /\
    usnl_run pid true envs (2 * length read) (MkSys k u [] p) =
      Some (MkSys (set_us_pid up (set_touscnt t (set_lastread (lastread k + Z.of_nat (length read)) k))) u' [] p).
Proof.
  intros Hk Ha Hr Hrec Hpc Ht Hd. pose proof Hk as [Hlen Hav' Hlast Hact Hread]. pose proof (unread_entries k Hk Hr) as Hu.
  set (n := Z.to_nat _) in *.
  pose proof (drain_entries pid envs n k u p Hk Ha ltac:(lia) ltac:(intros _; lia)) as H. rewrite <- Hu in H.
  specialize (H ltac:(by apply Forall_drop) Hpc Ht Hd). destruct (reader_takes u (unread k)) as [read enough] eqn:E.
  apply reader_takes_prefix in E as (left & E & Hleft). apply (f_equal length) in E. rewrite length_app, Hu, length_take, length_drop in E.
  destruct H as (u' & up & t & Hrd & Hrun). exists u', up, t. split; [done|]. split; [|split; [lia|done]].
  intros Hf. rewrite (Hleft Hf) in E. cbn in E. lia.
Qed.

(** A reader that has seen enough switches tracing off. *)
Lemma enough_stops (pid : Z) (envs : nat -> cpu_env) (k : tracer) (u u' : usnl) (p : list effect) read up t :
  tracer_ok k -> reads u u' read true -> 0 <= lastread k + Z.of_nat (length read) <= avail_entries k ->
  exists k' v, usnl_run pid true envs 1
      (MkSys (set_us_pid up (set_touscnt t (set_lastread (lastread k + Z.of_nat (length read)) k))) u' [] p) = Some (MkSys k' v [] p) /\
    u_pc v = UDone /\ u_file v = u_file u ++ concat (line_of <$> read) /\ tracer_ok k' /\
    abs k' = LogSpec.MkLog [] (Z.to_nat (avail_entries k)) false /\ tasklet_scheduled k' = 0 /\ lastread k' = 0 /\
    stop_tracing_requested k' = stop_tracing_requested k.
Proof.
  intros [Hlen Hav Hlast Hact Hread] Hrd Hr. cbn [usnl_run].
  match goal with |- context [usnl_step _ _ _ (MkSys ?k' ?u' _ _)] =>
    destruct (step_stop pid envs k' u' [] p) as [d2 ->] end; [apply Hrd|].
  eexists _, _. split; [reflexivity|]. split; [done|]. split; [apply Hrd|]. repeat split; simpl; auto; lia.
Qed.

Lemma full_buffer_read (pid : Z) (envs : nat -> cpu_env) (k : tracer) (u : usnl) (p : list effect) :
  tracer_ok k -> tracing_active k = 0 -> stop_tracing_requested k = 0 ->
  0 < avail_entries k <= lastentry k -> Forall recorded (LogSpec.lg_entries (abs k)) ->
  u_pc u = UTop -> u_totcount u = 0 -> length (u_data u) = 32%nat -> u_curcount u = lastread k ->
  let '(read, enough) := reader_takes u (unread k) in
  exists k' u', usnl_run pid true envs (2 * length read + (if enough then 1 else 2)) (MkSys k u [] p) =
      Some (MkSys k' u' [] p) /\
    u_pc u' = (if enough then UDone else UWake) /\
    u_file u' = u_file u ++ concat (line_of <$> read) ++ (if enough then [] else EOD_line) /\
    tracer_ok k' /\ abs k' = LogSpec.MkLog [] (Z.to_nat (avail_entries k)) (negb enough) /\
    tasklet_scheduled k' = 0 /\ lastread k' = 0 /\ stop_tracing_requested k' = 0.
Proof.
  intros Hk Ha Hst Hav Hrec Hpc Ht Hd Hc. pose proof Hk as [Hlen Hav' Hlast Hact Hread].
  pose proof (drain_unread pid envs k u p Hk Ha ltac:(lia) Hrec Hpc Ht Hd) as H.
  destruct (reader_takes u (unread k)) as [read enough]. destruct H as (u' & up & t & Hrd & Hall & Hle & E).
  rewrite (usnl_run_app _ _ _ _ _ _ E). clear E. destruct enough.
  { destruct (enough_stops pid envs k u u' p read up t Hk Hrd ltac:(lia)) as (k' & v & E & ?). exists k', v.
    rewrite app_nil_r. rewrite Hst in *. by split. }
  specialize (Hall eq_refl). destruct Hrd as [Hpc' Hfile Hd' Ht' Hc']. rewrite Hc in Hc'. specialize (Hc' ltac:(lia) ltac:(lia)).
  cbn [usnl_run]. erewrite step_top; [|exact Hpc'|exact Ht'|apply request_entry_eod; simpl; auto; lia]. cbn [app].
  match goal with |- context [usnl_step _ _ _ (MkSys ?k' ?u' _ _)] =>
    destruct (step_reply_eod pid envs k' u' [] p) as [d' ->] end; [done|simpl; lia|exact Ha|].
  eexists _, _. split; [reflexivity|]. repeat split; simpl; auto; try lia. by rewrite Hfile, <- app_assoc.
Qed.

Lemma full_buffer_drain (pid : Z) (envs : nat -> cpu_env) (k : tracer) (u : usnl) (p : list effect) :
  tracer_ok k -> tracing_active k = 0 -> stop_tracing_requested k = 0 -> lastread k = 0 ->
  0 < avail_entries k <= lastentry k -> Forall recorded (LogSpec.lg_entries (abs k)) ->
  u_pc u = UTop -> u_srvaddr u = 0 -> u_totcount u = 0 -> length (u_data u) = 32%nat -> u_curcount u = 0 ->
  exists k' u', usnl_run pid true envs (2 * Z.to_nat (avail_entries k) + 2) (MkSys k u [] p) =
      Some (MkSys k' u' [] p) /\
    u_pc u' = UWake /\
    u_file u' = u_file u ++ concat (line_of <$> LogSpec.lg_entries (abs k)) ++ EOD_line /\
    tracer_ok k' /\ abs k' = LogSpec.MkLog [] (Z.to_nat (avail_entries k)) true /\
    tasklet_scheduled k' = 0 /\ lastread k' = 0 /\ stop_tracing_requested k' = 0.
Proof.
  intros Hk Ha Hst Hr Hav Hrec Hpc Hs Ht Hd Hc.
  pose proof (full_buffer_read pid envs k u p Hk Ha Hst Hav Hrec Hpc Ht Hd ltac:(lia)) as H.
  rewrite reader_takes_all in H by done. unfold unread in H. rewrite Hr, drop_0 in H.
  replace (length (LogSpec.lg_entries (abs k))) with (Z.to_nat (avail_entries k)) in H; [exact H|].
  unfold abs. cbn [LogSpec.lg_entries]. rewrite length_take. destruct Hk. lia.
Qed.

(** C32: when the buffer is full, no stop is requested and the reader asks for
    entries, it writes the lines of the entries it has not read yet, in order
    and each once, and the end-of-data marker, and waits for the next wake-up;
    the tracer is then on again with an empty buffer, ready to ask for that
    wake-up, and no message is left on the socket. A reader that counts the
    runs of a service stops at the entry with which it has seen enough of
    them, and leaves the tracer off and empty; one that does not reads all
    entries. The reader is at the top of its loop, at the start of a buffer or
    within it ([curcount] is the number of entries it has read), and no
    message is queued for it; every entry of the buffer has been written by a
    probe; the kernel finds memory for its replies; and [totcount] has its
    initial value 0, which no statement changes. *)
Theorem full_buffer_drained (pid : Z) (envs : nat -> cpu_env) (k : tracer) (u : usnl) (p : list effect) :
  tracer_ok k -> tracing_active k = 0 -> stop_tracing_requested k = 0 ->
  0 < avail_entries k <= lastentry k -> Forall recorded (LogSpec.lg_entries (abs k)) ->
  u_pc u = UTop -> u_totcount u = 0 -> length (u_data u) = 32%nat -> u_curcount u = lastread k ->
  let '(read, enough) := reader_takes u (unread k) in
  (u_srvaddr u = 0 -> read = unread k /\ enough = false) /\
  exists k' u', usnl_run pid true envs (2 * length read + (if enough then 1 else 2)) (MkSys k u [] p) =
      Some (MkSys k' u' [] p) /\
    u_pc u' = (if enough then UDone else UWake) /\
    u_file u' = u_file u ++ concat (line_of <$> read) ++ (if enough then [] else EOD_line) /\
    tracer_ok k' /\ abs k' = LogSpec.MkLog [] (Z.to_nat (avail_entries k)) (negb enough) /\
    tasklet_scheduled k' = 0 /\ lastread k' = 0 /\ stop_tracing_requested k' = 0.
Proof.
  intros Hk Ha Hst Hav Hrec Hpc Ht Hd Hc. pose proof (full_buffer_read pid envs k u p Hk Ha Hst Hav Hrec Hpc Ht Hd Hc) as H.
  pose proof (reader_takes_all u (unread k)) as Hall. destruct (reader_takes u (unread k)). split; [|exact H].
  intros Hs. by injection (Hall Hs).
Qed.

(** C33: once tracing is off and a stop request is set, a reader at the top of
    its loop, with no message queued for it, writes the entries it has not
    read yet, in order, up to the last one recorded and nothing behind it, and
    exits; the tracer is off, its buffer empty and the request cleared. A
    reader that counts the runs of a service and has seen enough of them
    before stops there already, and leaves the request set. Every entry of the
    buffer has been written by a probe, the kernel finds memory for its
    replies, and [totcount] has its initial value 0, which no statement
    changes. (A stop command given while the reader is elsewhere can be lost:
    [stop_command_lost], [early_stop_loses_wakeup].) *)
Theorem stop_drained (pid : Z) (envs : nat -> cpu_env) (k : tracer) (u : usnl) (p : list effect) :
  tracer_ok k -> tracing_active k = 0 -> stop_tracing_requested k <> 0 ->
  lastread k <= Z.min (lastentry k) (avail_entries k) -> Forall recorded (LogSpec.lg_entries (abs k)) ->
  u_pc u = UTop -> u_totcount u = 0 -> length (u_data u) = 32%nat ->
  let '(read, enough) := reader_takes u (unread k) in
  (u_srvaddr u = 0 -> read = unread k /\ enough = false) /\
  exists k' u', usnl_run pid true envs (2 * length read + (if enough then 1 else 3)) (MkSys k u [] p) =
      Some (MkSys k' u' [] p) /\
    u_pc u' = UDone /\ u_file u' = u_file u ++ concat (line_of <$> read) /\
    tracer_ok k' /\ abs k' = LogSpec.MkLog [] (Z.to_nat (avail_entries k)) false /\
    tasklet_scheduled k' = 0 /\ lastread k' = 0 /\
    stop_tracing_requested k' = if enough then stop_tracing_requested k else 0.
Proof.
  intros Hk Ha Hst Hr Hrec Hpc Ht Hd. pose proof Hk as [Hlen Hav' Hlast Hact Hread].
  pose proof (drain_unread pid envs k u p Hk Ha Hr Hrec Hpc Ht Hd) as H. pose proof (reader_takes_all u (unread k)) as Hsrv.
  destruct (reader_takes u (unread k)) as [read enough]. split; [intros Hs; by injection (Hsrv Hs)|].
  destruct H as (u' & up & t & Hrd & Hall & Hle & E). rewrite (usnl_run_app _ _ _ _ _ _ E). clear E. destruct enough.
  { by apply (enough_stops pid envs k u u' p read up t Hk Hrd ltac:(lia)). }
  specialize (Hall eq_refl). destruct Hrd as [Hpc' Hfile Hd' Ht' _]. cbn [usnl_run].
  erewrite step_top; [|exact Hpc'|exact Ht'|apply request_entry_stop; simpl; auto; [|lia]].
  2:{ split; simpl; auto; lia. }
  cbn [app]. match goal with |- context [usnl_step _ _ _ (MkSys ?k' ?u' _ _)] =>
    destruct (step_reply_stop pid envs k' u' [] p) as [d' ->] end; [done|].
  match goal with |- context [usnl_step _ _ _ (MkSys ?k' ?u' _ _)] =>
    destruct (step_stop pid envs k' u' [] p) as [d2 ->] end; [done|].
  eexists _, _. split; [reflexivity|]. repeat split; simpl; auto; try lia.
Qed.

(** ** From the start of the reader to the first buffer in the file *)

Lemma make_entry_recorded env a : te_type a <> __TYPE_FIRST -> recorded (make_entry env a).
Proof.
  intros Hne. split; [|by exists (te_type a)].
  pose proof (sepentry_type_val_range (te_type a)).
  split; simpl; try lia; try apply u32_range;
    match goal with |- context [u16 ?x] => pose proof (u16_range x); lia end.
Qed.

Lemma call_entries_recorded envs k l :
  Forall (fun a => te_type a <> __TYPE_FIRST) l -> Forall recorded (call_entries envs k l).
Proof.
  intros Hl. revert k. induction Hl; intros k; [constructor|].
  rewrite call_entries_cons. constructor; [by apply make_entry_recorded|done].
Qed.

Lemma length_call_entries envs k l : length (call_entries envs k l) = length l.
Proof. unfold call_entries. apply length_imap. Qed.

Section first_round.
Context (pid : Z) (envs ids : nat -> cpu_env).

Definition probe_events (k : nat) (l : list te_args) : list sys_event :=
  imap (fun i a => EvProbe (envs (k + i)%nat) a) l.

Lemma probe_events_cons k a l : probe_events k (a :: l) = EvProbe (envs k) a :: probe_events (S k) l.
Proof.
  unfold probe_events. simpl. rewrite Nat.add_0_r. f_equal. apply imap_ext. intros.
  simpl. by rewrite Nat.add_succ_r.
Qed.

Lemma sys_run_app evs1 evs2 s :
  sys_run pid true ids (evs1 ++ evs2) s = sys_run pid true ids evs1 s ≫= sys_run pid true ids evs2.
Proof.
  revert s. induction evs1 as [|ev evs1 IH]; intros s; [done|]. simpl.
  destruct (sys_step _ _ _ _ _); simpl; auto.
Qed.

(** The messages and the pending calls among the effects. *)
Definition msgs_of (es : list effect) : list (list Z) :=
  omap (fun e => match e with NlUnicast p m => if p =? pid then Some m else None | _ => None end) es.
Definition calls_of (es : list effect) : list effect :=
  omap (fun e => match e with NlUnicast _ _ => None | _ => Some e end) es.

Lemma post_spec es k u q p : post pid es (MkSys k u q p) = MkSys k u (q ++ msgs_of es) (p ++ calls_of es).
Proof.
  revert q p. induction es as [|e es IH]; intros q p; [by rewrite !app_nil_r|].
  unfold post in *. cbn [foldl]. destruct e as [p' m|c|]; simpl; [case_match|..];
    rewrite IH; simpl; by rewrite <- ?app_assoc.
Qed.

Lemma sys_run_probes k l kn u q p k' es :
  trace_calls envs k l kn = Some (k', es) ->
  sys_run pid true ids (probe_events k l) (MkSys kn u q p) = Some (MkSys k' u (q ++ msgs_of es) (p ++ calls_of es)).
Proof.
  revert k kn q p es. induction l as [|a l IH]; intros k kn q p es.
  { simpl. intros [= <- <-]. by rewrite !app_nil_r. }
  rewrite probe_events_cons. cbn [trace_calls sys_run sys_step kern usr queue pend].
  destruct (trace_entry (envs k) a kn) as [[k1 e1]|]; [|done]. cbn [mbind option_bind].
  destruct (trace_calls envs (S k) l k1) as [[k2 e2]|] eqn:E; [|done]. intros [= <- <-].
  rewrite post_spec, (IH _ _ _ _ _ E). unfold msgs_of, calls_of. by rewrite !omap_app, !app_assoc.
Qed.

Lemma sys_run_usnl n s s' :
  usnl_run pid true ids n s = Some s' -> sys_run pid true ids (replicate n EvUsnl) s = Some s'.
Proof.
  revert s. induction n as [|n IH]; intros s; simpl; [done|].
  destruct (usnl_step _ _ _ _); try done. apply IH.
Qed.

(** The reader starts tracing, finds it active and waits. *)
Lemma reader_starts k args :
  tracer_ok k -> 147 <= avail_entries k -> stop_tracing_requested k = 0 \/ lastread k = 0 ->
  exists k' d, usnl_run pid true ids 3 (MkSys k (usnl_init args) [] []) =
      Some (MkSys k' (MkUsnl UWake d EOD_line 0 0 0 0 0 args.1 args.2) [] []) /\
    length d = 32%nat /\ tracer_ok k' /\
    abs k' = LogSpec.MkLog (call_entries ids 0 id_calls) (Z.to_nat (avail_entries k)) true /\
    us_pid k' = pid /\ lastread k' = lastread k /\
    stop_tracing_requested k' = stop_tracing_requested k /\ tasklet_scheduled k' = tasklet_scheduled k /\ lastentry k' = 147 /\ avail_entries k' = avail_entries k.
Proof.
  intros Hk Hav Hst.
  destruct (start_tracing_log true ids pid k) as (k1 & E & Habs & Hp & Hk1 & Hl & Ha & Hav1 & Hr & Hs & Ht); [done..|].
  assert (exists d, length d = 32%nat /\ usnl_step pid true ids (MkSys k (usnl_init args) [] []) =
    UStep (MkSys k1 (MkUsnl UTop d [] 0 0 0 0 0 args.1 args.2) [] [])) as (d1 & Hd1 & E1).
  { eexists. split; [|unfold usnl_step, run_send, sendmsg; cbn [u_pc usnl_init usr kern u_data set_data];
      rewrite first_word_msg, E by (unfold START_TRACING; lia); reflexivity]. reflexivity. }
  cbn [usnl_run]. rewrite E1.
  erewrite step_top; [|done|done|apply request_entry_eod; [|left; lia]].
  2:{ rewrite Hl, Hr, Hs, Hav1. destruct Hst as [->| ->]; [by left|right; split; [done|lia]]. }
  cbn [app]. match goal with |- context [usnl_step _ _ _ (MkSys ?k' ?u' _ _)] =>
    destruct (step_reply_eod_idle pid ids k' u' [] []) as (d2 & Hd2 & ->) end; try done.
  { cbn [u_data set_pc set_data]. rewrite length_app, length_drop, length_le_bytes. lia. }
  eexists _, d2. split; [reflexivity|]. split; [done|].
  destruct Hk1 as [? ? ? ? ?]. split; [split; simpl; auto; lia|]. unfold abs in *. simpl in *.
  repeat split; auto; congruence.
Qed.

(** The wake-up reaches a waiting reader. *)
Lemma reader_woken k u stack :
  u_pc u = UWake -> us_pid k = pid -> pid <> 0 -> length (u_data u) = 32%nat ->
  exists d, length d = 32%nat /\
    sys_run pid true ids [EvDeliver stack; EvUsnl] (MkSys k u [] [SmpCall 0]) =
    Some (MkSys k (set_data d (set_pc UTop (set_curcount 0 (set_inservice 0 u)))) [] []).
Proof.
  intros Hpc Hp Hnz Hd. unfold sys_run, sys_step. cbn [pend usr kern queue].
  unfold schedule_usnl, awake_usnl, send_to_userspace. rewrite Hp, (proj2 (Z.eqb_neq _ _) Hnz), post_spec.
  assert (length (take (Z.to_nat sizeof_sepentry) (le_bytes 4 WAKE_UP_USNL ++ stack)) <= 32)%nat as Hm
    by (rewrite length_take; unfold sizeof_sepentry; lia).
  revert Hm. generalize (take (Z.to_nat sizeof_sepentry) (le_bytes 4 WAKE_UP_USNL ++ stack)). intros m Hm.
  unfold msgs_of. simpl omap. rewrite Z.eqb_refl. cbn [mbind option_bind].
  unfold usnl_step. cbn [usr]. rewrite Hpc. unfold recvmsg. cbn [queue app].
  exists (take 32 (m ++ drop (length m) (u_data u))). split; [|reflexivity]. rewrite length_take, length_app, length_drop. lia.
Qed.
End first_round.

Lemma first_round (pid : Z) (envs ids : nat -> cpu_env) (k : tracer) (l : list te_args)
    (stack : list Z) :
  tracer_ok k -> 147 <= avail_entries k < 147 + Z.of_nat (length l) ->
  stop_tracing_requested k = 0 -> tasklet_scheduled k = 0 -> lastread k = 0 -> pid <> 0 ->
  Forall probe_call l -> Forall (fun a => te_type a <> __TYPE_FIRST) l ->
  exists k' u', sys_run pid true ids
      (replicate 3 EvUsnl ++ probe_events envs 0 l ++ [EvDeliver stack; EvUsnl]
        ++ replicate (2 * Z.to_nat (avail_entries k) + 2) EvUsnl)
      (MkSys k (usnl_init (0, 0)) [] []) = Some (MkSys k' u' [] []) /\
    u_pc u' = UWake /\
    u_file u' = EOD_line ++ concat (line_of <$> take (Z.to_nat (avail_entries k))
      (call_entries ids 0 id_calls ++ call_entries envs 0 l)) ++ EOD_line /\
    abs k' = LogSpec.MkLog [] (Z.to_nat (avail_entries k)) true /\ tasklet_scheduled k' = 0.
Proof.
  intros Hk Hav Hst Htas Hrd Hpid Hpr Hty.
  destruct (reader_starts pid ids k (0, 0)) as (k1 & d1 & E1 & Hd1 & Hk1 & Habs1 & Hp1 & Hr1 & Hs1 & Ht1 & Hl1 & Hav1);
    [done|lia|by left|].
  rewrite sys_run_app, (sys_run_usnl _ _ _ _ _ E1). cbn [mbind option_bind]. clear E1.
  destruct (trace_calls_log envs 0 l k1) as (k2 & e2 & E2 & Habs2 & He2); [done|done|].
  rewrite sys_run_app, (sys_run_probes _ _ _ _ _ _ _ _ _ _ _ E2). cbn [mbind option_bind].
  assert (tracing_active k1 <> 0) as Ha1.
  { apply ctrue_true. by injection Habs1. }
  rewrite (proj2 (ctrue_true _) Ha1), Ht1, Htas, Hl1, Hav1 in He2.
  destruct (Z.ltb_spec (avail_entries k) (147 + Z.of_nat (length l))); [|lia]. simpl in He2. subst e2.
  rewrite Habs1, appends_on in Habs2 by (rewrite length_call_entries; pose proof length_id_calls; lia).
  rewrite !length_call_entries in Habs2.
  destruct (Nat.leb_spec (length id_calls + length l) (Z.to_nat (avail_entries k)));
    [pose proof length_id_calls; lia|].
  pose proof (f_equal LogSpec.lg_entries Habs2) as Hents. pose proof (f_equal LogSpec.lg_on Habs2) as Hon.
  unfold abs in Hents, Hon. cbn [LogSpec.lg_entries LogSpec.lg_on] in Hents, Hon. apply ctrue_false in Hon.
  pose proof (trace_calls_ok _ _ _ _ _ _ Hk1 Hpr E2) as Hk2. pose proof Hk2 as [Hlen2 Hav2 _ _ _].
  apply trace_calls_frame in E2 as (Hf & Hp2 & Hr2 & Hs2).
  assert (avail_entries k <= lastentry k2) as Hfull.
  { apply (f_equal length) in Hents. revert Hents.
    rewrite !length_take, length_app, !length_call_entries. lia. }
  rewrite sys_run_app. destruct (reader_woken pid ids k2 (MkUsnl UWake d1 EOD_line 0 0 0 0 0 0 0) stack)
    as (d2 & Hd2 & E3); [done|congruence|done|done|].
  cbn [app msgs_of calls_of omap list_omap]. cbn [fst snd]. rewrite E3. cbn [mbind option_bind].
  match goal with |- context [MkSys k2 ?u _ _] =>
    destruct (full_buffer_drain pid ids k2 u []) as (k3 & u3 & E4 & Hpc3 & Hfile & Hk3 & Habs3 & Ht3 & _) end;
    try done; try congruence; try lia.
  { unfold abs. cbn [LogSpec.lg_entries]. rewrite Hents. apply Forall_take, Forall_app.
    split; apply call_entries_recorded; [|done]. eapply Forall_impl; [apply id_calls_types|].
    intros a. cbv beta. intros Ha Heq. rewrite Heq in Ha. simpl in Ha. lia. }
  rewrite Hf, Hav1 in *. exists k3, u3. split; [by apply sys_run_usnl|]. split; [done|].
  split; [|done]. rewrite Hfile. unfold abs. cbn [LogSpec.lg_entries]. by rewrite Hents.
Qed.

(** The first round of the reader. It starts tracing on an initialised
    tracer, the probes record more calls than the buffer holds, the wake-up is
    delivered: the trace file then has the identifier entries followed by the
    calls, in order, as many as the buffer holds, and tracing goes on. *)
Theorem first_round_traced (pid : Z) (envs ids : nat -> cpu_env) (k : tracer) (l : list te_args)
    (stack : list Z) :
  tracer_ok k -> 147 <= avail_entries k < 147 + Z.of_nat (length l) ->
  stop_tracing_requested k = 0 -> tasklet_scheduled k = 0 -> lastread k = 0 -> pid <> 0 ->
  Forall probe_call l -> Forall (fun a => te_type a <> __TYPE_FIRST) l ->
  exists k' u', sys_run pid true ids
      (replicate 3 EvUsnl ++ probe_events envs 0 l ++ [EvDeliver stack; EvUsnl]
        ++ replicate (2 * Z.to_nat (avail_entries k) + 2) EvUsnl)
      (MkSys k (usnl_init (0, 0)) [] []) = Some (MkSys k' u' [] []) /\
    u_pc u' = UWake /\
    u_file u' = EOD_line ++ concat (line_of <$> take (Z.to_nat (avail_entries k))
      (call_entries ids 0 id_calls ++ call_entries envs 0 l)) ++ EOD_line /\
    abs k' = LogSpec.MkLog [] (Z.to_nat (avail_entries k)) true /\ tasklet_scheduled k' = 0.
Proof. apply first_round. Qed.

Lemma sample_150_ok : tracer_ok (sample_tracer 150).
Proof. split; rewrite ?length_id_calls; vm_compute; (done || split; congruence). Qed.

Lemma first_round_traced_witness :
  exists k' u', sys_run 77 true sample_env
      (replicate 3 EvUsnl ++ probe_events sample_env 0 (replicate 5 sample_call) ++ [EvDeliver []; EvUsnl]
        ++ replicate (2 * Z.to_nat 150 + 2) EvUsnl)
      (MkSys (sample_tracer 150) (usnl_init (0, 0)) [] []) = Some (MkSys k' u' [] []) /\
    u_pc u' = UWake /\
    u_file u' = EOD_line ++ concat (line_of <$> take (Z.to_nat 150)
      (call_entries sample_env 0 id_calls ++ call_entries sample_env 0 (replicate 5 sample_call))) ++ EOD_line /\
    abs k' = LogSpec.MkLog [] (Z.to_nat 150) true /\ tasklet_scheduled k' = 0.
Proof.
  apply (first_round_traced 77 sample_env sample_env (sample_tracer 150) (replicate 5 sample_call) []);
    [exact sample_150_ok|vm_compute; split; congruence|reflexivity..|lia| |]; repeat constructor; done.
Defined.

(** A full buffer of two entries and a reader about to ask for them. *)
Definition full2 : tracer := MkTracer 3 1 0 0 0 2 77 [sample_entry; sample_entry] 2 0 0.
Definition asking : usnl := set_pc UTop (usnl_init (0, 0)).

Lemma full2_ok : tracer_ok full2.
Proof. split; rewrite ?length_id_calls; simpl; lia. Qed.

Lemma full_buffer_drained_witness :
  exists k' u', usnl_run 77 true sample_env (2 * Z.to_nat 2 + 2) (MkSys full2 asking [] []) =
      Some (MkSys k' u' [] []) /\
    u_pc u' = UWake /\
    u_file u' = [] ++ concat (line_of <$> [sample_entry; sample_entry]) ++ EOD_line /\
    tracer_ok k' /\ abs k' = LogSpec.MkLog [] (Z.to_nat 2) true /\
    tasklet_scheduled k' = 0 /\ lastread k' = 0 /\ stop_tracing_requested k' = 0.
Proof.
  apply (full_buffer_drained 77 sample_env full2 asking []); try exact full2_ok; try done.
  - do 2 (constructor; [exact sample_entry_recorded|]). constructor.
Defined.

(** The same with a stop request after one entry has been read. *)
Definition stopping2 : tracer := MkTracer 2 1 1 0 1 3 77 [sample_entry; sample_entry; sample_entry] 2 0 1.

Lemma stopping2_ok : tracer_ok stopping2.
Proof. split; rewrite ?length_id_calls; simpl; lia. Qed.

Lemma stop_drained_witness :
  exists k' u', usnl_run 77 true sample_env (2 * 1 + 3) (MkSys stopping2 (set_curcount 1 asking) [] []) =
      Some (MkSys k' u' [] []) /\
    u_pc u' = UDone /\ u_file u' = [] ++ concat (line_of <$> [sample_entry]) /\
    tracer_ok k' /\ abs k' = LogSpec.MkLog [] (Z.to_nat 3) false /\
    tasklet_scheduled k' = 0 /\ lastread k' = 0 /\ stop_tracing_requested k' = 0.
Proof.
  apply (stop_drained 77 sample_env stopping2 (set_curcount 1 asking) []); try exact stopping2_ok; try done.
  - do 2 (constructor; [exact sample_entry_recorded|]). constructor.
Defined.

(** ** The limit that is never reached *)

Definition limit_inv (s : system) : Prop :=
  u_totcount (usr s) = 0 /\ u_srvaddr (usr s) = 0 /\
  (u_pc (usr s) = UStop -> first_word (u_data (usr s)) = STOP_TRACING).

Lemma post_usr pid es s : usr (post pid es s) = usr s.
Proof. destruct s. by rewrite post_spec. Qed.

Lemma run_send_usr pid alloc envs m next s s' :
  run_send pid alloc envs m next s = UStep s' ->
  u_pc (usr s') = next /\ u_totcount (usr s') = u_totcount (usr s) /\ u_srvaddr (usr s') = u_srvaddr (usr s).
Proof.
  unfold run_send, sendmsg. destruct (nl_rcv_func _ _ _ _ _) as [[k es]|]; [|done]. cbn [mbind option_bind].
  intros [= <-]. cbn [with_usr usr]. by rewrite post_usr.
Qed.

Lemma handle_entry_usr u u' :
  handle_entry u = Some u' -> u_totcount u = 0 -> u_srvaddr u = 0 ->
  u_pc u' = UTop /\ u_totcount u' = 0 /\ u_srvaddr u' = 0.
Proof.
  unfold handle_entry. destruct (entry_line _); [|done]. cbn [mbind option_bind]. intros E Ht Hs. revert E.
  cbn [u_srvaddr fprintf set_curcount]. rewrite Hs. simpl (ctrue 0). rewrite !andb_false_r.
  cbn [andb u_srvaddr u_totcount fprintf set_curcount]. rewrite Hs, Ht. by intros [= <-].
Qed.

Lemma usnl_step_limit pid alloc envs s s' :
  limit_inv s -> usnl_step pid alloc envs s = UStep s' -> limit_inv s'.
Proof.
  intros (Ht & Hs & Hw). unfold usnl_step.
  destruct (u_pc (usr s)) eqn:Hpc.
  - intros (Hp & E1 & E2)%run_send_usr. unfold limit_inv. rewrite Hp, E1, E2. done.
  - case_match; [|exfalso; rewrite Ht in *; done].
    intros (Hp & E1 & E2)%run_send_usr. unfold limit_inv. rewrite Hp, E1, E2. done.
  - destruct (recvmsg s) as [s1|] eqn:E; [|done].
    assert (u_totcount (usr s1) = 0 /\ u_srvaddr (usr s1) = 0) as [Ht1 Hs1].
    { unfold recvmsg in E. destruct (queue s); [done|]. injection E as <-. done. }
    cbv zeta. destruct (Z.eqb_spec (first_word (u_data (usr s1))) STOP_TRACING); [by intros [= <-]|].
    destruct (_ =? END_OF_DATA).
    { case_match; [intros (Hp & E1 & E2)%run_send_usr|intros [= <-]; done].
      unfold limit_inv. rewrite Hp, E1, E2. done. }
    destruct (_ =? WAKE_UP_USNL); [by intros [= <-]|].
    destruct (handle_entry _) as [u'|] eqn:Eh; [|done]. intros [= <-].
    apply handle_entry_usr in Eh as (E1 & E2 & E3); [|done|done].
    unfold limit_inv. cbn [with_usr usr]. rewrite E1. done.
  - unfold recvmsg. destruct (queue s); [done|]. by intros [= <-].
  - intros (Hp & E1 & E2)%run_send_usr. unfold limit_inv. rewrite Hp, E1, E2. done.
  - done.
Qed.

Lemma sys_step_limit pid alloc envs ev s s' :
  limit_inv s -> sys_step pid alloc envs ev s = Some s' -> limit_inv s'.
Proof.
  intros Hinv. destruct ev; cbn [sys_step].
  - destruct (trace_entry _ _ _) as [[k es]|]; [|done]. cbn [mbind option_bind]. intros [= <-].
    unfold limit_inv. by rewrite post_usr.
  - destruct (run_command _ _ _ _) as [[r k] es]. intros [= <-]. unfold limit_inv. by rewrite post_usr.
  - destruct (pend s); [by intros [= <-]|]. intros [= <-]. unfold limit_inv. by rewrite post_usr.
  - destruct (usnl_step _ _ _ _) eqn:E; intros [= <-]; auto. eauto using usnl_step_limit.
Qed.

(** Without a service on its command line, the reader leaves its loop only
    when the tracer tells it to stop: the limit [TO_OBTAIN] on the number of
    entries is compared with a counter that no statement increments. *)
Theorem reader_ends_only_on_stop (pid : Z) (alloc : bool) (envs : nat -> cpu_env) (k : tracer)
    (evs : list sys_event) (s : system) :
  sys_run pid alloc envs evs (MkSys k (usnl_init (0, 0)) [] []) = Some s ->
  u_pc (usr s) = UStop -> first_word (u_data (usr s)) = STOP_TRACING.
Proof.
  intros E. assert (limit_inv s) as (_ & _ & H); [|exact H]. revert E.
  assert (limit_inv (MkSys k (usnl_init (0, 0)) [] [])) as H by done. revert H.
  generalize (MkSys k (usnl_init (0, 0)) [] []).
  induction evs as [|ev evs IH]; intros s0 H0; cbn [sys_run]; [by intros [= <-]|].
  destruct (sys_step pid alloc envs ev s0) eqn:E; [|done]. eauto using sys_step_limit.
Qed.

Lemma reader_ends_only_on_stop_witness :
  exists s, sys_run 77 true sample_env
      (EvUsnl :: EvProbe (sample_env 0) sample_call :: EvCommand true (bytes_of "1") 2 :: replicate 6 EvUsnl)
      (MkSys (sample_tracer 2) (usnl_init (0, 0)) [] []) = Some s /\
    u_pc (usr s) = UStop /\ first_word (u_data (usr s)) = STOP_TRACING.
Proof.
  eexists. split; [vm_compute; reflexivity|]. split; [reflexivity|].
  eapply (reader_ends_only_on_stop 77 true sample_env (sample_tracer 2)
    (EvUsnl :: EvProbe (sample_env 0) sample_call :: EvCommand true (bytes_of "1") 2 :: replicate 6 EvUsnl));
    [vm_compute; reflexivity|reflexivity].
Defined.

(** ** Two ways to lose a message *)

(** A stop command written before any reader has been started leaves the
    wake-up marked as requested. The reader that starts tracing afterwards is
    never woken: whatever the probes record, nothing is pending and nothing is
    queued for it while it waits. *)
Theorem early_stop_loses_wakeup (pid : Z) (envs ids : nat -> cpu_env) (k : tracer) (l : list te_args) :
  tracer_ok k -> 147 <= avail_entries k -> tasklet_scheduled k = 0 -> lastread k = 0 -> us_pid k = 0 ->
  Forall probe_call l ->
  exists k' u', sys_run pid true ids
      (EvCommand true (bytes_of "1") 2 :: replicate 3 EvUsnl ++ probe_events envs 0 l)
      (MkSys k (usnl_init (0, 0)) [] []) = Some (MkSys k' u' [] []) /\
    u_pc u' = UWake /\ u_file u' = EOD_line.
Proof.
  intros Hk Hav Ht Hr Hp Hl.
  set (k1 := (stop_tracing k).1). pose proof (stop_tracing_ok k Hk) as Hk1. fold k1 in Hk1.
  assert (sys_step pid true ids (EvCommand true (bytes_of "1") 2) (MkSys k (usnl_init (0, 0)) [] [])
    = Some (MkSys k1 (usnl_init (0, 0)) [] []) /\ avail_entries k1 = avail_entries k /\ lastread k1 = 0 /\
    tasklet_scheduled k1 = 1) as (E & Hav1 & Hr1 & Ht1).
  { cbn [sys_step kern usr queue pend]. unfold run_command.
    change (scanned_cmd (bytes_of "1")) with 1. simpl (5 <? 2). cbn [negb].
    simpl (1 =? _). cbv iota. unfold k1, stop_tracing. cbv zeta.
    cbn [tasklet_scheduled set_tracing_active set_stop_tracing_requested]. rewrite Ht. simpl (test_bit 0 0).
    cbv iota. cbn [us_pid set_tasklet_scheduled set_tracing_active set_stop_tracing_requested]. rewrite Hp.
    auto. }
  cbn [sys_run]. rewrite E. cbn [mbind option_bind].
  destruct (reader_starts pid ids k1 (0, 0)) as (k2 & d & E2 & _ & Hk2 & _ & _ & _ & _ & Ht2 & _);
    [done|lia|by right|].
  rewrite sys_run_app, (sys_run_usnl _ _ _ _ _ E2). cbn [mbind option_bind].
  destruct (trace_calls_log envs 0 l k2) as (k3 & e3 & E3 & _ & He3); [done|done|].
  rewrite Ht2, Ht1 in He3. simpl (test_bit 0 1) in He3. rewrite andb_false_r in He3. subst e3.
  rewrite (sys_run_probes _ _ _ _ _ _ _ _ _ _ _ E3). by eexists _, _.
Qed.

Lemma early_stop_loses_wakeup_witness :
  exists k' u', sys_run 77 true sample_env
      (EvCommand true (bytes_of "1") 2 :: replicate 3 EvUsnl
        ++ probe_events sample_env 0 (replicate 60 sample_call))
      (MkSys (sample_tracer 150) (usnl_init (0, 0)) [] []) = Some (MkSys k' u' [] []) /\
    u_pc u' = UWake /\ u_file u' = EOD_line.
Proof.
  apply (early_stop_loses_wakeup 77 sample_env sample_env (sample_tracer 150) (replicate 60 sample_call));
    [exact sample_150_ok|vm_compute; congruence|reflexivity..|]. repeat constructor.
Defined.

(** A stop command can be lost. When the buffer fills before the reader's
    first request, the wake-up is taken for the answer to that request and the
    reader runs one message behind; a stop command between the last two
    answers is then answered behind the end-of-data message, and the reader
    takes the stop message for the wake-up it waits for. Tracing is active
    again, the stop request is cleared and no message is left. *)
Theorem stop_command_lost :
  exists s, sys_run 77 true sample_env
      ([EvUsnl; EvDeliver []] ++ replicate 7 EvUsnl ++ [EvCommand true (bytes_of "1") 2] ++ replicate 4 EvUsnl)
      (MkSys (sample_tracer 3) (usnl_init (0, 0)) [] []) = Some s /\
    tracing_active (kern s) = 1 /\ stop_tracing_requested (kern s) = 0 /\
    queue s = [] /\ pend s = [] /\ u_pc (usr s) = UTop.
Proof. eexists. split; [vm_compute; reflexivity|]. repeat split. Qed.
