(* ===== verification/Concurrent.v ===== *)
(** * SEPExtract: [trace_entry] on several CPUs

    [trace_entry] of [kernel/trace/sepextracttracer/sepext_trace.c] runs on
    both CPUs at once, and once its slot is claimed interrupts are enabled
    again, so that a handler can trace in the middle of it. This file splits it
    into the accesses to shared memory it makes, in program order: the check of
    [tracing_active], the atomic claim of an index, then either the steps that
    switch tracing off and ask for the reader, or the nine stores to the claimed
    entry and the load and store of [stats.entrycnt++]. Any number of calls
    interleave at these points.

    [c_claims] is a ghost: the calls in the order in which they claimed their
    index. The theorems show that this order is the order of the log. *)

From S2P Require Import Prelude Sepext Vsprintf Tracer.
From stdpp Require Import prelude gmap list strings relations.
From Stdlib Require Import ZArith Lia.

Open Scope Z_scope.
Open Scope list_scope.

Lemma sum_list_fmap_insert {A} (f : A -> nat) (l : list A) (i : nat) (t t' : A) :
  l !! i = Some t ->
  (sum_list (f <$> <[i := t']> l) + f t = sum_list (f <$> l) + f t')%nat.
Proof.
  revert i. induction l as [|t1 l IH]; intros [|i]; try done.
  - intros [= ->]. change (<[0%nat := t']> (t :: l)) with (t' :: l). rewrite !fmap_cons.
    cbn [sum_list sum_list_with id]. lia.
  - change (<[S i := t']> (t1 :: l)) with (t1 :: <[i := t']> l). rewrite !fmap_cons.
    intros H%IH. cbn [sum_list sum_list_with id] in *. lia.
Qed.

(** Where a call is. *)
Inductive tstate :=
  | TCheck                       (* tracing_active == 0 && type < STARTIDS *)
  | TClaim                       (* a = atomic_add_return(1, &lastentry) *)
  | TOff                         (* tracing_active = 0 *)
  | TBit                         (* test_and_set_bit(0, &tasklet_scheduled) *)
  | TCall                        (* smp_call_function_single *)
  | TWrite (slot : Z) (k : nat)  (* the k-th store to entries[a - 1] *)
  | TLoad (slot : Z)             (* stats.entrycnt++, load *)
  | TStore (slot v : Z)          (* stats.entrycnt++, store *)
  | TDone (slot : option Z).

Record cstate := MkC {
  c_k : tracer; c_ts : list tstate; c_claims : list nat; c_eff : list effect }.

(** The stores to an entry, in program order: the k-th copies one field of [v]. *)
Definition write_field (k : nat) (v e : sepentry) : sepentry :=
  let '(MkEntry ty cy p1 p2 da ad lo cp cu) := e in
  match k with
  | 0%nat => MkEntry ty (se_cycles v) p1 p2 da ad lo cp cu
  | 1%nat => MkEntry (se_type v) cy p1 p2 da ad lo cp cu
  | 2%nat => MkEntry ty cy p1 p2 da ad lo (se_currpid v) cu
  | 3%nat => MkEntry ty cy (se_pid1 v) p2 da ad lo cp cu
  | 4%nat => MkEntry ty cy p1 (se_pid2 v) da ad lo cp cu
  | 5%nat => MkEntry ty cy p1 p2 (se_data v) ad lo cp cu
  | 6%nat => MkEntry ty cy p1 p2 da (se_addr v) lo cp cu
  | 7%nat => MkEntry ty cy p1 p2 da ad (se_location v) cp cu
  | _ => MkEntry ty cy p1 p2 da ad lo cp (se_cpu v)
  end.

(** One access by call [i], which was made with [c] on a CPU that provides the
    values of [c.1]. [None]: the call has returned, or an access outside the
    buffer. *)
Definition t_step (i : nat) (c : cpu_env * te_args) (t : tstate) (k : tracer)
    : option (tracer * tstate * list nat * list effect) :=
  match t with
  | TCheck =>
      if (tracing_active k =? 0) && (sepentry_type_val (te_type c.2) <? sepentry_type_val STARTIDS)
      then Some (k, TDone None, [], []) else Some (k, TClaim, [], [])
  | TClaim =>
      let n := s32 (lastentry k + 1) in
      let k := set_lastentry n k in
      if avail_entries k <? u32 n then Some (k, TOff, [i], []) else Some (k, TWrite (n - 1) 0, [i], [])
  | TOff => Some (set_tracing_active 0 k, TBit, [], [])
  | TBit =>
      if test_bit 0 (tasklet_scheduled k) then Some (k, TDone None, [], [])
      else Some (set_tasklet_scheduled (set_bit 0 (tasklet_scheduled k)) k, TCall, [], [])
  | TCall => Some (k, TDone None, [], [SmpCall 0])
  | TWrite slot j =>
      e ← zget (entries k) slot;
      es ← zset (entries k) slot (write_field j (make_entry c.1 c.2) e);
      Some (set_entries es k, if (j <? 8)%nat then TWrite slot (S j) else TLoad slot, [], [])
  | TLoad slot => Some (k, TStore slot (entrycnt k), [], [])
  | TStore slot v => Some (set_entrycnt (u32 (v + 1)) k, TDone (Some slot), [], [])
  | TDone _ => None
  end.

Section concurrent.
Context (calls : list (cpu_env * te_args)).

Definition c_step (i : nat) (s : cstate) : option cstate :=
  c ← calls !! i;
  t ← c_ts s !! i;
  '(k, t', cl, e) ← t_step i c t (c_k s);
  Some (MkC k (<[i := t']> (c_ts s)) (c_claims s ++ cl) (c_eff s ++ e)).

Definition c_steps (s s' : cstate) : Prop := exists i, c_step i s = Some s'.

(** All calls at their start. *)
Definition c_init (k : tracer) : cstate := MkC k (replicate (length calls) TCheck) [] [].

Fixpoint c_run (schedule : list nat) (s : cstate) : option cstate :=
  match schedule with
  | [] => Some s
  | i :: l => s' ← c_step i s; c_run l s'
  end.

Definition is_done (t : tstate) : bool := match t with TDone _ => true | _ => false end.

(** The entries of the calls that have claimed an index, in claim order. *)
Definition entry_of (i : nat) : sepentry :=
  match calls !! i with Some c => make_entry c.1 c.2 | None => MkEntry 0 0 0 0 0 0 0 0 0 end.

(** An entry after the first [k] stores. *)
Definition written (k : nat) (v old : sepentry) : sepentry :=
  foldl (fun e j => write_field j v e) old (seq 0 k).

Lemma written_S k v old : write_field k v (written k v old) = written (S k) v old.
Proof. unfold written. by rewrite seq_S, foldl_app. Qed.

Lemma written_all v old : written 9 v old = v.
Proof. by destruct v, old. Qed.

Section invariant.
Context (k0 : tracer).

(** What the position of call [i] says about the shared state. *)
Definition claimed (s : cstate) (i : nat) (slot : Z) : Prop :=
  lastentry k0 <= slot /\ c_claims s !! Z.to_nat (slot - lastentry k0) = Some i.

Definition thread_ok (s : cstate) (i : nat) (t : tstate) : Prop :=
  match t with
  | TCheck | TClaim => i ∉ c_claims s
  | TOff => exists slot, claimed s i slot /\ avail_entries k0 <= slot
  | TBit => tracing_active (c_k s) = 0 /\ exists slot, claimed s i slot /\ avail_entries k0 <= slot
  | TCall => tracing_active (c_k s) = 0 /\ test_bit 0 (tasklet_scheduled (c_k s)) = true /\
      exists slot, claimed s i slot /\ avail_entries k0 <= slot
  | TWrite slot k => (k <= 8)%nat /\ claimed s i slot /\ slot < avail_entries k0 /\
      exists old, zget (entries (c_k s)) slot = Some (written k (entry_of i) old)
  | TLoad slot | TStore slot _ | TDone (Some slot) => claimed s i slot /\ slot < avail_entries k0 /\
      zget (entries (c_k s)) slot = Some (entry_of i)
  | TDone None => tracing_active (c_k s) = 0 /\
      (i ∉ c_claims s \/ test_bit 0 (tasklet_scheduled (c_k s)) = true /\
         exists slot, claimed s i slot /\ avail_entries k0 <= slot)
  end.

Definition calling (t : tstate) : nat := match t with TCall => 1%nat | _ => 0%nat end.

Record c_inv (s : cstate) : Prop := {
  ci_threads : length (c_ts s) = length calls;
  ci_avail : avail_entries (c_k s) = avail_entries k0;
  ci_len : length (entries (c_k s)) = length (entries k0);
  ci_last : lastentry (c_k s) = lastentry k0 + Z.of_nat (length (c_claims s));
  ci_nodup : NoDup (c_claims s);
  ci_calls : Forall (fun i => (i < length calls)%nat) (c_claims s);
  ci_ok : forall i t, c_ts s !! i = Some t -> thread_ok s i t;
  ci_active : tracing_active (c_k s) = tracing_active k0 \/
    tracing_active (c_k s) = 0 /\ avail_entries k0 < lastentry (c_k s);
  ci_old : take (Z.to_nat (lastentry k0)) (entries (c_k s)) = take (Z.to_nat (lastentry k0)) (entries k0);
  ci_bit : test_bit 0 (tasklet_scheduled k0) = true -> test_bit 0 (tasklet_scheduled (c_k s)) = true;
  ci_over : test_bit 0 (tasklet_scheduled (c_k s)) = true ->
    test_bit 0 (tasklet_scheduled k0) = true \/ avail_entries k0 < lastentry (c_k s);
  ci_eff : c_eff s = replicate (length (c_eff s)) (SmpCall 0);
  ci_wake : (length (c_eff s) + sum_list (calling <$> c_ts s))%nat =
    (if test_bit 0 (tasklet_scheduled (c_k s)) && negb (test_bit 0 (tasklet_scheduled k0)) then 1 else 0)%nat }.

Hypothesis Hlast0 : 0 <= lastentry k0.

Lemma claimed_app s i slot k ts cl e :
  claimed s i slot -> claimed (MkC k ts (c_claims s ++ cl) e) i slot.
Proof. intros [? H]. split; [done|]. simpl. by apply lookup_app_l_Some. Qed.

Lemma claimed_inj s i j slot : claimed s i slot -> claimed s j slot -> i = j.
Proof. intros [_ H1] [_ H2]. congruence. Qed.

Lemma claimed_elem s i slot : claimed s i slot -> i ∈ c_claims s.
Proof. intros [_ H]. by apply list_elem_of_lookup_2 in H. Qed.

(** A step of another call leaves a call's position as it is. *)
Lemma thread_frame s j t k ts cl e :
  (forall slot, claimed s j slot -> zget (entries k) slot = zget (entries (c_k s)) slot) ->
  (tracing_active (c_k s) = 0 -> tracing_active k = 0) ->
  (test_bit 0 (tasklet_scheduled (c_k s)) = true -> test_bit 0 (tasklet_scheduled k) = true) -> j ∉ cl ->
  thread_ok s j t -> thread_ok (MkC k ts (c_claims s ++ cl) e) j t.
Proof.
  intros He Ha Hb Hj. assert (j ∉ c_claims s -> j ∉ c_claims s ++ cl) as Hin by (rewrite elem_of_app; tauto).
  pose proof (claimed_app s j) as Hcl.
  destruct t as [| | | | |slot n|slot|slot v|[slot|]]; cbn [thread_ok]; try done.
  - intros (slot & ? & ?). exists slot. auto.
  - intros (? & slot & ? & ?). split; [auto|]. exists slot. auto.
  - intros (? & ? & slot & ? & ?). split; [auto|]. split; [auto|]. exists slot. auto.
  - intros (? & ? & ? & old & ?). split; [done|]. split; [auto|]. split; [done|]. exists old. simpl.
    by rewrite He.
  - intros (? & ? & ?). split; [auto|]. split; [done|]. simpl. by rewrite He.
  - intros (? & ? & ?). split; [auto|]. split; [done|]. simpl. by rewrite He.
  - intros (? & ? & ?). split; [auto|]. split; [done|]. simpl. by rewrite He.
  - intros (? & [?|(? & slot & ? & ?)]); (split; [auto|]); [left; auto|right].
    split; [auto|]. exists slot. auto.
Qed.

Lemma take_ext_zget (es es' : list sepentry) n :
  (forall slot, 0 <= slot < Z.of_nat n -> zget es slot = zget es' slot) -> take n es = take n es'.
Proof.
  intros H. apply list_eq. intros i. destruct (decide (i < n)%nat).
  - rewrite !lookup_take_lt by done. specialize (H (Z.of_nat i) ltac:(lia)). revert H. unfold zget.
    destruct (Z.leb_spec 0 (Z.of_nat i)); [|lia]. by rewrite Nat2Z.id.
  - by rewrite !lookup_take_ge by lia.
Qed.

(** What a step of call [i] has to respect for the invariant to be kept. *)
Lemma c_inv_update s i t k t' cl e :
  c_inv s -> c_ts s !! i = Some t ->
  avail_entries k = avail_entries (c_k s) -> length (entries k) = length (entries (c_k s)) ->
  lastentry k = lastentry (c_k s) + Z.of_nat (length cl) ->
  (cl = [] \/ cl = [i] /\ i ∉ c_claims s) ->
  (tracing_active k = tracing_active (c_k s) \/ tracing_active k = 0 /\ avail_entries k0 < lastentry k) ->
  (forall slot, ~ claimed s i slot -> zget (entries k) slot = zget (entries (c_k s)) slot) ->
  (test_bit 0 (tasklet_scheduled (c_k s)) = true -> test_bit 0 (tasklet_scheduled k) = true) ->
  (test_bit 0 (tasklet_scheduled k) = true ->
     test_bit 0 (tasklet_scheduled (c_k s)) = true \/ avail_entries k0 < lastentry k) ->
  (e = [] \/ e = [SmpCall 0]) ->
  thread_ok (MkC k (<[i := t']> (c_ts s)) (c_claims s ++ cl) (c_eff s ++ e)) i t' ->
  (length e + calling t' + (if test_bit 0 (tasklet_scheduled (c_k s)) && negb (test_bit 0 (tasklet_scheduled k0)) then 1 else 0) =
   calling t + (if test_bit 0 (tasklet_scheduled k) && negb (test_bit 0 (tasklet_scheduled k0)) then 1 else 0))%nat ->
  c_inv (MkC k (<[i := t']> (c_ts s)) (c_claims s ++ cl) (c_eff s ++ e)).
Proof.
  intros [] Ht Hav Hlen Hla Hcl Hact Hent Hbit Hover He Hok Hwk.
  assert (i < length (c_ts s))%nat as Hi by (by apply lookup_lt_Some in Ht).
  split; simpl.
  - by rewrite length_insert.
  - congruence.
  - congruence.
  - rewrite length_app. lia.
  - destruct Hcl as [->|[-> Hni]]; [by rewrite app_nil_r|]. apply NoDup_app.
    split; [done|]. split; [intros x Hx ->%list_elem_of_singleton; done|]. apply NoDup_singleton.
  - apply Forall_app. split; [done|]. destruct Hcl as [->|[-> _]]; [done|]. constructor; [lia|done].
  - intros j tj. destruct (decide (j = i)) as [->|Hne].
    { rewrite list_lookup_insert_eq by done. by intros [= <-]. }
    rewrite list_lookup_insert_ne by done. intros Hj. apply thread_frame; auto.
    + intros slot Hj'. apply Hent. intros Hi'. by apply (claimed_inj s i j slot) in Hi'.
    + destruct Hact as [->|[-> _]]; auto.
    + destruct Hcl as [->|[-> _]]; [apply not_elem_of_nil|]. by rewrite list_elem_of_singleton.
  - destruct Hact as [->|[? ?]]; [|auto]. destruct ci_active0 as [?|[? ?]]; [auto|right]. lia.
  - rewrite <- ci_old0. apply take_ext_zget. intros slot Hs. apply Hent. intros [? _]. lia.
  - auto.
  - intros Hb. destruct (Hover Hb) as [H1|H1]; [|by right]. destruct (ci_over0 H1); [by left|right; lia].
  - rewrite length_app, replicate_add, <- ci_eff0. f_equal. by destruct He as [->| ->].
  - rewrite length_app. pose proof (sum_list_fmap_insert calling _ _ _ t' Ht). lia.
Qed.

Hypothesis Hlen0 : avail_entries k0 = Z.of_nat (length (entries k0)).
Hypothesis Hroom : lastentry k0 + Z.of_nat (length calls) < 2 ^ 30.

Lemma claims_length s : c_inv s -> (length (c_claims s) <= length calls)%nat.
Proof.
  intros H. rewrite <- (length_seq (length calls) 0). apply submseteq_length, NoDup_submseteq; [apply H|].
  intros i Hi. apply elem_of_seq. pose proof (proj1 (Forall_forall _ _) (ci_calls s H) i Hi). simpl in *. lia.
Qed.

(** The claim of a call that has none: its index is the next one. *)
Lemma claim_value s i c :
  c_inv s -> calls !! i = Some c -> i ∉ c_claims s ->
  s32 (lastentry (c_k s) + 1) = lastentry (c_k s) + 1 /\ u32 (lastentry (c_k s) + 1) = lastentry (c_k s) + 1.
Proof.
  intros H Hc Hni. pose proof (claims_length s H). rewrite (ci_last s H).
  split; [apply s32_id|apply u32_id]; lia.
Qed.

Lemma claimed_last s i k ts e :
  c_inv s -> claimed (MkC k ts (c_claims s ++ [i]) e) i (lastentry (c_k s)).
Proof.
  intros H. rewrite (ci_last s H). split; [lia|]. simpl.
  replace (Z.to_nat _) with (length (c_claims s)) by lia. by apply list_lookup_middle.
Qed.

Ltac c_update := eapply c_inv_update;
  [eassumption|eassumption|try reflexivity|try reflexivity|simpl; try lia|try (by left)|try (by left)
  |try (intros; reflexivity)|try (intros H; exact H)|try (intros H; by left)|try (by left)|cbn [thread_ok]; rewrite ?app_nil_r|simpl; try lia].

Lemma c_step_inv s s' i : c_inv s -> c_step i s = Some s' -> c_inv s'.
Proof.
  intros Hs. unfold c_step. destruct (calls !! i) as [c|] eqn:Hc; [|done]. cbn [mbind option_bind].
  destruct (c_ts s !! i) as [t|] eqn:Ht; [|done]. cbn [mbind option_bind].
  pose proof (ci_ok s Hs i t Ht) as Hok.
  destruct t as [| | | | |slot j|slot|slot v|o]; cbn [t_step thread_ok] in *.
  - destruct (_ && _) eqn:E; cbn [mbind option_bind]; intros [= <-]; c_update.
    + apply andb_true_iff in E as [E%Z.eqb_eq _]. auto.
    + done.
  - destruct (claim_value s i c Hs Hc Hok) as [-> ->]. cbn [avail_entries set_lastentry].
    pose proof (ci_avail s Hs) as Hav.
    destruct (Z.ltb_spec (avail_entries (c_k s)) (lastentry (c_k s) + 1)); cbn [mbind option_bind];
      intros [= <-]; c_update; auto.
    + exists (lastentry (c_k s)). split; [by apply claimed_last|lia].
    + split; [lia|]. replace (lastentry (c_k s) + 1 - 1) with (lastentry (c_k s)) by lia.
      split; [by apply claimed_last|]. split; [lia|].
      destruct (zget_is_Some (entries (c_k s)) (lastentry (c_k s))) as [old Hold].
      { rewrite (ci_len s Hs). rewrite (ci_last s Hs) in *. lia. }
      exists old. exact Hold.
  - destruct Hok as (slot & [Hcl Hlk] & Hle). cbn [mbind option_bind]. intros [= <-].
    apply lookup_lt_Some in Hlk as Hlt. c_update.
    + right. split; [done|]. simpl. rewrite (ci_last s Hs). lia.
    + split; [done|]. by exists slot.
  - destruct Hok as (Ha & slot & Hcl & Hle).
    destruct (test_bit 0 (tasklet_scheduled (c_k s))) eqn:Hb; cbn [mbind option_bind]; intros [= <-]; c_update.
    + split; [done|]. right. split; [done|]. by exists slot.
    + intros _. simpl. by rewrite test_set_bit.
    + intros _. right. simpl. destruct Hcl as [? Hlk]. apply lookup_lt_Some in Hlk. rewrite (ci_last s Hs). lia.
    + split; [done|]. split; [simpl; by rewrite test_set_bit|]. by exists slot.
    + rewrite Hb, test_set_bit by lia. simpl.
      destruct (test_bit 0 (tasklet_scheduled k0)) eqn:Hb0; simpl; [|done].
      by rewrite (ci_bit s Hs Hb0) in Hb.
  - destruct Hok as (Ha & Hb & slot & Hcl & Hle). cbn [mbind option_bind]. intros [= <-]. c_update.
    + by right.
    + split; [done|]. right. split; [done|]. by exists slot.
  - destruct Hok as (Hj & Hcl & Hlt & old & Hold). rewrite Hold. cbn [mbind option_bind].
    destruct (zset _ _ _) as [es|] eqn:Hes; [|done]. cbn [mbind option_bind]. intros [= <-].
    assert (write_field j (make_entry c.1 c.2) (written j (entry_of i) old) = written (S j) (entry_of i) old) as Hw.
    { rewrite <- written_S. unfold entry_of. by rewrite Hc. }
    rewrite Hw in Hes. apply zget_zset_eq in Hes as Hget.
    c_update.
    + by apply zset_length in Hes.
    + intros slot' Hn. simpl. eapply zget_zset_ne; [done|]. by intros ->.
    + destruct (Nat.ltb_spec j 8); cbn [thread_ok].
      * split; [lia|]. split; [done|]. split; [done|]. by exists old.
      * split; [done|]. split; [done|]. simpl. rewrite Hget. f_equal.
        replace j with 8%nat by lia. apply written_all.
    + by destruct (Nat.ltb_spec j 8); simpl.
  - cbn [mbind option_bind]. intros [= <-]. c_update. done.
  - cbn [mbind option_bind]. intros [= <-]. c_update. done.
  - done.
Qed.

Lemma c_init_inv : c_inv (c_init k0).
Proof.
  split; simpl; auto.
  - apply length_replicate.
  - lia.
  - constructor.
  - intros i t [-> _]%lookup_replicate. apply not_elem_of_nil.
  - rewrite andb_negb_r. clear. induction calls; simpl; auto.
Qed.

Lemma c_reach_inv s : rtc c_steps (c_init k0) s -> c_inv s.
Proof.
  revert s. apply rtc_ind_r; [apply c_init_inv|]. intros s s' _ [i E] Hs. by eapply c_step_inv.
Qed.

(** No access of a running call leaves the buffer. *)
Lemma c_step_progress s i t :
  c_inv s -> c_ts s !! i = Some t -> is_done t = false -> is_Some (c_step i s).
Proof.
  intros Hs Ht Hd. unfold c_step.
  assert (is_Some (calls !! i)) as [c ->].
  { apply lookup_lt_is_Some. rewrite <- (ci_threads s Hs). by apply lookup_lt_Some in Ht. }
  rewrite Ht. cbn [mbind option_bind]. pose proof (ci_ok s Hs i t Ht) as Hok.
  destruct t as [| | | | |slot j|slot|slot v|o]; cbn [t_step thread_ok] in *; try done.
  - case_match; cbn [mbind option_bind]; eauto.
  - case_match; cbn [mbind option_bind]; eauto.
  - case_match; cbn [mbind option_bind]; eauto.
  - destruct Hok as (_ & _ & _ & old & Hold). rewrite Hold. cbn [mbind option_bind].
    apply zget_Some in Hold. rewrite zset_is_Some by done. cbn [mbind option_bind]. eauto.
Qed.

(** What is left of the log when every call has returned. *)
Section finished.
Context (s : cstate) (Hs : c_inv s).
Hypothesis Hdone : Forall (fun t => is_done t = true) (c_ts s).

Lemma done_slot i slot :
  claimed s i slot -> slot < avail_entries k0 -> zget (entries (c_k s)) slot = Some (entry_of i).
Proof.
  intros Hcl Hlt. assert (i < length (c_ts s))%nat as [t Ht]%lookup_lt_is_Some.
  { rewrite (ci_threads s Hs). apply (proj1 (Forall_forall _ _) (ci_calls s Hs)). by eapply claimed_elem. }
  pose proof (ci_ok s Hs i t Ht) as Hok. pose proof (Forall_lookup_1 _ _ _ _ Hdone Ht).
  destruct t as [| | | | |?|?|?|[slot'|]]; try done; cbn [thread_ok] in Hok.
  - destruct Hok as (Hcl' & _ & He). assert (slot' = slot) as ->; [|done].
    destruct Hcl as [? H1], Hcl' as [? H2]. pose proof (NoDup_lookup _ _ _ _ (ci_nodup s Hs) H1 H2). lia.
  - destruct Hok as (_ & [Hn|(_ & slot' & Hcl' & Hle)]).
    + by apply claimed_elem in Hcl.
    + destruct Hcl as [? H1], Hcl' as [? H2]. pose proof (NoDup_lookup _ _ _ _ (ci_nodup s Hs) H1 H2). lia.
Qed.

Lemma done_entries :
  take (Z.to_nat (lastentry (c_k s))) (entries (c_k s)) =
  take (Z.to_nat (avail_entries k0))
    (take (Z.to_nat (lastentry k0)) (entries k0) ++ (entry_of <$> c_claims s)).
Proof.
  pose proof (ci_len s Hs) as Hlen. pose proof (ci_last s Hs) as Hlast.
  apply list_eq. intros n. destruct (decide (n < Z.to_nat (avail_entries k0))%nat) as [Hn|Hn].
  2:{ rewrite (lookup_take_ge _ (Z.to_nat (avail_entries k0))) by lia. apply lookup_ge_None.
      rewrite length_take. lia. }
  rewrite (lookup_take_lt (_ ++ _)) by done.
  destruct (decide (n < Z.to_nat (lastentry k0))%nat) as [Hn0|Hn0].
  { rewrite lookup_app_l by (rewrite length_take; lia). rewrite <- (ci_old s Hs).
    by rewrite !lookup_take_lt by lia. }
  rewrite lookup_app_r by (rewrite length_take; lia). rewrite length_take, list_lookup_fmap.
  replace (n - Z.to_nat (lastentry k0) `min` length (entries k0))%nat with (n - Z.to_nat (lastentry k0))%nat by lia.
  destruct (c_claims s !! (n - Z.to_nat (lastentry k0))%nat) as [i|] eqn:Hi; simpl.
  - apply lookup_lt_Some in Hi as Hlt. rewrite lookup_take_lt by lia.
    assert (zget (entries (c_k s)) (Z.of_nat n) = Some (entry_of i)) as Hz.
    { apply done_slot; [|lia]. split; [lia|]. by replace (Z.to_nat _) with (n - Z.to_nat (lastentry k0))%nat by lia. }
    unfold zget in Hz. destruct (Z.leb_spec 0 (Z.of_nat n)); [|lia]. by rewrite Nat2Z.id in Hz.
  - apply lookup_ge_None in Hi. rewrite lookup_take_ge by lia. done.
Qed.

(** An index claimed behind the end of the buffer has switched tracing off and
    requested the wake-up. *)
Lemma done_overflow :
  lastentry k0 <= avail_entries k0 -> avail_entries k0 < lastentry (c_k s) ->
  tracing_active (c_k s) = 0 /\ test_bit 0 (tasklet_scheduled (c_k s)) = true.
Proof.
  intros H0 Hov. rewrite (ci_last s Hs) in Hov.
  assert (Z.to_nat (avail_entries k0 - lastentry k0) < length (c_claims s))%nat as [i Hi]%lookup_lt_is_Some by lia.
  assert (claimed s i (avail_entries k0)) as Hcl by (split; [done|exact Hi]).
  assert (i < length (c_ts s))%nat as [t Ht]%lookup_lt_is_Some.
  { rewrite (ci_threads s Hs). apply (proj1 (Forall_forall _ _) (ci_calls s Hs)). by eapply claimed_elem. }
  pose proof (ci_ok s Hs i t Ht) as Hok. pose proof (Forall_lookup_1 _ _ _ _ Hdone Ht).
  destruct t as [| | | | |?|?|?|[slot'|]]; try done; cbn [thread_ok] in Hok.
  - destruct Hok as ([? H2] & Hlt & _). pose proof (NoDup_lookup _ _ _ _ (ci_nodup s Hs) Hi H2). lia.
  - destruct Hok as (Ha & [Hn|(Hb & _)]); [by apply claimed_elem in Hcl|done].
Qed.
End finished.
End invariant.

(** At most 13 accesses of a call are left. *)
Definition remaining (t : tstate) : nat :=
  match t with
  | TCheck => 13 | TClaim => 12 | TOff => 3 | TBit => 2 | TCall => 1
  | TWrite _ j => 3 + (8 - j) | TLoad _ => 2 | TStore _ _ => 1 | TDone _ => 0
  end.

Lemma t_step_remaining i c t k k' t' cl e :
  t_step i c t k = Some (k', t', cl, e) -> (remaining t' < remaining t)%nat.
Proof.
  destruct t as [| | | | |slot j|slot|slot v|o]; cbn [t_step]; try done.
  - case_match; intros; simplify_eq; simpl; lia.
  - case_match; intros; simplify_eq; simpl; lia.
  - intros; simplify_eq; simpl; lia.
  - case_match; intros; simplify_eq; simpl; lia.
  - intros; simplify_eq; simpl; lia.
  - destruct (zget _ _); [|done]. cbn [mbind option_bind]. destruct (zset _ _ _); [|done]. simpl.
    destruct (Nat.ltb_spec j 8); intros; simplify_eq; simpl; lia.
  - intros; simplify_eq; simpl; lia.
  - intros; simplify_eq; simpl; lia.
Qed.

Lemma c_run_remaining l s s' :
  c_run l s = Some s' ->
  (length l + sum_list (remaining <$> c_ts s') <= sum_list (remaining <$> c_ts s))%nat.
Proof.
  revert s. induction l as [|i l IH]; intros s; cbn [c_run]; [intros [= ->]; simpl; lia|].
  unfold c_step. destruct (calls !! i) as [c|]; [|done]. cbn [mbind option_bind].
  destruct (c_ts s !! i) as [t|] eqn:Ht; [|done]. cbn [mbind option_bind].
  destruct (t_step i c t (c_k s)) as [[[[k t'] cl] e]|] eqn:E; [|done]. cbn [mbind option_bind].
  intros H%IH. cbn [c_ts] in H. apply t_step_remaining in E.
  pose proof (sum_list_fmap_insert remaining (c_ts s) i t t' Ht). cbn [length]. lia.
Qed.
End concurrent.

Definition all_done (s : cstate) : Prop := Forall (fun t => is_done t = true) (c_ts s).

Lemma tracer_ok_start k (n : nat) :
  tracer_ok k -> tracing_active k <> 0 -> Z.of_nat n < 2 ^ 29 ->
  0 <= lastentry k /\ avail_entries k = Z.of_nat (length (entries k)) /\ avail_entries k < 2 ^ 27 /\
  lastentry k + Z.of_nat n < 2 ^ 30 /\ lastentry k <= avail_entries k.
Proof. intros [? ? ? Hact ?] Ha Hn. specialize (Hact Ha). lia. Qed.


(** A running call can always take its next step: no access leaves the
    trace buffer, and no call waits for another one. *)
Theorem trace_entry_never_stuck (calls : list (cpu_env * te_args)) (k : tracer) (s : cstate)
    (i : nat) (t : tstate) :
  tracer_ok k -> tracing_active k <> 0 -> Z.of_nat (length calls) < 2 ^ 29 ->
  rtc (c_steps calls) (c_init calls k) s -> c_ts s !! i = Some t -> is_done t = false ->
  is_Some (c_step calls i s).
Proof.
  intros Hk Ha Hn Hr Ht Hd. destruct (tracer_ok_start k _ Hk Ha Hn) as (H0 & Hl & Hav & Hroom & Hle).
  eapply c_step_progress; eauto using c_reach_inv.
Qed.

(** Every schedule of the calls ends: it makes at most 13 accesses a call. *)
Theorem trace_entry_bounded (calls : list (cpu_env * te_args)) (k : tracer) (schedule : list nat) (s : cstate) :
  c_run calls schedule (c_init calls k) = Some s -> (length schedule <= 13 * length calls)%nat.
Proof.
  intros H%c_run_remaining. cbn [c_init c_ts] in H.
  assert (sum_list (remaining <$> replicate (length calls) TCheck) = 13 * length calls)%nat as E.
  { clear. induction calls as [|c l IH]; [done|]. cbn [length replicate]. rewrite fmap_cons.
    cbn [sum_list sum_list_with id remaining]. lia. }
  lia.
Qed.

(** C40: in every interleaving of calls of [trace_entry] on an active tracer
    (fewer than 2^29 calls, all of which have returned, and no request of the
    reader in between), the reader is asked for exactly once if the calls have
    claimed more entries than the buffer has and no wake-up was pending at the
    start, whichever and however many of the calls find the buffer full; and
    not at all otherwise. *)
Theorem trace_entry_wakes_once (calls : list (cpu_env * te_args)) (k : tracer) (s : cstate) :
  tracer_ok k -> tracing_active k <> 0 -> Z.of_nat (length calls) < 2 ^ 29 ->
  rtc (c_steps calls) (c_init calls k) s -> all_done s ->
  c_eff s = (if (avail_entries k <? lastentry (c_k s)) && negb (test_bit 0 (tasklet_scheduled k))
             then [SmpCall 0] else []).
Proof.
  intros Hk Ha Hn Hr Hd. destruct (tracer_ok_start k _ Hk Ha Hn) as (H0 & Hl & Hav & Hroom & Hle).
  pose proof (c_reach_inv calls k H0 Hl Hroom s Hr) as Hs.
  rewrite (ci_eff _ _ _ Hs). pose proof (ci_wake _ _ _ Hs) as Hw.
  assert (sum_list (calling <$> c_ts s) = 0)%nat as Hz.
  { clear -Hd. unfold all_done in Hd. induction Hd as [|t ts Ht _ IH]; [done|]. simpl. destruct t; try done. }
  rewrite Hz, Nat.add_0_r in Hw. rewrite Hw.
  destruct (test_bit 0 (tasklet_scheduled k)) eqn:Hb0; simpl; [by rewrite !andb_false_r|]. rewrite !andb_true_r.
  destruct (Z.ltb_spec (avail_entries k) (lastentry (c_k s))) as [Hov|Hov].
  - by destruct (done_overflow calls k s Hs Hd Hle Hov) as [_ ->].
  - destruct (test_bit 0 (tasklet_scheduled (c_k s))) eqn:Hb; [|done].
    destruct (ci_over _ _ _ Hs Hb); [congruence|lia].
Qed.

(** ** A call that is not interleaved *)

Fixpoint t_run (n : nat) (i : nat) (c : cpu_env * te_args) (r : tracer * tstate * list nat * list effect)
    : option (tracer * tstate * list nat * list effect) :=
  match n with
  | O => Some r
  | S n' =>
      let '(k, t, cl, e) := r in
      '(k', t', cl', e') ← t_step i c t k;
      t_run n' i c (k', t', cl ++ cl', e ++ e')
  end.

Lemma c_run_t_run calls n i c ts k t cl e k' t' cl' e' :
  calls !! i = Some c -> (i < length ts)%nat ->
  t_run n i c (k, t, cl, e) = Some (k', t', cl', e') ->
  c_run calls (replicate n i) (MkC k (<[i := t]> ts) cl e) = Some (MkC k' (<[i := t']> ts) cl' e').
Proof.
  intros Hc Hi. revert k t cl e. induction n as [|n IH]; intros k t cl e; cbn [t_run replicate c_run].
  { by intros [= -> -> -> ->]. }
  destruct (t_step i c t k) as [[[[k1 t1] cl1] e1]|] eqn:E; [|done]. cbn [mbind option_bind].
  intros H. unfold c_step. rewrite Hc. cbn [mbind option_bind c_ts c_k c_claims c_eff].
  rewrite list_lookup_insert_eq by done. cbn [mbind option_bind]. rewrite E. cbn [mbind option_bind].
  rewrite list_insert_insert_eq. by apply IH.
Qed.

(** Storing all nine fields. *)
Lemma t_run_writes n i c k slot e cl ef :
  zget (entries k) slot = Some e ->
  t_run (9 + n) i c (k, TWrite slot 0, cl, ef) =
    t_run n i c (set_entries (<[Z.to_nat slot := make_entry c.1 c.2]> (entries k)) k, TLoad slot, cl, ef).
Proof.
  intros He. pose proof (zget_Some _ _ _ He) as Hlt.
  assert (forall j k1 e1, (j < 9)%nat -> entries k1 = <[Z.to_nat slot := e1]> (entries k) ->
    t_step i c (TWrite slot j) k1 =
      Some (set_entries (<[Z.to_nat slot := write_field j (make_entry c.1 c.2) e1]> (entries k)) k1,
            if (j <? 8)%nat then TWrite slot (S j) else TLoad slot, [], [])) as Hstep.
  { intros j k1 e1 Hj Hk. cbn [t_step]. rewrite Hk. unfold zget. destruct (Z.leb_spec 0 slot); [|lia].
    rewrite list_lookup_insert_eq by lia. cbn [mbind option_bind].
    rewrite zset_is_Some by (rewrite length_insert; lia). cbn [mbind option_bind].
    by rewrite list_insert_insert_eq. }
  assert (entries k = <[Z.to_nat slot := e]> (entries k)) as H0.
  { symmetry. apply list_insert_id. unfold zget in He. by destruct (Z.leb_spec 0 slot); [|lia]. }
  cbn [t_run Nat.add]. rewrite (Hstep 0%nat k e) by (done || lia). cbn [mbind option_bind Nat.ltb Nat.leb].
  do 8 (rewrite app_nil_r, app_nil_r; erewrite Hstep; [|lia|reflexivity]; cbn [mbind option_bind Nat.ltb Nat.leb]).
  rewrite !app_nil_r. f_equal. f_equal. f_equal. f_equal. destruct e. done.
Qed.

Ltac t_go := cbn [t_run t_step snd mbind option_bind avail_entries set_lastentry tasklet_scheduled
  set_tracing_active].

(** A call whose accesses are not interleaved with others is [trace_entry]:
    the same state, the same effects. *)
Theorem trace_entry_uninterrupted (calls : list (cpu_env * te_args)) (i : nat) (env : cpu_env) (a : te_args)
    (s : cstate) (k' : tracer) (e : list effect) :
  calls !! i = Some (env, a) -> c_ts s !! i = Some TCheck ->
  trace_entry env a (c_k s) = Some (k', e) ->
  exists n t cl, c_run calls (replicate n i) s =
      Some (MkC k' (<[i := t]> (c_ts s)) (c_claims s ++ cl) (c_eff s ++ e)) /\ is_done t = true.
Proof.
  intros Hc Ht E. destruct s as [k ts cl0 e0]. cbn [c_ts c_k c_claims c_eff] in *.
  assert (exists n t cl, t_run n i (env, a) (k, TCheck, cl0, e0) = Some (k', t, cl0 ++ cl, e0 ++ e) /\
    is_done t = true) as (n & t & cl & Hrun & Hd).
  2:{ exists n, t, cl. split; [|done].
      replace ts with (<[i := TCheck]> ts) at 1 by (by apply list_insert_id).
      eapply c_run_t_run; eauto. by apply lookup_lt_Some in Ht. }
  revert E. unfold trace_entry. destruct (_ && _) eqn:Hchk.
  { intros [= <- <-]. exists 1%nat, (TDone None), []. cbn [t_run t_step snd]. rewrite Hchk. auto. }
  cbv zeta. cbn [avail_entries set_lastentry]. destruct (avail_entries k <? _) eqn:Hfull.
  - cbn [tasklet_scheduled set_tracing_active set_lastentry]. destruct (test_bit 0 (tasklet_scheduled k)) eqn:Hb.
    + intros [= <- <-]. exists 4%nat, (TDone None), [i]. t_go. rewrite Hchk. t_go.
      rewrite Hfull. t_go. rewrite Hb. t_go. by rewrite !app_nil_r.
    + intros [= <- <-]. exists 5%nat, (TDone None), [i]. t_go. rewrite Hchk. t_go.
      rewrite Hfull. t_go. rewrite Hb. t_go. by rewrite !app_nil_r.
  - destruct (zset _ _ _) as [es|] eqn:Hes; [|done]. cbn [mbind option_bind]. intros [= <- <-].
    apply zset_Some_inv in Hes as [Hlt ->]. destruct (zget_is_Some _ _ Hlt) as [old Hold].
    exists 13%nat, (TDone (Some (s32 (lastentry k + 1) - 1))), [i].
    change 13%nat with (S (S (9 + 2))). cbn [t_run t_step snd]. rewrite Hchk.
    cbn [mbind option_bind t_step avail_entries set_lastentry]. rewrite Hfull. cbn [mbind option_bind].
    rewrite (t_run_writes 2 i (env, a) _ _ old) by exact Hold. t_go. by rewrite !app_nil_r.
Qed.

(** ** A run of three calls in a buffer of two *)

Lemma c_run_rtc calls l s s' : c_run calls l s = Some s' -> rtc (c_steps calls) s s'.
Proof.
  revert s. induction l as [|i l IH]; intros s; cbn [c_run]; [by intros [= ->]|].
  destruct (c_step calls i s) eqn:E; [|done]. cbn [mbind option_bind]. intros H%IH.
  eapply rtc_l; [by exists i|done].
Qed.

Definition active2 : tracer := set_tracing_active 1 (sample_tracer 2).
Definition sample_calls : list (cpu_env * te_args) := (fun i => (sample_env i, sample_call)) <$> [0; 1; 2]%nat.
Definition sample_schedule : list nat :=
  concat (replicate 5 [2; 1; 0]%nat) ++ concat (replicate 8 [2; 1]%nat).
Definition sample_end : cstate :=
  default (c_init sample_calls active2) (c_run sample_calls sample_schedule (c_init sample_calls active2)).

Lemma active2_ok : tracer_ok active2.
Proof. split; rewrite ?length_id_calls; vm_compute; (done || split; congruence). Qed.

Lemma sample_end_reached : rtc (c_steps sample_calls) (c_init sample_calls active2) sample_end.
Proof. apply (c_run_rtc _ sample_schedule). vm_compute. reflexivity. Qed.

Lemma sample_end_done : all_done sample_end.
Proof. vm_compute. repeat constructor. Qed.


Lemma trace_entry_never_stuck_witness : is_Some (c_step sample_calls 1 (c_init sample_calls active2)).
Proof.
  apply (trace_entry_never_stuck sample_calls active2 (c_init sample_calls active2) 1 TCheck);
    [exact active2_ok|done|done|apply rtc_refl|reflexivity|reflexivity].
Defined.

Lemma trace_entry_bounded_witness : (length sample_schedule <= 13 * length sample_calls)%nat.
Proof. apply (trace_entry_bounded sample_calls active2 sample_schedule sample_end). vm_compute. reflexivity. Defined.

Lemma trace_entry_wakes_once_witness : c_eff sample_end = [SmpCall 0].
Proof.
  apply (trace_entry_wakes_once sample_calls active2 sample_end);
    [exact active2_ok|done|done|exact sample_end_reached|exact sample_end_done].
Defined.

Lemma trace_entry_uninterrupted_witness :
  exists n t cl, c_run sample_calls (replicate n 1%nat) (c_init sample_calls active2) =
      Some (MkC (set_entrycnt 1 (set_entries [make_entry (sample_env 1) sample_call; zero_entry]
                   (set_lastentry 1 active2)))
              (<[1%nat := t]> (c_ts (c_init sample_calls active2))) ([] ++ cl) ([] ++ [])) /\ is_done t = true.
Proof.
  apply (trace_entry_uninterrupted sample_calls 1 (sample_env 1) sample_call (c_init sample_calls active2));
    reflexivity.
Defined.

(** The reader does not wait for calls that have claimed an entry and not
    yet written it. Here a call has claimed the only entry of the buffer when a
    second one finds the buffer full and the reader is asked for: the entry
    sent to it is whatever the buffer held before. *)
Theorem unwritten_entry_sent (old : sepentry) :
  let k := MkTracer 0 0 0 1 0 1 77 [old] 0 0 0 in
  exists s, c_run sample_calls [0; 0; 1; 1; 1; 1; 1]%nat (c_init sample_calls k) = Some s /\
    c_eff s = [SmpCall 0] /\ c_ts s !! 0%nat = Some (TWrite 0 0) /\
    exists k', nl_rcv_func true sample_env 77 REQUEST_ENTRY (c_k s) =
      Some (k', [NlUnicast 77 (sepentry_bytes old)]).
Proof.
  intros k. exists (MkC (MkTracer 2 1 0 0 0 1 77 [old] 0 0 0) [TWrite 0 0; TDone None; TCheck] [0; 1]%nat [SmpCall 0]).
  split; [reflexivity|]. split; [reflexivity|]. split; [reflexivity|].
  exists (MkTracer 2 1 0 0 1 1 77 [old] 0 0 1). reflexivity.
Qed.
