(* ===== verification/Tracepoint.v ===== *)
(** * The tracepoint registry

    [kernel/tracepoint.c]: the hash table of armed tracepoints, the arrays of
    probes, and the update of the tracepoints of the kernel and of modules;
    [jhash] of [include/linux/jhash.h], and the call site [__DO_TRACE] of
    [include/linux/tracepoint.h].

    A tracepoint holds a pointer to an array of probes that the registry
    replaces and frees after an RCU grace period. The arrays therefore live in
    a heap: [tp_heap] maps their addresses to their cells, and [tp_released]
    has the arrays handed to [call_rcu_sched]. Whether [kmalloc] succeeds is an
    argument. The mutexes and the debug output are left out: the operations of
    this file run one after the other. *)

From S2P Require Import Prelude.
From stdpp Require Import prelude gmap list.
From Stdlib Require Import ZArith Lia.

Open Scope Z_scope.
Open Scope list_scope.

(** ** [jhash] *)
Module Jhash.

Definition JHASH_INITVAL : Z := 3735928559.

Definition rol32 (word shift : Z) : Z := u32 (Z.lor (Z.shiftl word shift) (Z.shiftr word (32 - shift))).

Definition __jhash_mix (s : Z * Z * Z) : Z * Z * Z :=
  let '(a, b, c) := s in
  let a := u32 (a - c) in let a := Z.lxor a (rol32 c 4) in let c := u32 (c + b) in
  let b := u32 (b - a) in let b := Z.lxor b (rol32 a 6) in let a := u32 (a + c) in
  let c := u32 (c - b) in let c := Z.lxor c (rol32 b 8) in let b := u32 (b + a) in
  let a := u32 (a - c) in let a := Z.lxor a (rol32 c 16) in let c := u32 (c + b) in
  let b := u32 (b - a) in let b := Z.lxor b (rol32 a 19) in let a := u32 (a + c) in
  let c := u32 (c - b) in let c := Z.lxor c (rol32 b 4) in let b := u32 (b + a) in
  (a, b, c).

Definition __jhash_final (s : Z * Z * Z) : Z * Z * Z :=
  let '(a, b, c) := s in
  let c := Z.lxor c b in let c := u32 (c - rol32 b 14) in
  let a := Z.lxor a c in let a := u32 (a - rol32 c 11) in
  let b := Z.lxor b a in let b := u32 (b - rol32 a 25) in
  let c := Z.lxor c b in let c := u32 (c - rol32 b 16) in
  let a := Z.lxor a c in let a := u32 (a - rol32 c 4) in
  let b := Z.lxor b a in let b := u32 (b - rol32 a 14) in
  let c := Z.lxor c b in let c := u32 (c - rol32 b 24) in
  (a, b, c).

(** [x += (u32)k[i] << sh], executed when the remaining length is above [i]. *)
Definition add_byte (k : list Z) (i : nat) (sh x : Z) : Z :=
  match k !! i with Some b => u32 (x + Z.shiftl b sh) | None => x end.

(** The [switch] on the remaining length, with its fall-throughs. *)
Definition jhash_tail (k : list Z) (s : Z * Z * Z) : Z :=
  let '(a, b, c) := s in
  match k with
  | [] => c
  | _ =>
      let c := add_byte k 8 0 (add_byte k 9 8 (add_byte k 10 16 (add_byte k 11 24 c))) in
      let b := add_byte k 4 0 (add_byte k 5 8 (add_byte k 6 16 (add_byte k 7 24 b))) in
      let a := add_byte k 0 0 (add_byte k 1 8 (add_byte k 2 16 (add_byte k 3 24 a))) in
      (__jhash_final (a, b, c)).2
  end.

(** The loop runs at most once for every 12 bytes: the length is enough fuel. *)
Fixpoint jhash_loop (fuel : nat) (k : list Z) (s : Z * Z * Z) : Z :=
  match fuel with
  | O => jhash_tail k s
  | S fuel' =>
      if (12 <? length k)%nat then
        let '(a, b, c) := s in
        let a := u32 (a + le_val (take 4 k)) in
        let b := u32 (b + le_val (take 4 (drop 4 k))) in
        let c := u32 (c + le_val (take 4 (drop 8 k))) in
        jhash_loop fuel' (drop 12 k) (__jhash_mix (a, b, c))
      else jhash_tail k s
  end.

Definition jhash (key : list Z) (initval : Z) : Z :=
  let v := u32 (JHASH_INITVAL + Z.of_nat (length key) + initval) in
  jhash_loop (length key) key (v, v, v).
End Jhash.

(** ** State *)

(** [struct tracepoint_func]: the probe and its data. *)
Definition tracepoint_func : Type := Z * Z.

(** [struct tracepoint_entry]; [en_funcs] is the address of its array. *)
Record tracepoint_entry := MkEn {
  en_name : list Z; en_funcs : option positive; en_refcount : Z }.

(** [struct tracepoint]; [el_regfunc] and [el_unregfunc] say whether the hooks
    are set. *)
Record tracepoint := MkEl {
  el_name : list Z; el_key : Z; el_regfunc : bool; el_unregfunc : bool; el_funcs : option positive }.

(** A module, as far as [module_update_tracepoints] looks at it. *)
Record module := MkMod { mod_taints : bool; mod_tracepoints : list tracepoint }.

(** Calls of the hooks of a tracepoint. *)
Inductive hook := Regfunc (name : list Z) | Unregfunc (name : list Z).

Record tracepoints := MkTps {
  tp_table : list (list tracepoint_entry);
  tp_heap : gmap positive (list tracepoint_func);
  tp_next : positive;
  tp_core : list tracepoint;
  tp_modules : list module;
  tp_released : list positive;
  tp_old_probes : list positive;
  tp_need_update : Z;
  tp_hooks : list hook }.

Definition set_table v s := MkTps v (tp_heap s) (tp_next s) (tp_core s) (tp_modules s) (tp_released s)
  (tp_old_probes s) (tp_need_update s) (tp_hooks s).
Definition set_core v h s := MkTps (tp_table s) (tp_heap s) (tp_next s) v (tp_modules s) (tp_released s)
  (tp_old_probes s) (tp_need_update s) (tp_hooks s ++ h).
Definition set_modules v h s := MkTps (tp_table s) (tp_heap s) (tp_next s) (tp_core s) v (tp_released s)
  (tp_old_probes s) (tp_need_update s) (tp_hooks s ++ h).
Definition set_released v s := MkTps (tp_table s) (tp_heap s) (tp_next s) (tp_core s) (tp_modules s) v
  (tp_old_probes s) (tp_need_update s) (tp_hooks s).
Definition set_old_probes v n s := MkTps (tp_table s) (tp_heap s) (tp_next s) (tp_core s) (tp_modules s)
  (tp_released s) v n (tp_hooks s).

(** ** Probe arrays *)

(** The cells of an array before the one whose [func] is NULL. *)
Fixpoint live (l : list tracepoint_func) : list tracepoint_func :=
  match l with
  | [] => []
  | p :: l' => if p.1 =? 0 then [] else p :: live l'
  end.

Definition array (s : tracepoints) (p : positive) : list tracepoint_func := default [] (tp_heap s !! p).

(** [allocate_probes] and the stores that fill the new array. *)
Definition allocate_probes (cells : list tracepoint_func) (s : tracepoints) : positive * tracepoints :=
  (tp_next s, MkTps (tp_table s) (<[tp_next s := cells]> (tp_heap s)) (Pos.succ (tp_next s)) (tp_core s)
     (tp_modules s) (tp_released s) (tp_old_probes s) (tp_need_update s) (tp_hooks s)).

Definition same_probe (probe data : Z) (p : tracepoint_func) : bool := (p.1 =? probe) && (p.2 =? data).

(** What the two functions on an entry return: an [ERR_PTR] or the old array. *)
Definition ptr : Type := Z + option positive.
Definition is_err (r : ptr) : bool := match r with inl _ => true | inr _ => false end.

Definition tracepoint_entry_add_probe (am : bool) (e : tracepoint_entry) (probe data : Z) (s : tracepoints)
    : ptr * tracepoint_entry * tracepoints :=
  let old := match en_funcs e with Some p => live (array s p) | None => [] end in
  if existsb (same_probe probe data) old then (inl (- EEXIST), e, s)
  else if negb am then (inl (- ENOMEM), e, s)
  else
    let '(p, s) := allocate_probes (old ++ [(probe, data); (0, 0)]) s in
    (inr (en_funcs e), MkEn (en_name e) (Some p) (Z.of_nat (length old) + 1), s).

Definition tracepoint_entry_remove_probe (am : bool) (e : tracepoint_entry) (probe data : Z) (s : tracepoints)
    : ptr * tracepoint_entry * tracepoints :=
  match en_funcs e with
  | None => (inl (- ENOENT), e, s)
  | Some p =>
      let old := live (array s p) in
      let nr_probes := Z.of_nat (length old) in
      let nr_del := Z.of_nat (length (List.filter (fun f => (probe =? 0) || same_probe probe data f) old)) in
      if nr_probes - nr_del =? 0 then (inr (Some p), MkEn (en_name e) None 0, s)
      else if negb am then (inl (- ENOMEM), e, s)
      else
        let new := List.filter (fun f => negb (probe =? 0) && negb (same_probe probe data f)) old in
        let '(p', s) := allocate_probes (new ++ [(0, 0)]) s in
        (inr (Some p), MkEn (en_name e) (Some p') (nr_probes - nr_del), s)
  end.

(** ** The hash table *)

Definition TRACEPOINT_TABLE_SIZE : Z := 64.

Definition bucket (name : list Z) : nat :=
  Z.to_nat (Z.land (Jhash.jhash name 0) (TRACEPOINT_TABLE_SIZE - 1)).

Definition chain (s : tracepoints) (name : list Z) : list tracepoint_entry :=
  default [] (tp_table s !! bucket name).

Definition set_chain (name : list Z) (l : list tracepoint_entry) (s : tracepoints) : tracepoints :=
  set_table (<[bucket name := l]> (tp_table s)) s.

Definition has_name (name : list Z) (e : tracepoint_entry) : bool := bool_decide (en_name e = name).

Definition get_tracepoint (name : list Z) (s : tracepoints) : option tracepoint_entry :=
  List.find (has_name name) (chain s name).

Definition add_tracepoint (em : bool) (name : list Z) (s : tracepoints) : Z + (tracepoint_entry * tracepoints) :=
  match List.find (has_name name) (chain s name) with
  | Some _ => inl (- EEXIST)
  | None =>
      if negb em then inl (- ENOMEM)
      else let e := MkEn name None 0 in inr (e, set_chain name (e :: chain s name) s)
  end.

(** [hlist_del] of an entry, and the stores through a pointer to it: the entry
    is the one of its chain with its name. *)
Fixpoint chain_remove (name : list Z) (l : list tracepoint_entry) : list tracepoint_entry :=
  match l with
  | [] => []
  | e :: l' => if has_name name e then l' else e :: chain_remove name l'
  end.

Fixpoint chain_put (e : tracepoint_entry) (l : list tracepoint_entry) : list tracepoint_entry :=
  match l with
  | [] => []
  | e' :: l' => if has_name (en_name e) e' then e :: l' else e' :: chain_put e l'
  end.

Definition remove_tracepoint (e : tracepoint_entry) (s : tracepoints) : tracepoints :=
  set_chain (en_name e) (chain_remove (en_name e) (chain s (en_name e))) s.

Definition put_entry (e : tracepoint_entry) (s : tracepoints) : tracepoints :=
  set_chain (en_name e) (chain_put e (chain s (en_name e))) s.

(** ** Updating the tracepoints *)

Definition jump_label_enabled (key : Z) : bool := ctrue key.

Definition set_tracepoint (e : tracepoint_entry) (elem : tracepoint) (active : bool) : tracepoint * list hook :=
  let en := jump_label_enabled (el_key elem) in
  let h := if el_regfunc elem && negb en && active then [Regfunc (el_name elem)]
           else if el_unregfunc elem && en && negb active then [Unregfunc (el_name elem)] else [] in
  let key := if active && negb en then s32 (el_key elem + 1)
             else if negb active && en then s32 (el_key elem - 1) else el_key elem in
  (MkEl (el_name elem) key (el_regfunc elem) (el_unregfunc elem) (en_funcs e), h).

Definition disable_tracepoint (elem : tracepoint) : tracepoint * list hook :=
  let en := jump_label_enabled (el_key elem) in
  let h := if el_unregfunc elem && en then [Unregfunc (el_name elem)] else [] in
  let key := if en then s32 (el_key elem - 1) else el_key elem in
  (MkEl (el_name elem) key (el_regfunc elem) (el_unregfunc elem) None, h).

Definition update_one (s : tracepoints) (elem : tracepoint) : tracepoint * list hook :=
  match get_tracepoint (el_name elem) s with
  | Some e => set_tracepoint e elem (ctrue (en_refcount e))
  | None => disable_tracepoint elem
  end.

Definition tracepoint_update_probe_range (s : tracepoints) (l : list tracepoint)
    : list tracepoint * list hook :=
  (fst <$> (update_one s <$> l), concat (snd <$> (update_one s <$> l))).

(** [module_update_tracepoints] of [kernel/module.c] skips tainted modules. *)
Definition update_module (s : tracepoints) (m : module) : module * list hook :=
  if mod_taints m then (m, [])
  else let '(l, h) := tracepoint_update_probe_range s (mod_tracepoints m) in (MkMod (mod_taints m) l, h).

Definition module_update_tracepoints (s : tracepoints) : tracepoints :=
  set_modules (fst <$> (update_module s <$> tp_modules s)) (concat (snd <$> (update_module s <$> tp_modules s))) s.

Definition tracepoint_update_probes (s : tracepoints) : tracepoints :=
  let '(l, h) := tracepoint_update_probe_range s (tp_core s) in
  module_update_tracepoints (set_core l h s).

(** [tracepoint_module_notify] for the module at index [i], coming or going. *)
Definition tracepoint_module_notify (i : nat) (s : tracepoints) : tracepoints :=
  match tp_modules s !! i with
  | None => s
  | Some m =>
      let '(l, h) := tracepoint_update_probe_range s (mod_tracepoints m) in
      set_modules (<[i := MkMod (mod_taints m) l]> (tp_modules s)) h s
  end.

(** ** Registering and unregistering *)

Definition release_probes (old : option positive) (s : tracepoints) : tracepoints :=
  match old with Some p => set_released (tp_released s ++ [p]) s | None => s end.

(** [em] and [am]: whether the allocations of the entry and of the array succeed. *)
Definition tracepoint_add_probe (em am : bool) (name : list Z) (probe data : Z) (s : tracepoints)
    : ptr * tracepoints :=
  match (match get_tracepoint name s with
         | Some e => inr (e, s)
         | None => add_tracepoint em name s
         end) with
  | inl err => (inl err, s)
  | inr (e, s) =>
      let '(old, e, s) := tracepoint_entry_add_probe am e probe data s in
      let s := put_entry e s in
      let s := if is_err old && (en_refcount e =? 0) then remove_tracepoint e s else s in
      (old, s)
  end.

Definition tracepoint_probe_register (em am : bool) (name : list Z) (probe data : Z) (s : tracepoints)
    : Z * tracepoints :=
  let '(old, s) := tracepoint_add_probe em am name probe data s in
  match old with
  | inl err => (err, s)
  | inr old => (0, release_probes old (tracepoint_update_probes s))
  end.

Definition tracepoint_remove_probe (am : bool) (name : list Z) (probe data : Z) (s : tracepoints)
    : ptr * tracepoints :=
  match get_tracepoint name s with
  | None => (inl (- ENOENT), s)
  | Some e =>
      let '(old, e, s) := tracepoint_entry_remove_probe am e probe data s in
      let s := put_entry e s in
      if is_err old then (old, s)
      else (old, if en_refcount e =? 0 then remove_tracepoint e s else s)
  end.

Definition tracepoint_probe_unregister (am : bool) (name : list Z) (probe data : Z) (s : tracepoints)
    : Z * tracepoints :=
  let '(old, s) := tracepoint_remove_probe am name probe data s in
  match old with
  | inl err => (err, s)
  | inr old => (0, release_probes old (tracepoint_update_probes s))
  end.

Definition tracepoint_add_old_probes (old : option positive) (s : tracepoints) : tracepoints :=
  set_old_probes (match old with Some p => p :: tp_old_probes s | None => tp_old_probes s end) 1 s.

Definition tracepoint_probe_register_noupdate (em am : bool) (name : list Z) (probe data : Z) (s : tracepoints)
    : Z * tracepoints :=
  let '(old, s) := tracepoint_add_probe em am name probe data s in
  match old with
  | inl err => (err, s)
  | inr old => (0, tracepoint_add_old_probes old s)
  end.

Definition tracepoint_probe_unregister_noupdate (am : bool) (name : list Z) (probe data : Z) (s : tracepoints)
    : Z * tracepoints :=
  let '(old, s) := tracepoint_remove_probe am name probe data s in
  match old with
  | inl err => (err, s)
  | inr old => (0, tracepoint_add_old_probes old s)
  end.

Definition tracepoint_probe_update_all (s : tracepoints) : tracepoints :=
  if tp_need_update s =? 0 then s
  else
    let release := tp_old_probes s in
    let s := tracepoint_update_probes (set_old_probes [] 0 s) in
    set_released (tp_released s ++ release) s.

(** ** The call site

    [trace_name]: the probes called, with their data, in order. The [do]
    loop calls the first cell without looking at its [func]. *)
Definition trace (s : tracepoints) (elem : tracepoint) : list tracepoint_func :=
  if ctrue (el_key elem) then
    match el_funcs elem with
    | None => []
    | Some p => match array s p with [] => [] | f :: l => f :: live l end
    end
  else [].

(** ** Lookup lemmas *)

Lemma has_name_true n e : has_name n e = true <-> en_name e = n.
Proof. apply bool_decide_eq_true. Qed.

Lemma has_name_false n e : has_name n e = false <-> en_name e <> n.
Proof. apply bool_decide_eq_false. Qed.

Lemma find_name n l e : List.find (has_name n) l = Some e -> en_name e = n.
Proof. intros [_ H]%List.find_some. by apply has_name_true. Qed.

Lemma find_put_eq e l e0 :
  List.find (has_name (en_name e)) l = Some e0 -> List.find (has_name (en_name e)) (chain_put e l) = Some e.
Proof.
  induction l as [|e1 l IH]; [done|]. simpl. destruct (has_name (en_name e) e1) eqn:E; simpl.
  - intros _. by rewrite (proj2 (has_name_true (en_name e) e) eq_refl).
  - rewrite E. apply IH.
Qed.

Lemma find_put_ne n e l : n <> en_name e -> List.find (has_name n) (chain_put e l) = List.find (has_name n) l.
Proof.
  intros Hne. induction l as [|e1 l IH]; [done|]. simpl. destruct (has_name (en_name e) e1) eqn:E; simpl.
  - apply has_name_true in E. rewrite (proj2 (has_name_false n e)) by done.
    by rewrite (proj2 (has_name_false n e1)) by congruence.
  - by rewrite IH.
Qed.

Lemma find_remove_ne n m l : n <> m -> List.find (has_name n) (chain_remove m l) = List.find (has_name n) l.
Proof.
  intros Hne. induction l as [|e1 l IH]; [done|]. simpl. destruct (has_name m e1) eqn:E; simpl.
  - apply has_name_true in E. by rewrite (proj2 (has_name_false n e1)) by congruence.
  - by rewrite IH.
Qed.

Lemma find_none_notin n l : List.find (has_name n) l = None <-> n ∉ en_name <$> l.
Proof.
  induction l as [|e l IH]; simpl; [split; [intros _; apply not_elem_of_nil|done]|].
  rewrite not_elem_of_cons, <- IH. destruct (has_name n e) eqn:E.
  - apply has_name_true in E. split; [done|]. intros [? _]. congruence.
  - apply has_name_false in E. split; [|by intros [_ ?]]. intros. by split; [congruence|].
Qed.

Lemma find_remove_eq n l : NoDup (en_name <$> l) -> List.find (has_name n) (chain_remove n l) = None.
Proof.
  induction l as [|e l IH]; simpl; [done|]. intros [Hn Hnd]%NoDup_cons.
  destruct (has_name n e) eqn:E; simpl.
  - apply has_name_true in E. apply find_none_notin. by rewrite <- E.
  - rewrite E. auto.
Qed.

Lemma chain_put_names e l : en_name <$> chain_put e l = en_name <$> l.
Proof.
  induction l as [|e1 l IH]; [done|]. simpl. destruct (has_name (en_name e) e1) eqn:E; simpl.
  - apply has_name_true in E. by f_equal.
  - by f_equal.
Qed.

Lemma chain_remove_names n l : NoDup (en_name <$> l) -> NoDup (en_name <$> chain_remove n l).
Proof.
  intros H. assert (sublist (en_name <$> chain_remove n l) (en_name <$> l)) as Hs; [|by eapply sublist_NoDup].
  clear H. induction l as [|e l IH]; [done|]. simpl. destruct (has_name n e); simpl; by constructor.
Qed.

Lemma bucket_lt name : (bucket name < 64)%nat.
Proof.
  unfold bucket, TRACEPOINT_TABLE_SIZE. change (64 - 1) with (Z.ones 6). rewrite Z.land_ones by lia.
  pose proof (Z.mod_pos_bound (Jhash.jhash name 0) (2 ^ 6)). lia.
Qed.

(** The table: 64 chains without duplicate names. *)
Record table_ok (s : tracepoints) : Prop := {
  tk_size : length (tp_table s) = 64%nat;
  tk_chain : forall b l, tp_table s !! b = Some l -> NoDup (en_name <$> l) }.

Lemma chain_nodup s n : table_ok s -> NoDup (en_name <$> chain s n).
Proof.
  intros [_ H]. unfold chain. destruct (tp_table s !! bucket n) eqn:E; simpl; eauto using NoDup_nil_2.
Qed.

Lemma chain_set_chain s m n l : table_ok s ->
  chain (set_chain m l s) n = if decide (bucket n = bucket m) then l else chain s n.
Proof.
  intros [Hs _]. unfold chain, set_chain. simpl. destruct (decide _) as [->|Hne].
  - rewrite list_lookup_insert_eq; [done|]. pose proof (bucket_lt m). lia.
  - by rewrite list_lookup_insert_ne.
Qed.

Lemma table_ok_set_chain s m l : table_ok s -> NoDup (en_name <$> l) -> table_ok (set_chain m l s).
Proof.
  intros [Hs Hc] Hl. split; simpl; [by rewrite length_insert|]. intros b l'.
  destruct (decide (b = bucket m)) as [->|Hne].
  - rewrite list_lookup_insert_eq by (pose proof (bucket_lt m); lia). by intros [= <-].
  - rewrite list_lookup_insert_ne by done. apply Hc.
Qed.

Lemma get_put s e e0 n : table_ok s -> get_tracepoint (en_name e) s = Some e0 ->
  get_tracepoint n (put_entry e s) = if decide (n = en_name e) then Some e else get_tracepoint n s.
Proof.
  intros Hs He. unfold get_tracepoint, put_entry in *. rewrite chain_set_chain by done.
  destruct (decide (n = en_name e)) as [->|Hne].
  - rewrite decide_True by done. by eapply find_put_eq.
  - case_decide as Hb; [|done]. rewrite find_put_ne by done. unfold chain. by rewrite Hb.
Qed.

Lemma get_remove s e n : table_ok s ->
  get_tracepoint n (remove_tracepoint e s) = if decide (n = en_name e) then None else get_tracepoint n s.
Proof.
  intros Hs. unfold get_tracepoint, remove_tracepoint. rewrite chain_set_chain by done.
  destruct (decide (n = en_name e)) as [->|Hne].
  - rewrite decide_True by done. apply find_remove_eq. by apply chain_nodup.
  - case_decide as Hb; [|done]. rewrite find_remove_ne by done. unfold chain. by rewrite Hb.
Qed.

Lemma get_add s e n : table_ok s ->
  get_tracepoint n (set_chain (en_name e) (e :: chain s (en_name e)) s) =
    if decide (n = en_name e) then Some e else get_tracepoint n s.
Proof.
  intros Hs. unfold get_tracepoint. rewrite chain_set_chain by done.
  destruct (decide (n = en_name e)) as [->|Hne].
  - rewrite decide_True by done. simpl. by rewrite (proj2 (has_name_true (en_name e) e) eq_refl).
  - case_decide as Hb; [|done]. simpl. rewrite (proj2 (has_name_false n e)) by done.
    unfold chain. by rewrite Hb.
Qed.

Lemma table_ok_put s e : table_ok s -> table_ok (put_entry e s).
Proof. intros H. apply table_ok_set_chain; [done|]. rewrite chain_put_names. by apply chain_nodup. Qed.

Lemma table_ok_remove s e : table_ok s -> table_ok (remove_tracepoint e s).
Proof. intros H. apply table_ok_set_chain; [done|]. by apply chain_remove_names, chain_nodup. Qed.

Lemma table_ok_add s e : table_ok s -> get_tracepoint (en_name e) s = None ->
  table_ok (set_chain (en_name e) (e :: chain s (en_name e)) s).
Proof.
  intros H Hg. apply table_ok_set_chain; [done|]. simpl. apply NoDup_cons.
  split; [by apply find_none_notin|by apply chain_nodup].
Qed.

(** ** The registry as a map from names to lists of probes *)

Definition probes (s : tracepoints) (name : list Z) : list tracepoint_func :=
  match get_tracepoint name s with
  | Some e => match en_funcs e with Some p => live (array s p) | None => [] end
  | None => []
  end.

(** The tracepoints the registry keeps up to date: those of the kernel and of
    the modules that are not tainted. *)
Definition elems (s : tracepoints) : list tracepoint :=
  tp_core s ++ concat (mod_tracepoints <$> (List.filter (fun m => negb (mod_taints m)) (tp_modules s))).

(** All tracepoints, of tainted modules too. *)
Definition all_elems (s : tracepoints) : list tracepoint :=
  tp_core s ++ concat (mod_tracepoints <$> tp_modules s).

Lemma elems_all s el : el ∈ elems s -> el ∈ all_elems s.
Proof.
  unfold elems, all_elems. rewrite !elem_of_app. intros [?|Hin]; [auto|right]. revert Hin.
  induction (tp_modules s) as [|m ms IH]; [done|]. simpl.
  destruct (mod_taints m); simpl; rewrite !elem_of_app; tauto.
Qed.

(** An entry of the table with its array. *)
Definition entry_ok (s : tracepoints) (e : tracepoint_entry) (p : positive) (fs : list tracepoint_func) : Prop :=
  en_funcs e = Some p /\ tp_heap s !! p = Some (fs ++ [(0, 0)]) /\ fs <> [] /\ NoDup fs /\
  Forall (fun f => f.1 <> 0) fs /\ en_refcount e = Z.of_nat (length fs).

Record tps_ok (s : tracepoints) : Prop := {
  ok_table : table_ok s;
  ok_entry : forall n e, get_tracepoint n s = Some e -> exists p fs, entry_ok s e p fs /\
    (p < tp_next s)%positive /\ (p ∉ tp_released s) /\ (p ∉ tp_old_probes s);
  ok_inj : forall n1 n2 e1 e2, get_tracepoint n1 s = Some e1 -> get_tracepoint n2 s = Some e2 ->
    en_funcs e1 = en_funcs e2 -> n1 = n2;
  ok_fresh : Forall (fun p => (p < tp_next s)%positive) (tp_released s ++ tp_old_probes s);
  ok_elems : forall el p, el ∈ elems s -> el_funcs el = Some p ->
    (p < tp_next s)%positive /\ (p ∉ tp_released s);
  ok_keys : forall el, el ∈ all_elems s -> el_key el = 0 \/ el_key el = 1 }.

(** No entry uses the array. *)
Definition unused (s : tracepoints) (p : positive) : Prop :=
  forall n e, get_tracepoint n s = Some e -> en_funcs e <> Some p.

(** The tracepoints agree with the table. *)
Definition synced (s : tracepoints) : Prop :=
  forall el, el ∈ elems s ->
    match get_tracepoint (el_name el) s with
    | Some e => el_funcs el = en_funcs e /\ el_key el = 1
    | None => el_funcs el = None /\ el_key el = 0
    end.

Lemma live_cells fs : Forall (fun f => f.1 <> 0) fs -> live (fs ++ [(0, 0)]) = fs.
Proof.
  induction 1 as [|f fs Hf _ IH]; [done|]. simpl. destruct (Z.eqb_spec f.1 0); [done|]. by rewrite IH.
Qed.

Lemma entry_ok_live s e p fs : entry_ok s e p fs -> live (array s p) = fs.
Proof. intros (_ & H & _ & _ & Hf & _). unfold array. rewrite H. by apply live_cells. Qed.

(** Changing one entry of the table, possibly to a freshly allocated array. *)
Record changed (s s' : tracepoints) (name : list Z) (o : option tracepoint_entry) : Prop := {
  ch_table : table_ok s';
  ch_get : forall n, get_tracepoint n s' = if decide (n = name) then o else get_tracepoint n s;
  ch_next : (tp_next s <= tp_next s')%positive;
  ch_heap : forall p, (p < tp_next s)%positive -> tp_heap s' !! p = tp_heap s !! p;
  ch_released : tp_released s' = tp_released s;
  ch_old : tp_old_probes s' = tp_old_probes s;
  ch_core : tp_core s' = tp_core s;
  ch_modules : tp_modules s' = tp_modules s;
  ch_new : o = get_tracepoint name s \/ o = None \/
    exists e p fs, o = Some e /\ entry_ok s' e p fs /\ (tp_next s <= p < tp_next s')%positive }.

Lemma changed_ok s s' name o : tps_ok s -> changed s s' name o -> tps_ok s'.
Proof.
  intros [Htab Hent Hinj Hfresh Hel Hkey] [Htab' Hget Hnext Hheap Hrel Hold Hcore Hmods Hnew].
  assert (elems s' = elems s) as Helems by (unfold elems; by rewrite Hcore, Hmods).
  assert (forall p, p ∈ tp_released s ++ tp_old_probes s -> (p < tp_next s)%positive) as Hlt
    by (apply Forall_forall, Hfresh).
  (* every entry of the new table is an old one or the fresh one *)
  assert (forall n e, get_tracepoint n s' = Some e ->
    get_tracepoint n s = Some e \/ n = name /\ exists p fs, entry_ok s' e p fs /\ (tp_next s <= p < tp_next s')%positive)
    as Hcase.
  { intros n e. rewrite Hget. case_decide as Hn; [|auto]. subst n.
    destruct Hnew as [->|[->|(e' & p & fs & -> & ? & ?)]]; [auto|done|]. intros [= ->]. eauto 8. }
  split; [done| | | | |].
  - intros n e [He|(-> & p & fs & Hok & Hp)]%Hcase.
    + destruct (Hent n e He) as (p & fs & (E1 & E2 & E3) & Hp & Hr & Ho). exists p, fs.
      rewrite Hrel, Hold. split; [|split; [lia|done]]. split; [done|]. split; [by rewrite Hheap|done].
    + exists p, fs. rewrite Hrel, Hold. split; [done|]. split; [lia|]. setoid_rewrite elem_of_app in Hlt.
      split; intros Hin; [specialize (Hlt p (or_introl Hin))|specialize (Hlt p (or_intror Hin))]; lia.
  - intros n1 n2 e1 e2 [H1|(-> & p1 & fs1 & (E1 & _) & Hp1)]%Hcase [H2|(-> & p2 & fs2 & (E2 & _) & Hp2)]%Hcase Heq;
      [by eauto|..|done].
    + destruct (Hent n1 e1 H1) as (p & fs & (E1 & _) & Hp & _). rewrite E1, E2 in Heq. simplify_eq. lia.
    + destruct (Hent n2 e2 H2) as (p & fs & (E2 & _) & Hp & _). rewrite E1, E2 in Heq. simplify_eq. lia.
  - rewrite Hrel, Hold. eapply Forall_impl; [done|]. simpl. intros. lia.
  - intros el p. rewrite Helems, Hrel. intros H1 H2. destruct (Hel el p H1 H2). split; [lia|done].
  - intros el. unfold all_elems. rewrite Hcore, Hmods. apply Hkey.
Qed.

Lemma changed_probes s s' name o n :
  tps_ok s -> changed s s' name o -> n <> name -> probes s' n = probes s n.
Proof.
  intros Hs Hc Hn. unfold probes. rewrite (ch_get _ _ _ _ Hc), decide_False by done.
  destruct (get_tracepoint n s) as [e|] eqn:E; [|done].
  destruct (ok_entry s Hs n e E) as (p & fs & (-> & _) & Hp & _).
  unfold array. by rewrite (ch_heap _ _ _ _ Hc).
Qed.

Lemma changed_same_probes s s' name n :
  tps_ok s -> changed s s' name (get_tracepoint name s) -> probes s' n = probes s n.
Proof.
  intros Hs Hc. unfold probes. rewrite (ch_get _ _ _ _ Hc).
  replace (if decide (n = name) then get_tracepoint name s else get_tracepoint n s)
    with (get_tracepoint n s) by (case_decide; congruence).
  destruct (get_tracepoint n s) as [e|] eqn:E; [|done].
  destruct (ok_entry s Hs n e E) as (p & fs & (-> & _) & Hp & _).
  unfold array. by rewrite (ch_heap _ _ _ _ Hc).
Qed.

Lemma changed_unused s s' name o p fs e :
  tps_ok s -> get_tracepoint name s = Some e -> entry_ok s e p fs -> changed s s' name o ->
  o <> Some e -> unused s' p.
Proof.
  intros Hs He (Hp & _) Hc Hne n e'. rewrite (ch_get _ _ _ _ Hc).
  destruct (ok_entry s Hs name e He) as (p0 & fs0 & (Hp0 & _) & Hlt & _). rewrite Hp in Hp0. simplify_eq.
  case_decide as Hn.
  - destruct (ch_new _ _ _ _ Hc) as [->|[->|(e1 & p1 & fs1 & -> & (Hp1 & _) & ?)]]; [congruence|done|].
    intros [= <-]. rewrite Hp1. intros [= ->]. lia.
  - intros He' Hf. apply Hn. apply (ok_inj s Hs n name e' e); congruence.
Qed.

Lemma changed_refl s name : tps_ok s -> changed s s name (get_tracepoint name s).
Proof. intros Hs. split; auto; [apply Hs|intros n; case_decide; congruence|lia]. Qed.

Lemma existsb_same probe data fs : existsb (same_probe probe data) fs = true <-> (probe, data) ∈ fs.
Proof.
  rewrite existsb_exists. unfold same_probe. setoid_rewrite andb_true_iff. setoid_rewrite Z.eqb_eq.
  setoid_rewrite <- list_elem_of_In. split.
  - intros ([a b] & Hin & <- & <-). done.
  - intros Hin. exists (probe, data). done.
Qed.

(** What [tracepoint_add_probe] returns, and what it does to the table. *)
Inductive add_result (s : tracepoints) (name : list Z) (probe data : Z) (alloc : bool)
    : ptr -> tracepoints -> Prop :=
  | add_exists s' : (probe, data) ∈ probes s name -> changed s s' name (get_tracepoint name s) ->
      add_result s name probe data alloc (inl (- EEXIST)) s'
  | add_nomem s' : (probe, data) ∉ probes s name -> alloc = false ->
      changed s s' name (get_tracepoint name s) ->
      add_result s name probe data alloc (inl (- ENOMEM)) s'
  | add_done s' e p : (probe, data) ∉ probes s name -> changed s s' name (Some e) ->
      entry_ok s' e p (probes s name ++ [(probe, data)]) -> (tp_next s <= p)%positive ->
      add_result s name probe data alloc (inr (get_tracepoint name s ≫= en_funcs)) s'.

Lemma changed_put s e e0 : tps_ok s -> get_tracepoint (en_name e) s = Some e0 -> e = e0 ->
  changed s (put_entry e s) (en_name e) (get_tracepoint (en_name e) s).
Proof.
  intros Hs He ->. split; auto; simpl.
  - apply table_ok_put, Hs.
  - intros n. rewrite (get_put s e0 e0) by (apply Hs || done). case_decide; congruence.
  - lia.
Qed.

(** Storing an entry with a freshly allocated array. *)
Lemma changed_alloc s s0 e fs n :
  tps_ok s -> table_ok s0 -> fs <> [] -> NoDup fs -> Forall (fun f => f.1 <> 0) fs ->
  (forall m, m <> n -> get_tracepoint m s0 = get_tracepoint m s) -> is_Some (get_tracepoint n s0) ->
  tp_next s0 = tp_next s -> tp_heap s0 = tp_heap s -> tp_released s0 = tp_released s ->
  tp_old_probes s0 = tp_old_probes s -> tp_core s0 = tp_core s -> tp_modules s0 = tp_modules s ->
  e = MkEn n (Some (tp_next s)) (Z.of_nat (length fs)) ->
  changed s (put_entry e (allocate_probes (fs ++ [(0, 0)]) s0).2) n (Some e) /\
  entry_ok (put_entry e (allocate_probes (fs ++ [(0, 0)]) s0).2) e (tp_next s) fs.
Proof.
  intros Hs Ht Hne Hnd Hnz Hget [e0 He0] Hn Hh Hr Ho Hco Hmo ->.
  set (e := MkEn _ _ _). set (s1 := (allocate_probes _ _).2).
  assert (forall m, get_tracepoint m s1 = get_tracepoint m s0) as Hget1 by done.
  assert (table_ok s1) as Ht1 by (destruct Ht; by split).
  assert (entry_ok (put_entry e s1) e (tp_next s) fs) as Hok.
  { split; [done|]. split; [|done]. simpl. rewrite Hn. apply lookup_insert_eq. }
  split; [|done]. split; simpl; auto.
  - by apply table_ok_put.
  - intros m. rewrite (get_put s1 e e0) by done. simpl. case_decide; [done|]. rewrite Hget1. auto.
  - rewrite Hn. lia.
  - intros p Hp. rewrite Hn, Hh. rewrite lookup_insert_ne; [done|]. lia.
  - right. right. exists e, (tp_next s), fs. split; [done|]. split; [done|]. simpl. rewrite Hn. lia.
Qed.

Lemma get_name s n e : get_tracepoint n s = Some e -> en_name e = n.
Proof. apply find_name. Qed.

Lemma cells_snoc (fs : list tracepoint_func) f z : fs ++ [f; z] = (fs ++ [f]) ++ [z].
Proof. by rewrite <- app_assoc. Qed.

Lemma snoc_ok fs probe data :
  probe <> 0 -> (probe, data) ∉ fs -> NoDup fs -> Forall (fun f : tracepoint_func => f.1 <> 0) fs ->
  fs ++ [(probe, data)] <> [] /\ NoDup (fs ++ [(probe, data)]) /\
  Forall (fun f : tracepoint_func => f.1 <> 0) (fs ++ [(probe, data)]).
Proof.
  intros Hp Hn Hnd Hf. split; [by destruct fs|]. split.
  - apply NoDup_app. split; [done|]. split; [|apply NoDup_singleton].
    intros x Hx ->%list_elem_of_singleton. done.
  - apply Forall_app. split; [done|]. by constructor.
Qed.

Lemma tracepoint_add_probe_spec em am name probe data s :
  tps_ok s -> probe <> 0 ->
  let '(old, s') := tracepoint_add_probe em am name probe data s in
  add_result s name probe data (em && am) old s'.
Proof.
  intros Hs Hp. unfold tracepoint_add_probe. destruct (get_tracepoint name s) as [e|] eqn:He.
  - destruct (ok_entry s Hs name e He) as (p & fs & Hok & Hlt & Hr & Ho). pose proof (get_name _ _ _ He) as Hname.
    assert (probes s name = fs) as Hprobes.
    { unfold probes. rewrite He. pose proof Hok as (-> & _). by eapply entry_ok_live. }
    unfold tracepoint_entry_add_probe. pose proof Hok as (E1 & E2 & E3 & E4 & E5 & E6).
    rewrite E1, (entry_ok_live _ _ _ _ Hok).
    assert (Z.of_nat (length fs) <> 0) as Hlen by (destruct fs; simpl; [done|lia]).
    assert (changed s (put_entry e s) name (get_tracepoint name s)) as Hput
      by (rewrite <- Hname; eapply changed_put; [done|by rewrite Hname|done]).
    destruct (existsb _ _) eqn:Hex.
    { apply existsb_same in Hex. simpl. rewrite E6, (proj2 (Z.eqb_neq _ 0) Hlen).
      apply add_exists; [by rewrite Hprobes|done]. }
    assert ((probe, data) ∉ fs) as Hnin by (rewrite <- existsb_same; congruence).
    destruct am; cbn [negb].
    2:{ cbn [is_err andb]. rewrite E6, (proj2 (Z.eqb_neq _ 0) Hlen).
        apply add_nomem; [by rewrite Hprobes|by rewrite andb_false_r|done]. }
    destruct (snoc_ok fs probe data Hp Hnin E4 E5) as (F1 & F2 & F3).
    destruct (changed_alloc s s (MkEn name (Some (tp_next s)) (Z.of_nat (length (fs ++ [(probe, data)]))))
      (fs ++ [(probe, data)]) name) as [Hc Hk];
      [done|apply Hs|done|done|done|done|rewrite He; eauto|done|done|done|done|done|done|done|].
    rewrite cells_snoc. cbn [allocate_probes is_err andb]. rewrite Hname.
    replace (Z.of_nat (length fs) + 1) with (Z.of_nat (length (fs ++ [(probe, data)])))
      by (rewrite length_app; simpl; lia).
    replace (inr (Some p)) with (inr (get_tracepoint name s ≫= en_funcs) : ptr) by (by rewrite He; simpl; rewrite E1).
    eapply add_done; [by rewrite Hprobes|exact Hc|by rewrite Hprobes|lia].
  - assert (probes s name = []) as Hprobes by (unfold probes; by rewrite He).
    assert ((probe, data) ∉ probes s name) as Hnin by (rewrite Hprobes; apply not_elem_of_nil).
    unfold add_tracepoint. unfold get_tracepoint in He. rewrite He. fold (get_tracepoint name s) in He.
    destruct em; cbn [negb]; [|by apply add_nomem; [..|apply changed_refl]].
    set (s0 := set_chain _ _ _). set (e := MkEn name None 0).
    assert (forall m, get_tracepoint m s0 = if decide (m = name) then Some e else get_tracepoint m s) as Hget
      by (intros m; apply (get_add s e); apply Hs).
    assert (table_ok s0) as Ht0 by (apply (table_ok_add s e); [apply Hs|done]).
    unfold tracepoint_entry_add_probe. cbn [en_funcs e existsb]. destruct am; cbn [negb].
    + destruct (snoc_ok [] probe data Hp (not_elem_of_nil _) (NoDup_nil_2) (Forall_nil_2 _)) as (F1 & F2 & F3).
      destruct (changed_alloc s s0 (MkEn name (Some (tp_next s)) 1) [(probe, data)] name) as [Hc Hk]; auto.
      { intros m Hm. rewrite Hget. by rewrite decide_False. }
      { rewrite Hget, decide_True by done. eauto. }
      cbn [allocate_probes is_err andb app length]. change (Z.of_nat 0 + 1) with 1.
      replace (inr None) with (inr (get_tracepoint name s ≫= en_funcs) : ptr) by (by rewrite He).
      eapply add_done; [done|exact Hc|by rewrite Hprobes|lia].
    + cbn [is_err andb en_refcount e]. rewrite Z.eqb_refl. apply add_nomem; [done|done|]. rewrite He.
      assert (table_ok (put_entry e s0)) by (by apply table_ok_put).
      split; auto; simpl; try lia.
      * by apply table_ok_remove.
      * intros n. rewrite get_remove by done. simpl. case_decide; [done|].
        rewrite (get_put s0 e e) by (done || rewrite Hget, decide_True by done; done).
        simpl. rewrite decide_False by done. rewrite Hget. by rewrite decide_False.
Qed.

(** The probes that stay when one is removed; a NULL probe removes all. *)
Definition kept (probe data : Z) (fs : list tracepoint_func) : list tracepoint_func :=
  List.filter (fun f => negb (probe =? 0) && negb (same_probe probe data f)) fs.

Inductive remove_result (s : tracepoints) (name : list Z) (probe data : Z) (alloc : bool)
    : ptr -> tracepoints -> Prop :=
  | remove_absent : get_tracepoint name s = None -> remove_result s name probe data alloc (inl (- ENOENT)) s
  | remove_nomem s' : kept probe data (probes s name) <> [] -> alloc = false ->
      changed s s' name (get_tracepoint name s) ->
      remove_result s name probe data alloc (inl (- ENOMEM)) s'
  | remove_last s' e : get_tracepoint name s = Some e -> kept probe data (probes s name) = [] ->
      changed s s' name None -> remove_result s name probe data alloc (inr (en_funcs e)) s'
  | remove_some s' e e' p : get_tracepoint name s = Some e -> kept probe data (probes s name) <> [] ->
      changed s s' name (Some e') -> entry_ok s' e' p (kept probe data (probes s name)) ->
      (tp_next s <= p)%positive -> remove_result s name probe data alloc (inr (en_funcs e)) s'.

Lemma kept_count probe data fs :
  Z.of_nat (length fs) - Z.of_nat (length (List.filter (fun f => (probe =? 0) || same_probe probe data f) fs))
  = Z.of_nat (length (kept probe data fs)).
Proof.
  pose proof (List.filter_length (fun f => (probe =? 0) || same_probe probe data f) fs) as H.
  assert (kept probe data fs = List.filter (fun f => negb ((probe =? 0) || same_probe probe data f)) fs) as ->.
  { unfold kept. apply List.filter_ext. intros f. by rewrite negb_orb. }
  lia.
Qed.

Lemma kept_ok probe data fs :
  NoDup fs -> Forall (fun f : tracepoint_func => f.1 <> 0) fs ->
  NoDup (kept probe data fs) /\ Forall (fun f : tracepoint_func => f.1 <> 0) (kept probe data fs).
Proof.
  intros Hnd Hf. split.
  - apply NoDup_ListNoDup, List.NoDup_filter, NoDup_ListNoDup, Hnd.
  - apply Forall_forall. intros f [Hin _]%list_elem_of_In%List.filter_In.
    apply (proj1 (Forall_forall _ _) Hf). by apply list_elem_of_In.
Qed.

Lemma tracepoint_remove_probe_spec am name probe data s :
  tps_ok s ->
  let '(old, s') := tracepoint_remove_probe am name probe data s in
  remove_result s name probe data am old s'.
Proof.
  intros Hs. unfold tracepoint_remove_probe. destruct (get_tracepoint name s) as [e|] eqn:He;
    [|by apply remove_absent].
  destruct (ok_entry s Hs name e He) as (p & fs & Hok & Hlt & Hr & Ho). pose proof (get_name _ _ _ He) as Hname.
  assert (probes s name = fs) as Hprobes.
  { unfold probes. rewrite He. pose proof Hok as (-> & _). by eapply entry_ok_live. }
  unfold tracepoint_entry_remove_probe. pose proof Hok as (E1 & E2 & E3 & E4 & E5 & E6).
  rewrite E1, (entry_ok_live _ _ _ _ Hok), kept_count.
  destruct (kept_ok probe data fs E4 E5) as [F1 F2].
  destruct (Z.eqb_spec (Z.of_nat (length (kept probe data fs))) 0) as [Hz|Hz].
  - assert (kept probe data fs = []) as Hk by (destruct (kept probe data fs); [done|simpl in Hz; lia]).
    cbn [is_err en_refcount]. rewrite Z.eqb_refl, Hname. rewrite <- E1.
    apply remove_last; [done|by rewrite Hprobes|].
    set (e1 := MkEn name None 0). assert (table_ok (put_entry e1 s)) by (apply table_ok_put, Hs).
    split; auto; simpl; try lia.
    + by apply table_ok_remove.
    + intros n. rewrite get_remove by done. simpl. case_decide; [done|].
      rewrite (get_put s e1 e) by (apply Hs || done). simpl. by rewrite decide_False.
  - assert (kept probe data fs <> []) as Hk by (by intros Hk; rewrite Hk in Hz).
    destruct am; cbn [negb].
    + destruct (changed_alloc s s (MkEn name (Some (tp_next s)) (Z.of_nat (length (kept probe data fs))))
        (kept probe data fs) name) as [Hc Hk'];
        [done|apply Hs|done|done|done|done|rewrite He; eauto|done|done|done|done|done|done|done|].
      cbn [allocate_probes is_err en_refcount]. rewrite (proj2 (Z.eqb_neq _ 0) Hz), Hname, <- E1.
      eapply remove_some; [done|by rewrite Hprobes|exact Hc|by rewrite Hprobes|lia].
    + cbn [is_err]. apply remove_nomem; [by rewrite Hprobes|done|].
      rewrite <- Hname. eapply changed_put; [done|by rewrite Hname|done].
Qed.

(** ** The update *)

Lemma update_one_name s el : el_name (update_one s el).1 = el_name el.
Proof. unfold update_one. by destruct (get_tracepoint _ s). Qed.

Lemma update_one_synced s el :
  tps_ok s -> el_key el = 0 \/ el_key el = 1 ->
  match get_tracepoint (el_name el) s with
  | Some e => el_funcs (update_one s el).1 = en_funcs e /\ el_key (update_one s el).1 = 1
  | None => el_funcs (update_one s el).1 = None /\ el_key (update_one s el).1 = 0
  end.
Proof.
  intros Hs Hk. unfold update_one. destruct (get_tracepoint (el_name el) s) as [e|] eqn:He.
  - destruct (ok_entry s Hs _ e He) as (p & fs & (E1 & _ & E3 & _ & _ & E6) & _).
    assert (ctrue (en_refcount e) = true) as ->.
    { rewrite E6. unfold ctrue. destruct fs; [done|]. simpl. by destruct (Z.eqb_spec (Z.pos (Pos.of_succ_nat (length fs))) 0). }
    unfold set_tracepoint. simpl. split; [done|]. unfold jump_label_enabled. by destruct Hk as [-> | ->].
  - unfold disable_tracepoint. simpl. split; [done|]. unfold jump_label_enabled. by destruct Hk as [-> | ->].
Qed.

Lemma elems_update s : elems (tracepoint_update_probes s) = fst <$> (update_one s <$> elems s).
Proof.
  unfold elems, tracepoint_update_probes, module_update_tracepoints, tracepoint_update_probe_range.
  cbn [tp_core tp_modules set_modules set_core]. rewrite !fmap_app. f_equal.
  induction (tp_modules s) as [|m ms IH]; [done|]. rewrite !fmap_cons. cbn [List.filter].
  unfold update_module at 1. destruct (mod_taints m) eqn:E; simpl; rewrite ?E; simpl; [done|].
  rewrite !fmap_app. f_equal; [unfold update_module; by rewrite E|done].
Qed.

Lemma get_update s n : get_tracepoint n (tracepoint_update_probes s) = get_tracepoint n s.
Proof. done. Qed.

Lemma probes_update s n : probes (tracepoint_update_probes s) n = probes s n.
Proof. done. Qed.

Lemma update_synced s : tps_ok s -> synced (tracepoint_update_probes s).
Proof.
  intros Hs el. rewrite elems_update.
  intros (x & -> & (el0 & -> & Hin)%list_elem_of_fmap)%list_elem_of_fmap.
  rewrite update_one_name, get_update. apply update_one_synced; [done|]. by apply (ok_keys s Hs), elems_all.
Qed.

Lemma update_key s el : el_key el = 0 \/ el_key el = 1 ->
  el_key (update_one s el).1 = 0 \/ el_key (update_one s el).1 = 1.
Proof.
  intros Hk. unfold update_one, set_tracepoint, disable_tracepoint, jump_label_enabled.
  destruct (get_tracepoint _ s); [destruct (ctrue (en_refcount _))|]; simpl;
    destruct Hk as [-> | ->]; simpl; auto.
Qed.

Lemma all_elems_update s el :
  el ∈ all_elems (tracepoint_update_probes s) ->
  el ∈ all_elems s \/ exists el0, el0 ∈ all_elems s /\ el = (update_one s el0).1.
Proof.
  unfold all_elems, tracepoint_update_probes, module_update_tracepoints, tracepoint_update_probe_range.
  cbn [tp_core tp_modules set_modules set_core]. rewrite elem_of_app.
  intros [(x & -> & (el0 & -> & Hin)%list_elem_of_fmap)%list_elem_of_fmap|Hin].
  { right. exists el0. rewrite elem_of_app. auto. }
  assert (el ∈ concat (mod_tracepoints <$> tp_modules s) \/
    exists el0, el0 ∈ concat (mod_tracepoints <$> tp_modules s) /\ el = (update_one s el0).1) as H.
  2:{ destruct H as [?|(el0 & ? & ?)]; [left|right; exists el0]; rewrite elem_of_app; auto. }
  induction (tp_modules s) as [|m ms IH]; [by apply not_elem_of_nil in Hin|].
  rewrite !fmap_cons in *. cbn [concat] in *. apply elem_of_app in Hin as [Hin|Hin].
  - unfold update_module in Hin. destruct (mod_taints m); simpl in Hin; [left; rewrite elem_of_app; auto|].
    apply list_elem_of_fmap in Hin as (x & -> & (el0 & -> & Hin)%list_elem_of_fmap).
    right. exists el0. rewrite elem_of_app. auto.
  - destruct (IH Hin) as [?|(el0 & ? & ?)]; [left|right; exists el0]; rewrite elem_of_app; auto.
Qed.

Lemma update_ok s : tps_ok s -> tps_ok (tracepoint_update_probes s).
Proof.
  intros Hs. pose proof (update_synced s Hs) as Hsync. destruct Hs as [H1 H2 H3 H4 H5 H6].
  split; [by destruct H1|done|done|done| |].
  - intros el p Hel Hp. specialize (Hsync el Hel). rewrite get_update in Hsync.
    destruct (get_tracepoint (el_name el) s) as [e|] eqn:He; [|destruct Hsync; congruence].
    destruct (H2 _ e He) as (p' & fs & (E1 & _) & Hlt & Hr & _). destruct Hsync as [E _].
    assert (p' = p) as -> by congruence. done.
  - intros el [?|(el0 & ? & ->)]%all_elems_update; [auto|]. apply update_key. auto.
Qed.

(** Releasing arrays no entry uses, once the tracepoints are up to date. *)
Lemma release_ok s ps :
  tps_ok s -> synced s -> Forall (unused s) ps -> Forall (fun p => (p < tp_next s)%positive) ps ->
  tps_ok (set_released (tp_released s ++ ps) s).
Proof.
  intros [H1 H2 H3 H4 H5 H6] Hsync Hun Hlt. pose proof (proj1 (Forall_forall _ _) Hun) as Hun'.
  split; [by destruct H1| |done| | |done].
  - intros n e He. destruct (H2 n e He) as (p & fs & Hok & Hp & Hr & Ho). exists p, fs. split; [done|].
    split; [done|]. split; [|done]. simpl. rewrite elem_of_app. intros [?|Hin]; [done|].
    by destruct Hok as [E _]; apply (Hun' p Hin n e He).
  - simpl. apply Forall_app in H4 as [? ?]. by rewrite !Forall_app.
  - intros el p Hel Hp. destruct (H5 el p Hel Hp) as [? Hr]. split; [done|]. simpl.
    rewrite elem_of_app. intros [?|Hin]; [done|]. specialize (Hsync el Hel).
    change (get_tracepoint (el_name el) s) with (get_tracepoint (el_name el) s) in Hsync.
    destruct (get_tracepoint (el_name el) s) as [e|] eqn:He; [|destruct Hsync; congruence].
    destruct Hsync as [E _]. apply (Hun' p Hin _ _ He). congruence.
Qed.

(** ** The operations on the registry *)

Lemma changed_same_synced s s' name : synced s -> changed s s' name (get_tracepoint name s) -> synced s'.
Proof.
  intros Hs Hc el. unfold elems. rewrite (ch_core _ _ _ _ Hc), (ch_modules _ _ _ _ Hc). intros Hel. specialize (Hs el Hel).
  rewrite (ch_get _ _ _ _ Hc). case_decide as E; [by rewrite <- E|done].
Qed.

(** The end of a successful operation with an update: the old array has become
    unused and is released. *)
Lemma finish_ok s s' name o (old : option positive) :
  tps_ok s -> changed s s' name o -> get_tracepoint name s ≫= en_funcs = old ->
  (forall e, get_tracepoint name s = Some e -> o <> Some e) ->
  tps_ok (release_probes old (tracepoint_update_probes s')) /\
  synced (release_probes old (tracepoint_update_probes s')) /\
  (forall n, probes (release_probes old (tracepoint_update_probes s')) n = probes s' n).
Proof.
  intros Hs Hc Hold Hne. pose proof (changed_ok _ _ _ _ Hs Hc) as Hs'.
  pose proof (update_ok s' Hs') as Hu. pose proof (update_synced s' Hs') as Hy.
  destruct old as [p|]; [|done]. cbn [release_probes]. split; [|done].
  destruct (get_tracepoint name s) as [e0|] eqn:He; [|done]. simpl in Hold.
  destruct (ok_entry s Hs name e0 He) as (p0 & fs & Hok & Hlt & _).
  assert (p0 = p) as -> by (destruct Hok; congruence).
  apply release_ok; [done|done| |].
  - constructor; [|done]. intros n e' He'.
    exact (changed_unused s s' name o p fs e0 Hs He Hok Hc (Hne e0 eq_refl) n e' He').
  - constructor; [|done]. simpl. pose proof (ch_next _ _ _ _ Hc). lia.
Qed.

Lemma fresh_differs s name e p :
  tps_ok s -> (tp_next s <= p)%positive -> en_funcs e = Some p ->
  forall e0, get_tracepoint name s = Some e0 -> Some e <> Some e0.
Proof.
  intros Hs Hp He e0 He0 [= ->]. destruct (ok_entry s Hs name e0 He0) as (p0 & fs0 & (E & _) & Hlt & _).
  rewrite He in E. simplify_eq. lia.
Qed.

Definition registered (s s' : tracepoints) (name : list Z) (probe data ret : Z) (alloc : bool) : Prop :=
  ((probe, data) ∈ probes s name) /\ ret = - EEXIST /\ (forall n, probes s' n = probes s n) \/
  ((probe, data) ∉ probes s name) /\ ret = - ENOMEM /\ alloc = false /\ (forall n, probes s' n = probes s n) \/
  ((probe, data) ∉ probes s name) /\ ret = 0 /\
    (forall n, probes s' n = if decide (n = name) then probes s name ++ [(probe, data)] else probes s n).

(** Whatever the state of the tracepoints before. *)
Lemma register_any em am name probe data s :
  tps_ok s -> probe <> 0 ->
  let '(ret, s') := tracepoint_probe_register em am name probe data s in
  tps_ok s' /\ registered s s' name probe data ret (em && am) /\ (ret = 0 -> synced s') /\
  (ret <> 0 -> tp_core s' = tp_core s /\ tp_modules s' = tp_modules s) /\ (synced s -> synced s').
Proof.
  intros Hs Hp. unfold tracepoint_probe_register, registered.
  pose proof (tracepoint_add_probe_spec em am name probe data s Hs Hp) as H.
  destruct (tracepoint_add_probe em am name probe data s) as [old s'].
  destruct H as [s' Hin Hc|s' Hin Ha Hc|s' e p Hin Hc Hok Hfr].
  - split; [by eapply changed_ok|]. split.
    { left. split; [done|]. split; [done|]. intros n. by eapply changed_same_probes. }
    split; [done|]. split; [by destruct Hc|]. intros. by eapply changed_same_synced.
  - split; [by eapply changed_ok|]. split.
    { right. left. do 3 (split; [done|]). intros n. by eapply changed_same_probes. }
    split; [done|]. split; [by destruct Hc|]. intros. by eapply changed_same_synced.
  - destruct (finish_ok s s' name (Some e) _ Hs Hc eq_refl) as (H1 & H2 & H3).
    { eapply fresh_differs; [done|done|apply Hok]. }
    split; [done|]. split; [|by split_and!]. right. right. split; [done|]. split; [done|]. intros n. rewrite H3.
    case_decide as Hn; [|by eapply changed_probes]. subst n. unfold probes at 1.
    rewrite (ch_get _ _ _ _ Hc), decide_True by done. pose proof Hok as (-> & _). by eapply entry_ok_live.
Qed.

Lemma tracepoint_probe_register_ok em am name probe data s :
  tps_ok s -> synced s -> probe <> 0 ->
  let '(ret, s') := tracepoint_probe_register em am name probe data s in
  tps_ok s' /\ synced s' /\ registered s s' name probe data ret (em && am).
Proof.
  intros Hs Hy Hp. pose proof (register_any em am name probe data s Hs Hp) as H.
  destruct (tracepoint_probe_register _ _ _ _ _ s). destruct H as (H1 & H2 & _ & _ & H3). auto.
Qed.

Definition unregistered (s s' : tracepoints) (name : list Z) (probe data ret : Z) (alloc : bool) : Prop :=
  get_tracepoint name s = None /\ ret = - ENOENT /\ s' = s \/
  kept probe data (probes s name) <> [] /\ ret = - ENOMEM /\ alloc = false /\ (forall n, probes s' n = probes s n) \/
  get_tracepoint name s <> None /\ ret = 0 /\
    (forall n, probes s' n = if decide (n = name) then kept probe data (probes s name) else probes s n).

Lemma tracepoint_probe_unregister_ok am name probe data s :
  tps_ok s -> synced s ->
  let '(ret, s') := tracepoint_probe_unregister am name probe data s in
  tps_ok s' /\ synced s' /\ unregistered s s' name probe data ret am.
Proof.
  intros Hs Hy. unfold tracepoint_probe_unregister, unregistered.
  pose proof (tracepoint_remove_probe_spec am name probe data s Hs) as H.
  destruct (tracepoint_remove_probe am name probe data s) as [old s'].
  destruct H as [He|s' Hk Ha Hc|s' e He Hk Hc|s' e e' p He Hk Hc Hok Hfr].
  - auto 8.
  - split; [by eapply changed_ok|]. split; [by eapply changed_same_synced|]. right. left.
    do 3 (split; [done|]). intros n. by eapply changed_same_probes.
  - destruct (finish_ok s s' name None (en_funcs e) Hs Hc) as (H1 & H2 & H3); [by rewrite He|done|].
    split; [done|]. split; [done|]. right. right. split; [congruence|]. split; [done|]. intros n. rewrite H3.
    case_decide as Hn; [|by eapply changed_probes]. subst n. rewrite Hk. unfold probes.
    by rewrite (ch_get _ _ _ _ Hc), decide_True.
  - destruct (finish_ok s s' name (Some e') (en_funcs e) Hs Hc) as (H1 & H2 & H3);
      [by rewrite He| |].
    { eapply fresh_differs; [done|done|apply Hok]. }
    split; [done|]. split; [done|]. right. right. split; [congruence|]. split; [done|]. intros n. rewrite H3.
    case_decide as Hn; [|by eapply changed_probes]. subst n. unfold probes at 1.
    rewrite (ch_get _ _ _ _ Hc), decide_True by done. pose proof Hok as (-> & _). by eapply entry_ok_live.
Qed.

(** The operations without an update: the old array is kept until the next
    [tracepoint_probe_update_all]. *)
Lemma add_old_ok s s' name o :
  tps_ok s -> changed s s' name o ->
  (forall e, get_tracepoint name s = Some e -> o <> Some e) ->
  tps_ok (tracepoint_add_old_probes (get_tracepoint name s ≫= en_funcs) s').
Proof.
  intros Hs Hc Hne. pose proof (changed_ok _ _ _ _ Hs Hc) as [H1 H2 H3 H4 H5 H6].
  destruct (get_tracepoint name s) as [e0|] eqn:He; [|by split; [destruct H1; by split|..]].
  destruct (ok_entry s Hs name e0 He) as (p & fs & Hok & Hlt & Hr & Ho). pose proof Hok as (E & _).
  simpl. rewrite E. split; [destruct H1; by split| |done| |done|done].
  - intros n e He'. destruct (H2 n e He') as (p' & fs' & Hok' & Hp' & Hr' & Ho'). exists p', fs'.
    do 3 (split; [done|]). simpl. rewrite not_elem_of_cons. split; [|done]. intros ->.
    pose proof (changed_unused s s' name o p fs e0 Hs He Hok Hc (Hne e0 eq_refl) n e He') as Hun.
    by destruct Hok'.
  - simpl. apply Forall_app in H4 as [? ?]. apply Forall_app. split; [done|]. constructor; [|done].
    pose proof (ch_next _ _ _ _ Hc). lia.
Qed.

Lemma tracepoint_probe_register_noupdate_ok em am name probe data s :
  tps_ok s -> probe <> 0 -> tps_ok (tracepoint_probe_register_noupdate em am name probe data s).2.
Proof.
  intros Hs Hp. unfold tracepoint_probe_register_noupdate.
  pose proof (tracepoint_add_probe_spec em am name probe data s Hs Hp) as H.
  destruct (tracepoint_add_probe em am name probe data s) as [old s'].
  destruct H as [s' _ Hc|s' _ _ Hc|s' e p _ Hc Hok Hfr]; [by eapply changed_ok|by eapply changed_ok|].
  eapply add_old_ok; [done|done|]. eapply fresh_differs; [done|done|apply Hok].
Qed.

Lemma tracepoint_probe_unregister_noupdate_ok am name probe data s :
  tps_ok s -> tps_ok (tracepoint_probe_unregister_noupdate am name probe data s).2.
Proof.
  intros Hs. unfold tracepoint_probe_unregister_noupdate.
  pose proof (tracepoint_remove_probe_spec am name probe data s Hs) as H.
  destruct (tracepoint_remove_probe am name probe data s) as [old s'].
  destruct H as [He|s' Hk Ha Hc|s' e He Hk Hc|s' e e' p He Hk Hc Hok Hfr]; [done|by eapply changed_ok|..];
    replace (en_funcs e) with (get_tracepoint name s ≫= en_funcs) by (by rewrite He);
    (eapply add_old_ok; [done|done|]); [done|]. eapply fresh_differs; [done|done|apply Hok].
Qed.

Lemma tracepoint_probe_update_all_ok s :
  tps_ok s -> tps_ok (tracepoint_probe_update_all s).
Proof.
  intros Hs. unfold tracepoint_probe_update_all. case_match; [done|]. cbv zeta.
  assert (tps_ok (set_old_probes [] 0 s)) as H0.
  { destruct Hs as [H1 H2 H3 H4 H5 H6]. split; [destruct H1; by split| |done| |done|done].
    - intros n e He. destruct (H2 n e He) as (p & fs & Hok & Hp & Hr & _). exists p, fs.
      do 3 (split; [done|]). apply not_elem_of_nil.
    - simpl. rewrite app_nil_r. by apply Forall_app in H4 as [? _]. }
  apply release_ok; [by apply update_ok|by apply update_synced| |].
  - apply Forall_forall. intros p Hp n e He Hf.
    destruct (ok_entry s Hs n e He) as (p' & fs & (E & _) & _ & _ & Ho). congruence.
  - destruct Hs as [_ _ _ H4 _ _]. by apply Forall_app in H4 as [_ ?].
Qed.

(** Notifying a module updates its tracepoints; those of the other modules and
    of the kernel stay as they are. *)
Lemma elems_notify s i m l h el :
  tp_modules s !! i = Some m -> el ∈ elems (set_modules (<[i := MkMod (mod_taints m) l]> (tp_modules s)) h s) ->
  el ∈ elems s \/ el ∈ l.
Proof.
  unfold elems. simpl. rewrite !elem_of_app. intros Hi [?|Hin]; [auto|].
  revert i Hi Hin. induction (tp_modules s) as [|m0 ms IH]; intros [|i]; simpl; try done.
  - intros [= ->]. destruct (mod_taints m) eqn:E; simpl; [auto|]. rewrite !elem_of_app. tauto.
  - intros Hi. destruct (mod_taints m0); simpl; [eauto|]. rewrite !elem_of_app. intros [?|Hin]; [auto|].
    destruct (IH i Hi Hin) as [[?|?]|?]; auto.
Qed.

Lemma all_elems_notify s i m l h el :
  tp_modules s !! i = Some m -> el ∈ all_elems (set_modules (<[i := MkMod (mod_taints m) l]> (tp_modules s)) h s) ->
  el ∈ all_elems s \/ el ∈ l.
Proof.
  unfold all_elems. simpl. rewrite !elem_of_app. intros Hi [?|Hin]; [auto|].
  revert i Hi Hin. induction (tp_modules s) as [|m0 ms IH]; intros [|i]; simpl; try done.
  - intros [= ->]. rewrite !elem_of_app. tauto.
  - intros Hi. rewrite !elem_of_app. intros [?|Hin]; [auto|]. destruct (IH i Hi Hin) as [[?|?]|?]; auto.
Qed.

Lemma module_elem s i m el : tp_modules s !! i = Some m -> el ∈ mod_tracepoints m -> el ∈ all_elems s.
Proof.
  intros Hm Hel. unfold all_elems. apply elem_of_app. right. revert i Hm.
  induction (tp_modules s) as [|m0 ms IH]; intros [|i]; simpl; try done; rewrite elem_of_app.
  - intros [= ->]. auto.
  - eauto.
Qed.

Lemma tracepoint_module_notify_ok i s : tps_ok s -> tps_ok (tracepoint_module_notify i s).
Proof.
  intros Hs. unfold tracepoint_module_notify. destruct (tp_modules s !! i) as [m|] eqn:Hm; [|done].
  unfold tracepoint_update_probe_range.
  assert (forall el, el ∈ fst <$> (update_one s <$> mod_tracepoints m) ->
    (forall p, el_funcs el = Some p -> (p < tp_next s)%positive /\ (p ∉ tp_released s)) /\
    (el_key el = 0 \/ el_key el = 1)) as Hnew.
  { intros el (x & -> & (el0 & -> & Hin)%list_elem_of_fmap)%list_elem_of_fmap.
    pose proof (update_one_synced s el0 Hs (ok_keys s Hs el0 (module_elem s i m el0 Hm Hin))) as Hy.
    destruct (get_tracepoint (el_name el0) s) as [e|] eqn:He; destruct Hy as [E1 E2]; [|split; [congruence|auto]].
    destruct (ok_entry s Hs _ e He) as (p' & fs & (E & _) & Hlt & Hr & _). split; [|auto].
    intros p Hp. assert (p' = p) as -> by congruence. done. }
  destruct Hs as [H1 H2 H3 H4 H5 H6]. split; [destruct H1; by split|done|done|done| |].
  - intros el p Hel Hp. destruct (elems_notify s i m _ _ el Hm Hel) as [?|H]; [by apply (H5 el p)|].
    by apply (proj1 (Hnew el H)).
  - intros el Hel. destruct (all_elems_notify s i m _ _ el Hm Hel) as [?|H]; [by apply H6|].
    by apply (proj2 (Hnew el H)).
Qed.

(** ** Theorems *)

(** C30: registering a probe that is not NULL, with a well-formed table
    ([tps_ok]) and tracepoints in any state. It is appended to the probes of the name and to no
    others; it fails with EEXIST if it is registered already and with ENOMEM
    only if an allocation fails, and then every name keeps its probes and no
    tracepoint is touched. After a call that succeeds the tracepoints of the
    core kernel and of all modules that are not tainted are up to date, also
    those that were not before: they are enabled and point to the probes of
    their name exactly when there are any. *)
Theorem register_correct (em am : bool) (name : list Z) (probe data : Z) (s : tracepoints) :
  tps_ok s -> probe <> 0 ->
  let '(ret, s') := tracepoint_probe_register em am name probe data s in
  tps_ok s' /\ registered s s' name probe data ret (em && am) /\ (ret = 0 -> synced s') /\
  (ret <> 0 -> tp_core s' = tp_core s /\ tp_modules s' = tp_modules s) /\ (synced s -> synced s').
Proof. apply register_any. Qed.

(** C31: unregistering a probe. It is removed from the probes of the name, in
    whose order nothing else changes; with no probe registered under the name
    the result is ENOENT, and ENOMEM only if the allocation of the shorter
    array fails. *)
Theorem unregister_correct (am : bool) (name : list Z) (probe data : Z) (s : tracepoints) :
  tps_ok s -> synced s ->
  let '(ret, s') := tracepoint_probe_unregister am name probe data s in
  tps_ok s' /\ synced s' /\ unregistered s s' name probe data ret am.
Proof. apply tracepoint_probe_unregister_ok. Qed.

Lemma trace_probes (s : tracepoints) (el : tracepoint) :
  tps_ok s -> synced s -> el ∈ elems s -> trace s el = probes s (el_name el).
Proof.
  intros Hs Hy Hel. specialize (Hy el Hel). unfold trace, probes.
  destruct (get_tracepoint (el_name el) s) as [e|] eqn:He; destruct Hy as [-> ->]; [|done].
  destruct (ok_entry s Hs _ e He) as (p & fs & (E1 & E2 & E3 & _ & E5 & _) & _). rewrite E1.
  unfold array. rewrite E2. simpl. rewrite live_cells by done. destruct fs as [|f fs]; [done|].
  simpl. rewrite live_cells; [done|]. by inversion E5.
Qed.

(** The call site of a tracepoint calls the probes registered under its
    name, in the order of registration, and none if there are none. *)
Theorem trace_calls_registered (s : tracepoints) (el : tracepoint) :
  tps_ok s -> synced s -> el ∈ elems s -> trace s el = probes s (el_name el).
Proof. apply trace_probes. Qed.

(** A probe that was registered and is unregistered again leaves no trace:
    every name has the probes it had before. *)
Theorem register_unregister (name : list Z) (probe data : Z) (s : tracepoints) :
  tps_ok s -> synced s -> probe <> 0 -> (probe, data) ∉ probes s name ->
  let '(ret1, s1) := tracepoint_probe_register true true name probe data s in
  let '(ret2, s2) := tracepoint_probe_unregister true name probe data s1 in
  ret1 = 0 /\ ret2 = 0 /\ forall n, probes s2 n = probes s n.
Proof.
  intros Hs Hy Hp Hn. pose proof (tracepoint_probe_register_ok true true name probe data s Hs Hy Hp) as H.
  destruct (tracepoint_probe_register _ _ _ _ _ s) as [ret1 s1]. destruct H as (Hs1 & Hy1 & H).
  destruct H as [(? & _)|[(_ & _ & ? & _)|(_ & -> & Hpr)]]; [done|done|].
  pose proof (tracepoint_probe_unregister_ok true name probe data s1 Hs1 Hy1) as H.
  destruct (tracepoint_probe_unregister _ _ _ _ s1) as [ret2 s2]. destruct H as (_ & _ & H).
  assert (probes s1 name = probes s name ++ [(probe, data)]) as Hname by (by rewrite Hpr, decide_True).
  destruct H as [(Hg & _)|[(_ & _ & ? & _)|(_ & -> & Hpr2)]]; [|done|].
  { unfold probes in Hname at 1. rewrite Hg in Hname. by destruct (probes s name). }
  split; [done|]. split; [done|]. intros n. rewrite Hpr2, Hname, Hpr. case_decide as E; [|done]. subst n.
  unfold kept. rewrite List.filter_app. simpl. unfold same_probe at 2. simpl.
  rewrite !Z.eqb_refl, andb_false_r, app_nil_r. rewrite (proj2 (Z.eqb_neq probe 0) Hp). simpl.
  revert Hn. generalize (probes s name) as fs. clear. induction fs as [|f fs IH]; [done|].
  rewrite not_elem_of_cons. intros [Hf Hn]. simpl. rewrite IH by done.
  destruct (same_probe probe data f) eqn:E; [|done]. exfalso. apply Hf. destruct f as [a b].
  unfold same_probe in E. simpl in E. apply andb_true_iff in E as [->%Z.eqb_eq ->%Z.eqb_eq]. done.
Qed.

(** The operations in any order. *)
Inductive tp_op :=
  | TpRegister (em am : bool) (name : list Z) (probe data : Z)
  | TpUnregister (am : bool) (name : list Z) (probe data : Z)
  | TpRegisterNoupdate (em am : bool) (name : list Z) (probe data : Z)
  | TpUnregisterNoupdate (am : bool) (name : list Z) (probe data : Z)
  | TpUpdateAll
  | TpModule (i : nat).

Definition tp_step (o : tp_op) (s : tracepoints) : tracepoints :=
  match o with
  | TpRegister em am name probe data => (tracepoint_probe_register em am name probe data s).2
  | TpUnregister am name probe data => (tracepoint_probe_unregister am name probe data s).2
  | TpRegisterNoupdate em am name probe data => (tracepoint_probe_register_noupdate em am name probe data s).2
  | TpUnregisterNoupdate am name probe data => (tracepoint_probe_unregister_noupdate am name probe data s).2
  | TpUpdateAll => tracepoint_probe_update_all s
  | TpModule i => tracepoint_module_notify i s
  end.

Definition tp_run (ops : list tp_op) (s : tracepoints) : tracepoints := foldl (fun s o => tp_step o s) s ops.

(** The probe is not NULL where one is registered. *)
Definition tp_op_ok (o : tp_op) : Prop :=
  match o with
  | TpRegister _ _ _ probe _ | TpRegisterNoupdate _ _ _ probe _ => probe <> 0
  | _ => True
  end.

(** The state at boot: an empty table, and no tracepoint connected. *)
Definition tps_boot (core : list tracepoint) (modules : list module) : tracepoints :=
  MkTps (replicate 64 []) ∅ 1 core modules [] [] 0 [].

Definition disconnected (el : tracepoint) : Prop := el_key el = 0 /\ el_funcs el = None.

Lemma get_boot core modules n : get_tracepoint n (tps_boot core modules) = None.
Proof.
  unfold get_tracepoint, chain, tps_boot. cbn [tp_table]. pose proof (bucket_lt n).
  by rewrite lookup_replicate_2.
Qed.

Lemma tps_boot_ok core modules :
  Forall disconnected (all_elems (tps_boot core modules)) ->
  tps_ok (tps_boot core modules) /\ synced (tps_boot core modules).
Proof.
  intros Hd. pose proof (proj1 (Forall_forall _ _) Hd) as Hd'. pose proof (get_boot core modules) as Hg. split.
  - split.
    + split; [done|]. intros b l [-> _]%lookup_replicate. constructor.
    + intros n e. by rewrite Hg.
    + intros n1 n2 e1 e2. by rewrite Hg.
    + done.
    + intros el p Hel. destruct (Hd' el (elems_all _ _ Hel)). congruence.
    + intros el Hel. destruct (Hd' el Hel). auto.
  - intros el Hel. rewrite Hg. by destruct (Hd' el (elems_all _ _ Hel)).
Qed.

Lemma register_keeps_ok em am name probe data s :
  tps_ok s -> probe <> 0 -> tps_ok (tracepoint_probe_register em am name probe data s).2.
Proof.
  intros Hs Hp. unfold tracepoint_probe_register.
  pose proof (tracepoint_add_probe_spec em am name probe data s Hs Hp) as H.
  destruct (tracepoint_add_probe em am name probe data s) as [old s'].
  destruct H as [s' _ Hc|s' _ _ Hc|s' e p _ Hc Hok Hfr]; [by eapply changed_ok|by eapply changed_ok|].
  eapply finish_ok; [done|done|done|]. eapply fresh_differs; [done|done|apply Hok].
Qed.

Lemma unregister_keeps_ok am name probe data s :
  tps_ok s -> tps_ok (tracepoint_probe_unregister am name probe data s).2.
Proof.
  intros Hs. unfold tracepoint_probe_unregister.
  pose proof (tracepoint_remove_probe_spec am name probe data s Hs) as H.
  destruct (tracepoint_remove_probe am name probe data s) as [old s'].
  destruct H as [He|s' Hk Ha Hc|s' e He Hk Hc|s' e e' p He Hk Hc Hok Hfr]; [done|by eapply changed_ok|..];
    (eapply finish_ok; [done|done|by rewrite He|]); [done|]. eapply fresh_differs; [done|done|apply Hok].
Qed.

Lemma tp_run_ok ops s : tps_ok s -> Forall tp_op_ok ops -> tps_ok (tp_run ops s).
Proof.
  intros Hs Hops. revert s Hs. induction Hops as [|o ops Ho Hops IH]; intros s Hs; [done|]. simpl. apply IH.
  destruct o; simpl in *; auto using register_keeps_ok, unregister_keeps_ok,
    tracepoint_probe_register_noupdate_ok, tracepoint_probe_unregister_noupdate_ok,
    tracepoint_probe_update_all_ok, tracepoint_module_notify_ok.
Qed.

(** C4: probe arrays are not used after they are freed. Whatever operations
    run, with or without an update, no tracepoint of the kernel or of a module
    that is not tainted points to an array that was handed to
    [call_rcu_sched]. *)
Theorem released_not_used (core : list tracepoint) (modules : list module) (ops : list tp_op)
    (el : tracepoint) (p : positive) :
  Forall disconnected (all_elems (tps_boot core modules)) -> Forall tp_op_ok ops ->
  el ∈ elems (tp_run ops (tps_boot core modules)) -> el_funcs el = Some p ->
  p ∉ tp_released (tp_run ops (tps_boot core modules)).
Proof.
  intros Hd Hops Hel Hp. destruct (tps_boot_ok core modules Hd) as [Hs _].
  by apply (ok_elems _ (tp_run_ok ops _ Hs Hops) el p).
Qed.

Definition tp_a : tracepoint := MkEl [97] 0 false false None.

(** With a tainted module that is not so. The module's tracepoints are
    connected when it is loaded, but [module_update_tracepoints] skips it when
    the probe is unregistered: its call site then still runs through the freed
    array. *)
Theorem tainted_module_uses_freed :
  let s := tp_run [TpRegister true true [97] 4096 0; TpModule 0; TpUnregister true [97] 4096 0]
             (tps_boot [tp_a] [MkMod true [tp_a]]) in
  tp_released s = [1%positive] /\ probes s [97] = [] /\
  (forall el, el ∈ tp_core s -> trace s el = []) /\
  exists el, mod_tracepoints <$> tp_modules s = [[el]] /\ el_funcs el = Some 1%positive /\
    trace s el = [(4096, 0)].
Proof.
  intros s. split; [reflexivity|]. split; [reflexivity|]. split.
  - assert (tp_core s = [tp_a]) as -> by (vm_compute; reflexivity).
    intros el ->%list_elem_of_singleton. reflexivity.
  - eexists. split; [vm_compute; reflexivity|]. split; reflexivity.
Qed.

(** ** Witnesses: one probe on one of two tracepoints *)

Definition tp_b : tracepoint := MkEl [98] 0 false false None.
Definition two : tracepoints := tps_boot [tp_a; tp_b] [].
Definition one_probe : tracepoints := (tracepoint_probe_register true true [97] 4096 7 two).2.

Lemma two_ok : tps_ok two /\ synced two.
Proof. apply tps_boot_ok. repeat constructor. Qed.

Lemma register_synced em am name probe data s :
  tps_ok s -> synced s -> probe <> 0 ->
  tps_ok (tracepoint_probe_register em am name probe data s).2 /\
  synced (tracepoint_probe_register em am name probe data s).2.
Proof.
  intros Hs Hy Hp. pose proof (tracepoint_probe_register_ok em am name probe data s Hs Hy Hp) as H.
  destruct (tracepoint_probe_register _ _ _ _ _ s). by destruct H as (? & ? & _).
Qed.

Lemma one_probe_ok : tps_ok one_probe /\ synced one_probe.
Proof. apply register_synced; [apply two_ok|apply two_ok|lia]. Qed.

Lemma register_correct_witness :
  let '(ret, s') := tracepoint_probe_register true true [98] 8192 0 one_probe in
  tps_ok s' /\ registered one_probe s' [98] 8192 0 ret (true && true) /\ (ret = 0 -> synced s') /\
  (ret <> 0 -> tp_core s' = tp_core one_probe /\ tp_modules s' = tp_modules one_probe) /\ (synced one_probe -> synced s').
Proof. exact (register_correct true true [98] 8192 0 one_probe (proj1 one_probe_ok) ltac:(lia)). Defined.

Lemma unregister_correct_witness :
  let '(ret, s') := tracepoint_probe_unregister true [97] 4096 7 one_probe in
  tps_ok s' /\ synced s' /\ unregistered one_probe s' [97] 4096 7 ret true.
Proof. exact (unregister_correct true [97] 4096 7 one_probe (proj1 one_probe_ok) (proj2 one_probe_ok)). Defined.

Lemma trace_calls_registered_witness :
  exists el, el ∈ elems one_probe /\ el_name el = [97] /\ trace one_probe el = probes one_probe [97] /\
    probes one_probe [97] = [(4096, 7)].
Proof.
  exists (MkEl [97] 1 false false (Some 1%positive)).
  assert (MkEl [97] 1 false false (Some 1%positive) ∈ elems one_probe) as Hel by (vm_compute; left).
  split; [exact Hel|]. split; [reflexivity|]. split; [|reflexivity].
  exact (trace_calls_registered one_probe (MkEl [97] 1 false false (Some 1%positive))
    (proj1 one_probe_ok) (proj2 one_probe_ok) Hel).
Defined.

Lemma register_unregister_witness :
  let '(ret1, s1) := tracepoint_probe_register true true [97] 8192 0 one_probe in
  let '(ret2, s2) := tracepoint_probe_unregister true [97] 8192 0 s1 in
  ret1 = 0 /\ ret2 = 0 /\ forall n, probes s2 n = probes one_probe n.
Proof.
  assert ((8192, 0) ∉ probes one_probe [97]) as H.
  { change (probes one_probe [97]) with [(4096, 7)]. intros H%list_elem_of_singleton. discriminate H. }
  exact (register_unregister [97] 8192 0 one_probe (proj1 one_probe_ok) (proj2 one_probe_ok) ltac:(lia) H).
Defined.

Lemma released_not_used_witness :
  1%positive ∉ tp_released (tp_run [TpRegister true true [97] 4096 7] two).
Proof.
  apply (released_not_used [tp_a; tp_b] [] [TpRegister true true [97] 4096 7]
    (MkEl [97] 1 false false (Some 1%positive)) 1).
  - repeat constructor.
  - repeat constructor. done.
  - vm_compute. left.
  - reflexivity.
Defined.
