(* ===== verification/Probes.v ===== *)
(** * SEPExtract: the static probes

    [kernel/trace/sepextracttracer/static.c]: the probe functions, what each
    one passes to [trace_entry], the packet extractors with the proc file that
    adds them, and the registration of the probes with the tracepoints of
    [Tracepoint].

    A probe returns the calls of [trace_entry] it makes; [ra] is
    [__builtin_return_address(0)]. Packet memory is a map from addresses to
    bytes; reading an address that is not in it is [None]. *)

From S2P Require Import Prelude Sepext Vsprintf Tracer Tracepoint.
From stdpp Require Import prelude gmap list strings.
From Stdlib Require Import ZArith Lia.

Open Scope Z_scope.
Open Scope list_scope.

(** ** Memory *)

Definition memory : Type := gmap Z Z.

Definition load (m : memory) (n : nat) (a : Z) : option Z :=
  bs ← mapM (fun i => m !! u32 (a + i)) (seqZ 0 (Z.of_nat n));
  Some (le_val bs).

(** [struct pktextr_info]. *)
Record pktextr_info := MkPi { service_id : Z; extract_start : Z; num_bytes : Z }.

(** ** Probes that record one entry *)
Section probes.
Context (ra : Z).

Definition probe_sepext_srventry (address : Z) := MkTe ra SERVICEENTRY 0 0 0 address.
Definition probe_sepext_srvexit (address : Z) := MkTe ra SERVICEEXIT 0 0 0 address.
Definition probe_sepext_peustart (address : Z) := MkTe ra PEUSTART 0 0 0 address.
Definition probe_sepext_peustop (address : Z) := MkTe ra PEUSTOP 0 0 0 address.
Definition probe_sepext_looprestart := MkTe ra LOOPRESTART 0 0 0 0.
Definition probe_sepext_loopstart (maxIterations perQueue from to : Z) :=
  MkTe ra LOOPSTART perQueue from to maxIterations.
Definition probe_sepext_loopstop := MkTe ra LOOPSTOP 0 0 0 0.
Definition probe_sepext_queuecondition (condition : sem_queue_condition) (from to : Z) :=
  MkTe ra QUEUECOND from to (sem_queue_condition_val condition) 0.
Definition probe_sepext_threadcondition (condition : sem_thread_condition) (pid : Z) :=
  MkTe ra THREADCOND pid 0 (sem_thread_condition_val condition) 0.
Definition probe_sepext_statecondition (condition : sem_state_id) (value readwrite global : Z) :=
  MkTe ra STATECOND readwrite global value (sem_state_id_val condition).
Definition probe_sepext_conditionend := MkTe ra CONDEND 0 0 0 0.
Definition probe_sepext_srvqueue (address queue head : Z) (operation : sem_queue_operation) :=
  MkTe ra SRVQUEUE (sem_queue_operation_val operation) queue head address.
Definition probe_sepext_statequeue (queue value : Z) (operation : sem_queue_operation) (scope : Z) :=
  MkTe ra STATEQUEUE (sem_queue_operation_val operation) queue value scope.

Definition probe_sepext_wakeup (location pid : Z) := MkTe location TTWAKEUP pid 0 0 0.
Definition probe_sepext_ctxswitch (prev_pid next_pid : Z) := MkTe 0 CTXSWITCH prev_pid next_pid 0 0.
Definition probe_sepext_migrate (newCPU pid : Z) := MkTe 0 MIGRATE pid newCPU 0 0.
Definition probe_sepext_dequeuerq (location pid flags : Z) := MkTe location SLEEP pid 0 flags 0.
Definition probe_sepext_hirqstart (hirq : Z) := MkTe 0 HIRQSTART hirq 0 0 0.
Definition probe_sepext_hirqstop (hirq : Z) := MkTe 0 HIRQSTOP hirq 0 0 0.

Definition probe_sepext_tempsynch (location : Z) (type : sem_synch_type) (variable : Z) (scope : sem_synch_scope) :=
  MkTe location TEMPSYNCH (sem_synch_scope_val scope) 0 (sem_synch_type_val type) variable.
Definition probe_sepext_semaphore_up (location x : Z) (scope : sem_synch_scope) :=
  MkTe location SEMUP (sem_synch_scope_val scope) 0 0 x.
Definition probe_sepext_semaphore_down (location x : Z) (scope : sem_synch_scope) :=
  MkTe location SEMDOWN (sem_synch_scope_val scope) 0 0 x.
Definition probe_sepext_wait_for_completion (location x : Z) (scope : sem_synch_scope) :=
  MkTe location WAITCOMPL (sem_synch_scope_val scope) 0 0 x.
Definition probe_sepext_wait_for_completion_timeout (location x timeout : Z) (scope : sem_synch_scope) :=
  MkTe location WAITCOMPL (sem_synch_scope_val scope) 0 0 x.
Definition probe_sepext_wait_for_completion_interruptible (location x : Z) (scope : sem_synch_scope) :=
  MkTe location WAITCOMPL (sem_synch_scope_val scope) 0 0 x.
Definition probe_sepext_wait_for_completion_interruptible_timeout (location x timeout : Z) (scope : sem_synch_scope) :=
  MkTe location WAITCOMPL (sem_synch_scope_val scope) 0 0 x.
Definition probe_sepext_wait_for_completion_killable (location x : Z) (scope : sem_synch_scope) :=
  MkTe location WAITCOMPL (sem_synch_scope_val scope) 0 0 x.
Definition probe_sepext_wait_for_completion_killable_timeout (location x timeout : Z) (scope : sem_synch_scope) :=
  MkTe location WAITCOMPL (sem_synch_scope_val scope) 0 0 x.
Definition probe_sepext_try_wait_for_completion (location x : Z) (scope : sem_synch_scope) :=
  MkTe location WAITCOMPL (sem_synch_scope_val scope) 0 0 x.
Definition probe_sepext_complete (location x : Z) (scope : sem_synch_scope) :=
  MkTe location COMPL (sem_synch_scope_val scope) 0 0 x.
Definition probe_sepext_complete_all (location x : Z) (scope : sem_synch_scope) :=
  MkTe location COMPL (sem_synch_scope_val scope) 0 0 x.

(** The probes the file keeps under the heading "deprecated". *)
Definition probe_sepext_pktenq (address : Z) := MkTe ra PKTENQ 0 0 0 address.
Definition probe_sepext_pktdeq (address : Z) := MkTe ra PKTDEQ 0 0 0 address.
Definition probe_sepext_pktstart := MkTe ra PKTSTART 0 0 0 0.
Definition probe_sepext_pktstop := MkTe ra PKTSTOP 0 0 0 0.
Definition probe_sepext_enqueuerq (location pid flags : Z) := MkTe location WAKEUP pid 0 flags 0.
Definition probe_list_add_tail (head : Z) := MkTe ra ENQUEUE 0 0 0 head.
Definition probe_sepext_softirqraise (nr : Z) := MkTe ra SIRQRAISE nr 0 0 0.
Definition probe_sepext_softirqstart (sirq : Z) := MkTe ra SOFTIRQSTART sirq 0 0 0.
Definition probe_sepext_softirqstop (sirq : Z) := MkTe ra SOFTIRQSTOP sirq 0 0 0.
Definition probe_sepext_taskletstart (tasklet : Z) := MkTe ra TASKLETSTART tasklet 0 0 0.
Definition probe_sepext_taskletstop (tasklet : Z) := MkTe ra TASKLETSTOP tasklet 0 0 0.

(** ** Packet queues *)

(** The value an extractor takes from the packet at [pktdata]. *)
Definition extract (m : memory) (pktdata : Z) (p : pktextr_info) : option Z :=
  if num_bytes p =? 1 then load m 1 (pktdata + extract_start p)
  else if num_bytes p =? 2 then load m 2 (pktdata + extract_start p)
  else load m 4 (pktdata + extract_start p).

(** The two loops over the extractors differ in the condition [sel], which may
    index [sem_queues] out of range. The result has the calls made and whether
    there was one. *)
Fixpoint extract_loop (m : memory) (pktdata queue head : Z) (op : sem_queue_operation)
    (sel : pktextr_info -> option bool) (extracted : bool) (l : list pktextr_info)
    : option (list te_args * bool) :=
  match l with
  | [] => Some ([], extracted)
  | p :: l' =>
      c ← sel p;
      if (c : bool) then
        let typeToTrace := if extracted then PKTQUEUEN else PKTQUEUE in
        v ← extract m pktdata p;
        '(r, x) ← extract_loop m pktdata queue head op sel true l';
        Some (MkTe ra typeToTrace (sem_queue_operation_val op) queue v head :: r, x)
      else extract_loop m pktdata queue head op sel extracted l'
  end.

Definition probe_sepext_pktqueue (m : memory) (qs : list sem_queue_struct) (pi_entries : list pktextr_info)
    (num_pi_entries : Z) (pktdata queue head : Z) (op : sem_queue_operation) : option (list te_args) :=
  if pktdata =? 0 then Some [MkTe ra PKTQUEUE (sem_queue_operation_val op) queue 0 head]
  else
    let l := take (Z.to_nat num_pi_entries) pi_entries in
    '(r, extracted) ←
      (if negb (queue =? 0) then
         extract_loop m pktdata queue head op (fun p => Some (service_id p =? queue)) false l
       else if negb (head =? 0) then
         extract_loop m pktdata queue head op
           (fun p => q ← zget qs (service_id p); Some (sq_head q =? head)) false l
       else Some ([], false));
    if (extracted : bool) then Some r
    else Some [MkTe ra PKTQUEUE (sem_queue_operation_val op) queue 0 head].

(** ** Packets of the packet generator *)

(** What the probe reads of a [struct sk_buff]: the protocol, in network byte
    order, and the address of the network header. *)
Record sk_buff := MkSkb { skb_protocol : Z; skb_network_header : Z }.

Definition ETH_P_IP : Z := 2048.
Definition IPPROTO_UDP : Z := 17.
Definition PKTGEN_MAGIC : Z := 3197888853. (* 0xbe9be955 *)

Definition probe_sepext_pktextract (skbs : gmap Z sk_buff) (m : memory) (value length global : Z)
    : option (list te_args) :=
  if (global =? 1) || (global =? 2) then
    skb ← skbs !! value;
    if negb (ntohs (skb_protocol skb) =? ETH_P_IP) then Some []
    else
      let ip_header := skb_network_header skb in
      b0 ← load m 1 ip_header;
      if negb (Z.shiftr b0 4 =? 4) then Some []
      else
        protocol ← load m 1 (ip_header + 9);
        if negb (protocol =? IPPROTO_UDP) then Some []
        else
          let ip_hdr_len := Z.land b0 15 * 4 in
          let udp_hdr := ip_header + ip_hdr_len in
          source ← load m 2 udp_hdr;
          dest ← load m 2 (udp_hdr + 2);
          len ← load m 2 (udp_hdr + 4);
          let pg_hdr := udp_hdr + 8 in
          pgh_magic ← load m 4 pg_hdr;
          seq_num ← load m 4 (pg_hdr + 4);
          if negb (ntohl pgh_magic =? PKTGEN_MAGIC) then Some []
          else Some [MkTe ra PKTEXTRACT source global (u32 (ntohl seq_num + 1)) 0]
  else Some [MkTe ra PKTEXTRACT 0 global 0 0].
End probes.

(** ** Adding a packet extractor: the proc file [pktextr] *)

Definition PKTEXTR_STRINGSIZE : Z := 10 + 1 + 10 + 1 + 1 + 2.

Record extractors := MkEx {
  pi_entries : list pktextr_info;  (* MAX_EXTRACTORS of them *)
  num_pi_entries : Z;
  pktextrprocbuffer : list Z }.    (* PKTEXTR_STRINGSIZE bytes *)

(** [user] are the [count] bytes [copy_from_user] leaves in the buffer, [ok]
    whether it succeeds. [None] is a store outside the buffer. *)
Definition add_pktextr (ok : bool) (user : list Z) (count : Z) (s : extractors) : option (Z * extractors) :=
  if MAX_EXTRACTORS <=? num_pi_entries s then Some (-1, s)
  else if PKTEXTR_STRINGSIZE <? count then Some (-1, s)
  else
    b ← zset (pktextrprocbuffer s) count 0;
    let s := MkEx (pi_entries s) (num_pi_entries s) (user ++ drop (length user) b) in
    if negb ok then Some (-1, s)
    else
      '(ret, out) ← sscanf (cstr (pktextrprocbuffer s)) (bytes_of "%u %u %u");
      if ret <? 3 then Some (-1, s)
      else
        es ← zset (pi_entries s) (num_pi_entries s) (MkPi (stored out 0) (stored out 1) (stored out 2));
        Some (s32 count, MkEx es (s32 (num_pi_entries s + 1)) (pktextrprocbuffer s)).

(** [*eof] and the return value. *)
Definition read_pktextr : Z * Z := (1, 0).

(** [probe_sepext_debug]: the new value of [doStackTrace]; [pid] is the current task. *)
Definition probe_sepext_debug (data pid : Z) : Z := if ctrue data then pid else 0.

(** ** From an event to entries *)
Section events.
Context (ra : Z) (m : memory) (skbs : gmap Z sk_buff) (qs : list sem_queue_struct) (ex : extractors).

(** The probe of a tracepoint, applied to the arguments of the event. No probe
    is ever registered for the softirq tracepoints. *)
Definition probe (ev : tp_event) : option (list te_args) :=
  match ev with
  | tp_srventry a => Some [probe_sepext_srventry ra a]
  | tp_srvexit a => Some [probe_sepext_srvexit ra a]
  | tp_ctxswitch p n => Some [probe_sepext_ctxswitch p n]
  | tp_hirqstart i => Some [probe_sepext_hirqstart i]
  | tp_hirqstop i => Some [probe_sepext_hirqstop i]
  | tp_peustart a => Some [probe_sepext_peustart ra a]
  | tp_peustop a => Some [probe_sepext_peustop ra a]
  | tp_pktqueue d q h op => probe_sepext_pktqueue ra m qs (pi_entries ex) (num_pi_entries ex) d q h op
  | tp_srvqueue a q h op => Some [probe_sepext_srvqueue ra a q h op]
  | tp_loopstart mi pq f t => Some [probe_sepext_loopstart ra mi pq f t]
  | tp_looprestart => Some [probe_sepext_looprestart ra]
  | tp_loopstop => Some [probe_sepext_loopstop ra]
  | tp_migrate c p => Some [probe_sepext_migrate c p]
  | tp_queuecondition c f t => Some [probe_sepext_queuecondition ra c f t]
  | tp_statecondition c v rw g => Some [probe_sepext_statecondition ra c v rw g]
  | tp_semaphore_up l s sc => Some [probe_sepext_semaphore_up l s sc]
  | tp_semaphore_down l s sc => Some [probe_sepext_semaphore_down l s sc]
  | tp_wakeup l p => Some [probe_sepext_wakeup l p]
  | tp_dequeuerq l p f => Some [probe_sepext_dequeuerq l p f]
  | tp_wait_for_completion l x sc => Some [probe_sepext_wait_for_completion l x sc]
  | tp_wait_for_completion_timeout l x t sc => Some [probe_sepext_wait_for_completion_timeout l x t sc]
  | tp_wait_for_completion_interruptible l x sc => Some [probe_sepext_wait_for_completion_interruptible l x sc]
  | tp_wait_for_completion_interruptible_timeout l x t sc =>
      Some [probe_sepext_wait_for_completion_interruptible_timeout l x t sc]
  | tp_wait_for_completion_killable l x sc => Some [probe_sepext_wait_for_completion_killable l x sc]
  | tp_wait_for_completion_killable_timeout l x t sc =>
      Some [probe_sepext_wait_for_completion_killable_timeout l x t sc]
  | tp_try_wait_for_completion l x sc => Some [probe_sepext_try_wait_for_completion l x sc]
  | tp_complete l x sc => Some [probe_sepext_complete l x sc]
  | tp_complete_all l x sc => Some [probe_sepext_complete_all l x sc]
  | tp_tempsynch l ty v sc => Some [probe_sepext_tempsynch l ty v sc]
  | tp_softirqraise _ | tp_softirqstart _ | tp_softirqstop _ => Some []
  | tp_pktextract v l g => probe_sepext_pktextract ra skbs m v l g
  end.

(** [stats.ctxcnt++] of the context switch probe. *)
Definition count_switch (ev : tp_event) (s : tracer) : tracer :=
  match ev with tp_ctxswitch _ _ => set_ctxcnt (u32 (ctxcnt s + 1)) s | _ => s end.

(** An event on a CPU that provides [env] to the calls of its probe. *)
Definition fire (env : cpu_env) (ev : tp_event) (s : tracer) : result :=
  calls ← probe ev;
  trace_calls (fun _ => env) 0 calls (count_switch ev s).

(** ** Every probe records entries of a probe type *)

Definition static_call (a : te_args) : Prop := probe_call a /\ te_type a <> __TYPE_FIRST.

Lemma extract_loop_calls d q h op sel b l r x :
  extract_loop ra m d q h op sel b l = Some (r, x) -> Forall static_call r.
Proof.
  revert b r x. induction l as [|p l IH]; intros b r x; cbn [extract_loop]; [by intros [= <- <-]|].
  destruct (sel p) as [[]|]; cbn [mbind option_bind]; [|eauto|done].
  destruct (extract m d p); cbn [mbind option_bind]; [|done].
  destruct (extract_loop _ _ _ _ _ _ _ _ _) as [[r' x']|] eqn:E; cbn [mbind option_bind]; [|done].
  intros [= <- <-]. constructor; [|eauto]. by destruct b.
Qed.

Lemma probe_static ev calls : probe ev = Some calls -> Forall static_call calls.
Proof.
  assert (forall a, static_call a -> Forall static_call [a]) as H1 by (intros; by constructor).
  destruct ev; cbn [probe]; try (intros [= <-]; apply H1; done); try (by intros [= <-]).
  - unfold probe_sepext_pktqueue. case_match; [intros [= <-]; by apply H1|]. cbv zeta.
    match goal with |- context [mbind _ ?o] => destruct o as [[r b]|] eqn:E end; cbn [mbind option_bind]; [|done].
    assert (Forall static_call r) as Hr.
    { revert E. repeat case_match; [by eapply extract_loop_calls..|]. by intros [= <- <-]. }
    destruct b; intros [= <-]; [done|]. by apply H1.
  - unfold probe_sepext_pktextract. case_match; [|intros [= <-]; by apply H1].
    destruct (skbs !! value); cbn [mbind option_bind]; [|done].
    repeat (case_match; cbn [mbind option_bind]; try done; try (by intros [= <-])).
    all: repeat match goal with |- context [mbind _ ?o] => destruct o; cbn [mbind option_bind] end; try done.
    all: repeat case_match; intros [= <-]; try done; by apply H1.
Qed.
End events.

(** An event whose probe can read what it extracts records its entries in
    the log, in order, and keeps the tracer's invariant. *)
Lemma fire_records (ra : Z) (m : memory) (skbs : gmap Z sk_buff) (qs : list sem_queue_struct)
    (ex : extractors) (env : cpu_env) (ev : tp_event) (s : tracer) (calls : list te_args) :
  tracer_ok s -> probe ra m skbs qs ex ev = Some calls ->
  exists s' e, fire ra m skbs qs ex env ev s = Some (s', e) /\ tracer_ok s' /\
    abs s' = foldl (fun lg e => LogSpec.append e lg) (abs s) (make_entry env <$> calls).
Proof.
  intros Hs Hp. pose proof (probe_static ra m skbs qs ex ev calls Hp) as Hst.
  assert (Forall probe_call calls) as Hpc by (eapply Forall_impl; [exact Hst|by intros a []]).
  assert (tracer_ok (count_switch ev s) /\ abs (count_switch ev s) = abs s) as [Hs1 Habs].
  { destruct ev; simpl; auto. by destruct Hs. }
  destruct (trace_calls_log (fun _ => env) 0 calls _ Hs1 Hpc) as (s' & e & E & Hlog & _).
  exists s', e. unfold fire. rewrite Hp. cbn [mbind option_bind]. split; [done|].
  split; [by eapply trace_calls_ok|]. rewrite Hlog, Habs. f_equal.
  clear. generalize 0%nat. induction calls as [|a l IH]; intros k; [done|].
  rewrite call_entries_cons, IH. done.
Qed.

(** ** Packet extractors *)

(** The calls of the matching extractors: the first records a PKTQUEUE entry,
    the others PKTQUEUEN entries. *)
Definition extract_calls (ra queue head : Z) (op : sem_queue_operation) (extracted : bool) (vs : list Z)
    : list te_args :=
  imap (fun i v => MkTe ra (if extracted || negb (i =? 0)%nat then PKTQUEUEN else PKTQUEUE)
                     (sem_queue_operation_val op) queue v head) vs.

Lemma extract_calls_cons ra queue head op b v vs :
  extract_calls ra queue head op b (v :: vs) =
    MkTe ra (if b then PKTQUEUEN else PKTQUEUE) (sem_queue_operation_val op) queue v head
    :: extract_calls ra queue head op true vs.
Proof.
  unfold extract_calls. simpl. rewrite orb_false_r. f_equal. apply imap_ext. intros i x _. simpl.
  by rewrite orb_true_r.
Qed.

Lemma extract_loop_spec ra m d queue head op sel (f : pktextr_info -> bool) b l vs :
  (forall p, p ∈ l -> sel p = Some (f p)) ->
  mapM (extract m d) (List.filter f l) = Some vs ->
  extract_loop ra m d queue head op sel b l =
    Some (extract_calls ra queue head op b vs, b || negb (length vs =? 0)%nat).
Proof.
  revert b vs. induction l as [|p l IH]; intros b vs Hsel; cbn [extract_loop List.filter].
  { intros [= <-]. by rewrite orb_false_r. }
  rewrite (Hsel p) by left. cbn [mbind option_bind].
  assert (forall p, p ∈ l -> sel p = Some (f p)) as Hsel' by (intros; apply Hsel; by right).
  destruct (f p); [|by apply IH]. cbn [mapM]. destruct (extract m d p) as [v|]; [|done]. cbn [mbind option_bind].
  destruct (mapM (extract m d) (List.filter f l)) as [vs'|] eqn:E; [|done]. cbn [mbind option_bind].
  intros [= <-]. rewrite (IH true vs' Hsel' eq_refl). cbn [mbind option_bind].
  rewrite extract_calls_cons. simpl. by rewrite orb_true_r.
Qed.

(** At an identified packet queue the probe records one entry for every
    active extractor of the queue, in the order they were added, with the 1, 2
    or 4 bytes it takes from the packet; without one it records a single entry
    with the value 0. *)
Theorem pktqueue_extracts (ra : Z) (m : memory) (qs : list sem_queue_struct) (entries : list pktextr_info)
    (num pktdata queue head : Z) (op : sem_queue_operation) (vs : list Z) :
  pktdata <> 0 -> queue <> 0 ->
  mapM (extract m pktdata)
    (List.filter (fun p => service_id p =? queue) (take (Z.to_nat num) entries)) = Some vs ->
  probe_sepext_pktqueue ra m qs entries num pktdata queue head op =
    Some (match vs with
          | [] => [MkTe ra PKTQUEUE (sem_queue_operation_val op) queue 0 head]
          | _ => extract_calls ra queue head op false vs
          end).
Proof.
  intros Hd Hq Hvs. unfold probe_sepext_pktqueue.
  rewrite (proj2 (Z.eqb_neq pktdata 0) Hd), (proj2 (Z.eqb_neq queue 0) Hq). cbn [negb].
  rewrite (extract_loop_spec _ _ _ _ _ _ _ _ _ _ _ (fun p _ => eq_refl) Hvs). cbn [mbind option_bind orb].
  by destruct vs.
Qed.

Definition sample_memory : memory :=
  list_to_map (zip (seqZ 4096 8) [11; 22; 33; 44; 55; 66; 77; 88]).

Lemma pktqueue_extracts_witness :
  probe_sepext_pktqueue 64 sample_memory sem_queues [MkPi 6 2 2; MkPi 7 0 1; MkPi 6 4 4] 3 4096 6 900 QUEUE_ENQUEUE
  = Some (extract_calls 64 6 900 QUEUE_ENQUEUE false [33 + 256 * 44; 55 + 256 * (66 + 256 * (77 + 256 * 88))]).
Proof.
  apply (pktqueue_extracts 64 sample_memory sem_queues [MkPi 6 2 2; MkPi 7 0 1; MkPi 6 4 4] 3 4096 6 900 QUEUE_ENQUEUE
    [33 + 256 * 44; 55 + 256 * (66 + 256 * (77 + 256 * 88))]); [lia|lia|vm_compute; reflexivity].
Defined.

(** An extractor for a queue number outside [sem_queues] is accepted, and
    makes the probe index the table out of range as soon as an unidentified
    queue with a known head is traced. *)
Theorem extractor_out_of_range (ra : Z) (m : memory) (op : sem_queue_operation) :
  let ex := MkEx (replicate 100 (MkPi 0 0 0)) 0 (replicate 25 0) in
  exists ex', add_pktextr true (bytes_of "100 0 4") 7 ex = Some (7, ex') /\
    probe_sepext_pktqueue ra m sem_queues (pi_entries ex') (num_pi_entries ex') 4096 0 8192 op = None.
Proof.
  intros ex. exists (MkEx (MkPi 100 0 4 :: replicate 99 (MkPi 0 0 0)) 1 (bytes_of "100 0 4" ++ replicate 18 0)).
  split; [vm_compute; reflexivity|]. reflexivity.
Qed.

(** ** Packets of the packet generator *)

(** The bytes are in memory from address [a] on. *)
Definition mem_at (m : memory) (a : Z) (bytes : list Z) : Prop :=
  forall i b, bytes !! i = Some b -> m !! u32 (a + Z.of_nat i) = Some b.

Lemma load_at m a pre bs post :
  mem_at m a (pre ++ bs ++ post) -> load m (length bs) (a + Z.of_nat (length pre)) = Some (le_val bs).
Proof.
  intros Hm. unfold load. rewrite (mapM_Some_2 _ _ bs); [done|].
  apply Forall2_same_length_lookup_2; [by rewrite length_seqZ, Nat2Z.id|].
  intros i x y [-> Hi]%lookup_seqZ Hy. rewrite <- Z.add_assoc, Z.add_0_l, <- Nat2Z.inj_add.
  apply Hm. rewrite lookup_app_r by lia. replace (length pre + i - length pre)%nat with i by lia.
  by apply lookup_app_l_Some.
Qed.

(** A load at an offset written as a number. *)
Lemma load_field m a pre bs post n off :
  mem_at m a (pre ++ bs ++ post) -> length bs = n -> Z.of_nat (length pre) = off ->
  load m n (a + off) = Some (le_val bs).
Proof. intros Hm <- <-. by eapply load_at. Qed.

Definition be_bytes (n : nat) (x : Z) : list Z := rev (le_bytes n x).

Lemma length_be_bytes n x : length (be_bytes n x) = n.
Proof. unfold be_bytes. rewrite length_rev. apply length_le_bytes. Qed.

(** An IPv4 packet of the packet generator: [hdr1] and [hdr2] are the bytes of
    the IP header before and behind its protocol field. *)
Record pktgen := MkPg {
  pg_ihl : Z; pg_hdr1 : list Z; pg_hdr2 : list Z;
  pg_source : Z; pg_dest : Z; pg_len : Z; pg_check : Z; pg_seq : Z; pg_payload : list Z }.

Definition pktgen_bytes (p : pktgen) : list Z :=
  [64 + pg_ihl p] ++ pg_hdr1 p ++ [IPPROTO_UDP] ++ pg_hdr2 p
  ++ be_bytes 2 (pg_source p) ++ be_bytes 2 (pg_dest p) ++ be_bytes 2 (pg_len p) ++ be_bytes 2 (pg_check p)
  ++ be_bytes 4 PKTGEN_MAGIC ++ be_bytes 4 (pg_seq p) ++ pg_payload p.

Record pktgen_wf (p : pktgen) : Prop := {
  wf_ihl : 5 <= pg_ihl p <= 15;
  wf_hdr1 : length (pg_hdr1 p) = 8%nat;
  wf_hdr2 : Z.of_nat (length (pg_hdr2 p)) = 4 * pg_ihl p - 10;
  wf_seq : 0 <= pg_seq p < 4294967296 }.

(** The fields of the headers, as the machine loads them. *)
Section pktgen_loads.
Context (m : memory) (a : Z) (p : pktgen) (Hwf : pktgen_wf p) (Hm : mem_at m a (pktgen_bytes p)).

Definition udp_bytes : list Z :=
  be_bytes 2 (pg_source p) ++ be_bytes 2 (pg_dest p) ++ be_bytes 2 (pg_len p) ++ be_bytes 2 (pg_check p)
  ++ be_bytes 4 PKTGEN_MAGIC ++ be_bytes 4 (pg_seq p) ++ pg_payload p.

Lemma load_version : load m 1 a = Some (64 + pg_ihl p).
Proof.
  rewrite <- (Z.add_0_r a). erewrite (load_field m a [] [64 + pg_ihl p]); [|exact Hm|done..].
  simpl. by rewrite Z.add_0_r.
Qed.

Lemma load_protocol : load m 1 (a + 9) = Some IPPROTO_UDP.
Proof.
  erewrite (load_field m a ([64 + pg_ihl p] ++ pg_hdr1 p) [IPPROTO_UDP]); [done| |done|].
  - rewrite <- app_assoc. exact Hm.
  - by rewrite length_app, (wf_hdr1 p Hwf).
Qed.

Lemma load_udp pre bs post n off :
  udp_bytes = pre ++ bs ++ post -> length bs = n -> Z.of_nat (length pre) = off ->
  load m n (a + pg_ihl p * 4 + off) = Some (le_val bs).
Proof.
  intros E Hn <-. rewrite <- Z.add_assoc.
  apply (load_field m a (([64 + pg_ihl p] ++ pg_hdr1 p ++ [IPPROTO_UDP] ++ pg_hdr2 p) ++ pre) bs post); [|done|].
  - rewrite <- !app_assoc, <- E. exact Hm.
  - pose proof (wf_hdr1 p Hwf). pose proof (wf_hdr2 p Hwf). rewrite !length_app. simpl length. lia.
Qed.

Lemma load_source : load m 2 (a + pg_ihl p * 4) = Some (le_val (be_bytes 2 (pg_source p))).
Proof. rewrite <- (Z.add_0_r (a + _)). eapply (load_udp []); [reflexivity|apply length_be_bytes|done]. Qed.

Lemma load_dest : load m 2 (a + pg_ihl p * 4 + 2) = Some (le_val (be_bytes 2 (pg_dest p))).
Proof. eapply (load_udp (be_bytes 2 (pg_source p))); [reflexivity|apply length_be_bytes|done]. Qed.

Lemma load_len : load m 2 (a + pg_ihl p * 4 + 4) = Some (le_val (be_bytes 2 (pg_len p))).
Proof.
  eapply (load_udp (be_bytes 2 (pg_source p) ++ be_bytes 2 (pg_dest p)));
    [reflexivity|apply length_be_bytes|done].
Qed.

Lemma load_magic : load m 4 (a + pg_ihl p * 4 + 8) = Some (le_val (be_bytes 4 PKTGEN_MAGIC)).
Proof.
  eapply (load_udp (be_bytes 2 (pg_source p) ++ be_bytes 2 (pg_dest p) ++ be_bytes 2 (pg_len p)
    ++ be_bytes 2 (pg_check p))); [reflexivity|apply length_be_bytes|done].
Qed.

Lemma load_seq : load m 4 (a + pg_ihl p * 4 + 8 + 4) = Some (le_val (be_bytes 4 (pg_seq p))).
Proof.
  rewrite <- (Z.add_assoc (a + _)).
  eapply (load_udp (be_bytes 2 (pg_source p) ++ be_bytes 2 (pg_dest p) ++ be_bytes 2 (pg_len p)
    ++ be_bytes 2 (pg_check p) ++ be_bytes 4 PKTGEN_MAGIC)); [reflexivity|apply length_be_bytes|done].
Qed.
End pktgen_loads.

(** A received packet of the packet generator, whatever its IP options, is
    recorded with its source port (as it is in the packet) and its sequence
    number plus one. *)
Theorem pktextract_pktgen (ra : Z) (skbs : gmap Z sk_buff) (m : memory) (value len global a : Z) (p : pktgen) :
  global = 1 \/ global = 2 -> skbs !! value = Some (MkSkb (le_val (be_bytes 2 ETH_P_IP)) a) ->
  pktgen_wf p -> mem_at m a (pktgen_bytes p) ->
  probe_sepext_pktextract ra skbs m value len global =
    Some [MkTe ra PKTEXTRACT (le_val (be_bytes 2 (pg_source p))) global (u32 (pg_seq p + 1)) 0].
Proof.
  intros Hg Hskb Hwf Hm. pose proof Hwf as [Hihl _ _ Hseq]. unfold probe_sepext_pktextract.
  replace ((global =? 1) || (global =? 2)) with true by lia. rewrite Hskb.
  cbn [mbind option_bind skb_protocol skb_network_header].
  unfold be_bytes at 1. rewrite ntohs_be by (unfold ETH_P_IP; lia).
  rewrite Z.eqb_refl, (load_version m a p Hm). cbn [negb mbind option_bind].
  replace (Z.shiftr (64 + pg_ihl p) 4) with 4 by (rewrite Z.shiftr_div_pow2 by lia; dlia).
  replace (Z.land (64 + pg_ihl p) 15) with (pg_ihl p)
    by (change 15 with (Z.ones 4); rewrite Z.land_ones by lia; dlia).
  rewrite Z.eqb_refl, (load_protocol m a p Hwf Hm). cbn [negb mbind option_bind]. rewrite Z.eqb_refl. cbn [negb].
  rewrite (load_source m a p Hwf Hm). cbn [mbind option_bind].
  rewrite (load_dest m a p Hwf Hm). cbn [mbind option_bind].
  rewrite (load_len m a p Hwf Hm). cbn [mbind option_bind].
  rewrite (load_magic m a p Hwf Hm). cbn [mbind option_bind].
  rewrite (load_seq m a p Hwf Hm). cbn [mbind option_bind].
  unfold be_bytes. rewrite !ntohl_be by (unfold PKTGEN_MAGIC; lia). by rewrite Z.eqb_refl.
Qed.

Definition sample_pktgen : pktgen := MkPg 5 (replicate 8 0) (replicate 10 1) 9 9 36 0 41 [].
Definition sample_packet : memory :=
  list_to_map (zip (seqZ 4096 (Z.of_nat (length (pktgen_bytes sample_pktgen)))) (pktgen_bytes sample_pktgen)).

Lemma sample_packet_at : mem_at sample_packet 4096 (pktgen_bytes sample_pktgen).
Proof.
  assert (forallb (fun i => bool_decide (sample_packet !! u32 (4096 + Z.of_nat i) = pktgen_bytes sample_pktgen !! i))
    (seq 0 44) = true) as H by (vm_compute; reflexivity).
  intros i b Hb. rewrite forallb_forall in H. apply lookup_lt_Some in Hb as Hlt.
  change (length (pktgen_bytes sample_pktgen)) with 36%nat in Hlt.
  specialize (H i). rewrite in_seq in H. specialize (H ltac:(lia)). apply bool_decide_eq_true in H. by rewrite H.
Qed.

Lemma pktextract_pktgen_witness :
  probe_sepext_pktextract 64 {[ 7 := MkSkb (le_val (be_bytes 2 ETH_P_IP)) 4096 ]} sample_packet 7 36 1 =
    Some [MkTe 64 PKTEXTRACT (le_val (be_bytes 2 9)) 1 (u32 (41 + 1)) 0].
Proof.
  apply (pktextract_pktgen 64 {[ 7 := MkSkb (le_val (be_bytes 2 ETH_P_IP)) 4096 ]} sample_packet 7 36 1 4096 sample_pktgen).
  - by left.
  - reflexivity.
  - split; simpl; lia.
  - exact sample_packet_at.
Defined.

(** C39: when a packet of the packet generator passes the tracepoint
    [pktextract] with [global] 1 or 2, whatever its IP options, addresses and
    payload, exactly one entry is appended to the log (a log that is off or
    full takes none): a PKTEXTRACT entry with the source port, in the order of
    the bytes in the packet, the value [global] and the sequence number plus
    one, decoded from the bytes of the packet in memory. The packet is complete
    and in one piece ([mem_at]); one that is cut short makes the probe read
    behind its end ([pktextract_reads_behind]). *)
Theorem packet_recorded (ra : Z) (m : memory) (skbs : gmap Z sk_buff) (qs : list sem_queue_struct) (ex : extractors)
    (env : cpu_env) (s : tracer) (value len global a : Z) (p : pktgen) :
  tracer_ok s -> global = 1 \/ global = 2 -> skbs !! value = Some (MkSkb (le_val (be_bytes 2 ETH_P_IP)) a) ->
  pktgen_wf p -> mem_at m a (pktgen_bytes p) ->
  exists s' e, fire ra m skbs qs ex env (tp_pktextract value len global) s = Some (s', e) /\ tracer_ok s' /\
    abs s' = LogSpec.append
      (make_entry env (MkTe ra PKTEXTRACT (le_val (be_bytes 2 (pg_source p))) global (u32 (pg_seq p + 1)) 0)) (abs s).
Proof.
  intros Hs Hg Hskb Hwf Hm. apply (fire_records _ _ _ _ _ _ (tp_pktextract value len global) _ [_] Hs). cbn [probe].
  by eapply pktextract_pktgen.
Qed.

Lemma packet_recorded_witness :
  exists s' e, fire 64 sample_packet {[ 7 := MkSkb (le_val (be_bytes 2 ETH_P_IP)) 4096 ]} sem_queues
      (MkEx (replicate 100 (MkPi 0 0 0)) 0 (replicate 25 0)) (sample_env 0) (tp_pktextract 7 36 1)
      (set_tracing_active 1 (sample_tracer 3)) = Some (s', e) /\ tracer_ok s' /\
    abs s' = LogSpec.append (make_entry (sample_env 0) (MkTe 64 PKTEXTRACT (le_val (be_bytes 2 9)) 1 (u32 (41 + 1)) 0))
      (abs (set_tracing_active 1 (sample_tracer 3))).
Proof.
  apply (packet_recorded 64 sample_packet {[ 7 := MkSkb (le_val (be_bytes 2 ETH_P_IP)) 4096 ]} sem_queues
    (MkEx (replicate 100 (MkPi 0 0 0)) 0 (replicate 25 0)) (sample_env 0) (set_tracing_active 1 (sample_tracer 3))
    7 36 1 4096 sample_pktgen).
  - split; simpl; lia.
  - by left.
  - reflexivity.
  - split; simpl; lia.
  - exact sample_packet_at.
Defined.

(** The probe does not look at the length of a packet: for a UDP packet
    without payload it reads behind the end of the data. *)
Theorem pktextract_reads_behind (ra : Z) (len : Z) :
  let headers := take 28 (pktgen_bytes sample_pktgen) in
  let m : memory := list_to_map (zip (seqZ 4096 28) headers) in
  probe_sepext_pktextract ra {[ 7 := MkSkb (le_val (be_bytes 2 ETH_P_IP)) 4096 ]} m 7 len 1 = None.
Proof. vm_compute. reflexivity. Qed.

(** ** Adding extractors *)

Record extractors_ok (s : extractors) : Prop := {
  ex_entries : length (pi_entries s) = 100%nat;
  ex_num : 0 <= num_pi_entries s <= 100;
  ex_buffer : length (pktextrprocbuffer s) = 25%nat }.

(** The text of a specification, with what the user's tool writes behind it. *)
Definition spec_text (a b c : Z) (rest : list Z) : list Z :=
  dec_chars a ++ 32 :: dec_chars b ++ 32 :: dec_chars c ++ rest.

Lemma dec_chars_nonzero n : Forall (fun c => c <> 0) (dec_chars n).
Proof.
  rewrite dec_chars_alt. apply Forall_fmap, Forall_rev.
  eapply Forall_impl; [apply dec_lsb_digits|]. simpl. lia.
Qed.

Lemma spec_text_nonzero a b c rest :
  Forall (fun c => c <> 0) rest -> Forall (fun c => c <> 0) (spec_text a b c rest).
Proof.
  intros Hr. unfold spec_text. rewrite !Forall_app, !Forall_cons, !Forall_app, !Forall_cons, !Forall_app.
  repeat split; auto using dec_chars_nonzero; lia.
Qed.

(** Writing the decimal text of three 32-bit numbers to the proc file adds
    the extractor with exactly these numbers behind the ones already active, if
    the text with its NUL fits the buffer and there is room for one more. *)
Theorem add_pktextr_adds (a b c : Z) (rest : list Z) (count : Z) (s : extractors) :
  extractors_ok s -> num_pi_entries s < 100 ->
  0 <= a < 2 ^ 32 -> 0 <= b < 2 ^ 32 -> 0 <= c < 2 ^ 32 ->
  Forall byte_range rest -> Forall (fun c => c <> 0) rest -> Ctype.isdigit (ch rest) = false ->
  Z.of_nat (length (spec_text a b c rest)) = count -> count < 25 ->
  exists s', add_pktextr true (spec_text a b c rest) count s = Some (count, s') /\ extractors_ok s' /\
    num_pi_entries s' = num_pi_entries s + 1 /\
    take (Z.to_nat (num_pi_entries s')) (pi_entries s') =
      take (Z.to_nat (num_pi_entries s)) (pi_entries s) ++ [MkPi a b c].
Proof.
  intros [He Hn Hb] Hroom Ha Hb' Hc Hr Hr0 Hd Hlen Hcount. unfold add_pktextr.
  destruct (Z.leb_spec MAX_EXTRACTORS (num_pi_entries s)); [unfold MAX_EXTRACTORS in *; lia|].
  destruct (Z.ltb_spec PKTEXTR_STRINGSIZE count); [unfold PKTEXTR_STRINGSIZE in *; lia|].
  rewrite zset_is_Some by lia. cbn [mbind option_bind negb pi_entries num_pi_entries pktextrprocbuffer].
  assert (drop (length (spec_text a b c rest)) (<[Z.to_nat count := 0]> (pktextrprocbuffer s))
    = 0 :: drop (S (Z.to_nat count)) (pktextrprocbuffer s)) as ->.
  { replace (length (spec_text a b c rest)) with (Z.to_nat count) by lia.
    rewrite (drop_S _ 0) by (apply list_lookup_insert_eq; lia). by rewrite drop_insert_lt by lia. }
  rewrite cstr_app by (by apply spec_text_nonzero).
  pose proof (scan_three_unsigned a b c rest Ha Hb' Hc Hr Hd) as E. fold (spec_text a b c rest) in E.
  rewrite E. cbn [mbind option_bind]. simpl (3 <? 3). cbv iota.
  rewrite zset_is_Some by lia. cbn [mbind option_bind stored lookup list_lookup].
  eexists. split; [rewrite s32_id by lia; reflexivity|]. cbn [pi_entries num_pi_entries pktextrprocbuffer].
  rewrite s32_id by lia. split; [|split; [done|]].
  - split; cbn [pi_entries num_pi_entries pktextrprocbuffer]; [by rewrite length_insert|lia|].
    rewrite length_app. simpl. rewrite length_drop. lia.
  - replace (Z.to_nat (num_pi_entries s + 1)) with (S (Z.to_nat (num_pi_entries s))) by lia.
    apply take_insert_snoc. lia.
Qed.

Definition no_extractors : extractors := MkEx (replicate 100 (MkPi 0 0 0)) 0 (replicate 25 0).

Lemma no_extractors_ok : extractors_ok no_extractors.
Proof. split; simpl; lia. Qed.

Lemma add_pktextr_adds_witness :
  exists s', add_pktextr true (spec_text 6 34 4 [10]) 7 no_extractors = Some (7, s') /\ extractors_ok s' /\
    num_pi_entries s' = 0 + 1 /\
    take (Z.to_nat (num_pi_entries s')) (pi_entries s') = [] ++ [MkPi 6 34 4].
Proof.
  apply (add_pktextr_adds 6 34 4 [10] 7 no_extractors);
    [exact no_extractors_ok|simpl; lia|lia..| | |reflexivity|reflexivity|lia].
  - constructor; [unfold byte_range; lia|constructor].
  - constructor; [lia|constructor].
Defined.

(** The test against the size of the buffer lets a text of exactly that
    size pass; its terminating NUL is stored behind the end of the buffer. *)
Theorem add_pktextr_off_by_one (ok : bool) (user : list Z) (s : extractors) :
  extractors_ok s -> num_pi_entries s < 100 ->
  add_pktextr ok user PKTEXTR_STRINGSIZE s = None /\
  (forall count, PKTEXTR_STRINGSIZE < count -> add_pktextr ok user count s = Some (-1, s)).
Proof.
  intros [He Hn Hb] Hroom. unfold add_pktextr.
  destruct (Z.leb_spec MAX_EXTRACTORS (num_pi_entries s)); [unfold MAX_EXTRACTORS in *; lia|]. split.
  - destruct (Z.ltb_spec PKTEXTR_STRINGSIZE PKTEXTR_STRINGSIZE); [lia|].
    rewrite (proj2 (zset_None _ _ _)); [done|]. unfold PKTEXTR_STRINGSIZE. lia.
  - intros count Hc. by destruct (Z.ltb_spec PKTEXTR_STRINGSIZE count); [|lia].
Qed.

Lemma add_pktextr_off_by_one_witness :
  add_pktextr true (replicate 25 49) PKTEXTR_STRINGSIZE no_extractors = None /\
  (forall count, PKTEXTR_STRINGSIZE < count ->
     add_pktextr true (replicate 25 49) count no_extractors = Some (-1, no_extractors)).
Proof. apply (add_pktextr_off_by_one true (replicate 25 49) no_extractors); [exact no_extractors_ok|simpl; lia]. Defined.

(** ** Registering the probes *)

(** The configuration options the registration depends on. *)
Record config := MkCfg { SEPEXT_TRACEPOINTS_ENABLED : bool; SEPEXT_MIGRATION : bool; SEPEXT_PKTEXTR : bool }.

Definition tp_name (x : string) : list Z := bytes_of ("sepext_" ++ x)%string.

(** The tracepoints [activate_static_probes] registers, and those
    [deactivate_static_probes] unregisters, in order. *)
Definition registered_probes (c : config) : list string :=
  (if SEPEXT_TRACEPOINTS_ENABLED c then
     ["srventry"; "srvexit"; "hirqstart"; "hirqstop"; "ctxswitch"; "peustart"; "peustop"; "pktqueue"; "srvqueue";
      "loopstart"; "looprestart"; "loopstop"; "queuecondition"; "statecondition"; "semaphore_up"; "semaphore_down";
      "wakeup"; "dequeuerq"; "wait_for_completion"; "wait_for_completion_timeout";
      "wait_for_completion_interruptible"; "wait_for_completion_interruptible_timeout";
      "wait_for_completion_killable"; "wait_for_completion_killable_timeout"; "try_wait_for_completion";
      "complete"; "complete_all"; "tempsynch"]%string else [])
  ++ (if SEPEXT_MIGRATION c then ["migrate"%string] else [])
  ++ (if SEPEXT_PKTEXTR c then ["pktextract"%string] else []).

Definition unregistered_probes (c : config) : list string :=
  (if SEPEXT_TRACEPOINTS_ENABLED c then
     ["wakeup"; "srventry"; "srvexit"; "ctxswitch"; "hirqstart"; "hirqstop"; "peustart"; "peustop"; "pktqueue";
      "loopstart"; "looprestart"; "loopstop"; "queuecondition"; "srvqueue"; "semaphore_up"; "semaphore_down";
      "wait_for_completion"; "wait_for_completion_timeout"; "wait_for_completion_interruptible";
      "wait_for_completion_interruptible_timeout"; "wait_for_completion_killable";
      "wait_for_completion_killable_timeout"; "try_wait_for_completion"; "complete"; "complete_all"]%string else [])
  ++ (if SEPEXT_MIGRATION c then ["migrate"%string] else [])
  ++ (if SEPEXT_PKTEXTR c then ["pktextract"%string] else []).

(** [REGISTER_SEPEXT_TRACE] and [UNREGISTER_SEPEXT_TRACE]: [addr x] is the
    address of [probe_sepext_x], [al x] whether the allocations for it succeed. *)
Section registration.
Context (addr : string -> Z) (al : string -> bool).

Definition REGISTER_SEPEXT_TRACE (x : string) (s : tracepoints) : tracepoints :=
  let '(ret, s) := tracepoint_probe_register (al x) (al x) (tp_name x) (addr x) 0 s in
  if ctrue ret then (tracepoint_probe_unregister (al x) (tp_name x) (addr x) 0 s).2 else s.

Definition UNREGISTER_SEPEXT_TRACE (x : string) (s : tracepoints) : tracepoints :=
  (tracepoint_probe_unregister (al x) (tp_name x) (addr x) 0 s).2.

(** The variables [num_pi_entries] and [doStackTrace] are reset; the proc entry
    is a flag of [Sepextmod]. *)
Definition activate_static_probes (c : config) (s : tracepoints) (ex : extractors) : tracepoints * extractors :=
  (foldl (fun s x => REGISTER_SEPEXT_TRACE x s) s (registered_probes c),
   MkEx (pi_entries ex) 0 (pktextrprocbuffer ex)).

Definition deactivate_static_probes (c : config) (s : tracepoints) : tracepoints :=
  foldl (fun s x => UNREGISTER_SEPEXT_TRACE x s) s (unregistered_probes c).

Hypothesis Haddr : forall x, addr x <> 0.
Hypothesis Hal : forall x, al x = true.

Lemma register_one x s :
  tps_ok s -> synced s -> probes s (tp_name x) = [] ->
  tps_ok (REGISTER_SEPEXT_TRACE x s) /\ synced (REGISTER_SEPEXT_TRACE x s) /\
  forall n, probes (REGISTER_SEPEXT_TRACE x s) n = if decide (n = tp_name x) then [(addr x, 0)] else probes s n.
Proof.
  intros Hs Hy Hp. unfold REGISTER_SEPEXT_TRACE.
  pose proof (tracepoint_probe_register_ok (al x) (al x) (tp_name x) (addr x) 0 s Hs Hy (Haddr x)) as H.
  destruct (tracepoint_probe_register _ _ _ _ _ s) as [ret s']. destruct H as (Hs' & Hy' & H). rewrite Hal in H.
  unfold registered in H. rewrite Hp in H.
  destruct H as [(Hin & _)|[(_ & _ & ? & _)|(_ & -> & H)]]; [by apply not_elem_of_nil in Hin|done|].
  simpl (ctrue 0). cbv iota. auto.
Qed.

Lemma register_all xs s :
  tps_ok s -> synced s -> NoDup (tp_name <$> xs) -> (forall x, x ∈ xs -> probes s (tp_name x) = []) ->
  let s' := foldl (fun s x => REGISTER_SEPEXT_TRACE x s) s xs in
  tps_ok s' /\ synced s' /\ (forall x, x ∈ xs -> probes s' (tp_name x) = [(addr x, 0)]) /\
  (forall n, n ∉ tp_name <$> xs -> probes s' n = probes s n).
Proof.
  revert s. induction xs as [|x xs IH]; intros s Hs Hy Hnd Hp.
  { simpl. split; [done|]. split; [done|]. split; [|done]. intros x Hx. by apply not_elem_of_nil in Hx. }
  rewrite fmap_cons in Hnd. apply NoDup_cons in Hnd as [Hx Hnd]. cbn [foldl].
  destruct (register_one x s Hs Hy (Hp x ltac:(left))) as (Hs1 & Hy1 & Hp1).
  destruct (IH (REGISTER_SEPEXT_TRACE x s) Hs1 Hy1 Hnd) as (Hs2 & Hy2 & Hin & Hout).
  { intros x' Hx'. rewrite Hp1, decide_False; [apply Hp; by right|].
    intros E. apply Hx. rewrite <- E. by apply list_elem_of_fmap_2. }
  split; [done|]. split; [done|]. split.
  - intros x' [->|?]%elem_of_cons; [|auto]. rewrite Hout by done. rewrite Hp1. by rewrite decide_True.
  - intros n. rewrite fmap_cons, not_elem_of_cons. intros [Hn1 Hn2]. rewrite Hout by done. rewrite Hp1.
    by rewrite decide_False.
Qed.

Lemma unregister_one x s :
  tps_ok s -> synced s -> probes s (tp_name x) = [(addr x, 0)] ->
  tps_ok (UNREGISTER_SEPEXT_TRACE x s) /\ synced (UNREGISTER_SEPEXT_TRACE x s) /\
  forall n, probes (UNREGISTER_SEPEXT_TRACE x s) n = if decide (n = tp_name x) then [] else probes s n.
Proof.
  intros Hs Hy Hp. unfold UNREGISTER_SEPEXT_TRACE.
  pose proof (tracepoint_probe_unregister_ok (al x) (tp_name x) (addr x) 0 s Hs Hy) as H.
  destruct (tracepoint_probe_unregister _ _ _ _ s) as [ret s']. destruct H as (Hs' & Hy' & H). rewrite Hal in H.
  unfold unregistered in H. rewrite Hp in H.
  assert (kept (addr x) 0 [(addr x, 0)] = []) as Hk
    by (unfold kept, same_probe; simpl; by rewrite Z.eqb_refl, andb_false_r).
  destruct H as [(Hg & _)|[(_ & _ & ? & _)|(_ & _ & H)]]; [|done|].
  - unfold probes in Hp. by rewrite Hg in Hp.
  - rewrite Hk in H. auto.
Qed.

Lemma unregister_all xs s :
  tps_ok s -> synced s -> NoDup (tp_name <$> xs) -> (forall x, x ∈ xs -> probes s (tp_name x) = [(addr x, 0)]) ->
  let s' := foldl (fun s x => UNREGISTER_SEPEXT_TRACE x s) s xs in
  tps_ok s' /\ synced s' /\ (forall x, x ∈ xs -> probes s' (tp_name x) = []) /\
  (forall n, n ∉ tp_name <$> xs -> probes s' n = probes s n).
Proof.
  revert s. induction xs as [|x xs IH]; intros s Hs Hy Hnd Hp.
  { simpl. split; [done|]. split; [done|]. split; [|done]. intros x Hx. by apply not_elem_of_nil in Hx. }
  rewrite fmap_cons in Hnd. apply NoDup_cons in Hnd as [Hx Hnd]. cbn [foldl].
  destruct (unregister_one x s Hs Hy (Hp x ltac:(left))) as (Hs1 & Hy1 & Hp1).
  destruct (IH (UNREGISTER_SEPEXT_TRACE x s) Hs1 Hy1 Hnd) as (Hs2 & Hy2 & Hin & Hout).
  { intros x' Hx'. rewrite Hp1, decide_False; [apply Hp; by right|].
    intros E. apply Hx. rewrite <- E. by apply list_elem_of_fmap_2. }
  split; [done|]. split; [done|]. split.
  - intros x' [->|?]%elem_of_cons; [|auto]. rewrite Hout by done. rewrite Hp1. by rewrite decide_True.
  - intros n. rewrite fmap_cons, not_elem_of_cons. intros [Hn1 Hn2]. rewrite Hout by done. rewrite Hp1.
    by rewrite decide_False.
Qed.

Lemma registered_names_nodup c : NoDup (tp_name <$> registered_probes c).
Proof.
  destruct c as [[] [] []]; apply (bool_decide_eq_true_1 _); vm_compute; reflexivity.
Qed.

Lemma unregistered_names_nodup c : NoDup (tp_name <$> unregistered_probes c).
Proof.
  destruct c as [[] [] []]; apply (bool_decide_eq_true_1 _); vm_compute; reflexivity.
Qed.

Lemma unregistered_sub c x : x ∈ unregistered_probes c -> x ∈ registered_probes c.
Proof.
  assert (forallb (fun x => existsb (String.eqb x) (registered_probes c)) (unregistered_probes c) = true) as H
    by (destruct c as [[] [] []]; vm_compute; reflexivity).
  rewrite forallb_forall in H. intros Hx%list_elem_of_In. apply H in Hx.
  apply existsb_exists in Hx as (y & Hy & ->%String.eqb_eq). by apply list_elem_of_In.
Qed.
End registration.

(** Activation connects every probe of the configuration to its
    tracepoint, and to that only: a tracepoint of the kernel or of an untainted
    module calls exactly its probe; every other name keeps its probes. *)
Theorem activation_connects (addr : string -> Z) (al : string -> bool) (c : config) (s : tracepoints) (ex : extractors) :
  (forall x, addr x <> 0) -> (forall x, al x = true) -> tps_ok s -> synced s ->
  (forall x, x ∈ registered_probes c -> probes s (tp_name x) = []) ->
  let s' := (activate_static_probes addr al c s ex).1 in
  (forall x el, x ∈ registered_probes c -> el ∈ elems s' -> el_name el = tp_name x -> trace s' el = [(addr x, 0)]) /\
  (forall n, n ∉ tp_name <$> registered_probes c -> probes s' n = probes s n).
Proof.
  intros Haddr Hal Hs Hy Hp s'.
  destruct (register_all addr al Haddr Hal _ s Hs Hy (registered_names_nodup c) Hp) as (Hs' & Hy' & Hin & Hout).
  split; [|done]. intros x el Hx Hel Hname.
  rewrite (trace_probes s' el Hs' Hy' Hel), Hname. by apply Hin.
Qed.

(** Deactivation undoes the activation, except that with
    CONFIG_SEPEXT_TRACEPOINTS_ENABLED the probes of [statecondition],
    [dequeuerq] and [tempsynch] stay registered, although the module that has
    their code is being unloaded. *)
Theorem deactivation_leaves_probes (addr : string -> Z) (al : string -> bool) (c : config) (s : tracepoints)
    (ex : extractors) (x : string) :
  (forall x, addr x <> 0) -> (forall x, al x = true) -> tps_ok s -> synced s ->
  (forall x, x ∈ registered_probes c -> probes s (tp_name x) = []) -> x ∈ registered_probes c ->
  probes (deactivate_static_probes addr al c (activate_static_probes addr al c s ex).1) (tp_name x) =
    if SEPEXT_TRACEPOINTS_ENABLED c && bool_decide (x ∈ ["statecondition"; "dequeuerq"; "tempsynch"]%string)
    then [(addr x, 0)] else [].
Proof.
  intros Haddr Hal Hs Hy Hp Hx.
  destruct (register_all addr al Haddr Hal _ s Hs Hy (registered_names_nodup c) Hp) as (Hs1 & Hy1 & Hin & _).
  destruct (unregister_all addr al Hal (unregistered_probes c) (activate_static_probes addr al c s ex).1 Hs1 Hy1
    (unregistered_names_nodup c)) as (_ & _ & Hoff & Hon).
  { intros y Hy'. by apply Hin, unregistered_sub. }
  unfold deactivate_static_probes.
  assert (forallb (fun x => Bool.eqb (existsb (String.eqb x) (unregistered_probes c))
      (negb (SEPEXT_TRACEPOINTS_ENABLED c && bool_decide (x ∈ ["statecondition"; "dequeuerq"; "tempsynch"]%string))))
    (registered_probes c) = true) as H by (destruct c as [[] [] []]; vm_compute; reflexivity).
  rewrite forallb_forall in H. specialize (H x (proj1 (list_elem_of_In _ _) Hx)). apply eqb_prop in H.
  destruct (_ && _); simpl in H.
  - rewrite Hon; [by apply Hin|]. intros (y & Ey & Hy')%list_elem_of_fmap.
    assert (x = y) as ->.
    { apply (NoDup_fmap_eq tp_name (registered_probes c)); auto using registered_names_nodup, unregistered_sub. }
    apply not_true_iff_false in H. apply H. apply existsb_exists. exists y.
    split; [by apply list_elem_of_In|by apply String.eqb_refl].
  - apply Hoff. apply existsb_exists in H as (y & Hy' & ->%String.eqb_eq). by apply list_elem_of_In.
Qed.

(** ** Witnesses: a kernel with the tracepoints of the configuration *)

Definition full_config : config := MkCfg true true true.
Definition sepext_tracepoints : list tracepoint :=
  (fun x => MkEl (tp_name x) 0 false false None) <$> registered_probes full_config.
Definition boot_tps : tracepoints := tps_boot sepext_tracepoints [].
Definition sample_addr (x : string) : Z := 4096 + Z.of_nat (String.length x).

Lemma boot_tps_ok : tps_ok boot_tps /\ synced boot_tps.
Proof. apply tps_boot_ok. repeat constructor. Qed.

Lemma boot_tps_probes n : probes boot_tps n = [].
Proof. unfold probes, boot_tps. by rewrite get_boot. Qed.

Lemma sample_addr_nonzero x : sample_addr x <> 0.
Proof. unfold sample_addr. lia. Qed.

Lemma activation_connects_witness :
  let s' := (activate_static_probes sample_addr (fun _ => true) full_config boot_tps no_extractors).1 in
  (forall x el, x ∈ registered_probes full_config -> el ∈ elems s' -> el_name el = tp_name x ->
     trace s' el = [(sample_addr x, 0)]) /\
  (forall n, n ∉ tp_name <$> registered_probes full_config -> probes s' n = probes boot_tps n).
Proof.
  exact (activation_connects sample_addr (fun _ => true) full_config boot_tps no_extractors
    sample_addr_nonzero (fun _ => eq_refl) (proj1 boot_tps_ok) (proj2 boot_tps_ok)
    (fun x _ => boot_tps_probes (tp_name x))).
Defined.

Lemma deactivation_leaves_probes_witness :
  "tempsynch"%string ∈ registered_probes full_config /\
  probes (deactivate_static_probes sample_addr (fun _ => true) full_config
      (activate_static_probes sample_addr (fun _ => true) full_config boot_tps no_extractors).1) (tp_name "tempsynch")
    = if true && bool_decide ("tempsynch"%string ∈ ["statecondition"; "dequeuerq"; "tempsynch"]%string)
      then [(sample_addr "tempsynch", 0)] else [].
Proof.
  assert ("tempsynch"%string ∈ registered_probes full_config) as H
    by (apply list_elem_of_In; vm_compute; tauto).
  split; [exact H|].
  exact (deactivation_leaves_probes sample_addr (fun _ => true) full_config boot_tps no_extractors "tempsynch"
    sample_addr_nonzero (fun _ => eq_refl) (proj1 boot_tps_ok) (proj2 boot_tps_ok)
    (fun x _ => boot_tps_probes (tp_name x)) H).
Defined.
