(* ===== verification/Dynamic.v ===== *)
(** * SEPExtract: dynamic probes and symbol lookup

    [kernel/trace/sepextracttracer/dynamic.c], the kretprobes and jprobes a
    user installs through [/proc/dynprobes], and [st.c], the lookup of symbols
    and addresses through [/proc/st].

    What [register_kretprobe] and [register_jprobe] of [kernel/kprobes.c]
    return is an argument, and their calls are recorded; [sprint_symbol] and
    [kallsyms_lookup_name] of [kernel/kallsyms.c] are arguments too. [None] is
    an access outside an array. *)

From S2P Require Import Prelude Sepext Vsprintf Tracer.
From stdpp Require Import prelude gmap list strings.
From Stdlib Require Import ZArith Lia.

Open Scope Z_scope.
Open Scope list_scope.

(** ** Dynamic probes *)

Definition MAX_PROBES : Z := 100.
Definition MEMADDR_STRINGSIZE : Z := 10.

(** [struct kprobeEntry]: the fields the file sets. *)
Record kprobeEntry := MkKp { rp_kp_addr : Z; jp_entry : Z; jp_kp_addr : Z }.

Definition zero_kp : kprobeEntry := MkKp 0 0 0.

(** Calls into the kprobes subsystem, with the index in the array. *)
Inductive kprobe_call :=
  | RegisterKretprobe (i addr : Z) | UnregisterKretprobe (i : Z)
  | RegisterJprobe (i addr entry : Z) | UnregisterJprobe (i : Z).

Record dynamic := MkDyn {
  kprobes : list kprobeEntry;
  lastprobe : Z;             (* unsigned int *)
  procfsbuffer : list Z;     (* (MEMADDR_STRINGSIZE * 2) + 1 + 1 bytes *)
  kp_calls : list kprobe_call }.

(** The handlers of a kretprobe at [addr] that returns to [ret_addr]. *)
Definition entryhandler (ret_addr addr : Z) : te_args := MkTe ret_addr SERVICEENTRY 0 0 0 addr.
Definition returnhandler (ret_addr addr : Z) : te_args := MkTe ret_addr SERVICEEXIT 0 0 0 addr.

(** [ret] is an [unsigned int], so that the test [ret < 0] compares unsigned. *)
Definition ret_negative (r : Z) : bool := u32 r <? 0.

(** [rk] and [rj]: what [register_kretprobe] and [register_jprobe] return. *)
Definition add_probe (ok : bool) (user : list Z) (count rk rj : Z) (s : dynamic) : option (Z * dynamic) :=
  if (MEMADDR_STRINGSIZE * 2) + 1 + 1 <? count then Some (-1, s)
  else
    b ← zset (procfsbuffer s) count 0;
    let s := MkDyn (kprobes s) (lastprobe s) (user ++ drop (length user) b) (kp_calls s) in
    if negb ok then Some (-1, s)
    else
      '(_, out) ← sscanf (cstr (procfsbuffer s)) (bytes_of "%x %x");
      let address := stored out 0 in
      let pktidaddress := stored out 1 in
      if address =? 0 then Some (-1, s)
      else if lastprobe s <? MAX_PROBES - 1 then
        kp ← zget (kprobes s) (lastprobe s);
        ks ← zset (kprobes s) (lastprobe s) (MkKp address (jp_entry kp) (jp_kp_addr kp));
        let s := MkDyn ks (lastprobe s) (procfsbuffer s)
                   (kp_calls s ++ [RegisterKretprobe (lastprobe s) address]) in
        if ret_negative rk then
          Some (-1, MkDyn (kprobes s) (lastprobe s) (procfsbuffer s)
                      (kp_calls s ++ [UnregisterKretprobe (lastprobe s)]))
        else if negb (pktidaddress =? 0) then
          ks ← zset (kprobes s) (lastprobe s) (MkKp address pktidaddress address);
          let s := MkDyn ks (lastprobe s) (procfsbuffer s)
                     (kp_calls s ++ [RegisterJprobe (lastprobe s) address pktidaddress]) in
          if ret_negative rj then
            Some (-1, MkDyn (kprobes s) (lastprobe s) (procfsbuffer s)
                        (kp_calls s ++ [UnregisterJprobe (lastprobe s)]))
          else Some (s32 count, MkDyn (kprobes s) (u32 (lastprobe s + 1)) (procfsbuffer s) (kp_calls s))
        else Some (s32 count, MkDyn (kprobes s) (u32 (lastprobe s + 1)) (procfsbuffer s) (kp_calls s))
      else Some (-1, s).

Definition read_probes : Z * Z := (1, 0).

(** [memset] of the array and [lastprobe = 0]; the proc entry is a flag of
    [Sepextmod]. *)
Definition initialize_dynamic_probing (s : dynamic) : dynamic :=
  MkDyn (replicate 100 zero_kp) 0 (procfsbuffer s) (kp_calls s).

(** The body of the loop of [cleanup_dynamic_probing] at index [i]. *)
Definition cleanup_one (s : dynamic) (i : Z) : option dynamic :=
  kp ← zget (kprobes s) i;
  Some (MkDyn (kprobes s) (lastprobe s) (procfsbuffer s)
    (kp_calls s ++ (if ctrue (rp_kp_addr kp) then [UnregisterKretprobe i] else [])
                ++ (if ctrue (jp_kp_addr kp) then [UnregisterJprobe i] else []))).

Fixpoint cleanup_loop (l : list Z) (s : dynamic) : option dynamic :=
  match l with
  | [] => Some s
  | i :: l' => s' ← cleanup_one s i; cleanup_loop l' s'
  end.

(** [for(; i <= lastprobe; i++)] *)
Definition cleanup_dynamic_probing (s : dynamic) : option dynamic :=
  cleanup_loop (seqZ 0 (lastprobe s + 1)) s.

(** ** Symbol lookup *)

Definition ADDRESS : Z := 0.
Definition SYMBOL : Z := 1.
Definition STERROR : Z := 2.
Definition ST_STRINGSIZE : Z := 255.

Record st := MkSt {
  st_address : Z;          (* unsigned long *)
  st_type : Z;             (* unsigned int *)
  stsymbuffer : list Z }.  (* (MEMADDR_STRINGSIZE * 2) + 1 + 1 = 512 bytes *)

Definition set_address (ok : bool) (user : list Z) (count : Z) (s : st) : option (Z * st) :=
  if ST_STRINGSIZE <? count then Some (-1, MkSt (st_address s) STERROR (stsymbuffer s))
  else
    b ← zset (stsymbuffer s) count 0;
    let b := user ++ drop (length user) b in
    if negb ok then Some (-1, MkSt (st_address s) STERROR b)
    else
      last ← zget b (u32 (count - 1));
      b ← (if last =? 10 then zset b (u32 (count - 1)) 0 else Some b);
      c0 ← zget b 0;
      c1 ← zget b 1;
      if (c0 =? 48) && (c1 =? 120) then
        '(_, out) ← sscanf (cstr b) (bytes_of "0x%lx");
        let address := match out with StNum _ _ v :: _ => v | _ => st_address s end in
        if address =? 0 then Some (-1, MkSt address STERROR b)
        else Some (s32 count, MkSt address ADDRESS b)
      else Some (s32 count, MkSt (st_address s) SYMBOL b).

(** The text at [*start], the value returned and whether [*eof] is set. *)
Record read_result := MkRead { rd_len : Z; rd_eof : bool; rd_text : list Z }.

Definition read_symbol (sprint_symbol : Z -> list Z) (kallsyms_lookup_name : list Z -> Z)
    (offset count : Z) (s : st) : read_result * st :=
  if 0 <? offset then (MkRead 0 false [], s)
  else
    let '(text, s) :=
      if st_type s =? ADDRESS then (sprint_symbol (st_address s), s)
      else if st_type s =? SYMBOL then
        let a := kallsyms_lookup_name (cstr (stsymbuffer s)) in
        (hex_chars a, MkSt a (st_type s) (stsymbuffer s))
      else ([48], s) in
    let len := Z.of_nat (length text) in
    let eof := len <=? count + offset in
    let len := len - offset in
    let len := if count <? len then count else len in
    let len := if len <? 0 then 0 else len in
    (MkRead len eof (drop (Z.to_nat offset) text), s).

(** ** The dynamic probes are unregistered as they were registered *)

Section dynamic_proofs.

Definition kp_regs (i : Z) (kp : kprobeEntry) : list kprobe_call :=
  RegisterKretprobe i (rp_kp_addr kp) ::
  if ctrue (jp_kp_addr kp) then [RegisterJprobe i (jp_kp_addr kp) (jp_entry kp)] else [].

Definition all_regs (kps : list kprobeEntry) : list kprobe_call :=
  concat (imap (fun i kp => kp_regs (Z.of_nat i) kp) kps).

(** Below [lastprobe] every entry is registered, from there on none is. *)
Record dyn_ok (s : dynamic) : Prop := {
  dok_len : length (kprobes s) = 100%nat;
  dok_last : 0 <= lastprobe s <= 99;
  dok_buf : length (procfsbuffer s) = 22%nat;
  dok_used : Forall (fun kp => rp_kp_addr kp <> 0) (take (Z.to_nat (lastprobe s)) (kprobes s));
  dok_free : Forall (fun kp => kp = zero_kp) (drop (Z.to_nat (lastprobe s)) (kprobes s));
  dok_calls : kp_calls s = all_regs (take (Z.to_nat (lastprobe s)) (kprobes s)) }.

Lemma all_regs_snoc kps kp : all_regs (kps ++ [kp]) = all_regs kps ++ kp_regs (Z.of_nat (length kps)) kp.
Proof.
  unfold all_regs. rewrite imap_app, concat_app. cbn [imap concat]. 
  by rewrite app_nil_r, Nat.add_0_r.
Qed.

Lemma ret_negative_never r : ret_negative r = false.
Proof. unfold ret_negative. pose proof (u32_range r). apply Z.ltb_ge. lia. Qed.

(** A write the proc file accepts without a fault: [user] is what it copied. *)
Record dyn_write := MkDw { dw_ok : bool; dw_user : list Z; dw_count : Z; dw_rk : Z; dw_rj : Z }.

Definition dw_fits (w : dyn_write) : Prop :=
  0 <= dw_count w /\ dw_count w <> 22 /\ Z.of_nat (length (dw_user w)) = dw_count w.

Fixpoint add_probes (l : list dyn_write) (s : dynamic) : option dynamic :=
  match l with
  | [] => Some s
  | w :: l' => '(_, s') ← add_probe (dw_ok w) (dw_user w) (dw_count w) (dw_rk w) (dw_rj w) s; add_probes l' s'
  end.

Lemma dyn_ok_buffer s b : length b = 22%nat -> dyn_ok s -> dyn_ok (MkDyn (kprobes s) (lastprobe s) b (kp_calls s)).
Proof. intros Hb []. by split. Qed.

(** Installing [kp] at [lastprobe]. *)
Lemma dyn_ok_install s kp :
  dyn_ok s -> lastprobe s < 99 -> rp_kp_addr kp <> 0 ->
  dyn_ok (MkDyn (<[Z.to_nat (lastprobe s) := kp]> (kprobes s)) (lastprobe s + 1) (procfsbuffer s)
            (kp_calls s ++ kp_regs (lastprobe s) kp)).
Proof.
  intros [] Hl Hkp. split; cbn [kprobes lastprobe procfsbuffer kp_calls]; try done; [by rewrite length_insert|lia|..].
  all: replace (Z.to_nat (lastprobe s + 1)) with (S (Z.to_nat (lastprobe s))) by lia.
  - rewrite take_insert_snoc by lia. apply Forall_app. by repeat constructor.
  - rewrite drop_insert_lt by lia. rewrite <- Nat.add_1_r, <- drop_drop. by apply Forall_drop.
  - rewrite take_insert_snoc by lia. rewrite all_regs_snoc, dok_calls0, length_take.
    f_equal. f_equal. lia.
Qed.

Lemma dyn_free_entry s : dyn_ok s -> zget (kprobes s) (lastprobe s) = Some zero_kp.
Proof.
  intros []. destruct (zget_is_Some (kprobes s) (lastprobe s)) as [kp Hkp]; [lia|]. rewrite Hkp. f_equal.
  unfold zget in Hkp. case_match; [|done].
  apply (proj1 (Forall_forall _ _) dok_free0), (list_elem_of_lookup_2 _ 0). rewrite lookup_drop.
  by rewrite Nat.add_0_r.
Qed.

Lemma add_probe_ok w s :
  dyn_ok s -> dw_fits w ->
  exists r s', add_probe (dw_ok w) (dw_user w) (dw_count w) (dw_rk w) (dw_rj w) s = Some (r, s') /\ dyn_ok s'.
Proof.
  intros Hs (Hc & Hne & Hu). unfold add_probe.
  change (MEMADDR_STRINGSIZE * 2 + 1 + 1) with 22.
  destruct (Z.ltb_spec 22 (dw_count w)); [eauto|].
  pose proof (dok_buf s Hs) as Hb.
  rewrite zset_is_Some by lia. cbn [mbind option_bind].
  set (b := dw_user w ++ _).
  assert (dyn_ok (MkDyn (kprobes s) (lastprobe s) b (kp_calls s))) as Hs1.
  { apply dyn_ok_buffer; [|done]. unfold b. rewrite length_app, length_drop, length_insert. lia. }
  clearbody b. clear Hb. revert Hs1. generalize (MkDyn (kprobes s) (lastprobe s) b (kp_calls s)).
  clear s Hs. intros s Hs. destruct (dw_ok w); cbn [negb]; [|eauto].
  destruct (sscanf_total (cstr (procfsbuffer s)) (bytes_of "%x %x")) as [[n out] ->]. cbn [mbind option_bind].
  destruct (Z.eqb_spec (stored out 0) 0) as [|Ha]; [eauto|].
  unfold MAX_PROBES. destruct (Z.ltb_spec (lastprobe s) (100 - 1)); [|eauto].
  pose proof (dok_len s Hs) as Hlen. pose proof (dok_last s Hs) as Hlast.
  rewrite (dyn_free_entry s Hs). cbn [mbind option_bind].
  rewrite zset_is_Some, !ret_negative_never by lia.
  cbn [mbind option_bind kprobes lastprobe procfsbuffer kp_calls zero_kp jp_entry jp_kp_addr].
  rewrite u32_id by lia.
  destruct (Z.eqb_spec (stored out 1) 0) as [|Hp]; cbn [negb].
  - do 2 eexists. split; [reflexivity|]. by apply (dyn_ok_install s (MkKp (stored out 0) 0 0)).
  - rewrite zset_is_Some by (rewrite length_insert; lia). cbn [mbind option_bind kprobes lastprobe procfsbuffer kp_calls].
    do 2 eexists. split; [reflexivity|].
    rewrite list_insert_insert_eq, <- app_assoc.
    pose proof (dyn_ok_install s (MkKp (stored out 0) (stored out 1) (stored out 0)) Hs ltac:(lia) Ha) as H1.
    unfold kp_regs, ctrue in H1. cbn [rp_kp_addr jp_kp_addr jp_entry] in H1.
    by destruct (Z.eqb_spec (stored out 0) 0).
Qed.

Lemma add_probes_ok l s : Forall dw_fits l -> dyn_ok s -> exists s', add_probes l s = Some s' /\ dyn_ok s'.
Proof.
  intros Hl. revert s. induction Hl as [|w l Hw _ IH]; intros s Hs; [by eexists|].
  destruct (add_probe_ok w s Hs Hw) as (r & s1 & E & Hs1). cbn [add_probes]. rewrite E. by apply IH.
Qed.

Lemma initialize_dynamic_ok s :
  length (procfsbuffer s) = 22%nat -> kp_calls s = [] -> dyn_ok (initialize_dynamic_probing s).
Proof.
  intros Hb Hc. split; cbn [initialize_dynamic_probing kprobes lastprobe procfsbuffer kp_calls]; try done.
  apply Forall_replicate. done.
Qed.

(** The probes a list of calls registers, and those it unregisters: kretprobes
    as [(0, i)] and jprobes as [(1, i)]. *)
Definition registered (l : list kprobe_call) : list (Z * Z) :=
  omap (fun c => match c with RegisterKretprobe i _ => Some (0, i) | RegisterJprobe i _ _ => Some (1, i) | _ => None end) l.

Definition unregistered (l : list kprobe_call) : list (Z * Z) :=
  omap (fun c => match c with UnregisterKretprobe i => Some (0, i) | UnregisterJprobe i => Some (1, i) | _ => None end) l.

Definition kp_unregs (i : Z) (kp : kprobeEntry) : list kprobe_call :=
  (if ctrue (rp_kp_addr kp) then [UnregisterKretprobe i] else []) ++
  (if ctrue (jp_kp_addr kp) then [UnregisterJprobe i] else []).

Lemma cleanup_loop_spec (k n : nat) s :
  (k + n <= length (kprobes s))%nat ->
  cleanup_loop (seqZ (Z.of_nat k) (Z.of_nat n)) s =
    Some (MkDyn (kprobes s) (lastprobe s) (procfsbuffer s)
      (kp_calls s ++ concat (imap (fun i kp => kp_unregs (Z.of_nat (k + i)) kp) (take n (drop k (kprobes s)))))).
Proof.
  revert k s. induction n as [|n IH]; intros k s Hk.
  - rewrite take_0. cbn. rewrite app_nil_r. by destruct s.
  - destruct (lookup_lt_is_Some_2 (kprobes s) k) as [kp Hkp]; [lia|].
    rewrite seqZ_cons by lia. cbn [cleanup_loop]. unfold cleanup_one.
    assert (zget (kprobes s) (Z.of_nat k) = Some kp) as ->.
    { unfold zget. rewrite Nat2Z.id. by destruct (Z.leb_spec 0 (Z.of_nat k)); [|lia]. }
    cbn [mbind option_bind].
    replace (Z.succ (Z.of_nat k)) with (Z.of_nat (S k)) by lia.
    replace (Z.pred (Z.of_nat (S n))) with (Z.of_nat n) by lia.
    rewrite IH by (cbn [kprobes]; lia). cbn [kprobes lastprobe procfsbuffer kp_calls].
    rewrite (drop_S _ kp k) by done. cbn [take imap concat]. rewrite Nat.add_0_r.
    f_equal. f_equal. rewrite <- app_assoc. f_equal. fold (kp_unregs (Z.of_nat k) kp). f_equal. f_equal.
    apply imap_ext. intros i x _. cbn. f_equal. lia.
Qed.

Lemma unregistered_app l1 l2 : unregistered (l1 ++ l2) = unregistered l1 ++ unregistered l2.
Proof. apply omap_app. Qed.
Lemma registered_app l1 l2 : registered (l1 ++ l2) = registered l1 ++ registered l2.
Proof. apply omap_app. Qed.

Definition all_unregs (kps : list kprobeEntry) : list kprobe_call :=
  concat (imap (fun i kp => kp_unregs (Z.of_nat i) kp) kps).

(** Every call the cleanup makes for the used entries undoes a registration. *)
Lemma unregs_match kps :
  Forall (fun kp => rp_kp_addr kp <> 0) kps ->
  unregistered (all_unregs kps) = registered (all_regs kps) /\
  registered (all_unregs kps) = [] /\ unregistered (all_regs kps) = [].
Proof.
  induction kps as [|kp kps IH] using rev_ind; [done|].
  intros [Hks Hk]%Forall_app. apply Forall_inv in Hk. destruct (IH Hks) as (E1 & E2 & E3).
  rewrite all_regs_snoc. unfold all_unregs in *. rewrite imap_app, concat_app.
  cbn [imap concat]. rewrite app_nil_r, Nat.add_0_r, !unregistered_app, !registered_app, E1, E2, E3.
  unfold kp_unregs, kp_regs, ctrue. destruct (Z.eqb_spec (rp_kp_addr kp) 0); [done|]. cbn [negb].
  by destruct (negb (jp_kp_addr kp =? 0)).
Qed.

Lemma zero_unregs k : kp_unregs k zero_kp = [].
Proof. done. Qed.

Lemma cleanup_dynamic_spec s :
  dyn_ok s ->
  cleanup_dynamic_probing s = Some (MkDyn (kprobes s) (lastprobe s) (procfsbuffer s)
    (kp_calls s ++ all_unregs (take (Z.to_nat (lastprobe s)) (kprobes s)))).
Proof.
  intros Hs. pose proof (dok_len s Hs). pose proof (dok_last s Hs). unfold cleanup_dynamic_probing.
  replace (lastprobe s + 1) with (Z.of_nat (S (Z.to_nat (lastprobe s)))) by lia.
  rewrite (cleanup_loop_spec 0) by lia. rewrite drop_0. do 3 f_equal.
  pose proof (dyn_free_entry s Hs) as E. unfold zget in E. case_match; [|done].
  rewrite (take_S_r _ _ zero_kp) by done. rewrite imap_app, concat_app. cbn [imap concat].
  by rewrite zero_unregs, !app_nil_r.
Qed.
End dynamic_proofs.

(** After any sequence of writes to [/proc/dynprobes] (none as long as
    the buffer), at most 99 probes are installed, and unloading stays inside the array
    and unregisters every kretprobe and jprobe that was registered, each once. *)
Theorem dynamic_cleanup_balanced (l : list dyn_write) (s : dynamic) :
  length (procfsbuffer s) = 22%nat -> kp_calls s = [] -> Forall dw_fits l ->
  exists s1 s2, add_probes l (initialize_dynamic_probing s) = Some s1 /\ 0 <= lastprobe s1 <= 99 /\
    cleanup_dynamic_probing s1 = Some s2 /\
    unregistered (kp_calls s1) = [] /\
    unregistered (kp_calls s2) = registered (kp_calls s2) /\
    registered (kp_calls s2) = registered (kp_calls s1).
Proof.
  intros Hb Hc Hl. destruct (add_probes_ok l _ Hl (initialize_dynamic_ok s Hb Hc)) as (s1 & E1 & Hs1).
  rewrite E1. do 2 eexists. split; [reflexivity|]. split; [apply (dok_last s1 Hs1)|].
  split; [by apply cleanup_dynamic_spec|]. cbn [kp_calls].
  destruct (unregs_match _ (dok_used s1 Hs1)) as (M1 & M2 & M3).
  rewrite unregistered_app, registered_app, (dok_calls s1 Hs1), M1, M2, M3, app_nil_r. by split_and!.
Qed.

Definition dyn_boot : dynamic := MkDyn [] 0 (replicate 22 0) [].
Definition dyn_text : list Z := bytes_of "c0012345 c0099999".

Lemma dynamic_cleanup_balanced_witness :
  exists s1 s2, add_probes [MkDw true dyn_text 17 0 0] (initialize_dynamic_probing dyn_boot) = Some s1 /\
    0 <= lastprobe s1 <= 99 /\ cleanup_dynamic_probing s1 = Some s2 /\
    unregistered (kp_calls s1) = [] /\
    unregistered (kp_calls s2) = registered (kp_calls s2) /\
    registered (kp_calls s2) = registered (kp_calls s1).
Proof.
  apply (dynamic_cleanup_balanced [MkDw true dyn_text 17 0 0] dyn_boot); [reflexivity|reflexivity|].
  constructor; [|constructor]. unfold dw_fits. simpl. lia.
Defined.

(** Because [ret] is unsigned, the outcome of [register_kretprobe] and
    [register_jprobe] has no influence: a probe that could not be installed is
    reported to the user as installed, counted, and unregistered on unload. *)
Theorem failed_registration_ignored (ok : bool) (user : list Z) (count rk rj : Z) (s : dynamic) :
  add_probe ok user count rk rj s = add_probe ok user count 0 0 s.
Proof.
  unfold add_probe. destruct (_ <? count); [done|]. destruct (zset (procfsbuffer s) count 0); [|done].
  cbn [mbind option_bind]. destruct (negb ok); [done|].
  destruct (sscanf _ _) as [[n out]|]; [|done]. cbn [mbind option_bind].
  by rewrite !ret_negative_never.
Qed.

Example failed_registration :
  (add_probe true dyn_text 17 (- ENOENT) (- ENOENT) (initialize_dynamic_probing dyn_boot)) ≫=
    (fun '(r, s) => Some (r, lastprobe s, kp_calls s)) =
  Some (17, 1, [RegisterKretprobe 0 3221300037; RegisterJprobe 0 3221300037 3221854617]).
Proof. vm_compute. reflexivity. Qed.

(** A write of exactly the size of the buffer passes the size test, and its
    terminating NUL is stored behind the end of the buffer; a longer one is
    rejected. *)
Theorem add_probe_off_by_one (ok : bool) (user : list Z) (rk rj : Z) (s : dynamic) :
  length (procfsbuffer s) = 22%nat ->
  add_probe ok user 22 rk rj s = None /\
  (forall count, 22 < count -> add_probe ok user count rk rj s = Some (-1, s)).
Proof.
  intros Hb. unfold add_probe. change (MEMADDR_STRINGSIZE * 2 + 1 + 1) with 22. split.
  - simpl (22 <? 22). cbv iota. rewrite (proj2 (zset_None _ _ _)); [done|]. lia.
  - intros count Hc. by destruct (Z.ltb_spec 22 count); [|lia].
Qed.

Lemma add_probe_off_by_one_witness :
  add_probe true (replicate 22 49) 22 0 0 dyn_boot = None /\
  (forall count, 22 < count -> add_probe true (replicate 22 49) count 0 0 dyn_boot = Some (-1, dyn_boot)).
Proof. apply (add_probe_off_by_one true (replicate 22 49) 0 0 dyn_boot). reflexivity. Defined.

(** ** Looking up symbols *)

Section st_proofs.

(** The buffer after copying [user] over it, with a NUL stored behind it. *)
Lemma copied_buffer (b user : list Z) :
  (length user < length b)%nat ->
  user ++ drop (length user) (<[length user := 0]> b) = user ++ 0 :: drop (S (length user)) b.
Proof.
  intros H. f_equal. rewrite (drop_S _ 0) by (by apply list_lookup_insert_eq). by rewrite drop_insert_lt by lia.
Qed.

(** What [set_address] does with a text of the allowed size that ends in a
    newline. *)
Lemma set_address_line name s :
  length (stsymbuffer s) = 512%nat -> name <> [] -> (length name < 255)%nat ->
  set_address true (name ++ [10]) (Z.of_nat (length name) + 1) s =
    (let b := name ++ 0 :: 0 :: drop (length name + 2) (stsymbuffer s) in
     c0 ← zget b 0; c1 ← zget b 1;
     if (c0 =? 48) && (c1 =? 120) then
       '(_, out) ← sscanf (cstr b) (bytes_of "0x%lx");
       let address := match out with StNum _ _ v :: _ => v | _ => st_address s end in
       if address =? 0 then Some (-1, MkSt address STERROR b)
       else Some (Z.of_nat (length name) + 1, MkSt address ADDRESS b)
     else Some (Z.of_nat (length name) + 1, MkSt (st_address s) SYMBOL b)).
Proof.
  intros Hb Hn Hl. unfold set_address, ST_STRINGSIZE.
  destruct (Z.ltb_spec 255 (Z.of_nat (length name) + 1)); [lia|].
  rewrite zset_is_Some by lia. cbn [mbind option_bind negb].
  replace (Z.to_nat (Z.of_nat (length name) + 1)) with (length (name ++ [10])) by (rewrite length_app; simpl; lia).
  rewrite copied_buffer by (rewrite length_app; simpl; lia).
  replace (Z.of_nat (length name) + 1 - 1) with (Z.of_nat (length name)) by lia.
  rewrite u32_id, s32_id by lia.
  replace (S (length (name ++ [10]))) with (length name + 2)%nat by (rewrite length_app; simpl; lia).
  rewrite <- app_assoc. cbn [app].
  assert (zget (name ++ 10 :: 0 :: drop (length name + 2) (stsymbuffer s)) (Z.of_nat (length name)) = Some 10) as ->.
  { unfold zget. destruct (Z.leb_spec 0 (Z.of_nat (length name))); [|lia].
    by rewrite Nat2Z.id, list_lookup_middle. }
  cbn [mbind option_bind Z.eqb Pos.eqb].
  rewrite zset_is_Some by (rewrite length_app; simpl; lia).
  rewrite Nat2Z.id, insert_app_r_alt, Nat.sub_diag by lia. reflexivity.
Qed.
End st_proofs.

(** A symbol name written to [/proc/st] as a line is looked up by the next
    read, which delivers the digits of its address (the text is at most 8
    characters long, so it fits any request of that size). *)
Theorem symbol_lookup (lookup_name : list Z -> Z) (sprint : Z -> list Z) (name : list Z) (count : Z) (s : st) :
  length (stsymbuffer s) = 512%nat -> name <> [] -> (length name < 255)%nat ->
  Forall (fun c => c <> 0) name -> take 2 name <> bytes_of "0x" ->
  Z.of_nat (length (hex_chars (lookup_name name))) <= count ->
  exists s', set_address true (name ++ [10]) (Z.of_nat (length name) + 1) s = Some (Z.of_nat (length name) + 1, s') /\
    (read_symbol sprint lookup_name 0 count s').1 =
      MkRead (Z.of_nat (length (hex_chars (lookup_name name)))) true (hex_chars (lookup_name name)).
Proof.
  intros Hb Hn Hl Hz Hx Hc. rewrite set_address_line by done. cbn zeta.
  destruct name as [|c0 name]; [done|]. cbn [app]. change (zget (c0 :: _) 0) with (Some c0). cbn [mbind option_bind].
  assert (is_Some (zget (c0 :: name ++ 0 :: 0 :: drop (length (c0 :: name) + 2) (stsymbuffer s)) 1)) as [c1 Hc1].
  { apply zget_is_Some. cbn [length]. rewrite length_app. cbn [length]. lia. }
  rewrite Hc1. cbn [mbind option_bind].
  destruct ((c0 =? 48) && (c1 =? 120)) eqn:E.
  { apply andb_true_iff in E as [->%Z.eqb_eq ->%Z.eqb_eq]. destruct name as [|c name]; [done|].
    by injection Hc1 as ->. }
  eexists. split; [reflexivity|]. unfold read_symbol. cbn [st_type stsymbuffer]. 
  change (SYMBOL =? ADDRESS) with false. change (SYMBOL =? SYMBOL) with true. simpl (0 <? 0). cbv iota.
  change (c0 :: name ++ 0 :: 0 :: ?r) with ((c0 :: name) ++ 0 :: 0 :: r).
  rewrite cstr_app by done. cbn [fst].
  destruct (Z.leb_spec (Z.of_nat (length (hex_chars (lookup_name (c0 :: name))))) (count + 0)); [|lia].
  destruct (Z.ltb_spec count (Z.of_nat (length (hex_chars (lookup_name (c0 :: name)))) - 0)); [lia|].
  destruct (Z.ltb_spec (Z.of_nat (length (hex_chars (lookup_name (c0 :: name)))) - 0) 0); [lia|].
  by rewrite Z.sub_0_r, drop_0.
Qed.

Definition st_boot : st := MkSt 0 0 (replicate 512 0).

Lemma symbol_lookup_witness :
  exists s', set_address true (bytes_of "schedule" ++ [10]) 9 st_boot = Some (9, s') /\
    (read_symbol (fun _ => []) (fun _ => 3221300037) 0 4096 s').1 = MkRead 8 true (bytes_of "c0012345").
Proof.
  apply (symbol_lookup (fun _ => 3221300037) (fun _ => []) (bytes_of "schedule") 4096 st_boot).
  - reflexivity.
  - discriminate.
  - simpl. lia.
  - repeat (constructor; [discriminate|]). constructor.
  - discriminate.
  - vm_compute. discriminate.
Defined.

(** An address without digits is accepted when an earlier write left an
    address behind: [sscanf] stores nothing, and the test for a malformed
    address sees the old one. *)
Theorem stale_address_accepted (s : st) :
  length (stsymbuffer s) = 512%nat -> st_address s <> 0 ->
  exists s', set_address true (bytes_of "0xyz" ++ [10]) 5 s = Some (5, s') /\
    st_type s' = ADDRESS /\ st_address s' = st_address s.
Proof.
  intros Hb Ha. change 5 with (Z.of_nat (length (bytes_of "0xyz")) + 1).
  rewrite set_address_line; [|done|discriminate|simpl; lia]. cbn zeta.
  rewrite cstr_app by (repeat (constructor; [discriminate|]); constructor).
  change (bytes_of "0xyz") with [48; 120; 121; 122] at 1 2 4 5. cbn [app].
  change (zget (48 :: ?l) 0) with (Some 48). change (zget (48 :: 120 :: ?l) 1) with (Some 120).
  assert (sscanf (bytes_of "0xyz") (bytes_of "0x%lx") = Some (0, [])) as -> by (vm_compute; reflexivity).
  cbn [mbind option_bind Z.eqb Pos.eqb andb]. destruct (Z.eqb_spec (st_address s) 0); [done|].
  eexists. by split_and!.
Qed.

Lemma stale_address_accepted_witness :
  exists s', set_address true (bytes_of "0xyz" ++ [10]) 5 (MkSt 3221300037 ADDRESS (replicate 512 0)) = Some (5, s') /\
    st_type s' = ADDRESS /\ st_address s' = 3221300037.
Proof. apply (stale_address_accepted (MkSt 3221300037 ADDRESS (replicate 512 0))); [reflexivity|discriminate]. Defined.

(** A write of no bytes makes [set_address] look for a newline in front of
    its buffer. *)
Theorem empty_write_underflow (s : st) :
  length (stsymbuffer s) = 512%nat -> set_address true [] 0 s = None.
Proof.
  intros Hb. unfold set_address. simpl (ST_STRINGSIZE <? 0). cbv iota.
  destruct (zset (stsymbuffer s) 0 0) as [b|] eqn:Eb; [|done]. apply zset_length in Eb.
  cbn [mbind option_bind negb length app]. rewrite drop_0. change (u32 (0 - 1)) with 4294967295.
  destruct (zget b 4294967295) eqn:E; [|done]. apply zget_Some in E. lia.
Qed.

Lemma empty_write_underflow_witness : set_address true [] 0 st_boot = None.
Proof. apply (empty_write_underflow st_boot). reflexivity. Defined.
