(* ===== verification/Sepextmod.v ===== *)
(** * SEPExtract: loading and unloading the module

    [kernel/trace/sepextracttracer/sepext.c] composes the components: loading
    initialises the tracer, registers the static probes and creates the proc
    files of the dynamic probes and of the symbol lookup; unloading undoes this.
    The state is that of all components plus the three proc entries that
    [static.c], [dynamic.c] and [st.c] create. *)

From S2P Require Import Prelude Sepext Vsprintf Tracer Concurrent Tracepoint Probes Dynamic.
From stdpp Require Import prelude gmap list strings.
From Stdlib Require Import ZArith Lia.

Open Scope Z_scope.
Open Scope list_scope.

Record sepext_module := MkMod {
  mod_tracer : tracer;
  mod_res : resources;
  mod_tps : tracepoints;
  mod_ex : extractors;
  mod_dyn : dynamic;
  proc_pktextr : bool;
  proc_trace : bool;     (* dynprobes *)
  st_trace : bool }.     (* st *)

(** What the three [create_proc_entry] calls return. *)
Record proc_env := MkProc { pe_pktextr : bool; pe_dynprobes : bool; pe_st : bool }.

Section sepext_module.
Context (addr : string -> Z) (al : string -> bool) (c : config).

Definition sepext_init_module (ie : init_env) (pe : proc_env) (numentries : Z) (s : sepext_module) : Z * sepext_module :=
  let '(ret, t, r) := initialize_tracer ie numentries (mod_tracer s) (mod_res s) in
  if ctrue ret then
    (-10, MkMod t r (mod_tps s) (mod_ex s) (mod_dyn s) (proc_pktextr s) (proc_trace s) (st_trace s))
  else
    let '(tps, ex) := activate_static_probes addr al c (mod_tps s) (mod_ex s) in
    (0, MkMod t r tps ex (initialize_dynamic_probing (mod_dyn s)) (pe_pktextr pe) (pe_dynprobes pe) (pe_st pe)).

(** The calls of [cleanup_module], in order. *)
Inductive cleanup_call :=
  | CleanupDynamicProbing | DeactivateStaticProbes | CleanupTracer | TracepointSynchronizeUnregister | CleanupSt.

Definition cleanup_calls : list cleanup_call :=
  [CleanupDynamicProbing; DeactivateStaticProbes; CleanupTracer; TracepointSynchronizeUnregister; CleanupSt].

(** [tracepoint_synchronize_unregister] waits for the probes that are running
    and changes nothing here. *)
Definition cleanup_one_call (k : cleanup_call) (s : sepext_module) : option sepext_module :=
  match k with
  | CleanupDynamicProbing =>
      d ← cleanup_dynamic_probing (mod_dyn s);
      Some (MkMod (mod_tracer s) (mod_res s) (mod_tps s) (mod_ex s) d (proc_pktextr s) false (st_trace s))
  | DeactivateStaticProbes =>
      Some (MkMod (mod_tracer s) (mod_res s) (deactivate_static_probes addr al c (mod_tps s)) (mod_ex s) (mod_dyn s)
              false (proc_trace s) (st_trace s))
  | CleanupTracer =>
      let '(t, r) := cleanup_tracer (mod_tracer s) in
      Some (MkMod t r (mod_tps s) (mod_ex s) (mod_dyn s) (proc_pktextr s) (proc_trace s) (st_trace s))
  | TracepointSynchronizeUnregister => Some s
  | CleanupSt =>
      Some (MkMod (mod_tracer s) (mod_res s) (mod_tps s) (mod_ex s) (mod_dyn s) (proc_pktextr s) (proc_trace s) false)
  end.

Fixpoint cleanup_run (ks : list cleanup_call) (s : sepext_module) : option sepext_module :=
  match ks with
  | [] => Some s
  | k :: ks' => s' ← cleanup_one_call k s; cleanup_run ks' s'
  end.

Definition cleanup_module (s : sepext_module) : option sepext_module := cleanup_run cleanup_calls s.

(** Writes to [/proc/dynprobes] while the module is loaded. *)
Definition write_dynprobes (l : list dyn_write) (s : sepext_module) : option sepext_module :=
  d ← add_probes l (mod_dyn s);
  Some (MkMod (mod_tracer s) (mod_res s) (mod_tps s) (mod_ex s) d (proc_pktextr s) (proc_trace s) (st_trace s)).
End sepext_module.

(** ** Theorems *)

(** Everything succeeds: a block of [n] entries is allocated. *)
Definition good_init (ie : init_env) (numentries : Z) (block : list sepentry) : Prop :=
  ie_stats ie = true /\ ie_vmalloc ie (u32 (sizeof_sepentry * numentries)) = Some block /\ ie_netlink ie = true.

(** The probes of the configurations without CONFIG_SEPEXT_TRACEPOINTS_ENABLED
    are unregistered as they were registered. *)
Lemma static_probes_restored addr al c s ex n :
  (forall x, addr x <> 0) -> (forall x, al x = true) -> tps_ok s -> synced s ->
  SEPEXT_TRACEPOINTS_ENABLED c = false ->
  (forall x, x ∈ registered_probes c -> probes s (tp_name x) = []) ->
  probes (deactivate_static_probes addr al c (activate_static_probes addr al c s ex).1) n = probes s n.
Proof.
  intros Haddr Hal Hs Hy Hc Hp.
  assert (unregistered_probes c = registered_probes c) as Heq
    by (unfold unregistered_probes, registered_probes; by rewrite Hc).
  destruct (register_all addr al Haddr Hal _ s Hs Hy (registered_names_nodup c) Hp) as (Hs1 & Hy1 & Hin & Hout).
  destruct (unregister_all addr al Hal (unregistered_probes c) (activate_static_probes addr al c s ex).1 Hs1 Hy1
    (unregistered_names_nodup c)) as (_ & _ & Hoff & Hon).
  { intros x Hx. rewrite Heq in Hx. by apply Hin. }
  unfold deactivate_static_probes. rewrite Heq in *.
  destruct (decide (n ∈ tp_name <$> registered_probes c)) as [(x & -> & Hx)%list_elem_of_fmap|Hn].
  - rewrite Hoff by done. symmetry. by apply Hp.
  - rewrite Hon by done. by apply Hout.
Qed.

(** In the configuration of this kernel, loading the module, writing any
    dynamic probes and unloading it again gives everything back: the tracer's
    buffer, socket and proc files, the other proc files, every static probe and
    every dynamic probe. *)
Theorem load_unload (addr : string -> Z) (al : string -> bool) (c : config) (ie : init_env) (pe : proc_env)
    (numentries : Z) (block : list sepentry) (l : list dyn_write) (s : sepext_module) :
  (forall x, addr x <> 0) -> (forall x, al x = true) -> SEPEXT_TRACEPOINTS_ENABLED c = false ->
  tps_ok (mod_tps s) -> synced (mod_tps s) ->
  (forall x, x ∈ registered_probes c -> probes (mod_tps s) (tp_name x) = []) ->
  length (procfsbuffer (mod_dyn s)) = 22%nat -> kp_calls (mod_dyn s) = [] -> Forall dw_fits l ->
  good_init ie numentries block ->
  exists s1 s2 s3, sepext_init_module addr al c ie pe numentries s = (0, s1) /\
    entries (mod_tracer s1) = block /\ avail_entries (mod_tracer s1) = numentries /\
    write_dynprobes l s1 = Some s2 /\ cleanup_module addr al c s2 = Some s3 /\
    mod_res s3 = MkRes false false false false /\ entries (mod_tracer s3) = [] /\
    proc_pktextr s3 = false /\ proc_trace s3 = false /\ st_trace s3 = false /\
    (forall n, probes (mod_tps s3) n = probes (mod_tps s) n) /\
    unregistered (kp_calls (mod_dyn s3)) = Dynamic.registered (kp_calls (mod_dyn s3)).
Proof.
  intros Haddr Hal Hc Hs Hy Hp Hb Hk Hl (Hst & Hvm & Hnl).
  destruct (add_probes_ok l _ Hl (initialize_dynamic_ok (mod_dyn s) Hb Hk)) as (d1 & E1 & Hd1).
  pose proof (cleanup_dynamic_spec d1 Hd1) as E2.
  destruct (unregs_match _ (dok_used d1 Hd1)) as (M1 & M2 & M3).
  unfold sepext_init_module, initialize_tracer. rewrite Hst, Hvm, Hnl. cbn [negb].
  simpl (ctrue 0). cbv iota. do 3 eexists. split; [reflexivity|]. split; [reflexivity|]. split; [reflexivity|].
  unfold write_dynprobes. cbn [mod_dyn]. rewrite E1. cbn [mbind option_bind]. split; [reflexivity|].
  unfold cleanup_module, cleanup_calls. cbn [cleanup_run cleanup_one_call mod_dyn]. rewrite E2.
  cbn [mbind option_bind cleanup_tracer mod_tracer mod_res mod_tps mod_ex mod_dyn proc_pktextr proc_trace st_trace].
  split; [reflexivity|].
  cbn [mod_tracer mod_res mod_tps mod_ex mod_dyn proc_pktextr proc_trace st_trace kp_calls].
  split_and!; try reflexivity.
  - intros n. by apply (static_probes_restored addr al c (mod_tps s) (mod_ex s)).
  - by rewrite unregistered_app, registered_app, (dok_calls d1 Hd1), M1, M2, M3, app_nil_r.
Qed.

(** The kernel's configuration, and a module state before loading. *)
Definition omap_config : config := MkCfg false true true.
Definition mod_boot : sepext_module :=
  MkMod (sample_tracer 0) (MkRes false false false false) boot_tps no_extractors dyn_boot false false false.
Definition sample_init (netlink : bool) : init_env :=
  MkInit true true (fun n => Some (replicate (Z.to_nat (n / sizeof_sepentry)) zero_entry)) netlink.
Definition sample_procs : proc_env := MkProc true true true.

Lemma load_unload_witness :
  exists s1 s2 s3, sepext_init_module sample_addr (fun _ => true) omap_config (sample_init true) sample_procs 4 mod_boot = (0, s1) /\
    entries (mod_tracer s1) = replicate 4 zero_entry /\ avail_entries (mod_tracer s1) = 4 /\
    write_dynprobes [MkDw true dyn_text 17 0 0] s1 = Some s2 /\
    cleanup_module sample_addr (fun _ => true) omap_config s2 = Some s3 /\
    mod_res s3 = MkRes false false false false /\ entries (mod_tracer s3) = [] /\
    proc_pktextr s3 = false /\ proc_trace s3 = false /\ st_trace s3 = false /\
    (forall n, probes (mod_tps s3) n = probes (mod_tps mod_boot) n) /\
    unregistered (kp_calls (mod_dyn s3)) = Dynamic.registered (kp_calls (mod_dyn s3)).
Proof.
  refine (load_unload sample_addr (fun _ => true) omap_config (sample_init true) sample_procs 4 (replicate 4 zero_entry)
    [MkDw true dyn_text 17 0 0] mod_boot sample_addr_nonzero (fun _ => eq_refl) eq_refl
    (proj1 boot_tps_ok) (proj2 boot_tps_ok) (fun x _ => boot_tps_probes (tp_name x)) eq_refl eq_refl _ _).
  - constructor; [|constructor]. unfold dw_fits. simpl. lia.
  - repeat split.
Defined.

(** When the netlink socket cannot be created, loading fails with -10 but
    the proc files and the buffer stay allocated, with nothing left to free
    them. *)
Theorem failed_load_leaks (addr : string -> Z) (al : string -> bool) (c : config) (ie : init_env) (pe : proc_env)
    (numentries : Z) (block : list sepentry) (s : sepext_module) :
  ie_stats ie = true -> ie_cmd ie = true -> ie_netlink ie = false ->
  ie_vmalloc ie (u32 (sizeof_sepentry * numentries)) = Some block ->
  exists s', sepext_init_module addr al c ie pe numentries s = (-10, s') /\
    mod_res s' = MkRes true true true (res_netlink (mod_res s)) /\ entries (mod_tracer s') = block.
Proof.
  intros Hst Hcmd Hnl Hvm. unfold sepext_init_module, initialize_tracer. rewrite Hst, Hvm, Hnl, Hcmd. cbn [negb].
  simpl (ctrue 1). cbv iota. eexists. by split_and!.
Qed.

Lemma failed_load_leaks_witness :
  exists s', sepext_init_module sample_addr (fun _ => true) omap_config (sample_init false) sample_procs 4 mod_boot = (-10, s') /\
    mod_res s' = MkRes true true true false /\ entries (mod_tracer s') = replicate 4 zero_entry.
Proof.
  apply (failed_load_leaks sample_addr (fun _ => true) omap_config (sample_init false) sample_procs 4
    (replicate 4 zero_entry) mod_boot); reflexivity.
Defined.

(** Unloading frees the buffer before it waits for running probes. A probe
    that has claimed an entry when unloading starts can store to it as long as
    the tracer is not cleaned up; after the calls that precede
    [tracepoint_synchronize_unregister] its next store hits the freed buffer. *)
Theorem cleanup_frees_under_probe (addr : string -> Z) (al : string -> bool) (c : config)
    (call : cpu_env * te_args) (s : sepext_module) :
  dyn_ok (mod_dyn s) -> tracing_active (mod_tracer s) <> 0 ->
  0 <= lastentry (mod_tracer s) < avail_entries (mod_tracer s) ->
  avail_entries (mod_tracer s) = Z.of_nat (length (entries (mod_tracer s))) -> avail_entries (mod_tracer s) < 2 ^ 27 ->
  exists k1 s2, t_step 0 call TClaim (mod_tracer s) = Some (k1, TWrite (lastentry (mod_tracer s)) 0, [0%nat], []) /\
    is_Some (t_step 0 call (TWrite (lastentry (mod_tracer s)) 0) k1) /\
    cleanup_calls = [CleanupDynamicProbing; DeactivateStaticProbes; CleanupTracer]
      ++ TracepointSynchronizeUnregister :: [CleanupSt] /\
    cleanup_run addr al c [CleanupDynamicProbing; DeactivateStaticProbes; CleanupTracer]
      (MkMod k1 (mod_res s) (mod_tps s) (mod_ex s) (mod_dyn s) (proc_pktextr s) (proc_trace s) (st_trace s)) = Some s2 /\
    t_step 0 call (TWrite (lastentry (mod_tracer s)) 0) (mod_tracer s2) = None.
Proof.
  intros Hd Ha Hl Hlen Hav. set (k := mod_tracer s) in *.
  pose proof (cleanup_dynamic_spec _ Hd) as E.
  exists (set_lastentry (lastentry k + 1) k). eexists. split.
  { cbn [t_step]. rewrite s32_id by lia. destruct (Z.ltb_spec (avail_entries (set_lastentry (lastentry k + 1) k)) (u32 (lastentry k + 1))) as [H|H].
    - rewrite u32_id in H by lia. cbn [avail_entries set_lastentry] in H. lia.
    - by replace (lastentry k + 1 - 1) with (lastentry k) by lia. }
  split.
  { cbn [t_step]. destruct (zget_is_Some (entries (set_lastentry (lastentry k + 1) k)) (lastentry k)) as [e ->].
    { cbn [entries set_lastentry]. lia. }
    cbn [mbind option_bind]. rewrite zset_is_Some; [eauto|]. cbn [entries set_lastentry]. lia. }
  split; [reflexivity|].
  cbn [cleanup_run cleanup_one_call mod_dyn]. rewrite E.
  cbn [mbind option_bind cleanup_tracer mod_tracer mod_res mod_tps mod_ex mod_dyn proc_pktextr proc_trace st_trace].
  split; [reflexivity|]. cbn [mod_tracer t_step entries set_entries].
  unfold zget. by destruct (0 <=? lastentry k).
Qed.

Lemma cleanup_frees_under_probe_witness :
  exists k1 s2, t_step 0 (sample_env 0, sample_call) TClaim (set_tracing_active 1 (sample_tracer 3)) =
      Some (k1, TWrite 0 0, [0%nat], []) /\
    is_Some (t_step 0 (sample_env 0, sample_call) (TWrite 0 0) k1) /\
    cleanup_calls = [CleanupDynamicProbing; DeactivateStaticProbes; CleanupTracer]
      ++ TracepointSynchronizeUnregister :: [CleanupSt] /\
    cleanup_run sample_addr (fun _ => true) omap_config [CleanupDynamicProbing; DeactivateStaticProbes; CleanupTracer]
      (MkMod k1 (MkRes true true true true) boot_tps no_extractors (initialize_dynamic_probing dyn_boot) true true true) = Some s2 /\
    t_step 0 (sample_env 0, sample_call) (TWrite 0 0) (mod_tracer s2) = None.
Proof.
  apply (cleanup_frees_under_probe sample_addr (fun _ => true) omap_config (sample_env 0, sample_call)
    (MkMod (set_tracing_active 1 (sample_tracer 3)) (MkRes true true true true) boot_tps no_extractors
      (initialize_dynamic_probing dyn_boot) true true true)).
  - by apply initialize_dynamic_ok.
  - discriminate.
  - simpl. lia.
  - reflexivity.
  - simpl. lia.
Defined.
