(* ===== verification/Linked.v ===== *)
(** * Singly linked lists in memory

    Lemmas shared by the two linked queues of the development, the packet
    queues of the wireless driver ([Pktq]) and the tasklet queues ([Softirq]).
    A memory is seen through the function that reads the link of a node: [None]
    when there is no node at the address, [Some 0] for a NULL link. *)

From S2P Require Import Prelude.
From stdpp Require Import prelude gmap list.
From Stdlib Require Import ZArith Lia.

Open Scope Z_scope.
Open Scope list_scope.

(** Following the links from [a] visits the nodes of [l] and ends at [b]. *)
Fixpoint lseg (nx : Z -> option Z) (a : Z) (l : list Z) (b : Z) : Prop :=
  match l with
  | [] => a = b
  | x :: l' => a = x /\ x <> 0 /\ exists n, nx x = Some n /\ lseg nx n l' b
  end.

(** The last node of a list, NULL if it is empty. *)
Definition last0 (l : list Z) : Z := default 0 (last l).

Section lseg.
Implicit Types (nx : Z -> option Z) (l : list Z).

Lemma lseg_app nx a l1 l2 b : lseg nx a (l1 ++ l2) b <-> exists m, lseg nx a l1 m /\ lseg nx m l2 b.
Proof.
  revert a. induction l1 as [|x l1 IH]; intros a; cbn [app lseg].
  - split; [eauto|]. by intros (m & -> & H).
  - split.
    + intros (-> & Hx & n & Hn & (m & H1 & H2)%IH). eauto 10.
    + intros (m & (-> & Hx & n & Hn & H1) & H2). split_and!; try done. exists n. split; [done|]. apply IH. eauto.
Qed.

Lemma lseg_ext nx nx' a l b : (forall x, x ∈ l -> nx' x = nx x) -> lseg nx a l b -> lseg nx' a l b.
Proof.
  revert a. induction l as [|x l IH]; intros a Hx; [done|]. intros (-> & Hnz & n & Hn & H).
  split_and!; try done. exists n. rewrite Hx by left. split; [done|]. apply IH; [|done]. intros y Hy. apply Hx. by right.
Qed.

Lemma lseg_null nx l b : lseg nx 0 l b -> l = [].
Proof. destruct l; [done|]. by intros (<- & ? & _). Qed.

Lemma lseg_start nx a l : lseg nx a l 0 -> (a =? 0) = bool_decide (l = []).
Proof.
  destruct l as [|x l]; cbn [lseg]; [by intros ->|]. intros (-> & Hx & _). rewrite bool_decide_eq_false_2 by done.
  by apply Z.eqb_neq.
Qed.

Lemma lseg_nonzero nx a l b x : lseg nx a l b -> x ∈ l -> x <> 0.
Proof.
  revert a. induction l as [|y l IH]; intros a; [by intros _ ?%not_elem_of_nil|].
  intros (_ & Hy & n & _ & H) [->|Hx]%elem_of_cons; eauto.
Qed.

Lemma lseg_node nx a l b x : lseg nx a l b -> x ∈ l -> is_Some (nx x).
Proof.
  revert a. induction l as [|y l IH]; intros a; [by intros _ ?%not_elem_of_nil|].
  intros (_ & Hy & n & Hn & H) [->|Hx]%elem_of_cons; eauto.
Qed.

(** Lists without repetition are no longer than the memory has nodes. *)
Lemma lseg_size (m : gmap Z Z) a l b : NoDup l -> lseg (fun x => m !! x) a l b -> (length l <= size m)%nat.
Proof.
  intros Hnd Hl. rewrite <- (length_seq (length l) 0), <- (size_dom (D := gset Z)).
  rewrite length_seq, <- (size_list_to_set (C := gset Z) l) by done. apply subseteq_size.
  intros x Hx. apply elem_of_list_to_set in Hx. apply elem_of_dom. by eapply (lseg_node (fun x => m !! x)).
Qed.

(** Linking a new last node behind the old one. *)
Lemma lseg_snoc nx nx' a l y x :
  NoDup (l ++ [y; x]) -> x <> 0 -> lseg nx a (l ++ [y]) 0 ->
  (forall z, z ∈ l -> nx' z = nx z) -> nx' y = Some x -> nx' x = Some 0 ->
  lseg nx' a (l ++ [y; x]) 0.
Proof.
  intros Hnd Hx (m & H1 & Hy)%lseg_app Hsame Hny Hnx. apply lseg_app. exists m. split.
  - by eapply lseg_ext.
  - destruct Hy as (-> & Hy0 & _). cbn [lseg]. eauto 10.
Qed.

(** The link of the last node is where the list ends. *)
Lemma lseg_last_link nx a l y b : lseg nx a (l ++ [y]) b -> nx y = Some b.
Proof. by intros (m & _ & (-> & _ & n & Hn & <-))%lseg_app. Qed.

Lemma last0_snoc l x : last0 (l ++ [x]) = x.
Proof. unfold last0. by rewrite last_snoc. Qed.

Lemma last0_in l : l <> [] -> last0 l ∈ l.
Proof.
  destruct l as [|x l] using rev_ind; [done|]. intros _. rewrite last0_snoc. apply elem_of_app. right. by left.
Qed.

Lemma last0_app l1 l2 : l2 <> [] -> last0 (l1 ++ l2) = last0 l2.
Proof. destruct l2 as [|x l2] using rev_ind; [done|]. intros _. by rewrite app_assoc, !last0_snoc. Qed.
End lseg.

(** ** A list of lists, with one of them replaced *)
Section concat.
Context {A : Type}.
Implicit Types (qs : list (list A)) (l : list A).

Definition others (i : nat) qs : list A := concat (take i qs ++ drop (S i) qs).

Lemma concat_others i qs l : qs !! i = Some l -> concat qs ≡ₚ l ++ others i qs.
Proof.
  intros Hi. unfold others. rewrite <- (take_drop_middle qs i l Hi) at 1. rewrite !concat_app. cbn [concat].
  solve_Permutation.
Qed.

Lemma concat_insert_others i qs l : (i < length qs)%nat -> concat (<[i := l]> qs) ≡ₚ l ++ others i qs.
Proof.
  intros Hi. rewrite (concat_others i _ l) by (by apply list_lookup_insert_eq).
  unfold others. by rewrite take_insert_ge, drop_insert_lt by lia.
Qed.

Lemma elem_of_others i j qs l x : qs !! j = Some l -> i <> j -> x ∈ l -> x ∈ others i qs.
Proof.
  intros Hj Hij Hx. unfold others. apply list_elem_of_In, in_concat. exists l.
  split; [|by apply list_elem_of_In]. apply list_elem_of_In, elem_of_app.
  destruct (decide (j < i)%nat).
  - left. apply (list_elem_of_lookup_2 _ j). rewrite lookup_take_lt; [done|lia].
  - right. apply (list_elem_of_lookup_2 _ (j - S i)). rewrite lookup_drop, <- Hj. f_equal. lia.
Qed.
End concat.
