(* ===== verification/Pktq.v ===== *)
(** * Packet queues of the wireless driver

    [drivers/net/wireless/bcmdhd/bcmutils.c], the queues with several
    precedences in which the bcmdhd driver keeps its packets, and
    [dhd_prec_enq] of [dhd_common.c], the instrumented function that puts a
    packet on the transmit queue.

    A packet is an address; [PKTLINK] is the field of the socket buffer that
    links a queue. The memory maps the packets that are allocated to their
    link, so that [None] is an access to a packet that was freed, or outside the
    array of queues. [ASSERT] is empty in this build. *)

From S2P Require Import Prelude Sepext Vsprintf Linked.
From stdpp Require Import prelude gmap list.
From Stdlib Require Import ZArith Lia.

Open Scope Z_scope.
Open Scope list_scope.

Definition PKTLINK (m : gmap Z Z) (p : Z) : option Z := m !! p.
Definition PKTSETLINK (m : gmap Z Z) (p x : Z) : option (gmap Z Z) :=
  match m !! p with Some _ => Some (<[p := x]> m) | None => None end.

(** [struct pktq_prec] *)
Record pktq_prec := MkPrec { q_head : Z; q_tail : Z; q_len : Z; q_max : Z }.

(** [struct pktq]: the [num_prec] queues that [pktq_init] initialises. *)
Record pktq := MkPq { num_prec : Z; hi_prec : Z; pq_max : Z; pq_len : Z; pq_q : list pktq_prec }.

Definition pktq_pfull (q : pktq_prec) : bool := q_max q <=? q_len q.
Definition pktq_full (pq : pktq) : bool := pq_max pq <=? pq_len pq.

(** The result of a dequeue: the packet (NULL if none) and [*prec_out], if it
    is stored. *)
Record deq_result := MkDeq { dq_pkt : Z; dq_prec : option Z }.

Definition pktq_init (nprec max_len : Z) : pktq :=
  MkPq (u16 nprec) 0 (u16 max_len) 0 (replicate (Z.to_nat nprec) (MkPrec 0 0 0 (u16 max_len))).

Definition pktq_penq (pq : pktq) (prec p : Z) (m : gmap Z Z) : option (Z * pktq * gmap Z Z) :=
  q ← zget (pq_q pq) prec;
  '(head, m) ← (if ctrue (q_head q) then m' ← PKTSETLINK m (q_tail q) p; Some (q_head q, m') else Some (p, m));
  qs ← zset (pq_q pq) prec (MkPrec head p (u16 (q_len q + 1)) (q_max q));
  Some (p, MkPq (num_prec pq) (if hi_prec pq <? prec then u8 prec else hi_prec pq) (pq_max pq)
             (u16 (pq_len pq + 1)) qs, m).

Definition pktq_penq_head (pq : pktq) (prec p : Z) (m : gmap Z Z) : option (Z * pktq * gmap Z Z) :=
  q ← zget (pq_q pq) prec;
  let tail := if q_head q =? 0 then p else q_tail q in
  m ← PKTSETLINK m p (q_head q);
  qs ← zset (pq_q pq) prec (MkPrec p tail (u16 (q_len q + 1)) (q_max q));
  Some (p, MkPq (num_prec pq) (if hi_prec pq <? prec then u8 prec else hi_prec pq) (pq_max pq)
             (u16 (pq_len pq + 1)) qs, m).

(** Taking the first packet of the queue at [prec], which [pktq_pdeq],
    [pktq_deq] and [pktq_mdeq] do alike: 0 if there is none. *)
Definition deq_head (pq : pktq) (prec : Z) (m : gmap Z Z) : option (Z * pktq * gmap Z Z) :=
  q ← zget (pq_q pq) prec;
  let p := q_head q in
  if p =? 0 then Some (0, pq, m)
  else
    link ← PKTLINK m p;
    let tail := if link =? 0 then 0 else q_tail q in
    qs ← zset (pq_q pq) prec (MkPrec link tail (u16 (q_len q - 1)) (q_max q));
    m ← PKTSETLINK m p 0;
    Some (p, MkPq (num_prec pq) (hi_prec pq) (pq_max pq) (u16 (pq_len pq - 1)) qs, m).

Definition pktq_pdeq (pq : pktq) (prec : Z) (m : gmap Z Z) : option (Z * pktq * gmap Z Z) := deq_head pq prec m.

(** [for (prev = NULL; p != q->tail; p = PKTLINK(p)) prev = p;] *)
Fixpoint find_tail (fuel : nat) (m : gmap Z Z) (tail p prev : Z) : option (Z * Z) :=
  match fuel with
  | O => None
  | S fuel' => if p =? tail then Some (p, prev) else p' ← PKTLINK m p; find_tail fuel' m tail p' p
  end.

(** Taking the last packet of the queue at [prec]; [clear] says whether the
    function clears the link of the packet it returns. *)
Definition deq_last (clear : bool) (pq : pktq) (prec : Z) (m : gmap Z Z) : option (Z * pktq * gmap Z Z) :=
  q ← zget (pq_q pq) prec;
  if q_head q =? 0 then Some (0, pq, m)
  else
    '(p, prev) ← find_tail (S (size m)) m (q_tail q) (q_head q) 0;
    '(head, m) ← (if ctrue prev then m' ← PKTSETLINK m prev 0; Some (q_head q, m') else Some (0, m));
    qs ← zset (pq_q pq) prec (MkPrec head prev (u16 (q_len q - 1)) (q_max q));
    m ← (if clear then PKTSETLINK m p 0 else Some m);
    Some (p, MkPq (num_prec pq) (hi_prec pq) (pq_max pq) (u16 (pq_len pq - 1)) qs, m).

Definition pktq_pdeq_tail (pq : pktq) (prec : Z) (m : gmap Z Z) : option (Z * pktq * gmap Z Z) := deq_last false pq prec m.

(** [while ((prec = pq->hi_prec) > 0 && pq->q[prec].head == NULL) pq->hi_prec--;] *)
Fixpoint lower_hi (n : nat) (qs : list pktq_prec) : option nat :=
  match n with
  | O => Some O
  | S n' => q ← qs !! n; if q_head q =? 0 then lower_hi n' qs else Some n
  end.

Definition pktq_deq (pq : pktq) (m : gmap Z Z) : option (deq_result * pktq * gmap Z Z) :=
  if pq_len pq =? 0 then Some (MkDeq 0 None, pq, m)
  else
    prec ← lower_hi (Z.to_nat (hi_prec pq)) (pq_q pq);
    let pq := MkPq (num_prec pq) (Z.of_nat prec) (pq_max pq) (pq_len pq) (pq_q pq) in
    '(p, pq, m) ← deq_head pq (Z.of_nat prec) m;
    if p =? 0 then Some (MkDeq 0 None, pq, m) else Some (MkDeq p (Some (Z.of_nat prec)), pq, m).

(** [for (prec = 0; prec < pq->hi_prec; prec++) if (pq->q[prec].head) break;]:
    [k] iterations are left. *)
Fixpoint lowest_from (k prec : nat) (qs : list pktq_prec) : option nat :=
  match k with
  | O => Some prec
  | S k' => q ← qs !! prec; if ctrue (q_head q) then Some prec else lowest_from k' (S prec) qs
  end.

Definition pktq_deq_tail (pq : pktq) (m : gmap Z Z) : option (deq_result * pktq * gmap Z Z) :=
  if pq_len pq =? 0 then Some (MkDeq 0 None, pq, m)
  else
    prec ← lowest_from (Z.to_nat (hi_prec pq)) 0 (pq_q pq);
    '(p, pq, m) ← deq_last true pq (Z.of_nat prec) m;
    if p =? 0 then Some (MkDeq 0 None, pq, m) else Some (MkDeq p (Some (Z.of_nat prec)), pq, m).

Definition pktq_peek (pq : pktq) : option (deq_result * pktq) :=
  if pq_len pq =? 0 then Some (MkDeq 0 None, pq)
  else
    prec ← lower_hi (Z.to_nat (hi_prec pq)) (pq_q pq);
    q ← pq_q pq !! prec;
    Some (MkDeq (q_head q) (Some (Z.of_nat prec)),
          MkPq (num_prec pq) (Z.of_nat prec) (pq_max pq) (pq_len pq) (pq_q pq)).

Definition pktq_peek_tail (pq : pktq) : option deq_result :=
  if pq_len pq =? 0 then Some (MkDeq 0 None)
  else
    prec ← lowest_from (Z.to_nat (hi_prec pq)) 0 (pq_q pq);
    q ← pq_q pq !! prec;
    Some (MkDeq (q_tail q) (Some (Z.of_nat prec))).

(** [while ((prec_bmp & (1 << prec)) == 0 || pq->q[prec].head == NULL)
    if (prec-- == 0) return NULL;]: [Some None] is the return. *)
Fixpoint mdeq_scan (bmp : Z) (prec : nat) (qs : list pktq_prec) : option (option nat) :=
  q ← qs !! prec;
  if (Z.land bmp (Z.shiftl 1 (Z.of_nat prec)) =? 0) || (q_head q =? 0)
  then match prec with O => Some None | S prec' => mdeq_scan bmp prec' qs end
  else Some (Some prec).

Definition pktq_mdeq (pq : pktq) (prec_bmp : Z) (m : gmap Z Z) : option (deq_result * pktq * gmap Z Z) :=
  if pq_len pq =? 0 then Some (MkDeq 0 None, pq, m)
  else
    hi ← lower_hi (Z.to_nat (hi_prec pq)) (pq_q pq);
    let pq := MkPq (num_prec pq) (Z.of_nat hi) (pq_max pq) (pq_len pq) (pq_q pq) in
    found ← mdeq_scan prec_bmp hi (pq_q pq);
    match found with
    | None => Some (MkDeq 0 None, pq, m)
    | Some prec =>
        '(p, pq, m) ← deq_head pq (Z.of_nat prec) m;
        if p =? 0 then Some (MkDeq 0 None, pq, m) else Some (MkDeq p (Some (Z.of_nat prec)), pq, m)
    end.

(** The sum over the precedences up to [hi_prec] whose bit is set. *)
Fixpoint mlen_loop (k prec : nat) (bmp : Z) (qs : list pktq_prec) (len : Z) : option Z :=
  match k with
  | O => Some len
  | S k' =>
      if negb (Z.land bmp (Z.shiftl 1 (Z.of_nat prec)) =? 0)
      then q ← qs !! prec; mlen_loop k' (S prec) bmp qs (s32 (len + q_len q))
      else mlen_loop k' (S prec) bmp qs len
  end.

Definition pktq_mlen (pq : pktq) (prec_bmp : Z) : option Z :=
  mlen_loop (S (Z.to_nat (hi_prec pq))) 0 prec_bmp (pq_q pq) 0.

(** [for (p = q->head; p && PKTLINK(p) != pktbuf; p = PKTLINK(p));] *)
Fixpoint find_before (fuel : nat) (m : gmap Z Z) (pktbuf p : Z) : option Z :=
  match fuel with
  | O => None
  | S fuel' =>
      if p =? 0 then Some 0
      else link ← PKTLINK m p; if link =? pktbuf then Some p else find_before fuel' m pktbuf link
  end.

Definition pktq_pdel (pq : pktq) (pktbuf prec : Z) (m : gmap Z Z) : option (bool * pktq * gmap Z Z) :=
  if pktbuf =? 0 then Some (false, pq, m)
  else
    q ← zget (pq_q pq) prec;
    let finish head tail m :=
      qs ← zset (pq_q pq) prec (MkPrec head tail (u16 (q_len q - 1)) (q_max q));
      m ← PKTSETLINK m pktbuf 0;
      Some (true, MkPq (num_prec pq) (hi_prec pq) (pq_max pq) (u16 (pq_len pq - 1)) qs, m) in
    if q_head q =? pktbuf then
      link ← PKTLINK m pktbuf;
      finish link (if link =? 0 then 0 else q_tail q) m
    else
      p ← find_before (S (size m)) m pktbuf (q_head q);
      if p =? 0 then Some (false, pq, m)
      else
        link ← PKTLINK m pktbuf;
        m ← PKTSETLINK m p link;
        finish (q_head q) (if q_tail q =? pktbuf then p else q_tail q) m.

(** The loop of [pktq_pflush]: [fn] is the filter ([None] for NULL), [freed]
    the packets handed to [PKTFREE]. The state is the head and length of the
    queue, the total length and the memory. *)
Record flush_state := MkFlush { fl_head : Z; fl_len : Z; fl_pqlen : Z; fl_mem : gmap Z Z; fl_freed : list Z }.

Fixpoint pflush_loop (fuel : nat) (fn : option (Z -> bool)) (p prev : Z) (s : flush_state) : option flush_state :=
  match fuel with
  | O => None
  | S fuel' =>
      if p =? 0 then Some s
      else if match fn with None => true | Some f => f p end then
        let head := p =? fl_head s in
        link ← PKTLINK (fl_mem s) p;
        '(h, m) ← (if head then Some (link, fl_mem s)
                   else m ← PKTSETLINK (fl_mem s) prev link; Some (fl_head s, m));
        m ← PKTSETLINK m p 0;
        let m := delete p m in
        let s := MkFlush h (u16 (fl_len s - 1)) (u16 (fl_pqlen s - 1)) m (fl_freed s ++ [p]) in
        next ← (if head then Some h else PKTLINK m prev);
        pflush_loop fuel' fn next prev s
      else
        link ← PKTLINK (fl_mem s) p;
        pflush_loop fuel' fn link p s
  end.

Definition pktq_pflush (pq : pktq) (prec : Z) (fn : option (Z -> bool)) (m : gmap Z Z)
    : option (pktq * (gmap Z Z) * list Z) :=
  q ← zget (pq_q pq) prec;
  s ← pflush_loop (S (size m)) fn (q_head q) 0 (MkFlush (q_head q) (q_len q) (pq_len pq) m []);
  let tail := if fl_head s =? 0 then 0 else q_tail q in
  qs ← zset (pq_q pq) prec (MkPrec (fl_head s) tail (fl_len s) (q_max q));
  Some (MkPq (num_prec pq) (hi_prec pq) (pq_max pq) (fl_pqlen s) qs, fl_mem s, fl_freed s).

(** [for (prec = 0; prec < pq->num_prec; prec++) pktq_pflush(...)] *)
Fixpoint flush_loop (k : nat) (prec : Z) (fn : option (Z -> bool)) (pq : pktq) (m : gmap Z Z) (freed : list Z)
    : option (pktq * (gmap Z Z) * list Z) :=
  match k with
  | O => Some (pq, m, freed)
  | S k' => '(pq, m, f) ← pktq_pflush pq prec fn m; flush_loop k' (prec + 1) fn pq m (freed ++ f)
  end.

Definition pktq_flush (pq : pktq) (fn : option (Z -> bool)) (m : gmap Z Z) : option (pktq * (gmap Z Z) * list Z) :=
  flush_loop (Z.to_nat (num_prec pq)) 0 fn pq m [].

(** ** Putting a packet on the transmit queue *)

(** [AC_BITMAP_TST(dhdp->wme_dp, eprec)] *)
Definition AC_BITMAP_TST (ab ac : Z) : bool := negb (Z.land ab (Z.shiftl 1 ac) =? 0).

(** What the call does: the value returned, the queue, the memory, the packets
    freed and the tracepoint events. [data] is the field of the packet that the
    event carries. *)
Record enq_result := MkEnq {
  enq_ret : bool; enq_pq : pktq; enq_mem : gmap Z Z; enq_freed : list Z; enq_events : list tp_event }.

Definition dhd_prec_enq (wme_dp data : Z) (pq : pktq) (pkt prec : Z) (m : gmap Z Z) : option enq_result :=
  let ev := [tp_pktqueue data (sem_queue_id_val PKTQ_BCM4329_TXQ) 0 QUEUE_ENQUEUE] in
  q ← zget (pq_q pq) prec;
  if negb (pktq_pfull q) && negb (pktq_full pq) then
    '(_, pq, m) ← pktq_penq pq prec pkt m; Some (MkEnq true pq m [] ev)
  else
    peeked ← (if pktq_pfull q then Some (prec, true)
              else if pktq_full pq then
                r ← pktq_peek_tail pq;
                let eprec := default (-1) (dq_prec r) in
                Some (eprec, negb ((prec <? eprec) || (eprec <? 0)))
              else Some (-1, true));
    let '(eprec, go) := peeked in
    if negb go then Some (MkEnq false pq m [] ev)
    else if 0 <=? eprec then
      let discard_oldest := AC_BITMAP_TST wme_dp eprec in
      if (eprec =? prec) && negb discard_oldest then Some (MkEnq false pq m [] ev)
      else
        '(p, pq, m) ← (if discard_oldest then pktq_pdeq pq eprec m else pktq_pdeq_tail pq eprec m);
        let m := delete p m in
        '(_, pq, m) ← pktq_penq pq prec pkt m;
        Some (MkEnq true pq m [p] ev)
    else
      '(_, pq, m) ← pktq_penq pq prec pkt m; Some (MkEnq true pq m [] ev).

(** ** The queues as lists

    The abstract state is the list of packets of each precedence. *)

Record prec_rep (m : gmap Z Z) (q : pktq_prec) (l : list Z) : Prop := {
  pr_seg : lseg (fun x => m !! x) (q_head q) l 0;
  pr_tail : q_tail q = last0 l;
  pr_len : q_len q = Z.of_nat (length l) }.

Record pq_rep (m : gmap Z Z) (pq : pktq) (qs : list (list Z)) : Prop := {
  pq_num : num_prec pq = Z.of_nat (length qs);
  pq_bound : (length qs <= 16)%nat;
  pq_prec : Forall2 (prec_rep m) (pq_q pq) qs;
  pq_nodup : NoDup (concat qs);
  pq_total : pq_len pq = Z.of_nat (length (concat qs));
  pq_small : Z.of_nat (length (concat qs)) < 65536;
  pq_hi : 0 <= hi_prec pq < num_prec pq;
  pq_above : forall i l, hi_prec pq < Z.of_nat i -> qs !! i = Some l -> l = [] }.

(** The abstract operations: the packet that leaves the queue (0 if none), its
    precedence, and the new queues. *)
Module PktqSpec.
Definition nonempty (qs : list (list Z)) (i : nat) : bool :=
  match qs !! i with Some (_ :: _) => true | _ => false end.

(** The greatest precedence with a packet among those selected, and the least
    precedence with a packet. *)
Fixpoint highest_below (n : nat) (sel : nat -> bool) (qs : list (list Z)) : option nat :=
  match n with
  | O => None
  | S n' => if sel n' && nonempty qs n' then Some n' else highest_below n' sel qs
  end.
Definition highest (sel : nat -> bool) (qs : list (list Z)) : option nat := highest_below (length qs) sel qs.

Fixpoint lowest (qs : list (list Z)) : option nat :=
  match qs with
  | [] => None
  | [] :: qs' => S <$> lowest qs'
  | _ :: _ => Some O
  end.

Definition replace (i : nat) (f : list Z -> list Z) (qs : list (list Z)) : list (list Z) :=
  match qs !! i with Some l => <[i := f l]> qs | None => qs end.

Definition first (i : nat) (qs : list (list Z)) : Z := default 0 (qs !! i ≫= head).
Definition final (i : nat) (qs : list (list Z)) : Z := last0 (default [] (qs !! i)).
Definition keep_others (p : Z) (l : list Z) : list Z := filter (fun x => x <> p) l.
End PktqSpec.
Import PktqSpec.

Section pktq_proofs.

Lemma pq_q_length m pq qs : pq_rep m pq qs -> length (pq_q pq) = length qs.
Proof. intros H. apply (Forall2_length _ _ _ (pq_prec _ _ _ H)). Qed.

Lemma zget_of_nat {A} (l : list A) (i : nat) : zget l (Z.of_nat i) = l !! i.
Proof. unfold zget. destruct (Z.leb_spec 0 (Z.of_nat i)); [|lia]. by rewrite Nat2Z.id. Qed.

Lemma zset_of_nat {A} (l : list A) (i : nat) x : (i < length l)%nat -> zset l (Z.of_nat i) x = Some (<[i := x]> l).
Proof. intros H. rewrite zset_is_Some by lia. by rewrite Nat2Z.id. Qed.

Lemma pq_lookup m pq qs i l :
  pq_rep m pq qs -> qs !! i = Some l -> exists q, pq_q pq !! i = Some q /\ prec_rep m q l.
Proof. intros H Hi. destruct (Forall2_lookup_r _ _ _ _ _ (pq_prec _ _ _ H) Hi) as (q & Hq & Hr). eauto. Qed.

Lemma PKTSETLINK_Some m p x : is_Some (m !! p) -> PKTSETLINK m p x = Some (<[p := x]> m).
Proof. unfold PKTSETLINK. by intros [y ->]. Qed.

(** Replacing one queue: the memory may change at the packets of the old and of
    the new queue only. *)
Lemma pq_rep_replace m m' pq pq' qs i l l' q' :
  pq_rep m pq qs -> qs !! i = Some l -> prec_rep m' q' l' ->
  (forall x, x ∉ l -> x ∉ l' -> m' !! x = m !! x) ->
  NoDup (l' ++ others i qs) -> Z.of_nat (length (l' ++ others i qs)) < 65536 ->
  num_prec pq' = num_prec pq -> pq_len pq' = Z.of_nat (length (l' ++ others i qs)) ->
  pq_q pq' = <[i := q']> (pq_q pq) -> 0 <= hi_prec pq' < num_prec pq ->
  (forall j k, hi_prec pq' < Z.of_nat j -> <[i := l']> qs !! j = Some k -> k = []) ->
  pq_rep m' pq' (<[i := l']> qs).
Proof.
  intros H Hi Hq' Hm Hnd Hsm Hnum Hlen Hqs Hhi Habove.
  pose proof (lookup_lt_Some _ _ _ Hi) as Hlt.
  assert (Permutation (concat (<[i := l']> qs)) (l' ++ others i qs)) as Hp by (by apply concat_insert_others).
  pose proof (pq_nodup _ _ _ H) as Hnd0. rewrite (concat_others i qs l Hi) in Hnd0.
  split; rewrite ?length_insert, ?Hnum; try apply H; try done.
  - rewrite Hqs. apply Forall2_same_length_lookup_2.
    { rewrite !length_insert. by eapply pq_q_length. }
    intros j q k Hj Hk. destruct (decide (i = j)) as [<-|Hij].
    + rewrite list_lookup_insert_eq in Hj by (by erewrite pq_q_length).
      rewrite list_lookup_insert_eq in Hk by done. by simplify_eq.
    + rewrite list_lookup_insert_ne in Hj by done. rewrite list_lookup_insert_ne in Hk by done.
      destruct (pq_lookup _ _ _ _ _ H Hk) as (q1 & Hq1 & []). simplify_eq. split; try done.
      eapply lseg_ext; [|done]. intros x Hx. apply Hm.
      * intros Hxl. apply NoDup_app in Hnd0 as (_ & Hd & _). apply (Hd x Hxl). by eapply elem_of_others.
      * intros Hxl. apply NoDup_app in Hnd as (_ & Hd & _). apply (Hd x Hxl). by eapply elem_of_others.
  - by rewrite Hp.
  - by rewrite Hp.
  - by rewrite Hp.
Qed.

(** Memory that is not linked into a queue does not matter. *)
Lemma pq_rep_mem m m' pq qs : pq_rep m pq qs -> (forall x, x ∈ concat qs -> m' !! x = m !! x) -> pq_rep m' pq qs.
Proof.
  intros H Hm. split; try apply H. apply Forall2_same_length_lookup_2; [by eapply pq_q_length|].
  intros j q k Hj Hk. destruct (pq_lookup _ _ _ _ _ H Hk) as (q1 & Hq1 & []). simplify_eq. split; try done.
  eapply lseg_ext; [|done]. intros x Hx. apply Hm. apply list_elem_of_In, in_concat. exists k.
  split; apply list_elem_of_In; [by eapply list_elem_of_lookup_2|done].
Qed.

(** The limits of the queues are never changed. *)
Definition same_max (pq pq' : pktq) : Prop :=
  pq_max pq' = pq_max pq /\ q_max <$> pq_q pq' = q_max <$> pq_q pq.

Lemma same_max_insert pq pq' i q q' :
  pq_q pq' = <[i := q']> (pq_q pq) -> pq_q pq !! i = Some q -> q_max q' = q_max q -> pq_max pq' = pq_max pq ->
  same_max pq pq'.
Proof.
  intros H4 H2 H3 H1. split; [done|]. rewrite H4, list_fmap_insert, H3. apply list_insert_id.
  by rewrite list_lookup_fmap, H2.
Qed.

Lemma others_length m pq qs i l :
  pq_rep m pq qs -> qs !! i = Some l -> pq_len pq = Z.of_nat (length l) + Z.of_nat (length (others i qs)).
Proof. intros H Hi. rewrite (pq_total _ _ _ H), (concat_others i qs l Hi), length_app. lia. Qed.

Lemma others_nodup m pq qs i l :
  pq_rep m pq qs -> qs !! i = Some l -> NoDup (l ++ others i qs).
Proof. intros H Hi. rewrite <- (concat_others i qs l Hi). apply H. Qed.

Lemma others_small m pq qs i l :
  pq_rep m pq qs -> qs !! i = Some l -> Z.of_nat (length l) + Z.of_nat (length (others i qs)) < 65536.
Proof. intros H Hi. rewrite <- (others_length m pq qs i l) by done. rewrite (pq_total _ _ _ H). apply H. Qed.

Lemma raised_hi m pq qs i l l' :
  pq_rep m pq qs -> qs !! i = Some l ->
  let hi := if hi_prec pq <? Z.of_nat i then u8 (Z.of_nat i) else hi_prec pq in
  0 <= hi < num_prec pq /\ forall j k, hi < Z.of_nat j -> <[i := l']> qs !! j = Some k -> k = [].
Proof.
  intros H Hi hi. pose proof (lookup_lt_Some _ _ _ Hi) as Hlt. pose proof (pq_bound _ _ _ H).
  pose proof (pq_num _ _ _ H). pose proof (pq_hi _ _ _ H). subst hi. rewrite u8_id by lia.
  destruct (Z.ltb_spec (hi_prec pq) (Z.of_nat i)); (split; [lia|]); intros j k Hj Hk;
    rewrite list_lookup_insert_ne in Hk by lia; apply (pq_above _ _ _ H j k); (done || lia).
Qed.

Lemma penq_ok m pq qs i l p :
  pq_rep m pq qs -> qs !! i = Some l -> p <> 0 -> p ∉ concat qs -> m !! p = Some 0 -> pq_len pq < 65535 ->
  exists pq' m', pktq_penq pq (Z.of_nat i) p m = Some (p, pq', m') /\
    pq_rep m' pq' (<[i := l ++ [p]]> qs) /\ same_max pq pq'.
Proof.
  intros H Hi Hp0 Hp Hm Hsmall. pose proof (raised_hi _ _ _ _ _ (l ++ [p]) H Hi) as [Hhi Habove].
  destruct (pq_lookup _ _ _ _ _ H Hi) as (q & Hq & Hr). pose proof (lookup_lt_Some _ _ _ Hq) as Hlt.
  pose proof (others_nodup _ _ _ _ _ H Hi) as Hnd. pose proof (others_length _ _ _ _ _ H Hi) as Hlen.
  rewrite (concat_others i qs l Hi) in Hp.
  assert (NoDup ((l ++ [p]) ++ others i qs)) as Hnd'.
  { rewrite <- app_assoc. cbn [app]. rewrite <- Permutation_middle. by constructor. }
  unfold pktq_penq. rewrite zget_of_nat, Hq. cbn [mbind option_bind].
  rewrite (u16_id (q_len q + 1)), (u16_id (pq_len pq + 1)) by (destruct Hr; lia).
  destruct Hr as [Hseg Htail Hql]. unfold ctrue. rewrite (lseg_start _ _ _ Hseg).
  destruct l as [|y l _] using rev_ind.
  - rewrite bool_decide_eq_true_2 by done. cbn [negb mbind option_bind]. rewrite zset_of_nat by done.
    cbn [mbind option_bind]. do 2 eexists. split; [reflexivity|]. split; [|eapply same_max_insert; [reflexivity|exact Hq|reflexivity|reflexivity]].
    eapply pq_rep_replace; try done; cbn [num_prec pq_len pq_q hi_prec] in *; rewrite ?length_app in *; simpl in *; try lia.
    split; cbn [q_head q_tail q_len app lseg]; [eauto 6|done|simpl; lia].
  - rewrite bool_decide_eq_false_2 by (by destruct l). cbn [negb].
    rewrite last0_snoc in Htail. rewrite Htail.
    assert (is_Some (m !! y)) as Hy.
    { apply (lseg_node _ _ _ _ y Hseg). apply elem_of_app. right. by left. }
    rewrite PKTSETLINK_Some by done. cbn [mbind option_bind]. rewrite zset_of_nat by done. cbn [mbind option_bind].
    do 2 eexists. split; [reflexivity|]. split; [|eapply same_max_insert; [reflexivity|exact Hq|reflexivity|reflexivity]].
    assert (y <> p) as Hyp.
    { intros ->. apply Hp. apply elem_of_app. left. apply elem_of_app. right. by left. }
    eapply pq_rep_replace; try done; cbn [num_prec pq_len pq_q hi_prec] in *; rewrite ?length_app in *; simpl in *; try lia.
    + split; cbn [q_head q_tail q_len]; [|by rewrite last0_snoc|rewrite !length_app in *; simpl in *; lia].
      rewrite <- app_assoc. cbn [app]. eapply (lseg_snoc (fun x => m !! x)); try done.
      * rewrite <- !app_assoc in Hnd'. cbn [app] in Hnd'. 
        change (l ++ y :: p :: others i qs) with (l ++ [y; p] ++ others i qs) in Hnd'. rewrite app_assoc in Hnd'.
        by apply NoDup_app in Hnd' as (? & _ & _).
      * intros z Hz. cbn beta. rewrite lookup_insert_ne; [done|]. intros ->.
        apply NoDup_app in Hnd as (Hnd & _ & _). apply NoDup_app in Hnd as (_ & Hd & _). apply (Hd z Hz). by left.
      * by rewrite lookup_insert_eq.
      * by rewrite lookup_insert_ne.
    + intros x Hx _. rewrite lookup_insert_ne; [done|]. intros ->. apply Hx. apply elem_of_app. right. by left.
Qed.

Lemma penq_head_ok m pq qs i l p :
  pq_rep m pq qs -> qs !! i = Some l -> p <> 0 -> p ∉ concat qs -> is_Some (m !! p) -> pq_len pq < 65535 ->
  exists pq' m', pktq_penq_head pq (Z.of_nat i) p m = Some (p, pq', m') /\
    pq_rep m' pq' (<[i := p :: l]> qs) /\ same_max pq pq'.
Proof.
  intros H Hi Hp0 Hp Hm Hsmall. pose proof (raised_hi _ _ _ _ _ (p :: l) H Hi) as [Hhi Habove].
  destruct (pq_lookup _ _ _ _ _ H Hi) as (q & Hq & Hr). pose proof (lookup_lt_Some _ _ _ Hq) as Hlt.
  pose proof (others_nodup _ _ _ _ _ H Hi) as Hnd. pose proof (others_length _ _ _ _ _ H Hi) as Hlen.
  rewrite (concat_others i qs l Hi) in Hp.
  unfold pktq_penq_head. rewrite zget_of_nat, Hq. cbn [mbind option_bind].
  rewrite (u16_id (q_len q + 1)), (u16_id (pq_len pq + 1)), PKTSETLINK_Some by (done || destruct Hr; lia).
  cbn [mbind option_bind]. rewrite zset_of_nat by done. cbn [mbind option_bind].
  destruct Hr as [Hseg Htail Hql]. rewrite (lseg_start _ _ _ Hseg).
  do 2 eexists. split; [reflexivity|]. split; [|eapply same_max_insert; [reflexivity|exact Hq|reflexivity|reflexivity]].
  assert (p ∉ l) as Hpl by (intros Hx; apply Hp; apply elem_of_app; by left).
  eapply pq_rep_replace; try done; cbn [num_prec pq_len pq_q hi_prec app length] in *; rewrite ?length_app in *; try lia.
  - split; cbn [q_head q_tail q_len lseg].
    + split_and!; try done. exists (q_head q). split; [by rewrite lookup_insert_eq|].
      eapply lseg_ext; [|exact Hseg]. intros x Hx. cbn beta. rewrite lookup_insert_ne; [done|]. by intros ->.
    + destruct l as [|y l _] using rev_ind; [by rewrite bool_decide_eq_true_2|].
      rewrite bool_decide_eq_false_2 by (by destruct l). by rewrite Htail, last0_snoc, app_comm_cons, last0_snoc.
    + simpl. lia.
  - intros x _ Hx. rewrite lookup_insert_ne; [done|]. intros ->. apply Hx. by left.
  - by constructor.
Qed.

Lemma lowered_above m pq qs i (l l' : list Z) :
  pq_rep m pq qs -> qs !! i = Some l -> (l = [] -> l' = []) ->
  forall j k, hi_prec pq < Z.of_nat j -> <[i := l']> qs !! j = Some k -> k = [].
Proof.
  intros H Hi Hl j k Hj Hk. destruct (decide (i = j)) as [<-|].
  - rewrite list_lookup_insert_eq in Hk by (by eapply lookup_lt_Some). simplify_eq.
    apply Hl. by apply (pq_above _ _ _ H i).
  - rewrite list_lookup_insert_ne in Hk by done. by apply (pq_above _ _ _ H j).
Qed.

(** A queue that loses packets: what is left to show is the new queue itself. *)
Lemma pq_rep_shrink m m' pq pq' qs i l l' q q' :
  pq_q pq' = <[i := q']> (pq_q pq) -> pq_rep m pq qs -> qs !! i = Some l -> pq_q pq !! i = Some q ->
  num_prec pq' = num_prec pq -> hi_prec pq' = hi_prec pq -> pq_max pq' = pq_max pq -> q_max q' = q_max q ->
  pq_len pq' = pq_len pq - (Z.of_nat (length l) - Z.of_nat (length l')) ->
  prec_rep m' q' l' -> NoDup l' -> (forall x, x ∈ l' -> x ∈ l) ->
  (forall x, x ∉ l -> m' !! x = m !! x) ->
  pq_rep m' pq' (<[i := l']> qs) /\ same_max pq pq'.
Proof.
  intros Hqs H Hi Hq Hnum Hhi Hmx Hmax Hln Hr Hnd' Hsub Hm.
  pose proof (others_nodup _ _ _ _ _ H Hi) as Hnd. pose proof (others_length _ _ _ _ _ H Hi) as Hlen.
  pose proof (others_small _ _ _ _ _ H Hi) as Hsm.
  assert (length l' <= length l)%nat as Hle.
  { apply submseteq_length, NoDup_submseteq; [done|]. intros x Hx. by apply Hsub. }
  split; [|by eapply same_max_insert].
  apply NoDup_app in Hnd as (Hnd1 & Hnd2 & Hnd3).
  eapply pq_rep_replace; try done; rewrite ?length_app, ?Hhi; try lia; try apply H.
  - intros x Hx _. by apply Hm.
  - apply NoDup_app. split_and!; try done. intros x Hx. apply Hnd2. by apply Hsub.
  - eapply lowered_above; try done. intros ->. destruct l'; [done|]. simpl in Hle. lia.
Qed.

Lemma deq_head_ok m pq qs i l :
  pq_rep m pq qs -> qs !! i = Some l ->
  exists pq' m', deq_head pq (Z.of_nat i) m = Some (default 0 (head l), pq', m') /\
    pq_rep m' pq' (<[i := tail l]> qs) /\ same_max pq pq' /\ hi_prec pq' = hi_prec pq /\
    (forall p l', l = p :: l' -> p <> 0 /\ m' !! p = Some 0) /\ (forall x, x ∉ l -> m' !! x = m !! x).
Proof.
  intros H Hi. destruct (pq_lookup _ _ _ _ _ H Hi) as (q & Hq & [Hseg Htail Hql]).
  pose proof (others_length _ _ _ _ _ H Hi) as Hlen. pose proof (others_small _ _ _ _ _ H Hi) as Hsm.
  pose proof (others_nodup _ _ _ _ _ H Hi) as Hnd. apply NoDup_app in Hnd as (Hnd & _ & _).
  unfold deq_head. rewrite zget_of_nat, Hq. cbn [mbind option_bind]. rewrite (lseg_start _ _ _ Hseg).
  destruct l as [|p l].
  { rewrite bool_decide_eq_true_2 by done. do 2 eexists. split; [reflexivity|]. cbn [tail].
    rewrite list_insert_id by done. by split_and!. }
  rewrite bool_decide_eq_false_2 by done. destruct Hseg as (Hh & Hp0 & n & Hn & Hseg).
  apply NoDup_cons in Hnd as [Hpl Hnd]. cbn beta in Hn. cbn [length] in *. rewrite Hh. unfold PKTLINK. rewrite Hn. cbn [mbind option_bind].
  rewrite zset_of_nat by (by eapply lookup_lt_Some). cbn [mbind option_bind].
  rewrite PKTSETLINK_Some by eauto. cbn [mbind option_bind]. rewrite (lseg_start _ _ _ Hseg).
  rewrite !u16_id by lia. do 2 eexists. split; [reflexivity|].
  cbn [tail]. apply Logic.and_assoc. split; [|split_and!].
  - eapply pq_rep_shrink; [reflexivity|exact H|exact Hi|exact Hq|done..|cbn [pq_len length]; lia| |done| |].
    + split; cbn [q_head q_tail q_len]; [..|lia].
      * eapply lseg_ext; [|exact Hseg]. intros x Hx. cbn beta. rewrite lookup_insert_ne; [done|]. by intros ->.
      * destruct l as [|y l _] using rev_ind; [by rewrite bool_decide_eq_true_2|].
        rewrite bool_decide_eq_false_2 by (by destruct l). by rewrite Htail, app_comm_cons, !last0_snoc.
    + intros x Hx. by right.
    + intros x Hx. rewrite lookup_insert_ne; [done|]. intros ->. apply Hx. by left.
  - done.
  - intros p' l' [= <- <-]. split; [done|]. by rewrite lookup_insert_eq.
  - intros x Hx. rewrite lookup_insert_ne; [done|]. intros ->. apply Hx. by left.
Qed.

(** The walk to the last packet: from [h], with [prev] behind it. *)
Lemma find_tail_ok fuel m l y h prev :
  lseg (fun x => m !! x) h (l ++ [y]) 0 -> NoDup (l ++ [y]) -> (length l < fuel)%nat ->
  find_tail fuel m y h prev = Some (y, default prev (last l)).
Proof.
  revert fuel h prev. induction l as [|z l IH]; intros fuel h prev Hs Hnd Hf; destruct fuel as [|fuel]; cbn in Hf; try lia.
  - destruct Hs as (-> & _). cbn. by rewrite Z.eqb_refl.
  - destruct Hs as (-> & Hz & n & Hn & Hs). cbn [app] in Hnd. apply NoDup_cons in Hnd as [Hzl Hnd].
    cbn [find_tail]. destruct (Z.eqb_spec z y) as [->|_].
    { exfalso. apply Hzl, elem_of_app. right. by left. }
    unfold PKTLINK. cbn beta in Hn. rewrite Hn. cbn [mbind option_bind]. rewrite IH by (done || lia). f_equal. f_equal.
    rewrite last_cons. by destruct (last l).
Qed.

Lemma removelast_snoc {A} (l : list A) x : removelast (l ++ [x]) = l.
Proof. apply removelast_last. Qed.

(** Unlinking the last packet from the one before it. *)
Lemma cut_last (m : gmap Z Z) h l y :
  lseg (fun x => m !! x) h (l ++ [y]) 0 -> NoDup (l ++ [y]) ->
  exists head m1, (if ctrue (last0 l) then m' ← PKTSETLINK m (last0 l) 0; Some (h, m') else Some (0, m))
      = Some (head, m1) /\ lseg (fun x => m1 !! x) head l 0 /\ m1 !! y = Some 0 /\
      (forall x, x ∉ l -> m1 !! x = m !! x).
Proof.
  intros Hseg Hnd. pose proof (lseg_last_link _ _ _ _ _ Hseg) as Hy. cbn beta in Hy.
  apply NoDup_app in Hnd as (Hndl & Hd & _).
  destruct l as [|z l _] using rev_ind; [by do 2 eexists|]. rewrite last0_snoc.
  assert (z ∈ l ++ [z]) as Hzl by (apply elem_of_app; right; by left).
  assert (z <> 0 /\ is_Some (m !! z)) as [Hz0 Hz].
  { assert (z ∈ (l ++ [z]) ++ [y]) as Hin by (apply elem_of_app; by left).
    split; [by eapply (lseg_nonzero _ _ _ _ z Hseg)|by apply (lseg_node _ _ _ _ z Hseg)]. }
  unfold ctrue. destruct (Z.eqb_spec z 0); [done|]. cbn [negb]. rewrite PKTSETLINK_Some by done. cbn [mbind option_bind].
  assert (forall x, x ∉ l ++ [z] -> <[z := 0]> m !! x = m !! x) as Hoth.
  { intros x Hx. rewrite lookup_insert_ne; [done|]. by intros ->. }
  do 2 eexists. split; [reflexivity|]. split_and!; [| |done].
  - rewrite <- app_assoc in Hseg. apply lseg_app in Hseg as (a & Ha & -> & _).
    apply lseg_app. exists z. split; [|cbn [lseg]; split_and!; [done..|exists 0; by rewrite lookup_insert_eq]].
    eapply lseg_ext; [|exact Ha]. intros x Hx. cbn beta. rewrite lookup_insert_ne; [done|]. intros ->.
    apply NoDup_app in Hndl as (_ & Hd' & _). apply (Hd' x Hx). by left.
  - rewrite Hoth; [done|]. intros Hin. apply (Hd y Hin). by left.
Qed.

Lemma deq_last_ok clear m pq qs i l :
  pq_rep m pq qs -> qs !! i = Some l ->
  exists pq' m', deq_last clear pq (Z.of_nat i) m = Some (last0 l, pq', m') /\
    pq_rep m' pq' (<[i := removelast l]> qs) /\ same_max pq pq' /\ hi_prec pq' = hi_prec pq /\
    (forall p l', l = l' ++ [p] -> p <> 0 /\ m' !! p = Some 0) /\ (forall x, x ∉ l -> m' !! x = m !! x).
Proof.
  intros H Hi. destruct (pq_lookup _ _ _ _ _ H Hi) as (q & Hq & [Hseg Htail Hql]).
  pose proof (others_length _ _ _ _ _ H Hi) as Hlen. pose proof (others_small _ _ _ _ _ H Hi) as Hsm.
  pose proof (others_nodup _ _ _ _ _ H Hi) as Hnd. apply NoDup_app in Hnd as (Hnd & _ & _).
  pose proof (lseg_size m _ _ _ Hnd Hseg) as Hsz.
  unfold deq_last. rewrite zget_of_nat, Hq. cbn [mbind option_bind]. rewrite (lseg_start _ _ _ Hseg).
  destruct l as [|y l _] using rev_ind.
  { rewrite bool_decide_eq_true_2 by done. do 2 eexists. split; [reflexivity|]. cbn [removelast].
    rewrite list_insert_id by done. split_and!; try done. intros p l' E. by destruct l'. }
  rewrite bool_decide_eq_false_2 by (by destruct l). rewrite length_app in *. cbn [length] in *.
  rewrite last0_snoc in *. rewrite Htail, (find_tail_ok _ _ l) by (done || lia). cbn [mbind option_bind].
  pose proof (lseg_last_link _ _ _ _ _ Hseg) as Hy. cbn beta in Hy.
  rewrite removelast_snoc. fold (last0 l).
  assert (NoDup l /\ y ∉ l) as [Hndl Hyl].
  { apply NoDup_app in Hnd as (? & Hd & _). split; [done|]. intros Hin. apply (Hd y Hin). by left. }
  assert (y <> 0) as Hy0 by (eapply (lseg_nonzero _ _ _ _ y Hseg); apply elem_of_app; right; by left).
  destruct (cut_last m (q_head q) l y Hseg Hnd) as (head & m1 & -> & Hseg1 & Hy1 & Hm1).
  cbn [mbind option_bind]. rewrite zset_of_nat by (by eapply lookup_lt_Some). cbn [mbind option_bind].
  assert ((if clear then PKTSETLINK m1 y 0 else Some m1) = Some m1) as ->.
  { destruct clear; [|done]. rewrite PKTSETLINK_Some by eauto. by rewrite insert_id. }
  cbn [mbind option_bind]. rewrite !u16_id by lia. do 2 eexists. split; [reflexivity|].
  assert (forall x, x ∉ l ++ [y] -> m1 !! x = m !! x) as Hoth.
  { intros x Hx. apply Hm1. intros ?. apply Hx, elem_of_app. by left. }
  apply Logic.and_assoc. split; [|split_and!; [done| |done]].
  - eapply pq_rep_shrink; [reflexivity|exact H|exact Hi|exact Hq|done..|rewrite length_app; cbn [pq_len length]; lia| |done| |done].
    + split; cbn [q_head q_tail q_len]; [done|done|lia].
    + intros x Hx. apply elem_of_app. by left.
  - intros p l' [-> [= ->]]%app_inj_2; [|done]. done.
Qed.

Lemma keep_others_id b l : b ∉ l -> keep_others b l = l.
Proof.
  unfold keep_others. induction l as [|x l IH]; [done|]. rewrite not_elem_of_cons. intros [Hx Hl].
  rewrite filter_cons_True by congruence. by rewrite IH.
Qed.

Lemma keep_others_split b l1 l2 : b ∉ l1 -> b ∉ l2 -> keep_others b (l1 ++ b :: l2) = l1 ++ l2.
Proof.
  intros H1 H2. unfold keep_others. rewrite filter_app, filter_cons_False by (by intros []).
  fold (keep_others b l1) (keep_others b l2). by rewrite !keep_others_id.
Qed.

Lemma find_before_ok fuel m b l h :
  lseg (fun x => m !! x) h l 0 -> h <> b -> b <> 0 -> (length l < fuel)%nat ->
  (exists l1 y l2, l = l1 ++ y :: b :: l2 /\ find_before fuel m b h = Some y) \/
  ((b ∉ l) /\ find_before fuel m b h = Some 0).
Proof.
  revert fuel h. induction l as [|z l IH]; intros fuel h Hs Hh Hb Hf; destruct fuel as [|fuel]; cbn in Hf; try lia.
  { cbn [lseg] in Hs. rewrite Hs. right. split; [apply not_elem_of_nil|done]. }
  destruct Hs as (-> & Hz & n & Hn & Hs). cbn [find_before]. destruct (Z.eqb_spec z 0); [done|].
  unfold PKTLINK. cbn beta in Hn. rewrite Hn. cbn [mbind option_bind]. destruct (Z.eqb_spec n b) as [->|Hnb].
  - destruct l as [|x l]; cbn [lseg] in Hs; [done|]. destruct Hs as (<- & _). left. by exists [], z, l.
  - destruct (IH fuel n Hs Hnb Hb ltac:(lia)) as [(l1 & y & l2 & -> & E)|[Hni E]].
    + left. by exists (z :: l1), y, l2.
    + right. split; [|done]. apply not_elem_of_cons. split; [congruence|done].
Qed.

Lemma lseg_unlink (m : gmap Z Z) h l1 y b l2 n :
  lseg (fun x => m !! x) h (l1 ++ y :: b :: l2) 0 -> NoDup (l1 ++ y :: b :: l2) -> m !! b = Some n ->
  lseg (fun x => <[b := 0]> (<[y := n]> m) !! x) h (l1 ++ y :: l2) 0.
Proof.
  intros Hs Hnd Hn. apply lseg_app in Hs as (a & H1 & -> & Hy & n1 & Hn1 & -> & Hb & n2 & Hn2 & H2).
  cbn beta in *. rewrite Hn in Hn2. injection Hn2 as <-.
  apply NoDup_app in Hnd as (_ & Hd & [Hy1 Hnd2]%NoDup_cons). apply NoDup_cons in Hnd2 as [Hb2 _].
  apply not_elem_of_cons in Hy1 as [Hyb Hy2].
  assert (forall x, x <> y -> x <> b -> <[b := 0]> (<[y := n]> m) !! x = m !! x) as Hm.
  { intros x ? ?. by rewrite !lookup_insert_ne by done. }
  apply lseg_app. exists y. split.
  - eapply lseg_ext; [|exact H1]. intros x Hx. apply Hm; intros ->; apply (Hd _ Hx); [by left|right; by left].
  - cbn [lseg]. split_and!; try done. exists n. split; [by rewrite lookup_insert_ne, lookup_insert_eq by done|].
    eapply lseg_ext; [|exact H2]. intros x Hx. apply Hm; by intros ->.
Qed.

Lemma nodup_around (l1 l2 : list Z) y p :
  NoDup (l1 ++ y :: p :: l2) -> y <> p /\ (p ∉ l1) /\ (p ∉ l2) /\ NoDup (l1 ++ y :: l2).
Proof.
  intros (H1 & Hd & [Hy [Hp H2]%NoDup_cons]%NoDup_cons)%NoDup_app. apply not_elem_of_cons in Hy as [Hyp Hy].
  split_and!; try done.
  - intros Hin. apply (Hd p Hin). right; by left.
  - apply NoDup_app. split_and!; [done| |by constructor]. intros x Hx Hx2. apply (Hd x Hx).
    apply elem_of_cons in Hx2 as [->|?]; [by left|right; by right].
Qed.

(** The place of an element in a list without repetition is unique. *)
Lemma nodup_split (l1 l2 k1 k2 : list Z) y z p :
  NoDup (l1 ++ y :: p :: l2) -> l1 ++ y :: p :: l2 = k1 ++ z :: p :: k2 -> l1 = k1 /\ y = z /\ l2 = k2.
Proof.
  intros Hnd E. assert (length l1 = length k1) as Hl.
  { cut (S (length l1) = S (length k1)); [lia|].
    apply (NoDup_lookup (l1 ++ y :: p :: l2) _ _ p Hnd); [|rewrite E];
      rewrite lookup_app_r by lia; by replace (S _ - _)%nat with 1%nat by lia. }
  apply app_inj_1 in E as [-> E]; [|done]. by injection E.
Qed.

(** Deleting the first packet of a queue is dequeueing it. *)
Lemma pdel_first m pq qs i l p :
  pq_rep m pq qs -> qs !! i = Some (p :: l) ->
  exists m' pq', pktq_pdel pq p (Z.of_nat i) m = Some (true, pq', m') /\
    pq_rep m' pq' (<[i := l]> qs) /\ same_max pq pq'.
Proof.
  intros H Hi. destruct (pq_lookup _ _ _ _ _ H Hi) as (q & Hq & [(Hh & Hp0 & n & Hn & _) _ _]).
  destruct (deq_head_ok _ _ _ _ _ H Hi) as (pq' & m' & E & Hr & Hs & _). exists m', pq'. split; [|done].
  revert E. unfold deq_head, pktq_pdel. rewrite zget_of_nat, Hq. cbn [mbind option_bind]. cbn beta in Hn.
  rewrite Hh, Z.eqb_refl. destruct (Z.eqb_spec p 0) as [|_]; [done|]. unfold PKTLINK. rewrite Hn. cbn [mbind option_bind].
  destruct (zset _ _ _); [|done]. cbn [mbind option_bind]. destruct (PKTSETLINK m p 0); [|done]. cbn [mbind option_bind].
  by intros [= <- <-].
Qed.

(** Deleting a packet that has another one in front of it. *)
Lemma pdel_inner m pq qs i l1 y l2 p :
  pq_rep m pq qs -> qs !! i = Some (l1 ++ y :: p :: l2) ->
  exists m' pq', pktq_pdel pq p (Z.of_nat i) m = Some (true, pq', m') /\
    pq_rep m' pq' (<[i := l1 ++ y :: l2]> qs) /\ same_max pq pq'.
Proof.
  intros H Hi. destruct (pq_lookup _ _ _ _ _ H Hi) as (q & Hq & [Hseg Htail Hql]).
  pose proof (others_length _ _ _ _ _ H Hi) as Hlen. pose proof (others_small _ _ _ _ _ H Hi) as Hsm.
  pose proof (others_nodup _ _ _ _ _ H Hi) as Hnd. apply NoDup_app in Hnd as (Hnd & _ & _).
  pose proof (lseg_size m _ _ _ Hnd Hseg) as Hsz.
  assert (y ∈ l1 ++ y :: p :: l2 /\ p ∈ l1 ++ y :: p :: l2) as [Hyin Hpin]
    by (split; apply elem_of_app; right; [by left|right; by left]).
  pose proof (lseg_nonzero _ _ _ _ _ Hseg Hyin) as Hy0. pose proof (lseg_nonzero _ _ _ _ _ Hseg Hpin) as Hp0.
  pose proof (lseg_node _ _ _ _ _ Hseg Hyin) as Hy. destruct (lseg_node _ _ _ _ _ Hseg Hpin) as [n Hn]. cbn beta in *.
  pose proof (lseg_unlink _ _ _ _ _ _ _ Hseg Hnd Hn) as Hseg'. destruct (nodup_around _ _ _ _ Hnd) as (Hyp & Hp1 & Hp2 & Hnd').
  unfold pktq_pdel. destruct (Z.eqb_spec p 0) as [|_]; [done|]. rewrite zget_of_nat, Hq. cbn [mbind option_bind].
  assert (q_head q <> p) as Hh.
  { destruct l1 as [|z l1]; destruct Hseg as (-> & _); [done|]. intros ->. apply Hp1. by left. }
  destruct (Z.eqb_spec (q_head q) p) as [|_]; [done|].
  destruct (find_before_ok (S (size m)) m p _ (q_head q) Hseg Hh Hp0 ltac:(lia)) as [(k1 & z & k2 & E & ->)|[? _]]; [|done].
  destruct (nodup_split _ _ _ _ _ _ _ Hnd E) as (<- & <- & <-). cbn [mbind option_bind].
  destruct (Z.eqb_spec y 0) as [|_]; [done|]. unfold PKTLINK. rewrite Hn. cbn [mbind option_bind].
  rewrite PKTSETLINK_Some by done. cbn [mbind option_bind]. rewrite zset_of_nat by (by eapply lookup_lt_Some).
  cbn [mbind option_bind]. rewrite PKTSETLINK_Some by (rewrite lookup_insert_ne by done; eauto). cbn [mbind option_bind].
  rewrite length_app in *. cbn [length] in *. rewrite !u16_id by lia. do 2 eexists. split; [reflexivity|].
  eapply pq_rep_shrink; [reflexivity|exact H|exact Hi|exact Hq|done..|rewrite !length_app; cbn [pq_len length]; lia| |done| |].
  - split; cbn [q_head q_tail q_len]; [done| |rewrite length_app; cbn [length]; lia].
    rewrite Htail. rewrite !(last0_app l1) by done. change (last0 (y :: p :: l2)) with (last0 (p :: l2)). destruct l2 as [|z l2 _] using rev_ind.
    + cbn. by rewrite Z.eqb_refl.
    + rewrite !app_comm_cons, !last0_snoc. destruct (Z.eqb_spec z p) as [->|]; [|done].
      exfalso. apply Hp2, elem_of_app. right. by left.
  - intros x. rewrite !elem_of_app, !elem_of_cons. tauto.
  - intros x Hx. rewrite !lookup_insert_ne; [done|..]; by intros ->.
Qed.

Lemma pdel_ok m pq qs i l p :
  pq_rep m pq qs -> qs !! i = Some l -> p <> 0 ->
  exists m' pq', pktq_pdel pq p (Z.of_nat i) m = Some (bool_decide (p ∈ l), pq', m') /\
    pq_rep m' pq' (<[i := keep_others p l]> qs) /\ same_max pq pq'.
Proof.
  intros H Hi Hp0. pose proof (others_nodup _ _ _ _ _ H Hi) as Hnd. apply NoDup_app in Hnd as (Hnd & _ & _).
  destruct (decide (p ∈ l)) as [Hin|Hni].
  - rewrite bool_decide_eq_true_2 by done. apply list_elem_of_split in Hin as (l1 & l2 & ->).
    apply NoDup_app in Hnd as (_ & Hd & [Hp2 _]%NoDup_cons).
    rewrite keep_others_split; [|intros Hin; apply (Hd p Hin); by left|done].
    destruct l1 as [|y l1 _] using rev_ind; [by apply pdel_first|].
    rewrite <- app_assoc in *. by apply pdel_inner.
  - rewrite bool_decide_eq_false_2, keep_others_id, list_insert_id by done. exists m, pq. split; [|by split_and!].
    destruct (pq_lookup _ _ _ _ _ H Hi) as (q & Hq & [Hseg _ _]). pose proof (lseg_size m _ _ _ Hnd Hseg) as Hsz.
    unfold pktq_pdel. destruct (Z.eqb_spec p 0) as [|_]; [done|]. rewrite zget_of_nat, Hq. cbn [mbind option_bind].
    destruct (Z.eqb_spec (q_head q) p) as [Hh|Hh].
    { destruct l as [|z l]; cbn [lseg] in Hseg; [congruence|]. exfalso. apply Hni. destruct Hseg as (<- & _). rewrite Hh. by left. }
    destruct (find_before_ok (S (size m)) m p l (q_head q) Hseg Hh Hp0 ltac:(lia)) as [(l1 & y & l2 & -> & _)|[_ ->]]; [|done].
    exfalso. apply Hni, elem_of_app. right; right; by left.
Qed.

(** ** Scans for a precedence *)

Lemma head_nonempty m pq qs i q :
  pq_rep m pq qs -> pq_q pq !! i = Some q -> (q_head q =? 0) = negb (nonempty qs i).
Proof.
  intros H Hq. destruct (Forall2_lookup_l _ _ _ _ _ (pq_prec _ _ _ H) Hq) as (l & Hl & [Hseg _ _]).
  rewrite (lseg_start _ _ _ Hseg). unfold nonempty. rewrite Hl. destruct l; [by rewrite bool_decide_eq_true_2|].
  by rewrite bool_decide_eq_false_2.
Qed.

Lemma pq_q_is_Some m pq qs i : pq_rep m pq qs -> (i < length qs)%nat -> is_Some (pq_q pq !! i).
Proof. intros H Hi. apply lookup_lt_is_Some. by rewrite (pq_q_length _ _ _ H). Qed.

Lemma lower_hi_ok m pq qs n :
  pq_rep m pq qs -> (n < length qs)%nat ->
  exists k, lower_hi n (pq_q pq) = Some k /\ (k <= n)%nat /\
    (forall j, (k < j <= n)%nat -> nonempty qs j = false) /\ (k = 0%nat \/ nonempty qs k = true).
Proof.
  intros H. induction n as [|n IH]; intros Hn.
  { exists 0%nat. split_and!; [done|lia| |by left]. intros j Hj. lia. }
  destruct (pq_q_is_Some _ _ _ (S n) H Hn) as [q Hq]. cbn [lower_hi]. rewrite Hq. cbn [mbind option_bind].
  rewrite (head_nonempty _ _ _ _ _ H Hq). destruct (nonempty qs (S n)) eqn:E; cbn [negb].
  - exists (S n). split_and!; [done|lia| |by right]. intros j Hj. lia.
  - destruct (IH ltac:(lia)) as (k & Hk & Hle & Hem & Hz). exists k. split_and!; [done|lia| |done].
    intros j Hj. destruct (decide (j = S n)) as [->|]; [done|]. apply Hem. lia.
Qed.

Lemma highest_below_skip sel qs k n :
  (k <= n)%nat -> (forall j, (k <= j < n)%nat -> sel j && nonempty qs j = false) ->
  highest_below n sel qs = highest_below k sel qs.
Proof.
  intros Hk. induction n as [|n IH]; intros Hj; [by assert (k = 0%nat) as -> by lia|].
  destruct (decide (k = S n)) as [->|]; [done|]. cbn [highest_below]. rewrite Hj by lia. apply IH; [lia|].
  intros j ?. apply Hj. lia.
Qed.

Lemma mdeq_scan_ok m pq qs bmp n :
  pq_rep m pq qs -> (n < length qs)%nat ->
  mdeq_scan bmp n (pq_q pq)
  = Some (highest_below (S n) (fun i => negb (Z.land bmp (Z.shiftl 1 (Z.of_nat i)) =? 0)) qs).
Proof.
  intros H. induction n as [|n IH]; intros Hn; destruct (pq_q_is_Some _ _ _ _ H Hn) as [q Hq];
    cbn [mdeq_scan highest_below]; rewrite Hq; cbn [mbind option_bind]; rewrite (head_nonempty _ _ _ _ _ H Hq);
    destruct (_ =? 0), (nonempty qs _); cbn [negb orb andb]; try done; apply IH; lia.
Qed.

Lemma nonempty_le_hi m pq qs i : pq_rep m pq qs -> nonempty qs i = true -> Z.of_nat i <= hi_prec pq.
Proof.
  intros H Hi. unfold nonempty in Hi. destruct (qs !! i) as [l|] eqn:E; [|done].
  destruct (decide (hi_prec pq < Z.of_nat i)); [|lia]. by rewrite (pq_above _ _ _ H i l) in Hi.
Qed.

Lemma exists_nonempty m pq qs : pq_rep m pq qs -> pq_len pq <> 0 -> exists i, nonempty qs i = true.
Proof.
  intros H Hl. rewrite (pq_total _ _ _ H) in Hl. destruct (concat qs) as [|x l] eqn:E; [done|].
  assert (x ∈ concat qs) as Hx by (rewrite E; by left). apply list_elem_of_In, in_concat in Hx as (k & Hk & Hx).
  apply list_elem_of_In, list_elem_of_lookup_1 in Hk as [i Hi]. exists i. unfold nonempty. rewrite Hi. by destruct k.
Qed.

(** With a packet in some queue, lowering [hi_prec] finds the highest one. *)
Lemma lower_hi_highest m pq qs :
  pq_rep m pq qs -> pq_len pq <> 0 ->
  exists k, lower_hi (Z.to_nat (hi_prec pq)) (pq_q pq) = Some k /\ (k < length qs)%nat /\ nonempty qs k = true /\
    (forall j, (k < j)%nat -> nonempty qs j = false) /\
    pq_rep m (MkPq (num_prec pq) (Z.of_nat k) (pq_max pq) (pq_len pq) (pq_q pq)) qs.
Proof.
  intros H Hl. pose proof (pq_hi _ _ _ H). pose proof (pq_num _ _ _ H).
  destruct (lower_hi_ok _ _ _ (Z.to_nat (hi_prec pq)) H ltac:(lia)) as (k & Hk & Hle & Hem & Hz).
  destruct (exists_nonempty _ _ _ H Hl) as [i Hi]. pose proof (nonempty_le_hi _ _ _ _ H Hi) as Hihi.
  assert (forall j, (k < j)%nat -> nonempty qs j = false) as Hall.
  { intros j Hj. destruct (nonempty qs j) eqn:E; [|done]. pose proof (nonempty_le_hi _ _ _ _ H E).
    rewrite Hem in E by lia. done. }
  assert (nonempty qs k = true) as Hne.
  { destruct Hz as [->|]; [|done]. destruct i; [done|]. rewrite Hall in Hi by lia. done. }
  exists k. split_and!; try done; [lia|]. split; cbn; try apply H; [lia|].
  intros j l Hj E. specialize (Hall j ltac:(lia)). unfold nonempty in Hall. rewrite E in Hall. by destruct l.
Qed.

Lemma lowest_from_ok m pq qs k prec :
  pq_rep m pq qs -> (prec + k < length qs)%nat -> (forall j, (j < prec)%nat -> nonempty qs j = false) ->
  (exists j, (j <= prec + k)%nat /\ nonempty qs j = true) ->
  exists r, lowest_from k prec (pq_q pq) = Some r /\ (r < length qs)%nat /\ nonempty qs r = true /\
    forall j, (j < r)%nat -> nonempty qs j = false.
Proof.
  intros H. revert prec. induction k as [|k IH]; intros prec Hp Hlow (i & Hi & Hne).
  - exists prec. split_and!; [done|lia| |done]. destruct (decide (i < prec)%nat).
    + by rewrite Hlow in Hne.
    + by replace prec with i by lia.
  - destruct (pq_q_is_Some _ _ _ prec H ltac:(lia)) as [q Hq]. cbn [lowest_from]. rewrite Hq. cbn [mbind option_bind].
    unfold ctrue. rewrite (head_nonempty _ _ _ _ _ H Hq), negb_involutive. destruct (nonempty qs prec) eqn:E.
    + exists prec. split_and!; [done|lia|done|done].
    + apply IH; [lia| |exists i; split; [lia|done]]. intros j Hj. destruct (decide (j = prec)) as [->|]; [done|]. apply Hlow. lia.
Qed.

Lemma lowest_char qs r :
  nonempty qs r = true -> (forall j, (j < r)%nat -> nonempty qs j = false) -> lowest qs = Some r.
Proof.
  revert r. induction qs as [|l qs IH]; intros r Hr Hlow; [done|]. destruct l as [|x l].
  - destruct r as [|r]; [done|]. cbn [lowest]. rewrite (IH r); [done|done|].
    intros j Hj. apply (Hlow (S j)). lia.
  - destruct r as [|r]; [done|]. specialize (Hlow 0%nat ltac:(lia)). done.
Qed.

Lemma lowest_scan m pq qs :
  pq_rep m pq qs -> pq_len pq <> 0 ->
  exists r, lowest_from (Z.to_nat (hi_prec pq)) 0 (pq_q pq) = Some r /\ (r < length qs)%nat /\
    lowest qs = Some r /\ nonempty qs r = true.
Proof.
  intros H Hl. pose proof (pq_hi _ _ _ H). pose proof (pq_num _ _ _ H).
  destruct (exists_nonempty _ _ _ H Hl) as [i Hi]. pose proof (nonempty_le_hi _ _ _ _ H Hi) as Hihi.
  destruct (lowest_from_ok _ _ _ (Z.to_nat (hi_prec pq)) 0 H ltac:(lia)) as (r & Hr & Hlt & Hne & Hlow).
  { intros j Hj. lia. }
  { exists i. split; [lia|done]. }
  exists r. split_and!; try done. by apply lowest_char.
Qed.

(** ** Flushing a queue *)

Definition flushed (fn : option (Z -> bool)) (p : Z) : bool := match fn with None => true | Some f => f p end.
Definition gone (fn : option (Z -> bool)) (l : list Z) : list Z := filter (fun x => flushed fn x = true) l.
Definition stays (fn : option (Z -> bool)) (l : list Z) : list Z := filter (fun x => flushed fn x = false) l.

(** One packet leaves: the packets [k] in front of it stay. *)
Lemma lseg_free (m : gmap Z Z) h k z r n :
  lseg (fun x => m !! x) h (k ++ z :: r) 0 -> NoDup (k ++ z :: r) -> m !! z = Some n ->
  exists h' m1, (if z =? h then Some (n, m) else m' ← PKTSETLINK m (last0 k) n; Some (h, m')) = Some (h', m1) /\
    is_Some (m1 !! z) /\ (z =? h) = bool_decide (k = []) /\
    lseg (fun x => delete z (<[z := 0]> m1) !! x) h' (k ++ r) 0 /\
    (if z =? h then Some h' else PKTLINK (delete z (<[z := 0]> m1)) (last0 k)) = Some n /\
    (forall x, x ∉ k ++ z :: r -> m1 !! x = m !! x).
Proof.
  intros Hs Hnd Hn. destruct k as [|y k _] using rev_ind.
  - destruct Hs as (-> & Hz & n' & Hn' & Hs). cbn beta in Hn'. rewrite Hn in Hn'. injection Hn' as <-.
    rewrite Z.eqb_refl. do 2 eexists. split; [reflexivity|]. split_and!; try done.
    apply NoDup_cons in Hnd as [Hzr _]. cbn [app]. eapply lseg_ext; [|exact Hs]. intros x Hx. cbn beta.
    assert (x <> z) by (by intros ->). by rewrite lookup_delete_ne, lookup_insert_ne by done.
  - rewrite <- app_assoc in Hs, Hnd. cbn [app] in *. pose proof (lseg_unlink _ _ _ _ _ _ _ Hs Hnd Hn) as Hs'.
    destruct (nodup_around _ _ _ _ Hnd) as (Hyz & Hzk & Hzr & Hnd').
    assert (z <> h) as Hzh.
    { destruct k as [|x k]; destruct Hs as (-> & _); [done|]. intros ->. apply Hzk. by left. }
    assert (is_Some (m !! y)) as Hy by (apply (lseg_node _ _ _ _ y Hs), elem_of_app; right; by left).
    rewrite last0_snoc. destruct (Z.eqb_spec z h) as [|_]; [done|]. rewrite PKTSETLINK_Some by done. cbn [mbind option_bind].
    do 2 eexists. split; [reflexivity|]. split_and!.
    + by rewrite lookup_insert_ne, Hn by done.
    + rewrite bool_decide_eq_false_2; [done|]. by destruct k.
    + rewrite <- app_assoc. cbn [app]. eapply lseg_ext; [|exact Hs']. intros x Hx. cbn beta. rewrite lookup_delete_ne; [done|].
      intros ->. apply elem_of_app in Hx as [?|[?|?]%elem_of_cons]; congruence.
    + unfold PKTLINK. by rewrite lookup_delete_ne, lookup_insert_ne, lookup_insert_eq by congruence.
    + intros x Hx. rewrite lookup_insert_ne; [done|]. intros ->. apply Hx. rewrite !elem_of_app. left; right; by left.
Qed.

Lemma pflush_loop_ok fuel fn m h k r p len pqlen freed :
  lseg (fun x => m !! x) h (k ++ r) 0 -> lseg (fun x => m !! x) p r 0 -> NoDup (k ++ r) -> (length r < fuel)%nat ->
  Z.of_nat (length r) <= len < 65536 -> Z.of_nat (length r) <= pqlen < 65536 ->
  exists h' m', pflush_loop fuel fn p (last0 k) (MkFlush h len pqlen m freed) =
      Some (MkFlush h' (len - Z.of_nat (length (gone fn r))) (pqlen - Z.of_nat (length (gone fn r))) m' (freed ++ gone fn r)) /\
    lseg (fun x => m' !! x) h' (k ++ stays fn r) 0 /\
    (forall x, x ∉ k ++ r -> m' !! x = m !! x) /\ (forall x, x ∈ gone fn r -> m' !! x = None).
Proof.
  revert fuel m h k p len pqlen freed.
  induction r as [|z r IH]; intros fuel m h k p len pqlen freed Hs Hp Hnd Hf Hl1 Hl2; (destruct fuel as [|fuel]; [cbn in Hf; lia|]).
  { cbn [lseg] in Hp. rewrite Hp. exists h, m. cbn. rewrite !Z.sub_0_r, !app_nil_r. rewrite app_nil_r in Hs. split_and!; try done.
    by intros x ?%not_elem_of_nil. }
  cbn [length] in *. destruct Hp as (-> & Hz & n & Hn & Hp). cbn beta in Hn. cbn [pflush_loop].
  destruct (Z.eqb_spec z 0) as [|_]; [done|]. fold (flushed fn z). cbn [fl_head fl_len fl_pqlen fl_mem fl_freed].
  unfold gone, stays. change (m !! z) with (PKTLINK m z) in Hn. rewrite Hn. destruct (flushed fn z) eqn:Efn.
  - rewrite filter_cons_True, filter_cons_False by congruence. cbn [mbind option_bind].
    destruct (lseg_free _ _ _ _ _ _ Hs Hnd Hn) as (h' & m1 & -> & Hz1 & _ & Hs1 & Enext & Hm1). cbn [mbind option_bind].
    rewrite PKTSETLINK_Some by done. cbn [mbind option_bind]. rewrite Enext. cbn [mbind option_bind].
    apply NoDup_app in Hnd as (Hnd1 & Hnd2 & [Hzr Hnd3]%NoDup_cons).
    assert (z ∉ k) as Hzk by (intros Hin; apply (Hnd2 z Hin); by left).
    assert (NoDup (k ++ r)) as Hnd.
    { apply NoDup_app. split_and!; try done. intros x Hx Hxr. apply (Hnd2 x Hx). by right. }
    assert (lseg (fun x => delete z (<[z := 0]> m1) !! x) n r 0) as Hp1.
    { apply lseg_app in Hs1 as (a & _ & Ha). destruct r as [|y r]; cbn [lseg] in *; [done|].
      destruct Ha as (-> & ?). by destruct Hp as (-> & _). }
    rewrite !u16_id by lia.
    destruct (IH fuel _ h' k n (len - 1) (pqlen - 1) (freed ++ [z]) Hs1 Hp1 Hnd ltac:(lia) ltac:(lia) ltac:(lia))
      as (h2 & m2 & -> & Hs2 & Hm2 & Hg2). exists h2, m2. rewrite <- app_assoc. cbn [app length].
    assert (m2 !! z = None) as Hz2 by (rewrite Hm2 by (by intros [?|?]%elem_of_app); apply lookup_delete_eq).
    split_and!; [|done| |by intros x [->|Hx]%elem_of_cons; [|apply Hg2]].
    + f_equal. f_equal; unfold gone; lia.
    + intros x Hx. assert (x <> z) by (intros ->; apply Hx, elem_of_app; right; by left).
      rewrite Hm2; [|intros [?|?]%elem_of_app; apply Hx, elem_of_app; [by left|right; by right]].
      rewrite lookup_delete_ne, lookup_insert_ne by done. by apply Hm1.
  - rewrite filter_cons_False, filter_cons_True by congruence. cbn [mbind option_bind].
    change (k ++ z :: r) with (k ++ [z] ++ r) in *. rewrite app_assoc in *.
    destruct (IH fuel m h (k ++ [z]) n len pqlen freed Hs Hp Hnd ltac:(lia) ltac:(lia) ltac:(lia)) as (h2 & m2 & E & Hs2 & Hm2 & Hg2).
    rewrite last0_snoc in E. exists h2, m2. split_and!; [done| |done|done].
    by rewrite <- app_assoc in Hs2.
Qed.

(** Flushing one queue: everything but the tail of a partly flushed queue. *)
Lemma pflush_ok m pq qs i l q fn :
  pq_rep m pq qs -> qs !! i = Some l -> pq_q pq !! i = Some q ->
  exists h' m', pktq_pflush pq (Z.of_nat i) fn m = Some (
      MkPq (num_prec pq) (hi_prec pq) (pq_max pq) (pq_len pq - Z.of_nat (length (gone fn l)))
        (<[i := MkPrec h' (if bool_decide (stays fn l = []) then 0 else last0 l)
                  (Z.of_nat (length l) - Z.of_nat (length (gone fn l))) (q_max q)]> (pq_q pq)), m', gone fn l) /\
    lseg (fun x => m' !! x) h' (stays fn l) 0 /\
    (forall x, x ∉ l -> m' !! x = m !! x) /\ (forall x, x ∈ gone fn l -> m' !! x = None).
Proof.
  intros H Hi Hq. destruct (pq_lookup _ _ _ _ _ H Hi) as (q' & Hq' & [Hseg Htail Hql]). simplify_eq.
  pose proof (others_length _ _ _ _ _ H Hi) as Hlen. pose proof (others_small _ _ _ _ _ H Hi) as Hsm.
  pose proof (others_nodup _ _ _ _ _ H Hi) as Hnd. apply NoDup_app in Hnd as (Hnd & _ & _).
  pose proof (lseg_size m _ _ _ Hnd Hseg) as Hsz.
  destruct (pflush_loop_ok (S (size m)) fn m (q_head q) [] l (q_head q) (q_len q) (pq_len pq) [] Hseg Hseg Hnd
    ltac:(lia) ltac:(lia) ltac:(lia)) as (h' & m' & E & Hs & Hm & Hg).
  unfold pktq_pflush. rewrite zget_of_nat, Hq. cbn [mbind option_bind]. change (last0 []) with 0 in E. rewrite E. cbn [mbind option_bind fl_head fl_len fl_pqlen fl_mem fl_freed app].
  rewrite zset_of_nat by (by eapply lookup_lt_Some). cbn [mbind option_bind]. cbn [app] in Hs, Hm.
  rewrite (lseg_start _ _ _ Hs), Htail, Hql. by eauto 10.
Qed.

(** The filter keeps the last packet of the list, or frees them all. *)
Definition keeps_tail (fn : option (Z -> bool)) (l : list Z) : Prop := stays fn l = [] \/ flushed fn (last0 l) = false.

Lemma gone_stays_length fn l : (length (gone fn l) + length (stays fn l) = length l)%nat.
Proof.
  unfold gone, stays. induction l as [|x l IH]; [done|]. rewrite !filter_cons.
  destruct (flushed fn x); repeat (case_decide; try congruence); cbn [length] in *; lia.
Qed.

Lemma stays_tail fn l : keeps_tail fn l -> (if bool_decide (stays fn l = []) then 0 else last0 l) = last0 (stays fn l).
Proof.
  intros [E|E]; [by rewrite E|]. destruct l as [|x l _] using rev_ind; [done|]. rewrite last0_snoc in *.
  unfold stays. rewrite filter_app, filter_cons_True, filter_nil, last0_snoc by done.
  rewrite bool_decide_eq_false_2; [done|]. by destruct (filter _ l).
Qed.

(** Flushing one queue when its tail stays right. *)
Lemma pflush_keep_ok m pq qs i l fn :
  pq_rep m pq qs -> qs !! i = Some l -> keeps_tail fn l ->
  exists pq' m', pktq_pflush pq (Z.of_nat i) fn m = Some (pq', m', gone fn l) /\
    pq_rep m' pq' (<[i := stays fn l]> qs) /\ same_max pq pq' /\ num_prec pq' = num_prec pq.
Proof.
  intros H Hi Ht. destruct (pq_lookup _ _ _ _ _ H Hi) as (q & Hq & _).
  destruct (pflush_ok _ _ _ _ _ _ fn H Hi Hq) as (h' & m' & E & Hs & Hm & _). rewrite stays_tail in E by done.
  pose proof (others_nodup _ _ _ _ _ H Hi) as Hnd. apply NoDup_app in Hnd as (Hnd & _ & _).
  pose proof (gone_stays_length fn l) as Hl. do 2 eexists. split; [exact E|]. apply Logic.and_assoc. split; [|done].
  eapply pq_rep_shrink; [reflexivity|exact H|exact Hi|exact Hq|done..|cbn [pq_len]; lia| |by apply NoDup_filter| |done].
  - split; cbn [q_head q_tail q_len]; [done|done|lia].
  - intros x [_ Hx]%list_elem_of_filter. done.
Qed.

Lemma flush_loop_ok fn m pq qs k j freed :
  pq_rep m pq qs -> (j + k = length qs)%nat -> Forall (keeps_tail fn) (drop j qs) ->
  exists pq' m', flush_loop k (Z.of_nat j) fn pq m freed = Some (pq', m', freed ++ concat (gone fn <$> drop j qs)) /\
    pq_rep m' pq' (take j qs ++ (stays fn <$> drop j qs)) /\ same_max pq pq'.
Proof.
  revert m pq qs j freed. induction k as [|k IH]; intros m pq qs j freed H Hj Ht.
  { exists pq, m. rewrite drop_ge, take_ge by lia. cbn. rewrite !app_nil_r. by split_and!. }
  destruct (lookup_lt_is_Some_2 qs j) as [l Hl]; [lia|]. rewrite (drop_S _ l j) in Ht by done. apply Forall_cons in Ht as [Htl Ht].
  destruct (pflush_keep_ok _ _ _ _ _ fn H Hl Htl) as (pq1 & m1 & E1 & H1 & Hmx1 & Hn1).
  cbn [flush_loop]. rewrite E1. cbn [mbind option_bind]. replace (Z.of_nat j + 1) with (Z.of_nat (S j)) by lia.
  destruct (IH m1 pq1 (<[j := stays fn l]> qs) (S j) (freed ++ gone fn l) H1) as (pq2 & m2 & E2 & H2 & Hmx2);
    [rewrite length_insert; lia|by rewrite drop_insert_lt by lia|].
  exists pq2, m2. rewrite E2, (drop_S _ l j) by done. cbn [fmap list_fmap concat]. rewrite drop_insert_lt, app_assoc in * by lia.
  split_and!; [done| |destruct Hmx1, Hmx2; split; congruence].
  rewrite (take_S_r _ _ (stays fn l)) in H2 by (apply list_lookup_insert_eq; lia). rewrite take_insert_ge in H2 by lia.
  by rewrite <- app_assoc in H2.
Qed.

Lemma flush_null l : gone None l = l /\ stays None l = [].
Proof.
  unfold gone, stays. induction l as [|x l [IH1 IH2]]; [done|].
  rewrite filter_cons_True, filter_cons_False by done. by rewrite IH1, IH2.
Qed.
End pktq_proofs.

(** ** Operations and their specification *)

(** The operations that take or give one packet. *)
Inductive pkt_op :=
  | Penq (prec : nat) (p : Z) | PenqHead (prec : nat) (p : Z) | Pdeq (prec : nat) | PdeqTail (prec : nat)
  | Deq | DeqTail | Mdeq (bmp : Z) | Peek | PeekTail | Pdel (prec : nat) (p : Z).

Definition no_prec (r : option (Z * pktq * gmap Z Z)) : option (deq_result * pktq * gmap Z Z) :=
  '(p, pq, m) ← r; Some (MkDeq p None, pq, m).

Definition pkt_step (o : pkt_op) (pq : pktq) (m : gmap Z Z) : option (deq_result * pktq * gmap Z Z) :=
  match o with
  | Penq prec p => no_prec (pktq_penq pq (Z.of_nat prec) p m)
  | PenqHead prec p => no_prec (pktq_penq_head pq (Z.of_nat prec) p m)
  | Pdeq prec => no_prec (pktq_pdeq pq (Z.of_nat prec) m)
  | PdeqTail prec => no_prec (pktq_pdeq_tail pq (Z.of_nat prec) m)
  | Deq => pktq_deq pq m
  | DeqTail => pktq_deq_tail pq m
  | Mdeq bmp => pktq_mdeq pq bmp m
  | Peek => '(r, pq) ← pktq_peek pq; Some (r, pq, m)
  | PeekTail => r ← pktq_peek_tail pq; Some (r, pq, m)
  | Pdel prec p => '(b, pq, m) ← pktq_pdel pq p (Z.of_nat prec) m; Some (MkDeq (zbool b) None, pq, m)
  end.

(** All operations: those on one packet, counting the packets of the
    precedences in a bitmap, and freeing those a filter selects, of one
    precedence or of all. *)
Inductive pktq_op :=
  | OnPacket (o : pkt_op) | Mlen (bmp : Z) | Pflush (prec : nat) (fn : option (Z -> bool)) | Flush (fn : option (Z -> bool)).

Inductive op_result := RPacket (r : deq_result) | RLength (n : Z) | RFreed (l : list Z).

Definition pktq_step (o : pktq_op) (pq : pktq) (m : gmap Z Z) : option (op_result * pktq * gmap Z Z) :=
  match o with
  | OnPacket o => '(r, pq, m) ← pkt_step o pq m; Some (RPacket r, pq, m)
  | Mlen bmp => n ← pktq_mlen pq bmp; Some (RLength n, pq, m)
  | Pflush prec fn => '(pq, m, freed) ← pktq_pflush pq (Z.of_nat prec) fn m; Some (RFreed freed, pq, m)
  | Flush fn => '(pq, m, freed) ← pktq_flush pq fn m; Some (RFreed freed, pq, m)
  end.

Module PktqOps.
Definition at_prec (i : option nat) (get : nat -> Z) : deq_result :=
  match i with Some i => MkDeq (get i) (Some (Z.of_nat i)) | None => MkDeq 0 None end.
Definition at_prec_qs (i : option nat) (f : list Z -> list Z) (qs : list (list Z)) : list (list Z) :=
  match i with Some i => replace i f qs | None => qs end.
Definition selected (bmp : Z) (i : nat) : bool := negb (Z.land bmp (Z.shiftl 1 (Z.of_nat i)) =? 0).

(** What each operation returns and how it changes the queues. *)
Definition pkt_spec (o : pkt_op) (qs : list (list Z)) : deq_result * list (list Z) :=
  match o with
  | Penq i p => (MkDeq p None, replace i (fun l => l ++ [p]) qs)
  | PenqHead i p => (MkDeq p None, replace i (cons p) qs)
  | Pdeq i => (MkDeq (first i qs) None, replace i tail qs)
  | PdeqTail i => (MkDeq (final i qs) None, replace i (@removelast Z) qs)
  | Deq => let i := highest (fun _ => true) qs in (at_prec i (fun i => first i qs), at_prec_qs i tail qs)
  | DeqTail => let i := lowest qs in (at_prec i (fun i => final i qs), at_prec_qs i (@removelast Z) qs)
  | Mdeq bmp => let i := highest (selected bmp) qs in (at_prec i (fun i => first i qs), at_prec_qs i tail qs)
  | Peek => (at_prec (highest (fun _ => true) qs) (fun i => first i qs), qs)
  | PeekTail => (at_prec (lowest qs) (fun i => final i qs), qs)
  | Pdel i p => (MkDeq (zbool (bool_decide (p ∈ default [] (qs !! i)))) None, replace i (keep_others p) qs)
  end.

(** The assertions of the functions: the precedence exists, and a packet that
    is added is not queued, not linked to another one, and fits. *)
Definition pkt_ok (m : gmap Z Z) (qs : list (list Z)) (o : pkt_op) : Prop :=
  match o with
  | Penq i p | PenqHead i p =>
      (i < length qs)%nat /\ p <> 0 /\ (p ∉ concat qs) /\ m !! p = Some 0 /\ Z.of_nat (length (concat qs)) < 65535
  | Pdeq i | PdeqTail i => (i < length qs)%nat
  | Pdel i p => (i < length qs)%nat /\ p <> 0
  | _ => True
  end.

Definition step (o : pktq_op) (qs : list (list Z)) : op_result * list (list Z) :=
  match o with
  | OnPacket o => (RPacket (pkt_spec o qs).1, (pkt_spec o qs).2)
  | Mlen bmp => (RLength (Z.of_nat (sum_list_with
      (fun i => if selected bmp i then length (default [] (qs !! i)) else 0%nat) (seq 0 (length qs)))), qs)
  | Pflush i fn => (RFreed (gone fn (default [] (qs !! i))), replace i (stays fn) qs)
  | Flush fn => (RFreed (concat (gone fn <$> qs)), stays fn <$> qs)
  end.

(** A filter that frees the last packet of a precedence frees all of them. *)
Definition op_ok (m : gmap Z Z) (qs : list (list Z)) (o : pktq_op) : Prop :=
  match o with
  | OnPacket o => pkt_ok m qs o
  | Mlen _ => True
  | Pflush i fn => (i < length qs)%nat /\ keeps_tail fn (default [] (qs !! i))
  | Flush fn => Forall (keeps_tail fn) qs
  end.
End PktqOps.
Import PktqOps.

Section pktq_steps.

Lemma replace_eq i f qs l : qs !! i = Some l -> replace i f qs = <[i := f l]> qs.
Proof. unfold replace. by intros ->. Qed.

Lemma highest_eq sel qs k :
  (k < length qs)%nat -> sel k && nonempty qs k = true -> (forall j, (k < j)%nat -> nonempty qs j = false) ->
  highest sel qs = Some k.
Proof.
  intros Hk Hs Hj. unfold highest. rewrite (highest_below_skip sel qs (S k)).
  - cbn [highest_below]. by rewrite Hs.
  - lia.
  - intros j ?. rewrite Hj by lia. by rewrite andb_false_r.
Qed.

Lemma empty_none m pq qs : pq_rep m pq qs -> pq_len pq = 0 -> (forall sel, highest sel qs = None) /\ lowest qs = None.
Proof.
  intros H Hl. rewrite (pq_total _ _ _ H) in Hl. assert (concat qs = []) as Hc by (destruct (concat qs); [done|simpl in Hl; lia]).
  clear H Hl. assert (forall j, nonempty qs j = false) as Hne.
  { intros j. unfold nonempty. destruct (qs !! j) as [[|x l]|] eqn:E; [done| |done].
    pose proof (Permutation_length (concat_others _ _ _ E)) as P. rewrite Hc in P. simpl in P. lia. }
  split.
  - intros sel. unfold highest. rewrite (highest_below_skip sel qs 0); [done|lia|]. intros j _. by rewrite Hne, andb_false_r.
  - clear Hc. induction qs as [|l qs IH]; [done|]. destruct l; [|by specialize (Hne 0%nat)]. cbn [lowest].
    rewrite IH; [done|]. intros j. apply (Hne (S j)).
Qed.

Lemma deq_first_at m pq qs k :
  pq_rep m pq qs -> (k < length qs)%nat -> nonempty qs k = true ->
  exists pq' m', ('(p, pq, m) ← deq_head pq (Z.of_nat k) m;
      if p =? 0 then Some (MkDeq 0 None, pq, m) else Some (MkDeq p (Some (Z.of_nat k)), pq, m))
    = Some (MkDeq (first k qs) (Some (Z.of_nat k)), pq', m') /\ pq_rep m' pq' (replace k tail qs).
Proof.
  intros H Hk Hne. unfold nonempty in Hne. destruct (qs !! k) as [[|p l]|] eqn:E; [done| |done].
  destruct (deq_head_ok _ _ _ _ _ H E) as (pq' & m' & -> & Hr & _ & _ & Hp & _). destruct (Hp p l eq_refl) as [Hp0 _].
  unfold first. rewrite (replace_eq _ _ _ _ E), E. cbn. destruct (Z.eqb_spec p 0); [done|]. eauto.
Qed.

Lemma deq_last_at m pq qs k :
  pq_rep m pq qs -> (k < length qs)%nat -> nonempty qs k = true ->
  exists pq' m', ('(p, pq, m) ← deq_last true pq (Z.of_nat k) m;
      if p =? 0 then Some (MkDeq 0 None, pq, m) else Some (MkDeq p (Some (Z.of_nat k)), pq, m))
    = Some (MkDeq (final k qs) (Some (Z.of_nat k)), pq', m') /\ pq_rep m' pq' (replace k (@removelast Z) qs).
Proof.
  intros H Hk Hne. unfold nonempty in Hne. destruct (qs !! k) as [l|] eqn:E; [|done].
  destruct (deq_last_ok true _ _ _ _ _ H E) as (pq' & m' & -> & Hr & _ & _ & Hp & _).
  unfold final. rewrite (replace_eq _ _ _ _ E), E. cbn [mbind option_bind from_option id].
  destruct l as [|p l _] using rev_ind; [done|]. destruct (Hp p l eq_refl) as [Hp0 _]. rewrite last0_snoc in *.
  destruct (Z.eqb_spec p 0); [done|]. by exists pq', m'.
Qed.

Lemma highest_below_Some n sel qs j :
  highest_below n sel qs = Some j -> (j < n)%nat /\ sel j && nonempty qs j = true.
Proof.
  induction n as [|n IH]; [done|]. cbn [highest_below]. destruct (sel n && nonempty qs n) eqn:E.
  - intros [= <-]. split; [lia|done].
  - intros [? ?]%IH. split; [lia|done].
Qed.

Lemma peek_first m q l : prec_rep m q l -> q_head q = default 0 (head l).
Proof. intros [Hs _ _]. destruct l; cbn [lseg] in Hs; [done|]. by destruct Hs as (-> & _). Qed.

Lemma deq_step m pq qs :
  pq_rep m pq qs -> exists pq' m', pkt_step (Deq) pq m = Some ((pkt_spec (Deq) qs).1, pq', m') /\ pq_rep m' pq' (pkt_spec (Deq) qs).2.
Proof.
  intros H. cbn [pkt_step pkt_spec fst snd].
  unfold pktq_deq. destruct (Z.eqb_spec (pq_len pq) 0) as [Hz|Hz].
  { rewrite (proj1 (empty_none _ _ _ H Hz)). by do 2 eexists. }
  destruct (lower_hi_highest _ _ _ H Hz) as (k & -> & Hk & Hne & Hj & Hr). cbn [mbind option_bind].
  rewrite (highest_eq _ _ k) by (done || by rewrite Hne). by apply deq_first_at.
Qed.

Lemma deq_tail_step m pq qs :
  pq_rep m pq qs -> exists pq' m', pkt_step (DeqTail) pq m = Some ((pkt_spec (DeqTail) qs).1, pq', m') /\ pq_rep m' pq' (pkt_spec (DeqTail) qs).2.
Proof.
  intros H. cbn [pkt_step pkt_spec fst snd].
  unfold pktq_deq_tail. destruct (Z.eqb_spec (pq_len pq) 0) as [Hz|Hz].
  { rewrite (proj2 (empty_none _ _ _ H Hz)). by do 2 eexists. }
  destruct (lowest_scan _ _ _ H Hz) as (k & -> & Hk & -> & Hne). cbn [mbind option_bind]. by apply deq_last_at.
Qed.

Lemma mdeq_step m pq qs bmp :
  pq_rep m pq qs -> exists pq' m', pkt_step (Mdeq bmp) pq m = Some ((pkt_spec (Mdeq bmp) qs).1, pq', m') /\ pq_rep m' pq' (pkt_spec (Mdeq bmp) qs).2.
Proof.
  intros H. cbn [pkt_step pkt_spec fst snd].
  unfold pktq_mdeq. destruct (Z.eqb_spec (pq_len pq) 0) as [Hz|Hz].
  { rewrite (proj1 (empty_none _ _ _ H Hz)). by do 2 eexists. }
  destruct (lower_hi_highest _ _ _ H Hz) as (k & -> & Hk & Hne & Hj & Hr). cbn [mbind option_bind].
  rewrite (mdeq_scan_ok _ _ _ bmp k Hr Hk). cbn [mbind option_bind].
  assert (highest (selected bmp) qs = highest_below (S k) (selected bmp) qs) as ->.
  { apply highest_below_skip; [lia|]. intros j ?. rewrite Hj by lia. by rewrite andb_false_r. }
  fold (selected bmp). destruct (highest_below (S k) (selected bmp) qs) as [j|] eqn:E; [|by do 2 eexists].
  destruct (highest_below_Some _ _ _ _ E) as [Hjk [_ Hjne]%andb_true_iff]. apply deq_first_at; (done || lia).
Qed.

Lemma peek_step m pq qs :
  pq_rep m pq qs -> exists pq' m', pkt_step (Peek) pq m = Some ((pkt_spec (Peek) qs).1, pq', m') /\ pq_rep m' pq' (pkt_spec (Peek) qs).2.
Proof.
  intros H. cbn [pkt_step pkt_spec fst snd].
  unfold pktq_peek. destruct (Z.eqb_spec (pq_len pq) 0) as [Hz|Hz].
  { rewrite (proj1 (empty_none _ _ _ H Hz)). by do 2 eexists. }
  destruct (lower_hi_highest _ _ _ H Hz) as (k & -> & Hk & Hne & Hj & Hr). cbn [mbind option_bind].
  rewrite (highest_eq _ _ k) by (done || by rewrite Hne).
  destruct (lookup_lt_is_Some_2 _ _ Hk) as [l Hl]. destruct (pq_lookup _ _ _ _ _ H Hl) as (q & Hq & Hp). rewrite Hq. cbn [mbind option_bind].
  unfold at_prec, first. rewrite Hl, (peek_first _ _ _ Hp). by do 2 eexists.
Qed.

Lemma peek_tail_step m pq qs :
  pq_rep m pq qs -> exists pq' m', pkt_step (PeekTail) pq m = Some ((pkt_spec (PeekTail) qs).1, pq', m') /\ pq_rep m' pq' (pkt_spec (PeekTail) qs).2.
Proof.
  intros H. cbn [pkt_step pkt_spec fst snd].
  unfold pktq_peek_tail. destruct (Z.eqb_spec (pq_len pq) 0) as [Hz|Hz].
  { rewrite (proj2 (empty_none _ _ _ H Hz)). by do 2 eexists. }
  destruct (lowest_scan _ _ _ H Hz) as (k & -> & Hk & -> & Hne). cbn [mbind option_bind].
  destruct (lookup_lt_is_Some_2 _ _ Hk) as [l Hl]. destruct (pq_lookup _ _ _ _ _ H Hl) as (q & Hq & [_ Ht _]). rewrite Hq. cbn [mbind option_bind].
  unfold at_prec, final. rewrite Hl, Ht. by do 2 eexists.
Qed.

Lemma pkt_step_ok o m pq qs :
  pq_rep m pq qs -> pkt_ok m qs o ->
  exists pq' m', pkt_step o pq m = Some ((pkt_spec o qs).1, pq', m') /\ pq_rep m' pq' (pkt_spec o qs).2.
Proof.
  intros H Ho. destruct o as [i p|i p|i|i| | |bmp| | |i p]; cbn [pkt_ok] in Ho.
  - cbn [pkt_step pkt_spec fst snd]. destruct Ho as (Hi & Hp0 & Hp & Hm & Hs). destruct (lookup_lt_is_Some_2 _ _ Hi) as [l Hl].
    rewrite <- (pq_total _ _ _ H) in Hs.
    destruct (penq_ok _ _ _ _ _ p H Hl Hp0 Hp Hm Hs) as (pq' & m' & E & Hr & _). rewrite E, (replace_eq _ _ _ _ Hl). by do 2 eexists.
  - cbn [pkt_step pkt_spec fst snd]. destruct Ho as (Hi & Hp0 & Hp & Hm & Hs). destruct (lookup_lt_is_Some_2 _ _ Hi) as [l Hl].
    rewrite <- (pq_total _ _ _ H) in Hs.
    destruct (penq_head_ok _ _ _ _ _ p H Hl Hp0 Hp ltac:(eauto) Hs) as (pq' & m' & E & Hr & _).
    rewrite E, (replace_eq _ _ _ _ Hl). by do 2 eexists.
  - cbn [pkt_step pkt_spec fst snd]. destruct (lookup_lt_is_Some_2 _ _ Ho) as [l Hl]. destruct (deq_head_ok _ _ _ _ _ H Hl) as (pq' & m' & E & Hr & _).
    unfold pktq_pdeq, first. rewrite E, (replace_eq _ _ _ _ Hl), Hl. by do 2 eexists.
  - cbn [pkt_step pkt_spec fst snd]. destruct (lookup_lt_is_Some_2 _ _ Ho) as [l Hl]. destruct (deq_last_ok false _ _ _ _ _ H Hl) as (pq' & m' & E & Hr & _).
    unfold pktq_pdeq_tail, final. rewrite E, (replace_eq _ _ _ _ Hl), Hl. by do 2 eexists.
  - by apply deq_step.
  - by apply deq_tail_step.
  - by apply mdeq_step.
  - by apply peek_step.
  - by apply peek_tail_step.
  - cbn [pkt_step pkt_spec fst snd]. destruct Ho as [Hi Hp0]. destruct (lookup_lt_is_Some_2 _ _ Hi) as [l Hl].
    destruct (pdel_ok _ _ _ _ _ p H Hl Hp0) as (m' & pq' & E & Hr & _). rewrite E, (replace_eq _ _ _ _ Hl), Hl. by do 2 eexists.
Qed.
(** A queue fresh from [pktq_init] has all precedences empty. *)
Lemma pktq_init_ok (m : gmap Z Z) (n max_len : Z) :
  0 < n <= 16 -> pq_rep m (pktq_init n max_len) (replicate (Z.to_nat n) []).
Proof.
  intros Hn. assert (concat (replicate (Z.to_nat n) ([] : list Z)) = []) as Hc.
  { induction (Z.to_nat n); [done|]. done. }
  split; rewrite ?Hc, ?length_replicate; cbn [pktq_init num_prec pq_q pq_len hi_prec length]; try (lia || apply NoDup_nil_2).
  - rewrite u16_id by lia. lia.
  - apply Forall2_replicate. by split.
  - rewrite u16_id by lia. lia.
  - intros i l _ Hi. by apply lookup_replicate in Hi as [-> _].
Qed.

(** [pktq_mlen] counts the packets of the selected precedences. *)
Lemma mlen_loop_ok m pq qs bmp k prec len :
  pq_rep m pq qs -> (prec + k <= length qs)%nat -> 0 <= len -> len + Z.of_nat (length (concat (drop prec qs))) < 65536 ->
  mlen_loop k prec bmp (pq_q pq) len = Some (len + Z.of_nat (sum_list_with
    (fun i => if selected bmp i then length (default [] (qs !! i)) else 0%nat) (seq prec k))).
Proof.
  intros H. revert prec len. induction k as [|k IH]; intros prec len Hp Hl Hb; [cbn; f_equal; lia|].
  destruct (lookup_lt_is_Some_2 qs prec) as [l El]; [lia|]. destruct (pq_lookup _ _ _ _ _ H El) as (q & Hq & [_ _ Hql]).
  rewrite (drop_S _ l) in Hb by done. cbn [concat] in Hb. rewrite length_app in Hb.
  cbn [mlen_loop seq sum_list_with]. unfold selected at 1. rewrite El. cbn [default from_option id].
  destruct (negb (_ =? 0)).
  - rewrite Hq. cbn [mbind option_bind]. rewrite s32_id by lia. rewrite IH by lia. f_equal. lia.
  - rewrite IH by lia. f_equal.
Qed.

Lemma sum_list_zero (f : nat -> nat) k n : (forall i, (k <= i < k + n)%nat -> f i = 0%nat) -> sum_list_with f (seq k n) = 0%nat.
Proof.
  revert k. induction n as [|n IH]; intros k H; [done|]. cbn [seq sum_list_with]. rewrite H by lia. rewrite IH; [done|]. intros i Hi. apply H. lia.
Qed.

Lemma pktq_mlen_ok m pq qs bmp :
  pq_rep m pq qs ->
  pktq_mlen pq bmp = Some (Z.of_nat (sum_list_with
    (fun i => if selected bmp i then length (default [] (qs !! i)) else 0%nat) (seq 0 (length qs)))).
Proof.
  intros H. unfold pktq_mlen. pose proof (pq_hi _ _ _ H). pose proof (pq_num _ _ _ H). pose proof (pq_small _ _ _ H).
  rewrite (mlen_loop_ok m pq qs) by (done || rewrite ?drop_0; lia). f_equal. rewrite Z.add_0_l. f_equal.
  set (k := S (Z.to_nat (hi_prec pq))). replace (length qs) with (k + (length qs - k))%nat by lia.
  rewrite seq_app, sum_list_with_app. rewrite (sum_list_zero _ (0 + k)); [lia|].
  intros i Hi. destruct (selected bmp i); [|done]. destruct (lookup_lt_is_Some_2 qs i) as [l Hl]; [lia|].
  rewrite Hl. cbn. rewrite (pq_above _ _ _ H i l) by (done || lia). done.
Qed.

Lemma flush_ok fn m pq qs : pq_rep m pq qs -> Forall (keeps_tail fn) qs ->
  exists pq' m', pktq_flush pq fn m = Some (pq', m', concat (gone fn <$> qs)) /\ pq_rep m' pq' (stays fn <$> qs) /\ same_max pq pq'.
Proof.
  intros H Ht. unfold pktq_flush. rewrite (pq_num _ _ _ H), Nat2Z.id.
  destruct (flush_loop_ok fn m pq qs (length qs) 0 [] H eq_refl) as (pq' & m' & E & Hr & Hm); [by rewrite drop_0|].
  change (Z.of_nat 0) with 0 in E. rewrite drop_0 in *. by exists pq', m'.
Qed.

Lemma pktq_step_ok o m pq qs :
  pq_rep m pq qs -> op_ok m qs o ->
  exists pq' m', pktq_step o pq m = Some ((step o qs).1, pq', m') /\ pq_rep m' pq' (step o qs).2.
Proof.
  intros H Ho. destruct o as [o|bmp|i fn|fn]; cbn [pktq_step step fst snd op_ok] in *.
  - destruct (pkt_step_ok o m pq qs H Ho) as (pq' & m' & -> & Hr). by exists pq', m'.
  - rewrite (pktq_mlen_ok m pq qs) by done. by exists pq, m.
  - destruct Ho as [Hi Ht]. destruct (lookup_lt_is_Some_2 _ _ Hi) as [l Hl]. rewrite Hl in *. cbn in Ht.
    destruct (pflush_keep_ok _ _ _ _ _ fn H Hl Ht) as (pq' & m' & -> & Hr & _). exists pq', m'. by rewrite (replace_eq _ _ _ _ Hl).
  - destruct (flush_ok fn m pq qs H Ho) as (pq' & m' & -> & Hr & _). by exists pq', m'.
Qed.
End pktq_steps.

(** C3: every operation on a packet queue (adding, removing, peeking,
    deleting, counting with a bitmap, flushing one or all precedences), on
    linked packets and with its cached [hi_prec], does what its specification
    on lists of packets says: the packets of a precedence leave in the order
    they came, the dequeues take the highest (or lowest) precedence that has a
    packet, a flush frees exactly the packets its filter selects, and every
    count stays right. It is assumed that the arguments satisfy the assertions
    of the functions, that an added packet is new and the total stays below
    65536, and that the filter of a flush keeps the last packet of a precedence
    or frees all of it; without the last condition the queue is damaged
    ([pflush_leaves_tail]). *)
Theorem pktq_refines (o : pktq_op) (m : gmap Z Z) (pq : pktq) (qs : list (list Z)) :
  pq_rep m pq qs -> op_ok m qs o ->
  exists pq' m', pktq_step o pq m = Some ((step o qs).1, pq', m') /\ pq_rep m' pq' (step o qs).2.
Proof. apply pktq_step_ok. Qed.

(** A queue with packets 8 and 12 at precedence 1 and 20 at precedence 0. *)
Definition sample_mem : gmap Z Z := {[8 := 12; 12 := 0; 20 := 0; 24 := 0]}.
Definition sample_pq : pktq := MkPq 3 1 5 3 [MkPrec 20 20 1 2; MkPrec 8 12 2 2; MkPrec 0 0 0 2].
Definition sample_qs : list (list Z) := [[20]; [8; 12]; []].

Lemma sample_rep : pq_rep sample_mem sample_pq sample_qs.
Proof.
  split; [reflexivity|simpl; lia| |apply (bool_decide_unpack _); vm_compute; exact I|reflexivity|simpl; lia|simpl; lia|].
  - repeat constructor; try done; cbn [lseg q_head]; eauto 10.
  - intros i l Hi Hl. simpl in Hi. destruct i as [|[|[|i]]]; [lia|lia|by injection Hl|by destruct i].
Qed.

Lemma pktq_refines_witness :
  exists pq' m', pktq_step (OnPacket Deq) sample_pq sample_mem = Some (RPacket (MkDeq 8 (Some 1)), pq', m') /\ pq_rep m' pq' [[20]; [12]; []].
Proof. exact (pktq_refines (OnPacket Deq) sample_mem sample_pq sample_qs sample_rep I). Defined.

(** [pktq_flush] without a filter frees every packet of the queue exactly
    once and leaves all precedences empty. *)
Theorem pktq_flush_frees_all (m : gmap Z Z) (pq : pktq) (qs : list (list Z)) :
  pq_rep m pq qs ->
  exists pq' m', pktq_flush pq None m = Some (pq', m', concat qs) /\ NoDup (concat qs) /\
    pq_rep m' pq' (replicate (length qs) []).
Proof.
  intros H. destruct (flush_ok None m pq qs H) as (pq' & m' & E & Hr & _).
  { apply Forall_forall. intros l _. left. apply flush_null. }
  assert (gone None <$> qs = qs /\ stays None <$> qs = replicate (length qs) []) as [E1 E2].
  { clear. induction qs as [|l qs [IH1 IH2]]; [done|]. cbn. destruct (flush_null l) as [-> ->]. by rewrite IH1, IH2. }
  rewrite E1 in E. rewrite E2 in Hr. exists pq', m'. split_and!; [done|apply H|done].
Qed.

Lemma pktq_flush_frees_all_witness :
  exists pq' m', pktq_flush sample_pq None sample_mem = Some (pq', m', [20; 8; 12]) /\ NoDup [20; 8; 12] /\
    pq_rep m' pq' [[]; []; []].
Proof. exact (pktq_flush_frees_all sample_mem sample_pq sample_qs sample_rep). Defined.

(** [pktq_pflush] with a filter that frees the last packet of a precedence
    and keeps another one leaves [tail] pointing to the packet it freed; the
    next packet queued at that precedence is linked to it. *)
Theorem pflush_leaves_tail (f : Z -> bool) (m : gmap Z Z) (pq : pktq) (qs : list (list Z)) (i : nat) (l : list Z) :
  pq_rep m pq qs -> qs !! i = Some l -> f (last0 l) = true -> stays (Some f) l <> [] ->
  exists pq' m', pktq_pflush pq (Z.of_nat i) (Some f) m = Some (pq', m', gone (Some f) l) /\
    (exists q, pq_q pq' !! i = Some q /\ q_tail q = last0 l) /\ m' !! last0 l = None /\
    forall p, pktq_penq pq' (Z.of_nat i) p m' = None.
Proof.
  intros H Hi Hf Hst. destruct (pq_lookup _ _ _ _ _ H Hi) as (q & Hq & _). pose proof (lookup_lt_Some _ _ _ Hq) as Hlt.
  destruct (pflush_ok _ _ _ _ _ _ (Some f) H Hi Hq) as (h' & m' & E & Hs & _ & Hg).
  assert (m' !! last0 l = None) as Hgone.
  { apply Hg. unfold gone. apply list_elem_of_filter. split; [done|]. apply last0_in. by intros ->. }
  do 2 eexists. split; [exact E|]. rewrite bool_decide_eq_false_2 by done. cbn [pq_q].
  rewrite list_lookup_insert_eq by done. split_and!; [by eexists|done|].
  intros p. unfold pktq_penq. cbn [pq_q]. rewrite zget_of_nat, list_lookup_insert_eq by done. cbn [mbind option_bind q_head q_tail].
  unfold ctrue. rewrite (lseg_start _ _ _ Hs), bool_decide_eq_false_2 by done. cbn [negb].
  unfold PKTSETLINK. by rewrite Hgone.
Qed.

Lemma pflush_leaves_tail_witness :
  exists pq' m', pktq_pflush sample_pq 1 (Some (fun p => p =? 12)) sample_mem = Some (pq', m', [12]) /\
    (exists q, pq_q pq' !! 1%nat = Some q /\ q_tail q = 12) /\ m' !! 12 = None /\
    forall p, pktq_penq pq' 1 p m' = None.
Proof.
  apply (pflush_leaves_tail (fun p => p =? 12) sample_mem sample_pq sample_qs 1 [8; 12] sample_rep);
    [reflexivity|reflexivity|discriminate].
Defined.

(** ** The transmit queue *)

(** The policy of [dhd_prec_enq]: the value returned, the packets freed and the
    queues. [mx] are the limits of the precedences, [tot] that of the queue. *)
Definition enq_policy (wme_dp : Z) (mx : list Z) (tot : Z) (i : nat) (pkt : Z) (qs : list (list Z))
    : bool * list Z * list (list Z) :=
  let add qs := replace i (fun l => l ++ [pkt]) qs in
  let pfull := default 0 (mx !! i) <=? Z.of_nat (length (default [] (qs !! i))) in
  let full := tot <=? Z.of_nat (length (concat qs)) in
  if negb pfull && negb full then (true, [], add qs)
  else
    let e := if pfull then i else default O (lowest qs) in
    let oldest := AC_BITMAP_TST wme_dp (Z.of_nat e) in
    if (i <? e)%nat || ((e =? i)%nat && negb oldest) then (false, [], qs)
    else if oldest then (true, [first e qs], add (replace e tail qs))
    else (true, [final e qs], add (replace e (@removelast Z) qs)).

(** The queue respects its limits. *)
Definition within (mx : list Z) (tot : Z) (qs : list (list Z)) : Prop :=
  Z.of_nat (length (concat qs)) <= tot /\ Forall2 (fun M l => Z.of_nat (length l) <= M) mx qs.

Section prec_enq.

Lemma within_add mx tot qs i l l' :
  within mx tot qs -> qs !! i = Some l -> Z.of_nat (length l') <= default 0 (mx !! i) ->
  Z.of_nat (length (concat qs)) + Z.of_nat (length l') - Z.of_nat (length l) <= tot ->
  within mx tot (<[i := l']> qs).
Proof.
  intros [H1 H2] Hi Hl Ht. pose proof (lookup_lt_Some _ _ _ Hi) as Hlt. split.
  - rewrite (Permutation_length (concat_insert_others i qs l' Hlt)), length_app.
    pose proof (Permutation_length (concat_others i qs l Hi)) as E. rewrite length_app in E. lia.
  - destruct (Forall2_lookup_r _ _ _ _ _ H2 Hi) as (M & HM & _). rewrite HM in Hl.
    rewrite <- (list_insert_id mx i M HM). by apply Forall2_insert.
Qed.

(** Freeing a packet that has left the queues. *)
Lemma pq_rep_free m pq qs p : pq_rep m pq qs -> p ∉ concat qs -> pq_rep (delete p m) pq qs.
Proof. intros H Hp. apply (pq_rep_mem m); [done|]. intros x Hx. rewrite lookup_delete_ne; [done|]. by intros ->. Qed.

(** What is left of a queue after one packet is evicted. *)
Definition evicted (oldest : bool) (l : list Z) : list Z := if oldest then tail l else removelast l.
Definition victim (oldest : bool) (l : list Z) : Z := if oldest then default 0 (head l) else last0 l.

Lemma evicted_perm oldest l : l <> [] -> l ≡ₚ victim oldest l :: evicted oldest l.
Proof.
  intros Hl. destruct oldest; cbn [victim evicted].
  - by destruct l.
  - destruct l as [|x l _] using rev_ind; [done|]. rewrite last0_snoc, removelast_snoc. by rewrite Permutation_app_comm.
Qed.

Lemma evict_ok (oldest : bool) m pq qs e l :
  pq_rep m pq qs -> qs !! e = Some l -> l <> [] ->
  exists pq' m', (if oldest then pktq_pdeq pq (Z.of_nat e) m else pktq_pdeq_tail pq (Z.of_nat e) m)
      = Some (victim oldest l, pq', m') /\
    pq_rep (delete (victim oldest l) m') pq' (<[e := evicted oldest l]> qs) /\ same_max pq pq' /\
    pq_len pq' = pq_len pq - 1 /\ (forall x, x ∉ concat qs -> delete (victim oldest l) m' !! x = m !! x) /\
    (forall x, x ∉ concat qs -> x ∉ concat (<[e := evicted oldest l]> qs)).
Proof.
  intros H He Hl. pose proof (lookup_lt_Some _ _ _ He) as Hlt. pose proof (evicted_perm oldest l Hl) as Hp.
  pose proof (concat_others _ _ _ He) as Hc. pose proof (concat_insert_others e qs (evicted oldest l) Hlt) as Hc'.
  pose proof (pq_nodup _ _ _ H) as Hnd. rewrite Hc, Hp in Hnd. cbn [app] in Hnd. apply NoDup_cons in Hnd as [Hv _].
  assert (exists pq' m', (if oldest then pktq_pdeq pq (Z.of_nat e) m else pktq_pdeq_tail pq (Z.of_nat e) m)
      = Some (victim oldest l, pq', m') /\ pq_rep m' pq' (<[e := evicted oldest l]> qs) /\ same_max pq pq' /\
      (forall x, x ∉ l -> m' !! x = m !! x)) as (pq' & m' & E & Hr & Hs & Hm).
  { destruct oldest.
    - destruct (deq_head_ok _ _ _ _ _ H He) as (pq' & m' & E & Hr & Hs & _ & _ & Hm). eauto 10.
    - destruct (deq_last_ok false _ _ _ _ _ H He) as (pq' & m' & E & Hr & Hs & _ & _ & Hm). eauto 10. }
  exists pq', m'. split; [done|]. split_and!.
  - apply pq_rep_free; [done|]. by rewrite Hc'.
  - done.
  - rewrite (pq_total _ _ _ Hr), (pq_total _ _ _ H). apply Permutation_length in Hp, Hc, Hc'.
    rewrite length_app in Hc, Hc'. cbn [length] in Hp. lia.
  - intros x Hx. rewrite Hc, Hp in Hx. cbn [app] in Hx. apply not_elem_of_cons in Hx as [Hxv Hx].
    rewrite lookup_delete_ne by done. apply Hm. intros Hin. rewrite Hp in Hin.
    apply elem_of_cons in Hin as [?|?]; [done|]. apply Hx, elem_of_app. by left.
  - intros x Hx. rewrite Hc, Hp in Hx. rewrite Hc'. by apply not_elem_of_cons in Hx as [_ ?].
Qed.

(** Evicting from [e] and adding at [i]. *)
Lemma evict_and_add (oldest : bool) (ev : list tp_event) (m : gmap Z Z) pq qs e i le l pkt :
  pq_rep m pq qs -> qs !! e = Some le -> le <> [] -> <[e := evicted oldest le]> qs !! i = Some l ->
  pkt <> 0 -> pkt ∉ concat qs -> m !! pkt = Some 0 ->
  exists r, ('(p, pq, m) ← (if oldest then pktq_pdeq pq (Z.of_nat e) m else pktq_pdeq_tail pq (Z.of_nat e) m);
      '(_, pq, m) ← pktq_penq pq (Z.of_nat i) pkt (delete p m);
      Some (MkEnq true pq m [p] ev)) = Some r /\
    enq_ret r = true /\ enq_freed r = [victim oldest le] /\ same_max pq (enq_pq r) /\
    pq_rep (enq_mem r) (enq_pq r) (<[i := l ++ [pkt]]> (<[e := evicted oldest le]> qs)).
Proof.
  intros H He Hle Hi Hp0 Hp Hm. destruct (evict_ok oldest _ _ _ _ _ H He Hle) as (pq1 & m1 & -> & H1 & Hs1 & Hl1 & Hm1 & Hc1).
  cbn [mbind option_bind]. pose proof (pq_small _ _ _ H) as Hsm. rewrite <- (pq_total _ _ _ H) in Hsm.
  destruct (penq_ok _ _ _ _ _ pkt H1 Hi Hp0) as (pq2 & m2 & -> & H2 & Hs2); [by apply Hc1|by rewrite Hm1|lia|].
  cbn [mbind option_bind]. eexists. split; [reflexivity|]. cbn [enq_ret enq_pq enq_mem enq_freed].
  split_and!; try done. destruct Hs1, Hs2. split; congruence.
Qed.

(** The eviction keeps the limits: [e] loses the packet that [i] gains. *)
Lemma within_evict oldest mx tot qs e i le l pkt :
  within mx tot qs -> qs !! e = Some le -> le <> [] -> <[e := evicted oldest le]> qs !! i = Some l ->
  Z.of_nat (length l) < default 0 (mx !! i) ->
  within mx tot (<[i := l ++ [pkt]]> (<[e := evicted oldest le]> qs)).
Proof.
  intros Hw He Hle Hi HM. pose proof (Permutation_length (evicted_perm oldest le Hle)) as Hp. cbn [length] in Hp.
  destruct (Forall2_lookup_r _ _ _ _ _ (proj2 Hw) He) as (M & EM & HMe).
  pose proof (Permutation_length (concat_others _ _ _ He)) as E1.
  pose proof (Permutation_length (concat_insert_others e qs (evicted oldest le) (lookup_lt_Some _ _ _ He))) as E2.
  rewrite length_app in E1, E2. pose proof (proj1 Hw).
  eapply within_add; [|exact Hi| |]; rewrite ?length_app; cbn [length]; try lia.
  eapply within_add; try done; rewrite ?EM; cbn [default from_option id]; lia.
Qed.

Lemma replace_evicted (oldest : bool) e qs le :
  qs !! e = Some le ->
  (if oldest then replace e tail qs else replace e (@removelast Z) qs) = <[e := evicted oldest le]> qs /\
  (if oldest then first e qs else final e qs) = victim oldest le.
Proof. intros He. unfold first, final. destruct oldest; by rewrite (replace_eq _ _ _ _ He), He. Qed.

(** The policy and the call when a packet has to go: [e] is where from. *)
Lemma prec_enq_evict wme ev m pq qs e i l le pkt :
  let mx := q_max <$> pq_q pq in
  let oldest := AC_BITMAP_TST wme (Z.of_nat e) in
  pq_rep m pq qs -> qs !! i = Some l -> qs !! e = Some le -> le <> [] -> pkt <> 0 -> pkt ∉ concat qs -> m !! pkt = Some 0 ->
  within mx (pq_max pq) qs -> (e = i \/ Z.of_nat (length l) < default 0 (mx !! i)) ->
  exists r, (if (Z.of_nat e =? Z.of_nat i) && negb oldest then Some (MkEnq false pq m [] ev)
             else '(p, pq, m) ← (if oldest then pktq_pdeq pq (Z.of_nat e) m else pktq_pdeq_tail pq (Z.of_nat e) m);
                  '(_, pq, m) ← pktq_penq pq (Z.of_nat i) pkt (delete p m);
                  Some (MkEnq true pq m [p] ev)) = Some r /\
    let '(b, freed, qs') :=
      if (e =? i)%nat && negb oldest then (false, [], qs)
      else if oldest then (true, [first e qs], replace i (fun l => l ++ [pkt]) (replace e tail qs))
      else (true, [final e qs], replace i (fun l => l ++ [pkt]) (replace e (@removelast Z) qs)) in
    enq_ret r = b /\ enq_freed r = freed /\ same_max pq (enq_pq r) /\
    pq_rep (enq_mem r) (enq_pq r) qs' /\ within mx (pq_max pq) qs'.
Proof.
  intros mx oldest H Hi He Hle Hp0 Hp Hm Hw Hcase.
  destruct (replace_evicted oldest e qs le He) as [Er Ef].
  assert (exists l1, <[e := evicted oldest le]> qs !! i = Some l1 /\ Z.of_nat (length l1) < default 0 (mx !! i)) as (l1 & Hl1 & Hlen).
  { destruct (Forall2_lookup_r _ _ _ _ _ (proj2 Hw) Hi) as (M & EM & HM).
    pose proof (Permutation_length (evicted_perm oldest le Hle)) as Hpl. cbn [length] in Hpl.
    destruct (decide (e = i)) as [->|Hne].
    - simplify_eq. eexists. rewrite list_lookup_insert_eq by (by eapply lookup_lt_Some). split; [done|].
      rewrite EM. cbn [default from_option id]. lia.
    - rewrite list_lookup_insert_ne by done. exists l. split; [done|]. by destruct Hcase. }
  replace (Z.of_nat e =? Z.of_nat i) with (e =? i)%nat by (destruct (Nat.eqb_spec e i), (Z.eqb_spec (Z.of_nat e) (Z.of_nat i)); (done || lia)).
  destruct ((e =? i)%nat && negb oldest); [eexists; by split_and!|].
  destruct (evict_and_add oldest ev _ _ _ _ _ _ _ pkt H He Hle Hl1 Hp0 Hp Hm) as (r & -> & Hret & Hfr & Hs & Hr).
  exists r. split; [done|]. rewrite <- (replace_eq i (fun l => l ++ [pkt]) _ _ Hl1), <- Er in Hr. rewrite <- Ef in Hfr.
  assert (within mx (pq_max pq) (replace i (fun l => l ++ [pkt]) (<[e := evicted oldest le]> qs))) as Hw'.
  { rewrite (replace_eq _ _ _ _ Hl1). by apply within_evict. }
  rewrite <- Er in Hw'. destruct oldest; by split_and!.
Qed.
End prec_enq.

(** [dhd_prec_enq] follows its policy. A packet that fits is appended to
    its precedence; when the precedence or the queue is full, a packet of the
    precedence or of the lowest one in use makes room, the oldest or the newest
    as the discard policy says, unless that precedence is higher or would have
    to drop a newer packet, in which case the packet is refused. Exactly the
    evicted packet is freed and no limit is ever exceeded. *)
Theorem dhd_prec_enq_policy (wme_dp data pkt : Z) (i : nat) (m : gmap Z Z) (pq : pktq) (qs : list (list Z)) (l : list Z) :
  let mx := q_max <$> pq_q pq in
  pq_rep m pq qs -> qs !! i = Some l -> pkt <> 0 -> pkt ∉ concat qs -> m !! pkt = Some 0 ->
  0 < pq_max pq < 65536 -> 0 < default 0 (mx !! i) -> within mx (pq_max pq) qs ->
  exists r, dhd_prec_enq wme_dp data pq pkt (Z.of_nat i) m = Some r /\
    let '(b, freed, qs') := enq_policy wme_dp mx (pq_max pq) i pkt qs in
    enq_ret r = b /\ enq_freed r = freed /\ same_max pq (enq_pq r) /\
    pq_rep (enq_mem r) (enq_pq r) qs' /\ within mx (pq_max pq) qs'.
Proof.
  intros mx H Hi Hp0 Hp Hm Htot HM Hw. destruct (pq_lookup _ _ _ _ _ H Hi) as (q & Hq & [_ _ Hql]).
  assert (mx !! i = Some (q_max q)) as EM by (unfold mx; by rewrite list_lookup_fmap, Hq).
  unfold dhd_prec_enq, enq_policy. rewrite zget_of_nat, Hq, Hi, EM in *. cbn [mbind option_bind default from_option id] in *.
  unfold pktq_pfull, pktq_full. rewrite Hql, (pq_total _ _ _ H).
  destruct (Z.leb_spec (q_max q) (Z.of_nat (length l))) as [Hpf|Hpf]; cbn [negb andb].
  - cbn [mbind option_bind negb]. destruct (Z.leb_spec 0 (Z.of_nat i)); [|lia]. rewrite Nat.ltb_irrefl. cbn [orb].
    apply (prec_enq_evict _ _ _ _ _ i i l l); try done; [|by left]. intros ->. simpl in Hpf. lia.
  - destruct (Z.leb_spec (pq_max pq) (Z.of_nat (length (concat qs)))) as [Hf|Hf]; cbn [negb].
    + pose proof (pq_total _ _ _ H) as Hl. unfold pktq_peek_tail. destruct (Z.eqb_spec (pq_len pq) 0); [lia|].
      destruct (lowest_scan _ _ _ H ltac:(lia)) as (e & -> & He & -> & Hne). cbn [mbind option_bind default from_option id].
      destruct (lookup_lt_is_Some_2 _ _ He) as [le Hle]. destruct (pq_lookup _ _ _ _ _ H Hle) as (qe & -> & _).
      cbn [mbind option_bind dq_prec default from_option id]. destruct (Z.ltb_spec (Z.of_nat e) 0); [lia|]. rewrite orb_false_r, negb_involutive.
      replace (Z.of_nat i <? Z.of_nat e) with (i <? e)%nat
        by (destruct (Nat.ltb_spec i e), (Z.ltb_spec (Z.of_nat i) (Z.of_nat e)); (done || lia)).
      destruct (i <? e)%nat; cbn [orb]; [eexists; by split_and!|]. destruct (Z.leb_spec 0 (Z.of_nat e)); [|lia].
      apply (prec_enq_evict _ _ _ _ _ e i l le); try done.
      * unfold nonempty in Hne. rewrite Hle in Hne. by destruct le.
      * right. fold mx. by rewrite EM.
    + destruct (penq_ok _ _ _ _ _ pkt H Hi Hp0 Hp Hm) as (pq' & m' & -> & Hr & Hs); [rewrite (pq_total _ _ _ H); lia|].
      cbn [mbind option_bind]. eexists. split; [reflexivity|]. rewrite (replace_eq _ _ _ _ Hi).
      split_and!; try done. eapply within_add; try done; rewrite ?EM, ?length_app; cbn [length default from_option id]; lia.
Qed.

Lemma dhd_prec_enq_policy_witness :
  exists r, dhd_prec_enq 2 100 sample_pq 24 1 sample_mem = Some r /\
    enq_ret r = true /\ enq_freed r = [8] /\ same_max sample_pq (enq_pq r) /\
    pq_rep (enq_mem r) (enq_pq r) [[20]; [12; 24]; []] /\ within [2; 2; 2] 5 [[20]; [12; 24]; []].
Proof.
  apply (dhd_prec_enq_policy 2 100 24 1 sample_mem sample_pq sample_qs [8; 12] sample_rep).
  - reflexivity.
  - discriminate.
  - apply (bool_decide_unpack _). vm_compute. exact I.
  - reflexivity.
  - simpl. lia.
  - simpl. lia.
  - split; [simpl; lia|]. repeat constructor; simpl; lia.
Defined.

(** The tracepoint in [dhd_prec_enq] fires before the outcome is known. A
    packet that is refused, because its precedence is full and keeps its older
    packets, is recorded as enqueued although the queue does not change; and
    whatever the outcome, the event of the call is one enqueue: a packet that
    is evicted leaves no event. *)
Theorem refused_packet_traced (wme_dp data pkt prec : Z) (m : gmap Z Z) (pq : pktq) (q : pktq_prec) :
  zget (pq_q pq) prec = Some q -> 0 <= prec -> q_max q <= q_len q -> AC_BITMAP_TST wme_dp prec = false ->
  dhd_prec_enq wme_dp data pq pkt prec m =
    Some (MkEnq false pq m [] [tp_pktqueue data (sem_queue_id_val PKTQ_BCM4329_TXQ) 0 QUEUE_ENQUEUE]) /\
  forall wme pkt' prec' m' pq' r, dhd_prec_enq wme data pq' pkt' prec' m' = Some r ->
    enq_events r = [tp_pktqueue data (sem_queue_id_val PKTQ_BCM4329_TXQ) 0 QUEUE_ENQUEUE].
Proof.
  intros Hq Hp Hf Hd. split.
  - unfold dhd_prec_enq, pktq_pfull. rewrite Hq. cbn [mbind option_bind].
    destruct (Z.leb_spec (q_max q) (q_len q)); [|lia]. cbn [negb andb mbind option_bind].
    destruct (Z.leb_spec 0 prec); [|lia]. by rewrite Z.eqb_refl, Hd.
  - intros wme pkt' prec' m' pq' r. unfold dhd_prec_enq. intros E.
    repeat first [case_match; simplify_eq/= | apply bind_Some in E as (? & ? & E); simplify_eq/=]; try done.
Qed.

Lemma refused_packet_traced_witness :
  dhd_prec_enq 0 100 sample_pq 24 1 sample_mem =
    Some (MkEnq false sample_pq sample_mem [] [tp_pktqueue 100 (sem_queue_id_val PKTQ_BCM4329_TXQ) 0 QUEUE_ENQUEUE]) /\
  forall wme pkt' prec' m' pq' r, dhd_prec_enq wme 100 pq' pkt' prec' m' = Some r ->
    enq_events r = [tp_pktqueue 100 (sem_queue_id_val PKTQ_BCM4329_TXQ) 0 QUEUE_ENQUEUE].
Proof.
  apply (refused_packet_traced 0 100 24 1 sample_mem sample_pq (MkPrec 8 12 2 2)); [reflexivity|lia|simpl; lia|reflexivity].
Defined.
