(* ===== verification/Crc.v ===== *)
(** * Checksums of the wireless driver

    The table-driven cyclic redundancy checks of [bcmutils.c]. Their reference
    is the shift register that the comments describe by its polynomial, one bit
    at a time; the bits of a byte enter from the lowest, so the polynomials are
    written with the highest power in the lowest bit.

    [pdata] is the memory from the pointer to the end of its object: [None] is a
    read outside of it, or outside of a table. *)

From stdpp Require Import prelude list.
From Stdlib Require Import ZArith Lia.
From S2P Require Import Prelude.

Open Scope Z_scope.
Open Scope list_scope.

Definition crc8_table : list Z := [
    0x00; 0xF7; 0xB9; 0x4E; 0x25; 0xD2; 0x9C; 0x6B;
    0x4A; 0xBD; 0xF3; 0x04; 0x6F; 0x98; 0xD6; 0x21;
    0x94; 0x63; 0x2D; 0xDA; 0xB1; 0x46; 0x08; 0xFF;
    0xDE; 0x29; 0x67; 0x90; 0xFB; 0x0C; 0x42; 0xB5;
    0x7F; 0x88; 0xC6; 0x31; 0x5A; 0xAD; 0xE3; 0x14;
    0x35; 0xC2; 0x8C; 0x7B; 0x10; 0xE7; 0xA9; 0x5E;
    0xEB; 0x1C; 0x52; 0xA5; 0xCE; 0x39; 0x77; 0x80;
    0xA1; 0x56; 0x18; 0xEF; 0x84; 0x73; 0x3D; 0xCA;
    0xFE; 0x09; 0x47; 0xB0; 0xDB; 0x2C; 0x62; 0x95;
    0xB4; 0x43; 0x0D; 0xFA; 0x91; 0x66; 0x28; 0xDF;
    0x6A; 0x9D; 0xD3; 0x24; 0x4F; 0xB8; 0xF6; 0x01;
    0x20; 0xD7; 0x99; 0x6E; 0x05; 0xF2; 0xBC; 0x4B;
    0x81; 0x76; 0x38; 0xCF; 0xA4; 0x53; 0x1D; 0xEA;
    0xCB; 0x3C; 0x72; 0x85; 0xEE; 0x19; 0x57; 0xA0;
    0x15; 0xE2; 0xAC; 0x5B; 0x30; 0xC7; 0x89; 0x7E;
    0x5F; 0xA8; 0xE6; 0x11; 0x7A; 0x8D; 0xC3; 0x34;
    0xAB; 0x5C; 0x12; 0xE5; 0x8E; 0x79; 0x37; 0xC0;
    0xE1; 0x16; 0x58; 0xAF; 0xC4; 0x33; 0x7D; 0x8A;
    0x3F; 0xC8; 0x86; 0x71; 0x1A; 0xED; 0xA3; 0x54;
    0x75; 0x82; 0xCC; 0x3B; 0x50; 0xA7; 0xE9; 0x1E;
    0xD4; 0x23; 0x6D; 0x9A; 0xF1; 0x06; 0x48; 0xBF;
    0x9E; 0x69; 0x27; 0xD0; 0xBB; 0x4C; 0x02; 0xF5;
    0x40; 0xB7; 0xF9; 0x0E; 0x65; 0x92; 0xDC; 0x2B;
    0x0A; 0xFD; 0xB3; 0x44; 0x2F; 0xD8; 0x96; 0x61;
    0x55; 0xA2; 0xEC; 0x1B; 0x70; 0x87; 0xC9; 0x3E;
    0x1F; 0xE8; 0xA6; 0x51; 0x3A; 0xCD; 0x83; 0x74;
    0xC1; 0x36; 0x78; 0x8F; 0xE4; 0x13; 0x5D; 0xAA;
    0x8B; 0x7C; 0x32; 0xC5; 0xAE; 0x59; 0x17; 0xE0;
    0x2A; 0xDD; 0x93; 0x64; 0x0F; 0xF8; 0xB6; 0x41;
    0x60; 0x97; 0xD9; 0x2E; 0x45; 0xB2; 0xFC; 0x0B;
    0xBE; 0x49; 0x07; 0xF0; 0x9B; 0x6C; 0x22; 0xD5;
    0xF4; 0x03; 0x4D; 0xBA; 0xD1; 0x26; 0x68; 0x9F].

Definition crc16_table : list Z := [
    0x0000; 0x1189; 0x2312; 0x329B; 0x4624; 0x57AD; 0x6536; 0x74BF;
    0x8C48; 0x9DC1; 0xAF5A; 0xBED3; 0xCA6C; 0xDBE5; 0xE97E; 0xF8F7;
    0x1081; 0x0108; 0x3393; 0x221A; 0x56A5; 0x472C; 0x75B7; 0x643E;
    0x9CC9; 0x8D40; 0xBFDB; 0xAE52; 0xDAED; 0xCB64; 0xF9FF; 0xE876;
    0x2102; 0x308B; 0x0210; 0x1399; 0x6726; 0x76AF; 0x4434; 0x55BD;
    0xAD4A; 0xBCC3; 0x8E58; 0x9FD1; 0xEB6E; 0xFAE7; 0xC87C; 0xD9F5;
    0x3183; 0x200A; 0x1291; 0x0318; 0x77A7; 0x662E; 0x54B5; 0x453C;
    0xBDCB; 0xAC42; 0x9ED9; 0x8F50; 0xFBEF; 0xEA66; 0xD8FD; 0xC974;
    0x4204; 0x538D; 0x6116; 0x709F; 0x0420; 0x15A9; 0x2732; 0x36BB;
    0xCE4C; 0xDFC5; 0xED5E; 0xFCD7; 0x8868; 0x99E1; 0xAB7A; 0xBAF3;
    0x5285; 0x430C; 0x7197; 0x601E; 0x14A1; 0x0528; 0x37B3; 0x263A;
    0xDECD; 0xCF44; 0xFDDF; 0xEC56; 0x98E9; 0x8960; 0xBBFB; 0xAA72;
    0x6306; 0x728F; 0x4014; 0x519D; 0x2522; 0x34AB; 0x0630; 0x17B9;
    0xEF4E; 0xFEC7; 0xCC5C; 0xDDD5; 0xA96A; 0xB8E3; 0x8A78; 0x9BF1;
    0x7387; 0x620E; 0x5095; 0x411C; 0x35A3; 0x242A; 0x16B1; 0x0738;
    0xFFCF; 0xEE46; 0xDCDD; 0xCD54; 0xB9EB; 0xA862; 0x9AF9; 0x8B70;
    0x8408; 0x9581; 0xA71A; 0xB693; 0xC22C; 0xD3A5; 0xE13E; 0xF0B7;
    0x0840; 0x19C9; 0x2B52; 0x3ADB; 0x4E64; 0x5FED; 0x6D76; 0x7CFF;
    0x9489; 0x8500; 0xB79B; 0xA612; 0xD2AD; 0xC324; 0xF1BF; 0xE036;
    0x18C1; 0x0948; 0x3BD3; 0x2A5A; 0x5EE5; 0x4F6C; 0x7DF7; 0x6C7E;
    0xA50A; 0xB483; 0x8618; 0x9791; 0xE32E; 0xF2A7; 0xC03C; 0xD1B5;
    0x2942; 0x38CB; 0x0A50; 0x1BD9; 0x6F66; 0x7EEF; 0x4C74; 0x5DFD;
    0xB58B; 0xA402; 0x9699; 0x8710; 0xF3AF; 0xE226; 0xD0BD; 0xC134;
    0x39C3; 0x284A; 0x1AD1; 0x0B58; 0x7FE7; 0x6E6E; 0x5CF5; 0x4D7C;
    0xC60C; 0xD785; 0xE51E; 0xF497; 0x8028; 0x91A1; 0xA33A; 0xB2B3;
    0x4A44; 0x5BCD; 0x6956; 0x78DF; 0x0C60; 0x1DE9; 0x2F72; 0x3EFB;
    0xD68D; 0xC704; 0xF59F; 0xE416; 0x90A9; 0x8120; 0xB3BB; 0xA232;
    0x5AC5; 0x4B4C; 0x79D7; 0x685E; 0x1CE1; 0x0D68; 0x3FF3; 0x2E7A;
    0xE70E; 0xF687; 0xC41C; 0xD595; 0xA12A; 0xB0A3; 0x8238; 0x93B1;
    0x6B46; 0x7ACF; 0x4854; 0x59DD; 0x2D62; 0x3CEB; 0x0E70; 0x1FF9;
    0xF78F; 0xE606; 0xD49D; 0xC514; 0xB1AB; 0xA022; 0x92B9; 0x8330;
    0x7BC7; 0x6A4E; 0x58D5; 0x495C; 0x3DE3; 0x2C6A; 0x1EF1; 0x0F78].

Definition crc32_table : list Z := [
    0x00000000; 0x77073096; 0xEE0E612C; 0x990951BA; 0x076DC419; 0x706AF48F; 0xE963A535; 0x9E6495A3;
    0x0EDB8832; 0x79DCB8A4; 0xE0D5E91E; 0x97D2D988; 0x09B64C2B; 0x7EB17CBD; 0xE7B82D07; 0x90BF1D91;
    0x1DB71064; 0x6AB020F2; 0xF3B97148; 0x84BE41DE; 0x1ADAD47D; 0x6DDDE4EB; 0xF4D4B551; 0x83D385C7;
    0x136C9856; 0x646BA8C0; 0xFD62F97A; 0x8A65C9EC; 0x14015C4F; 0x63066CD9; 0xFA0F3D63; 0x8D080DF5;
    0x3B6E20C8; 0x4C69105E; 0xD56041E4; 0xA2677172; 0x3C03E4D1; 0x4B04D447; 0xD20D85FD; 0xA50AB56B;
    0x35B5A8FA; 0x42B2986C; 0xDBBBC9D6; 0xACBCF940; 0x32D86CE3; 0x45DF5C75; 0xDCD60DCF; 0xABD13D59;
    0x26D930AC; 0x51DE003A; 0xC8D75180; 0xBFD06116; 0x21B4F4B5; 0x56B3C423; 0xCFBA9599; 0xB8BDA50F;
    0x2802B89E; 0x5F058808; 0xC60CD9B2; 0xB10BE924; 0x2F6F7C87; 0x58684C11; 0xC1611DAB; 0xB6662D3D;
    0x76DC4190; 0x01DB7106; 0x98D220BC; 0xEFD5102A; 0x71B18589; 0x06B6B51F; 0x9FBFE4A5; 0xE8B8D433;
    0x7807C9A2; 0x0F00F934; 0x9609A88E; 0xE10E9818; 0x7F6A0DBB; 0x086D3D2D; 0x91646C97; 0xE6635C01;
    0x6B6B51F4; 0x1C6C6162; 0x856530D8; 0xF262004E; 0x6C0695ED; 0x1B01A57B; 0x8208F4C1; 0xF50FC457;
    0x65B0D9C6; 0x12B7E950; 0x8BBEB8EA; 0xFCB9887C; 0x62DD1DDF; 0x15DA2D49; 0x8CD37CF3; 0xFBD44C65;
    0x4DB26158; 0x3AB551CE; 0xA3BC0074; 0xD4BB30E2; 0x4ADFA541; 0x3DD895D7; 0xA4D1C46D; 0xD3D6F4FB;
    0x4369E96A; 0x346ED9FC; 0xAD678846; 0xDA60B8D0; 0x44042D73; 0x33031DE5; 0xAA0A4C5F; 0xDD0D7CC9;
    0x5005713C; 0x270241AA; 0xBE0B1010; 0xC90C2086; 0x5768B525; 0x206F85B3; 0xB966D409; 0xCE61E49F;
    0x5EDEF90E; 0x29D9C998; 0xB0D09822; 0xC7D7A8B4; 0x59B33D17; 0x2EB40D81; 0xB7BD5C3B; 0xC0BA6CAD;
    0xEDB88320; 0x9ABFB3B6; 0x03B6E20C; 0x74B1D29A; 0xEAD54739; 0x9DD277AF; 0x04DB2615; 0x73DC1683;
    0xE3630B12; 0x94643B84; 0x0D6D6A3E; 0x7A6A5AA8; 0xE40ECF0B; 0x9309FF9D; 0x0A00AE27; 0x7D079EB1;
    0xF00F9344; 0x8708A3D2; 0x1E01F268; 0x6906C2FE; 0xF762575D; 0x806567CB; 0x196C3671; 0x6E6B06E7;
    0xFED41B76; 0x89D32BE0; 0x10DA7A5A; 0x67DD4ACC; 0xF9B9DF6F; 0x8EBEEFF9; 0x17B7BE43; 0x60B08ED5;
    0xD6D6A3E8; 0xA1D1937E; 0x38D8C2C4; 0x4FDFF252; 0xD1BB67F1; 0xA6BC5767; 0x3FB506DD; 0x48B2364B;
    0xD80D2BDA; 0xAF0A1B4C; 0x36034AF6; 0x41047A60; 0xDF60EFC3; 0xA867DF55; 0x316E8EEF; 0x4669BE79;
    0xCB61B38C; 0xBC66831A; 0x256FD2A0; 0x5268E236; 0xCC0C7795; 0xBB0B4703; 0x220216B9; 0x5505262F;
    0xC5BA3BBE; 0xB2BD0B28; 0x2BB45A92; 0x5CB36A04; 0xC2D7FFA7; 0xB5D0CF31; 0x2CD99E8B; 0x5BDEAE1D;
    0x9B64C2B0; 0xEC63F226; 0x756AA39C; 0x026D930A; 0x9C0906A9; 0xEB0E363F; 0x72076785; 0x05005713;
    0x95BF4A82; 0xE2B87A14; 0x7BB12BAE; 0x0CB61B38; 0x92D28E9B; 0xE5D5BE0D; 0x7CDCEFB7; 0x0BDBDF21;
    0x86D3D2D4; 0xF1D4E242; 0x68DDB3F8; 0x1FDA836E; 0x81BE16CD; 0xF6B9265B; 0x6FB077E1; 0x18B74777;
    0x88085AE6; 0xFF0F6A70; 0x66063BCA; 0x11010B5C; 0x8F659EFF; 0xF862AE69; 0x616BFFD3; 0x166CCF45;
    0xA00AE278; 0xD70DD2EE; 0x4E048354; 0x3903B3C2; 0xA7672661; 0xD06016F7; 0x4969474D; 0x3E6E77DB;
    0xAED16A4A; 0xD9D65ADC; 0x40DF0B66; 0x37D83BF0; 0xA9BCAE53; 0xDEBB9EC5; 0x47B2CF7F; 0x30B5FFE9;
    0xBDBDF21C; 0xCABAC28A; 0x53B39330; 0x24B4A3A6; 0xBAD03605; 0xCDD70693; 0x54DE5729; 0x23D967BF;
    0xB3667A2E; 0xC4614AB8; 0x5D681B02; 0x2A6F2B94; 0xB40BBE37; 0xC30C8EA1; 0x5A05DF1B; 0x2D02EF8D].

Definition CRC8_INIT_VALUE : Z := 0xff.
Definition CRC8_GOOD_VALUE : Z := 0x9f.
Definition CRC16_INIT_VALUE : Z := 0xffff.
Definition CRC16_GOOD_VALUE : Z := 0xf0b8.
Definition CRC32_INIT_VALUE : Z := 0xffffffff.
Definition CRC32_GOOD_VALUE : Z := 0xdebb20e3.

Definition CRC_INNER_LOOP (table : list Z) (c x : Z) : option Z :=
  t ← zget table (Z.land (Z.lxor c x) 0xff); Some (Z.lxor (Z.shiftr c 8) t).

(** [while (nbytes-- > 0)] around a step that reads [*pdata++]. *)
Fixpoint crc_loop (step : Z -> Z -> option Z) (nbytes : nat) (pdata : list Z) (crc : Z) : option Z :=
  match nbytes with
  | O => Some crc
  | S nbytes' =>
      match pdata with
      | [] => None
      | x :: pdata' => crc ← step crc x; crc_loop step nbytes' pdata' crc
      end
  end.

Definition hndcrc8 (pdata : list Z) (nbytes crc : Z) : option Z :=
  crc_loop (fun crc x => zget crc8_table (Z.land (Z.lxor crc x) 0xff)) (Z.to_nat nbytes) pdata crc.
Definition hndcrc16 (pdata : list Z) (nbytes crc : Z) : option Z := crc_loop (CRC_INNER_LOOP crc16_table) (Z.to_nat nbytes) pdata crc.
Definition hndcrc32 (pdata : list Z) (nbytes crc : Z) : option Z := crc_loop (CRC_INNER_LOOP crc32_table) (Z.to_nat nbytes) pdata crc.

(** ** Reference *)

(** One bit: the register is shifted, and the polynomial subtracted if a one
    leaves it. *)
Definition crc_bit (poly c : Z) : Z := if Z.odd c then Z.lxor (Z.shiftr c 1) poly else Z.shiftr c 1.
Definition crc_byte (poly c x : Z) : Z := Nat.iter 8 (crc_bit poly) (Z.lxor c x).
Definition crc_ref (poly : Z) (data : list Z) (c : Z) : Z := foldl (crc_byte poly) c data.

(** The polynomial with the powers [ps] below the highest one, [n]. *)
Definition polynomial (n : Z) (ps : list Z) : Z := foldr (fun p acc => Z.lor (Z.shiftl 1 (n - 1 - p)) acc) 0 ps.
Definition poly8 : Z := polynomial 8 [7; 6; 4; 2; 0].
Definition poly16 : Z := polynomial 16 [12; 5; 0].
Definition poly32 : Z := polynomial 32 [26; 23; 22; 16; 12; 11; 10; 8; 7; 5; 4; 2; 1; 0].

(** ** Tables *)

Section table.
(** A checksum of [w] bytes. *)
Context (w : nat) (poly : Z) (T : list Z).

Definition tab (i : Z) : Z := default 0 (T !! Z.to_nat i).
Definition width : Z := 8 * Z.of_nat w.

(** A table fits the polynomial, and the highest byte of an entry tells which
    one it is. *)
Definition table_ok : bool :=
  (0 <? w)%nat && bool_decide (length T = 256%nat) && bool_decide (NoDup ((fun t => Z.shiftr t (width - 8)) <$> T)) &&
  forallb (fun i => (tab i =? Nat.iter 8 (crc_bit poly) i) && (0 <=? tab i) && (tab i <? 2 ^ width)) (seqZ 0 256).

Context (Hok : table_ok = true).

Definition in_width (c : Z) : Prop := 0 <= c < 2 ^ width.
Definition tstep (c x : Z) : Z := Z.lxor (Z.shiftr c 8) (tab (Z.land (Z.lxor c x) 0xff)).

Lemma w_pos : (0 < w)%nat.
Proof. unfold table_ok in Hok. rewrite !andb_true_iff in Hok. apply Nat.ltb_lt. tauto. Qed.

Lemma tab_length : length T = 256%nat.
Proof. unfold table_ok in Hok. rewrite !andb_true_iff, !bool_decide_eq_true in Hok. tauto. Qed.

Lemma tab_entry i : byte_range i -> tab i = Nat.iter 8 (crc_bit poly) i /\ in_width (tab i).
Proof.
  intros Hi. unfold table_ok in Hok. apply andb_true_iff in Hok as [_ H]. pose proof (byte_forallb _ H i Hi) as E. cbn beta in E.
  rewrite !andb_true_iff, Z.eqb_eq, Z.leb_le, Z.ltb_lt in E. unfold in_width. lia.
Qed.

Lemma tab_zget i : byte_range i -> zget T i = Some (tab i).
Proof.
  intros [H0 H1]. unfold zget, tab. rewrite (proj2 (Z.leb_le 0 i)) by done.
  destruct (lookup_lt_is_Some_2 T (Z.to_nat i)) as [t ->]; [rewrite tab_length; lia|done].
Qed.

Lemma tab_top i j :
  byte_range i -> byte_range j -> Z.shiftr (tab i) (width - 8) = Z.shiftr (tab j) (width - 8) -> i = j.
Proof.
  intros Hi Hj E. unfold table_ok in Hok. rewrite !andb_true_iff, !bool_decide_eq_true in Hok. destruct Hok as [[[_ Hl] Hn] _].
  apply Z2Nat.inj; [by apply Hi|by apply Hj|]. unfold byte_range in *.
  destruct (lookup_lt_is_Some_2 T (Z.to_nat i)) as [t Ht]; [lia|]. destruct (lookup_lt_is_Some_2 T (Z.to_nat j)) as [t' Ht']; [lia|].
  unfold tab in E. rewrite Ht, Ht' in E. cbn in E.
  eapply (NoDup_lookup _ _ _ (Z.shiftr t (width - 8)) Hn); rewrite list_lookup_fmap; [by rewrite Ht|by rewrite Ht'; cbn; rewrite E].
Qed.

Lemma land_byte x : byte_range (Z.land x 0xff).
Proof. rewrite land_255. apply Z.mod_pos_bound. lia. Qed.

Lemma lxor_width a b : in_width a -> in_width b -> in_width (Z.lxor a b).
Proof.
  unfold in_width. intros Ha Hb. assert (0 <= Z.lxor a b) as H0 by (apply Z.lxor_nonneg; lia). split; [done|].
  destruct (Z.eq_dec (Z.lxor a b) 0) as [->|Hne]; [lia|]. apply Z.log2_lt_pow2; [lia|].
  pose proof (Z.log2_lxor a b ltac:(lia) ltac:(lia)). assert (0 < width) by (unfold width; pose proof w_pos; lia).
  assert (forall x, 0 <= x < 2 ^ width -> Z.log2 x < width) as Hl.
  { intros x Hx. destruct (Z.eq_dec x 0) as [->|]; [cbn; lia|]. apply Z.log2_lt_pow2; lia. }
  pose proof (Hl a Ha). pose proof (Hl b Hb). lia.
Qed.

Lemma tstep_width c x : in_width c -> in_width (tstep c x).
Proof.
  intros Hc. apply lxor_width; [|by apply tab_entry, land_byte]. unfold in_width in *. rewrite Z.shiftr_div_pow2 by lia.
  split; [apply Z.div_pos; lia|]. eapply Z.le_lt_trans; [|apply Hc]. apply Z.div_le_upper_bound; lia.
Qed.

(** *** The table and the shift register *)

Lemma crc_bit_shift c y k : 0 < k -> crc_bit poly (Z.lxor c (Z.shiftl y k)) = Z.lxor (crc_bit poly c) (Z.shiftl y (k - 1)).
Proof.
  intros Hk. unfold crc_bit. assert (Z.odd (Z.lxor c (Z.shiftl y k)) = Z.odd c) as ->.
  { rewrite <- !Z.bit0_odd, Z.lxor_spec, Z.shiftl_spec_low by done. apply xorb_false_r. }
  rewrite Z.shiftr_lxor, (Z.shiftr_shiftl_l y k 1) by lia. destruct (Z.odd c); [|done].
  rewrite !Z.lxor_assoc. f_equal. apply Z.lxor_comm.
Qed.

Lemma crc_iter_shift n c y k : Z.of_nat n <= k ->
  Nat.iter n (crc_bit poly) (Z.lxor c (Z.shiftl y k)) = Z.lxor (Nat.iter n (crc_bit poly) c) (Z.shiftl y (k - Z.of_nat n)).
Proof.
  revert k. induction n as [|n IH]; intros k Hk; [cbn; by rewrite Z.sub_0_r|].
  change (Nat.iter (S n) ?f ?a) with (f (Nat.iter n f a)). rewrite IH by lia. rewrite crc_bit_shift by lia. do 2 f_equal. lia.
Qed.

Lemma split_byte x : x = Z.lxor (Z.land x 0xff) (Z.shiftl (Z.shiftr x 8) 8).
Proof.
  apply Z.bits_inj'. intros n Hn. rewrite Z.lxor_spec, Z.land_spec. change 0xff with (Z.ones 8). destruct (Z.ltb_spec n 8).
  - rewrite Z.ones_spec_low, Z.shiftl_spec_low by lia. by rewrite andb_true_r, xorb_false_r.
  - rewrite Z.ones_spec_high, Z.shiftl_spec, Z.shiftr_spec by lia. rewrite andb_false_r, xorb_false_l. f_equal. lia.
Qed.

Lemma byte_shiftr x : byte_range x -> Z.shiftr x 8 = 0.
Proof. intros Hx. rewrite Z.shiftr_div_pow2 by lia. apply Z.div_small. exact Hx. Qed.

Lemma tstep_ref c x : byte_range x -> tstep c x = crc_byte poly c x.
Proof.
  intros Hx. unfold tstep, crc_byte. rewrite (split_byte (Z.lxor c x)) at 2. rewrite crc_iter_shift by done.
  rewrite (proj1 (tab_entry _ (land_byte _))), Z.shiftr_lxor, (byte_shiftr x), Z.lxor_0_r by done. apply Z.lxor_comm.
Qed.

Definition crc_run (c : Z) (data : list Z) : Z := foldl tstep c data.

Lemma run_ref data c : Forall byte_range data -> crc_run c data = crc_ref poly data c.
Proof. intros H. revert c. induction H as [|x data Hx _ IH]; intros c; [done|]. cbn. rewrite tstep_ref by done. apply IH. Qed.

Lemma run_width data c : in_width c -> in_width (crc_run c data).
Proof. revert c. induction data as [|x data IH]; intros c Hc; [done|]. by apply IH, tstep_width. Qed.

Lemma inner_loop_tstep c x : CRC_INNER_LOOP T c x = Some (tstep c x).
Proof. unfold CRC_INNER_LOOP. by rewrite tab_zget by apply land_byte. Qed.

Lemma crc_loop_run step data n c :
  (forall c x, in_width c -> step c x = Some (tstep c x)) -> in_width c -> (n <= length data)%nat ->
  crc_loop step n data c = Some (crc_run c (take n data)).
Proof.
  intros Hs. revert n c. induction data as [|x data IH]; intros [|n] c Hc Hn; cbn [length] in Hn; try done; [lia|].
  cbn [crc_loop]. rewrite Hs by done. cbn [mbind option_bind]. rewrite IH by (try apply tstep_width; done || lia). done.
Qed.

(** *** Runs from a register that holds the data already *)

Lemma tstep_xor c x y : tstep (Z.lxor c (Z.shiftl y 8)) x = Z.lxor (tstep c x) y.
Proof.
  unfold tstep. rewrite Z.shiftr_lxor, Z.shiftr_shiftl_l, Z.sub_diag, Z.shiftl_0_r by lia.
  replace (Z.land (Z.lxor (Z.lxor c (Z.shiftl y 8)) x) 0xff) with (Z.land (Z.lxor c x) 0xff).
  - rewrite !Z.lxor_assoc. f_equal. apply Z.lxor_comm.
  - apply Z.bits_inj'. intros n Hn. rewrite !Z.land_spec, !Z.lxor_spec. change 0xff with (Z.ones 8). destruct (Z.ltb_spec n 8).
    + rewrite (Z.shiftl_spec_low y) by lia. by rewrite xorb_false_r.
    + by rewrite Z.ones_spec_high, !andb_false_r by lia.
Qed.

Lemma tstep_byte c x : byte_range x -> tstep c x = tstep (Z.lxor c x) 0.
Proof. intros Hx. unfold tstep. by rewrite Z.lxor_0_r, Z.shiftr_lxor, (byte_shiftr x), Z.lxor_0_r by done. Qed.

Lemma le_val_lxor x l : byte_range x -> le_val (x :: l) = Z.lxor x (Z.shiftl (le_val l) 8).
Proof.
  intros Hx. cbn [le_val]. rewrite Z.add_nocarry_lxor.
  - by rewrite Z.shiftl_mul_pow2, Z.mul_comm by lia.
  - apply Z.bits_inj'. intros n Hn. rewrite Z.land_spec, Z.bits_0. change 256 with (2 ^ 8). rewrite Z.mul_comm, <- Z.shiftl_mul_pow2 by lia.
    destruct (Z.ltb_spec n 8); [by rewrite Z.shiftl_spec_low, andb_false_r|].
    rewrite <- (Z.mod_small x (2 ^ 8)), Z.mod_pow2_bits_high by (unfold byte_range in Hx; lia). done.
Qed.

Lemma run_preset data c : Forall byte_range data -> crc_run c data = crc_run (Z.lxor c (le_val data)) (replicate (length data) 0).
Proof.
  intros H. revert c. induction H as [|x data Hx _ IH]; intros c; [by rewrite Z.lxor_0_r|].
  cbn [length replicate]. change (crc_run ?c (?y :: ?l)) with (crc_run (tstep c y) l). rewrite IH. f_equal.
  rewrite le_val_lxor, (tstep_byte c) by done. by rewrite <- Z.lxor_assoc, tstep_xor.
Qed.

Lemma tstep_inj c1 c2 : in_width c1 -> in_width c2 -> tstep c1 0 = tstep c2 0 -> c1 = c2.
Proof.
  intros H1 H2 E. unfold tstep in E. rewrite !Z.lxor_0_r in E. pose proof w_pos.
  assert (forall c, in_width c -> Z.shiftr (Z.shiftr c 8) (width - 8) = 0) as Hz.
  { intros c Hc. rewrite Z.shiftr_shiftr by (unfold width; lia). rewrite Z.shiftr_div_pow2 by (unfold width; lia).
    replace (8 + (width - 8)) with width by lia. by apply Z.div_small. }
  assert (Z.land c1 0xff = Z.land c2 0xff) as El.
  { apply tab_top; [apply land_byte..|]. apply (f_equal (fun x => Z.shiftr x (width - 8))) in E.
    by rewrite !Z.shiftr_lxor, !Hz, !Z.lxor_0_l in E by done. }
  rewrite El in E. apply (f_equal (fun x => Z.lxor x (tab (Z.land c2 0xff)))) in E. rewrite !Z.lxor_assoc, Z.lxor_nilpotent, !Z.lxor_0_r in E.
  by rewrite (split_byte c1), (split_byte c2), El, E.
Qed.

Lemma run_zeros_inj n c1 c2 : in_width c1 -> in_width c2 -> crc_run c1 (replicate n 0) = crc_run c2 (replicate n 0) -> c1 = c2.
Proof.
  revert c1 c2. induction n as [|n IH]; intros c1 c2 H1 H2; [done|]. cbn. intros E. apply tstep_inj; [done|done|].
  by apply IH; [apply tstep_width..|].
Qed.

Lemma pow_width : 256 ^ Z.of_nat w = 2 ^ width.
Proof. unfold width. rewrite Z.pow_mul_r by lia. done. Qed.

(** The complement of the register, appended to the data, always gives the same
    value. *)
Lemma residue c : in_width c -> crc_run c (le_bytes w (wrapu width (Z.lnot c))) = crc_run (Z.ones width) (replicate w 0).
Proof.
  intros Hc. assert (0 <= width) by (unfold width; lia). rewrite run_preset, length_le_bytes by apply le_bytes_range.
  rewrite le_val_bytes by (rewrite pow_width; by apply wrapu_range). f_equal.
  apply Z.bits_inj'. intros n Hn. rewrite Z.lxor_spec. unfold wrapu. destruct (Z.ltb_spec n width).
  - rewrite Z.mod_pow2_bits_low, Z.lnot_spec, Z.ones_spec_low by lia. by destruct (Z.testbit c n).
  - rewrite Z.mod_pow2_bits_high, Z.ones_spec_high by lia. rewrite <- (Z.mod_small c (2 ^ width)), Z.mod_pow2_bits_high by (done || lia). done.
Qed.

Lemma le_val_inj l1 l2 : Forall byte_range l1 -> Forall byte_range l2 -> length l1 = length l2 -> le_val l1 = le_val l2 -> l1 = l2.
Proof.
  intros H1. revert l2. induction H1 as [|x l1 Hx _ IH]; intros [|y l2] H2 Hl E; try done. apply Forall_cons in H2 as [Hy H2].
  cbn [le_val] in E. unfold byte_range in *. assert (x = y) as <- by lia. f_equal. apply IH; [done|by injection Hl|lia].
Qed.

Lemma le_val_width l : Forall byte_range l -> (length l <= w)%nat -> in_width (le_val l).
Proof.
  intros H Hl. pose proof (le_val_range l H) as Hr. unfold in_width. rewrite <- pow_width. split; [lia|].
  eapply Z.lt_le_trans; [apply Hr|]. apply Z.pow_le_mono_r; lia.
Qed.

Lemma run_inj data c1 c2 : Forall byte_range data -> in_width c1 -> in_width c2 -> crc_run c1 data = crc_run c2 data -> c1 = c2.
Proof.
  intros H. revert c1 c2. induction H as [|x data Hx _ IH]; intros c1 c2 H1 H2 E; [done|].
  assert (in_width x) as Hw by (unfold in_width; rewrite <- pow_width; pose proof w_pos; split; [apply Hx|];
    eapply Z.lt_le_trans; [apply Hx|]; apply (Z.pow_le_mono_r 256 1); lia).
  apply IH in E; [|by apply tstep_width..]. rewrite !(tstep_byte _ x) in E by done. apply tstep_inj in E; [|by apply lxor_width..].
  apply (f_equal (fun y => Z.lxor y x)) in E. by rewrite !Z.lxor_assoc, Z.lxor_nilpotent, !Z.lxor_0_r in E.
Qed.

(** An error that is confined to as many bytes as the checksum has changes it. *)
Lemma burst p d1 d2 q c :
  Forall byte_range d1 -> Forall byte_range d2 -> Forall byte_range q -> in_width c ->
  length d1 = length d2 -> (length d1 <= w)%nat -> d1 <> d2 -> crc_run c (p ++ d1 ++ q) <> crc_run c (p ++ d2 ++ q).
Proof.
  intros H1 H2 Hq Hc Hl Hw Hne E. unfold crc_run in E. rewrite !foldl_app in E. set (c' := foldl tstep c p) in E.
  assert (in_width c') as Hc' by (by apply run_width). apply run_inj in E; [|done|by apply run_width..].
  rewrite (run_preset d1), (run_preset d2), <- Hl in E by done.
  apply run_zeros_inj in E; [|apply lxor_width; [done|apply le_val_width; (done || lia)]..].
  apply Hne, le_val_inj; try done. apply (f_equal (Z.lxor c')) in E. by rewrite <- !Z.lxor_assoc, Z.lxor_nilpotent, !Z.lxor_0_l in E.
Qed.
End table.

(** ** The three checksums *)

Lemma crc8_ok : table_ok 1 poly8 crc8_table = true.
Proof. vm_compute. reflexivity. Qed.
Lemma crc16_ok : table_ok 2 poly16 crc16_table = true.
Proof. vm_compute. reflexivity. Qed.
Lemma crc32_ok : table_ok 4 poly32 crc32_table = true.
Proof. vm_compute. reflexivity. Qed.

Lemma hndcrc8_run data nbytes c :
  0 <= nbytes <= Z.of_nat (length data) -> in_width 1 c -> hndcrc8 data nbytes c = Some (crc_run crc8_table c (take (Z.to_nat nbytes) data)).
Proof.
  intros Hn Hc. unfold hndcrc8. eapply (crc_loop_run 1 poly8); [apply crc8_ok| |done|lia]. intros c' x Hc'.
  rewrite (tab_zget 1 poly8) by (apply crc8_ok || apply land_byte). unfold tstep. rewrite (byte_shiftr c') by exact Hc'. by rewrite Z.lxor_0_l.
Qed.
Lemma hndcrc16_run data nbytes c :
  0 <= nbytes <= Z.of_nat (length data) -> in_width 2 c -> hndcrc16 data nbytes c = Some (crc_run crc16_table c (take (Z.to_nat nbytes) data)).
Proof.
  intros Hn Hc. unfold hndcrc16. eapply (crc_loop_run 2 poly16); [apply crc16_ok| |done|lia]. intros c' x _.
  apply (inner_loop_tstep 2 poly16), crc16_ok.
Qed.
Lemma hndcrc32_run data nbytes c :
  0 <= nbytes <= Z.of_nat (length data) -> in_width 4 c -> hndcrc32 data nbytes c = Some (crc_run crc32_table c (take (Z.to_nat nbytes) data)).
Proof.
  intros Hn Hc. unfold hndcrc32. eapply (crc_loop_run 4 poly32); [apply crc32_ok| |done|lia]. intros c' x _.
  apply (inner_loop_tstep 4 poly32), crc32_ok.
Qed.

(** C22: The three table-driven checksums are the shift registers of the
    polynomials x^8 + x^7 + x^6 + x^4 + x^2 + 1, x^16 + x^12 + x^5 + 1 and that of
    Ethernet, fed bit by bit, for every initial value and every length within the
    data; neither the data nor a table is read out of range. *)
Theorem crc_shift_register data nbytes c :
  Forall byte_range data -> 0 <= nbytes <= Z.of_nat (length data) ->
  (0 <= c < 2 ^ 8 -> hndcrc8 data nbytes c = Some (crc_ref poly8 (take (Z.to_nat nbytes) data) c)) /\
  (0 <= c < 2 ^ 16 -> hndcrc16 data nbytes c = Some (crc_ref poly16 (take (Z.to_nat nbytes) data) c)) /\
  (0 <= c < 2 ^ 32 -> hndcrc32 data nbytes c = Some (crc_ref poly32 (take (Z.to_nat nbytes) data) c)).
Proof.
  intros Hd Hn. assert (Forall byte_range (take (Z.to_nat nbytes) data)) as Ht by (by apply Forall_take). split_and!; intros Hc.
  - rewrite hndcrc8_run by done. by rewrite (run_ref 1 poly8 _ crc8_ok).
  - rewrite hndcrc16_run by done. by rewrite (run_ref 2 poly16 _ crc16_ok).
  - rewrite hndcrc32_run by done. by rewrite (run_ref 4 poly32 _ crc32_ok).
Qed.

Lemma crc_shift_register_witness :
  hndcrc32 [49; 50; 51; 52; 53; 54; 55; 56; 57] 9 CRC32_INIT_VALUE = Some (crc_ref poly32 [49; 50; 51; 52; 53; 54; 55; 56; 57] CRC32_INIT_VALUE) /\
  u32 (Z.lnot (crc_ref poly32 [49; 50; 51; 52; 53; 54; 55; 56; 57] CRC32_INIT_VALUE)) = 0xcbf43926.
Proof.
  split; [|vm_compute; reflexivity]. apply (crc_shift_register [49; 50; 51; 52; 53; 54; 55; 56; 57] 9 CRC32_INIT_VALUE).
  - repeat constructor; lia.
  - cbn. lia.
  - split; [discriminate|reflexivity].
Defined.

Lemma hndcrc8_all data m c : m = Z.of_nat (length data) -> in_width 1 c -> hndcrc8 data m c = Some (crc_run crc8_table c data).
Proof. intros -> Hc. rewrite hndcrc8_run by (done || lia). rewrite Nat2Z.id. by rewrite firstn_all. Qed.
Lemma hndcrc16_all data m c : m = Z.of_nat (length data) -> in_width 2 c -> hndcrc16 data m c = Some (crc_run crc16_table c data).
Proof. intros -> Hc. rewrite hndcrc16_run by (done || lia). rewrite Nat2Z.id. by rewrite firstn_all. Qed.
Lemma hndcrc32_all data m c : m = Z.of_nat (length data) -> in_width 4 c -> hndcrc32 data m c = Some (crc_run crc32_table c data).
Proof. intros -> Hc. rewrite hndcrc32_run by (done || lia). rewrite Nat2Z.id. by rewrite firstn_all. Qed.

Lemma residue_end w poly T init good data :
  table_ok w poly T = true -> in_width w init -> crc_run T (Z.ones (width w)) (replicate w 0) = good ->
  crc_run T init (data ++ le_bytes w (wrapu (width w) (Z.lnot (crc_run T init data)))) = good.
Proof.
  intros Hok Hi <-. unfold crc_run at 1. rewrite foldl_app. apply (residue w T). by apply (run_width w poly).
Qed.

(** As the comments say, a block of data followed by the complement of its
    checksum, lowest byte first, has the checksum [CRC8_GOOD_VALUE],
    [CRC16_GOOD_VALUE] or [CRC32_GOOD_VALUE], whatever the data. *)
Theorem crc_good_value data :
  let n := Z.of_nat (length data) in
  (exists c, hndcrc8 data n CRC8_INIT_VALUE = Some c /\
     hndcrc8 (data ++ le_bytes 1 (u8 (Z.lnot c))) (n + 1) CRC8_INIT_VALUE = Some CRC8_GOOD_VALUE) /\
  (exists c, hndcrc16 data n CRC16_INIT_VALUE = Some c /\
     hndcrc16 (data ++ le_bytes 2 (u16 (Z.lnot c))) (n + 2) CRC16_INIT_VALUE = Some CRC16_GOOD_VALUE) /\
  (exists c, hndcrc32 data n CRC32_INIT_VALUE = Some c /\
     hndcrc32 (data ++ le_bytes 4 (u32 (Z.lnot c))) (n + 4) CRC32_INIT_VALUE = Some CRC32_GOOD_VALUE).
Proof.
  intros n. split_and!; eexists.
  - split; [by apply hndcrc8_all; [|vm_compute]|]. rewrite hndcrc8_all; [|rewrite length_app, length_le_bytes; lia|by vm_compute].
    f_equal. by apply (residue_end 1 poly8 _ _ _ _ crc8_ok).
  - split; [by apply hndcrc16_all; [|vm_compute]|]. rewrite hndcrc16_all; [|rewrite length_app, length_le_bytes; lia|by vm_compute].
    f_equal. by apply (residue_end 2 poly16 _ _ _ _ crc16_ok).
  - split; [by apply hndcrc32_all; [|vm_compute]|]. rewrite hndcrc32_all; [|rewrite length_app, length_le_bytes; lia|by vm_compute].
    f_equal. by apply (residue_end 4 poly32 _ _ _ _ crc32_ok).
Qed.

(** C23: A burst of errors confined to consecutive bytes, one for the checksum of
    8 bits, two for that of 16 and four for that of 32, never goes unnoticed:
    blocks that differ only there have different checksums. *)
Theorem crc_detects_bursts p d1 d2 q :
  Forall byte_range d1 -> Forall byte_range d2 -> Forall byte_range q -> length d1 = length d2 -> d1 <> d2 ->
  let n := Z.of_nat (length (p ++ d1 ++ q)) in
  ((length d1 <= 1)%nat -> forall c, 0 <= c < 2 ^ 8 -> hndcrc8 (p ++ d1 ++ q) n c <> hndcrc8 (p ++ d2 ++ q) n c) /\
  ((length d1 <= 2)%nat -> forall c, 0 <= c < 2 ^ 16 -> hndcrc16 (p ++ d1 ++ q) n c <> hndcrc16 (p ++ d2 ++ q) n c) /\
  ((length d1 <= 4)%nat -> forall c, 0 <= c < 2 ^ 32 -> hndcrc32 (p ++ d1 ++ q) n c <> hndcrc32 (p ++ d2 ++ q) n c).
Proof.
  intros H1 H2 Hq Hl Hne n. assert (n = Z.of_nat (length (p ++ d2 ++ q))) as En by (subst n; rewrite !length_app; lia).
  split_and!; intros Hw c Hc.
  - rewrite !hndcrc8_all by done. intros [= E].
    by apply (burst 1 poly8 _ crc8_ok p d1 d2 q c).
  - rewrite !hndcrc16_all by done. intros [= E].
    by apply (burst 2 poly16 _ crc16_ok p d1 d2 q c).
  - rewrite !hndcrc32_all by done. intros [= E].
    by apply (burst 4 poly32 _ crc32_ok p d1 d2 q c).
Qed.

Lemma crc_detects_bursts_witness :
  hndcrc32 ([1; 2] ++ [3; 4; 5; 6] ++ [7]) 7 CRC32_INIT_VALUE <> hndcrc32 ([1; 2] ++ [0; 0; 0; 0] ++ [7]) 7 CRC32_INIT_VALUE.
Proof.
  apply (crc_detects_bursts [1; 2] [3; 4; 5; 6] [0; 0; 0; 0] [7]); [repeat constructor; lia..|done|done|cbn; lia|split; [discriminate|reflexivity]].
Defined.
