(* ===== verification/Bcmutils.v ===== *)
(** * Utilities of the wireless driver

    The string, buffer and packet utilities of [bcmutils.c] that do not print:
    number and address parsing, tokens, comparison, tagged parameters, long
    counters, power units, the preparation of NVRAM files and copies from and to
    chains of packets.

    A string is the list of its bytes before the NUL, a pointer into it the
    suffix it points to, as in [Vsprintf]; a memory object is the list of its
    bytes, and [None] is an access outside of it. [ulong] has 32 bits and [char]
    is unsigned. *)

From stdpp Require Import prelude list strings.
From Stdlib Require Import ZArith Lia Sorted.
From S2P Require Import Prelude Vsprintf.

Open Scope Z_scope.
Open Scope list_scope.

(** ** Characters *)

Definition _BCM_U : Z := 0x01.
Definition _BCM_L : Z := 0x02.
Definition _BCM_D : Z := 0x04.
Definition _BCM_P : Z := 0x10.
Definition _BCM_S : Z := 0x20.
Definition _BCM_X : Z := 0x40.
Definition _BCM_SP : Z := 0x80.

Definition bcm_ctype : list Z := [
    8; 8; 8; 8; 8; 8; 8; 8; 8; 40; 40; 40; 40; 40; 8; 8;
    8; 8; 8; 8; 8; 8; 8; 8; 8; 8; 8; 8; 8; 8; 8; 8;
    160; 16; 16; 16; 16; 16; 16; 16; 16; 16; 16; 16; 16; 16; 16; 16;
    4; 4; 4; 4; 4; 4; 4; 4; 4; 4; 16; 16; 16; 16; 16; 16;
    16; 65; 65; 65; 65; 65; 65; 1; 1; 1; 1; 1; 1; 1; 1; 1;
    1; 1; 1; 1; 1; 1; 1; 1; 1; 1; 1; 16; 16; 16; 16; 16;
    16; 66; 66; 66; 66; 66; 66; 2; 2; 2; 2; 2; 2; 2; 2; 2;
    2; 2; 2; 2; 2; 2; 2; 2; 2; 2; 2; 16; 16; 16; 16; 8;
    0; 0; 0; 0; 0; 0; 0; 0; 0; 0; 0; 0; 0; 0; 0; 0;
    0; 0; 0; 0; 0; 0; 0; 0; 0; 0; 0; 0; 0; 0; 0; 0;
    160; 16; 16; 16; 16; 16; 16; 16; 16; 16; 16; 16; 16; 16; 16; 16;
    16; 16; 16; 16; 16; 16; 16; 16; 16; 16; 16; 16; 16; 16; 16; 16;
    1; 1; 1; 1; 1; 1; 1; 1; 1; 1; 1; 1; 1; 1; 1; 1;
    1; 1; 1; 1; 1; 1; 1; 16; 1; 1; 1; 1; 1; 1; 1; 2;
    2; 2; 2; 2; 2; 2; 2; 2; 2; 2; 2; 2; 2; 2; 2; 2;
    2; 2; 2; 2; 2; 2; 2; 16; 2; 2; 2; 2; 2; 2; 2; 2].

Definition bcm_ismask (x : Z) : Z := default 0 (zget bcm_ctype (u8 x)).
Definition bcm_isdigit (c : Z) : bool := ctrue (Z.land (bcm_ismask c) _BCM_D).
Definition bcm_isxdigit (c : Z) : bool := ctrue (Z.land (bcm_ismask c) (Z.lor _BCM_D _BCM_X)).
Definition bcm_isspace (c : Z) : bool := ctrue (Z.land (bcm_ismask c) _BCM_S).
Definition bcm_islower (c : Z) : bool := ctrue (Z.land (bcm_ismask c) _BCM_L).
Definition bcm_toupper (c : Z) : Z := if bcm_islower c then c + 65 - 97 else c.

(** ** Numbers and addresses *)

Fixpoint strtoul_spaces (cp : list Z) : list Z :=
  match cp with
  | [] => []
  | c :: cp' => if bcm_isspace c then strtoul_spaces cp' else cp
  end.

(** The loop over the digits; [None] when the test for an overflow hits. *)
Fixpoint strtoul_digits (base result last_result : Z) (minus : bool) (cp : list Z) : option (Z * list Z) :=
  match cp with
  | [] => Some (result, [])
  | c :: cp' =>
      let value := u32 (if bcm_isdigit c then c - 48 else bcm_toupper c - 65 + 10) in
      if bcm_isxdigit c && (value <? base) then
        let result := u32 (result * base + value) in
        if (result <? last_result) && negb minus then None else strtoul_digits base result result minus cp'
      else Some (result, cp)
  end.

Definition strtoul_base (base : Z) (cp : list Z) : Z * list Z :=
  let hex := (ch_at cp 1 =? 120) || (ch_at cp 1 =? 88) in
  if base =? 0 then
    if ch cp =? 48 then if hex then (16, drop 2 cp) else (8, drop 1 cp) else (10, cp)
  else if (base =? 16) && (ch cp =? 48) && hex then (base, drop 2 cp)
  else (base, cp).

(** The result, and [*endp] unless it is left alone. *)
Definition bcm_strtoul (cp : list Z) (base : Z) : Z * option (list Z) :=
  let cp := strtoul_spaces cp in
  let minus := ch cp =? 45 in
  let cp := if (ch cp =? 43) || minus then drop 1 cp else cp in
  let '(base, cp) := strtoul_base base cp in
  match strtoul_digits base 0 0 minus cp with
  | None => (u32 (-1), None)
  | Some (result, cp) => (if minus then u32 (- s32 result) else result, Some cp)
  end.

Definition bcm_atoi (s : list Z) : Z := s32 (fst (bcm_strtoul s 10)).

(** The octets stored, for [n] that are left. *)
Fixpoint atoe_loop (n : nat) (p : list Z) : list Z :=
  match n with
  | O => []
  | S n' =>
      let '(v, endp) := bcm_strtoul p 16 in
      let p := default p endp in
      u8 v :: if ch p =? 0 then [] else atoe_loop n' (drop 1 p)
  end.

(** The result and the address. *)
Definition bcm_ether_atoe (p : list Z) (ea : list Z) : bool * list Z :=
  let octets := atoe_loop 6 p in
  ((length octets =? 6)%nat, octets ++ drop (length octets) ea).

(** ** Strings *)

(** [i] runs over [n] positions. *)
Fixpoint strstr_loop (n : nat) (needle haystack : list Z) : option (list Z) :=
  match n with
  | O => None
  | S n' => if bool_decide (take (length needle) haystack = needle) then Some haystack else strstr_loop n' needle (drop 1 haystack)
  end.

Definition bcmstrstr (haystack needle : list Z) : option (list Z) :=
  strstr_loop (Z.to_nat (Z.of_nat (length haystack) - Z.of_nat (length needle) + 1)) needle haystack.

Definition xToLower (c : Z) : Z := if (65 <=? c) && (c <=? 90) then c - 65 + 97 else c.

Fixpoint bcmstricmp (s1 s2 : list Z) : Z :=
  match s1, s2 with
  | c1 :: s1', c2 :: s2' =>
      let dc := xToLower c1 in let sc := xToLower c2 in
      if dc <? sc then -1 else if sc <? dc then 1 else bcmstricmp s1' s2'
  | _ :: _, [] => 1
  | [], _ :: _ => -1
  | [], [] => 0
  end.

(** [cnt] counts down to 0. *)
Fixpoint bcmstrnicmp (s1 s2 : list Z) (cnt : nat) : Z :=
  match cnt, s1, s2 with
  | O, _, _ => 0
  | S cnt', c1 :: s1', c2 :: s2' =>
      let dc := xToLower c1 in let sc := xToLower c2 in
      if dc <? sc then -1 else if sc <? dc then 1 else bcmstrnicmp s1' s2' cnt'
  | S _, _ :: _, [] => 1
  | S _, [], _ :: _ => -1
  | S _, [], [] => 0
  end.

(** The set of the delimiters as [map], eight words of 32 bits; the NUL at the
    end of the string is one of them. *)
Definition tok_add (map : list Z) (c : Z) : option (list Z) :=
  x ← zget map (Z.shiftr c 5); zset map (Z.shiftr c 5) (Z.lor x (u32 (Z.shiftl 1 (Z.land c 31)))).
Fixpoint tok_map (delimiters : list Z) (map : list Z) : option (list Z) :=
  match delimiters with
  | [] => tok_add map 0
  | c :: delimiters' => map ← tok_add map c; tok_map delimiters' map
  end.
Definition tok_in (map : list Z) (c : Z) : option bool :=
  x ← zget map (Z.shiftr c 5); Some (ctrue (Z.land x (u32 (Z.shiftl 1 (Z.land c 31))))).

Fixpoint tok_skip (map : list Z) (str : list Z) : option (list Z) :=
  match str with
  | [] => Some []
  | c :: str' => d ← tok_in map c; if d || (c =? 32) then tok_skip map str' else Some str
  end.

(** The token, [*tokdelim] and what follows. *)
Fixpoint tok_end (map : list Z) (str : list Z) : option (list Z * Z * list Z) :=
  match str with
  | [] => Some ([], 0, [])
  | c :: str' =>
      d ← tok_in map c;
      if (d : bool) then Some ([], c, str')
      else '(tok, delim, rest) ← tok_end map str'; Some (c :: tok, delim, rest)
  end.

(** The token if there is one, [*tokdelim] and [*string]. *)
Definition bcmstrtok (string delimiters : list Z) : option (option (list Z) * Z * list Z) :=
  map ← tok_map delimiters (replicate 8 0);
  str ← tok_skip map string;
  '(tok, delim, rest) ← tok_end map str;
  Some (if bool_decide (length rest = length str) then None else Some tok, delim, rest).

(** ** Tagged parameters

    [elt] is the offset of an element in the memory object [buf]. *)

Definition bcm_valid_tlv (buf : list Z) (elt buflen : Z) : option bool :=
  if 2 <=? buflen then len ← zget buf (elt + 1); Some (2 + len <=? buflen) else Some false.

(** The next element and [*buflen]. *)
Definition bcm_next_tlv (buf : list Z) (elt buflen : Z) : option (option Z * Z) :=
  v ← bcm_valid_tlv buf elt buflen;
  if negb v then Some (None, buflen)
  else
    len ← zget buf (elt + 1);
    let elt := elt + 2 + len in
    let buflen := buflen - (2 + len) in
    v ← bcm_valid_tlv buf elt buflen;
    Some (if (v : bool) then Some elt else None, buflen).

Fixpoint parse_tlvs_loop (fuel : nat) (buf : list Z) (elt totlen key : Z) : option (option Z) :=
  match fuel with
  | O => None
  | S fuel' =>
      if 2 <=? totlen then
        len ← zget buf (elt + 1);
        id ← zget buf elt;
        if (id =? key) && (len + 2 <=? totlen) then Some (Some elt)
        else parse_tlvs_loop fuel' buf (elt + (len + 2)) (totlen - (len + 2)) key
      else Some None
  end.

(** Every element takes at least two bytes. *)
Definition bcm_parse_tlvs (buf : list Z) (buflen key : Z) : option (option Z) :=
  parse_tlvs_loop (S (Z.to_nat buflen)) buf 0 buflen key.

Fixpoint parse_ordered_loop (fuel : nat) (buf : list Z) (elt totlen key : Z) : option (option Z) :=
  match fuel with
  | O => None
  | S fuel' =>
      if 2 <=? totlen then
        id ← zget buf elt;
        len ← zget buf (elt + 1);
        if key <? id then Some None
        else if (id =? key) && (len + 2 <=? totlen) then Some (Some elt)
        else parse_ordered_loop fuel' buf (elt + (len + 2)) (totlen - (len + 2)) key
      else Some None
  end.

Definition bcm_parse_ordered_tlvs (buf : list Z) (buflen key : Z) : option (option Z) :=
  parse_ordered_loop (S (Z.to_nat buflen)) buf 0 buflen key.

(** ** Counters *)

Fixpoint inc_bytes_loop (n : nat) (num : list Z) (amount : Z) : option (list Z) :=
  match n with
  | O => Some num
  | S n' =>
      match num with
      | [] => None
      | b :: num' =>
          let b := u8 (b + amount) in
          if amount <=? b then Some (b :: num') else num' ← inc_bytes_loop n' num' 1; Some (b :: num')
      end
  end.
Definition bcm_inc_bytes (num : list Z) (num_bytes amount : Z) : option (list Z) := inc_bytes_loop (Z.to_nat num_bytes) num amount.

(** [i] counts down from [nbytes - 1]. *)
Fixpoint cmp_bytes_loop (i : nat) (arg1 arg2 : list Z) : option Z :=
  match i with
  | O => Some 0
  | S i' =>
      a ← arg1 !! i'; b ← arg2 !! i';
      if a =? b then cmp_bytes_loop i' arg1 arg2 else Some (a - b)
  end.
Definition bcm_cmp_bytes (arg1 arg2 : list Z) (nbytes : Z) : option Z := cmp_bytes_loop (Z.to_nat nbytes) arg1 arg2.

(** [while (tmp)]: a byte has at most eight bits. *)
Fixpoint bits_loop (fuel : nat) (tmp bitcount : Z) : option Z :=
  if tmp =? 0 then Some bitcount
  else match fuel with O => None | S fuel' => bits_loop fuel' (Z.land tmp (u8 (tmp - 1))) (u32 (bitcount + 1)) end.

Fixpoint bitcount_loop (n : nat) (bitmap : list Z) (bitcount : Z) : option Z :=
  match n with
  | O => Some bitcount
  | S n' =>
      match bitmap with
      | [] => None
      | tmp :: bitmap' => bitcount ← bits_loop 8 tmp bitcount; bitcount_loop n' bitmap' bitcount
      end
  end.
Definition bcm_bitcount (bitmap : list Z) (length : Z) : option Z := bitcount_loop (Z.to_nat length) bitmap 0.

(** ** Power units *)

Definition QDBM_OFFSET : Z := 153.
Definition QDBM_TABLE_LEN : Z := 40.
Definition QDBM_TABLE_LOW_BOUND : Z := 6493.

Definition nqdBm_to_mW_map : list Z := [
    6683; 7079; 7499; 7943; 8414; 8913; 9441; 10000;
    10593; 11220; 11885; 12589; 13335; 14125; 14962; 15849;
    16788; 17783; 18836; 19953; 21135; 22387; 23714; 25119;
    26607; 28184; 29854; 31623; 33497; 35481; 37584; 39811;
    42170; 44668; 47315; 50119; 53088; 56234; 59566; 63096].

(** [while (idx < 0)]: from a byte at most four rounds. *)
Fixpoint qdbm_scale (fuel : nat) (idx factor : Z) : option (Z * Z) :=
  if idx <? 0 then match fuel with O => None | S fuel' => qdbm_scale fuel' (idx + 40) (u32 (factor * 10)) end
  else Some (idx, factor).

Definition bcm_qdbm_to_mw (qdbm : Z) : option Z :=
  let idx := qdbm - QDBM_OFFSET in
  if QDBM_TABLE_LEN <=? idx then Some 0xFFFF
  else
    '(idx, factor) ← qdbm_scale 4 idx 1;
    v ← zget nqdBm_to_mW_map idx;
    Some (u16 (u32 (v + factor / 2) / factor)).

Fixpoint mw_scale (fuel : nat) (mw_uint offset : Z) : option (Z * Z) :=
  if mw_uint <? QDBM_TABLE_LOW_BOUND
  then match fuel with O => None | S fuel' => mw_scale fuel' (u32 (mw_uint * 10)) (offset - 40) end
  else Some (mw_uint, offset).

(** [qdbm] runs up to [QDBM_TABLE_LEN - 1]. *)
Fixpoint mw_search (n : nat) (qdbm mw_uint : Z) : option Z :=
  match n with
  | O => Some qdbm
  | S n' =>
      a ← zget nqdBm_to_mW_map qdbm; b ← zget nqdBm_to_mW_map (qdbm + 1);
      if mw_uint <? a + (b - a) ÷ 2 then Some qdbm else mw_search n' (u8 (qdbm + 1)) mw_uint
  end.

Definition bcm_mw_to_qdbm (mw : Z) : option Z :=
  if mw <=? 1 then Some 0
  else
    '(mw_uint, offset) ← mw_scale 4 mw QDBM_OFFSET;
    qdbm ← mw_search 39 0 mw_uint;
    Some (u8 (qdbm + u8 offset)).

(** ** NVRAM files *)

(** The loop over the buffer, which is rewritten in place behind [n]. *)
Record nvram := MkNv { nv_buf : list Z; nv_dp : Z; nv_findNewline : bool; nv_column : Z }.

Definition nvram_put (c : Z) (find : bool) (column : Z) (s : nvram) : option nvram :=
  buf ← zset (nv_buf s) (nv_dp s) c; Some (MkNv buf (nv_dp s + 1) find column).

Definition nvram_step (n : Z) (s : nvram) : option nvram :=
  c ← zget (nv_buf s) n;
  if c =? 13 then Some s
  else if nv_findNewline s && negb (c =? 10) then Some s
  else if c =? 35 then Some (MkNv (nv_buf s) (nv_dp s) true (nv_column s))
  else if c =? 10 then
    if nv_column s =? 0 then Some (MkNv (nv_buf s) (nv_dp s) false (nv_column s)) else nvram_put 0 false 0 s
  else nvram_put c false (s32 (nv_column s + 1)) s.

Fixpoint nvram_loop (count : nat) (n : Z) (s : nvram) : option nvram :=
  match count with O => Some s | S count' => s ← nvram_step n s; nvram_loop count' (n + 1) s end.

Fixpoint nvram_fill (count : nat) (dp : Z) (buf : list Z) : option (list Z) :=
  match count with O => Some buf | S count' => buf ← zset buf dp 0; nvram_fill count' (dp + 1) buf end.

(** The buffer and the length returned. *)
Definition process_nvram_vars (varbuf : list Z) (len : Z) : option (list Z * Z) :=
  s ← nvram_loop (Z.to_nat len) 0 (MkNv varbuf 0 false 0);
  let buf_len := nv_dp s in
  let pad := 4 - buf_len mod 4 in
  let buf_len := if ctrue (buf_len mod 4) && (u32 (buf_len + pad) <=? len) then buf_len + pad else buf_len in
  buf ← nvram_fill (Z.to_nat (len - nv_dp s)) (nv_dp s) (nv_buf s);
  Some (buf, buf_len).

(** ** Chains of packets

    A chain is the list of the data of its packets. *)

Definition pkttotlen (p : list (list Z)) : Z := foldl (fun total d => u32 (total + Z.of_nat (length d))) 0 p.
Definition pktlast (p : list (list Z)) : option (list Z) := last p.
Definition pktsegcnt (p : list (list Z)) : Z := foldl (fun cnt _ => u32 (cnt + 1)) 0 p.

(** Skips [offset] bytes. *)
Fixpoint pkt_skip (p : list (list Z)) (offset : Z) : list (list Z) * Z :=
  match p with
  | [] => ([], offset)
  | d :: p' =>
      if offset =? 0 then (p, offset)
      else if offset <? Z.of_nat (length d) then (p, offset)
      else pkt_skip p' (u32 (offset - Z.of_nat (length d)))
  end.

(** What is copied to [buf]. *)
Fixpoint pktcopy_loop (p : list (list Z)) (offset len : Z) : list Z :=
  match p with
  | [] => []
  | d :: p' =>
      if len =? 0 then []
      else
        let n := Z.min (Z.of_nat (length d) - offset) (u32 len) in
        take (Z.to_nat n) (drop (Z.to_nat offset) d) ++ pktcopy_loop p' 0 (s32 (len - n))
  end.

(** The bytes copied to [buf]; their number is returned. *)
Definition pktcopy (p : list (list Z)) (offset len : Z) : list Z :=
  let len := if len <? 0 then 4096 else len in
  let '(p, offset) := pkt_skip p offset in
  match p with [] => [] | _ => pktcopy_loop p offset len end.

(** The rest of the chain after copying from [buf], and the number of bytes;
    [None] is a read behind [buf]. *)
Fixpoint pktfrombuf_loop (p : list (list Z)) (offset len : Z) (buf : list Z) (ret : Z) : option (list (list Z) * Z) :=
  match p with
  | [] => Some ([], ret)
  | d :: p' =>
      if len =? 0 then Some (p, ret)
      else
        let n := Z.min (Z.of_nat (length d) - offset) (u32 len) in
        if Z.of_nat (length buf) <? n then None
        else
          let d := take (Z.to_nat offset) d ++ take (Z.to_nat n) buf ++ drop (Z.to_nat (offset + n)) d in
          '(p', ret) ← pktfrombuf_loop p' 0 (s32 (len - n)) (drop (Z.to_nat n) buf) (u32 (ret + n));
          Some (d :: p', ret)
  end.

(** The chain and the number of bytes copied. *)
Definition pktfrombuf (p : list (list Z)) (offset len : Z) (buf : list Z) : option (list (list Z) * Z) :=
  let '(p', offset) := pkt_skip p offset in
  match p' with
  | [] => Some (p, 0)
  | _ => '(q, ret) ← pktfrombuf_loop p' offset len buf 0; Some (take (length p - length p') p ++ q, ret)
  end.

(** ** Named variables of the firmware *)

Definition IOVT_VOID : Z := 0.
Definition IOVT_BOOL : Z := 1.
Definition IOVT_UINT32 : Z := 7.
Definition IOVT_BUFFER : Z := 8.
Definition BCME_BUFTOOSHORT : Z := -14.
Definition BCME_BUFTOOLONG : Z := -15.
Definition BCME_UNSUPPORTED : Z := -23.

Record bcm_iovar := MkIovar { iv_name : list Z; iv_varid : Z; iv_flags : Z; iv_type : Z; iv_minlen : Z }.

(** [strrchr(name, ':')], from behind the character. *)
Fixpoint strrchr_behind (c : Z) (name : list Z) : option (list Z) :=
  match name with
  | [] => None
  | x :: name' => match strrchr_behind c name' with Some r => Some r | None => if x =? c then Some name' else None end
  end.

Definition bcm_iovar_lookup (table : list bcm_iovar) (name : list Z) : option bcm_iovar :=
  let lookup_name := default name (strrchr_behind 58 name) in
  List.find (fun vi => bool_decide (iv_name vi = lookup_name)) table.

Definition bcm_iovar_lencheck (vi : bcm_iovar) (len : Z) (set : bool) : Z :=
  let type := iv_type vi in
  if (IOVT_BOOL <=? type) && (type <=? IOVT_UINT32) then if len <? 4 then BCME_BUFTOOSHORT else 0
  else if type =? IOVT_BUFFER then if len <? iv_minlen vi then BCME_BUFTOOSHORT else 0
  else if type =? IOVT_VOID then if negb set then BCME_UNSUPPORTED else if ctrue len then BCME_BUFTOOLONG else 0
  else BCME_UNSUPPORTED.

(** [strncpy(buf, name, n)] into the memory object [buf]: the string padded with
    NULs. *)
Definition strncpy (buf name : list Z) (n : Z) : option (list Z) :=
  if n <=? Z.of_nat (length buf)
  then Some (take (Z.to_nat n) (name ++ replicate (Z.to_nat n) 0) ++ drop (Z.to_nat n) buf)
  else None.

(** [memcpy(&buf[at], data, n)] *)
Definition memcpy_at (buf : list Z) (at_ : Z) (data : list Z) (n : Z) : option (list Z) :=
  if (n <=? Z.of_nat (length data)) && (at_ + n <=? Z.of_nat (length buf))
  then Some (take (Z.to_nat at_) buf ++ take (Z.to_nat n) data ++ drop (Z.to_nat (at_ + n)) buf)
  else None.

(** The length returned and the buffer. *)
Definition bcm_mkiovar (name data : list Z) (datalen : Z) (buf : list Z) (buflen : Z) : option (Z * list Z) :=
  let len := u32 (Z.of_nat (length name) + 1) in
  if buflen <? u32 (len + datalen) then Some (0, buf)
  else
    buf ← strncpy buf name buflen;
    buf ← memcpy_at buf len data datalen;
    Some (u32 (len + datalen), buf).

(** The table has one string less than intended: a comma is missing. *)
Definition crypto_algo_names : list (list Z) :=
  bytes_of <$> ["NONE"; "WEP1"; "TKIP"; "WEP128"; "AES_CCM"; "AES_OCB_MSDU"; "AES_OCB_MPDU"; "NALGUNDEF"; "UNDEF"; "UNDEF"; "UNDEF"]%string.
Definition bcm_crypto_algo_name (algo : Z) : list Z :=
  if algo <? Z.of_nat (length crypto_algo_names) then default [] (zget crypto_algo_names algo) else bytes_of "ERR".

(** ** Priorities *)

Definition ETHER_TYPE_IP : Z := 0x0800.
Definition ETHER_TYPE_8021Q : Z := 0x8100.
Definition VLAN_PRI_SHIFT : Z := 13.
Definition VLAN_PRI_MASK : Z := 7.
Definition IPV4_TOS_PREC_SHIFT : Z := 5.
Definition PKTPRIO_VDSCP : Z := 0x100.
Definition PKTPRIO_VLAN : Z := 0x200.
Definition PKTPRIO_UPD : Z := 0x400.
Definition PKTPRIO_DSCP : Z := 0x800.

(** A 16-bit field of a frame, through [ntoh16] and [hton16]. *)
Definition get16 (pkt : list Z) (i : Z) : option Z := a ← zget pkt i; b ← zget pkt (i + 1); Some (ntohs (le_val [a; b])).
Definition put16 (pkt : list Z) (i v : Z) : option (list Z) :=
  pkt ← zset pkt i (Z.land (ntohs v) 0xff); zset pkt (i + 1) (Z.land (Z.shiftr (ntohs v) 8) 0xff).

Definition IP_TOS46 (pkt : list Z) (ip_body : Z) : option Z :=
  b0 ← zget pkt ip_body;
  let ver := Z.shiftr (Z.land b0 0xf0) 4 in
  if ver =? 4 then zget pkt (ip_body + 1)
  else if ver =? 6 then b1 ← zget pkt (ip_body + 1); Some (Z.lor (Z.shiftl (Z.land b0 0x0f) 4) (Z.shiftr (Z.land b1 0xf0) 4))
  else Some 0.

(** The result, the priority and the frame. *)
Definition pktsetprio (pkt : list Z) (update_vtag : bool) : option (Z * Z * list Z) :=
  type ← get16 pkt 12;
  if type =? ETHER_TYPE_8021Q then
    vlan_tag ← get16 pkt 14;
    let vlan_prio := Z.land (Z.shiftr vlan_tag VLAN_PRI_SHIFT) VLAN_PRI_MASK in
    inner ← get16 pkt 16;
    dscp_prio ← (if inner =? ETHER_TYPE_IP then tos_tc ← IP_TOS46 pkt 18; Some (Z.shiftr tos_tc IPV4_TOS_PREC_SHIFT) else Some 0);
    let '(priority, rc) := if ctrue dscp_prio then (dscp_prio, PKTPRIO_VDSCP) else (vlan_prio, PKTPRIO_VLAN) in
    '(pkt, rc) ←
      (if update_vtag && negb (priority =? vlan_prio) then
         let tag := Z.ldiff vlan_tag (Z.shiftl VLAN_PRI_MASK VLAN_PRI_SHIFT) in
         let tag := u16 (Z.lor tag (Z.shiftl priority VLAN_PRI_SHIFT)) in
         pkt ← put16 pkt 14 tag; Some (pkt, Z.lor rc PKTPRIO_UPD)
       else Some (pkt, rc));
    Some (Z.lor rc priority, priority, pkt)
  else if type =? ETHER_TYPE_IP then
    tos_tc ← IP_TOS46 pkt 14;
    let priority := Z.shiftr tos_tc IPV4_TOS_PREC_SHIFT in
    Some (Z.lor PKTPRIO_DSCP priority, priority, pkt)
  else Some (0, 0, pkt).

(** ** Tagged parameters: correctness *)

(** An element of an identifier and up to 255 bytes, and its encoding. *)
Definition element : Type := Z * list Z.
Definition element_ok (e : element) : Prop := (length (snd e) < 256)%nat.
Definition encode (e : element) : list Z := fst e :: Z.of_nat (length (snd e)) :: snd e.
Definition encode_all (els : list element) : list Z := concat (encode <$> els).

(** The rest of a buffer that is too short for its first element. *)
Definition truncated (l : list Z) : Prop :=
  match l with _ :: len :: data => Z.of_nat (length data) < len | _ => True end.

(** Every buffer is a sequence of elements and such a rest. *)
Lemma elements_of buf : Forall byte_range buf ->
  exists els rest, buf = encode_all els ++ rest /\ Forall element_ok els /\ truncated rest.
Proof.
  remember (length buf) as n eqn:Hn. assert (length buf <= n)%nat as Hle by lia. clear Hn. revert buf Hle.
  induction n as [|n IH]; intros buf Hle Hb.
  - exists [], buf. destruct buf; [done|cbn in Hle; lia].
  - destruct buf as [|id [|len data]]; [by exists [], []|by exists [], [id]|].
    apply Forall_cons in Hb as [_ [Hlen Hb]%Forall_cons]. unfold byte_range in Hlen.
    destruct (Z.ltb_spec (Z.of_nat (length data)) len) as [Hlt|Hge]; [by exists [], (id :: len :: data)|].
    destruct (IH (drop (Z.to_nat len) data)) as (els & rest & E & Hels & Ht); [rewrite length_drop; cbn in Hle; lia|by apply Forall_drop|].
    exists ((id, take (Z.to_nat len) data) :: els), rest. split_and!; [|constructor; [unfold element_ok; cbn; rewrite length_take; lia|done]|done].
    unfold encode_all. cbn [fmap list_fmap concat encode fst snd app]. rewrite length_take, <- app_assoc. fold (encode_all els). rewrite <- E, take_drop.
    do 2 f_equal. lia.
Qed.

(** The offset of the first element with the identifier [key]. *)
Fixpoint find_element (key : Z) (els : list element) (off : Z) : option Z :=
  match els with
  | [] => None
  | e :: els' => if fst e =? key then Some off else find_element key els' (off + Z.of_nat (length (encode e)))
  end.

Lemma zget_app {A} (pre : list A) x post : zget (pre ++ x :: post) (Z.of_nat (length pre)) = Some x.
Proof. unfold zget. rewrite (proj2 (Z.leb_le 0 _)), Nat2Z.id by lia. apply list_lookup_middle. done. Qed.
Lemma zget_app_next {A} (pre : list A) x y post : zget (pre ++ x :: y :: post) (Z.of_nat (length pre) + 1) = Some y.
Proof.
  replace (Z.of_nat (length pre) + 1) with (Z.of_nat (length (pre ++ [x]))) by (rewrite length_app; cbn; lia).
  replace (pre ++ x :: y :: post) with ((pre ++ [x]) ++ y :: post) by (by rewrite <- app_assoc). apply zget_app.
Qed.

Lemma truncated_parse pre rest key fuel :
  truncated rest -> (2 <= fuel)%nat ->
  parse_tlvs_loop fuel (pre ++ rest) (Z.of_nat (length pre)) (Z.of_nat (length rest)) key = Some None.
Proof.
  intros Ht Hf. destruct fuel as [|[|fuel]]; [lia..|]. cbn [parse_tlvs_loop]. destruct rest as [|id [|len data]]; [done|done|].
  rewrite (proj2 (Z.leb_le 2 _)) by (cbn [length]; lia). rewrite zget_app_next, zget_app. cbn [mbind option_bind].
  rewrite (proj2 (Z.leb_gt (len + 2) _)) by (cbn [truncated length] in *; lia). rewrite andb_false_r.
  by rewrite (proj2 (Z.leb_gt 2 _)) by (cbn [truncated length] in *; lia).
Qed.

(** The state of the loops behind an element. *)
Lemma skip_element {A} (f : list Z -> Z -> Z -> A) pre id (data post : list Z) :
  f (pre ++ id :: Z.of_nat (length data) :: data ++ post) (Z.of_nat (length pre) + (Z.of_nat (length data) + 2))
    (Z.of_nat (length (id :: Z.of_nat (length data) :: data ++ post)) - (Z.of_nat (length data) + 2)) =
  f ((pre ++ encode (id, data)) ++ post) (Z.of_nat (length (pre ++ encode (id, data)))) (Z.of_nat (length post)).
Proof. rewrite <- app_assoc. cbn [encode fst snd app length]. rewrite !length_app. cbn [encode fst snd length]. f_equal; lia. Qed.

Lemma parse_elements pre els rest key fuel :
  Forall element_ok els -> truncated rest -> (length els + 2 <= fuel)%nat ->
  parse_tlvs_loop fuel (pre ++ encode_all els ++ rest) (Z.of_nat (length pre)) (Z.of_nat (length (encode_all els ++ rest))) key =
    Some (find_element key els (Z.of_nat (length pre))).
Proof.
  intros H Ht. revert pre fuel. induction H as [|[id data] els He _ IH]; intros pre fuel Hf; [by apply truncated_parse|].
  destruct fuel as [|fuel]; [cbn in Hf; lia|]. cbn [parse_tlvs_loop find_element fst]. unfold encode_all. cbn [fmap list_fmap concat]. fold (encode_all els).
  rewrite <- app_assoc. unfold encode at 1 2 3 4 5 6. cbn [fst snd app].
  rewrite (proj2 (Z.leb_le 2 _)) by (cbn [length]; lia). rewrite zget_app_next, zget_app. cbn [mbind option_bind].
  rewrite (proj2 (Z.leb_le (_ + 2) _)) by (cbn [length]; rewrite !length_app; lia). rewrite andb_true_r. destruct (id =? key); [done|].
  rewrite (skip_element (fun b e n => parse_tlvs_loop fuel b e n key)), IH by (cbn in Hf; lia). by rewrite length_app, Nat2Z.inj_add.
Qed.

(** Elements in ascending order of their identifiers. *)
Definition ascending (els : list element) : Prop := StronglySorted (fun a b => fst a <= fst b) els.

Lemma find_above key els off : Forall (fun e => key < fst e) els -> find_element key els off = None.
Proof. intros H. revert off. induction H as [|e els He _ IH]; intros off; [done|]. cbn. rewrite (proj2 (Z.eqb_neq _ _)) by lia. apply IH. Qed.

Lemma truncated_ordered pre rest key fuel :
  truncated rest -> (2 <= fuel)%nat ->
  parse_ordered_loop fuel (pre ++ rest) (Z.of_nat (length pre)) (Z.of_nat (length rest)) key = Some None.
Proof.
  intros Ht Hf. destruct fuel as [|[|fuel]]; [lia..|]. cbn [parse_ordered_loop]. destruct rest as [|id [|len data]]; [done|done|].
  rewrite (proj2 (Z.leb_le 2 _)) by (cbn [length]; lia). rewrite zget_app_next, zget_app. cbn [mbind option_bind].
  destruct (key <? id); [done|]. rewrite (proj2 (Z.leb_gt (len + 2) _)) by (cbn [truncated length] in *; lia). rewrite andb_false_r.
  by rewrite (proj2 (Z.leb_gt 2 _)) by (cbn [truncated length] in *; lia).
Qed.

Lemma ordered_elements pre els rest key fuel :
  Forall element_ok els -> ascending els -> truncated rest -> (length els + 2 <= fuel)%nat ->
  parse_ordered_loop fuel (pre ++ encode_all els ++ rest) (Z.of_nat (length pre)) (Z.of_nat (length (encode_all els ++ rest))) key =
    Some (find_element key els (Z.of_nat (length pre))).
Proof.
  intros H Hs Ht. revert pre fuel Hs. induction H as [|[id data] els He _ IH]; intros pre fuel Hs Hf; [by apply truncated_ordered|].
  apply StronglySorted_inv in Hs as [Hs Ha]. cbn [fst] in Ha.
  destruct fuel as [|fuel]; [cbn in Hf; lia|]. cbn [parse_ordered_loop find_element fst]. unfold encode_all. cbn [fmap list_fmap concat]. fold (encode_all els).
  rewrite <- app_assoc. unfold encode at 1 2 3 4 5 6. cbn [fst snd app].
  rewrite (proj2 (Z.leb_le 2 _)) by (cbn [length]; lia). rewrite zget_app_next, zget_app. cbn [mbind option_bind].
  destruct (Z.ltb_spec key id) as [Hlt|Hge].
  { rewrite (proj2 (Z.eqb_neq id key)), find_above by (lia || (eapply Forall_impl; [exact Ha|]; cbn; lia)). done. }
  rewrite (proj2 (Z.leb_le (_ + 2) _)) by (cbn [length]; rewrite !length_app; lia). rewrite andb_true_r. destruct (id =? key); [done|].
  rewrite (skip_element (fun b e n => parse_ordered_loop fuel b e n key)), IH by (done || (cbn in Hf; lia)). by rewrite length_app, Nat2Z.inj_add.
Qed.

Lemma encode_all_length els rest : (2 * length els <= length (encode_all els ++ rest))%nat.
Proof. rewrite length_app. unfold encode_all. induction els as [|e els IH]; [cbn; lia|]. cbn [fmap list_fmap concat]. rewrite length_app. cbn [encode length] in *. lia. Qed.

(** C25: Whatever bytes a frame holds, [bcm_parse_tlvs] reads inside the buffer,
    ends, and returns the first element with the identifier that lies in the
    buffer completely, or nothing if there is none; where the identifiers ascend,
    [bcm_parse_ordered_tlvs] returns the same. *)
Theorem parse_tlvs_correct buf key :
  Forall byte_range buf ->
  exists els rest, buf = encode_all els ++ rest /\ Forall element_ok els /\ truncated rest /\
    bcm_parse_tlvs buf (Z.of_nat (length buf)) key = Some (find_element key els 0) /\
    (ascending els -> bcm_parse_ordered_tlvs buf (Z.of_nat (length buf)) key = Some (find_element key els 0)).
Proof.
  intros Hb. destruct (elements_of buf Hb) as (els & rest & -> & Hels & Ht). exists els, rest. pose proof (encode_all_length els rest) as Hl.
  destruct els as [|e els].
  - split_and!; try done; [|intros _].
    + destruct rest as [|id [|len data]]; [done|done|]. apply (truncated_parse []); [done|cbn; lia].
    + destruct rest as [|id [|len data]]; [done|done|]. apply (truncated_ordered []); [done|cbn; lia].
  - split_and!; try done; [|intros Ha].
    + apply (parse_elements []); try done. rewrite Nat2Z.id. cbn [length] in *. lia.
    + apply (ordered_elements []); try done. rewrite Nat2Z.id. cbn [length] in *. lia.
Qed.

Lemma parse_tlvs_correct_witness :
  exists els rest, [0; 2; 97; 98; 1; 1; 130; 5; 4; 0] = encode_all els ++ rest /\ Forall element_ok els /\ truncated rest /\
    bcm_parse_tlvs [0; 2; 97; 98; 1; 1; 130; 5; 4; 0] 10 1 = Some (find_element 1 els 0) /\
    (ascending els -> bcm_parse_ordered_tlvs [0; 2; 97; 98; 1; 1; 130; 5; 4; 0] 10 1 = Some (find_element 1 els 0)).
Proof. apply (parse_tlvs_correct [0; 2; 97; 98; 1; 1; 130; 5; 4; 0] 1). repeat constructor; lia. Defined.

(** ** Counters: correctness *)

Lemma inc_bytes_add n num amount :
  Forall byte_range num -> byte_range amount -> (n <= length num)%nat ->
  exists num', inc_bytes_loop n num amount = Some num' /\ Forall byte_range num' /\ drop n num' = drop n num /\
    le_val (take n num') = (le_val (take n num) + amount) mod 256 ^ Z.of_nat n.
Proof.
  intros Hb. revert n amount. induction Hb as [|b num Hb Hn IH]; intros [|n] amount Ha Hl; cbn [length] in Hl; try lia; cbn [inc_bytes_loop].
  - exists []. by rewrite Z.mod_1_r.
  - exists (b :: num). split_and!; try done; [by constructor|]. by rewrite Z.mod_1_r.
  - unfold byte_range in Ha, Hb. set (M := 256 ^ Z.of_nat n). assert (0 < M) by (apply Z.pow_pos_nonneg; lia).
    assert (0 <= le_val (take n num) < M) as Hr.
    { pose proof (le_val_range (take n num) ltac:(by apply Forall_take)) as Hr. rewrite length_take, Nat.min_l in Hr by lia. exact Hr. }
    rewrite Nat2Z.inj_succ, Z.pow_succ_r by lia. fold M. assert (u8 (b + amount) = (b + amount) mod 256) as E by done.
    destruct (Z.leb_spec amount (u8 (b + amount))) as [Hle|Hgt].
    + assert (u8 (b + amount) = b + amount) as Ei by (rewrite E in *; dlia). rewrite Ei. eexists. split; [done|].
      split_and!; [constructor; [unfold byte_range; pose proof (u8_range (b + amount)); lia|done]|done|]. cbn [firstn le_val]. pose proof (u8_range (b + amount)). rewrite Z.mod_small; lia.
    + assert (u8 (b + amount) = b + amount - 256) as Ei by (rewrite E in *; dlia). rewrite Ei.
      destruct (IH n 1) as (num' & -> & Hb' & Hd & Hv); [unfold byte_range; lia|lia|]. cbn [mbind option_bind]. eexists. split; [done|].
      split_and!; [constructor; [unfold byte_range; pose proof (u8_range (b + amount)); lia|done]|done|]. cbn [firstn le_val]. rewrite Hv. fold M.
      set (x := le_val (take n num)) in *. apply (Z.mod_unique_pos _ _ ((x + 1) / M)).
      * pose proof (Z.mod_pos_bound (x + 1) M). pose proof (u8_range (b + amount)). lia.
      * pose proof (Z.div_mod (x + 1) M). lia.
Qed.

Lemma take_last {A} (l : list A) i x : l !! i = Some x -> take (S i) l = take i l ++ [x].
Proof. intros H. by rewrite (take_S_r _ _ _ H). Qed.

Lemma cmp_bytes_compare n l1 l2 :
  Forall byte_range l1 -> Forall byte_range l2 -> (n <= length l1)%nat -> (n <= length l2)%nat ->
  exists r, cmp_bytes_loop n l1 l2 = Some r /\ (r ?= 0) = (le_val (take n l1) ?= le_val (take n l2)).
Proof.
  intros H1 H2. induction n as [|n IH]; intros Hl1 Hl2; [by exists 0|]. cbn [cmp_bytes_loop].
  destruct (lookup_lt_is_Some_2 l1 n) as [a Ha]; [lia|]. destruct (lookup_lt_is_Some_2 l2 n) as [b Hb]; [lia|].
  rewrite Ha, Hb. cbn [mbind option_bind]. rewrite (take_last _ _ _ Ha), (take_last _ _ _ Hb), !le_val_app. cbn [le_val].
  rewrite !length_take, !Nat.min_l by lia. set (M := 256 ^ Z.of_nat n).
  assert (forall l, Forall byte_range l -> (n <= length l)%nat -> 0 <= le_val (take n l) < M) as Hr.
  { intros l Hl Hn. pose proof (le_val_range (take n l) ltac:(by apply Forall_take)) as Hr. rewrite length_take, Nat.min_l in Hr by lia. exact Hr. }
  pose proof (Hr l1 H1 ltac:(lia)). pose proof (Hr l2 H2 ltac:(lia)). destruct (Z.eqb_spec a b) as [->|Hne].
  - destruct IH as (r & -> & E); [lia..|]. exists r. split; [done|]. rewrite E. by rewrite !(Z.add_comm _ (M * _)), Z.add_compare_mono_l.
  - eexists. split; [done|]. destruct (Z.lt_total a b) as [Hlt|[?|Hgt]]; [|done|].
    + rewrite (proj2 (Z.compare_lt_iff (a - b) 0)) by lia. symmetry. apply Z.compare_lt_iff. nia.
    + rewrite (proj2 (Z.compare_gt_iff (a - b) 0)) by lia. symmetry. apply Z.compare_gt_iff. nia.
Qed.

(** On the first bytes of their arguments, the lowest first,
    [bcm_inc_bytes] adds modulo the size of the counter and changes nothing
    behind them, and the sign of [bcm_cmp_bytes] orders the numbers. *)
Theorem counters_arithmetic num1 num2 n amount :
  Forall byte_range num1 -> Forall byte_range num2 -> byte_range amount ->
  0 <= n <= Z.of_nat (length num1) -> 0 <= n <= Z.of_nat (length num2) ->
  (exists num', bcm_inc_bytes num1 n amount = Some num' /\ Forall byte_range num' /\ drop (Z.to_nat n) num' = drop (Z.to_nat n) num1 /\
     le_val (take (Z.to_nat n) num') = (le_val (take (Z.to_nat n) num1) + amount) mod 256 ^ n) /\
  (exists r, bcm_cmp_bytes num1 num2 n = Some r /\ (r ?= 0) = (le_val (take (Z.to_nat n) num1) ?= le_val (take (Z.to_nat n) num2))).
Proof.
  intros H1 H2 Ha Hn1 Hn2. split.
  - destruct (inc_bytes_add (Z.to_nat n) num1 amount) as (num' & E & ? & ? & Hv); try done; [lia|]. rewrite Z2Nat.id in Hv by lia. by exists num'.
  - apply cmp_bytes_compare; (done || lia).
Qed.

Lemma counters_arithmetic_witness :
  (exists num', bcm_inc_bytes [250; 255; 3; 9] 3 10 = Some num' /\ Forall byte_range num' /\ drop 3 num' = [9] /\
     le_val (take 3 num') = (250 + 256 * 255 + 65536 * 3 + 10) mod 256 ^ 3) /\
  (exists r, bcm_cmp_bytes [250; 255; 3; 9] [251; 254; 3; 0] 3 = Some r /\ (r ?= 0) = (262138 ?= 261883)).
Proof.
  apply (counters_arithmetic [250; 255; 3; 9] [251; 254; 3; 0] 3 10); try (repeat constructor; unfold byte_range; lia); unfold byte_range; cbn; lia.
Defined.

(** ** Power units: correctness *)

Lemma qdbm_roundtrip :
  forallb (fun q => match bcm_qdbm_to_mw q with Some m => match bcm_mw_to_qdbm m with Some q' => q' =? q | None => false end | None => false end) (seqZ 45 148)
    = true.
Proof. vm_compute. reflexivity. Qed.

(** From 45 to 192 quarter dBm, the units convert to milliwatts and back. *)
Theorem power_roundtrip q : 45 <= q <= 192 -> exists mw, bcm_qdbm_to_mw q = Some mw /\ bcm_mw_to_qdbm mw = Some q.
Proof.
  intros Hq. pose proof qdbm_roundtrip as H. rewrite forallb_forall in H. specialize (H q).
  destruct (bcm_qdbm_to_mw q) as [mw|]; [|by discriminate H; apply list_elem_of_In, elem_of_seqZ; lia].
  exists mw. split; [done|]. destruct (bcm_mw_to_qdbm mw) as [q'|]; [|by discriminate H; apply list_elem_of_In, elem_of_seqZ; lia].
  f_equal. apply Z.eqb_eq, H, list_elem_of_In, elem_of_seqZ. lia.
Qed.

Lemma power_roundtrip_witness : exists mw, bcm_qdbm_to_mw 80 = Some mw /\ bcm_mw_to_qdbm mw = Some 80.
Proof. apply (power_roundtrip 80). lia. Defined.

(** ** NVRAM files: correctness *)

(** The lines of a text and what follows the last newline. *)
Fixpoint lines (l : list Z) : list (list Z) * list Z :=
  match l with
  | [] => ([], [])
  | c :: l' =>
      let '(ls, last) := lines l' in
      if c =? 10 then ([] :: ls, last)
      else match ls with [] => ([], c :: last) | x :: ls' => ((c :: x) :: ls', last) end
  end.

(** A line without carriage returns and up to a number sign. *)
Fixpoint variable (line : list Z) : list Z :=
  match line with
  | [] => []
  | c :: line' => if c =? 13 then variable line' else if c =? 35 then [] else c :: variable line'
  end.

Definition terminated (v : list Z) : list Z := match v with [] => [] | _ => v ++ [0] end.

(** The variables of a text, each followed by a NUL. *)
Definition nvram_text (l : list Z) : list Z :=
  let '(ls, last) := lines l in concat ((fun line => terminated (variable line)) <$> ls) ++ variable last.

(** What the loop writes, after a number sign or not and with a line begun or
    not. *)
Fixpoint clean (find begun : bool) (l : list Z) : list Z :=
  match l with
  | [] => []
  | c :: l' =>
      if c =? 13 then clean find begun l'
      else if find && negb (c =? 10) then clean find begun l'
      else if c =? 35 then clean true begun l'
      else if c =? 10 then if begun then 0 :: clean false false l' else clean false false l'
      else c :: clean false true l'
  end.

Lemma clean_lines l : forall find begun,
  clean find begun l =
    let v x := if find then [] else variable x in
    match lines l with
    | ([], last) => v last
    | (x :: ls, last) => v x ++ (if begun || negb (bool_decide (v x = [])) then [0] else []) ++
        concat ((fun line => terminated (variable line)) <$> ls) ++ variable last
    end.
Proof.
  induction l as [|c l IH]; intros find begun; [by destruct find|]. cbn [clean lines]. destruct (lines l) as [ls last] eqn:El.
  cbv zeta beta in *. rewrite !IH. destruct (Z.eqb_spec c 10) as [->|H10].
  - cbn [Z.eqb Pos.eqb negb andb variable]. rewrite andb_false_r. destruct ls as [|x ls], find, begun; try done;
      cbn [fmap list_fmap concat orb negb app]; try rewrite bool_decide_true by done; unfold terminated; destruct (variable x); cbn; by rewrite <- ?app_assoc.
  - rewrite andb_true_r. destruct (Z.eqb_spec c 13) as [E13|H13], (Z.eqb_spec c 35) as [E35|H35];
      destruct ls as [|x ls], find, begun; cbn [variable andb]; rewrite ?(proj2 (Z.eqb_eq c 13) ltac:(assumption)), ?(proj2 (Z.eqb_eq c 35) ltac:(assumption));
      repeat match goal with H : ?c <> ?n |- context [?c =? ?n] => rewrite (proj2 (Z.eqb_neq c n) H) end; done.
Qed.

Lemma clean_text l : clean false false l = nvram_text l.
Proof.
  rewrite clean_lines. unfold nvram_text. cbv zeta. destruct (lines l) as [[|x ls] last]; [done|]. cbn [orb fmap list_fmap concat].
  unfold terminated at 2. destruct (variable x); cbn; by rewrite <- ?app_assoc.
Qed.

Lemma zset_app {A} (pre : list A) x y post : zset (pre ++ x :: post) (Z.of_nat (length pre)) y = Some (pre ++ y :: post).
Proof.
  rewrite zset_is_Some by (rewrite length_app; cbn; lia). rewrite Nat2Z.id. f_equal. rewrite insert_app_r_alt, Nat.sub_diag by lia. done.
Qed.

(** Writing at [dp], with the bytes [mid] between it and the byte [c] just read. *)
Lemma nvram_put_eq out mid (c : Z) rest v find column f0 k0 :
  exists mid', length mid' = length mid /\
    nvram_put v find column (MkNv (out ++ mid ++ c :: rest) (Z.of_nat (length out)) f0 k0) =
      Some (MkNv ((out ++ [v]) ++ mid' ++ rest) (Z.of_nat (length (out ++ [v]))) find column).
Proof.
  assert (exists x mid', mid ++ [c] = x :: mid' /\ length mid' = length mid) as (x & mid' & E & Hl).
  { destruct mid as [|x mid]; [by exists c, []|]. exists x, (mid ++ [c]). split; [done|]. rewrite length_app. cbn. lia. }
  exists mid'. split; [done|]. unfold nvram_put. cbn [nv_buf nv_dp].
  replace (out ++ mid ++ c :: rest) with (out ++ x :: mid' ++ rest) by (by rewrite app_comm_cons, <- E, <- app_assoc).
  rewrite zset_app. cbn [mbind option_bind]. rewrite length_app. cbn [length]. f_equal. f_equal; [by rewrite <- app_assoc|lia].
Qed.

Lemma nvram_loop_clean l : forall out mid tail n find k,
  n = Z.of_nat (length (out ++ mid)) -> 0 <= k -> k + Z.of_nat (length l) < 2 ^ 31 ->
  exists mid' find' k', length (out ++ mid ++ l) = length (out ++ clean find (negb (k =? 0)) l ++ mid') /\
    nvram_loop (length l) n (MkNv (out ++ mid ++ l ++ tail) (Z.of_nat (length out)) find k) =
      Some (MkNv ((out ++ clean find (negb (k =? 0)) l) ++ mid' ++ tail) (Z.of_nat (length (out ++ clean find (negb (k =? 0)) l))) find' k').
Proof.
  induction l as [|c l IH]; intros out mid tail n find k Hn Hk Hlt.
  - exists mid, find, k. cbn [clean length nvram_loop app]. by rewrite !app_nil_r.
  - cbn [length nvram_loop clean app]. unfold nvram_step. cbn [nv_buf nv_findNewline nv_column nv_dp].
    assert (zget (out ++ mid ++ c :: l ++ tail) n = Some c) as -> by (rewrite Hn, app_assoc; apply zget_app). cbn [mbind option_bind].
    cbn [length] in Hlt.
    assert (forall find' k', 0 <= k' -> k' + Z.of_nat (length l) < 2 ^ 31 -> exists mid' find'' k'',
      length (out ++ mid ++ c :: l) = length (out ++ clean find' (negb (k' =? 0)) l ++ mid') /\
      nvram_loop (length l) (n + 1) (MkNv (out ++ mid ++ c :: l ++ tail) (Z.of_nat (length out)) find' k') =
      Some (MkNv ((out ++ clean find' (negb (k' =? 0)) l) ++ mid' ++ tail) (Z.of_nat (length (out ++ clean find' (negb (k' =? 0)) l))) find'' k'')) as Hskip.
    { intros find' k' Hk' Hlt'. destruct (IH out (mid ++ [c]) tail (n + 1) find' k') as (mid' & f & k'' & El & E); [rewrite Hn, !length_app; cbn; lia|done|done|].
      exists mid', f, k''. rewrite <- !app_assoc in El. cbn in El. split; [done|]. rewrite <- E. by rewrite <- !app_assoc. }
    assert (forall v k', 0 <= k' -> k' + Z.of_nat (length l) < 2 ^ 31 -> exists mid' find'' k'',
      length (out ++ mid ++ c :: l) = length (out ++ (v :: clean false (negb (k' =? 0)) l) ++ mid') /\
      (s ← nvram_put v false k' (MkNv (out ++ mid ++ c :: l ++ tail) (Z.of_nat (length out)) find k); nvram_loop (length l) (n + 1) s) =
      Some (MkNv ((out ++ v :: clean false (negb (k' =? 0)) l) ++ mid' ++ tail) (Z.of_nat (length (out ++ v :: clean false (negb (k' =? 0)) l))) find'' k'')) as Hput.
    { intros v k' Hk' Hlt'. destruct (nvram_put_eq out mid c (l ++ tail) v false k' find k) as (mid1 & Hm1 & Ep). cbn [app]. rewrite Ep. cbn [mbind option_bind].
      destruct (IH (out ++ [v]) mid1 tail (n + 1) false k') as (mid' & f & k'' & El & E); [rewrite Hn, !length_app, Hm1; cbn; lia|done|done|].
      exists mid', f, k''. rewrite E. rewrite <- !app_assoc. cbn [app]. rewrite !length_app in *. cbn [length] in *. rewrite !length_app in *. split; [lia|done]. }
    destruct (c =? 13); [by apply Hskip; lia|]. destruct (find && negb (c =? 10)); [by apply Hskip; lia|].
    destruct (c =? 35); [cbn [mbind option_bind]; by apply (Hskip true); lia|]. destruct (c =? 10).
    + destruct (Z.eqb_spec k 0) as [->|Hne]; cbn [negb].
      * cbn [mbind option_bind]. apply (Hskip false 0); lia.
      * apply (Hput 0 0); lia.
    + rewrite s32_id by lia. destruct (Hput c (k + 1)) as (mid' & f & k'' & El & E); [lia..|]. exists mid', f, k''.
      rewrite (proj2 (Z.eqb_neq (k + 1) 0)) in * by lia. by split.
Qed.

Lemma nvram_fill_zeros mid : forall out tail,
  nvram_fill (length mid) (Z.of_nat (length out)) (out ++ mid ++ tail) = Some (out ++ replicate (length mid) 0 ++ tail).
Proof.
  induction mid as [|x mid IH]; intros out tail; [done|]. cbn [length nvram_fill app replicate]. rewrite zset_app. cbn [mbind option_bind].
  replace (Z.of_nat (length out) + 1) with (Z.of_nat (length (out ++ [0]))) by (rewrite length_app; cbn; lia).
  replace (out ++ 0 :: mid ++ tail) with ((out ++ [0]) ++ mid ++ tail) by (by rewrite <- app_assoc). rewrite IH. by rewrite <- app_assoc.
Qed.

(** [process_nvram_vars] rewrites the first [len] bytes of its buffer in
    place without leaving them and without overtaking itself: they become the
    variables of the text, one per line, each followed by a NUL, without carriage
    returns, empty lines and comments, and NULs up to [len]; the length returned
    is that of the variables, rounded up to a multiple of four if that fits. *)
Theorem nvram_prepared varbuf len :
  0 <= len <= Z.of_nat (length varbuf) -> len < 2 ^ 31 ->
  let out := nvram_text (take (Z.to_nat len) varbuf) in
  let n := Z.of_nat (length out) in
  n <= len /\
  process_nvram_vars varbuf len =
    Some (out ++ replicate (Z.to_nat (len - n)) 0 ++ drop (Z.to_nat len) varbuf,
          if (n + 3) / 4 * 4 <=? len then (n + 3) / 4 * 4 else n).
Proof.
  intros Hlen Hlt out n. set (text := take (Z.to_nat len) varbuf) in *. set (tail := drop (Z.to_nat len) varbuf).
  assert (length text = Z.to_nat len) as Et by (unfold text; rewrite length_take; lia).
  destruct (nvram_loop_clean text [] [] tail 0 false 0) as (mid & f & k & El & E); [done|lia|lia|].
  cbn [app Z.eqb negb length] in El, E. change (Z.of_nat 0) with 0 in E. rewrite clean_text in El, E. fold out in El, E. rewrite length_app in El. split; [lia|].
  unfold process_nvram_vars. rewrite <- Et. rewrite <- (take_drop (Z.to_nat len) varbuf) at 1. fold text tail. rewrite E. cbn [mbind option_bind nv_dp nv_buf].
  fold n. replace (Z.to_nat (len - n)) with (length mid) by lia. pose proof (nvram_fill_zeros mid out tail) as Ef. fold n in Ef. rewrite Ef. cbn [mbind option_bind].
  f_equal. f_equal. unfold ctrue. destruct (Z.eqb_spec (n mod 4) 0) as [E4|E4]; cbn [negb andb].
  - replace ((n + 3) / 4 * 4) with n by dlia. by destruct (n <=? len).
  - rewrite u32_id by dlia. replace ((n + 3) / 4 * 4) with (n + (4 - n mod 4)) by dlia. done.
Qed.

(** Two variables with a comment and an empty line between them, and a byte that
    is not part of the file. *)
Definition nvram_sample : list Z := bytes_of "a=1" ++ [13; 10] ++ bytes_of "#c" ++ [10; 10] ++ bytes_of "b=2" ++ [10] ++ [7].

Lemma nvram_prepared_witness :
  process_nvram_vars nvram_sample 13 = Some (bytes_of "a=1" ++ [0] ++ bytes_of "b=2" ++ [0] ++ [0; 0; 0; 0; 0; 7], 8).
Proof. refine (proj2 (nvram_prepared nvram_sample 13 _ _)); [cbn; lia|reflexivity]. Defined.

(** The end of the buffer is not marked when the text fills it. *)
Example nvram_unterminated : process_nvram_vars (bytes_of "a=b") 3 = Some (bytes_of "a=b", 3).
Proof. reflexivity. Qed.

(** A number sign inside a value cuts it. *)
Example nvram_value_cut : process_nvram_vars (bytes_of "k=1#2") 5 = Some (bytes_of "k=1" ++ [0; 0], 4).
Proof. reflexivity. Qed.

(** ** Chains of packets: correctness *)

Lemma pkt_skip_spec p : forall off p' off',
  0 <= off < 2 ^ 32 -> pkt_skip p off = (p', off') ->
  0 <= off' /\ drop (Z.to_nat off') (concat p') = drop (Z.to_nat off) (concat p) /\
  exists pre, p = pre ++ p' /\ (p' <> [] -> off = Z.of_nat (length (concat pre)) + off') /\
    match p' with [] => Z.of_nat (length (concat p)) <= off | d :: _ => off' = 0 \/ off' < Z.of_nat (length d) end.
Proof.
  induction p as [|d p IH]; intros off p' off' Hoff E; cbn [pkt_skip] in E.
  - injection E as <- <-. split_and!; [lia|done|]. exists []. split_and!; [done|done|cbn; lia].
  - destruct (Z.eqb_spec off 0) as [->|Hne]; [|destruct (Z.ltb_spec off (Z.of_nat (length d))) as [Hlt|Hge]].
    + injection E as <- <-. split_and!; [lia|done|]. exists []. split_and!; [done|done|by left].
    + injection E as <- <-. split_and!; [lia|done|]. exists []. split_and!; [done|done|by right].
    + rewrite u32_id in E by lia. destruct (IH (off - Z.of_nat (length d)) p' off') as (H0 & Hd & pre & -> & Hp & Hc); [lia|done|]. split_and!; [done| |].
      * rewrite Hd. cbn [concat]. rewrite drop_app_ge by lia. f_equal. lia.
      * exists (d :: pre). split_and!; [done|intros Hp'; cbn [concat]; rewrite length_app; specialize (Hp Hp'); lia|].
        destruct p'; [|done]. cbn [concat app] in *. rewrite length_app. lia.
Qed.

Lemma pktcopy_loop_spec p : forall off len,
  0 <= off -> 0 <= len < 2 ^ 31 -> match p with [] => True | d :: _ => off <= Z.of_nat (length d) end ->
  pktcopy_loop p off len = take (Z.to_nat len) (drop (Z.to_nat off) (concat p)).
Proof.
  induction p as [|d p IH]; intros off len Hoff Hlen Hd; cbn [pktcopy_loop concat]; [by rewrite drop_nil, take_nil|].
  destruct (Z.eqb_spec len 0) as [->|Hne]; [done|]. rewrite (u32_id len) by lia. set (n := Z.min _ len).
  rewrite s32_id, IH by (try (destruct p; [done|]); lia). rewrite drop_0. rewrite drop_app_le by lia.
  destruct (Z.le_gt_cases len (Z.of_nat (length d) - off)) as [Hle|Hgt].
  - replace n with len by lia. replace (len - len) with 0 by lia. rewrite take_0, app_nil_r. rewrite take_app_le by (rewrite length_drop; lia). done.
  - replace n with (Z.of_nat (length d) - off) by lia. rewrite (take_ge (drop _ d)) by (rewrite length_drop; lia).
    rewrite take_app_ge by (rewrite length_drop; lia). f_equal. rewrite length_drop. f_equal. lia.
Qed.

Lemma pktcopy_spec p off len :
  0 <= off < 2 ^ 32 -> 0 <= len < 2 ^ 31 -> pktcopy p off len = take (Z.to_nat len) (drop (Z.to_nat off) (concat p)).
Proof.
  intros Hoff Hlen. unfold pktcopy. rewrite (proj2 (Z.ltb_ge len 0)) by lia. destruct (pkt_skip p off) as [p' off'] eqn:E.
  destruct (pkt_skip_spec p off p' off' Hoff E) as (H0 & Hd & pre & _ & _ & Hc). rewrite <- Hd. destruct p' as [|d p'].
  - cbn [concat]. by rewrite drop_nil, take_nil.
  - rewrite pktcopy_loop_spec; [done|done|done|]. lia.
Qed.

(** The chain [q] is [p] with [data] stored from [off] on. *)
Definition stored (p q : list (list Z)) (off : Z) (data : list Z) : Prop :=
  length <$> q = length <$> p /\
  concat q = take (Z.to_nat off) (concat p) ++ data ++ drop (Z.to_nat off + length data) (concat p).

Lemma pktfrombuf_loop_spec p : forall off len buf ret,
  0 <= off -> 0 <= len < 2 ^ 31 -> len <= Z.of_nat (length buf) -> 0 <= ret -> ret + len < 2 ^ 32 ->
  match p with [] => off = 0 | d :: _ => off <= Z.of_nat (length d) end ->
  let m := Z.min len (Z.of_nat (length (concat p)) - off) in
  exists q, pktfrombuf_loop p off len buf ret = Some (q, ret + m) /\ stored p q off (take (Z.to_nat m) buf).
Proof.
  induction p as [|d p IH]; intros off len buf ret Hoff Hlen Hbuf Hret Hsum Hd; cbn [pktfrombuf_loop concat]; cbv zeta.
  - exists []. subst off. rewrite Z.min_r by (cbn; lia). split; [f_equal; f_equal; cbn; lia|]. done.
  - destruct (Z.eqb_spec len 0) as [->|Hne].
    { exists (d :: p). rewrite Z.min_l by (rewrite length_app; lia). split; [f_equal; f_equal; lia|]. split; [done|].
      change (Z.to_nat 0) with 0%nat. rewrite take_0. cbn [app length]. rewrite Nat.add_0_r. by rewrite take_drop. }
    rewrite (u32_id len) by lia. set (n := Z.min _ len). rewrite (proj2 (Z.ltb_ge (Z.of_nat (length buf)) n)) by lia.
    destruct (IH 0 (s32 (len - n)) (drop (Z.to_nat n) buf) (u32 (ret + n))) as (q & E & Hlq & Hq); rewrite ?s32_id, ?u32_id, ?length_drop in * by lia; try lia.
    { destruct p; lia. }
    rewrite E. cbn [mbind option_bind]. eexists. split; [f_equal; f_equal; rewrite length_app; lia|].
    set (C := concat p) in *. set (m2 := Z.min (len - n) (Z.of_nat (length C) - 0)) in *.
    change (Z.to_nat 0) with 0%nat in Hq. rewrite take_0 in Hq. cbn [app Nat.add] in Hq. rewrite length_take, length_drop, Nat.min_l in Hq by lia. split.
    + rewrite !fmap_cons, Hlq. f_equal. rewrite !length_app, !length_take, length_drop. lia.
    + cbn [concat]. fold C. rewrite Hq. replace (Z.to_nat (Z.min len _)) with (Z.to_nat n + Z.to_nat m2)%nat by (rewrite length_app; lia).
      rewrite length_take, Nat.min_l by lia. rewrite <- take_take_drop, take_app_le by lia. rewrite <- !app_assoc. do 2 f_equal.
      destruct (Z.le_gt_cases len (Z.of_nat (length d) - off)).
      * replace (Z.to_nat m2) with 0%nat by lia. rewrite take_0, drop_0, Nat.add_0_r. cbn [app]. rewrite drop_app_le by lia. do 2 f_equal. lia.
      * rewrite (drop_ge d) by lia. cbn [app]. f_equal. rewrite drop_app_ge by lia. f_equal. lia.
Qed.

Lemma stored_app pre p q off data : 0 <= off -> stored p q off data -> stored (pre ++ p) (pre ++ q) (Z.of_nat (length (concat pre)) + off) data.
Proof.
  intros Hoff [Hl Hc]. split; [by rewrite !fmap_app, Hl|]. rewrite !concat_app, Hc. replace (Z.to_nat (_ + off)) with (length (concat pre) + Z.to_nat off)%nat by lia.
  rewrite take_app_ge, drop_app_ge by lia. rewrite <- app_assoc. do 2 f_equal; [f_equal; lia|]. do 2 f_equal. lia.
Qed.

Lemma stored_copy p q off data :
  0 <= off < 2 ^ 32 -> Z.of_nat (length data) < 2 ^ 31 -> data = [] \/ off <= Z.of_nat (length (concat p)) ->
  stored p q off data -> pktcopy q off (Z.of_nat (length data)) = data.
Proof.
  intros Hoff Hdat Hor [_ Hc]. rewrite pktcopy_spec, Hc, Nat2Z.id by lia. destruct Hor as [->|Hle]; [done|].
  rewrite drop_app_ge by (rewrite length_take; lia). rewrite length_take, Nat.min_l, Nat.sub_diag, drop_0 by lia. apply take_app_length.
Qed.

(** For an offset and a length of any size within the integers,
    [pktcopy] copies the bytes of the packets of a chain from the offset on, as if
    they were one block, up to the length or the end; and [pktfrombuf] stores a
    buffer there, keeps the lengths of the packets and all other bytes, and
    returns how much it stored, so that [pktcopy] gives it back. *)
Theorem pkt_copies p off len buf :
  0 <= off < 2 ^ 32 -> 0 <= len < 2 ^ 31 -> len <= Z.of_nat (length buf) ->
  let m := Z.max 0 (Z.min len (Z.of_nat (length (concat p)) - off)) in
  pktcopy p off len = take (Z.to_nat len) (drop (Z.to_nat off) (concat p)) /\
  exists q, pktfrombuf p off len buf = Some (q, m) /\ stored p q off (take (Z.to_nat m) buf) /\ pktcopy q off m = take (Z.to_nat m) buf.
Proof.
  intros Hoff Hlen Hbuf m. split; [by apply pktcopy_spec|]. unfold pktfrombuf. destruct (pkt_skip p off) as [p' off'] eqn:E.
  destruct (pkt_skip_spec p off p' off' Hoff E) as (H0 & Hd & pre & -> & Hp & Hc).
  assert (exists q, match p' with
    | [] => Some (pre ++ p', 0)
    | _ :: _ => '(q, ret) ← pktfrombuf_loop p' off' len buf 0; Some (take (length (pre ++ p') - length p') (pre ++ p') ++ q, ret)
    end = Some (q, m) /\ stored (pre ++ p') q off (take (Z.to_nat m) buf)) as (q & Eq & Hq).
  { destruct p' as [|d p'].
    - exists pre. replace m with 0 by lia. rewrite app_nil_r in *. split; [done|]. split; [done|]. change (Z.to_nat 0) with 0%nat. rewrite take_0. cbn [app length].
      by rewrite Nat.add_0_r, take_drop.
    - specialize (Hp ltac:(done)). destruct (pktfrombuf_loop_spec (d :: p') off' len buf 0) as (q & Eq & Hq); try done; try lia. rewrite Eq. cbn [mbind option_bind].
      assert (off' <= Z.of_nat (length (concat (d :: p')))) by (cbn [concat]; rewrite length_app; lia).
      replace (Z.min len _) with m in * by (subst m; rewrite concat_app, length_app; lia). exists (pre ++ q). split.
      + f_equal. f_equal. f_equal. rewrite length_app. rewrite take_app_le by lia. apply take_ge. lia.
      + rewrite Hp. by apply stored_app. }
  exists q. split; [done|]. split; [done|]. assert (Z.of_nat (length (take (Z.to_nat m) buf)) = m) as El by (rewrite length_take; lia).
  rewrite <- El at 1. eapply stored_copy; [done|lia| |done].
  destruct (Z.le_gt_cases off (Z.of_nat (length (concat (pre ++ p'))))); [by right|]. left. replace m with 0 by lia. done.
Qed.

Lemma pkt_copies_witness :
  pktcopy [[1; 2; 3]; [4; 5]; [6]] 2 3 = [3; 4; 5] /\
  exists q, pktfrombuf [[1; 2; 3]; [4; 5]; [6]] 2 3 [7; 8; 9] = Some (q, 3) /\ stored [[1; 2; 3]; [4; 5]; [6]] q 2 [7; 8; 9] /\ pktcopy q 2 3 = [7; 8; 9].
Proof. apply (pkt_copies [[1; 2; 3]; [4; 5]; [6]] 2 3 [7; 8; 9]); cbn; lia. Defined.

(** ** Tokens: correctness *)

Lemma word_bit x k : 0 <= k < 32 -> ctrue (Z.land x (u32 (Z.shiftl 1 k))) = Z.testbit x k.
Proof.
  intros Hk. rewrite Z.shiftl_1_l, u32_id by (split; [apply Z.pow_nonneg; lia|apply (Z.pow_lt_mono_r 2 k 32); lia]). unfold ctrue.
  destruct (Z.testbit x k) eqn:E.
  - apply negb_true_iff, Z.eqb_neq. intros H0. apply (f_equal (fun y => Z.testbit y k)) in H0.
    by rewrite Z.land_spec, Z.pow2_bits_true, E, Z.bits_0 in H0 by lia.
  - apply negb_false_iff, Z.eqb_eq, Z.bits_inj'. intros n Hn. rewrite Z.land_spec, Z.bits_0.
    destruct (Z.eq_dec n k) as [->|Hne]; [by rewrite E|]. by rewrite Z.pow2_bits_false, andb_false_r by lia.
Qed.

(** [map] has the bytes [S]. *)
Definition map_has (map : list Z) (P : Z -> bool) : Prop :=
  length map = 8%nat /\ forall c, byte_range c -> tok_in map c = Some (P c).

Lemma byte_word c : byte_range c -> 0 <= Z.shiftr c 5 < 8 /\ 0 <= Z.land c 31 < 32 /\ c = 32 * Z.shiftr c 5 + Z.land c 31.
Proof. intros Hc. unfold byte_range in Hc. rewrite Z.shiftr_div_pow2 by lia. change 31 with (Z.ones 5). rewrite Z.land_ones by lia. dlia. Qed.

Lemma tok_in_eq map c x : byte_range c -> zget map (Z.shiftr c 5) = Some x -> tok_in map c = Some (Z.testbit x (Z.land c 31)).
Proof. intros Hc H. unfold tok_in. rewrite H. cbn [mbind option_bind]. by rewrite word_bit by (by apply byte_word). Qed.

Lemma tok_add_has map P c :
  map_has map P -> byte_range c -> exists map', tok_add map c = Some map' /\ map_has map' (fun e => P e || (e =? c)).
Proof.
  intros [Hl Hm] Hc. destruct (byte_word c Hc) as (Hw & Hk & Ec). unfold tok_add.
  destruct (zget_is_Some map (Z.shiftr c 5)) as [x Hx]; [rewrite Hl; lia|]. rewrite Hx. cbn [mbind option_bind].
  set (y := Z.lor x _). destruct (zset map (Z.shiftr c 5) y) as [map'|] eqn:Es.
  2:{ apply zset_None in Es. rewrite Hl in Es. lia. }
  exists map'. split; [done|]. split; [by rewrite (zset_length _ _ _ _ Es)|]. intros e He. destruct (byte_word e He) as (He1 & He2 & Ee).
  destruct (Z.eq_dec (Z.shiftr e 5) (Z.shiftr c 5)) as [Ei|Ei].
  - rewrite (tok_in_eq map' e y) by (done || (rewrite Ei; by eapply zget_zset_eq)). 
    pose proof (Hm e He) as Hme. rewrite (tok_in_eq map e x) in Hme by (done || by rewrite Ei). injection Hme as <-. f_equal.
    unfold y. rewrite Z.lor_spec. f_equal. rewrite Z.shiftl_1_l, u32_id by (split; [apply Z.pow_nonneg; lia|apply (Z.pow_lt_mono_r 2 _ 32); lia]).
    destruct (Z.eqb_spec e c) as [->|Hne]; [by apply Z.pow2_bits_true; lia|]. apply Z.pow2_bits_false. lia.
  - unfold tok_in. rewrite (zget_zset_ne _ _ _ _ _ Es) by congruence. fold (tok_in map e). rewrite Hm by done. f_equal.
    rewrite (proj2 (Z.eqb_neq e c)) by congruence. by rewrite orb_false_r.
Qed.

Lemma tok_map_has delims map P :
  map_has map P -> Forall byte_range delims ->
  exists map', tok_map delims map = Some map' /\ map_has map' (fun e => P e || bool_decide (e ∈ delims) || (e =? 0)).
Proof.
  intros Hm Hd. revert map P Hm. induction Hd as [|c delims Hc _ IH]; intros map P Hm; cbn [tok_map].
  - destruct (tok_add_has map P 0 Hm) as (map' & E & Hl & H); [done|]. exists map'. split; [done|]. split; [done|]. intros e He. rewrite H by done. f_equal.
    rewrite bool_decide_false by apply not_elem_of_nil. by rewrite orb_false_r.
  - destruct (tok_add_has map P c Hm Hc) as (map1 & -> & Hm1). cbn [mbind option_bind]. destruct (IH map1 _ Hm1) as (map' & E & Hl & H).
    exists map'. split; [done|]. split; [done|]. intros e He. rewrite H by done. f_equal. f_equal. rewrite <- orb_assoc. f_equal.
    destruct (Z.eqb_spec e c) as [->|Hne]; [by rewrite (bool_decide_true (c ∈ c :: delims)) by (by left)|]. cbn [orb]. apply bool_decide_ext. rewrite elem_of_cons. tauto.
Qed.

Definition is_delim (delims : list Z) (c : Z) : bool := bool_decide (c ∈ delims).

(** The specification: skip delimiters and spaces, then take up to a delimiter. *)
Fixpoint skip_delims (delims str : list Z) : list Z :=
  match str with [] => [] | c :: str' => if is_delim delims c || (c =? 32) then skip_delims delims str' else str end.
Fixpoint split_at (delims str : list Z) : list Z * Z * list Z :=
  match str with
  | [] => ([], 0, [])
  | c :: str' => if is_delim delims c then ([], c, str') else let '(tok, d, rest) := split_at delims str' in (c :: tok, d, rest)
  end.

(** The bytes of a string. *)
Definition char_range (c : Z) : Prop := 0 < c < 256.

Lemma split_rest delims c str : is_delim delims c = false -> exists tok d rest,
  split_at delims (c :: str) = (c :: tok, d, rest) /\ (length rest <= length str)%nat.
Proof.
  intros Hc. cbn [split_at]. rewrite Hc. destruct (split_at delims str) as [[tok d] rest] eqn:E. exists tok, d, rest. split; [done|].
  clear Hc c. revert tok d rest E. induction str as [|c str IH]; intros tok d rest E; cbn [split_at] in E; [by injection E as <- <- <-|].
  destruct (is_delim delims c); [injection E as <- <- <-; cbn; lia|]. destruct (split_at delims str) as [[tok' d'] rest'] eqn:E'.
  injection E as <- <- <-. specialize (IH _ _ _ eq_refl). cbn. lia.
Qed.

Lemma skip_head delims str c str' : skip_delims delims str = c :: str' -> is_delim delims c = false.
Proof.
  induction str as [|x str IH]; [done|]. cbn [skip_delims]. destruct (is_delim delims x || (x =? 32)) eqn:E; [done|].
  intros [= -> ->]. by apply orb_false_iff in E as [-> _].
Qed.

(** [bcmstrtok] skips delimiters and spaces and returns the characters up
    to the next delimiter as the token, the delimiter, and the string behind it,
    or no token exactly if nothing else is left; the table of the delimiters is
    never used out of range. *)
Theorem strtok_correct string delims :
  Forall char_range string -> Forall byte_range delims ->
  let str := skip_delims delims string in
  bcmstrtok string delims =
    Some (match str with [] => (None, 0, []) | _ => let '(tok, d, rest) := split_at delims str in (Some tok, d, rest) end).
Proof.
  intros Hs Hd str. unfold bcmstrtok. assert (map_has (replicate 8 0) (fun _ => false)) as H0.
  { split; [done|]. intros c Hc. destruct (byte_word c Hc) as (Hw & Hk & _). rewrite (tok_in_eq _ c 0), Z.bits_0; [done|done|].
    unfold zget. rewrite (proj2 (Z.leb_le 0 _)) by lia. apply lookup_replicate_2. lia. }
  destruct (tok_map_has delims _ _ H0 Hd) as (map & -> & Hl & Hm). cbn [mbind option_bind].
  assert (forall c, char_range c -> tok_in map c = Some (is_delim delims c)) as Hi.
  { intros c Hc. unfold char_range in Hc. rewrite Hm by (unfold byte_range; lia). rewrite (proj2 (Z.eqb_neq c 0)) by lia. by rewrite orb_false_r. }
  assert (tok_skip map string = Some str) as ->.
  { subst str. induction Hs as [|c string Hc _ IH]; [done|]. cbn [tok_skip skip_delims]. rewrite Hi by done. cbn [mbind option_bind]. by destruct (_ || _). }
  cbn [mbind option_bind]. assert (Forall char_range str) as Hstr.
  { subst str. induction Hs as [|c string Hc Hs' IH]; [done|]. cbn [skip_delims]. destruct (_ || _); [done|by constructor]. }
  assert (tok_end map str = Some (split_at delims str)) as ->.
  { clear -Hstr Hi. induction Hstr as [|c str Hc _ IH]; [done|]. cbn [tok_end split_at]. rewrite Hi by done. cbn [mbind option_bind].
    destruct (is_delim delims c); [done|]. rewrite IH. by destruct (split_at delims str) as [[? ?] ?]. }
  destruct str as [|c str'] eqn:Estr; [done|]. destruct (split_rest delims c str') as (tok & d & rest & -> & Hlen); [by eapply skip_head|].
  cbn [mbind option_bind]. rewrite bool_decide_false by (cbn; lia). done.
Qed.

Lemma strtok_correct_witness :
  bcmstrtok (bytes_of " set,x") (bytes_of ",") = Some (Some (bytes_of "set"), 44, bytes_of "x").
Proof. apply (strtok_correct (bytes_of " set,x") (bytes_of ",")); repeat constructor; unfold char_range, byte_range; cbn; lia. Defined.

(** ** Addresses: correctness *)

(** A digit as it is printed in lower case, and two of them for a byte. *)
Definition hex_char (d : Z) : Z := if d <? 10 then 48 + d else 87 + d.
Definition hex2 (o : Z) : list Z := [hex_char (o / 16); hex_char (o mod 16)].

(** Octets separated by colons. *)
Fixpoint colons (os : list Z) : list Z :=
  match os with
  | [] => []
  | [o] => hex2 o
  | o :: os' => hex2 o ++ 58 :: colons os'
  end.

Lemma hex_char_facts : forallb (fun d => let c := hex_char d in
  negb (bcm_isspace c) && negb (c =? 43) && negb (c =? 45) && negb (c =? 120) && negb (c =? 88) && bcm_isxdigit c &&
  (u32 (if bcm_isdigit c then c - 48 else bcm_toupper c - 65 + 10) =? d)) (seqZ 0 16) = true.
Proof. vm_compute. reflexivity. Qed.

Lemma hex_char_fact d : 0 <= d < 16 -> let c := hex_char d in
  bcm_isspace c = false /\ c <> 43 /\ c <> 45 /\ c <> 120 /\ c <> 88 /\ bcm_isxdigit c = true /\
  u32 (if bcm_isdigit c then c - 48 else bcm_toupper c - 65 + 10) = d.
Proof.
  intros Hd c. pose proof hex_char_facts as H. rewrite forallb_forall in H. specialize (H d). fold c in H.
  rewrite !andb_true_iff, !negb_true_iff, !Z.eqb_neq, Z.eqb_eq in H. destruct H as [[[[[[? ?] ?] ?] ?] ?] ?]; [|tauto].
  apply list_elem_of_In, elem_of_seqZ. lia.
Qed.

Lemma strtoul_hex2 o rest : byte_range o -> rest = [] \/ (exists r, rest = 58 :: r) -> bcm_strtoul (hex2 o ++ rest) 16 = (o, Some rest).
Proof.
  intros Ho Hr. unfold byte_range in Ho. destruct (hex_char_fact (o / 16)) as (S1 & P1 & M1 & _ & _ & X1 & V1); [dlia|].
  destruct (hex_char_fact (o mod 16)) as (_ & _ & _ & X2 & Y2 & D2 & V2); [dlia|]. cbv zeta in *. unfold hex2 in *. cbn [app].
  set (c1 := hex_char (o / 16)) in *. set (c2 := hex_char (o mod 16)) in *. unfold bcm_strtoul. cbn [strtoul_spaces]. rewrite S1.
  change (ch (c1 :: c2 :: rest)) with c1. rewrite (proj2 (Z.eqb_neq c1 43)), (proj2 (Z.eqb_neq c1 45)) by done. cbn [orb]. unfold strtoul_base.
  change (ch_at (c1 :: c2 :: rest) 1) with c2. rewrite (proj2 (Z.eqb_neq c2 120)), (proj2 (Z.eqb_neq c2 88)) by done. cbn [orb Z.eqb Pos.eqb]. rewrite andb_false_r.
  cbn [strtoul_digits]. rewrite V1, V2, X1, D2, (proj2 (Z.ltb_lt (o / 16) 16)), (proj2 (Z.ltb_lt (o mod 16) 16)) by dlia. cbn [andb].
  rewrite (u32_id (0 * 16 + o / 16)), (proj2 (Z.ltb_ge (0 * 16 + o / 16) 0)) by dlia. cbn [andb].
  rewrite (u32_id ((0 * 16 + o / 16) * 16 + o mod 16)), (proj2 (Z.ltb_ge _ (0 * 16 + o / 16))) by dlia. cbn [andb].
  replace ((0 * 16 + o / 16) * 16 + o mod 16) with o by dlia. destruct Hr as [->|[r ->]]; [done|]. reflexivity.
Qed.

Lemma colons_cons o os : os <> [] -> colons (o :: os) = hex2 o ++ 58 :: colons os.
Proof. by destruct os. Qed.

Lemma atoe_loop_colons os : Forall byte_range os -> os <> [] -> atoe_loop (length os) (colons os) = os.
Proof.
  induction 1 as [|o os Ho Hos IH]; intros Hne; [done|]. cbn [length atoe_loop]. destruct (decide (os = [])) as [->|Hos'].
  - cbn [colons]. rewrite <- (app_nil_r (hex2 o)), strtoul_hex2 by (done || by left). cbn. by rewrite u8_id.
  - rewrite colons_cons, strtoul_hex2 by (done || by right; eexists). cbn [default]. change (ch (58 :: colons os) =? 0) with false. cbn iota.
    rewrite u8_id by done. f_equal. change (drop 1 (58 :: colons os)) with (colons os). by apply IH.
Qed.

Lemma ether_atoe_colons os ea : Forall byte_range os -> length os = 6%nat -> bcm_ether_atoe (colons os) ea = (true, os ++ drop 6 ea).
Proof.
  intros H Hl. unfold bcm_ether_atoe. rewrite <- Hl. rewrite atoe_loop_colons by (done || by destruct os). by rewrite Hl.
Qed.

(** The overflow of a number is noticed only if the wrapped value happens to be
    smaller than the value before. *)
Example strtoul_overflow_missed : bcm_strtoul (bytes_of "9999999999") 10 = (1410065407, Some []).
Proof. reflexivity. Qed.

(** When it is noticed, [*endp] is not set: an address with a group that is too
    long is read from the middle of the group. *)
Example atoe_overflow : bcm_ether_atoe (bytes_of "f00000000:1:2:3:4:5:6") (replicate 6 0) = (true, [255; 0; 1; 2; 3; 4]).
Proof. reflexivity. Qed.

(** ** Comparison, variables and priorities: correctness *)

Lemma stricmp_cases c1 s1 c2 s2 :
  bcmstricmp (c1 :: s1) (c2 :: s2) =
    match xToLower c1 ?= xToLower c2 with Lt => -1 | Gt => 1 | Eq => bcmstricmp s1 s2 end.
Proof.
  cbn [bcmstricmp]. destruct (Z.compare_spec (xToLower c1) (xToLower c2)) as [E|L|G].
  - by rewrite E, Z.ltb_irrefl.
  - by rewrite (proj2 (Z.ltb_lt _ _)).
  - rewrite (proj2 (Z.ltb_ge (xToLower c1) _)) by lia. by rewrite (proj2 (Z.ltb_lt _ _)).
Qed.

Lemma stricmp_trans s1 s2 s3 : bcmstricmp s1 s2 <= 0 -> bcmstricmp s2 s3 <= 0 -> bcmstricmp s1 s3 <= 0.
Proof.
  revert s2 s3. induction s1 as [|c1 s1 IH]; intros [|c2 s2] [|c3 s3]; try (cbn; lia). rewrite !stricmp_cases.
  destruct (Z.compare_spec (xToLower c1) (xToLower c2)), (Z.compare_spec (xToLower c2) (xToLower c3)), (Z.compare_spec (xToLower c1) (xToLower c3));
    try lia; apply IH.
Qed.

Lemma stricmp_eq s1 s2 : bcmstricmp s1 s2 = 0 <-> xToLower <$> s1 = xToLower <$> s2.
Proof.
  revert s2. induction s1 as [|c1 s1 IH]; intros [|c2 s2]; try done. rewrite stricmp_cases, !fmap_cons.
  destruct (Z.compare_spec (xToLower c1) (xToLower c2)) as [E|L|G]; [rewrite IH, E|..]; split; try congruence; try lia; intros [= ? ?]; lia.
Qed.

Lemma stricmp_opp s1 s2 : bcmstricmp s2 s1 = - bcmstricmp s1 s2.
Proof.
  revert s2. induction s1 as [|c1 s1 IH]; intros [|c2 s2]; try done. rewrite !stricmp_cases, Z.compare_antisym.
  destruct (xToLower c1 ?= xToLower c2); cbn; [apply IH|done|done].
Qed.

Lemma strnicmp_take s1 s2 n : bcmstrnicmp s1 s2 n = bcmstricmp (take n s1) (take n s2).
Proof.
  revert s1 s2. induction n as [|n IH]; intros [|c1 s1] [|c2 s2]; try done. cbn [bcmstrnicmp firstn bcmstricmp]. by rewrite IH.
Qed.

(** [bcmstricmp] is a total order on strings that ignores their case: it
    returns 0 exactly for strings that are equal in lower case, changes its sign
    with the order of its arguments and is transitive; [bcmstrnicmp] compares
    prefixes. *)
Theorem stricmp_order s1 s2 s3 n :
  (bcmstricmp s1 s2 = 0 <-> xToLower <$> s1 = xToLower <$> s2) /\
  bcmstricmp s2 s1 = - bcmstricmp s1 s2 /\
  (bcmstricmp s1 s2 <= 0 -> bcmstricmp s2 s3 <= 0 -> bcmstricmp s1 s3 <= 0) /\
  bcmstrnicmp s1 s2 n = bcmstricmp (take n s1) (take n s2).
Proof. split_and!; [apply stricmp_eq|apply stricmp_opp|apply stricmp_trans|apply strnicmp_take]. Qed.

Lemma memcpy_middle (a b c data : list Z) n :
  n = Z.of_nat (length b) -> (length b <= length data)%nat ->
  memcpy_at (a ++ b ++ c) (Z.of_nat (length a)) data n = Some (a ++ take (length b) data ++ c).
Proof.
  intros -> Hl. unfold memcpy_at. rewrite (proj2 (Z.leb_le _ (Z.of_nat (length data)))), (proj2 (Z.leb_le (_ + _) _)) by (rewrite ?length_app; lia).
  cbn [andb]. rewrite !Nat2Z.id, take_app_length. do 3 f_equal. replace (Z.to_nat _) with (length (a ++ b)) by (rewrite length_app; lia).
  rewrite app_assoc. apply drop_app_length.
Qed.

(** A variable that fits its buffer is stored as its name, a NUL, its value
    and NULs up to the size of the buffer, and its length is returned; for one
    that does not fit, 0 is returned and nothing is stored. *)
Theorem mkiovar_layout name data datalen buf buflen :
  0 <= datalen <= Z.of_nat (length data) -> 0 <= buflen <= Z.of_nat (length buf) -> Z.of_nat (length name) + 1 + datalen < 2 ^ 32 ->
  let len := Z.of_nat (length name) + 1 + datalen in
  bcm_mkiovar name data datalen buf buflen =
    if buflen <? len then Some (0, buf)
    else Some (len, name ++ [0] ++ take (Z.to_nat datalen) data ++ replicate (Z.to_nat (buflen - len)) 0 ++ drop (Z.to_nat buflen) buf).
Proof.
  intros Hd Hb Hlt len. unfold bcm_mkiovar. cbv zeta. rewrite (u32_id (Z.of_nat (length name) + 1)) by lia. rewrite u32_id by lia. fold len.
  destruct (Z.ltb_spec buflen len) as [|Hge]; [done|]. unfold strncpy. rewrite (proj2 (Z.leb_le buflen _)) by lia. cbn [mbind option_bind].
  set (zd := replicate (Z.to_nat datalen) 0). set (zr := replicate (Z.to_nat (buflen - len)) 0 ++ drop (Z.to_nat buflen) buf).
  assert (take (Z.to_nat buflen) (name ++ replicate (Z.to_nat buflen) 0) ++ drop (Z.to_nat buflen) buf = (name ++ [0]) ++ zd ++ zr) as ->.
  { rewrite take_app_ge by lia. rewrite <- !app_assoc. f_equal. unfold zr. rewrite !app_assoc. f_equal. rewrite take_replicate, Nat.min_l by lia.
    change [0] with (replicate 1 0). unfold zd. rewrite <- !replicate_add. f_equal. lia. }
  replace (Z.of_nat (length name) + 1) with (Z.of_nat (length (name ++ [0]))) by (rewrite length_app; cbn; lia).
  assert (length zd = Z.to_nat datalen) as El by apply length_replicate. rewrite memcpy_middle by lia. cbn [mbind option_bind]. rewrite El. by rewrite <- app_assoc.
Qed.

Lemma mkiovar_layout_witness :
  bcm_mkiovar (bytes_of "mpc") [1; 0; 0; 0] 4 (replicate 12 255) 10 = Some (8, bytes_of "mpc" ++ [0] ++ [1; 0; 0; 0] ++ [0; 0] ++ [255; 255]).
Proof. apply (mkiovar_layout (bytes_of "mpc") [1; 0; 0; 0] 4 (replicate 12 255) 10); cbn; lia. Defined.

(** The test adds the lengths in 32 bits: a length close to 2^32 passes it. *)
Example mkiovar_wraps : bcm_mkiovar (bytes_of "mpc") [] (2 ^ 32 - 4) (replicate 16 0) 16 = None.
Proof. reflexivity. Qed.

(** A comma is missing in the table of the names: the eighth name runs into the
    next one, and the last index has no name. *)
Example crypto_names_joined : bcm_crypto_algo_name 7 = bytes_of "NALGUNDEF" /\ bcm_crypto_algo_name 11 = bytes_of "ERR".
Proof. split; reflexivity. Qed.

Lemma ntohs_val a b : byte_range a -> byte_range b -> ntohs (le_val [a; b]) = 256 * a + b.
Proof.
  intros Ha Hb. unfold byte_range in *. cbn [le_val]. unfold ntohs. rewrite !land_255, Z.shiftr_div_pow2 by lia. rewrite lor_shiftl by dlia. dlia.
Qed.

Lemma get16_eq pkt i : Forall byte_range pkt -> 0 <= i -> i + 1 < Z.of_nat (length pkt) ->
  exists a b, pkt !! Z.to_nat i = Some a /\ pkt !! S (Z.to_nat i) = Some b /\ byte_range a /\ byte_range b /\ get16 pkt i = Some (256 * a + b).
Proof.
  intros Hb H0 H1. destruct (lookup_lt_is_Some_2 pkt (Z.to_nat i)) as [a Ha]; [lia|]. destruct (lookup_lt_is_Some_2 pkt (S (Z.to_nat i))) as [b Hb']; [lia|].
  exists a, b. assert (byte_range a) by (eapply Forall_lookup_1; eauto). assert (byte_range b) by (eapply Forall_lookup_1; eauto). split_and!; try done.
  unfold get16, zget. rewrite !(proj2 (Z.leb_le 0 _)) by lia. replace (Z.to_nat (i + 1)) with (S (Z.to_nat i)) by lia. rewrite Ha, Hb'. cbn [mbind option_bind].
  by rewrite ntohs_val.
Qed.

Lemma put16_eq pkt i v : 0 <= i -> i + 1 < Z.of_nat (length pkt) -> 0 <= v < 65536 ->
  put16 pkt i v = Some (<[S (Z.to_nat i) := v mod 256]> (<[Z.to_nat i := v / 256]> pkt)).
Proof.
  intros H0 H1 Hv. assert (ntohs v = 256 * (v mod 256) + v / 256) as E.
  { rewrite <- (ntohs_val (v mod 256) (v / 256)) by (unfold byte_range; dlia). f_equal. cbn [le_val]. dlia. }
  unfold put16. rewrite E, !land_255, Z.shiftr_div_pow2 by lia. replace ((256 * (v mod 256) + v / 256) mod 256) with (v / 256) by dlia.
  replace ((256 * (v mod 256) + v / 256) / 2 ^ 8 mod 256) with (v mod 256) by dlia.
  rewrite zset_is_Some by lia. cbn [mbind option_bind]. rewrite zset_is_Some by (rewrite length_insert; lia).
  replace (Z.to_nat (i + 1)) with (S (Z.to_nat i)) by lia. done.
Qed.

Lemma tos_prio pkt i : Forall byte_range pkt -> 0 <= i -> i + 1 < Z.of_nat (length pkt) ->
  exists t, IP_TOS46 pkt i = Some t /\ 0 <= Z.shiftr t IPV4_TOS_PREC_SHIFT < 8.
Proof.
  intros Hb H0 H1. destruct (get16_eq pkt i Hb H0 H1) as (a & b & Ha & Hb' & Hra & Hrb & _). unfold IP_TOS46, zget.
  rewrite !(proj2 (Z.leb_le 0 _)) by lia. replace (Z.to_nat (i + 1)) with (S (Z.to_nat i)) by lia. rewrite Ha. cbn [mbind option_bind]. rewrite Hb'.
  assert (forall t, byte_range t -> 0 <= Z.shiftr t IPV4_TOS_PREC_SHIFT < 8) as Ht
    by (intros t Ht; unfold byte_range in Ht; unfold IPV4_TOS_PREC_SHIFT; rewrite Z.shiftr_div_pow2 by lia; dlia).
  destruct (_ =? 4); [by exists b; split; [|apply Ht]|]. destruct (_ =? 6); [|exists 0; split; [done|by cbn]]. cbn [mbind option_bind]. eexists. split; [done|]. apply Ht.
  assert (Z.shiftr (Z.land b 0xf0) 4 = b / 16) as ->.
  { rewrite Z.shiftr_land. change (Z.shiftr 0xf0 4) with (Z.ones 4). rewrite Z.land_ones, Z.shiftr_div_pow2 by lia. unfold byte_range in Hrb. apply Z.mod_small. dlia. }
  change 0x0f with (Z.ones 4). rewrite Z.land_ones, lor_shiftl by (unfold byte_range in *; dlia). unfold byte_range in *. dlia.
Qed.

(** The field of the priority in a tag replaced. *)
Lemma tag_update a b prio : byte_range a -> byte_range b -> 0 <= prio < 8 ->
  u16 (Z.lor (Z.ldiff (256 * a + b) (Z.shiftl VLAN_PRI_MASK VLAN_PRI_SHIFT)) (Z.shiftl prio VLAN_PRI_SHIFT)) = 256 * (32 * prio + a mod 32) + b.
Proof.
  intros Ha Hb Hp. unfold byte_range, VLAN_PRI_MASK, VLAN_PRI_SHIFT in *.
  assert (Z.ldiff (256 * a + b) (Z.shiftl 7 13) = (256 * a + b) mod 2 ^ 13) as ->.
  { rewrite <- Z.land_ones by lia. apply Z.bits_inj'. intros n Hn. rewrite Z.ldiff_spec, Z.land_spec. destruct (Z.ltb_spec n 13).
    - rewrite Z.shiftl_spec_low, Z.ones_spec_low by lia. done.
    - rewrite Z.ones_spec_high, andb_false_r by lia. destruct (Z.ltb_spec n 16).
      + rewrite Z.shiftl_spec by lia. assert (n - 13 = 0 \/ n - 13 = 1 \/ n - 13 = 2) as [->|[->| ->]] by lia; apply andb_false_r.
      + rewrite <- (Z.mod_small (256 * a + b) (2 ^ 16)), Z.mod_pow2_bits_high by lia. done. }
  rewrite Z.lor_comm, lor_shiftl by (lia || apply Z.mod_pos_bound; lia). rewrite u16_id by dlia. dlia.
Qed.

Lemma setprio_plain pkt update type :
  Forall byte_range pkt -> 20 <= Z.of_nat (length pkt) -> get16 pkt 12 = Some type -> type <> ETHER_TYPE_8021Q ->
  exists rc prio, pktsetprio pkt update = Some (rc, prio, pkt) /\ 0 <= prio <= 7.
Proof.
  intros Hb Hl E Hne. unfold pktsetprio. rewrite E. cbn [mbind option_bind]. rewrite (proj2 (Z.eqb_neq _ _) Hne).
  destruct (_ =? ETHER_TYPE_IP); [|by exists 0, 0]. destruct (tos_prio pkt 14) as (t & -> & Ht); [done|lia|lia|]. cbn [mbind option_bind].
  eexists _, _. split; [done|]. lia.
Qed.

Lemma setprio_vlan pkt update a b :
  Forall byte_range pkt -> 20 <= Z.of_nat (length pkt) -> get16 pkt 12 = Some ETHER_TYPE_8021Q ->
  pkt !! 14%nat = Some a -> pkt !! 15%nat = Some b ->
  exists rc prio, 0 <= prio <= 7 /\
    pktsetprio pkt update = Some (rc, prio, if update && negb (prio =? a / 32) then <[15%nat := b]> (<[14%nat := 32 * prio + a mod 32]> pkt) else pkt).
Proof.
  intros Hb Hl E0 Ha Hb'. unfold pktsetprio. rewrite E0. cbn [mbind option_bind]. rewrite Z.eqb_refl.
  destruct (get16_eq pkt 14) as (a' & b' & Ea & Eb & Hra & Hrb & E1); [done|lia|lia|]. change (Z.to_nat 14) with 14%nat in *.
  rewrite Ha in Ea. rewrite Hb' in Eb. injection Ea as <-. injection Eb as <-. rewrite E1. cbn [mbind option_bind].
  destruct (get16_eq pkt 16) as (a2 & b2 & _ & _ & _ & _ & E2); [done|lia|lia|]. rewrite E2. cbn [mbind option_bind].
  assert (Z.land (Z.shiftr (256 * a + b) VLAN_PRI_SHIFT) VLAN_PRI_MASK = a / 32) as ->.
  { unfold VLAN_PRI_MASK, VLAN_PRI_SHIFT. change 7 with (Z.ones 3). rewrite Z.land_ones, Z.shiftr_div_pow2 by lia. unfold byte_range in *. rewrite Z.mod_small; dlia. }
  assert (exists dp, (if 256 * a2 + b2 =? ETHER_TYPE_IP then tos_tc ← IP_TOS46 pkt 18; Some (Z.shiftr tos_tc IPV4_TOS_PREC_SHIFT) else Some 0) = Some dp /\
    0 <= dp < 8) as (dp & -> & Hdp).
  { destruct (_ =? ETHER_TYPE_IP); [|by exists 0]. destruct (tos_prio pkt 18) as (t & -> & Ht); [done|lia|lia|]. by eexists. }
  cbn [mbind option_bind]. set (pr := if ctrue dp then (dp, PKTPRIO_VDSCP) else (a / 32, PKTPRIO_VLAN)).
  assert (0 <= fst pr < 8) as Hp by (unfold pr, byte_range in *; destruct (ctrue dp); cbn [fst]; dlia). destruct pr as [prio rc]. cbn [fst] in Hp.
  destruct (update && negb (prio =? a / 32)) eqn:Eu; [|cbn [mbind option_bind]; eexists _, _; split; [|by rewrite Eu]; lia].
  rewrite tag_update by (done || lia). unfold byte_range in *. rewrite put16_eq by dlia. cbn [mbind option_bind]. eexists _, _. split; [|rewrite Eu; change (Z.to_nat 14) with 14%nat].
  - lia.
  - replace ((256 * (32 * prio + a mod 32) + b) mod 256) with b by dlia. replace ((256 * (32 * prio + a mod 32) + b) / 256) with (32 * prio + a mod 32) by dlia. done.
Qed.

(** [pktsetprio] on a frame of at least 20 bytes stays inside it, finds a
    priority from 0 to 7, and changes at most the priority in the VLAN tag: where
    it is asked to update the tag of such a frame, the three bits of the priority
    are those it returns, and no other bit of the frame changes. *)
Theorem setprio_tag pkt update :
  Forall byte_range pkt -> 20 <= Z.of_nat (length pkt) ->
  exists rc prio pkt', pktsetprio pkt update = Some (rc, prio, pkt') /\ 0 <= prio <= 7 /\
    (forall i, i <> 14%nat -> pkt' !! i = pkt !! i) /\
    exists t t', pkt !! 14%nat = Some t /\ pkt' !! 14%nat = Some t' /\ t' mod 32 = t mod 32 /\
      (t' <> t -> update = true) /\ (update = true -> get16 pkt 12 = Some ETHER_TYPE_8021Q -> t' / 32 = prio).
Proof.
  intros Hb Hl. destruct (get16_eq pkt 14) as (a & b & Ha & Hb' & Hra & Hrb & _); [done|lia|lia|]. change (Z.to_nat 14) with 14%nat in *.
  destruct (get16_eq pkt 12) as (a0 & b0 & _ & _ & _ & _ & E0); [done|lia|lia|]. destruct (Z.eq_dec (256 * a0 + b0) ETHER_TYPE_8021Q) as [Ev|Ev].
  - rewrite Ev in E0. destruct (setprio_vlan pkt update a b) as (rc & prio & Hp & E); try done. eexists rc, prio, _. split; [exact E|]. split; [done|].
    unfold byte_range in *. destruct update; cbn [andb]; [destruct (Z.eqb_spec prio (a / 32)) as [->|Hne]; cbn [negb]|].
    + split; [done|]. by exists a, a.
    + split.
      * intros i Hi. destruct (decide (i = 15%nat)) as [->|Hi']; [rewrite list_lookup_insert_eq by (rewrite length_insert; lia); by rewrite Hb'|].
        by rewrite !list_lookup_insert_ne by done.
      * exists a, (32 * prio + a mod 32). rewrite list_lookup_insert_ne, list_lookup_insert_eq by (lia || done). split_and!; try done; [dlia|intros; dlia].
    + split; [done|]. by exists a, a.
  - destruct (setprio_plain pkt update (256 * a0 + b0)) as (rc & prio & E & Hp); try done. exists rc, prio, pkt. split_and!; try done; try lia.
    exists a, a. split_and!; try done. intros _ E'. congruence.
Qed.

(** A frame with a tag of priority 1 around an IPv4 packet of precedence 5. *)
Definition tagged_frame : list Z := replicate 12 2 ++ [0x81; 0; 0x20; 7; 8; 0; 0x45; 0xa0; 0; 20].

Lemma setprio_tag_witness :
  exists rc prio pkt', pktsetprio tagged_frame true = Some (rc, prio, pkt') /\ 0 <= prio <= 7 /\
    (forall i, i <> 14%nat -> pkt' !! i = tagged_frame !! i) /\
    exists t t', tagged_frame !! 14%nat = Some t /\ pkt' !! 14%nat = Some t' /\ t' mod 32 = t mod 32 /\
      (t' <> t -> true = true) /\ (true = true -> get16 tagged_frame 12 = Some ETHER_TYPE_8021Q -> t' / 32 = prio).
Proof. apply (setprio_tag tagged_frame true); [repeat constructor; unfold byte_range; lia|cbn; lia]. Defined.

Example tagged_frame_updated : pktsetprio tagged_frame true = Some (0x505, 5, replicate 12 2 ++ [0x81; 0; 0xa0; 7; 8; 0; 0x45; 0xa0; 0; 20]).
Proof. reflexivity. Qed.
