(* ===== verification/Printf.v ===== *)
(** * Formatted printing of the kernel

    The printing half of [lib/vsprintf.c]: [number], [string], the pointer
    formats of [pointer], [format_decode], [vsnprintf] and its siblings.

    The buffer is the object at [buf] ([ob]) and the offset [str - buf]; [e]
    is [end - buf]. A store outside the object is a fault ([None]), and so is
    a variadic argument that is missing or of another type than the
    conversion asks for. A format string is the list of its bytes before the
    NUL and a pointer into it a suffix, as in [Vsprintf.v]. The fields of
    [printf_spec] keep their widths: [field_width] and [precision] wrap at 16
    bits. *)

From stdpp Require Import prelude gmap list strings.
From Stdlib Require Import ZArith Lia.
From S2P Require Import Prelude Vsprintf Bcmutils.

Open Scope Z_scope.
Open Scope list_scope.

Definition ZEROPAD : Z := 1.
Definition SIGN : Z := 2.
Definition PLUS : Z := 4.
Definition SPACE : Z := 8.
Definition LEFT : Z := 16.
Definition SMALL : Z := 32.
Definition SPECIAL : Z := 64.

Inductive format_type :=
  | FORMAT_TYPE_NONE | FORMAT_TYPE_WIDTH | FORMAT_TYPE_PRECISION | FORMAT_TYPE_CHAR
  | FORMAT_TYPE_STR | FORMAT_TYPE_PTR | FORMAT_TYPE_PERCENT_CHAR | FORMAT_TYPE_INVALID
  | FORMAT_TYPE_LONG_LONG | FORMAT_TYPE_ULONG | FORMAT_TYPE_LONG | FORMAT_TYPE_UBYTE
  | FORMAT_TYPE_BYTE | FORMAT_TYPE_USHORT | FORMAT_TYPE_SHORT | FORMAT_TYPE_UINT
  | FORMAT_TYPE_INT | FORMAT_TYPE_NRCHARS | FORMAT_TYPE_SIZE_T | FORMAT_TYPE_PTRDIFF.

Record printf_spec := MkSpec {
  type : format_type;
  flags : Z;           (* u8 *)
  base : Z;            (* u8 *)
  qualifier : Z;       (* u8 *)
  field_width : Z;     (* s16 *)
  precision : Z }.     (* s16 *)

Definition has (fl bit : Z) : bool := ctrue (Z.land fl bit).

(** ** The output buffer *)

Record out := MkOut { ob : list Z; str : Z }.

(** [if (buf < end) *buf = c; ++buf;] *)
Definition put (e c : Z) (o : out) : option out :=
  if str o <? e then b ← zset (ob o) (str o) c; Some (MkOut b (str o + 1))
  else Some (MkOut (ob o) (str o + 1)).

(** The same for the characters of a list, one after the other. *)
Fixpoint puts (e : Z) (t : list Z) (o : out) : option out :=
  match t with
  | [] => Some o
  | c :: t' => o ← put e c o; puts e t' o
  end.

(** [while (lo <= --w) put c]; the result has the last value of [w]. *)
Fixpoint pad_loop (fuel : nat) (e lo c w : Z) (o : out) : option (Z * out) :=
  match fuel with
  | O => None
  | S fuel' =>
      let w := s16 (w - 1) in
      if lo <=? w then o ← put e c o; pad_loop fuel' e lo c w o else Some (w, o)
  end.

Definition pad (e lo c w : Z) (o : out) : option (Z * out) :=
  pad_loop (S (Z.to_nat (s16 (w - 1) - lo + 1))) e lo c w o.

(** [while (len < w--) put ' ']. *)
Fixpoint pad_str_loop (fuel : nat) (e len w : Z) (o : out) : option (Z * out) :=
  match fuel with
  | O => None
  | S fuel' =>
      if len <? w then o ← put e 32 o; pad_str_loop fuel' e len (s16 (w - 1)) o
      else Some (s16 (w - 1), o)
  end.

Definition pad_str (e len w : Z) (o : out) : option (Z * out) :=
  pad_str_loop (S (Z.to_nat (w - len))) e len w o.

(** ** Numbers *)

Definition digits : list Z := bytes_of "0123456789ABCDEF".

(** The loop over the digits of base 8 and 16, least significant digit first. *)
Fixpoint digits_loop (fuel : nat) (mask shift locase num : Z) : option (list Z) :=
  match fuel with
  | O => None
  | S fuel' =>
      d ← zget digits (Z.land (u8 num) mask);
      let num := Z.shiftr num shift in
      ds ← (if num =? 0 then Some [] else digits_loop fuel' mask shift locase num);
      Some (Z.lor d locase :: ds)
  end.

Definition number (e num : Z) (spec : printf_spec) (o : out) : option out :=
  let base := base spec in
  let fl := flags spec in
  let w := field_width spec in
  let prec := precision spec in
  let need_pfx := has fl SPECIAL && negb (base =? 10) in
  let locase := Z.land fl SMALL in
  let fl := if has fl LEFT then Z.land fl (Z.lnot ZEROPAD) else fl in
  let '(sign, num, w) :=
    if has fl SIGN then
      if s64 num <? 0 then (45, u64 (- s64 num), s16 (w - 1))
      else if has fl PLUS then (43, num, s16 (w - 1))
      else if has fl SPACE then (32, num, s16 (w - 1))
      else (0, num, w)
    else (0, num, w) in
  let w := if need_pfx then
             let w := s16 (w - 1) in if base =? 16 then s16 (w - 1) else w
           else w in
  tmp ← (if num =? 0 then Some [48]
         else if negb (base =? 10) then
           digits_loop 22 (base - 1) (if base =? 16 then 4 else 3) locase num
         else put_dec num);
  let i := Z.of_nat (length tmp) in
  let prec := if prec <? i then i else prec in
  let w := s16 (w - prec) in
  '(w, o) ← (if negb (has fl (ZEROPAD + LEFT)) then pad e 0 32 w o else Some (w, o));
  o ← (if ctrue sign then put e sign o else Some o);
  o ← (if need_pfx then
         o ← put e 48 o;
         if base =? 16 then put e (Z.lor 88 locase) o else Some o
       else Some o);
  '(w, o) ← (if negb (has fl LEFT)
             then pad e 0 (if has fl ZEROPAD then 48 else 32) w o else Some (w, o));
  '(_, o) ← pad e i 48 prec o;
  o ← puts e (rev tmp) o;
  '(_, o) ← pad e 0 32 w o;
  Some o.

(** ** Strings and pointers *)

Definition PAGE_SIZE : Z := 4096.

(** An address of the kernel, where literals and local arrays live. *)
Definition kernel_address : Z := 3221225472.

Fixpoint strnlen (s : list Z) (count : Z) : Z :=
  match s with
  | [] => 0
  | _ :: s' => if count =? 0 then 0 else 1 + strnlen s' (count - 1)
  end.

(** [s] points to [addr], where the bytes [s] are followed by a NUL. *)
Definition string (e addr : Z) (s : list Z) (spec : printf_spec) (o : out) : option out :=
  let s := if addr <? PAGE_SIZE then bytes_of "(null)" else s in
  let len := strnlen s (u32 (precision spec)) in
  let w := field_width spec in
  '(w, o) ← (if negb (has (flags spec) LEFT) then pad_str e len w o else Some (w, o));
  o ← puts e (take (Z.to_nat len) s) o;
  '(_, o) ← pad_str e len w o;
  Some o.

Definition hex_asc : list Z := bytes_of "0123456789abcdef".
Definition hex_asc_lo (x : Z) : Z := default 0 (zget hex_asc (Z.land x 15)).
Definition hex_asc_hi (x : Z) : Z := default 0 (zget hex_asc (Z.shiftr (Z.land x 240) 4)).
Definition pack_hex_byte (byte : Z) : list Z := [hex_asc_hi byte; hex_asc_lo byte].

(** The characters put into the local array [mac_addr]. *)
Fixpoint mac_loop (n : nat) (i : Z) (addr fmt : list Z) : option (list Z) :=
  match n with
  | O => Some []
  | S n' =>
      b ← zget addr i;
      rest ← mac_loop n' (i + 1) addr fmt;
      Some (pack_hex_byte b ++
            (if (ch fmt =? 77) && negb (i =? 5) then [if ch_at fmt 1 =? 70 then 45 else 58] else []) ++
            rest)
  end.

Definition mac_address_string (e : Z) (addr : list Z) (spec : printf_spec) (fmt : list Z)
    (o : out) : option out :=
  mac_addr ← mac_loop 6 0 addr fmt;
  string e kernel_address mac_addr spec o.

Fixpoint ip4_loop (n : nat) (i index step : Z) (leading_zeros : bool) (addr : list Z) : option (list Z) :=
  match n with
  | O => Some []
  | S n' =>
      b ← zget addr index;
      let temp := put_dec_trunc b in
      rest ← ip4_loop n' (i + 1) (index + step) step leading_zeros addr;
      Some ((if leading_zeros then
               (if (length temp <? 3)%nat then [48] else []) ++
               (if (length temp <? 2)%nat then [48] else [])
             else []) ++
            rev temp ++ (if i <? 3 then [46] else []) ++ rest)
  end.

Definition ip4_string (addr fmt : list Z) : option (list Z) :=
  let leading_zeros := ch fmt =? 105 in
  let c := ch_at fmt 2 in
  let '(index, step) := if (c =? 104) || (c =? 108) then (3, -1) else (0, 1) in
  ip4_loop 4 0 index step leading_zeros addr.

Definition ip4_addr_string (e : Z) (addr : list Z) (spec : printf_spec) (fmt : list Z)
    (o : out) : option out :=
  ip4_addr ← ip4_string addr fmt;
  string e kernel_address ip4_addr spec o.

Fixpoint ip6_loop (n : nat) (i : Z) (addr fmt : list Z) : option (list Z) :=
  match n with
  | O => Some []
  | S n' =>
      hi ← zget addr (2 * i);
      lo ← zget addr (2 * i + 1);
      rest ← ip6_loop n' (i + 1) addr fmt;
      Some (pack_hex_byte hi ++ pack_hex_byte lo ++
            (if (ch fmt =? 73) && negb (i =? 7) then [58] else []) ++ rest)
  end.

Definition ip6_string (addr fmt : list Z) : option (list Z) := ip6_loop 8 0 addr fmt.

(** [in6.s6_addr32[i]] and [in6.s6_addr16[i]], as the little-endian machine
    loads them. *)
Definition s6_addr32 (a : list Z) (i : nat) : Z := le_val (take 4 (drop (4 * i) a)).
Definition s6_addr16 (a : list Z) (i : nat) : Z := le_val (take 2 (drop (2 * i) a)).

Definition htonl : Z -> Z := ntohl.

Definition ipv6_addr_v4mapped (a : list Z) : bool :=
  Z.lor (Z.lor (s6_addr32 a 0) (s6_addr32 a 1)) (Z.lxor (s6_addr32 a 2) (htonl 65535)) =? 0.

Definition ipv6_addr_is_isatap (a : list Z) : bool :=
  Z.lor (s6_addr32 a 2) (htonl 33554432) =? htonl 33578750.

(** [for (j = i; j < range; j++)]: the length of the run of zero words at [i]. *)
Fixpoint zero_run (words : list Z) : Z :=
  match words with
  | [] => 0
  | w :: ws => if negb (w =? 0) then 0 else 1 + zero_run ws
  end.

(** The loop that picks the longest run: [longest] and [colonpos]. *)
Fixpoint longest_run (i : Z) (words : list Z) (longest colonpos : Z) : Z * Z :=
  match words with
  | [] => (longest, colonpos)
  | _ :: ws =>
      let z := zero_run words in
      if longest <? z then longest_run (i + 1) ws z i else longest_run (i + 1) ws longest colonpos
  end.

(** A 16-bit word in hexadecimal without leading zeros. *)
Definition hex_word (word : Z) : list Z :=
  let hi := Z.shiftr word 8 in
  let lo := Z.land word 255 in
  if ctrue hi then
    (if 15 <? hi then pack_hex_byte hi else [hex_asc_lo hi]) ++ pack_hex_byte lo
  else if 15 <? lo then pack_hex_byte lo else [hex_asc_lo lo].

(** The loop that emits the address: at [colonpos] it prints the colons and
    jumps over the run. The result has [needcolon] at the end. *)
Fixpoint ip6c_loop (fuel : nat) (i : Z) (words : list Z) (longest colonpos : Z) (needcolon : bool)
  : option (list Z * bool) :=
  match fuel with
  | O => None
  | S fuel' =>
      match words with
      | [] => Some ([], needcolon)
      | w :: ws =>
          if i =? colonpos then
            '(rest, nc) ← ip6c_loop fuel' (i + longest) (drop (Z.to_nat longest) words)
                            longest colonpos false;
            Some ((if needcolon || (i =? 0) then [58] else []) ++ [58] ++ rest, nc)
          else
            '(rest, nc) ← ip6c_loop fuel' (i + 1) ws longest colonpos true;
            Some ((if needcolon then [58] else []) ++ hex_word (ntohs w) ++ rest, nc)
      end
  end.

Definition ip6_compressed_string (addr : list Z) : option (list Z) :=
  in6 ← (if (length addr <? 16)%nat then None else Some (take 16 addr));
  let useIPv4 := ipv6_addr_v4mapped in6 || ipv6_addr_is_isatap in6 in
  let words := s6_addr16 in6 <$> seq 0 (if useIPv4 then 6 else 8) in
  let '(longest, colonpos) := longest_run 0 words 1 (-1) in
  let colonpos := if longest =? 1 then -1 else colonpos in
  '(p, needcolon) ← ip6c_loop 9 0 words longest colonpos false;
  if useIPv4 then
    q ← ip4_string (drop 12 in6) (bytes_of "I4");
    Some (p ++ (if (needcolon : bool) then [58] else []) ++ q)
  else Some p.

Definition ip6_addr_string (e : Z) (addr : list Z) (spec : printf_spec) (fmt : list Z)
    (o : out) : option out :=
  ip6_addr ← (if (ch fmt =? 73) && (ch_at fmt 2 =? 99) then ip6_compressed_string addr
              else ip6_string addr fmt);
  string e kernel_address ip6_addr spec o.

Definition __toupper (c : Z) : Z := if islower c then u8 (c - 32) else c.

Fixpoint uuid_loop (i : Z) (index addr : list Z) : option (list Z) :=
  match index with
  | [] => Some []
  | k :: index' =>
      b ← zget addr k;
      rest ← uuid_loop (i + 1) index' addr;
      Some (pack_hex_byte b ++
            (if (i =? 3) || (i =? 5) || (i =? 7) || (i =? 9) then [45] else []) ++ rest)
  end.

Definition uuid_string (e : Z) (addr : list Z) (spec : printf_spec) (fmt : list Z)
    (o : out) : option out :=
  let c := ch_at fmt 1 in
  let le := (c =? 76) || (c =? 108) in
  let uc := (c =? 76) || (c =? 66) in
  let index := if le then [3; 2; 1; 0; 5; 4; 7; 6; 8; 9; 10; 11; 12; 13; 14; 15] else seqZ 0 16 in
  uuid ← uuid_loop 0 index addr;
  let uuid := if uc then __toupper <$> uuid else uuid in
  string e kernel_address uuid spec o.

(** [struct resource], as far as [resource_string] reads it. *)
Record resource := MkResource { res_start : Z; res_end : Z; res_flags : Z }.

Definition load_resource (obj : list Z) : option resource :=
  if (length obj <? 16)%nat then None
  else Some (MkResource (le_val (take 4 obj)) (le_val (take 4 (drop 4 obj)))
                        (le_val (take 4 (drop 12 obj)))).

(** [*p++ = c], with no test of the end. *)
Definition poke (c : Z) (o : out) : option out :=
  b ← zset (ob o) (str o) c; Some (MkOut b (str o + 1)).

Definition str_spec : printf_spec := MkSpec FORMAT_TYPE_NONE LEFT 0 0 (-1) 10.

(** What is printed of the kind of the resource, and the format of its bounds. *)
Definition resource_kind (fl : Z) : list Z * printf_spec * bool :=
  let io_spec := MkSpec FORMAT_TYPE_NONE (SPECIAL + SMALL + ZEROPAD) 16 0 6 (-1) in
  let mem_spec := MkSpec FORMAT_TYPE_NONE (SPECIAL + SMALL + ZEROPAD) 16 0 10 (-1) in
  let bus_spec := MkSpec FORMAT_TYPE_NONE (SMALL + ZEROPAD) 16 0 2 (-1) in
  let dec_spec := MkSpec FORMAT_TYPE_NONE 0 10 0 0 (-1) in
  if has fl 256 (* IORESOURCE_IO *) then (bytes_of "io  ", io_spec, true)
  else if has fl 512 (* IORESOURCE_MEM *) then (bytes_of "mem ", mem_spec, true)
  else if has fl 1024 (* IORESOURCE_IRQ *) then (bytes_of "irq ", dec_spec, true)
  else if has fl 2048 (* IORESOURCE_DMA *) then (bytes_of "dma ", dec_spec, true)
  else if has fl 4096 (* IORESOURCE_BUS *) then (bytes_of "bus ", bus_spec, true)
  else (bytes_of "??? ", mem_spec, false).

(** The array [sym] has 2 * 12 + 35 bytes. *)
Definition SYM_SIZE : Z := 59.

Definition resource_sym (res : resource) (fmt : list Z) (sym : list Z) : option out :=
  let flag_spec := MkSpec FORMAT_TYPE_NONE (SPECIAL + SMALL) 16 0 0 (-1) in
  let lit (s : String.string) := string SYM_SIZE kernel_address (bytes_of s) str_spec in
  let fl := res_flags res in
  let '(kind, spec, known) := resource_kind fl in
  let decode := (ch fmt =? 82) && known in
  p ← poke 91 (MkOut sym 0);
  p ← string SYM_SIZE kernel_address kind str_spec p;
  p ← number SYM_SIZE (res_start res) spec p;
  p ← (if negb (res_start res =? res_end res) then
         p ← poke 45 p; number SYM_SIZE (res_end res) spec p
       else Some p);
  p ← (if decode then
         p ← (if has fl 1048576 (* IORESOURCE_MEM_64 *) then lit " 64bit"%string p else Some p);
         p ← (if has fl 8192 (* IORESOURCE_PREFETCH *) then lit " pref"%string p else Some p);
         p ← (if has fl 2097152 (* IORESOURCE_WINDOW *) then lit " window"%string p else Some p);
         if has fl 268435456 (* IORESOURCE_DISABLED *) then lit " disabled"%string p else Some p
       else
         p ← lit " flags "%string p;
         number SYM_SIZE fl flag_spec p);
  p ← poke 93 p;
  poke 0 p.

Definition resource_string (e : Z) (obj : list Z) (spec : printf_spec) (fmt : list Z)
    (o : out) : option out :=
  res ← load_resource obj;
  sym ← resource_sym res fmt (replicate (Z.to_nat SYM_SIZE) 0);
  string e kernel_address (cstr (ob sym)) spec o.

(** What [pointer] asks of the rest of the kernel: whether it runs in an
    interrupt, the policy for [%pK], and the text of [sprint_symbol] and its
    siblings for a letter and an address. *)
Record kenv := MkKenv {
  in_interrupt : bool;
  kptr_restrict : Z;
  cap_syslog : bool;
  symbol_text : Z -> Z -> list Z }.

Definition symbol_string (env : kenv) (e ptr : Z) (spec : printf_spec) (ext : Z) (o : out) : option out :=
  string e kernel_address (symbol_text env ext ptr) spec o.

(** [ptr] is the address and [obj] the bytes found there. The format [%pV]
    (a format with its own arguments) is not modelled. *)
Definition pointer (env : kenv) (e : Z) (fmt : list Z) (ptr : Z) (obj : list Z)
    (spec : printf_spec) (o : out) : option out :=
  let c := ch fmt in
  let wide := if field_width spec =? -1 then 8 else field_width spec in
  let plain ptr :=
    let fl := Z.lor (flags spec) SMALL in
    let fl := if field_width spec =? -1 then Z.lor fl ZEROPAD else fl in
    number e ptr (MkSpec (type spec) fl 16 (qualifier spec) wide (precision spec)) o in
  let widened := MkSpec (type spec) (flags spec) (base spec) (qualifier spec) wide (precision spec) in
  if (ptr =? 0) && negb (c =? 75) then string e kernel_address (bytes_of "(null)") widened o
  else if (c =? 70) || (c =? 102) || (c =? 83) || (c =? 115) || (c =? 66) then
    symbol_string env e ptr spec c o
  else if (c =? 82) || (c =? 114) then resource_string e obj spec fmt o
  else if (c =? 77) || (c =? 109) then mac_address_string e obj spec fmt o
  else if ((c =? 73) || (c =? 105)) && (ch_at fmt 1 =? 54) then ip6_addr_string e obj spec fmt o
  else if ((c =? 73) || (c =? 105)) && (ch_at fmt 1 =? 52) then ip4_addr_string e obj spec fmt o
  else if c =? 85 then uuid_string e obj spec fmt o
  else if c =? 86 then None
  else if c =? 75 then
    if in_interrupt env then string e kernel_address (bytes_of "pK-error") widened o
    else plain (if negb ((kptr_restrict env =? 0) || ((kptr_restrict env =? 1) && cap_syslog env))
                then 0 else ptr)
  else plain ptr.

(** ** The format string *)

Fixpoint text_end (fmt : list Z) : list Z :=
  match fmt with
  | [] => []
  | c :: fmt' => if c =? 37 then fmt else text_end fmt'
  end.

(** The flags, from the character after the percent sign on. *)
Fixpoint decode_flags (fmt : list Z) (fl : Z) : Z * list Z :=
  match fmt with
  | [] => (fl, [])
  | c :: fmt' =>
      if c =? 45 then decode_flags fmt' (Z.lor fl LEFT)
      else if c =? 43 then decode_flags fmt' (Z.lor fl PLUS)
      else if c =? 32 then decode_flags fmt' (Z.lor fl SPACE)
      else if c =? 35 then decode_flags fmt' (Z.lor fl SPECIAL)
      else if c =? 48 then decode_flags fmt' (Z.lor fl ZEROPAD)
      else (fl, fmt)
  end.

(** The type of a number by its qualifier. *)
Definition number_type (q fl : Z) : format_type :=
  if q =? 76 then FORMAT_TYPE_LONG_LONG
  else if q =? 108 then if has fl SIGN then FORMAT_TYPE_LONG else FORMAT_TYPE_ULONG
  else if TOLOWER q =? 122 then FORMAT_TYPE_SIZE_T
  else if q =? 116 then FORMAT_TYPE_PTRDIFF
  else if q =? 72 then if has fl SIGN then FORMAT_TYPE_BYTE else FORMAT_TYPE_UBYTE
  else if q =? 104 then if has fl SIGN then FORMAT_TYPE_SHORT else FORMAT_TYPE_USHORT
  else if has fl SIGN then FORMAT_TYPE_INT else FORMAT_TYPE_UINT.

(** From the label [qualifier] on. *)
Definition decode_qualifier (fmt : list Z) (fl w prec : Z) : list Z * printf_spec :=
  let c := ch fmt in
  let '(q, fmt) :=
    if (c =? 104) || (TOLOWER c =? 108) || (TOLOWER c =? 122) || (c =? 116) then
      let fmt := drop 1 fmt in
      if c =? ch fmt then
        if c =? 108 then (76, drop 1 fmt)
        else if c =? 104 then (72, drop 1 fmt)
        else (c, fmt)
      else (c, fmt)
    else (255, fmt) in
  let done ty fl := (drop 1 fmt, MkSpec ty fl 10 q w prec) in
  let num base fl := (drop 1 fmt, MkSpec (number_type q fl) fl base q w prec) in
  let c := ch fmt in
  if c =? 99 then done FORMAT_TYPE_CHAR fl
  else if c =? 115 then done FORMAT_TYPE_STR fl
  else if c =? 112 then (fmt, MkSpec FORMAT_TYPE_PTR fl 10 q w prec)
  else if c =? 110 then done FORMAT_TYPE_NRCHARS fl
  else if c =? 37 then done FORMAT_TYPE_PERCENT_CHAR fl
  else if c =? 111 then num 8 fl
  else if c =? 120 then num 16 (Z.lor fl SMALL)
  else if c =? 88 then num 16 fl
  else if (c =? 100) || (c =? 105) then num 10 (Z.lor fl SIGN)
  else if c =? 117 then num 10 fl
  else (fmt, MkSpec FORMAT_TYPE_INVALID fl 10 q w prec).

(** From the label [precision] on; the base and the qualifier are those of
    the last conversion when the precision is the next argument. *)
Definition decode_precision (fmt : list Z) (fl w : Z) (old : printf_spec) : list Z * printf_spec :=
  if ch fmt =? 46 then
    let fmt := drop 1 fmt in
    if isdigit (ch fmt) then
      let '(i, fmt) := skip_atoi fmt in
      decode_qualifier fmt fl w (if s16 i <? 0 then 0 else s16 i)
    else if ch fmt =? 42 then
      (drop 1 fmt, MkSpec FORMAT_TYPE_PRECISION fl (base old) (qualifier old) w (-1))
    else decode_qualifier fmt fl w (-1)
  else decode_qualifier fmt fl w (-1).

(** The rest of the format and the specification of the token. *)
Definition format_decode (fmt : list Z) (spec : printf_spec) : list Z * printf_spec :=
  match type spec with
  | FORMAT_TYPE_WIDTH =>
      if field_width spec <? 0 then
        decode_precision fmt (Z.lor (flags spec) LEFT) (s16 (- field_width spec)) spec
      else decode_precision fmt (flags spec) (field_width spec) spec
  | FORMAT_TYPE_PRECISION =>
      decode_qualifier fmt (flags spec) (field_width spec)
        (if precision spec <? 0 then 0 else precision spec)
  | _ =>
      if negb (ch fmt =? 37) then
        (text_end fmt, MkSpec FORMAT_TYPE_NONE (flags spec) (base spec) (qualifier spec)
                         (field_width spec) (precision spec))
      else
        let '(fl, fmt) := decode_flags (drop 1 fmt) 0 in
        if isdigit (ch fmt) then
          let '(i, fmt) := skip_atoi fmt in decode_precision fmt fl (s16 i) spec
        else if ch fmt =? 42 then
          (drop 1 fmt, MkSpec FORMAT_TYPE_WIDTH fl (base spec) (qualifier spec) (-1) (precision spec))
        else decode_precision fmt fl (-1) spec
  end.

(** ** [vsnprintf] *)

(** A variadic argument: an [int], a [long] (or [size_t], [ptrdiff_t]), a
    [long long], or a pointer with the bytes found there (up to the NUL when
    it is a string). *)
Inductive arg :=
  | AInt (v : Z)
  | ALong (v : Z)
  | ALongLong (v : Z)
  | APtr (addr : Z) (obj : list Z).

Definition va_int (args : list arg) : option (Z * list arg) :=
  match args with AInt v :: args' => Some (s32 v, args') | _ => None end.
Definition va_long (args : list arg) : option (Z * list arg) :=
  match args with ALong v :: args' => Some (s32 v, args') | _ => None end.
Definition va_longlong (args : list arg) : option (Z * list arg) :=
  match args with ALongLong v :: args' => Some (s64 v, args') | _ => None end.
Definition va_ptr (args : list arg) : option (Z * list Z * list arg) :=
  match args with APtr a obj :: args' => Some (a, obj, args') | _ => None end.

(** The argument of a number, as the [unsigned long long num]. *)
Definition va_num (ty : format_type) (args : list arg) : option (Z * list arg) :=
  match ty with
  | FORMAT_TYPE_LONG_LONG => '(v, args) ← va_longlong args; Some (u64 v, args)
  | FORMAT_TYPE_ULONG | FORMAT_TYPE_SIZE_T => '(v, args) ← va_long args; Some (u32 v, args)
  | FORMAT_TYPE_LONG | FORMAT_TYPE_PTRDIFF => '(v, args) ← va_long args; Some (u64 v, args)
  | FORMAT_TYPE_UBYTE => '(v, args) ← va_int args; Some (u8 v, args)
  | FORMAT_TYPE_BYTE => '(v, args) ← va_int args; Some (u64 (s8 v), args)
  | FORMAT_TYPE_USHORT => '(v, args) ← va_int args; Some (u16 v, args)
  | FORMAT_TYPE_SHORT => '(v, args) ← va_int args; Some (u64 (s16 v), args)
  | FORMAT_TYPE_INT => '(v, args) ← va_int args; Some (u64 v, args)
  | _ => '(v, args) ← va_int args; Some (u32 v, args)
  end.

Definition isalnum (c : Z) : bool := ctrue (Z.land (__ismask c) (Z.lor (Z.lor _U _L) _D)).

Fixpoint skip_alnum (fmt : list Z) : list Z :=
  match fmt with
  | [] => []
  | c :: fmt' => if isalnum c then skip_alnum fmt' else fmt
  end.

Definition set_type (spec : printf_spec) (w prec : Z) : printf_spec :=
  MkSpec (type spec) (flags spec) (base spec) (qualifier spec) w prec.

(** One round of the loop: the token at [fmt] printed. [stores] has the
    numbers stored by [%n], the last one first. *)
Definition vsnprintf_step (env : kenv) (e : Z) (fmt : list Z) (spec : printf_spec) (args : list arg)
    (stores : list Z) (o : out) : option (list Z * printf_spec * list arg * list Z * out) :=
  let old_fmt := fmt in
  let '(fmt, spec) := format_decode fmt spec in
  let read := Z.of_nat (length old_fmt) - Z.of_nat (length fmt) in
  match type spec with
  | FORMAT_TYPE_NONE =>
      b ← (if str o <? e then
             let copy := if e - str o <? read then e - str o else read in
             memcpy_at (ob o) (str o) old_fmt copy
           else Some (ob o));
      Some (fmt, spec, args, stores, MkOut b (str o + read))
  | FORMAT_TYPE_WIDTH =>
      '(v, args) ← va_int args;
      Some (fmt, set_type spec (s16 v) (precision spec), args, stores, o)
  | FORMAT_TYPE_PRECISION =>
      '(v, args) ← va_int args;
      Some (fmt, set_type spec (field_width spec) (s16 v), args, stores, o)
  | FORMAT_TYPE_CHAR =>
      '(w, o) ← (if negb (has (flags spec) LEFT) then pad e 1 32 (field_width spec) o
                 else Some (field_width spec, o));
      '(v, args) ← va_int args;
      o ← put e (u8 v) o;
      '(w, o) ← pad e 1 32 w o;
      Some (fmt, set_type spec w (precision spec), args, stores, o)
  | FORMAT_TYPE_STR =>
      '(a, s, args) ← va_ptr args;
      o ← string e a s spec o;
      Some (fmt, spec, args, stores, o)
  | FORMAT_TYPE_PTR =>
      '(a, obj, args) ← va_ptr args;
      o ← pointer env e (drop 1 fmt) a obj spec o;
      Some (skip_alnum fmt, spec, args, stores, o)
  | FORMAT_TYPE_PERCENT_CHAR | FORMAT_TYPE_INVALID =>
      o ← put e 37 o; Some (fmt, spec, args, stores, o)
  | FORMAT_TYPE_NRCHARS =>
      '(_, _, args) ← va_ptr args;
      Some (fmt, spec, args, str o :: stores, o)
  | ty =>
      '(num, args) ← va_num ty args;
      o ← number e num spec o;
      Some (fmt, spec, args, stores, o)
  end.

Fixpoint vsnprintf_loop (fuel : nat) (env : kenv) (e : Z) (fmt : list Z) (spec : printf_spec)
    (args : list arg) (stores : list Z) (o : out) : option (list Z * out) :=
  match fmt with
  | [] => Some (stores, o)
  | _ =>
      match fuel with
      | O => None
      | S fuel' =>
          '(fmt, spec, args, stores, o) ← vsnprintf_step env e fmt spec args stores o;
          vsnprintf_loop fuel' env e fmt spec args stores o
      end
  end.

Definition spec0 : printf_spec := MkSpec FORMAT_TYPE_NONE 0 0 0 0 0.

(** The value returned, the object at [buf] and what [%n] stored. *)
Record printed := MkPrinted { ret : Z; obuf : list Z; nrchars : list Z }.

(** A round consumes a character, or leaves the state after a [*]. *)
Definition vsnprintf_fuel (fmt : list Z) : nat := 2 * length fmt.

Definition vsnprintf (env : kenv) (buf : Z) (b : list Z) (size : Z) (fmt : list Z) (args : list arg)
  : option printed :=
  if s32 size <? 0 then Some (MkPrinted 0 b [])
  else
    let e := if u32 (buf + size) <? buf then UINT_MAX - buf else size in
    '(stores, o) ← vsnprintf_loop (vsnprintf_fuel fmt) env e fmt spec0 args [] (MkOut b 0);
    b ← (if 0 <? e then
           if str o <? e then zset (ob o) (str o) 0 else zset (ob o) (e - 1) 0
         else Some (ob o));
    Some (MkPrinted (str o) b (rev stores)).

(** [i < size] compares as [size_t]. *)
Definition vscnprintf (env : kenv) (buf : Z) (b : list Z) (size : Z) (fmt : list Z) (args : list arg)
  : option printed :=
  r ← vsnprintf env buf b size fmt args;
  let i := ret r in
  Some (MkPrinted (if u32 i <? size then i else if negb (size =? 0) then size - 1 else 0)
                  (obuf r) (nrchars r)).

Definition snprintf : kenv -> Z -> list Z -> Z -> list Z -> list arg -> option printed := vsnprintf.
Definition scnprintf : kenv -> Z -> list Z -> Z -> list Z -> list arg -> option printed := vscnprintf.
Definition sprintf (env : kenv) (buf : Z) (b : list Z) (fmt : list Z) (args : list arg) : option printed :=
  vsnprintf env buf b INT_MAX fmt args.

Definition plain_env : kenv := MkKenv false 0 false (fun _ _ => []).

Example printf_ex1 :
  (fun r => (ret r, cstr (obuf r))) <$>
    snprintf plain_env 3221225472 (replicate 40 255) 40 (bytes_of "%-6s|%+5d|%#06x|%*.*d")
      [APtr 3221225500 (bytes_of "wlan"); AInt 42; AInt 48879; AInt 7; AInt 3; AInt (-5)]
  = Some (27, bytes_of "wlan  |  +42|0xbeef|   -005").
Proof. vm_compute. reflexivity. Qed.

(** ** What is in the buffer

    Every function prints a text: it does what [puts] does with it, also when
    that runs out of the object. [place p e t b] is the object [b] with the
    characters of [t] at the offsets from [p] on that are below [e], and
    [shown e t o] the state of the output after [t]. *)
Fixpoint place (p e : Z) (t b : list Z) : list Z :=
  match t with
  | [] => b
  | c :: t' => place (p + 1) e t' (if p <? e then <[Z.to_nat p := c]> b else b)
  end.

Definition shown (e : Z) (t : list Z) (o : out) : out :=
  MkOut (place (str o) e t (ob o)) (str o + Z.of_nat (length t)).

Lemma puts_app e t1 t2 o : puts e (t1 ++ t2) o = (o ← puts e t1 o; puts e t2 o).
Proof.
  revert o. induction t1 as [|c t1 IH]; intros o; cbn [puts app]; [done|].
  destruct (put e c o); [apply IH|done].
Qed.

(** The next text of a sequence of outputs. *)
Ltac emit :=
  rewrite ?puts_app;
  match goal with
  | |- _ = puts ?e ?t ?o ≫= _ => destruct (puts e t o) as [?o|]
  | |- _ = puts ?e ?t ?o => destruct (puts e t o) as [?o|]
  end; cbn [fmap option_fmap option_map mbind option_bind]; [|done].

Section output.

Lemma put_puts e c o : put e c o = puts e [c] o.
Proof. cbn [puts]. by destruct (put e c o). Qed.

Lemma puts_str e t o o' : puts e t o = Some o' -> str o' = str o + Z.of_nat (length t).
Proof.
  revert o. induction t as [|c t IH]; intros o; cbn [puts length]; [intros [= <-]; lia|].
  unfold put. destruct (str o <? e).
  - destruct (zset (ob o) (str o) c); [|done]. cbn [mbind option_bind]. intros ->%IH. cbn [str]. lia.
  - cbn [mbind option_bind]. intros ->%IH. cbn [str]. lia.
Qed.

Lemma length_place p e t b : length (place p e t b) = length b.
Proof.
  revert p b. induction t as [|c t IH]; intros p b; cbn [place]; [done|]. rewrite IH.
  destruct (p <? e); [apply length_insert|done].
Qed.

(** [puts] succeeds when the part of the text below [e] is in the object. *)
Lemma puts_shown e t o :
  0 <= str o -> Z.min e (str o + Z.of_nat (length t)) <= Z.of_nat (length (ob o)) ->
  puts e t o = Some (shown e t o).
Proof.
  revert o. induction t as [|c t IH]; intros [b p] Hp He; cbn [puts str ob length] in *.
  - unfold shown. cbn. by rewrite Z.add_0_r.
  - unfold put. cbn [str ob]. destruct (Z.ltb_spec p e) as [Hlt|Hge].
    + rewrite zset_is_Some by lia. cbn [mbind option_bind].
      rewrite IH by (cbn [str ob]; rewrite ?length_insert; lia). unfold shown. cbn [str ob place length].
      destruct (Z.ltb_spec p e); [|lia]. do 2 f_equal. lia.
    + cbn [mbind option_bind]. rewrite IH by (cbn [str ob]; lia). unfold shown. cbn [str ob place length].
      destruct (Z.ltb_spec p e); [lia|]. do 2 f_equal. lia.
Qed.

Lemma puts_beyond e t o : e <= str o -> puts e t o = Some (MkOut (ob o) (str o + Z.of_nat (length t))).
Proof.
  revert o. induction t as [|c t IH]; intros [b p] He; cbn [puts length str ob] in *.
  - by rewrite Z.add_0_r.
  - unfold put. cbn [str ob]. destruct (Z.ltb_spec p e); [lia|]. cbn [mbind option_bind].
    rewrite IH by (cbn [str]; lia). cbn [str ob]. do 2 f_equal. lia.
Qed.

Lemma puts_fault e t o :
  0 <= str o < e -> t <> [] -> Z.of_nat (length (ob o)) < Z.min e (str o + Z.of_nat (length t)) -> puts e t o = None.
Proof.
  revert o. induction t as [|c t IH]; intros [b p] Hp Ht He; [done|]. cbn [puts str ob length] in *.
  unfold put. cbn [str ob]. destruct (Z.ltb_spec p e); [|lia].
  destruct (zset b p c) as [b'|] eqn:E; [|done]. cbn [mbind option_bind].
  pose proof (zset_length _ _ _ _ E) as Hl. destruct (zset_Some_inv _ _ _ _ E) as [Hr _].
  destruct t as [|c' t]; [cbn [length] in *; lia|]. apply IH; [cbn [str]; lia|done|]. cbn [str ob length] in *. lia.
Qed.

Lemma s16_id x : -32768 <= x < 32768 -> s16 x = x.
Proof. apply (wraps_id 16). lia. Qed.

Lemma s16_range x : -32768 <= s16 x < 32768.
Proof. apply (wraps_range 16). lia. Qed.

(** The number of characters a loop [while (lo <= --w)] prints, and the last
    value of [w]. *)
Definition pad_n (lo w : Z) : nat := Z.to_nat (s16 (w - 1) - lo + 1).
Definition pad_w (lo w : Z) : Z := if lo <=? s16 (w - 1) then lo - 1 else s16 (w - 1).

Lemma pad_loop_S n e lo c w o :
  pad_loop (S n) e lo c w o =
    if lo <=? s16 (w - 1) then o ← put e c o; pad_loop n e lo c (s16 (w - 1)) o
    else Some (s16 (w - 1), o).
Proof. done. Qed.

Lemma pad_loop_puts n e lo c w o :
  0 <= lo -> n = pad_n lo w ->
  pad_loop (S n) e lo c w o = (pad_w lo w,.) <$> puts e (replicate n c) o.
Proof.
  revert w o. induction n as [|n IH]; intros w o Hlo Hn; unfold pad_n, pad_w in *;
    pose proof (s16_range (w - 1)); rewrite pad_loop_S; set (v := s16 (w - 1)) in *.
  - by destruct (Z.leb_spec lo v); [lia|].
  - destruct (Z.leb_spec lo v); [|lia]. cbn [replicate puts]. destruct (put e c o) as [o'|]; [|done].
    cbn [mbind option_bind]. rewrite IH by (first [done | rewrite s16_id by lia; lia]).
    rewrite s16_id by lia. destruct (puts e (replicate n c) o'); [|done]. cbn. repeat f_equal.
    destruct (Z.leb_spec lo (v - 1)); lia.
Qed.

Lemma pad_puts e lo c w o :
  0 <= lo -> pad e lo c w o = (pad_w lo w,.) <$> puts e (replicate (pad_n lo w) c) o.
Proof. intros. by apply pad_loop_puts. Qed.

Lemma pad_str_loop_S n e len w o :
  pad_str_loop (S n) e len w o =
    if len <? w then o ← put e 32 o; pad_str_loop n e len (s16 (w - 1)) o
    else Some (s16 (w - 1), o).
Proof. done. Qed.

Lemma pad_str_loop_puts n e len w o :
  0 <= len -> -32768 <= w < 32768 -> n = Z.to_nat (w - len) ->
  pad_str_loop (S n) e len w o =
    (s16 ((if len <? w then len else w) - 1),.) <$> puts e (replicate n 32) o.
Proof.
  revert w o. induction n as [|n IH]; intros w o Hl Hw Hn; rewrite pad_str_loop_S.
  - by destruct (Z.ltb_spec len w); [lia|].
  - destruct (Z.ltb_spec len w); [|lia]. cbn [replicate puts]. destruct (put e 32 o) as [o'|]; [|done].
    cbn [mbind option_bind]. rewrite (s16_id (w - 1)), IH by lia.
    destruct (puts e (replicate n 32) o'); [|done]. cbn. repeat f_equal. destruct (Z.ltb_spec len (w - 1)); lia.
Qed.

Lemma pad_str_puts e len w o :
  0 <= len -> -32768 <= w < 32768 ->
  pad_str e len w o =
    (s16 ((if len <? w then len else w) - 1),.) <$> puts e (replicate (Z.to_nat (w - len)) 32) o.
Proof. intros. by apply pad_str_loop_puts. Qed.

Lemma place_beyond p e t b : e <= p -> place p e t b = b.
Proof.
  revert p. induction t as [|d t IH]; intros p Hp; cbn [place]; [done|].
  destruct (Z.ltb_spec p e); [lia|]. apply IH. lia.
Qed.

(** The whole buffer: the text cut at [e], and the old contents behind it. *)
Lemma place_take p e t b :
  0 <= p <= e -> Z.min e (p + Z.of_nat (length t)) <= Z.of_nat (length b) ->
  place p e t b = take (Z.to_nat p) b ++ take (Z.to_nat (e - p)) t ++
                  drop (Z.to_nat p + Nat.min (length t) (Z.to_nat (e - p)))%nat b.
Proof.
  revert p b. induction t as [|c t IH]; intros p b Hp He; cbn [place].
  - rewrite take_nil. cbn [app length Nat.min]. by rewrite Nat.add_0_r, take_drop.
  - cbn [length] in He. destruct (Z.ltb_spec p e).
    + rewrite IH by (rewrite ?length_insert; lia).
      replace (Z.to_nat (p + 1)) with (S (Z.to_nat p)) by lia.
      replace (Z.to_nat (e - p)) with (S (Z.to_nat (e - (p + 1)))) by lia.
      rewrite (take_S_r _ _ c) by (rewrite list_lookup_insert_eq; [done|lia]).
      rewrite take_insert_ge by lia. cbn [firstn length Nat.min]. rewrite <- app_assoc. cbn [app].
      rewrite drop_insert_lt by lia. by rewrite Nat.add_succ_comm.
    + replace (place (p + 1) e t b) with b.
      * replace (Z.to_nat (e - p)) with 0%nat by lia. rewrite take_0, Nat.min_0_r, Nat.add_0_r.
        cbn [app]. by rewrite take_drop.
      * symmetry. apply place_beyond. lia.
Qed.

End output.

(** ** Digits

    The digits of [n] in base [b], least significant first, and the character
    of a digit. *)
Fixpoint radix_lsb (fuel : nat) (b n : Z) : list Z :=
  match fuel with
  | O => []
  | S fuel' => n mod b :: (if n / b =? 0 then [] else radix_lsb fuel' b (n / b))
  end.

Definition digit_char (small : bool) (d : Z) : Z :=
  if d <? 10 then d + 48 else if small then d + 87 else d + 55.

(** A 64-bit number has at most 22 digits in base 8. *)
Definition digit_text (small : bool) (b n : Z) : list Z :=
  digit_char small <$> rev (radix_lsb 22 b n).

Definition number_base (b : Z) : Prop := b = 8 \/ b = 10 \/ b = 16.

Section digit_proofs.

Lemma radix_lsb_digits f b n : 0 < b -> Forall (fun d => 0 <= d < b) (radix_lsb f b n).
Proof.
  intros Hb. revert n. induction f as [|f IH]; intros n; cbn [radix_lsb]; constructor.
  - apply Z.mod_pos_bound. lia.
  - destruct (_ =? _); [constructor|apply IH].
Qed.

Lemma radix_lsb_dec f n : radix_lsb f 10 n = dec_lsb f n.
Proof. revert n. induction f as [|f IH]; intros n; cbn [radix_lsb dec_lsb]; [done|]. by rewrite IH. Qed.

Lemma radix_lsb_hex f n : radix_lsb f 16 n = hex_lsb f n.
Proof. revert n. induction f as [|f IH]; intros n; cbn [radix_lsb hex_lsb]; [done|]. by rewrite IH. Qed.

Lemma radix_lsb_fuel f k b n :
  1 < b -> 0 <= n < b ^ Z.of_nat f -> (0 < f)%nat -> radix_lsb (f + k) b n = radix_lsb f b n.
Proof.
  intros Hb. revert n. induction f as [|f IH]; intros n Hn Hf; [lia|].
  cbn [radix_lsb Nat.add]. f_equal. destruct (Z.eqb_spec (n / b) 0) as [|Hz]; [done|].
  rewrite Nat2Z.inj_succ, Z.pow_succ_r in Hn by lia.
  destruct f; [destruct Hz; apply Z.div_small; simpl in Hn; lia|]. apply IH; [|lia].
  split; [apply Z.div_pos; lia|]. apply Z.div_lt_upper_bound; lia.
Qed.

Lemma length_radix_lsb f b n : (length (radix_lsb f b n) <= f)%nat.
Proof.
  revert n. induction f as [|f IH]; intros n; cbn [radix_lsb length]; [lia|].
  destruct (_ =? _); cbn [length]; [lia|]. specialize (IH (n / b)). lia.
Qed.

(** The table of digits with the bit of lower case. *)
Lemma digits_get (small : bool) d :
  0 <= d < 16 -> exists c, zget digits d = Some c /\ Z.lor c (if small then 32 else 0) = digit_char small d.
Proof.
  intros Hr. assert (d ∈ seqZ 0 16) as Hd by (apply elem_of_seqZ; lia). clear Hr. revert d Hd.
  apply (proj1 (Forall_forall _ _)).
  destruct small; repeat (constructor; [eexists; split; vm_compute; reflexivity|]); constructor.
Qed.

Lemma digits_loop_S f mask s locase num :
  digits_loop (S f) mask s locase num =
    (d ← zget digits (Z.land (u8 num) mask);
     ds ← (if Z.shiftr num s =? 0 then Some [] else digits_loop f mask s locase (Z.shiftr num s));
     Some (Z.lor d locase :: ds)).
Proof. done. Qed.

Lemma radix_lsb_S f b n :
  radix_lsb (S f) b n = n mod b :: (if n / b =? 0 then [] else radix_lsb f b (n / b)).
Proof. done. Qed.

Lemma u8_mask s num : 1 <= s <= 4 -> Z.land (u8 num) (2 ^ s - 1) = num mod 2 ^ s.
Proof.
  intros Hs. replace (2 ^ s - 1) with (Z.ones s) by (rewrite Z.ones_equiv; lia).
  rewrite Z.land_ones by lia. unfold u8, wrapu. apply Z.mod_mod_divide.
  exists (2 ^ (8 - s)). rewrite <- Z.pow_add_r by lia. f_equal. lia.
Qed.

Lemma digits_loop_spec f s (small : bool) num :
  1 <= s <= 4 -> 0 <= num < (2 ^ s) ^ Z.of_nat (S f) ->
  digits_loop (S f) (2 ^ s - 1) s (if small then 32 else 0) num =
    Some (digit_char small <$> radix_lsb (S f) (2 ^ s) num).
Proof.
  intros Hs. assert (2 <= 2 ^ s <= 16) as Hb.
  { split; [apply (Z.pow_le_mono_r 2 1)|apply (Z.pow_le_mono_r 2 s 4)]; lia. }
  revert num. induction f as [|f IH]; intros num Hn; rewrite Nat2Z.inj_succ, Z.pow_succ_r in Hn by lia.
  all: rewrite digits_loop_S, radix_lsb_S, u8_mask, Z.shiftr_div_pow2 by lia.
  all: pose proof (Z.mod_pos_bound num (2 ^ s) ltac:(lia)).
  all: destruct (digits_get small (num mod 2 ^ s)) as (c & -> & Hc); [lia|].
  all: cbn [mbind option_bind].
  - rewrite (Z.div_small num) by (simpl in Hn; lia). cbn. by rewrite Hc.
  - destruct (Z.eqb_spec (num / 2 ^ s) 0); [cbn; by rewrite Hc|].
    rewrite IH by (split; [apply Z.div_pos; lia|apply Z.div_lt_upper_bound; lia]).
    cbn [mbind option_bind fmap list_fmap]. by rewrite Hc.
Qed.

End digit_proofs.

(** ** What [number] prints *)

Definition number_sign (fl num : Z) : list Z :=
  if has fl SIGN then
    if s64 num <? 0 then [45] else if has fl PLUS then [43] else if has fl SPACE then [32] else []
  else [].

Definition number_mag (fl num : Z) : Z :=
  if has fl SIGN && (s64 num <? 0) then u64 (- s64 num) else num.

Definition number_prefix (fl b : Z) : list Z :=
  if has fl SPECIAL && negb (b =? 10)
  then 48 :: (if b =? 16 then [if has fl SMALL then 120 else 88] else []) else [].

(** The characters, with the field width counted down the way the code does. *)
Definition number_chars (num : Z) (spec : printf_spec) : list Z :=
  let fl := flags spec in
  let ds := digit_text (has fl SMALL) (base spec) (number_mag fl num) in
  let sign := number_sign fl num in
  let pfx := number_prefix fl (base spec) in
  let prec := Z.max (precision spec) (Z.of_nat (length ds)) in
  let w := s16 (field_width spec - Z.of_nat (length sign) - Z.of_nat (length pfx) - prec) in
  let left := has fl LEFT in
  let zero := has fl ZEROPAD && negb left in
  let w1 := if left || zero then w else pad_w 0 w in
  let w2 := if left then w1 else pad_w 0 w1 in
  (if left || zero then [] else replicate (pad_n 0 w) 32) ++ sign ++ pfx ++
  (if left then [] else replicate (pad_n 0 w1) (if zero then 48 else 32)) ++
  replicate (Z.to_nat (prec - Z.of_nat (length ds))) 48 ++ ds ++
  replicate (pad_n 0 w2) 32.

(** A specification as [format_decode] makes it. *)
Record spec_ok (spec : printf_spec) : Prop := {
  sok_flags : byte_range (flags spec);
  sok_base : number_base (base spec);
  sok_width : -32768 <= field_width spec < 32768;
  sok_precision : -32768 <= precision spec < 32768 }.

Section number_proofs.

Lemma s16_sub a b : s16 (s16 a - b) = s16 (a - b).
Proof.
  unfold s16, wraps. f_equal. replace ((a + 2 ^ (16 - 1)) mod 2 ^ 16 - 2 ^ (16 - 1) - b + 2 ^ (16 - 1))
    with ((a + 2 ^ (16 - 1)) mod 2 ^ 16 - b) by lia.
  rewrite Zminus_mod_idemp_l. f_equal. lia.
Qed.

(** Clearing [ZEROPAD] when [LEFT] is set. *)
Lemma flags_left fl :
  byte_range fl ->
  let fl' := if has fl LEFT then Z.land fl (Z.lnot ZEROPAD) else fl in
  has fl' SIGN = has fl SIGN /\ has fl' PLUS = has fl PLUS /\ has fl' SPACE = has fl SPACE /\
  has fl' LEFT = has fl LEFT /\ has fl' ZEROPAD = has fl ZEROPAD && negb (has fl LEFT) /\
  has fl' (ZEROPAD + LEFT) = has fl LEFT || (has fl ZEROPAD && negb (has fl LEFT)) /\
  Z.land fl SMALL = if has fl SMALL then 32 else 0.
Proof.
  intros Hfl. cbv zeta. set (P := fun fl : Z => let fl' := if has fl LEFT then Z.land fl (Z.lnot ZEROPAD) else fl in
    bool_decide (has fl' SIGN = has fl SIGN /\ has fl' PLUS = has fl PLUS /\ has fl' SPACE = has fl SPACE /\
    has fl' LEFT = has fl LEFT /\ has fl' ZEROPAD = has fl ZEROPAD && negb (has fl LEFT) /\
    has fl' (ZEROPAD + LEFT) = has fl LEFT || (has fl ZEROPAD && negb (has fl LEFT)) /\
    Z.land fl SMALL = if has fl SMALL then 32 else 0)).
  eapply bool_decide_eq_true_1. apply (byte_forallb P); [vm_compute; reflexivity|done].
Qed.

Lemma number_mag_range fl num : 0 <= num < 2 ^ 64 -> 0 <= number_mag fl num < 2 ^ 64.
Proof. intros. unfold number_mag. destruct (_ && _); [apply (wrapu_range 64); lia|done]. Qed.

(** The digits of the three bases. *)
Lemma number_digits (small : bool) b n :
  number_base b -> 0 <= n < 2 ^ 64 ->
  (if n =? 0 then Some [48]
   else if negb (b =? 10) then digits_loop 22 (b - 1) (if b =? 16 then 4 else 3) (if small then 32 else 0) n
   else put_dec n) = Some (rev (digit_text small b n)).
Proof.
  intros Hb Hn. unfold digit_text. rewrite <- map_rev, rev_involutive.
  destruct (Z.eqb_spec n 0) as [->|Hz]; [destruct Hb as [->|[->| ->]]; by destruct small|].
  destruct Hb as [->|[->| ->]]; cbn [Z.eqb Pos.eqb negb].
  - apply (digits_loop_spec 21 3); [lia|]. change ((2 ^ 3) ^ Z.of_nat 22) with (2 ^ 66). lia.
  - change (put_dec n) with (put_dec_loop 4 n). rewrite put_dec_loop_spec by lia.
    rewrite (radix_lsb_fuel 20 2), radix_lsb_dec by lia. f_equal. change (5 + 5 * 3)%nat with 20%nat.
    apply list_fmap_ext. intros i d Hd. unfold digit_char.
    pose proof (proj1 (Forall_lookup _ _) (dec_lsb_digits 20 n) i d Hd) as ?. cbn in *.
    destruct (Z.ltb_spec d 10); lia.
  - apply (digits_loop_spec 21 4); [lia|]. change ((2 ^ 4) ^ Z.of_nat 22) with (2 ^ 88). lia.
Qed.

Lemma length_digit_text (small : bool) b n : (1 <= length (digit_text small b n) <= 22)%nat.
Proof.
  unfold digit_text. rewrite length_fmap, length_rev. split; [|apply length_radix_lsb].
  rewrite radix_lsb_S. cbn [length]. lia.
Qed.

Lemma sign_step fl fl' w num :
  has fl' SIGN = has fl SIGN -> has fl' PLUS = has fl PLUS -> has fl' SPACE = has fl SPACE ->
  -32768 <= w < 32768 ->
  (if has fl' SIGN then
     if s64 num <? 0 then (45, u64 (- s64 num), s16 (w - 1))
     else if has fl' PLUS then (43, num, s16 (w - 1))
     else if has fl' SPACE then (32, num, s16 (w - 1))
     else (0, num, w)
   else (0, num, w))
  = (ch (number_sign fl num), number_mag fl num, s16 (w - Z.of_nat (length (number_sign fl num)))).
Proof.
  intros -> -> -> Hw. unfold number_sign, number_mag.
  destruct (has fl SIGN), (s64 num <? 0), (has fl PLUS), (has fl SPACE); try done;
    cbn [andb length Z.of_nat]; by rewrite Z.sub_0_r, (s16_id w).
Qed.

Lemma prefix_width fl b v :
  (if has fl SPECIAL && negb (b =? 10) then if b =? 16 then s16 (s16 (s16 v - 1) - 1) else s16 (s16 v - 1)
   else s16 v) = s16 (v - Z.of_nat (length (number_prefix fl b))).
Proof.
  unfold number_prefix. destruct (_ && _), (b =? 16); cbn [length Z.of_nat Pos.of_succ_nat Pos.succ];
    rewrite ?(s16_sub v 1), ?s16_sub; f_equal; lia.
Qed.

Lemma pad_if (c : bool) e k w o :
  (if c then pad e 0 k w o else Some (w, o)) =
    ((if c then pad_w 0 w else w),.) <$> puts e (if c then replicate (pad_n 0 w) k else []) o.
Proof. by destruct c; [apply pad_puts|]. Qed.

Lemma put_sign e fl num o :
  (if ctrue (ch (number_sign fl num)) then put e (ch (number_sign fl num)) o else Some o) =
    puts e (number_sign fl num) o.
Proof.
  unfold number_sign. destruct (has fl SIGN), (s64 num <? 0), (has fl PLUS), (has fl SPACE);
    try done; apply put_puts.
Qed.

Lemma put_prefix e fl b o :
  Z.land fl SMALL = (if has fl SMALL then 32 else 0) ->
  (if has fl SPECIAL && negb (b =? 10)
   then o ← put e 48 o; if b =? 16 then put e (Z.lor 88 (Z.land fl SMALL)) o else Some o
   else Some o) = puts e (number_prefix fl b) o.
Proof.
  intros ->. unfold number_prefix. destruct (_ && _); [|done]. cbn [puts].
  destruct (put e 48 o) as [o'|]; [|done]. cbn [mbind option_bind]. destruct (b =? 16); [|done].
  rewrite put_puts. by destruct (has fl SMALL).
Qed.

Lemma number_puts e num spec o :
  spec_ok spec -> 0 <= num < 2 ^ 64 -> number e num spec o = puts e (number_chars num spec) o.
Proof.
  intros [Hfl Hb Hw Hp] Hnum. unfold number, number_chars.
  destruct (flags_left _ Hfl) as (E1 & E2 & E3 & E4 & E5 & E6 & E7).
  set (fl' := if has (flags spec) LEFT then _ else _) in *. cbv zeta.
  rewrite (sign_step (flags spec)), prefix_width, E4, E5, E6 by done.
  rewrite E7 at 1. rewrite number_digits by (auto using number_mag_range).
  cbn [mbind option_bind]. rewrite length_rev, rev_involutive.
  set (ds := digit_text _ _ _). pose proof (length_digit_text (has (flags spec) SMALL) (base spec)
    (number_mag (flags spec) num)) as Hd. fold ds in Hd.
  replace (if precision spec <? Z.of_nat (length ds) then Z.of_nat (length ds) else precision spec)
    with (Z.max (precision spec) (Z.of_nat (length ds))) by (destruct (Z.ltb_spec (precision spec) (Z.of_nat (length ds))); lia).
  rewrite s16_sub. set (prec := Z.max _ _). set (w := s16 _). set (left := has (flags spec) LEFT).
  set (zero := has (flags spec) ZEROPAD && negb left).
  replace (if left || zero then [] else replicate (pad_n 0 w) 32)
    with (if negb (left || zero) then replicate (pad_n 0 w) 32 else []) by (by destruct (left || zero)).
  replace (if left || zero then w else pad_w 0 w)
    with (if negb (left || zero) then pad_w 0 w else w) by (by destruct (left || zero)).
  set (w1 := if negb (left || zero) then pad_w 0 w else w).
  replace (if left then [] else replicate (pad_n 0 w1) (if zero then 48 else 32))
    with (if negb left then replicate (pad_n 0 w1) (if zero then 48 else 32) else []) by (by destruct left).
  replace (if left then w1 else pad_w 0 w1) with (if negb left then pad_w 0 w1 else w1) by (by destruct left).
  rewrite pad_if. emit. rewrite put_sign. emit. rewrite put_prefix by done. emit. fold w1. rewrite pad_if. emit.
  rewrite pad_puts by lia. unfold pad_n at 1. rewrite (s16_id (prec - 1)) by lia.
  replace (prec - 1 - Z.of_nat (length ds) + 1) with (prec - Z.of_nat (length ds)) by lia.
  emit. emit. rewrite pad_puts by lia. emit. done.
Qed.

End number_proofs.

(** The text a conversion stands for: the sign, the prefix and the digits
    with at least [precision] of them, filled to the field width with spaces
    in front, with spaces behind or with zeros in front of the digits. *)
Definition number_text (num : Z) (spec : printf_spec) : list Z :=
  let fl := flags spec in
  let ds := digit_text (has fl SMALL) (base spec) (number_mag fl num) in
  let body := replicate (Z.to_nat (precision spec - Z.of_nat (length ds))) 48 ++ ds in
  let head := number_sign fl num ++ number_prefix fl (base spec) in
  let n := Z.to_nat (field_width spec - Z.of_nat (length head) - Z.of_nat (length body)) in
  if has fl LEFT then head ++ body ++ replicate n 32
  else if has fl ZEROPAD then head ++ replicate n 48 ++ body
  else replicate n 32 ++ head ++ body.

(** What is left of the field width: less than 0 when the sign, the prefix and
    the digits are longer. *)
Definition number_room (num : Z) (spec : printf_spec) : Z :=
  field_width spec - Z.of_nat (length (number_sign (flags spec) num)) -
  Z.of_nat (length (number_prefix (flags spec) (base spec))) -
  Z.max (precision spec)
    (Z.of_nat (length (digit_text (has (flags spec) SMALL) (base spec) (number_mag (flags spec) num)))).

(** How often a loop fills a field of which [r] is left. The code keeps [r] in
    16 bits. *)
Definition filled (r : Z) : Z := Z.max 0 (if r <=? -32768 then r + 65536 else r).

(** A later loop counts down once more, past -32768 when [r] was [k], and fills
    then. *)
Definition wrapped (r k : Z) : Z := if r =? k then 32768 else 0.

(** The text, for every width and precision. The loops behind the one that
    fills the field each count once more, and fill when the count passes
    -32768. *)
Definition number_output (num : Z) (spec : printf_spec) : list Z :=
  let fl := flags spec in
  let ds := digit_text (has fl SMALL) (base spec) (number_mag fl num) in
  let body := replicate (Z.to_nat (precision spec - Z.of_nat (length ds))) 48 ++ ds in
  let head := number_sign fl num ++ number_prefix fl (base spec) in
  let r := number_room num spec in
  let fill n c := replicate (Z.to_nat n) c in
  if has fl LEFT then head ++ body ++ fill (filled r) 32
  else if has fl ZEROPAD then head ++ fill (filled r) 48 ++ body ++ fill (wrapped r (-32767)) 32
  else fill (filled r) 32 ++ head ++ fill (wrapped r (-32767)) 32 ++ body ++ fill (wrapped r (-32766)) 32.

(** Widths and precisions for which nothing wraps, whatever the number. *)
Definition width_ok (spec : printf_spec) : Prop :=
  -32700 <= field_width spec /\ precision spec - field_width spec <= 32760.

Section number_texts.

Lemma length_number_sign fl num : (length (number_sign fl num) <= 1)%nat.
Proof. unfold number_sign. destruct (has fl SIGN), (s64 num <? 0), (has fl PLUS), (has fl SPACE); simpl; lia. Qed.

Lemma length_number_prefix fl b : (length (number_prefix fl b) <= 2)%nat.
Proof. unfold number_prefix. destruct (_ && _), (b =? 16); simpl; lia. Qed.

Lemma pad_n_eq w : -32768 <= w < 32768 -> pad_n 0 w = Z.to_nat (if w =? -32768 then 32768 else w).
Proof.
  intros. unfold pad_n. destruct (Z.eqb_spec w (-32768)) as [->|]; [reflexivity|]. rewrite s16_id by lia. lia.
Qed.

Lemma pad_w_eq w : -32768 <= w < 32768 -> pad_w 0 w = if (0 <? w) || (w =? -32768) then -1 else w - 1.
Proof.
  intros. unfold pad_w. destruct (Z.eqb_spec w (-32768)) as [->|]; [reflexivity|]. rewrite s16_id by lia. rewrite orb_false_r.
  zcase; lia.
Qed.

Lemma s16_room r : -98304 <= r < 32768 -> s16 r = if r <? -32768 then r + 65536 else r.
Proof.
  intros Hr. destruct (Z.ltb_spec r (-32768)); [|apply s16_id; lia]. unfold s16, wraps.
  replace (r + 2 ^ (16 - 1)) with (r + 65536 + 32768 + (-1) * 2 ^ 16) by lia. rewrite Z.mod_add, Z.mod_small by lia. lia.
Qed.

Lemma pad_w_cases w : -32768 <= w < 32768 ->
  -32768 <= pad_w 0 w < 0 /\ (pad_w 0 w = -1 /\ (0 < w \/ w = -32768) \/ pad_w 0 w = w - 1 /\ -32768 < w <= 0).
Proof. intros Hw. rewrite pad_w_eq by done. destruct (Z.ltb_spec 0 w), (Z.eqb_spec w (-32768)); cbn [orb]; lia. Qed.

(** The three loops over the same counter. *)
Lemma pads r : -65540 <= r < 32768 ->
  pad_n 0 (s16 r) = Z.to_nat (filled r) /\ pad_n 0 (pad_w 0 (s16 r)) = Z.to_nat (wrapped r (-32767)) /\
  pad_n 0 (pad_w 0 (pad_w 0 (s16 r))) = Z.to_nat (wrapped r (-32766)).
Proof.
  intros Hr. rewrite s16_room by lia. set (w := if r <? -32768 then r + 65536 else r).
  assert (-32768 <= w < 32768) as Hw by (subst w; destruct (Z.ltb_spec r (-32768)); lia).
  destruct (pad_w_cases w Hw) as [Hw1 Hc1]. set (w1 := pad_w 0 w) in *.
  destruct (pad_w_cases w1) as [Hw2 Hc2]; [lia|]. set (w2 := pad_w 0 w1) in *.
  rewrite !pad_n_eq by lia. unfold filled, wrapped. clearbody w1 w2. subst w.
  destruct (Z.ltb_spec r (-32768)), (Z.leb_spec r (-32768)); try lia;
    split_and!; repeat match goal with |- context [?a =? ?b] => destruct (Z.eqb_spec a b) end; lia.
Qed.

Lemma number_chars_output num spec : spec_ok spec -> number_chars num spec = number_output num spec.
Proof.
  intros [_ _ Hw Hp]. unfold number_chars, number_output. cbv zeta.
  assert (-65540 <= number_room num spec < 32768) as Hr.
  { unfold number_room. pose proof (length_digit_text (has (flags spec) SMALL) (base spec) (number_mag (flags spec) num)).
    pose proof (length_number_sign (flags spec) num). pose proof (length_number_prefix (flags spec) (base spec)). lia. }
  destruct (pads _ Hr) as (H1 & H2 & H3). fold (number_room num spec). set (r := number_room num spec) in *.
  set (ds := digit_text _ _ _). replace (Z.to_nat (Z.max (precision spec) (Z.of_nat (length ds)) - Z.of_nat (length ds)))
    with (Z.to_nat (precision spec - Z.of_nat (length ds))) by lia.
  destruct (has (flags spec) LEFT), (has (flags spec) ZEROPAD); cbn [orb andb negb];
    rewrite ?H1, ?H2, ?H3; cbn [app]; by rewrite <- ?app_assoc.
Qed.

Lemma number_output_text num spec : -32766 < number_room num spec -> number_output num spec = number_text num spec.
Proof.
  intros Hr. unfold number_output, number_text. set (ds := digit_text _ _ _).
  assert (Z.to_nat (filled (number_room num spec)) = Z.to_nat (field_width spec -
    Z.of_nat (length (number_sign (flags spec) num ++ number_prefix (flags spec) (base spec))) -
    Z.of_nat (length (replicate (Z.to_nat (precision spec - Z.of_nat (length ds))) 48 ++ ds)))) as <-.
  { unfold filled. destruct (Z.leb_spec (number_room num spec) (-32768)); [lia|]. unfold number_room. fold ds.
    rewrite !length_app, length_replicate. lia. }
  unfold wrapped. destruct (Z.eqb_spec (number_room num spec) (-32767)); [lia|].
  destruct (Z.eqb_spec (number_room num spec) (-32766)); [lia|]. change (Z.to_nat 0) with 0%nat. cbn [replicate].
  by rewrite !app_nil_r.
Qed.

Lemma width_ok_room num spec : width_ok spec -> -32766 < number_room num spec.
Proof.
  intros [Hw Hp]. unfold number_room.
  pose proof (length_digit_text (has (flags spec) SMALL) (base spec) (number_mag (flags spec) num)).
  pose proof (length_number_sign (flags spec) num). pose proof (length_number_prefix (flags spec) (base spec)). lia.
Qed.

Lemma number_chars_text num spec : spec_ok spec -> width_ok spec -> number_chars num spec = number_text num spec.
Proof. intros. by rewrite number_chars_output, number_output_text by auto using width_ok_room. Qed.

End number_texts.

(** ** What [string] and [pointer] print *)

Definition string_chars (addr : Z) (s : list Z) (spec : printf_spec) : list Z :=
  let s := if addr <? PAGE_SIZE then bytes_of "(null)" else s in
  let len := strnlen s (u32 (precision spec)) in
  let w := field_width spec in
  let t := take (Z.to_nat len) s in
  if has (flags spec) LEFT then t ++ replicate (Z.to_nat (w - len)) 32
  else replicate (Z.to_nat (w - len)) 32 ++ t ++
       replicate (Z.to_nat (s16 ((if len <? w then len else w) - 1) - len)) 32.

(** The fields of a specification are in their ranges. *)
Record spec_wf (spec : printf_spec) : Prop := {
  swf_flags : byte_range (flags spec);
  swf_width : -32768 <= field_width spec < 32768;
  swf_precision : -32768 <= precision spec < 32768 }.

Section string_proofs.

Lemma strnlen_range s count : 0 <= strnlen s count <= Z.of_nat (length s).
Proof.
  revert count. induction s as [|c s IH]; intros count; cbn [strnlen length]; [lia|].
  destruct (count =? 0); [lia|]. specialize (IH (count - 1)). lia.
Qed.

Lemma strnlen_all s count : Z.of_nat (length s) <= count -> strnlen s count = Z.of_nat (length s).
Proof.
  revert count. induction s as [|c s IH]; intros count H; cbn [strnlen length] in *; [done|].
  destruct (Z.eqb_spec count 0); [lia|]. rewrite IH by lia. lia.
Qed.

Lemma string_puts e addr s spec o :
  spec_wf spec -> string e addr s spec o = puts e (string_chars addr s spec) o.
Proof.
  intros [_ Hw _]. unfold string, string_chars. cbv zeta.
  set (s' := if addr <? PAGE_SIZE then _ else _).
  pose proof (strnlen_range s' (u32 (precision spec))) as Hl. set (len := strnlen _ _) in *.
  destruct (has (flags spec) LEFT); cbn [negb mbind option_bind].
  - emit. rewrite pad_str_puts by lia. emit. done.
  - rewrite pad_str_puts by lia. emit. emit. rewrite pad_str_puts by (apply s16_range || lia). emit. done.
Qed.

Lemma lor_byte a b : byte_range a -> byte_range b -> byte_range (Z.lor a b).
Proof.
  unfold byte_range. intros Ha Hb. rewrite <- (Z.mod_small a 256), <- (Z.mod_small b 256) by lia.
  rewrite <- !land_255, <- Z.land_lor_distr_l, land_255. apply Z.mod_pos_bound. lia.
Qed.

End string_proofs.

(** ** The array of [resource_string] *)

(** The end of the buffer is not behind the object. *)
Definition fits (e : Z) (o : out) : Prop := 0 <= str o /\ 0 <= e <= Z.of_nat (length (ob o)).

Create HintDb printf.

Section resource_proofs.

Lemma shown_nil e o : shown e [] o = o.
Proof. destruct o. unfold shown. cbn. by rewrite Z.add_0_r. Qed.

Lemma shown_app e t1 t2 o : shown e t2 (shown e t1 o) = shown e (t1 ++ t2) o.
Proof.
  unfold shown. cbn [str ob]. rewrite length_app, Nat2Z.inj_add, Z.add_assoc. f_equal.
  generalize (ob o) as b, (str o) as p. induction t1 as [|c t1 IH]; intros b p; cbn [length app place].
  - by rewrite Z.add_0_r.
  - rewrite <- IH. by rewrite Nat2Z.inj_succ, <- Z.add_1_l, Z.add_assoc.
Qed.

Lemma fits_shown e t o : fits e o -> fits e (shown e t o).
Proof. intros []. split; cbn [shown str ob]; [lia|]. by rewrite length_place. Qed.
#[local] Hint Resolve fits_shown : printf.

Lemma puts_fits e t o : fits e o -> puts e t o = Some (shown e t o).
Proof. intros []. apply puts_shown; lia. Qed.

Lemma length_digits_below (small : bool) k b n :
  1 < b -> (0 < k <= 22)%nat -> 0 <= n < b ^ Z.of_nat k -> (length (digit_text small b n) <= k)%nat.
Proof.
  intros Hb Hk Hn. unfold digit_text. rewrite length_fmap, length_rev.
  replace 22%nat with (k + (22 - k))%nat by lia. rewrite radix_lsb_fuel by lia. apply length_radix_lsb.
Qed.

Lemma length_number_text num spec :
  Z.of_nat (length (number_text num spec)) =
    Z.max (field_width spec)
      (Z.of_nat (length (number_sign (flags spec) num)) + Z.of_nat (length (number_prefix (flags spec) (base spec))) +
       Z.max (precision spec)
         (Z.of_nat (length (digit_text (has (flags spec) SMALL) (base spec) (number_mag (flags spec) num))))).
Proof.
  unfold number_text. destruct (has (flags spec) LEFT), (has (flags spec) ZEROPAD);
    rewrite !length_app, !length_replicate, ?length_app, ?length_replicate; lia.
Qed.

Lemma poke_shown e c o : fits e o -> str o < e -> poke c o = Some (shown e [c] o).
Proof.
  intros Ho Hs. rewrite <- puts_fits, <- put_puts by done. unfold put, poke. by destruct (Z.ltb_spec (str o) e); [|lia].
Qed.

Lemma lit_shown (b : bool) e s o :
  fits e o -> (length s <= 10)%nat ->
  (if b then string e kernel_address s str_spec o else Some o) = Some (shown e (if b then s else []) o).
Proof.
  intros Ho Hs. destruct b; [|by rewrite shown_nil]. 
  rewrite string_puts, puts_fits by (done || (split; unfold byte_range, str_spec, LEFT; cbn; lia)).
  f_equal. f_equal. unfold string_chars. change (has (flags str_spec) LEFT) with true.
  change (kernel_address <? PAGE_SIZE) with false. cbv zeta iota.
  change (u32 (precision str_spec)) with 10. change (field_width str_spec) with (-1).
  rewrite strnlen_all, Nat2Z.id, take_ge by lia. replace (Z.to_nat (-1 - _)) with 0%nat by lia. apply app_nil_r.
Qed.

(** A 32-bit bound takes at most ten characters. *)
Lemma resource_number e num spec o :
  fits e o -> spec_ok spec -> 0 <= num < 2 ^ 32 -> 0 <= field_width spec <= 10 -> precision spec = -1 ->
  has (flags spec) SIGN = false -> base spec = 16 \/ (base spec = 10 /\ has (flags spec) SPECIAL = false) ->
  number e num spec o = Some (shown e (number_text num spec) o) /\ (length (number_text num spec) <= 10)%nat.
Proof.
  intros Ho Hok Hn Hw Hp Hs Hb. split.
  { rewrite number_puts, number_chars_text by (done || lia || (split; lia)). by apply puts_fits. }
  apply Nat2Z.inj_le. rewrite length_number_text, Hp. unfold number_sign, number_mag, number_prefix. rewrite Hs.
  cbn [andb length Z.of_nat]. destruct Hb as [Hb|[Hb Hx]]; rewrite Hb.
  - pose proof (length_digits_below (has (flags spec) SMALL) 8 16 num ltac:(lia) ltac:(lia) ltac:(lia)).
    destruct (_ && _); simpl (length _); lia.
  - rewrite Hx. pose proof (length_digits_below (has (flags spec) SMALL) 10 10 num ltac:(lia) ltac:(lia) ltac:(lia)).
    cbn [andb length]. lia.
Qed.

Lemma resource_kind_spec fl :
  let '(kind, spec, _) := resource_kind fl in
  length kind = 4%nat /\ spec_ok spec /\ 0 <= field_width spec <= 10 /\ precision spec = -1 /\
  has (flags spec) SIGN = false /\ (base spec = 16 \/ (base spec = 10 /\ has (flags spec) SPECIAL = false)).
Proof.
  unfold resource_kind.
  repeat match goal with |- context [if ?c then _ else _] => destruct c end.
  all: split; [reflexivity|]; split; [split; unfold byte_range, number_base, SPECIAL, SMALL, ZEROPAD; cbn; lia|]; cbn.
  all: repeat split; try lia; try reflexivity; auto.
Qed.

(** The bounds of the resource. *)
Definition resource_range (res : resource) (kind : list Z) (spec : printf_spec) : list Z :=
  91 :: kind ++ number_text (res_start res) spec ++
  (if negb (res_start res =? res_end res) then 45 :: number_text (res_end res) spec else []).

Definition flag_spec : printf_spec := MkSpec FORMAT_TYPE_NONE (SPECIAL + SMALL) 16 0 0 (-1).

(** What follows them. *)
Definition resource_flags (fl : Z) (decode : bool) : list Z :=
  if decode then
    (if has fl 1048576 then bytes_of " 64bit" else []) ++ (if has fl 8192 then bytes_of " pref" else []) ++
    (if has fl 2097152 then bytes_of " window" else []) ++ (if has fl 268435456 then bytes_of " disabled" else [])
  else bytes_of " flags " ++ number_text fl flag_spec.

Definition resource_text (res : resource) (fmt : list Z) : list Z :=
  let '(kind, spec, known) := resource_kind (res_flags res) in
  resource_range res kind spec ++ resource_flags (res_flags res) ((ch fmt =? 82) && known) ++ [93].

Record resource_ok (res : resource) : Prop := {
  rok_start : 0 <= res_start res < 2 ^ 32;
  rok_end : 0 <= res_end res < 2 ^ 32;
  rok_flags : 0 <= res_flags res < 2 ^ 32 }.

Lemma flags_shown e fl (decode : bool) o :
  fits e o -> 0 <= fl < 2 ^ 32 ->
  let lit (s : String.string) := string e kernel_address (bytes_of s) str_spec in
  (if decode then
     p ← (if has fl 1048576 then lit " 64bit"%string o else Some o);
     p ← (if has fl 8192 then lit " pref"%string p else Some p);
     p ← (if has fl 2097152 then lit " window"%string p else Some p);
     if has fl 268435456 then lit " disabled"%string p else Some p
   else p ← lit " flags "%string o; number e fl flag_spec p)
  = Some (shown e (resource_flags fl decode) o) /\ (length (resource_flags fl decode) <= 27)%nat.
Proof.
  intros Ho Hfl lit. subst lit. cbv beta. unfold resource_flags. destruct decode.
  - rewrite lit_shown by (done || (cbn; lia)). cbn [mbind option_bind].
    rewrite lit_shown by (auto with printf || (cbn; lia)). cbn [mbind option_bind].
    rewrite lit_shown by (auto with printf || (cbn; lia)). cbn [mbind option_bind].
    rewrite lit_shown by (auto with printf || (cbn; lia)). rewrite !shown_app. split; [done|].
    rewrite !length_app. do 4 (destruct (has fl _)); cbn; lia.
  - rewrite (lit_shown true) by (done || (cbn; lia)). cbn [mbind option_bind].
    destruct (resource_number e fl flag_spec (shown e (bytes_of " flags ") o)) as [-> Hl]; auto with printf.
    + split; unfold byte_range, number_base, flag_spec, SPECIAL, SMALL; cbn; lia.
    + cbn. lia.
    + rewrite shown_app. split; [done|]. rewrite length_app. cbn [length bytes_of]. cbn in *. lia.
Qed.

Lemma resource_sym_shown res fmt sym :
  resource_ok res -> length sym = Z.to_nat SYM_SIZE ->
  resource_sym res fmt sym = Some (shown SYM_SIZE (resource_text res fmt ++ [0]) (MkOut sym 0)) /\
  (length (resource_text res fmt) <= 54)%nat.
Proof.
  intros [Hs He Hf] Hl. unfold resource_sym, resource_text, resource_range.
  pose proof (resource_kind_spec (res_flags res)) as Hk.
  destruct (resource_kind (res_flags res)) as [[kind spec] known]. destruct Hk as (Hkl & Hok & Hw & Hp & Hsg & Hb).
  cbv zeta. set (o := MkOut sym 0). assert (fits SYM_SIZE o) as Ho by (split; cbn; rewrite ?Hl; unfold SYM_SIZE; lia).
  rewrite (poke_shown SYM_SIZE) by done. cbn [mbind option_bind].
  rewrite (lit_shown true) by (auto with printf || lia). cbn [mbind option_bind].
  destruct (resource_number SYM_SIZE (res_start res) spec (shown SYM_SIZE kind (shown SYM_SIZE [91] o)))
    as [-> Hl1]; auto with printf. cbn [mbind option_bind].
  set (range2 := if negb _ then _ else []).
  assert (forall p, fits SYM_SIZE p -> str p < SYM_SIZE ->
    (if negb (res_start res =? res_end res) then p ← poke 45 p; number SYM_SIZE (res_end res) spec p else Some p)
    = Some (shown SYM_SIZE range2 p) /\ (length range2 <= 11)%nat) as H2.
  { intros p Hp' Hlt. subst range2. destruct (negb _); [|rewrite shown_nil; split; [done|simpl; lia]].
    rewrite (poke_shown SYM_SIZE) by done. cbn [mbind option_bind].
    destruct (resource_number SYM_SIZE (res_end res) spec (shown SYM_SIZE [45] p)) as [-> Hl2]; auto with printf.
    rewrite shown_app. split; [done|]. cbn [length]. lia. }
  match goal with |- context [shown SYM_SIZE (number_text ?a ?b) ?q] =>
    destruct (H2 (shown SYM_SIZE (number_text a b) q)) as [-> Hl2] end.
  { auto with printf. }
  { cbn [shown str o length]. rewrite Hkl. unfold SYM_SIZE. lia. }
  cbn [mbind option_bind]. fold flag_spec.
  match goal with |- context [shown SYM_SIZE range2 ?q] =>
    destruct (flags_shown SYM_SIZE (res_flags res) ((ch fmt =? 82) && known) (shown SYM_SIZE range2 q)) as [E Hl3] end;
    [auto 10 with printf|done|]. cbv zeta in E. rewrite E. clear E. cbn [mbind option_bind].
  rewrite !shown_app. rewrite (poke_shown SYM_SIZE) by (auto with printf ||
    (cbn [shown str o]; rewrite !length_app; cbn [length]; unfold SYM_SIZE; lia)).
  cbn [mbind option_bind]. rewrite (poke_shown SYM_SIZE) by (auto with printf ||
    (cbn [shown str o]; rewrite !length_app; cbn [length]; unfold SYM_SIZE; lia)).
  rewrite !shown_app. rewrite <- !app_assoc. cbn [app]. rewrite <- !app_assoc. split; [done|].
  cbn [length]. rewrite !length_app. cbn [length]. lia.
Qed.

End resource_proofs.

(** ** Every pointer format prints a text *)

(** The bytes of the object a format of [pointer] reads; [None] for [%pV]. *)
Definition ptr_need (fmt : list Z) : option nat :=
  let c := ch fmt in
  if (c =? 82) || (c =? 114) then Some 16%nat
  else if (c =? 77) || (c =? 109) then Some 6%nat
  else if ((c =? 73) || (c =? 105)) && (ch_at fmt 1 =? 54) then Some 16%nat
  else if ((c =? 73) || (c =? 105)) && (ch_at fmt 1 =? 52) then Some 4%nat
  else if c =? 85 then Some 16%nat
  else if c =? 86 then None
  else Some 0%nat.

(** The function prints the same text whatever the buffer is. *)
Definition prints (f : Z -> out -> option out) : Prop :=
  exists t, forall e o, f e o = puts e t o.

Section pointer_proofs.

Lemma string_prints addr s spec : spec_wf spec -> prints (fun e => string e addr s spec).
Proof. intros. eexists. intros. by apply string_puts. Qed.

Lemma number_prints num spec : spec_ok spec -> 0 <= num < 2 ^ 64 -> prints (fun e => number e num spec).
Proof. intros. eexists. intros. by apply number_puts. Qed.

Lemma prints_text {A} (x : option A) (f : A -> Z -> out -> option out) :
  is_Some x -> (forall a, prints (f a)) -> prints (fun e o => a ← x; f a e o).
Proof. intros [a ->] H. apply H. Qed.

Lemma mac_loop_total n i addr fmt :
  0 <= i -> i + Z.of_nat n <= Z.of_nat (length addr) -> is_Some (mac_loop n i addr fmt).
Proof.
  revert i. induction n as [|n IH]; intros i Hi Hn; cbn [mac_loop]; [by eexists|].
  destruct (zget_is_Some addr i) as [b ->]; [lia|]. destruct (IH (i + 1)) as [r ->]; [lia|lia|]. by eexists.
Qed.

Lemma ip4_loop_total n i index step lz addr :
  (forall k, 0 <= k < Z.of_nat n -> 0 <= index + k * step < Z.of_nat (length addr)) ->
  is_Some (ip4_loop n i index step lz addr).
Proof.
  revert i index. induction n as [|n IH]; intros i index Hk; cbn [ip4_loop]; [by eexists|].
  destruct (zget_is_Some addr index) as [b ->]; [specialize (Hk 0); lia|].
  destruct (IH (i + 1) (index + step)) as [r ->]; [|by eexists].
  intros k Hk'. specialize (Hk (k + 1)). lia.
Qed.

Lemma ip4_string_total addr fmt : (4 <= length addr)%nat -> is_Some (ip4_string addr fmt).
Proof. intros. unfold ip4_string. destruct (_ || _); apply ip4_loop_total; intros; lia. Qed.

Lemma ip6_loop_total n i addr fmt :
  0 <= i -> 2 * (i + Z.of_nat n) <= Z.of_nat (length addr) -> is_Some (ip6_loop n i addr fmt).
Proof.
  revert i. induction n as [|n IH]; intros i Hi Hn; cbn [ip6_loop]; [by eexists|].
  destruct (zget_is_Some addr (2 * i)) as [b ->]; [lia|].
  destruct (zget_is_Some addr (2 * i + 1)) as [b' ->]; [lia|].
  destruct (IH (i + 1)) as [r ->]; [lia|lia|]. by eexists.
Qed.

Lemma uuid_loop_total i index addr :
  Forall (fun k => 0 <= k < Z.of_nat (length addr)) index -> is_Some (uuid_loop i index addr).
Proof.
  intros H. revert i. induction H as [|k index Hk _ IH]; intros i; cbn [uuid_loop]; [by eexists|].
  destruct (zget_is_Some addr k Hk) as [b ->]. destruct (IH (i + 1)) as [r ->]. by eexists.
Qed.

(** Two rounds never stay at the same word. *)
Lemma ip6c_loop_total fuel i words longest colonpos nc :
  (length words < fuel)%nat -> 1 <= longest -> is_Some (ip6c_loop fuel i words longest colonpos nc).
Proof.
  revert i words nc. induction fuel as [|fuel IH]; intros i words nc Hf Hl; [lia|].
  cbn [ip6c_loop]. destruct words as [|w ws]; [by eexists|]. cbn [length] in Hf. destruct (i =? colonpos).
  - destruct (IH (i + longest) (drop (Z.to_nat longest) (w :: ws)) false) as [[r nc'] ->]; [|done|by eexists].
    rewrite length_drop. cbn [length]. lia.
  - destruct (IH (i + 1) ws true) as [[r nc'] ->]; [lia|done|by eexists].
Qed.

Lemma longest_run_ge i words l c : 1 <= l -> 1 <= (longest_run i words l c).1.
Proof.
  revert i l c. induction words as [|w ws IH]; intros i l c Hl; cbn [longest_run fst]; [done|].
  destruct (Z.ltb_spec l (zero_run (w :: ws))); apply IH; lia.
Qed.

Lemma ip6_compressed_total addr : (16 <= length addr)%nat -> is_Some (ip6_compressed_string addr).
Proof.
  intros Hl. unfold ip6_compressed_string. destruct (Nat.ltb_spec (length addr) 16); [lia|].
  cbn [mbind option_bind]. set (v4 := _ || _). set (words := _ <$> _).
  pose proof (longest_run_ge 0 words 1 (-1) ltac:(lia)) as Hr.
  destruct (longest_run 0 words 1 (-1)) as [longest colonpos]. cbn [fst] in Hr.
  destruct (ip6c_loop_total 9 0 words longest (if longest =? 1 then -1 else colonpos) false) as [[p nc] ->].
  { subst words. rewrite length_fmap, length_seq. destruct v4; lia. }
  { done. }
  cbn [mbind option_bind]. destruct v4; [|by eexists].
  destruct (ip4_string_total (drop 12 (take 16 addr)) (bytes_of "I4")) as [q ->]; [|by eexists].
  rewrite length_drop, length_take. lia.
Qed.

Lemma load_resource_ok obj :
  (16 <= length obj)%nat -> Forall byte_range obj -> exists res, load_resource obj = Some res /\ resource_ok res.
Proof.
  intros Hl Hb. unfold load_resource. destruct (Nat.ltb_spec (length obj) 16); [lia|].
  eexists. split; [reflexivity|].
  assert (forall k, (k + 4 <= length obj)%nat -> 0 <= le_val (take 4 (drop k obj)) < 2 ^ 32) as H4.
  { intros k Hk. pose proof (le_val_range (take 4 (drop k obj)) (Forall_take _ _ _ (Forall_drop _ _ _ Hb))) as Hr.
    rewrite length_take, length_drop, Nat.min_l in Hr by lia. exact Hr. }
  split; cbn; [rewrite <- (drop_0 obj)| |]; apply H4; lia.
Qed.

Lemma resource_prints obj spec fmt :
  (16 <= length obj)%nat -> Forall byte_range obj -> spec_wf spec ->
  prints (fun e => resource_string e obj spec fmt).
Proof.
  intros Hl Hb Hs. destruct (load_resource_ok obj Hl Hb) as (res & Hr & Hok). unfold resource_string. rewrite Hr. cbn [mbind option_bind].
  destruct (resource_sym_shown res fmt (replicate (Z.to_nat SYM_SIZE) 0) Hok) as [-> _]; [apply length_replicate|].
  cbn [mbind option_bind]. by apply string_prints.
Qed.

Lemma spec_ok_wf spec : spec_ok spec -> spec_wf spec.
Proof. by intros []. Qed.

Lemma pointer_prints env fmt ptr obj spec n :
  ptr_need fmt = Some n -> (n <= length obj)%nat -> Forall byte_range obj -> 0 <= ptr < 2 ^ 32 -> spec_ok spec ->
  prints (fun e => pointer env e fmt ptr obj spec).
Proof.
  intros Hn Hl Hb Hp Hok. pose proof (spec_ok_wf _ Hok) as Hwf. unfold pointer. cbv zeta.
  set (wide := if field_width spec =? -1 then 8 else field_width spec).
  assert (-32768 <= wide < 32768) as Hwide by (subst wide; destruct Hwf, (_ =? _); lia).
  assert (spec_wf (MkSpec (type spec) (flags spec) (base spec) (qualifier spec) wide (precision spec))) as Hwd
    by (destruct Hwf; by split).
  set (fl := if field_width spec =? -1 then _ else _).
  assert (byte_range fl) as Hfl.
  { subst fl. destruct Hwf, (_ =? _); repeat apply lor_byte; try done; unfold byte_range, SMALL, ZEROPAD; lia. }
  assert (forall p, 0 <= p < 2 ^ 32 -> prints (fun e => number e p
    (MkSpec (type spec) fl 16 (qualifier spec) wide (precision spec)))) as Hnum.
  { intros p Hp'. apply number_prints; [|lia]. destruct Hwf. split; cbn; auto. by right; right. }
  unfold ptr_need in Hn. destruct (_ && negb _); [by apply string_prints|].
  destruct (_ || _ || _ || _ || _); [by apply string_prints|].
  destruct ((ch fmt =? 82) || _); [injection Hn as <-; by apply resource_prints|].
  destruct ((ch fmt =? 77) || _).
  { injection Hn as <-. apply prints_text; [apply mac_loop_total; lia|]. intros. by apply string_prints. }
  destruct (_ && (ch_at fmt 1 =? 54)).
  { injection Hn as <-. apply prints_text; [|intros; by apply string_prints].
    destruct (_ && _); [by apply ip6_compressed_total|]. apply ip6_loop_total; lia. }
  destruct (_ && (ch_at fmt 1 =? 52)).
  { injection Hn as <-. apply prints_text; [by apply ip4_string_total|]. intros. by apply string_prints. }
  destruct (ch fmt =? 85).
  { injection Hn as <-. apply prints_text; [|intros; by apply string_prints]. apply uuid_loop_total.
    assert (16 <= Z.of_nat (length obj)) as H16 by lia. clear -H16. destruct (_ || _); repeat constructor; lia. }
  destruct (ch fmt =? 86); [done|]. destruct (ch fmt =? 75); [|by apply Hnum].
  destruct (in_interrupt env); [by apply string_prints|]. apply Hnum. destruct (negb _); lia.
Qed.

End pointer_proofs.

(** ** The tokens of a format *)

(** What a conversion takes from the variadic arguments. *)
Inductive kind := KInt | KLong | KLongLong | KStr | KPtr (need : nat) | KVaFormat.

Definition has_kind (k : kind) (a : arg) : Prop :=
  match k, a with
  | KInt, AInt _ | KLong, ALong _ | KLongLong, ALongLong _ => True
  | KStr, APtr addr obj => Forall (fun c => c <> 0) obj /\ 0 <= addr < 2 ^ 32
  | KPtr n, APtr addr obj => (n <= length obj)%nat /\ Forall byte_range obj /\ 0 <= addr < 2 ^ 32
  | _, _ => False
  end.

Definition token_kinds (ty : format_type) (rest : list Z) : list kind :=
  match ty with
  | FORMAT_TYPE_NONE | FORMAT_TYPE_PERCENT_CHAR | FORMAT_TYPE_INVALID => []
  | FORMAT_TYPE_STR => [KStr]
  | FORMAT_TYPE_NRCHARS => [KPtr 0]
  | FORMAT_TYPE_PTR => [match ptr_need (drop 1 rest) with Some n => KPtr n | None => KVaFormat end]
  | FORMAT_TYPE_LONG_LONG => [KLongLong]
  | FORMAT_TYPE_ULONG | FORMAT_TYPE_LONG | FORMAT_TYPE_SIZE_T | FORMAT_TYPE_PTRDIFF => [KLong]
  | _ => [KInt]
  end.

Definition token_rest (ty : format_type) (rest : list Z) : list Z :=
  match ty with FORMAT_TYPE_PTR => skip_alnum rest | _ => rest end.

(** The kinds of the arguments the format asks for, in order. *)
Fixpoint wanted_loop (fuel : nat) (fmt : list Z) (spec : printf_spec) : list kind :=
  match fmt, fuel with
  | [], _ | _, O => []
  | _, S fuel' =>
      let '(rest, spec) := format_decode fmt spec in
      token_kinds (type spec) rest ++ wanted_loop fuel' (token_rest (type spec) rest) spec
  end.

Definition wanted (fmt : list Z) : list kind := wanted_loop (vsnprintf_fuel fmt) fmt spec0.

Example wanted_ex : wanted (bytes_of "%s: %*d %llu %pM%%\n") = [KStr; KInt; KInt; KLongLong; KPtr 6].
Proof. vm_compute. reflexivity. Qed.

(** Signed and unsigned conversions take the same arguments. *)
Definition unsign (ty : format_type) : format_type :=
  match ty with
  | FORMAT_TYPE_LONG => FORMAT_TYPE_ULONG
  | FORMAT_TYPE_BYTE => FORMAT_TYPE_UBYTE
  | FORMAT_TYPE_SHORT => FORMAT_TYPE_USHORT
  | FORMAT_TYPE_INT => FORMAT_TYPE_UINT
  | ty => ty
  end.

(** The token is waiting for the argument of a [*]. *)
Definition pending (ty : format_type) : bool :=
  match ty with FORMAT_TYPE_WIDTH | FORMAT_TYPE_PRECISION => true | _ => false end.

Definition is_text (ty : format_type) : bool :=
  match ty with FORMAT_TYPE_NONE => true | _ => false end.

(** Rounds left: a token that waits may consume nothing once. *)
Definition rounds (fmt : list Z) (ty : format_type) : nat :=
  2 * length fmt + (if pending ty then 1 else 0).

Section decode_proofs.

Lemma decode_flags_facts fmt fl :
  byte_range fl ->
  byte_range (decode_flags fmt fl).1 /\ (length (decode_flags fmt fl).2 <= length fmt)%nat.
Proof.
  revert fl. induction fmt as [|c fmt IH]; intros fl Hfl; cbn [decode_flags fst snd length]; [auto|].
  assert (forall bit, byte_range bit ->
    byte_range (decode_flags fmt (Z.lor fl bit)).1 /\
    (length (decode_flags fmt (Z.lor fl bit)).2 <= S (length fmt))%nat) as H.
  { intros bit Hbit. destruct (IH (Z.lor fl bit) (lor_byte _ _ Hfl Hbit)). split; [done|lia]. }
  repeat case_match; try (apply H; unfold byte_range, LEFT, PLUS, SPACE, SPECIAL, ZEROPAD; lia).
  cbn [fst snd length]. split; [done|lia].
Qed.

Lemma skip_atoi_length fmt : (length (skip_atoi fmt).2 <= length fmt)%nat.
Proof.
  unfold skip_atoi. generalize 0. induction fmt as [|c fmt IH]; intros i; cbn [skip_atoi_loop]; [done|].
  destruct (isdigit c); [|done]. specialize (IH (s32 (i * 10 + c - 48))). cbn [length]. lia.
Qed.

Lemma text_end_length fmt : (length (text_end fmt) <= length fmt)%nat.
Proof. induction fmt as [|c fmt IH]; cbn [text_end length]; [done|]. destruct (c =? 37); cbn [length]; lia. Qed.

Lemma skip_alnum_length fmt : (length (skip_alnum fmt) <= length fmt)%nat.
Proof. induction fmt as [|c fmt IH]; cbn [skip_alnum length]; [done|]. destruct (isalnum c); cbn [length]; lia. Qed.

Lemma number_type_plain q fl : pending (number_type q fl) = false /\ is_text (number_type q fl) = false.
Proof. unfold number_type. repeat case_match; done. Qed.

Lemma unsign_number q fl fl' : unsign (number_type q fl) = unsign (number_type q fl').
Proof. unfold number_type. destruct (has fl SIGN), (has fl' SIGN); repeat case_match; done. Qed.

(** The qualifier and the rest behind it. *)
Definition take_qualifier (fmt : list Z) : Z * list Z :=
  let c := ch fmt in
  if (c =? 104) || (TOLOWER c =? 108) || (TOLOWER c =? 122) || (c =? 116) then
    let fmt := drop 1 fmt in
    if c =? ch fmt then
      if c =? 108 then (76, drop 1 fmt) else if c =? 104 then (72, drop 1 fmt) else (c, fmt)
    else (c, fmt)
  else (255, fmt).

Lemma take_qualifier_length fmt : (length (take_qualifier fmt).2 <= length fmt)%nat.
Proof. unfold take_qualifier. repeat case_match; cbn [snd]; rewrite ?length_drop; lia. Qed.

Lemma decode_qualifier_facts fmt fl w prec :
  byte_range fl -> -32768 <= w < 32768 -> -32768 <= prec < 32768 ->
  let '(rest, spec) := decode_qualifier fmt fl w prec in
  (length rest <= length fmt)%nat /\ spec_ok spec /\ pending (type spec) = false /\ is_text (type spec) = false.
Proof.
  intros Hfl Hw Hp. unfold decode_qualifier. fold (take_qualifier fmt). pose proof (take_qualifier_length fmt) as Hq.
  destruct (take_qualifier fmt) as [q fmt1]. cbn [snd] in Hq. cbv zeta.
  assert (forall b fl ty (rest : list Z), byte_range fl -> number_base b -> (length rest <= length fmt1)%nat ->
    pending ty = false -> is_text ty = false ->
    (length rest <= length fmt)%nat /\ spec_ok (MkSpec ty fl b q w prec) /\ pending ty = false /\ is_text ty = false) as H.
  { intros b fl' ty rest Hf Hb Hr H1 H2. split; [lia|]. split; [by split|]. done. }
  repeat match goal with |- context [if ?c then _ else _] => destruct c end;
    apply H; try done; try (rewrite length_drop; lia);
    try apply number_type_plain; try (unfold number_base; lia);
    apply lor_byte; try done; unfold byte_range, SMALL, SIGN; lia.
Qed.

Lemma decode_qualifier_indep fmt fl w prec fl' w' prec' :
  (decode_qualifier fmt fl w prec).1 = (decode_qualifier fmt fl' w' prec').1 /\
  unsign (type (decode_qualifier fmt fl w prec).2) = unsign (type (decode_qualifier fmt fl' w' prec').2).
Proof.
  unfold decode_qualifier. fold (take_qualifier fmt). destruct (take_qualifier fmt) as [q fmt1]. cbv zeta.
  repeat case_match; cbn [fst snd type]; split; try done; apply unsign_number.
Qed.

Lemma ch_not_nil (fmt : list Z) c : c <> 0 -> ch fmt = c -> (1 <= length fmt)%nat.
Proof. intros Hc. destruct fmt; cbn [length]; [|lia]. cbn. congruence. Qed.

(** What a decoded token satisfies, when it consumed at least [n] characters
    or waits for an argument. *)
Definition decoded (n : nat) (fmt : list Z) (r : list Z * printf_spec) : Prop :=
  (length r.1 + n <= length fmt)%nat /\ spec_wf r.2 /\
  (pending (type r.2) || is_text (type r.2) = true -> (length r.1 < length fmt)%nat) /\
  (pending (type r.2) = false -> is_text (type r.2) = false -> spec_ok r.2).

Lemma decoded_weaken n m k fmt fmt' r :
  decoded n fmt' r -> (length fmt' + k <= length fmt)%nat -> (m <= n + k)%nat -> decoded m fmt r.
Proof. intros (H1 & H2 & H3 & H4) Hl Hm. repeat split; try apply H2; try apply H4; auto; try lia. intros Hp. specialize (H3 Hp). lia. Qed.

Lemma decode_qualifier_decoded fmt fl w prec :
  byte_range fl -> -32768 <= w < 32768 -> -32768 <= prec < 32768 ->
  decoded 0 fmt (decode_qualifier fmt fl w prec).
Proof.
  intros Hfl Hw Hp. pose proof (decode_qualifier_facts fmt fl w prec Hfl Hw Hp) as H. unfold decoded.
  destruct (decode_qualifier fmt fl w prec) as [rest spec]. destruct H as (H1 & H2 & H3 & H4). cbn [fst snd].
  rewrite H3, H4. split; [lia|]. split; [by apply spec_ok_wf|]. done.
Qed.

Lemma decode_precision_decoded fmt fl w old :
  byte_range fl -> -32768 <= w < 32768 -> decoded 0 fmt (decode_precision fmt fl w old).
Proof.
  intros Hfl Hw. unfold decode_precision. destruct (Z.eqb_spec (ch fmt) 46) as [E|_];
    [|by apply decode_qualifier_decoded; try lia].
  pose proof (ch_not_nil fmt 46 ltac:(lia) E) as Hl. assert (length (drop 1 fmt) + 1 = length fmt)%nat as Hd
    by (rewrite length_drop; lia).
  destruct (isdigit (ch (drop 1 fmt))).
  - pose proof (skip_atoi_length (drop 1 fmt)) as Hs. destruct (skip_atoi (drop 1 fmt)) as [i rest]. cbn [snd] in Hs.
    pose proof (s16_range i). eapply (decoded_weaken 0 0 1); [apply decode_qualifier_decoded; try done; case_match; lia|lia|lia].
  - destruct (ch (drop 1 fmt) =? 42).
    + split; cbn [fst snd]; [rewrite length_drop; lia|]. split; [split; cbn; (done || lia)|]. cbn. split; [|done].
      intros _. rewrite length_drop. lia.
    + eapply (decoded_weaken 0 0 1); [by apply decode_qualifier_decoded; try lia|lia|lia].
Qed.

Lemma format_decode_decoded fmt spec :
  spec_wf spec -> fmt <> [] -> decoded (if pending (type spec) then 0 else 1) fmt (format_decode fmt spec).
Proof.
  intros [Hfl Hw Hp] Hne. assert (1 <= length fmt)%nat as Hl by (destruct fmt; [done|cbn; lia]).
  assert (decoded 1 fmt
    (if negb (ch fmt =? 37) then
        (text_end fmt, MkSpec FORMAT_TYPE_NONE (flags spec) (base spec) (qualifier spec)
                         (field_width spec) (precision spec))
      else
        let '(fl, fmt) := decode_flags (drop 1 fmt) 0 in
        if isdigit (ch fmt) then
          let '(i, fmt) := skip_atoi fmt in decode_precision fmt fl (s16 i) spec
        else if ch fmt =? 42 then
          (drop 1 fmt, MkSpec FORMAT_TYPE_WIDTH fl (base spec) (qualifier spec) (-1) (precision spec))
        else decode_precision fmt fl (-1) spec)) as Hnormal.
  { destruct (Z.eqb_spec (ch fmt) 37) as [E|E]; cbn [negb].
    - destruct (decode_flags_facts (drop 1 fmt) 0) as [Hf Hd]; [unfold byte_range; lia|]. rewrite length_drop in Hd.
      destruct (decode_flags (drop 1 fmt) 0) as [fl rest]. cbn [fst snd] in *. destruct (isdigit (ch rest)).
      + pose proof (skip_atoi_length rest) as Hs. destruct (skip_atoi rest) as [i rest']. cbn [snd] in Hs.
        pose proof (s16_range i). eapply (decoded_weaken 0 1 1); [by apply decode_precision_decoded|lia|lia].
      + destruct (ch rest =? 42); [|eapply (decoded_weaken 0 1 1); [apply decode_precision_decoded; [done|lia]|lia|lia]].
        split; cbn [fst snd]; [rewrite length_drop; lia|]. split; [split; cbn; (done || lia)|]. cbn. split; [|done].
        intros _. rewrite length_drop. lia.
    - assert (length (text_end fmt) + 1 <= length fmt)%nat as Ht.
      { destruct fmt as [|c fmt]; [done|]. cbn [text_end]. change (ch (c :: fmt)) with c in E.
        destruct (Z.eqb_spec c 37); [done|]. pose proof (text_end_length fmt). cbn [length]. lia. }
      split; cbn [fst snd type pending is_text orb]; [done|]. split; [by split|]. split; [lia|done]. }
  unfold format_decode. destruct (type spec); cbn [pending]; try exact Hnormal.
  - destruct (Z.ltb_spec (field_width spec) 0).
    + apply decode_precision_decoded; [apply lor_byte; [done|unfold byte_range, LEFT; lia]|apply s16_range].
    + by apply decode_precision_decoded.
  - apply decode_qualifier_decoded; [done|done|]. destruct (Z.ltb_spec (precision spec) 0); lia.
Qed.

Lemma decode_precision_indep fmt fl w old fl' w' old' :
  (decode_precision fmt fl w old).1 = (decode_precision fmt fl' w' old').1 /\
  unsign (type (decode_precision fmt fl w old).2) = unsign (type (decode_precision fmt fl' w' old').2).
Proof.
  unfold decode_precision. destruct (ch fmt =? 46); [|apply decode_qualifier_indep].
  destruct (isdigit (ch (drop 1 fmt))).
  - destruct (skip_atoi (drop 1 fmt)). apply decode_qualifier_indep.
  - destruct (ch (drop 1 fmt) =? 42); [done|]. apply decode_qualifier_indep.
Qed.

Lemma format_decode_indep fmt s s' :
  unsign (type s) = unsign (type s') ->
  (format_decode fmt s).1 = (format_decode fmt s').1 /\
  unsign (type (format_decode fmt s).2) = unsign (type (format_decode fmt s').2).
Proof.
  intros E. unfold format_decode.
  assert (forall x, type s = x -> type s' = x \/ (pending (type s) = false /\ pending (type s') = false)) as H.
  { intros x Hx. destruct (type s), (type s'); try done; auto. }
  destruct (H _ eq_refl) as [->|[H1 H2]].
  - destruct (type s); try (case_match; [done|]; destruct (decode_flags (drop 1 fmt) 0) as [fl rest];
      destruct (isdigit (ch rest)); [destruct (skip_atoi rest); apply decode_precision_indep|];
      destruct (ch rest =? 42); [done|]; apply decode_precision_indep).
    + destruct (_ <? _), (_ <? _); apply decode_precision_indep.
    + apply decode_qualifier_indep.
  - destruct (type s), (type s'); try done;
      (case_match; [done|]; destruct (decode_flags (drop 1 fmt) 0) as [fl rest];
      destruct (isdigit (ch rest)); [destruct (skip_atoi rest); apply decode_precision_indep|];
      destruct (ch rest =? 42); [done|]; apply decode_precision_indep).
Qed.

End decode_proofs.

(** ** The text of a whole format *)

Section format_proofs.
Context (env : kenv).

(** The text between two conversions is copied at once. *)
Lemma memcpy_puts e n old o :
  0 <= str o -> 1 <= n <= Z.of_nat (length old) ->
  (b ← (if str o <? e then memcpy_at (ob o) (str o) old (if e - str o <? n then e - str o else n)
        else Some (ob o));
   Some (MkOut b (str o + n))) = puts e (take (Z.to_nat n) old) o.
Proof.
  destruct o as [b p]. cbn [str ob]. intros Hp Hn.
  assert (length (take (Z.to_nat n) old) = Z.to_nat n) as Hlt by (rewrite length_take; lia).
  destruct (Z.leb_spec (Z.min e (p + n)) (Z.of_nat (length b))) as [Hle|Hgt]; [|destruct (Z.ltb_spec p e)].
  - rewrite puts_shown by (cbn [str ob]; rewrite ?Hlt; lia). unfold shown. cbn [str ob]. rewrite Hlt, Z2Nat.id by lia.
    destruct (Z.ltb_spec p e); [|by rewrite place_beyond].
    set (copy := if e - p <? n then _ else _). assert (copy = Z.min (e - p) n) as Hc by (subst copy; zcase; lia).
    unfold memcpy_at. destruct (Z.leb_spec copy (Z.of_nat (length old))); [|lia].
    destruct (Z.leb_spec (p + copy) (Z.of_nat (length b))); [|lia]. cbn [andb mbind option_bind].
    rewrite place_take by (rewrite ?Hlt; lia). rewrite take_take, Hlt. repeat f_equal; lia.
  - rewrite puts_fault by (cbn [str ob]; rewrite ?Hlt; (lia || (intros Hz; rewrite Hz in Hlt; cbn in Hlt; lia))).
    unfold memcpy_at. destruct (Z.leb_spec (p + (if e - p <? n then e - p else n)) (Z.of_nat (length b))); [|by rewrite andb_false_r].
    destruct (Z.ltb_spec (e - p) n); lia.
  - rewrite puts_beyond by done. cbn [mbind option_bind str ob]. by rewrite Hlt, Z2Nat.id by lia.
Qed.

(** A step that prints [t] and goes on with [fmt'], [args'] and a
    specification of the same type. *)
Definition step_prints (fmt : list Z) (spec : printf_spec) (args : list arg) (stores : list Z) (p : Z)
    (fmt' : list Z) (ty : format_type) (args' : list arg) : Prop :=
  exists spec' stores' t, spec_wf spec' /\ type spec' = ty /\
    forall e o, str o = p ->
      vsnprintf_step env e fmt spec args stores o =
        (o ← puts e t o; Some (fmt', spec', args', stores', o)).

Lemma va_num_total ty rest used more :
  pending ty = false -> is_text ty = false ->
  match ty with
  | FORMAT_TYPE_CHAR | FORMAT_TYPE_STR | FORMAT_TYPE_PTR | FORMAT_TYPE_PERCENT_CHAR
  | FORMAT_TYPE_INVALID | FORMAT_TYPE_NRCHARS => False
  | _ => True
  end ->
  Forall2 has_kind (token_kinds ty rest) used ->
  exists v, va_num ty (used ++ more) = Some (v, more) /\ 0 <= v < 2 ^ 64.
Proof.
  intros Hp Ht Hn H. pose proof (u8_range) as R8. pose proof (u16_range) as R16. pose proof (u32_range) as R32.
  pose proof (fun x => wrapu_range 64 x ltac:(lia)) as R64.
  destruct ty; try done; cbn [token_kinds] in H;
    apply Forall2_cons_inv_l in H as (a & ? & Ha & ->%Forall2_nil_inv_l & ->); destruct a; try done;
    eexists; (split; [reflexivity|]);
    first [apply R64 | specialize (R8 (s32 v)); lia | specialize (R16 (s32 v)); lia | specialize (R32 (s32 v)); lia].
Qed.

Lemma step_char fmt spec rest s1 used more stores p :
  format_decode fmt spec = (rest, s1) -> type s1 = FORMAT_TYPE_CHAR -> spec_wf s1 ->
  Forall2 has_kind [KInt] used ->
  step_prints fmt spec (used ++ more) stores p rest FORMAT_TYPE_CHAR more.
Proof.
  intros Hd Hty [Hfl Hw Hp] H.
  apply Forall2_cons_inv_l in H as (a & ? & Ha & ->%Forall2_nil_inv_l & ->). destruct a; try done. cbn [app].
  set (w1 := if negb (has (flags s1) LEFT) then pad_w 1 (field_width s1) else field_width s1).
  set (t1 := if negb (has (flags s1) LEFT) then replicate (pad_n 1 (field_width s1)) 32 else []).
  assert (forall w, -32768 <= w < 32768 -> -32768 <= pad_w 1 w < 32768) as Hpw.
  { intros w _. unfold pad_w. pose proof (s16_range (w - 1)). destruct (1 <=? _); lia. }
  exists (set_type s1 (pad_w 1 w1) (precision s1)), stores, (t1 ++ [u8 (s32 v)] ++ replicate (pad_n 1 w1) 32).
  split; [|split; [exact Hty|]].
  - split; cbn; auto. apply Hpw. subst w1. destruct (negb _); auto.
  - intros e o Hs. unfold vsnprintf_step. rewrite Hd, Hty.
    assert ((if negb (has (flags s1) LEFT) then pad e 1 32 (field_width s1) o else Some (field_width s1, o)) =
      (w1,.) <$> puts e t1 o) as ->.
    { subst w1 t1. destruct (negb _); [by apply pad_puts|done]. }
    rewrite !puts_app.
    destruct (puts e t1 o) as [o1|]; [|done]. cbn [fmap option_fmap option_map mbind option_bind va_int].
    rewrite put_puts, (puts_app e [_]). destruct (puts e [_] o1) as [o2|]; [|done]. cbn [mbind option_bind].
    rewrite pad_puts by lia. by destruct (puts e _ o2).
Qed.

Lemma step_number fmt spec rest s1 used more stores p :
  format_decode fmt spec = (rest, s1) -> spec_ok s1 -> pending (type s1) = false -> is_text (type s1) = false ->
  match type s1 with
  | FORMAT_TYPE_CHAR | FORMAT_TYPE_STR | FORMAT_TYPE_PTR | FORMAT_TYPE_PERCENT_CHAR
  | FORMAT_TYPE_INVALID | FORMAT_TYPE_NRCHARS => False
  | _ => True
  end ->
  Forall2 has_kind (token_kinds (type s1) rest) used ->
  step_prints fmt spec (used ++ more) stores p rest (type s1) more.
Proof.
  intros Hd Hok Hp Ht Hn H. destruct (va_num_total _ rest used more Hp Ht Hn H) as (v & Hv & Hr).
  exists s1. eexists. eexists. split; [by apply spec_ok_wf|]. split; [done|]. intros e o Hs. unfold vsnprintf_step. rewrite Hd.
  destruct (type s1); try done; rewrite Hv; cbn [mbind option_bind]; by rewrite number_puts.
Qed.

Lemma step_shown fmt spec used more stores p :
  spec_wf spec -> fmt <> [] -> 0 <= p ->
  let '(rest, s1) := format_decode fmt spec in
  Forall2 has_kind (token_kinds (type s1) rest) used ->
  step_prints fmt spec (used ++ more) stores p (token_rest (type s1) rest) (type s1) more.
Proof.
  intros Hwf Hne Hp. pose proof (format_decode_decoded fmt spec Hwf Hne) as Hdec.
  destruct (format_decode fmt spec) as [rest s1] eqn:Hd. destruct Hdec as (Hl & Hwf1 & Hcons & Hok). cbn [fst snd] in *.
  intros H. destruct (type s1) eqn:Hty; cbn [token_kinds token_rest pending is_text orb] in *.
  all: try (apply Forall2_nil_inv_l in H as ->; cbn [app]; exists s1; do 2 eexists; split; [done|split; [done|]];
    intros e o Hs; unfold vsnprintf_step; rewrite Hd, Hty).
  all: try (rewrite put_puts; reflexivity).
  all: try (rewrite <- Hty; apply (step_number fmt spec rest s1 used more stores p Hd);
    [by apply Hok| | | |]; rewrite ?Hty; [done|done|exact I|exact H]).
  all: try (by eapply step_char; eauto).
  - instantiate (1 := take (Z.to_nat (Z.of_nat (length fmt) - Z.of_nat (length rest))) fmt).
    specialize (Hcons eq_refl). rewrite <- memcpy_puts by lia. by destruct (if str o <? e then _ else _).
  - apply Forall2_cons_inv_l in H as (a & ? & Ha & ->%Forall2_nil_inv_l & ->). destruct a; try done. cbn [app].
    exists (set_type s1 (s16 (s32 v)) (precision s1)), stores, []. destruct Hwf1.
    split; [split; cbn; auto using s16_range|]. split; [done|].
    intros e o Hs. unfold vsnprintf_step. rewrite Hd, Hty. done.
  - apply Forall2_cons_inv_l in H as (a & ? & Ha & ->%Forall2_nil_inv_l & ->). destruct a; try done. cbn [app].
    exists (set_type s1 (field_width s1) (s16 (s32 v))), stores, []. destruct Hwf1.
    split; [split; cbn; auto using s16_range|]. split; [done|].
    intros e o Hs. unfold vsnprintf_step. rewrite Hd, Hty. done.
  - apply Forall2_cons_inv_l in H as (a & ? & Ha & ->%Forall2_nil_inv_l & ->). destruct a; try done. cbn [app].
    exists s1. do 2 eexists. split; [done|split; [done|]]. intros e o Hs. unfold vsnprintf_step. rewrite Hd, Hty.
    cbn [mbind option_bind va_ptr]. by rewrite string_puts.
  - apply Forall2_cons_inv_l in H as (a & ? & Ha & ->%Forall2_nil_inv_l & ->).
    destruct (ptr_need (drop 1 rest)) as [n|] eqn:En; destruct a; try done. destruct Ha as (Hn & Hb & Ha).
    destruct (pointer_prints env (drop 1 rest) addr obj s1 n) as [t Ht]; auto. cbn [app].
    exists s1, stores, t. split; [done|split; [done|]]. intros e o Hs. unfold vsnprintf_step. rewrite Hd, Hty.
    cbn [mbind option_bind va_ptr]. by rewrite Ht.
  - apply Forall2_cons_inv_l in H as (a & ? & Ha & ->%Forall2_nil_inv_l & ->). destruct a; try done. cbn [app].
    exists s1, (p :: stores), []. split; [done|split; [done|]]. intros e o Hs. unfold vsnprintf_step. rewrite Hd, Hty.
    cbn. by rewrite Hs.
Qed.

Lemma unsign_token ty ty' rest :
  unsign ty = unsign ty' ->
  token_kinds ty rest = token_kinds ty' rest /\ token_rest ty rest = token_rest ty' rest /\ pending ty = pending ty'.
Proof. by destruct ty, ty'. Qed.

Lemma rounds_decrease fmt spec rest s1 :
  spec_wf spec -> fmt <> [] -> format_decode fmt spec = (rest, s1) ->
  (rounds (token_rest (type s1) rest) (type s1) < rounds fmt (type spec))%nat.
Proof.
  intros Hwf Hne Hd. pose proof (format_decode_decoded fmt spec Hwf Hne) as (H1 & _ & H3 & _). rewrite Hd in *.
  cbn [fst snd] in *. unfold rounds.
  assert (length (token_rest (type s1) rest) <= length rest)%nat.
  { destruct (type s1); cbn [token_rest]; try lia. apply skip_alnum_length. }
  destruct (pending (type s1)), (pending (type spec)); try specialize (H3 eq_refl); lia.
Qed.

Lemma loop_puts fuel fmt spec spec' used more stores p :
  (rounds fmt (type spec) <= fuel)%nat -> spec_wf spec -> 0 <= p -> unsign (type spec) = unsign (type spec') ->
  Forall2 has_kind (wanted_loop fuel fmt spec') used ->
  exists t stores', forall e o, str o = p ->
    vsnprintf_loop fuel env e fmt spec (used ++ more) stores o = (stores',.) <$> puts e t o.
Proof.
  revert fmt spec spec' used stores p. induction fuel as [|fuel IH]; intros fmt spec spec' used stores p Hf Hwf Hp Hu H.
  { destruct fmt; [|unfold rounds in Hf; cbn [length] in Hf; lia]. by exists [], stores. }
  destruct (decide (fmt = [])) as [->|Hne].
  { by exists [], stores. }
  assert (wanted_loop (S fuel) fmt spec' = let '(rest, s) := format_decode fmt spec' in
    token_kinds (type s) rest ++ wanted_loop fuel (token_rest (type s) rest) s) as Hw by (by destruct fmt).
  assert (forall e o, vsnprintf_loop (S fuel) env e fmt spec (used ++ more) stores o =
    ('(fmt, spec, args, stores, o) ← vsnprintf_step env e fmt spec (used ++ more) stores o;
     vsnprintf_loop fuel env e fmt spec args stores o)) as Hv by (intros; by destruct fmt).
  destruct (format_decode_indep fmt spec spec' Hu) as [E1 E2].
  pose proof (rounds_decrease fmt spec) as Hr. pose proof (step_shown fmt spec) as Hstep.
  destruct (format_decode fmt spec) as [rest s1], (format_decode fmt spec') as [rest' s1']. cbn [fst snd] in *. subst rest'.
  destruct (unsign_token _ _ rest E2) as (K1 & K2 & _). rewrite Hw, <- K1, <- K2 in H.
  apply Forall2_app_inv_l in H as (u1 & u2 & Hu1 & Hu2 & ->). rewrite <- app_assoc in *.
  destruct (Hstep u1 (u2 ++ more) stores p Hwf Hne Hp Hu1) as (s2 & st2 & t & Hwf2 & Hty2 & Hst).
  specialize (Hr rest s1 Hwf Hne eq_refl).
  destruct (IH (token_rest (type s1) rest) s2 s1' u2 st2 (p + Z.of_nat (length t))) as (t' & st' & Ht'); auto.
  { rewrite Hty2. lia. } { lia. } { by rewrite Hty2. }
  exists (t ++ t'), st'. intros e o Hs. rewrite Hv, Hst, puts_app by done.
  destruct (puts e t o) as [o'|] eqn:Ho; [|done]. cbn [mbind option_bind]. apply Ht'.
  rewrite (puts_str _ _ _ _ Ho). lia.
Qed.

End format_proofs.

(** The object after a text was printed into the first [size] bytes of it. *)
Definition printed_buf (size : Z) (t b : list Z) : list Z :=
  if size =? 0 then b
  else let t := if Z.of_nat (length t) <? size then t else take (Z.to_nat (size - 1)) t in
       t ++ 0 :: drop (S (length t)) b.

(** [end - buf], for a buffer of [size] bytes at the address [buf]. *)
Definition end_of (buf size : Z) : Z := if u32 (buf + size) <? buf then UINT_MAX - buf else size.

Section contract.
Context (env : kenv).

Lemma insert_drop {A} (t b : list A) x :
  (length t < length b)%nat -> <[length t := x]> (t ++ drop (length t) b) = t ++ x :: drop (S (length t)) b.
Proof.
  intros Hl. rewrite insert_app_r_alt, Nat.sub_diag by lia. f_equal.
  destruct (drop (length t) b) as [|y l] eqn:E.
  - apply (f_equal length) in E. rewrite length_drop in E. cbn in E. lia.
  - cbn. f_equal. symmetry. rewrite <- Nat.add_1_r, <- drop_drop, E. done.
Qed.

(** The characters and the NUL at the end. *)
Lemma place_nul e t b :
  0 < e -> Z.min e (Z.of_nat (length t) + 1) <= Z.of_nat (length b) ->
  (if Z.of_nat (length t) <? e then zset (place 0 e t b) (Z.of_nat (length t)) 0
   else zset (place 0 e t b) (e - 1) 0) = Some (printed_buf e t b).
Proof.
  intros He Hb. rewrite place_take by lia. change (Z.to_nat 0) with 0%nat. rewrite take_0, Z.sub_0_r.
  cbn [app Nat.add]. unfold printed_buf.
  destruct (Z.eqb_spec e 0); [lia|]. destruct (Z.ltb_spec (Z.of_nat (length t)) e) as [Hl|Hl].
  - rewrite (take_ge t), Nat.min_l by lia. rewrite zset_is_Some by (rewrite length_app, length_drop; lia).
    by rewrite Nat2Z.id, insert_drop by lia.
  - rewrite Nat.min_r by lia. rewrite length_take, Nat.min_l by lia.
    rewrite zset_is_Some by (rewrite length_app, length_take, length_drop; lia). f_equal.
    replace (Z.to_nat e) with (S (Z.to_nat (e - 1))) by lia.
    destruct (lookup_lt_is_Some_2 t (Z.to_nat (e - 1))) as [x Hx]; [lia|].
    rewrite (take_S_r t _ x Hx), <- app_assoc. rewrite insert_app_r_alt by (rewrite length_take; lia).
    by rewrite length_take, Nat.min_l, Nat.sub_diag by lia.
Qed.

(** With arguments that fit the format, every call prints the same text; it
    faults when the text does not fit an object smaller than it was told. *)
Lemma vsnprintf_text fmt used more :
  Forall2 has_kind (wanted fmt) used ->
  exists t stores, forall buf b size,
    0 <= size < 2 ^ 31 -> 0 <= end_of buf size ->
    vsnprintf env buf b size fmt (used ++ more) =
      if Z.min (end_of buf size) (Z.of_nat (length t) + 1) <=? Z.of_nat (length b)
      then Some (MkPrinted (Z.of_nat (length t)) (printed_buf (end_of buf size) t b) stores) else None.
Proof.
  intros H. destruct (loop_puts env (vsnprintf_fuel fmt) fmt spec0 spec0 used more [] 0) as (t & st & Ht); auto.
  { unfold rounds, vsnprintf_fuel. cbn. lia. }
  { split; cbn; unfold byte_range; lia. } { lia. }
  exists t, (rev st). intros buf b size Hsize He. unfold vsnprintf. rewrite s32_id by lia.
  destruct (Z.ltb_spec size 0); [lia|]. fold (end_of buf size). set (e := end_of buf size) in *. rewrite Ht by done.
  destruct (Z.leb_spec (Z.min e (Z.of_nat (length t) + 1)) (Z.of_nat (length b))) as [Hle|Hgt].
  - rewrite puts_shown by (cbn [str ob]; lia). cbn [fmap option_fmap option_map mbind option_bind shown str ob].
    rewrite Z.add_0_l. destruct (Z.ltb_spec 0 e).
    + by rewrite place_nul by lia.
    + cbn [mbind option_bind]. rewrite place_beyond by lia. unfold printed_buf. by destruct (Z.eqb_spec e 0); [|lia].
  - destruct (Z.leb_spec (Z.min e (Z.of_nat (length t))) (Z.of_nat (length b))).
    + rewrite puts_shown by (cbn [str ob]; lia). cbn [fmap option_fmap option_map mbind option_bind shown str ob].
      rewrite Z.add_0_l. destruct (Z.ltb_spec 0 e); [|lia]. destruct (Z.ltb_spec (Z.of_nat (length t)) e); [|lia].
      destruct (zset _ _ _) eqn:E; [|done]. apply zset_Some_inv in E as [E _]. rewrite length_place in E. lia.
    + rewrite puts_fault by (cbn [str ob]; (lia || (intros ->; cbn in *; lia))). done.
Qed.

End contract.

(** ** Reading back what was printed *)

Section read_back.

Fixpoint radix_val (b : Z) (ds : list Z) : Z :=
  match ds with [] => 0 | d :: ds' => d + b * radix_val b ds' end.

Lemma radix_val_lsb f b n : 1 < b -> 0 <= n < b ^ Z.of_nat f -> radix_val b (radix_lsb f b n) = n.
Proof.
  intros Hb. revert n. induction f as [|f IH]; intros n Hn; [simpl in *; lia|].
  rewrite Nat2Z.inj_succ, Z.pow_succ_r in Hn by lia. cbn [radix_lsb].
  pose proof (Z.div_mod n b ltac:(lia)). destruct (Z.eqb_spec (n / b) 0); cbn [radix_val]; [lia|].
  rewrite IH; [lia|]. split; [apply Z.div_pos; lia|]. apply Z.div_lt_upper_bound; lia.
Qed.

(** The digit loop of [simple_strtoull], as a sum. *)
Definition read_digits (b r : Z) (ds : list Z) : Z := foldl (fun r d => u64 (r * b + d)) r ds.

Lemma read_digits_rev b ds : read_digits b 0 (rev ds) = u64 (radix_val b ds).
Proof.
  unfold read_digits. induction ds as [|d ds IH]; cbn [rev radix_val]; [done|].
  rewrite foldl_app, IH. cbn [foldl]. unfold u64, wrapu.
  rewrite <- Zplus_mod_idemp_l, Zmult_mod_idemp_l, Zplus_mod_idemp_l. f_equal. lia.
Qed.

Lemma digit_char_facts (small : bool) d :
  0 <= d < 16 -> let c := digit_char small d in
  isxdigit c = true /\ (if isdigit c then u32 (c - 48) else u32 (TOLOWER c - 97 + 10)) = d /\
  (TOLOWER c =? 120) = false /\ (c =? 45) = false.
Proof.
  intros Hr. assert (d ∈ seqZ 0 16) as Hd by (apply elem_of_seqZ; lia). clear Hr. revert d Hd.
  apply (proj1 (Forall_forall _ _)). destruct small; repeat (constructor; [vm_compute; repeat split; reflexivity|]); constructor.
Qed.

Lemma strtoull_loop_radix (small : bool) b r ds rest :
  0 < b <= 16 -> Forall (fun d => 0 <= d < b) ds -> isxdigit (ch rest) = false ->
  strtoull_loop b r ((digit_char small <$> ds) ++ rest) = (read_digits b r ds, rest).
Proof.
  intros Hb Hds Hr. revert r. induction Hds as [|d ds Hd _ IH]; intros r; cbn [fmap list_fmap app].
  - destruct rest as [|c rest]; [done|]. cbn [strtoull_loop]. change (ch (c :: rest)) with c in Hr. by rewrite Hr.
  - cbn [strtoull_loop]. destruct (digit_char_facts small d) as (H1 & H2 & _); [lia|]. cbv zeta in *. rewrite H1, H2.
    destruct (Z.leb_spec b d); [lia|]. apply IH.
Qed.

(** Zeros in front and the digits of [n]. *)
Lemma read_zeros b k ds : read_digits b 0 (replicate k 0 ++ ds) = read_digits b 0 ds.
Proof. unfold read_digits. rewrite foldl_app. f_equal. induction k as [|k IH]; [done|]. apply IH. Qed.

Lemma zeros_digits (small : bool) k b n :
  replicate k 48 ++ digit_text small b n = digit_char small <$> (replicate k 0 ++ rev (radix_lsb 22 b n)).
Proof. unfold digit_text. rewrite fmap_app, fmap_replicate. by destruct small. Qed.

Lemma strtoull_zeros_digits (small : bool) k b n rest :
  number_base b -> 0 <= n < 2 ^ 64 -> isxdigit (ch rest) = false -> TOLOWER (ch rest) <> 120 ->
  simple_strtoull (replicate k 48 ++ digit_text small b n ++ rest) b = (n, rest) /\
  strtoull_loop b 0 (replicate k 48 ++ digit_text small b n ++ rest) = (n, rest).
Proof.
  intros Hb Hn Hr Hx. rewrite app_assoc, zeros_digits. set (ds := replicate k 0 ++ _).
  assert (2 <= b <= 16) as Hb' by (destruct Hb as [->|[->| ->]]; lia).
  assert (Forall (fun d => 0 <= d < b) ds) as Hds.
  { apply Forall_app. split; [apply Forall_replicate; lia|]. apply Forall_rev, radix_lsb_digits. lia. }
  assert (strtoull_loop b 0 ((digit_char small <$> ds) ++ rest) = (n, rest)) as Hloop.
  { rewrite strtoull_loop_radix by (done || lia). subst ds. rewrite read_zeros, read_digits_rev, radix_val_lsb.
    - unfold u64. by rewrite wrapu_id.
    - lia.
    - split; [lia|]. eapply Z.lt_le_trans; [apply Hn|]. destruct Hb as [->|[->| ->]]; lia. }
  split; [|done]. unfold simple_strtoull. destruct (Z.eqb_spec b 0); [lia|].
  replace (_ && _ && _) with false; [done|]. symmetry. apply andb_false_iff. right.
  assert (ds <> []) as Hne by (subst ds; rewrite radix_lsb_S; cbn [rev];
    intros E%(f_equal length); rewrite !length_app in E; cbn [length] in E; lia).
  clearbody ds. destruct ds as [|d [|d' ds]]; cbn [fmap list_fmap app]; [done| |].
  - destruct rest as [|c rest]; [done|]. apply Z.eqb_neq. exact Hx.
  - assert (0 <= d' < b) as Hd' by (apply Forall_cons in Hds as [_ [? _]%Forall_cons]; done).
    apply (digit_char_facts small d'). lia.
Qed.

End read_back.

(** The conversion fills no field with spaces. *)
Definition no_spaces (spec : printf_spec) : Prop :=
  field_width spec <= 0 \/ (has (flags spec) ZEROPAD = true /\ has (flags spec) LEFT = false).

Section number_read_back.

(** Without spaces the text is the sign, the prefix, zeros and the digits. *)
Lemma number_text_plain num spec :
  no_spaces spec -> exists k,
  number_text num spec = number_sign (flags spec) num ++ number_prefix (flags spec) (base spec) ++
    replicate k 48 ++ digit_text (has (flags spec) SMALL) (base spec) (number_mag (flags spec) num).
Proof.
  intros H. unfold number_text. set (ds := digit_text _ _ _). set (k := Z.to_nat (precision spec - _)).
  set (n := Z.to_nat (_ - _ - _)). destruct H as [Hw|[-> ->]].
  - exists k. assert (n = 0%nat) as -> by lia. destruct (has (flags spec) LEFT), (has (flags spec) ZEROPAD);
      cbn [replicate app]; by rewrite ?app_nil_r, <- ?app_assoc.
  - exists (n + k)%nat. rewrite replicate_add, <- !app_assoc. done.
Qed.

Lemma prefix_strtoull fl (small : bool) k b n rest :
  number_base b -> 0 <= n < 2 ^ 64 -> isxdigit (ch rest) = false -> TOLOWER (ch rest) <> 120 ->
  simple_strtoull (number_prefix fl b ++ replicate k 48 ++ digit_text small b n ++ rest) b = (n, rest).
Proof.
  intros Hb Hn Hr Hx. unfold number_prefix. destruct (has fl SPECIAL && negb (b =? 10)) eqn:E;
    [|by apply strtoull_zeros_digits].
  destruct Hb as [->|[->| ->]]; [|by rewrite andb_false_r in E|]; cbn [Z.eqb Pos.eqb].
  - change ([48] ++ replicate k 48 ++ ?x) with (replicate (S k) 48 ++ x). apply strtoull_zeros_digits; auto. by left.
  - unfold simple_strtoull. cbn [Z.eqb Pos.eqb app]. set (t := replicate k 48 ++ _).
    assert ((ch (48 :: (if has fl SMALL then 120 else 88) :: t) =? 48) &&
      (TOLOWER (ch_at (48 :: (if has fl SMALL then 120 else 88) :: t) 1) =? 120) = true) as E2
      by (by destruct (has fl SMALL)).
    cbn [andb]. rewrite E2. change (drop 2 (48 :: ?c :: t)) with t. subst t.
    apply strtoull_zeros_digits; auto. by right; right.
Qed.

Lemma simple_strtoll_neg t b : simple_strtoll (45 :: t) b =
  (s64 (u64 (- (simple_strtoull t b).1)), (simple_strtoull t b).2).
Proof.
  unfold simple_strtoll. change (ch (45 :: t) =? 45) with true. change (drop 1 (45 :: t)) with t. cbn iota.
  by destruct (simple_strtoull t b).
Qed.

Lemma simple_strtoll_pos t b : ch t <> 45 -> simple_strtoll t b = (s64 (simple_strtoull t b).1, (simple_strtoull t b).2).
Proof. intros H. unfold simple_strtoll. destruct (Z.eqb_spec (ch t) 45); [done|]. by destruct (simple_strtoull t b). Qed.

Lemma number_head fl (small : bool) k b n rest :
  number_base b -> ch (number_prefix fl b ++ replicate k 48 ++ digit_text small b n ++ rest) <> 45.
Proof.
  intros Hb. unfold number_prefix. destruct (_ && _); [done|]. cbn [app]. rewrite app_assoc, zeros_digits.
  assert (0 < b <= 16) as Hb' by (destruct Hb as [->|[->| ->]]; lia).
  assert (Forall (fun d => 0 <= d < b) (replicate k 0 ++ rev (radix_lsb 22 b n))) as Hds.
  { apply Forall_app. split; [apply Forall_replicate; lia|]. apply Forall_rev, radix_lsb_digits. lia. }
  destruct (replicate k 0 ++ rev (radix_lsb 22 b n)) as [|d ds] eqn:E.
  - apply (f_equal length) in E. rewrite length_app, radix_lsb_S in E. cbn [rev] in E.
    rewrite length_app in E. cbn [length] in E. lia.
  - apply Forall_cons in Hds as [Hd _]. apply Z.eqb_neq, (digit_char_facts small d). lia.
Qed.

(** A plus or a space is no digit. *)
Lemma strtoll_stops c t b : c = 43 \/ c = 32 -> number_base b -> simple_strtoll (c :: t) b = (0, c :: t).
Proof.
  intros Hc Hb. rewrite simple_strtoll_pos by (by destruct Hc as [->| ->]). unfold simple_strtoull.
  destruct Hb as [->|[->| ->]], Hc as [->| ->]; done.
Qed.

Lemma mag_back num :
  0 <= num < 2 ^ 64 ->
  s64 num < 0 -> s64 (u64 (- u64 (- s64 num))) = s64 num.
Proof. intros Hn Hs. unfold s64, u64, wraps, wrapu in *. change (64 - 1) with 63 in *. dlia. Qed.

End number_read_back.

(** C17: For every 64-bit number and every specification of [format_decode],
    [number] prints [number_output]: sign, prefix and at least [precision]
    digits of the number in base 8, 10 or 16, with the filling of its loops on
    the sides the flags say, although the code counts one 16-bit field down
    through all of them. When what has to be shown is less than 32766
    characters longer than the field width, that is the text the conversion
    means: it is filled to the field width with spaces in front, spaces behind
    or zeros in front of the digits, and exactly as long as the field width
    or, where that is more, as what it has to show. Otherwise the counter
    wraps around and a loop fills in up to 32768 characters too many (see
    [width_underflow]). *)
Theorem number_correct (e num : Z) (spec : printf_spec) (o : out) :
  spec_ok spec -> 0 <= num < 2 ^ 64 ->
  number e num spec o = puts e (number_output num spec) o /\
  (-32766 < number_room num spec ->
   number_output num spec = number_text num spec /\
   Z.of_nat (length (number_text num spec)) =
     Z.max (field_width spec)
       (Z.of_nat (length (number_sign (flags spec) num)) + Z.of_nat (length (number_prefix (flags spec) (base spec))) +
        Z.max (precision spec)
          (Z.of_nat (length (digit_text (has (flags spec) SMALL) (base spec) (number_mag (flags spec) num)))))).
Proof.
  intros Hok Hn. rewrite number_puts, number_chars_output by done. split; [done|]. intros Hr.
  split; [by apply number_output_text|apply length_number_text].
Qed.

Definition spec_ex : printf_spec := MkSpec FORMAT_TYPE_INT (SIGN + ZEROPAD) 10 255 8 (-1).

Lemma number_correct_witness :
  number 20 (u64 (-1234)) spec_ex (MkOut (replicate 20 0) 0) = Some (MkOut (bytes_of "-0001234" ++ replicate 12 0) 8) /\
  Z.of_nat (length (number_text (u64 (-1234)) spec_ex)) = 8.
Proof.
  destruct (number_correct 20 (u64 (-1234)) spec_ex (MkOut (replicate 20 0) 0)) as [H1 H2].
  - split; unfold byte_range, number_base, spec_ex; vm_compute; intuition discriminate.
  - vm_compute. split; [discriminate|reflexivity].
  - destruct H2 as [H2 H3]; [vm_compute; reflexivity|]. rewrite H1, H2, H3. split; vm_compute; reflexivity.
Defined.

(** C34: What [number] prints without filling spaces (a field width of at most
    0, or zeros as filling) is read back in the same base, whatever the prefix, the
    case of the digits and the zeros in front. It is followed by nothing, or
    by a text whose first character is neither a hexadecimal digit nor an x;
    what has to be shown is less than 32766 characters longer than the field
    width. An unsigned number is read back by [simple_strtoull]; a signed one
    by [simple_strtoll], unless it is shown with a plus or a space in front,
    at which [simple_strtoll] stops and gives 0. *)
Theorem number_read_back (num : Z) (spec : printf_spec) (rest : list Z) :
  spec_ok spec -> no_spaces spec -> -32766 < number_room num spec -> 0 <= num < 2 ^ 64 ->
  isxdigit (ch rest) = false -> TOLOWER (ch rest) <> 120 ->
  exists text, (forall e o, number e num spec o = puts e text o) /\
    (has (flags spec) SIGN = false -> simple_strtoull (text ++ rest) (base spec) = (num, rest)) /\
    (has (flags spec) SIGN = true -> simple_strtoll (text ++ rest) (base spec) =
       if (s64 num <? 0) || (negb (has (flags spec) PLUS) && negb (has (flags spec) SPACE))
       then (s64 num, rest) else (0, text ++ rest)).
Proof.
  intros Hok Hs Hroom Hn Hr Hx. pose proof (sok_base _ Hok) as Hb. exists (number_text num spec). split.
  { intros e o. by rewrite number_puts, number_chars_output, number_output_text. }
  destruct (number_text_plain num spec Hs) as [k ->]. rewrite <- !app_assoc.
  split; unfold number_sign, number_mag.
  - intros ->. cbn [andb app]. by apply prefix_strtoull.
  - intros ->. destruct (Z.ltb_spec (s64 num) 0); cbn [andb orb app].
    + rewrite simple_strtoll_neg, prefix_strtoull by (done || apply (wrapu_range 64); lia). cbn [fst snd].
      by rewrite mag_back.
    + destruct (has (flags spec) PLUS), (has (flags spec) SPACE); cbn [negb andb app]; try (apply strtoll_stops; auto).
      rewrite simple_strtoll_pos by (by apply number_head). by rewrite prefix_strtoull.
Qed.

Lemma number_read_back_witness :
  exists text, number 20 (u64 (-77)) (MkSpec FORMAT_TYPE_INT (SIGN + SPECIAL) 16 255 (-1) 5) (MkOut (replicate 20 0) 0) =
      puts 20 text (MkOut (replicate 20 0) 0) /\
    simple_strtoll (text ++ [10]) 16 = (-77, [10]).
Proof.
  destruct (number_read_back (u64 (-77)) (MkSpec FORMAT_TYPE_INT (SIGN + SPECIAL) 16 255 (-1) 5) [10]) as (text & H1 & _ & H2);
    try reflexivity.
  - split; unfold byte_range, number_base; vm_compute; intuition discriminate.
  - left. vm_compute. discriminate.
  - vm_compute. split; [discriminate|reflexivity].
  - vm_compute. discriminate.
  - exists text. split; [apply H1|exact (H2 eq_refl)].
Defined.

Section callers.

Lemma end_of_nonneg buf size : buf < 2 ^ 32 -> 0 <= size -> 0 <= end_of buf size.
Proof. intros. unfold end_of, UINT_MAX. destruct (_ <? _); lia. Qed.

(** A size whose sign bit is set is refused. *)
Lemma vsnprintf_negative env buf b size fmt args :
  2 ^ 31 <= size < 2 ^ 32 -> vsnprintf env buf b size fmt args = Some (MkPrinted 0 b []).
Proof.
  intros Hs. unfold vsnprintf. destruct (Z.ltb_spec (s32 size) 0) as [_|Hge]; [done|].
  unfold s32, wraps in Hge. change (2 ^ (32 - 1)) with (2 ^ 31) in Hge.
  replace (size + 2 ^ 31) with (size - 2 ^ 31 + 1 * 2 ^ 32) in Hge by lia. rewrite Z.mod_add, Z.mod_small in Hge by lia. lia.
Qed.

Lemma end_of_small buf size : 0 <= buf -> 0 <= size -> buf + size < 2 ^ 32 -> end_of buf size = size.
Proof. intros. unfold end_of. rewrite u32_id by lia. by destruct (Z.ltb_spec (buf + size) buf); [lia|]. Qed.

(** For [INT_MAX] the end is the end of the address space, or further away
    than any object. *)
Lemma end_of_int_max buf n :
  0 <= buf -> 0 <= n < INT_MAX -> buf + n < UINT_MAX -> n < end_of buf INT_MAX.
Proof.
  unfold end_of, INT_MAX, UINT_MAX. intros. unfold u32, wrapu.
  destruct (Z.ltb_spec ((buf + 2147483647) mod 2 ^ 32) buf); lia.
Qed.

End callers.

(** ** Running a format on given arguments *)

Section running.
Context (env : kenv).

Lemma vsnprintf_loop_S fuel e fmt spec args st o :
  fmt <> [] ->
  vsnprintf_loop (S fuel) env e fmt spec args st o =
    ('(fmt, spec, args, st, o) ← vsnprintf_step env e fmt spec args st o;
     vsnprintf_loop fuel env e fmt spec args st o).
Proof. by destruct fmt. Qed.

Lemma u32_s32 v : 0 <= v < 2 ^ 32 -> u32 (s32 v) = v.
Proof.
  intros Hv. unfold u32, s32, wrapu, wraps. change (32 - 1) with 31. rewrite Zminus_mod_idemp_l.
  replace (v + 2 ^ 31 - 2 ^ 31) with v by lia. by apply Z.mod_small.
Qed.

(** The loop prints the text [t] from the format [fmt] on. *)
Definition runs (fuel : nat) (fmt : list Z) (spec : printf_spec) (args : list arg) (t : list Z) : Prop :=
  forall e o, 0 <= str o -> vsnprintf_loop fuel env e fmt spec args [] o = ([],.) <$> puts e t o.

Lemma runs_end fuel spec args : runs fuel [] spec args [].
Proof. intros e o Ho. by destruct fuel. Qed.

Lemma runs_step fuel fmt spec args rest spec' args' t t' :
  fmt <> [] ->
  (forall e o, 0 <= str o ->
     vsnprintf_step env e fmt spec args [] o = (o ← puts e t o; Some (rest, spec', args', [], o))) ->
  runs fuel rest spec' args' t' -> runs (S fuel) fmt spec args (t ++ t').
Proof.
  intros Hne Hs Hr e o Ho. rewrite vsnprintf_loop_S, Hs, puts_app by done.
  destruct (puts e t o) as [o'|] eqn:Ep; cbn [mbind option_bind]; [|done].
  apply Hr. rewrite (puts_str _ _ _ _ Ep). lia.
Qed.

(** A piece of plain text. *)
Lemma runs_lit fuel fmt spec rest s args t :
  format_decode fmt spec = (rest, s) -> type s = FORMAT_TYPE_NONE -> (length rest < length fmt)%nat ->
  runs fuel rest s args t -> runs (S fuel) fmt spec args (take (length fmt - length rest) fmt ++ t).
Proof.
  intros Hd Ht Hl. apply runs_step; [by intros ->; cbn in Hl; lia|]. intros e o Ho.
  unfold vsnprintf_step. rewrite Hd, Ht.
  replace (length fmt - length rest)%nat with (Z.to_nat (Z.of_nat (length fmt) - Z.of_nat (length rest))) by lia.
  rewrite <- memcpy_puts by lia. by destruct (if str o <? e then _ else _).
Qed.

(** A number. *)
Lemma runs_num fuel fmt spec rest s v args args' t :
  fmt <> [] -> format_decode fmt spec = (rest, s) -> spec_ok s ->
  match type s with
  | FORMAT_TYPE_LONG_LONG | FORMAT_TYPE_ULONG | FORMAT_TYPE_LONG | FORMAT_TYPE_UINT | FORMAT_TYPE_INT => True
  | _ => False
  end ->
  va_num (type s) args = Some (v, args') -> 0 <= v < 2 ^ 64 ->
  runs fuel rest s args' t -> runs (S fuel) fmt spec args (number_chars v s ++ t).
Proof.
  intros Hne Hd Hok Hty Hv Hr. apply runs_step; [done|]. intros e o Ho. unfold vsnprintf_step. rewrite Hd.
  destruct (type s); try done; rewrite Hv; cbn [mbind option_bind]; by rewrite number_puts.
Qed.

(** A string. *)
Lemma runs_str fuel fmt spec rest s a obj args t :
  fmt <> [] -> format_decode fmt spec = (rest, s) -> spec_wf s -> type s = FORMAT_TYPE_STR ->
  runs fuel rest s args t -> runs (S fuel) fmt spec (APtr a obj :: args) (string_chars a obj s ++ t).
Proof.
  intros Hne Hd Hok Hty. apply runs_step; [done|]. intros e o Ho. unfold vsnprintf_step. rewrite Hd, Hty.
  cbn [va_ptr mbind option_bind]. by rewrite string_puts.
Qed.

(** A pointer. *)
Lemma runs_ptr fuel fmt spec rest s a obj args t1 t :
  fmt <> [] -> format_decode fmt spec = (rest, s) -> type s = FORMAT_TYPE_PTR ->
  (forall e o, pointer env e (drop 1 rest) a obj s o = puts e t1 o) ->
  runs fuel (skip_alnum rest) s args t -> runs (S fuel) fmt spec (APtr a obj :: args) (t1 ++ t).
Proof.
  intros Hne Hd Hty Hp. apply runs_step; [done|]. intros e o Ho. unfold vsnprintf_step. rewrite Hd, Hty.
  cbn [va_ptr mbind option_bind]. by rewrite Hp.
Qed.

(** A character without a width. *)
Lemma runs_chr fuel fmt spec rest s v args t :
  fmt <> [] -> format_decode fmt spec = (rest, s) -> type s = FORMAT_TYPE_CHAR -> has (flags s) LEFT = false ->
  field_width s = -1 -> 0 <= v < 256 ->
  runs fuel rest (set_type s (-3) (precision s)) args t -> runs (S fuel) fmt spec (AInt v :: args) (v :: t).
Proof.
  intros Hne Hd Hty Hl Hw Hv. change (v :: t) with ([v] ++ t). apply runs_step; [done|]. intros e o Ho.
  unfold vsnprintf_step. rewrite Hd, Hty, Hl, Hw. cbn [negb]. change (pad e 1 32 (-1) o) with (Some (-2, o)).
  cbn [mbind option_bind va_int]. rewrite s32_id, (wrapu_id 8) by lia. cbn [puts].
  destruct (put e v o) as [o'|]; [|done]. done.
Qed.

(** A string without a width or a precision. *)
Lemma string_chars_plain a obj s :
  PAGE_SIZE <= a -> has (flags s) LEFT = false -> field_width s = -1 -> precision s = -1 ->
  Z.of_nat (length obj) < 2 ^ 32 - 1 -> string_chars a obj s = obj.
Proof.
  intros Ha Hl Hw Hp Ho. unfold string_chars. destruct (Z.ltb_spec a PAGE_SIZE); [lia|]. cbv zeta.
  rewrite Hl, Hw, Hp. change (u32 (-1)) with (2 ^ 32 - 1). rewrite strnlen_all by lia.
  rewrite Nat2Z.id, firstn_all. replace (Z.to_nat (-1 - _)) with 0%nat by lia.
  destruct (Z.ltb_spec (Z.of_nat (length obj)) (-1)); [lia|]. change (s16 (-1 - 1)) with (-2).
  replace (Z.to_nat (-2 - _)) with 0%nat by lia. cbn [replicate app]. by rewrite app_nil_r.
Qed.

(** [vsnprintf], from the text the loop prints. *)
Lemma vsnprintf_runs buf b size fmt args t :
  0 <= size < 2 ^ 31 -> 0 < end_of buf size -> Z.min (end_of buf size) (Z.of_nat (length t) + 1) <= Z.of_nat (length b) ->
  runs (vsnprintf_fuel fmt) fmt spec0 args t ->
  vsnprintf env buf b size fmt args = Some (MkPrinted (Z.of_nat (length t)) (printed_buf (end_of buf size) t b) []).
Proof.
  intros Hs He Hb Hl. unfold vsnprintf. rewrite s32_id by lia. destruct (Z.ltb_spec size 0); [lia|].
  fold (end_of buf size). set (e := end_of buf size) in *. rewrite Hl, puts_shown by (cbn [str ob]; lia).
  cbn [fmap option_fmap option_map mbind option_bind shown str ob]. rewrite Z.add_0_l.
  destruct (Z.ltb_spec 0 e); [|lia]. by rewrite place_nul.
Qed.

(** [sprintf], when the object has room for the text. *)
Lemma sprintf_runs buf b fmt args t :
  0 <= buf -> buf + Z.of_nat (length b) < UINT_MAX -> Z.of_nat (length b) < INT_MAX -> (length t < length b)%nat ->
  runs (vsnprintf_fuel fmt) fmt spec0 args t ->
  sprintf env buf b fmt args = Some (MkPrinted (Z.of_nat (length t)) (t ++ 0 :: drop (S (length t)) b) []).
Proof.
  intros Hbuf Hb Hm Ht Hl. pose proof (end_of_int_max buf (Z.of_nat (length b)) Hbuf ltac:(lia) Hb) as He.
  unfold sprintf. rewrite (vsnprintf_runs _ _ _ _ _ t) by (done || unfold INT_MAX in *; lia). do 2 f_equal.
  unfold printed_buf. destruct (Z.eqb_spec (end_of buf INT_MAX) 0); [lia|].
  by destruct (Z.ltb_spec (Z.of_nat (length t)) (end_of buf INT_MAX)); [|lia].
Qed.

End running.



(** A field as wide as 16 bits allow makes the count of the remaining width
    wrap around: [%.32767d] prints 32768 spaces in front of the digits. *)
Example width_underflow :
  exists rest, number_chars 7 (MkSpec FORMAT_TYPE_INT SIGN 10 255 (-1) 32767) = replicate (Z.to_nat 32768) 32 ++ rest.
Proof. eexists. unfold number_chars. reflexivity. Qed.
