(* ===== verification/Address.v ===== *)
(** * Addresses printed with the kernel's [printf]

    The callers of [Printf.v] that print addresses: [bcm_ether_ntoa] and
    [bcm_ip_ntoa] of the wireless driver's [bcmutils.c], whose texts the
    driver's own [bcm_ether_atoe] reads back; the proc file of [st.c], which
    prints the address of a symbol; and what the pointer formats of
    [lib/vsprintf.c] put into their local arrays, with the compressed form of
    IPv6 addresses. *)

From stdpp Require Import prelude gmap list strings.
From Stdlib Require Import ZArith Lia.
From S2P Require Import Prelude Vsprintf Dynamic Bcmutils Printf.

Open Scope Z_scope.
Open Scope list_scope.

(** ** Addresses printed by the wireless driver *)

Definition octet_args (octets : list Z) : list arg := (fun o => AInt (Z.land o 255)) <$> octets.

Definition bcm_ether_ntoa (env : kenv) (ea : list Z) (buf : Z) (b : list Z) : option (list Z) :=
  octets ← mapM (zget ea) (seqZ 0 6);
  r ← snprintf env buf b 18 (bytes_of "%02x:%02x:%02x:%02x:%02x:%02x") (octet_args octets);
  Some (obuf r).

Definition bcm_ip_ntoa (env : kenv) (ia : list Z) (buf : Z) (b : list Z) : option (list Z) :=
  octets ← mapM (zget ia) (seqZ 0 4);
  r ← snprintf env buf b 16 (bytes_of "%d.%d.%d.%d") (AInt <$> octets);
  Some (obuf r).

(** Formats that print a list of bytes with one conversion and a separator. *)
Fixpoint join_fmt (conv : list Z) (sep : Z) (n : nat) : list Z :=
  match n with
  | O => []
  | S n' => conv ++ match n' with O => [] | _ => sep :: join_fmt conv sep n' end
  end.

Fixpoint join_text (show : Z -> list Z) (sep : Z) (os : list Z) : list Z :=
  match os with
  | [] => []
  | o :: os' => show o ++ match os' with [] => [] | _ => sep :: join_text show sep os' end
  end.

Section joined.
Context (env : kenv) (conv : list Z) (sp : printf_spec) (sep : Z) (show : Z -> list Z).
Hypothesis conv_start : ch conv = 37.
Hypothesis sep_plain : sep <> 37.
Hypothesis conv_decodes : forall spec rest, pending (type spec) = false -> format_decode (conv ++ rest) spec = (rest, sp).
Hypothesis sp_number : type sp = FORMAT_TYPE_INT \/ type sp = FORMAT_TYPE_UINT.
Hypothesis sp_ok : spec_ok sp.
Hypothesis shows : forall v, byte_range v -> number_chars v sp = show v.

Lemma va_num_byte v args : byte_range v -> va_num (type sp) (AInt v :: args) = Some (v, args).
Proof.
  intros Hv. unfold byte_range in Hv. destruct sp_number as [->| ->]; cbn [va_num va_int mbind option_bind];
    rewrite s32_id by lia.
  - unfold u64. by rewrite wrapu_id by lia.
  - by rewrite u32_id by lia.
Qed.

Lemma step_conv e rest spec v args st o :
  pending (type spec) = false -> byte_range v ->
  vsnprintf_step env e (conv ++ rest) spec (AInt v :: args) st o =
    (o ← puts e (show v) o; Some (rest, sp, args, st, o)).
Proof.
  intros Hp Hv. unfold vsnprintf_step. rewrite conv_decodes by done. pose proof (va_num_byte v args Hv) as Ha.
  destruct sp_number as [E|E]; rewrite E in *; rewrite Ha; cbn [mbind option_bind];
    rewrite number_puts, shows by (done || (unfold byte_range in Hv; lia)); done.
Qed.

Lemma step_sep e rest spec args st o :
  pending (type spec) = false -> 0 <= str o -> ch rest = 37 ->
  exists spec', pending (type spec') = false /\
  vsnprintf_step env e (sep :: rest) spec args st o =
    (o ← puts e [sep] o; Some (rest, spec', args, st, o)).
Proof.
  intros Hp Ho Hr. destruct rest as [|c rest]; [done|]. change (ch (c :: rest)) with c in Hr. subst c.
  exists (MkSpec FORMAT_TYPE_NONE (flags spec) (base spec) (qualifier spec) (field_width spec) (precision spec)).
  split; [done|]. unfold vsnprintf_step.
  assert (format_decode (sep :: 37 :: rest) spec = (37 :: rest, MkSpec FORMAT_TYPE_NONE (flags spec) (base spec)
    (qualifier spec) (field_width spec) (precision spec))) as ->.
  { unfold format_decode. change (ch (sep :: _)) with sep. destruct (Z.eqb_spec sep 37); [done|]. cbn [negb text_end].
    destruct (Z.eqb_spec sep 37); [done|]. change (37 =? 37) with true. by destruct (type spec). }
  cbn [type]. replace (Z.of_nat (length (sep :: 37 :: rest)) - Z.of_nat (length (37 :: rest))) with 1 by (cbn [length]; lia).
  change (puts e [sep] o) with (puts e (take (Z.to_nat 1) (sep :: 37 :: rest)) o).
  rewrite <- (memcpy_puts e 1) by (cbn [length]; lia). by destruct (if str o <? e then _ else _).
Qed.

Lemma loop_join fuel e spec os st o :
  pending (type spec) = false -> 0 <= str o -> Forall byte_range os -> (2 * length os <= fuel)%nat ->
  vsnprintf_loop fuel env e (join_fmt conv sep (length os)) spec (AInt <$> os) st o =
    (st,.) <$> puts e (join_text show sep os) o.
Proof.
  intros Hp Ho Hos. revert fuel spec o Hp Ho. induction Hos as [|v os Hv Hos IH]; intros fuel spec o Hp Ho Hf.
  { by destruct fuel. }
  cbn [length] in Hf. destruct fuel as [|[|fuel]]; [lia|lia|]. cbn [length join_fmt fmap list_fmap].
  assert (forall f l sp' args o', ch l = 37 -> vsnprintf_loop (S f) env e l sp' args st o' =
    ('(fmt, spec, args, stores, o) ← vsnprintf_step env e l sp' args st o';
     vsnprintf_loop f env e fmt spec args stores o)) as Hloop by (intros ? [|] ????; done).
  assert (forall l, ch (conv ++ l) = 37) as Hch by (intros l; by destruct conv).
  rewrite Hloop, step_conv by auto. cbn [join_text]. rewrite puts_app.
  assert (pending (type sp) = false) as Hsp by (by destruct sp_number as [->| ->]).
  destruct (puts e (show v) o) as [o1|] eqn:E1; [|done]. cbn [mbind option_bind].
  assert (0 <= str o1) by (rewrite (puts_str _ _ _ _ E1); lia). destruct os as [|v' os]; [done|]. cbn [length].
  set (tail := join_fmt conv sep (S (length os))).
  destruct (step_sep e tail sp (AInt <$> v' :: os) st o1) as (spec' & Hp' & Hs); [done|done|apply Hch|].
  change (vsnprintf_loop (S fuel) env e (sep :: tail) sp (AInt <$> v' :: os) st o1) with
    ('(fmt, spec, args, stores, o) ← vsnprintf_step env e (sep :: tail) sp (AInt <$> v' :: os) st o1;
     vsnprintf_loop fuel env e fmt spec args stores o).
  rewrite Hs. change (sep :: join_text show sep (v' :: os)) with ([sep] ++ join_text show sep (v' :: os)).
  rewrite puts_app. destruct (puts e [sep] o1) as [o2|] eqn:E2; [|done]. cbn [mbind option_bind].
  apply IH; [done| |cbn [length] in *; lia]. rewrite (puts_str _ _ _ _ E2). lia.
Qed.

(** The call of [snprintf] with such a format. *)
Lemma snprintf_join buf b size os :
  0 <= buf -> 0 < size < 2 ^ 31 -> buf + size < 2 ^ 32 -> size <= Z.of_nat (length b) ->
  Forall byte_range os -> (2 <= length conv)%nat ->
  Z.of_nat (length (join_text show sep os)) < size ->
  snprintf env buf b size (join_fmt conv sep (length os)) (AInt <$> os) =
    Some (MkPrinted (Z.of_nat (length (join_text show sep os)))
      (join_text show sep os ++ 0 :: drop (S (length (join_text show sep os))) b) []).
Proof.
  intros Hbuf Hs He Hb Hos Hc Hl. unfold snprintf, vsnprintf. rewrite s32_id by lia.
  destruct (Z.ltb_spec size 0); [lia|]. fold (end_of buf size). rewrite end_of_small by lia.
  assert (forall n, (2 * n <= length (join_fmt conv sep n))%nat) as Hfl.
  { induction n as [|n IHn]; [cbn; lia|]. cbn [join_fmt]. rewrite length_app. destruct n; cbn [length] in *; lia. }
  rewrite loop_join by (try done; unfold vsnprintf_fuel; specialize (Hfl (length os)); lia).
  rewrite puts_shown by (cbn [str ob]; lia). cbn [fmap option_fmap option_map mbind option_bind shown str ob].
  rewrite Z.add_0_l. destruct (Z.ltb_spec 0 size); [|lia]. rewrite place_nul by lia. cbn [mbind option_bind rev].
  do 2 f_equal. unfold printed_buf. destruct (Z.eqb_spec size 0); [lia|].
  by destruct (Z.ltb_spec (Z.of_nat (length (join_text show sep os))) size); [|lia].
Qed.

End joined.

(** ** Addresses printed and read back *)

Section addresses.
Context (env : kenv).

Definition spec_02x : printf_spec := MkSpec FORMAT_TYPE_UINT (ZEROPAD + SMALL) 16 255 2 (-1).
Definition spec_d : printf_spec := MkSpec FORMAT_TYPE_INT SIGN 10 255 (-1) (-1).

Lemma decode_02x spec rest :
  pending (type spec) = false -> format_decode (bytes_of "%02x" ++ rest) spec = (rest, spec_02x).
Proof. unfold format_decode. by destruct (type spec). Qed.

Lemma decode_d spec rest :
  pending (type spec) = false -> format_decode (bytes_of "%d" ++ rest) spec = (rest, spec_d).
Proof. unfold format_decode. by destruct (type spec). Qed.

Lemma spec_02x_ok : spec_ok spec_02x.
Proof. split; unfold byte_range, number_base; vm_compute; intuition discriminate. Qed.

Lemma spec_d_ok : spec_ok spec_d.
Proof. split; unfold byte_range, number_base; vm_compute; intuition discriminate. Qed.

Lemma byte_eq (f g : Z -> list Z) v :
  forallb (fun v => bool_decide (f v = g v)) (seqZ 0 256) = true -> byte_range v -> f v = g v.
Proof. intros H Hv. exact (bool_decide_eq_true_1 _ (byte_forallb _ H v Hv)). Qed.

Lemma shows_hex2 v : byte_range v -> number_chars v spec_02x = hex2 v.
Proof. apply (byte_eq (fun v => number_chars v spec_02x)). vm_compute. reflexivity. Qed.

Lemma shows_dec v : byte_range v -> number_chars v spec_d = digit_text false 10 v.
Proof. apply (byte_eq (fun v => number_chars v spec_d)). vm_compute. reflexivity. Qed.

Lemma join_hex os : join_text hex2 58 os = colons os.
Proof. induction os as [|o [|o' os] IH]; [done|done|]. cbn [join_text colons] in *. by rewrite IH. Qed.

Lemma length_join_text show sep (os : list Z) k :
  (forall v, byte_range v -> (length (show v) <= k)%nat) -> Forall byte_range os -> os <> [] ->
  (length (join_text show sep os) + 1 <= (k + 1) * length os)%nat.
Proof.
  intros Hk. induction 1 as [|v os Hv Hos IH]; [done|]. intros _. pose proof (Hk v Hv). cbn [join_text length].
  rewrite length_app. destruct os as [|v' os]; [cbn [length]; lia|]. specialize (IH ltac:(done)). cbn [length] in *. lia.
Qed.

Lemma six_octets (ea : list Z) : (6 <= length ea)%nat -> mapM (zget ea) (seqZ 0 6) = Some (take 6 ea).
Proof. intros. do 6 (destruct ea as [|? ea]; [cbn in *; lia|]). reflexivity. Qed.

Lemma four_octets (ia : list Z) : (4 <= length ia)%nat -> mapM (zget ia) (seqZ 0 4) = Some (take 4 ia).
Proof. intros. do 4 (destruct ia as [|? ia]; [cbn in *; lia|]). reflexivity. Qed.

Lemma octet_args_bytes os : Forall byte_range os -> octet_args os = AInt <$> os.
Proof.
  intros H. apply list_fmap_ext. intros i o Ho. f_equal. rewrite land_255.
  apply Z.mod_small. exact (proj1 (Forall_lookup _ _) H i o Ho).
Qed.

Lemma ether_ntoa_text ea buf b :
  (6 <= length ea)%nat -> Forall byte_range ea -> 0 <= buf < 4294967000 -> (18 <= length b)%nat ->
  bcm_ether_ntoa env ea buf b = Some (colons (take 6 ea) ++ 0 :: drop 18 b).
Proof.
  intros Hl Hb Hbuf Hb18. unfold bcm_ether_ntoa. rewrite six_octets by done. cbn [mbind option_bind].
  assert (Forall byte_range (take 6 ea)) as H6 by (by apply Forall_take).
  assert (length (take 6 ea) = 6%nat) as Hl6 by (rewrite length_take; lia).
  rewrite octet_args_bytes by done.
  change (bytes_of "%02x:%02x:%02x:%02x:%02x:%02x") with (join_fmt (bytes_of "%02x") 58 6). rewrite <- Hl6 at 1.
  assert (length (join_text hex2 58 (take 6 ea)) = 17%nat) as Ht.
  { destruct (take 6 ea) as [|? [|? [|? [|? [|? [|? [|]]]]]]]; try done. }
  rewrite (snprintf_join env (bytes_of "%02x") spec_02x 58 hex2); try done; try lia.
  - cbn [mbind option_bind obuf]. by rewrite join_hex in *; rewrite Ht.
  - apply decode_02x.
  - by right.
  - apply spec_02x_ok.
  - apply shows_hex2.
  - cbn. lia.
Qed.

Lemma ip_ntoa_text ia buf b :
  (4 <= length ia)%nat -> Forall byte_range ia -> 0 <= buf < 4294967000 -> (16 <= length b)%nat ->
  let text := join_text (digit_text false 10) 46 (take 4 ia) in
  bcm_ip_ntoa env ia buf b = Some (text ++ 0 :: drop (S (length text)) b) /\ (length text <= 15)%nat.
Proof.
  intros Hl Hb Hbuf Hb16 text. unfold bcm_ip_ntoa. rewrite four_octets by done. cbn [mbind option_bind].
  assert (Forall byte_range (take 4 ia)) as H4 by (by apply Forall_take).
  assert (length (take 4 ia) = 4%nat) as Hl4 by (rewrite length_take; lia).
  change (bytes_of "%d.%d.%d.%d") with (join_fmt (bytes_of "%d") 46 4). rewrite <- Hl4 at 1.
  assert (length text + 1 <= 16)%nat as Ht.
  { subst text. eapply Nat.le_trans; [apply (length_join_text _ _ _ 3); [|done|]|].
    - intros v Hv. unfold byte_range in Hv. apply length_digits_below; [lia|lia|]. cbn. lia.
    - intros E. by rewrite E in Hl4.
    - rewrite Hl4. lia. }
  split; [|lia].
  rewrite (snprintf_join env (bytes_of "%d") spec_d 46 (digit_text false 10)); try done; try lia.
  - apply decode_d.
  - by left.
  - apply spec_d_ok.
  - apply shows_dec.
  - fold text. lia.
Qed.

Lemma colons_nonzero os : Forall byte_range os -> Forall (fun c => c <> 0) (colons os).
Proof.
  intros H. rewrite <- join_hex. induction H as [|v os Hv _ IH]; cbn [join_text]; [constructor|].
  apply Forall_app. split.
  - unfold byte_range in Hv. unfold hex2, hex_char. repeat constructor; zcase; dlia.
  - destruct os; constructor; [lia|exact IH].
Qed.

End addresses.

(** The address the driver prints with [bcm_ether_ntoa] into a buffer of
    18 bytes is read back by [bcm_ether_atoe] as the same six octets, and no
    byte of the buffer behind the 18 is touched. *)
Theorem ether_roundtrip (env : kenv) (ea : list Z) (buf : Z) (b ea' : list Z) :
  (6 <= length ea)%nat -> Forall byte_range ea -> 0 <= buf < 4294967000 -> (18 <= length b)%nat ->
  exists b', bcm_ether_ntoa env ea buf b = Some b' /\ drop 18 b' = drop 18 b /\
    bcm_ether_atoe (cstr b') ea' = (true, take 6 ea ++ drop 6 ea').
Proof.
  intros Hl Hb Hbuf Hb18. eexists. split; [by apply ether_ntoa_text|].
  assert (Forall byte_range (take 6 ea)) as H6 by (by apply Forall_take).
  assert (length (take 6 ea) = 6%nat) as Hl6 by (rewrite length_take; lia). split.
  - destruct (take 6 ea) as [|? [|? [|? [|? [|? [|? [|]]]]]]]; try done.
  - rewrite cstr_app by (by apply colons_nonzero). by apply ether_atoe_colons.
Qed.

Lemma ether_roundtrip_witness :
  exists b', bcm_ether_ntoa plain_env [0; 144; 76; 16; 254; 7] 3221225472 (replicate 20 255) = Some b' /\
    drop 18 b' = [255; 255] /\ bcm_ether_atoe (cstr b') (replicate 6 0) = (true, [0; 144; 76; 16; 254; 7]).
Proof.
  apply (ether_roundtrip plain_env [0; 144; 76; 16; 254; 7] 3221225472 (replicate 20 255) (replicate 6 0)).
  - cbn. lia.
  - repeat constructor; lia.
  - lia.
  - cbn. lia.
Defined.

(** ** The symbol table's proc file

    [read_symbol] of [st.c] prints the address it found with [sprintf]; the
    text is the one [Dynamic.v] gives it. *)

Section symbol.

Definition spec_lx : printf_spec := MkSpec FORMAT_TYPE_ULONG SMALL 16 108 (-1) (-1).

Lemma spec_lx_ok : spec_ok spec_lx.
Proof. split; unfold byte_range, number_base; vm_compute; intuition discriminate. Qed.

Lemma hex_text a : 0 <= a < 2 ^ 32 -> digit_text true 16 a = hex_chars a.
Proof.
  intros Ha. unfold digit_text, hex_chars. rewrite (radix_lsb_fuel 8 14), radix_lsb_hex by lia.
  rewrite <- map_rev. apply list_fmap_ext. intros i d _. unfold digit_char, hex_digit. by destruct (d <? 10).
Qed.

Lemma number_lx a : 0 <= a < 2 ^ 32 -> number_chars a spec_lx = hex_chars a.
Proof.
  intros Ha. rewrite number_chars_text; [|apply spec_lx_ok|split; vm_compute; discriminate].
  rewrite <- hex_text by done. unfold number_text. cbn [flags base field_width precision spec_lx].
  change (has SMALL LEFT) with false. change (has SMALL ZEROPAD) with false. change (has SMALL SMALL) with true.
  unfold number_sign, number_mag, number_prefix. change (has SMALL SIGN) with false. change (has SMALL SPECIAL) with false.
  cbn [andb app length Z.of_nat]. pose proof (length_digit_text true 16 a).
  replace (Z.to_nat (-1 - _)) with 0%nat by lia. cbn [replicate app].
  by replace (Z.to_nat (-1 - 0 - _)) with 0%nat by lia.
Qed.

End symbol.

(** [sprintf] of the proc file [st] prints the address of a symbol as
    the digits [Dynamic.read_symbol] delivers, at most nine bytes of the
    page with the NUL. *)
Theorem sprintf_symbol (env : kenv) (buf : Z) (b : list Z) (a : Z) :
  0 <= a < 2 ^ 32 -> 0 <= buf -> buf + Z.of_nat (length b) < UINT_MAX -> (9 <= length b)%nat ->
  Z.of_nat (length b) < INT_MAX ->
  sprintf env buf b (bytes_of "%lx") [ALong a] =
    Some (MkPrinted (Z.of_nat (length (hex_chars a))) (hex_chars a ++ 0 :: drop (S (length (hex_chars a))) b) []) /\
  (length (hex_chars a) <= 8)%nat.
Proof.
  intros Ha Hbuf Hb Hb9 Hm.
  assert (length (hex_chars a) <= 8)%nat as Hl.
  { rewrite <- hex_text by done. apply length_digits_below; [lia|lia|]. cbn. lia. }
  split; [|done]. apply sprintf_runs; [lia|lia|lia|lia|]. change (vsnprintf_fuel (bytes_of "%lx")) with 6%nat.
  rewrite <- (app_nil_r (hex_chars a)), <- number_lx by done.
  apply (runs_num env _ _ _ [] _ a _ []); [done|done|apply spec_lx_ok|done| |lia|apply runs_end].
  cbn. by rewrite u32_s32.
Qed.

Lemma sprintf_symbol_witness :
  sprintf plain_env 3221225472 (replicate 12 7) (bytes_of "%lx") [ALong 3221300037] =
    Some (MkPrinted 8 (bytes_of "c0012345" ++ [0; 7; 7; 7]) []).
Proof.
  destruct (sprintf_symbol plain_env 3221225472 (replicate 12 7) 3221300037) as [H _];
    [lia|lia|cbn; unfold UINT_MAX; lia|cbn; lia|cbn; unfold INT_MAX; lia|].
  rewrite H. vm_compute. reflexivity.
Defined.

(** ** Compressed IPv6 addresses *)

Definition word_text (w : Z) : list Z := hex_word (ntohs w).
Definition join_words : list Z -> list Z := join_text word_text 58.

(** The longest run of zero words has [l] words; when that is more than one
    word, the first such run starts at [c]. *)
Definition best_run (ws : list Z) (l c : nat) : Prop :=
  (forall k, zero_run (drop k ws) <= Z.max 1 (Z.of_nat l)) /\
  ((2 <= l)%nat -> zero_run (drop c ws) = Z.of_nat l /\
                   forall j, (j < c)%nat -> zero_run (drop j ws) < Z.of_nat l).

(** The words with that run written as two colons. *)
Definition compressed (ws : list Z) (l c : nat) : list Z :=
  if (2 <=? l)%nat then join_words (take c ws) ++ [58; 58] ++ join_words (drop (c + l) ws)
  else join_words ws.

(** A word was printed last. *)
Definition ends_in_word (ws : list Z) (l c : nat) : bool :=
  negb ((2 <=? l)%nat && (length ws <=? c + l)%nat).

Section ip6_proofs.

Lemma zero_run_range ws : 0 <= zero_run ws <= Z.of_nat (length ws).
Proof. induction ws as [|w ws IH]; cbn [zero_run length]; [lia|]. destruct (negb _); lia. Qed.

Lemma zero_run_zeros ws k : Z.of_nat k <= zero_run ws -> take k ws = replicate k 0.
Proof.
  revert k. induction ws as [|w ws IH]; intros k Hk; cbn [zero_run] in Hk.
  - destruct k; [done|lia].
  - destruct k as [|k]; [done|]. destruct (Z.eqb_spec w 0) as [->|]; cbn [negb] in Hk; [|lia].
    cbn [firstn replicate]. f_equal. apply IH. lia.
Qed.

Lemma longest_run_spec ws i l c L C :
  1 <= l -> longest_run i ws l c = (L, C) ->
  l <= L /\ (forall k, zero_run (drop k ws) <= L) /\
  ((L = l /\ C = c) \/
   exists k, (k < length ws)%nat /\ C = i + Z.of_nat k /\ l < L /\ zero_run (drop k ws) = L /\
             forall j, (j < k)%nat -> zero_run (drop j ws) < L).
Proof.
  revert i l c. induction ws as [|w ws IH]; intros i l c Hl H.
  { cbn in H. injection H as <- <-. split; [lia|]. split; [|by left]. intros k. rewrite drop_nil. cbn. lia. }
  assert (longest_run i (w :: ws) l c = if l <? zero_run (w :: ws) then longest_run (i + 1) ws (zero_run (w :: ws)) i
    else longest_run (i + 1) ws l c) as E by done. rewrite E in H. clear E.
  destruct (Z.ltb_spec l (zero_run (w :: ws))) as [Hlt|Hge];
    apply IH in H as (H1 & H2 & H3); try lia; (split; [lia|]); split.
  - intros [|k]; [rewrite drop_0; lia|]. apply H2.
  - right. destruct H3 as [[-> ->]|(k & Hk & -> & Hl' & Hz & Hj)].
    + exists 0%nat. rewrite drop_0. cbn [length]. repeat split; try lia.
    + exists (S k). cbn [length]. repeat split; try lia; [done|]. intros [|j] Hjk; [rewrite drop_0; lia|]. apply Hj. lia.
  - intros [|k]; [rewrite drop_0; lia|]. apply H2.
  - destruct H3 as [[-> ->]|(k & Hk & -> & Hl' & Hz & Hj)]; [by left|]. right.
    exists (S k). cbn [length]. repeat split; try lia; [done|]. intros [|j] Hjk; [rewrite drop_0; lia|]. apply Hj. lia.
Qed.

(** Words that do not meet the run. *)
Lemma ip6c_plain fuel i ws l c nc :
  (length ws < fuel)%nat -> c < i \/ i + Z.of_nat (length ws) <= c ->
  ip6c_loop fuel i ws l c nc =
    Some ((if nc && negb (bool_decide (ws = [])) then [58] else []) ++ join_words ws,
          nc || negb (bool_decide (ws = []))).
Proof.
  revert i ws nc. induction fuel as [|fuel IH]; intros i ws nc Hf Hc; [lia|]. cbn [ip6c_loop].
  destruct ws as [|w ws]; [cbn; by rewrite andb_false_r, orb_false_r|]. cbn [length] in *.
  destruct (Z.eqb_spec i c); [lia|]. rewrite IH by lia. cbn [mbind option_bind].
  rewrite (bool_decide_eq_false_2 (w :: ws = [])) by done. cbn [negb]. rewrite andb_true_r, orb_true_r. do 2 f_equal.
  destruct ws as [|w' ws]; cbn [andb]; [|by rewrite bool_decide_eq_false_2].
  rewrite bool_decide_eq_true_2 by done. done.
Qed.

(** The words up to the run and the run, which leaves two colons. *)
Lemma ip6c_run fuel i ws l k nc :
  (length ws < fuel)%nat -> (k < length ws)%nat -> 1 <= l -> 0 <= i -> (i = 0 \/ nc = true) ->
  ip6c_loop fuel i ws l (i + Z.of_nat k) nc =
    Some ((if nc && negb (k =? 0)%nat then [58] else []) ++ join_words (take k ws) ++ [58; 58] ++
          join_words (drop (k + Z.to_nat l) ws),
          negb (bool_decide (drop (k + Z.to_nat l) ws = []))).
Proof.
  revert i ws k nc. induction fuel as [|fuel IH]; intros i ws k nc Hf Hk Hl Hi Hnc; [lia|]. cbn [ip6c_loop].
  destruct ws as [|w ws]; [cbn in Hk; lia|]. cbn [length] in *. destruct (Z.eqb_spec i (i + Z.of_nat k)) as [E|E].
  - assert (k = 0%nat) as -> by lia. rewrite ip6c_plain by (rewrite ?length_drop; cbn [length]; lia).
    cbn [mbind option_bind andb orb Nat.add app]. rewrite take_0, andb_false_r. cbn [app].
    destruct Hnc as [->| ->]; [|done]. by rewrite orb_true_r.
  - destruct k as [|k]; [lia|]. replace (i + Z.of_nat (S k)) with (i + 1 + Z.of_nat k) by lia.
    rewrite IH by (lia || by right). cbn [mbind option_bind andb]. rewrite andb_true_r. do 2 f_equal. cbn [firstn].
    f_equal. unfold join_words. cbn [join_text Nat.add skipn]. rewrite <- app_assoc. f_equal.
    destruct k as [|k]; [done|]. destruct ws as [|w' ws]; [cbn in Hk; lia|]. done.
Qed.

(** The two loops together. *)
Lemma ip6c_compressed ws fuel :
  ws <> [] -> (length ws < fuel)%nat ->
  exists l c, best_run ws l c /\
    (let '(longest, colonpos) := longest_run 0 ws 1 (-1) in
     ip6c_loop fuel 0 ws longest (if longest =? 1 then -1 else colonpos) false) =
      Some (compressed ws l c, ends_in_word ws l c).
Proof.
  intros Hne Hf. destruct (longest_run 0 ws 1 (-1)) as [L C] eqn:E.
  destruct (longest_run_spec ws 0 1 (-1) L C ltac:(lia) E) as (H1 & H2 & [[-> ->]|(k & Hk & -> & Hl & Hz & Hj)]).
  - exists 1%nat, 0%nat. split; [split; [done|lia]|]. cbn [Z.eqb Pos.eqb]. rewrite ip6c_plain by lia.
    unfold compressed, ends_in_word. cbn [Nat.leb andb negb app orb]. by rewrite bool_decide_eq_false_2.
  - exists (Z.to_nat L), k. split.
    { split; [intros j; specialize (H2 j); lia|]. intros _. split; [lia|]. intros j Hjk. specialize (Hj j Hjk). lia. }
    destruct (Z.eqb_spec L 1); [lia|]. rewrite ip6c_run by (lia || by left).
    unfold compressed, ends_in_word. destruct (Nat.leb_spec 2 (Z.to_nat L)); [|lia]. cbn [andb app].
    do 2 f_equal. f_equal. destruct (Nat.leb_spec (length ws) (k + Z.to_nat L)).
    + by rewrite bool_decide_eq_true_2 by (apply drop_ge; lia).
    + rewrite bool_decide_eq_false_2; [done|]. intros Hd%(f_equal length). rewrite length_drop in Hd. cbn in Hd. lia.
Qed.

End ip6_proofs.

Lemma ip6_compressed_runs (addr : list Z) :
  (16 <= length addr)%nat ->
  let in6 := take 16 addr in
  let v4 := ipv6_addr_v4mapped in6 || ipv6_addr_is_isatap in6 in
  let words := s6_addr16 in6 <$> seq 0 (if v4 then 6 else 8) in
  exists l c, best_run words l c /\
    ip6_compressed_string addr =
      if v4 then
        q ← ip4_string (drop 12 in6) (bytes_of "I4");
        Some (compressed words l c ++ (if ends_in_word words l c then [58] else []) ++ q)
      else Some (compressed words l c).
Proof.
  intros Hl in6 v4 words. destruct (ip6c_compressed words 9) as (l & c & Hbest & E).
  { subst words. by destruct v4. }
  { subst words. rewrite length_fmap, length_seq. destruct v4; lia. }
  exists l, c. split; [done|]. unfold ip6_compressed_string. destruct (Nat.ltb_spec (length addr) 16); [lia|].
  cbn [mbind option_bind]. fold in6. fold v4. fold words. destruct (longest_run 0 words 1 (-1)) as [L C].
  rewrite E. cbn [mbind option_bind]. done.
Qed.


(** [%pI6c] writes an IPv6 address the way RFC 5952 asks for: the words
    in hexadecimal without leading zeros, separated by colons, with the first
    of the longest runs of two or more zero words, and no other, written as
    two colons; a mapped or ISATAP address ends in the dotted IPv4 address. *)
Theorem ip6_compressed_correct (addr : list Z) :
  (16 <= length addr)%nat ->
  let in6 := take 16 addr in
  let v4 := ipv6_addr_v4mapped in6 || ipv6_addr_is_isatap in6 in
  let words := s6_addr16 in6 <$> seq 0 (if v4 then 6 else 8) in
  exists l c, best_run words l c /\
    ip6_compressed_string addr =
      if v4 then
        q ← ip4_string (drop 12 in6) (bytes_of "I4");
        Some (compressed words l c ++ (if ends_in_word words l c then [58] else []) ++ q)
      else Some (compressed words l c).
Proof. apply ip6_compressed_runs. Qed.

Lemma ip6_compressed_correct_witness :
  exists l c, best_run [33056; 0; 0; 256; 0; 0; 0; 512] l c /\
    ip6_compressed_string [32; 129; 0; 0; 0; 0; 0; 1; 0; 0; 0; 0; 0; 0; 0; 2] =
      Some (compressed [33056; 0; 0; 256; 0; 0; 0; 512] l c).
Proof.
  apply (ip6_compressed_correct [32; 129; 0; 0; 0; 0; 0; 1; 0; 0; 0; 0; 0; 0; 0; 2]). cbn. lia.
Defined.

Example ip6_compressed_ex :
  ip6_compressed_string [32; 129; 0; 0; 0; 0; 0; 1; 0; 0; 0; 0; 0; 0; 0; 2] = Some (bytes_of "2081:0:0:1::2").
Proof. vm_compute. reflexivity. Qed.

Example ip6_mapped_ex :
  ip6_compressed_string [0; 0; 0; 0; 0; 0; 0; 0; 0; 0; 255; 255; 192; 168; 0; 9] = Some (bytes_of "::ffff:192.168.0.9").
Proof. vm_compute. reflexivity. Qed.

(** ** The local arrays of the pointer formats *)

Section arrays.

Lemma length_hex_word w : (length (hex_word w) <= 4)%nat.
Proof. unfold hex_word. repeat case_match; cbn; lia. Qed.

Lemma length_join_words ws : (length (join_words ws) <= 5 * length ws - 1)%nat.
Proof.
  unfold join_words. induction ws as [|w ws IH]; cbn [join_text length]; [lia|]. rewrite length_app.
  pose proof (length_hex_word (ntohs w)) as Hw. unfold word_text at 1. destruct ws; cbn [length] in *; lia.
Qed.

Lemma length_compressed ws l c :
  best_run ws l c -> (1 <= length ws)%nat -> (length (compressed ws l c) <= 5 * length ws - 1)%nat.
Proof.
  intros [_ Hb] Hws. unfold compressed. destruct (Nat.leb_spec 2 l) as [H2|]; [|apply length_join_words].
  destruct (Hb H2) as [Hz _]. pose proof (zero_run_range (drop c ws)) as Hr. rewrite length_drop in Hr.
  pose proof (length_join_words (take c ws)) as H3. pose proof (length_join_words (drop (c + l) ws)) as H4.
  rewrite length_take in H3. rewrite length_drop in H4. rewrite !length_app. cbn [length]. lia.
Qed.

Lemma mac_loop_length n i addr fmt t :
  mac_loop n i addr fmt = Some t -> i + Z.of_nat n = 6 -> (0 < n)%nat -> (length t <= 3 * n - 1)%nat.
Proof.
  revert i t. induction n as [|n IH]; intros i t H Hi Hn; [lia|]. cbn [mac_loop] in H.
  destruct (zget addr i); [|done]. destruct (mac_loop n (i + 1) addr fmt) as [r|] eqn:E; [|done].
  injection H as <-. cbn [app pack_hex_byte length]. rewrite length_app. destruct n as [|n].
  - injection E as <-. replace (i =? 5) with true by (symmetry; apply Z.eqb_eq; lia). cbn [negb].
    rewrite andb_false_r. cbn. lia.
  - specialize (IH (i + 1) r E ltac:(lia) ltac:(lia)). destruct (_ && _); cbn [length]; lia.
Qed.

Lemma quad_length b : byte_range b -> (1 <= length (put_dec_trunc b) <= 3)%nat.
Proof.
  revert b. assert (forall b, byte_range b -> ((1 <=? length (put_dec_trunc b)) && (length (put_dec_trunc b) <=? 3))%nat = true) as H
    by (apply byte_forallb; vm_compute; reflexivity).
  intros b Hb. specialize (H b Hb). rewrite andb_true_iff, !Nat.leb_le in H. exact H.
Qed.

Lemma ip4_loop_length n i index step lz addr t :
  Forall byte_range addr -> ip4_loop n i index step lz addr = Some t -> i + Z.of_nat n = 4 -> (0 < n)%nat ->
  (length t <= 4 * n - 1)%nat.
Proof.
  intros Hb. revert i index t. induction n as [|n IH]; intros i index t H Hi Hn; [lia|]. cbn [ip4_loop] in H.
  destruct (zget addr index) as [b|] eqn:Eb; [|done].
  assert (byte_range b) as Hbb.
  { unfold zget in Eb. destruct (0 <=? index); [|done]. exact (proj1 (Forall_lookup _ _) Hb _ _ Eb). }
  pose proof (quad_length b Hbb) as Hq. cbn [mbind option_bind] in H.
  destruct (ip4_loop n (i + 1) (index + step) step lz addr) as [r|] eqn:E; cbn [mbind option_bind] in H;
    [|discriminate]. apply (inj Some) in H as <-.
  assert (length (if lz then (if (length (put_dec_trunc b) <? 3)%nat then [48%Z] else []) ++
    (if (length (put_dec_trunc b) <? 2)%nat then [48%Z] else []) else []) + length (put_dec_trunc b) <= 3)%nat as H3.
  { destruct lz; [|cbn [length]; lia]. rewrite length_app.
    destruct (Nat.ltb_spec (length (put_dec_trunc b)) 3), (Nat.ltb_spec (length (put_dec_trunc b)) 2); cbn [length]; lia. }
  rewrite !(length_app _ (_ ++ _)), length_rev. rewrite length_app. destruct n as [|n].
  - injection E as <-. destruct (Z.ltb_spec i 3); [lia|]. cbn [length]. lia.
  - specialize (IH (i + 1) (index + step) r E ltac:(lia) ltac:(lia)). destruct (i <? 3); cbn [length]; lia.
Qed.

Lemma ip4_string_length addr fmt t :
  Forall byte_range addr -> ip4_string addr fmt = Some t -> (length t <= 15)%nat.
Proof.
  intros Hb H. unfold ip4_string in H. destruct (_ || _); by apply ip4_loop_length in H; try lia.
Qed.

Lemma ip6_loop_length n i addr fmt t :
  ip6_loop n i addr fmt = Some t -> i + Z.of_nat n = 8 -> (0 < n)%nat -> (length t <= 5 * n - 1)%nat.
Proof.
  revert i t. induction n as [|n IH]; intros i t H Hi Hn; [lia|]. cbn [ip6_loop] in H.
  destruct (zget addr (2 * i)); [|done]. destruct (zget addr (2 * i + 1)); [|done]. cbn [mbind option_bind] in H.
  destruct (ip6_loop n (i + 1) addr fmt) as [r|] eqn:E; [|done].
  injection H as <-. cbn [app pack_hex_byte length]. rewrite length_app. destruct n as [|n].
  - injection E as <-. replace (i =? 7) with true by (symmetry; apply Z.eqb_eq; lia). cbn [negb].
    rewrite andb_false_r. cbn. lia.
  - specialize (IH (i + 1) r E ltac:(lia) ltac:(lia)). destruct (_ && _); cbn [length]; lia.
Qed.

Lemma uuid_loop_length i index addr t :
  uuid_loop i index addr = Some t ->
  length t = (2 * length index + length (filter (fun k => k = 3 \/ k = 5 \/ k = 7 \/ k = 9)%Z
                                           (seqZ i (Z.of_nat (length index)))))%nat.
Proof.
  revert i t. induction index as [|k index IH]; intros i t H; cbn [uuid_loop] in H; [by injection H as <-|].
  destruct (zget addr k); [|done]. destruct (uuid_loop (i + 1) index addr) as [r|] eqn:E; [|done].
  injection H as <-. cbn [length]. rewrite seqZ_cons by lia. rewrite filter_cons. apply IH in E.
  replace (Z.succ i) with (i + 1) by lia. replace (Z.pred (Z.of_nat (S (length index)))) with (Z.of_nat (length index)) by lia.
  cbn [app pack_hex_byte length]. rewrite length_app, E.
  destruct (decide (i = 3 \/ i = 5 \/ i = 7 \/ i = 9)) as [Hd|Hd]; cbn [length].
  - replace (_ || _) with true; [cbn [length]; lia|]. symmetry. rewrite !orb_true_iff, !Z.eqb_eq. tauto.
  - replace (_ || _) with false; [cbn [length]; lia|]. symmetry. rewrite !orb_false_iff, !Z.eqb_neq. tauto.
Qed.

End arrays.

(** A text that an array of [n] bytes takes with its NUL. *)
Definition array_takes (n : nat) (t : option (list Z)) : Prop := exists l, t = Some l /\ (length l < n)%nat.

(** Whatever bytes the pointer points to, the texts that the formats
    [%pM], [%pI4], [%pI6], [%pI6c], [%pU] and [%pR] build in local arrays fit
    them with their NUL: 18, 16, 46, 46, 37 and 59 bytes. *)
Theorem pointer_arrays_fit (addr fmt : list Z) :
  (16 <= length addr)%nat -> Forall byte_range addr ->
  array_takes 18 (mac_loop 6 0 addr fmt) /\ array_takes 16 (ip4_string addr fmt) /\
  array_takes 46 (ip6_string addr fmt) /\ array_takes 46 (ip6_compressed_string addr) /\
  array_takes 37 (uuid_loop 0 (seqZ 0 16) addr) /\
  (exists res o, load_resource addr = Some res /\
     resource_sym res fmt (replicate (Z.to_nat SYM_SIZE) 0) = Some o /\ str o <= SYM_SIZE).
Proof.
  intros Hl Hb. split; [|split; [|split; [|split; [|split]]]].
  - destruct (mac_loop_total 6 0 addr fmt) as [t Ht]; [lia|lia|]. exists t. split; [done|].
    apply mac_loop_length in Ht; lia.
  - destruct (ip4_string_total addr fmt) as [t Ht]; [lia|]. exists t. split; [done|].
    apply ip4_string_length in Ht; [lia|done].
  - destruct (ip6_loop_total 8 0 addr fmt) as [t Ht]; [lia|lia|]. exists t. split; [done|].
    apply ip6_loop_length in Ht; lia.
  - destruct (ip6_compressed_total addr Hl) as [t Ht]. exists t. split; [done|].
    destruct (ip6_compressed_runs addr Hl) as (l & c & Hbest & E). rewrite Ht in E.
    assert (forall n, (1 <= n)%nat -> best_run (s6_addr16 (take 16 addr) <$> seq 0 n) l c ->
      (length (compressed (s6_addr16 (take 16 addr) <$> seq 0 n) l c) <= 5 * n - 1)%nat) as Hlen.
    { intros n Hn Hr. pose proof (length_compressed _ _ _ Hr) as H. rewrite length_fmap, length_seq in H. by apply H. }
    destruct (_ || _) in Hbest, E.
    + specialize (Hlen 6%nat ltac:(lia) Hbest).
      destruct (ip4_string (drop 12 (take 16 addr)) (bytes_of "I4")) as [q|] eqn:Eq; [|done].
      apply ip4_string_length in Eq; [|by apply Forall_drop, Forall_take]. apply (inj Some) in E as ->.
      rewrite !length_app. destruct (ends_in_word _ _ _); cbn [length]; lia.
    + specialize (Hlen 8%nat ltac:(lia) Hbest). apply (inj Some) in E as ->. lia.
  - destruct (uuid_loop_total 0 (seqZ 0 16) addr) as [t Ht].
    { apply Forall_forall. intros k Hk%elem_of_seqZ. lia. }
    exists t. split; [done|]. apply uuid_loop_length in Ht. rewrite Ht. vm_compute. lia.
  - destruct (load_resource_ok addr Hl Hb) as (res & Hr & Hok).
    destruct (resource_sym_shown res fmt (replicate (Z.to_nat SYM_SIZE) 0) Hok) as [E Hlt]; [apply length_replicate|].
    exists res. eexists. split; [done|]. split; [exact E|]. cbn [shown str]. rewrite length_app. cbn [length].
    unfold SYM_SIZE. lia.
Qed.

Lemma pointer_arrays_fit_witness : array_takes 46 (ip6_compressed_string (replicate 16 255)).
Proof.
  apply (pointer_arrays_fit (replicate 16 255) [77]); [cbn; lia|]. apply Forall_replicate. unfold byte_range. lia.
Defined.

Example resource_ex :
  (fun r => cstr (obuf r)) <$>
    snprintf plain_env 3221225472 (replicate 64 0) 64 (bytes_of "%pR")
      [APtr 3221230000 (le_bytes 4 1207959552 ++ le_bytes 4 1207963647 ++ le_bytes 4 0 ++ le_bytes 4 512)]
  = Some (bytes_of "[mem 0x48000000-0x48000fff]").
Proof. vm_compute. reflexivity. Qed.
