(* ===== verification/Bprintf.v ===== *)
(** * Binary printing: arguments recorded now, formatted later

    [vbin_printf] and [bstr_printf] of [lib/vsprintf.c]
    ([CONFIG_BINARY_PRINTF]), which the kernel's tracing uses to keep the
    formatting out of the traced path: the first one copies the arguments a
    format asks for into a buffer of 32-bit words, the second one formats them
    from there. The theorem says when the text is the one [vsnprintf] would
    have printed; two examples show where the code leaves that contract.

    The buffer is a list of bytes at an aligned address and the pointers into
    it are offsets; [e] is its size in bytes. What a pointer conversion finds
    in memory when it is formatted is the argument [mem]. *)

From stdpp Require Import prelude gmap list strings.
From Stdlib Require Import ZArith Lia.
From S2P Require Import Prelude Vsprintf Bcmutils Printf.

Open Scope Z_scope.
Open Scope list_scope.

Record bin := MkBin { words : list Z; bpos : Z }.

Definition PTR_ALIGN (p n : Z) : Z := Z.land (p + (n - 1)) (Z.lnot (n - 1)).

(** [save_arg] of a type of [n] bytes. *)
Definition save_arg (e : Z) (n : nat) (value : Z) (b : bin) : option bin :=
  let p := PTR_ALIGN (bpos b) (if (n =? 8)%nat then 4 else Z.of_nat n) in
  w ← (if p + Z.of_nat n <=? e then memcpy_at (words b) p (le_bytes n value) (Z.of_nat n)
       else Some (words b));
  Some (MkBin w (p + Z.of_nat n)).

(** The string of a [%s] with its NUL. *)
Definition save_str (e addr : Z) (s : list Z) (b : bin) : option bin :=
  let s := if (4294967296 - PAGE_SIZE <? addr) || (addr <? PAGE_SIZE) then bytes_of "(null)" else s in
  let len := Z.of_nat (length s) + 1 in
  w ← (if bpos b + len <? e then memcpy_at (words b) (bpos b) (s ++ [0]) len else Some (words b));
  Some (MkBin w (bpos b + len)).

Definition vbin_step (e : Z) (fmt : list Z) (spec : printf_spec) (args : list arg) (b : bin)
  : option (list Z * printf_spec * list arg * bin) :=
  let '(fmt, spec) := format_decode fmt spec in
  match type spec with
  | FORMAT_TYPE_NONE | FORMAT_TYPE_INVALID | FORMAT_TYPE_PERCENT_CHAR => Some (fmt, spec, args, b)
  | FORMAT_TYPE_CHAR | FORMAT_TYPE_UBYTE | FORMAT_TYPE_BYTE =>
      '(v, args) ← va_int args; b ← save_arg e 1 v b; Some (fmt, spec, args, b)
  | FORMAT_TYPE_STR =>
      '(a, s, args) ← va_ptr args; b ← save_str e a s b; Some (fmt, spec, args, b)
  | FORMAT_TYPE_PTR =>
      '(a, _, args) ← va_ptr args; b ← save_arg e 4 a b; Some (skip_alnum fmt, spec, args, b)
  | FORMAT_TYPE_NRCHARS =>
      '(_, _, args) ← va_ptr args; Some (fmt, spec, args, b)
  | FORMAT_TYPE_LONG_LONG =>
      '(v, args) ← va_longlong args; b ← save_arg e 8 v b; Some (fmt, spec, args, b)
  | FORMAT_TYPE_ULONG | FORMAT_TYPE_LONG | FORMAT_TYPE_SIZE_T | FORMAT_TYPE_PTRDIFF =>
      '(v, args) ← va_long args; b ← save_arg e 4 v b; Some (fmt, spec, args, b)
  | FORMAT_TYPE_USHORT | FORMAT_TYPE_SHORT =>
      '(v, args) ← va_int args; b ← save_arg e 2 v b; Some (fmt, spec, args, b)
  | FORMAT_TYPE_WIDTH | FORMAT_TYPE_PRECISION | FORMAT_TYPE_UINT | FORMAT_TYPE_INT =>
      '(v, args) ← va_int args; b ← save_arg e 4 v b; Some (fmt, spec, args, b)
  end.

Fixpoint vbin_loop (fuel : nat) (e : Z) (fmt : list Z) (spec : printf_spec) (args : list arg) (b : bin)
  : option bin :=
  match fmt with
  | [] => Some b
  | _ =>
      match fuel with
      | O => None
      | S fuel' =>
          '(fmt, spec, args, b) ← vbin_step e fmt spec args b;
          vbin_loop fuel' e fmt spec args b
      end
  end.

(** The number of words returned and the buffer; [size] counts words. *)
Definition vbin_printf (bin_buf : list Z) (size : Z) (fmt : list Z) (args : list arg) : option (Z * list Z) :=
  b ← vbin_loop (vsnprintf_fuel fmt) (4 * size) fmt spec0 args (MkBin bin_buf 0);
  Some (PTR_ALIGN (bpos b) 4 / 4, words b).

(** [get_arg] of a type of [n] bytes: the bytes as an unsigned number, and
    the new position. *)
Definition get_arg (n : nat) (w : list Z) (a : Z) : option (Z * Z) :=
  let p := PTR_ALIGN a (if (n =? 8)%nat then 4 else Z.of_nat n) in
  if (0 <=? p) && (p + Z.of_nat n <=? Z.of_nat (length w))
  then Some (le_val (take n (drop (Z.to_nat p) w)), p + Z.of_nat n) else None.

(** The string at [a], when there is a NUL. *)
Definition get_str (w : list Z) (a : Z) : option (list Z * Z) :=
  let s := cstr (drop (Z.to_nat a) w) in
  if a + Z.of_nat (length s) <? Z.of_nat (length w) then Some (s, a + Z.of_nat (length s) + 1) else None.

Definition bstr_num (ty : format_type) (w : list Z) (a : Z) : option (Z * Z) :=
  match ty with
  | FORMAT_TYPE_LONG_LONG => get_arg 8 w a
  | FORMAT_TYPE_ULONG | FORMAT_TYPE_LONG | FORMAT_TYPE_SIZE_T | FORMAT_TYPE_UINT => get_arg 4 w a
  | FORMAT_TYPE_PTRDIFF => '(v, a) ← get_arg 4 w a; Some (u64 (s32 v), a)
  | FORMAT_TYPE_UBYTE => get_arg 1 w a
  | FORMAT_TYPE_BYTE => '(v, a) ← get_arg 1 w a; Some (u64 (s8 v), a)
  | FORMAT_TYPE_USHORT => get_arg 2 w a
  | FORMAT_TYPE_SHORT => '(v, a) ← get_arg 2 w a; Some (u64 (s16 v), a)
  | _ => '(v, a) ← get_arg 4 w a; Some (u64 (s32 v), a)
  end.

Definition bstr_step (env : kenv) (mem : Z -> list Z) (e : Z) (fmt : list Z) (spec : printf_spec)
    (w : list Z) (a : Z) (o : out) : option (list Z * printf_spec * Z * out) :=
  let old_fmt := fmt in
  let '(fmt, spec) := format_decode fmt spec in
  let read := Z.of_nat (length old_fmt) - Z.of_nat (length fmt) in
  match type spec with
  | FORMAT_TYPE_NONE =>
      b ← (if str o <? e then
             let copy := if e - str o <? read then e - str o else read in
             memcpy_at (ob o) (str o) old_fmt copy
           else Some (ob o));
      Some (fmt, spec, a, MkOut b (str o + read))
  | FORMAT_TYPE_WIDTH =>
      '(v, a) ← get_arg 4 w a;
      Some (fmt, set_type spec (s16 (s32 v)) (precision spec), a, o)
  | FORMAT_TYPE_PRECISION =>
      '(v, a) ← get_arg 4 w a;
      Some (fmt, set_type spec (field_width spec) (s16 (s32 v)), a, o)
  | FORMAT_TYPE_CHAR =>
      '(wd, o) ← (if negb (has (flags spec) LEFT) then pad e 1 32 (field_width spec) o
                  else Some (field_width spec, o));
      '(v, a) ← get_arg 1 w a;
      o ← put e v o;
      '(wd, o) ← pad e 1 32 wd o;
      Some (fmt, set_type spec wd (precision spec), a, o)
  | FORMAT_TYPE_STR =>
      '(s, a) ← get_str w a;
      o ← string e kernel_address s spec o;
      Some (fmt, spec, a, o)
  | FORMAT_TYPE_PTR =>
      '(p, a) ← get_arg 4 w a;
      o ← pointer env e (drop 1 fmt) p (mem p) spec o;
      Some (skip_alnum fmt, spec, a, o)
  | FORMAT_TYPE_PERCENT_CHAR | FORMAT_TYPE_INVALID =>
      o ← put e 37 o; Some (fmt, spec, a, o)
  | FORMAT_TYPE_NRCHARS => Some (fmt, spec, a, o)
  | ty =>
      '(num, a) ← bstr_num ty w a;
      o ← number e num spec o;
      Some (fmt, spec, a, o)
  end.

Fixpoint bstr_loop (fuel : nat) (env : kenv) (mem : Z -> list Z) (e : Z) (fmt : list Z)
    (spec : printf_spec) (w : list Z) (a : Z) (o : out) : option out :=
  match fmt with
  | [] => Some o
  | _ =>
      match fuel with
      | O => None
      | S fuel' =>
          '(fmt, spec, a, o) ← bstr_step env mem e fmt spec w a o;
          bstr_loop fuel' env mem e fmt spec w a o
      end
  end.

(** The value returned and the object at [buf]. *)
Definition bstr_printf (env : kenv) (mem : Z -> list Z) (buf : Z) (b : list Z) (size : Z) (fmt : list Z)
    (bin_buf : list Z) : option (Z * list Z) :=
  if s32 size <? 0 then Some (0, b)
  else
    let e := if u32 (buf + size) <? buf then UINT_MAX - buf else size in
    o ← bstr_loop (vsnprintf_fuel fmt) env mem e fmt spec0 bin_buf 0 (MkOut b 0);
    b ← (if 0 <? e then
           if str o <? e then zset (ob o) (str o) 0 else zset (ob o) (e - 1) 0
         else Some (ob o));
    Some (str o, b).

Example bprintf_ex :
  ('(n, w) ← vbin_printf (replicate 32 0) 8 (bytes_of "%c%s:%5d %llx")
      [AInt 97; APtr 3221225500 (bytes_of "cpu"); AInt (-7); ALongLong (-1)];
   '(r, b) ← bstr_printf plain_env (fun _ => []) 3221225472 (replicate 40 0) 40 (bytes_of "%c%s:%5d %llx") w;
   Some (n, r, cstr b)) = Some (5, 27, bytes_of "acpu:   -7 ffffffffffffffff").
Proof. vm_compute. reflexivity. Qed.

(** On this 32-bit machine a negative [long] loses its sign: [bstr_printf]
    reads it as an [unsigned long]. *)
Example negative_long_unsigned :
  ('(_, w) ← vbin_printf (replicate 8 0) 2 (bytes_of "%ld") [ALong (-1)];
   '(_, b) ← bstr_printf plain_env (fun _ => []) 3221225472 (replicate 16 0) 16 (bytes_of "%ld") w;
   Some (cstr b)) = Some (bytes_of "4294967295") /\
  (fun r => cstr (obuf r)) <$> vsnprintf plain_env 3221225472 (replicate 16 0) 16 (bytes_of "%ld") [ALong (-1)]
    = Some (bytes_of "-1").
Proof. vm_compute. split; reflexivity. Qed.

(** A string that fills the buffer exactly is not stored, although the number
    of words returned says that everything was. *)
Example exact_string_lost :
  vbin_printf (replicate 4 90) 1 (bytes_of "%s") [APtr 3221225500 (bytes_of "abc")] = Some (1, replicate 4 90).
Proof. vm_compute. reflexivity. Qed.

(** ** The two specifications of a format run

    [vbin_printf] does not look at the widths it records, so its
    specification differs from the one of the formatting run, but not in what
    the next token depends on. *)
Definition sim (s s' : printf_spec) : Prop :=
  type s = type s' /\ (pending (type s) = true -> has (flags s) SIGN = has (flags s') SIGN).

Section sim_proofs.

Lemma has_sign fl : has fl SIGN = Z.testbit fl 1.
Proof.
  assert (Z.land fl SIGN = if Z.testbit fl 1 then 2 else 0) as E.
  { apply Z.bits_inj'. intros n Hn. rewrite Z.land_spec. change SIGN with (2 ^ 1). rewrite Z.pow2_bits_eqb by lia.
    destruct (Z.eqb_spec 1 n) as [<-|Hne]; [by destruct (Z.testbit fl 1)|]. rewrite andb_false_r.
    destruct (Z.testbit fl 1); [|by rewrite Z.bits_0]. change 2 with (2 ^ 1). rewrite Z.pow2_bits_eqb by lia.
    by destruct (Z.eqb_spec 1 n). }
  unfold has. rewrite E. by destruct (Z.testbit fl 1).
Qed.

Lemma has_lor_left fl : has (Z.lor fl LEFT) SIGN = has fl SIGN.
Proof. unfold has. by rewrite Z.land_lor_distr_l, Z.lor_0_r. Qed.

Lemma number_type_sign q fl fl' : has fl SIGN = has fl' SIGN -> number_type q fl = number_type q fl'.
Proof. intros E. unfold number_type. by rewrite E. Qed.

Lemma decode_qualifier_sim fmt fl w prec fl' w' prec' :
  has fl SIGN = has fl' SIGN ->
  (decode_qualifier fmt fl w prec).1 = (decode_qualifier fmt fl' w' prec').1 /\
  sim (decode_qualifier fmt fl w prec).2 (decode_qualifier fmt fl' w' prec').2.
Proof.
  intros E. unfold decode_qualifier. fold (take_qualifier fmt). destruct (take_qualifier fmt) as [q fmt1]. cbv zeta.
  assert (forall x, has (Z.lor fl x) SIGN = has (Z.lor fl' x) SIGN) as El.
  { intros x. rewrite !has_sign in *. by rewrite !Z.lor_spec, E. }
  unfold sim. repeat case_match; cbn [fst snd type flags]; (split; [done|]); (split; [|by try apply number_type_plain]);
    try done; apply number_type_sign; auto.
Qed.

Lemma decode_precision_sim fmt fl w old fl' w' old' :
  has fl SIGN = has fl' SIGN ->
  (decode_precision fmt fl w old).1 = (decode_precision fmt fl' w' old').1 /\
  sim (decode_precision fmt fl w old).2 (decode_precision fmt fl' w' old').2.
Proof.
  intros E. unfold decode_precision. destruct (ch fmt =? 46); [|by apply decode_qualifier_sim].
  destruct (isdigit (ch (drop 1 fmt))).
  - destruct (skip_atoi (drop 1 fmt)). by apply decode_qualifier_sim.
  - destruct (ch (drop 1 fmt) =? 42); [done|]. by apply decode_qualifier_sim.
Qed.

Lemma format_decode_sim fmt s s' :
  sim s s' ->
  (format_decode fmt s).1 = (format_decode fmt s').1 /\ sim (format_decode fmt s).2 (format_decode fmt s').2.
Proof.
  intros [E Ef]. unfold format_decode. rewrite <- E. destruct (type s); cbn [pending] in Ef.
  all: try (case_match; [done|]; destruct (decode_flags (drop 1 fmt) 0) as [fl rest];
    destruct (isdigit (ch rest)); [destruct (skip_atoi rest); by apply decode_precision_sim|];
    destruct (ch rest =? 42); [done|]; by apply decode_precision_sim).
  - specialize (Ef eq_refl). destruct (_ <? _), (_ <? _); apply decode_precision_sim; by rewrite ?has_lor_left.
  - by apply decode_qualifier_sim, Ef.
Qed.

End sim_proofs.

(** ** What was saved is read back *)

(** The first [k] bytes are the same. *)
Definition agree (k : Z) (w w' : list Z) : Prop :=
  k <= Z.of_nat (length w) /\ k <= Z.of_nat (length w') /\ take (Z.to_nat k) w = take (Z.to_nat k) w'.

Section saved.

Lemma align_ge p n : n = 1 \/ n = 2 \/ n = 4 -> p <= PTR_ALIGN p n.
Proof.
  intros Hn. unfold PTR_ALIGN. rewrite <- Z.ldiff_land.
  destruct Hn as [->|[->| ->]].
  - change (1 - 1) with (Z.ones 0). rewrite Z.ldiff_ones_r, Z.shiftr_0_r, Z.shiftl_0_r by lia. change (Z.ones 0) with 0. lia.
  - change (2 - 1) with (Z.ones 1). rewrite Z.ldiff_ones_r, Z.shiftl_mul_pow2, Z.shiftr_div_pow2 by lia.
    change (Z.ones 1) with 1. dlia.
  - change (4 - 1) with (Z.ones 2). rewrite Z.ldiff_ones_r, Z.shiftl_mul_pow2, Z.shiftr_div_pow2 by lia.
    change (Z.ones 2) with 3. dlia.
Qed.

Lemma le_val_le_bytes n x : le_val (le_bytes n x) = x mod 256 ^ Z.of_nat n.
Proof.
  revert x. induction n as [|n IH]; intros x; cbn [le_bytes le_val]; [by rewrite Z.mod_1_r|].
  rewrite IH, Nat2Z.inj_succ, Z.pow_succ_r by lia. rewrite Z.rem_mul_r by lia. done.
Qed.

Lemma memcpy_at_facts w p t n w' :
  0 <= p -> memcpy_at w p t n = Some w' -> n = Z.of_nat (length t) ->
  p + n <= Z.of_nat (length w) /\ w' = take (Z.to_nat p) w ++ t ++ drop (Z.to_nat (p + n)) w /\ length w' = length w.
Proof.
  intros Hp H ->. unfold memcpy_at in H.
  destruct (Z.leb_spec (Z.of_nat (length t)) (Z.of_nat (length t))); [|lia].
  destruct (Z.leb_spec (p + Z.of_nat (length t)) (Z.of_nat (length w))); [|done]. injection H as <-.
  rewrite (take_ge t) by lia. split; [done|]. split; [done|]. rewrite !length_app, length_take, length_drop. lia.
Qed.

(** Bytes copied behind [k] leave the first [k] alone, and can be read. *)
Lemma memcpy_at_agree w p t w' k :
  0 <= k <= p -> k <= Z.of_nat (length w) -> memcpy_at w p t (Z.of_nat (length t)) = Some w' -> agree k w' w.
Proof.
  intros Hk Hl H. destruct (memcpy_at_facts w p t (Z.of_nat (length t)) w') as (H1 & -> & H2); [lia|done|done|].
  split; [lia|]. split; [lia|]. rewrite take_app_le by (rewrite length_take; lia). rewrite take_take. f_equal. lia.
Qed.

Lemma agree_read w p t w' W :
  0 <= p -> memcpy_at w p t (Z.of_nat (length t)) = Some w' -> agree (p + Z.of_nat (length t)) W w' ->
  exists rest, drop (Z.to_nat p) W = t ++ rest.
Proof.
  intros Hp H (H1 & H2 & H3). destruct (memcpy_at_facts _ _ _ _ _ Hp H eq_refl) as (H4 & -> & H5).
  exists (drop (Z.to_nat (p + Z.of_nat (length t))) W).
  rewrite <- (take_drop (Z.to_nat (p + Z.of_nat (length t))) W) at 1. rewrite H3.
  rewrite app_assoc, take_app_le by (rewrite length_app, length_take; lia).
  rewrite (take_ge (take _ _ ++ _)) by (rewrite length_app, length_take; lia).
  rewrite <- app_assoc, drop_app_ge by (rewrite length_take; lia).
  by replace (Z.to_nat p - length (take (Z.to_nat p) w))%nat with 0%nat by (rewrite length_take; lia).
Qed.

Lemma agree_trans k w1 w2 w3 : agree k w1 w2 -> agree k w2 w3 -> agree k w1 w3.
Proof. intros (? & ? & E) (? & ? & E'). split; [done|]. split; [done|]. by rewrite E. Qed.

Lemma agree_le k k' w w' : agree k w w' -> 0 <= k' <= k -> agree k' w w'.
Proof.
  intros (H1 & H2 & E) Hk. split; [lia|]. split; [lia|].
  replace (Z.to_nat k') with (Nat.min (Z.to_nat k') (Z.to_nat k)) by lia. by rewrite <- !take_take, E.
Qed.

Lemma agree_refl k w : k <= Z.of_nat (length w) -> agree k w w.
Proof. done. Qed.

Definition arg_size (n : nat) : Prop := n = 1%nat \/ n = 2%nat \/ n = 4%nat \/ n = 8%nat.

(** The buffer [b'] extends [b]. *)
Definition extends (e : Z) (b b' : bin) : Prop :=
  bpos b <= bpos b' /\ length (words b') = length (words b) /\
  (bpos b' < e -> agree (bpos b) (words b') (words b)).

Lemma save_arg_spec e n v b b' :
  arg_size n -> 0 <= bpos b -> e <= Z.of_nat (length (words b)) -> save_arg e n v b = Some b' ->
  extends e b b' /\
  (bpos b' < e -> forall W, agree (bpos b') W (words b') ->
     get_arg n W (bpos b) = Some (v mod 256 ^ Z.of_nat n, bpos b')).
Proof.
  intros Hn Hp He H. unfold save_arg in H. set (p := PTR_ALIGN _ _) in *.
  assert (bpos b <= p) as Hge by (apply align_ge; destruct Hn as [->|[->|[->| ->]]]; cbn; lia).
  destruct (Z.leb_spec (p + Z.of_nat n) e) as [Hle|Hgt].
  - destruct (memcpy_at (words b) p (le_bytes n v) (Z.of_nat n)) as [w|] eqn:E; [|done]. injection H as <-.
    rewrite <- (length_le_bytes n v) in E at 2. pose proof (length_le_bytes n v) as Hlb. cbn [bpos words].
    destruct (memcpy_at_facts (words b) p (le_bytes n v) (Z.of_nat (length (le_bytes n v))) w) as (F1 & _ & F2); [lia|done|done|].
    split; [split; [cbn [bpos]; lia|]; split; [done|]; intros _; eapply (memcpy_at_agree _ p); [lia|lia|exact E]|].
    intros _ W HW. unfold get_arg. fold p. destruct HW as (HW1 & HW2 & HW3).
    destruct (Z.leb_spec 0 p); [|lia]. destruct (Z.leb_spec (p + Z.of_nat n) (Z.of_nat (length W))); [|lia]. cbn [andb].
    destruct (agree_read (words b) p (le_bytes n v) w W) as [rest ->]; [lia|done|by rewrite Hlb|].
    do 2 f_equal. rewrite take_app_le, take_ge by lia. apply le_val_le_bytes.
  - injection H as <-. cbn [bpos words]. split; [|lia]. split; [cbn [bpos]; lia|]. split; [done|]. cbn [bpos]. lia.
Qed.

Definition saved_str (addr : Z) (s : list Z) : list Z :=
  if (4294967296 - PAGE_SIZE <? addr) || (addr <? PAGE_SIZE) then bytes_of "(null)" else s.

Lemma cstr_prefix t rest : Forall (fun c => c <> 0) t -> cstr ((t ++ [0]) ++ rest) = t.
Proof. intros. rewrite <- app_assoc. by apply cstr_app. Qed.

Lemma save_str_spec e addr s b b' :
  0 <= bpos b -> e <= Z.of_nat (length (words b)) -> save_str e addr s b = Some b' ->
  extends e b b' /\
  (bpos b' < e -> Forall (fun c => c <> 0) s -> forall W, agree (bpos b') W (words b') ->
     get_str W (bpos b) = Some (saved_str addr s, bpos b')).
Proof.
  intros Hp He H. unfold save_str in H. fold (saved_str addr s) in H. set (t := saved_str addr s) in *.
  assert (Z.of_nat (length t) + 1 = Z.of_nat (length (t ++ [0]))) as Hlt by (rewrite length_app; cbn [length]; lia).
  rewrite Hlt in H. destruct (Z.ltb_spec (bpos b + Z.of_nat (length (t ++ [0]))) e) as [Hle|Hgt].
  - destruct (memcpy_at _ _ _ _) as [w|] eqn:E; [|done]. injection H as <-. cbn [bpos words].
    destruct (memcpy_at_facts (words b) (bpos b) (t ++ [0]) (Z.of_nat (length (t ++ [0]))) w) as (F1 & _ & F2); [lia|done|done|].
    split; [split; [cbn [bpos]; lia|]; split; [done|]; intros _; eapply (memcpy_at_agree _ (bpos b)); [lia|lia|exact E]|].
    intros _ Hs W HW. destruct (agree_read (words b) (bpos b) (t ++ [0]) w W) as [rest Hr]; [lia|done|done|].
    unfold get_str. rewrite Hr, cstr_prefix.
    2: { subst t. unfold saved_str. destruct (_ || _); [|done]. repeat (constructor; [discriminate|]). constructor. }
    destruct HW as (HW1 & HW2 & HW3). destruct (Z.ltb_spec (bpos b + Z.of_nat (length t)) (Z.of_nat (length W))); [|lia].
    do 2 f_equal. lia.
  - injection H as <-. cbn [bpos words]. split; [|lia]. split; [cbn [bpos]; lia|]. split; [done|]. cbn [bpos]. lia.
Qed.

Lemma rec_extends_refl e b : e <= Z.of_nat (length (words b)) -> extends e b b.
Proof. intros. split; [lia|]. split; [done|]. intros. apply agree_refl. lia. Qed.

Lemma rec_extends_trans e b1 b2 b3 : 0 <= bpos b1 -> extends e b1 b2 -> extends e b2 b3 -> extends e b1 b3.
Proof.
  intros Hp (A1 & A2 & A3) (B1 & B2 & B3). split; [lia|]. split; [congruence|]. intros Hlt.
  eapply agree_trans; [eapply agree_le; [by apply B3|lia]|apply A3; lia].
Qed.

Lemma vbin_step_extends e fmt spec args b f s a b' :
  0 <= bpos b -> e <= Z.of_nat (length (words b)) ->
  vbin_step e fmt spec args b = Some (f, s, a, b') -> extends e b b'.
Proof.
  intros Hp He H. unfold vbin_step in H. destruct (format_decode fmt spec) as [rest s1].
  assert (forall n v b1, arg_size n -> save_arg e n v b = Some b1 -> extends e b b1) as Hsave
    by (intros n v b1 Hn E; by apply save_arg_spec in E as [? _]).
  unfold arg_size in Hsave.
  destruct (type s1); destruct args as [|[] args]; cbn [va_int va_long va_longlong va_ptr mbind option_bind] in H;
    try done; try (injection H as <- <- <- <-; by apply rec_extends_refl).
  all: try (destruct (save_arg e _ _ b) as [b1|] eqn:E; [|done]; injection H as <- <- <- <-; eapply Hsave, E; tauto).
  destruct (save_str e addr obj b) as [b1|] eqn:E; [|done]. injection H as <- <- <- <-. by apply save_str_spec in E as [? _].
Qed.

Lemma vbin_loop_extends fuel e fmt spec args b b' :
  0 <= bpos b -> e <= Z.of_nat (length (words b)) -> vbin_loop fuel e fmt spec args b = Some b' -> extends e b b'.
Proof.
  revert fmt spec args b. induction fuel as [|fuel IH]; intros fmt spec args b Hp He H.
  { destruct fmt; [|done]. injection H as <-. by apply rec_extends_refl. }
  destruct fmt as [|c fmt]; [injection H as <-; by apply rec_extends_refl|]. cbn [vbin_loop] in H.
  destruct (vbin_step e (c :: fmt) spec args b) as [[[[f s] a] b1]|] eqn:E; [|done]. cbn [mbind option_bind] in H.
  apply vbin_step_extends in E; [|done|done]. pose proof E as (E1 & E2 & _).
  eapply rec_extends_trans; [done|exact E|]. eapply IH; [lia|by rewrite E2|exact H].
Qed.

End saved.

(** ** The recorded arguments *)

(** What [bstr_printf] needs of an argument: the memory a pointer conversion
    looks at has not changed, a string does not lie at the top of the address
    space, and a [long] printed with a sign is not negative. *)
Definition token_safe (mem : Z -> list Z) (ty : format_type) (a : arg) : Prop :=
  match ty, a with
  | FORMAT_TYPE_STR, APtr addr obj => Forall (fun c => c <> 0) obj /\ addr <= 4294967296 - PAGE_SIZE
  | FORMAT_TYPE_PTR, APtr addr obj => 0 <= addr < 2 ^ 32 /\ mem addr = obj
  | FORMAT_TYPE_LONG, ALong v => 0 <= s32 v
  | _, _ => True
  end.

Fixpoint recorded_ok (mem : Z -> list Z) (fuel : nat) (fmt : list Z) (spec : printf_spec) (args : list arg) : Prop :=
  match fmt, fuel with
  | [], _ | _, O => True
  | _, S fuel' =>
      let '(rest, s) := format_decode fmt spec in
      let next := recorded_ok mem fuel' (token_rest (type s) rest) s in
      match token_kinds (type s) rest, args with
      | [], _ => next args
      | _, a :: args' => token_safe mem (type s) a /\ next args'
      | _, [] => False
      end
  end.

Section lockstep.
Context (env : kenv) (mem : Z -> list Z).

Lemma wraps_mod w x : 0 < w -> wraps w (x mod 2 ^ w) = wraps w x.
Proof. intros. unfold wraps. by rewrite Zplus_mod_idemp_l. Qed.

Lemma s32_back v : s32 (s32 v mod 256 ^ 4) = s32 v.
Proof. change (256 ^ 4) with (2 ^ 32). unfold s32 at 1. rewrite (wraps_mod 32) by lia. apply s32_id, s32_range. Qed.

(** The number formatted from the record is the number of the argument. *)
Lemma bstr_num_va ty e a args v args1 b b' W :
  match ty with
  | FORMAT_TYPE_LONG_LONG => va_longlong (a :: args) | FORMAT_TYPE_ULONG | FORMAT_TYPE_LONG | FORMAT_TYPE_SIZE_T
  | FORMAT_TYPE_PTRDIFF => va_long (a :: args) | _ => va_int (a :: args) end = Some (v, args1) ->
  token_safe mem ty a -> 0 <= bpos b -> e <= Z.of_nat (length (words b)) -> bpos b' < e -> agree (bpos b') W (words b') ->
  let n := match ty with
    | FORMAT_TYPE_LONG_LONG => 8%nat | FORMAT_TYPE_UBYTE | FORMAT_TYPE_BYTE => 1%nat
    | FORMAT_TYPE_USHORT | FORMAT_TYPE_SHORT => 2%nat | _ => 4%nat end in
  match ty with
  | FORMAT_TYPE_LONG_LONG | FORMAT_TYPE_ULONG | FORMAT_TYPE_LONG | FORMAT_TYPE_SIZE_T | FORMAT_TYPE_PTRDIFF
  | FORMAT_TYPE_UBYTE | FORMAT_TYPE_BYTE | FORMAT_TYPE_USHORT | FORMAT_TYPE_SHORT | FORMAT_TYPE_UINT | FORMAT_TYPE_INT => True
  | _ => False end ->
  save_arg e n v b = Some b' ->
  exists x, va_num ty (a :: args) = Some (x, args1) /\ bstr_num ty W (bpos b) = Some (x, bpos b').
Proof.
  intros Hv Hs Hp He Hlt HW n Hty H. apply save_arg_spec in H as [_ Hget];
    [|unfold arg_size; subst n; destruct ty; tauto|done|done].
  specialize (Hget Hlt W HW). subst n.
  destruct ty; try done; destruct a as [x|x|x|]; try done; injection Hv as <- <-; unfold va_num, bstr_num;
    cbn [va_int va_long va_longlong mbind option_bind]; rewrite Hget; cbn [mbind option_bind];
    eexists; (split; [reflexivity|]); do 2 f_equal.
  all: try (change (256 ^ Z.of_nat 4) with (256 ^ 4); by rewrite s32_back).
  all: try done.
  - cbn [token_safe] in Hs. pose proof (s32_range x). change (256 ^ Z.of_nat 4) with (2 ^ 32).
    rewrite Z.mod_small by lia. unfold u64. by rewrite wrapu_id by lia.
  - change (256 ^ Z.of_nat 1) with (2 ^ 8). unfold s8. by rewrite (wraps_mod 8) by lia.
  - change (256 ^ Z.of_nat 2) with (2 ^ 16). unfold s16. by rewrite (wraps_mod 16) by lia.
Qed.

(** One round: the formatting run does with the record what [vsnprintf] does
    with the arguments. *)
Definition round_sync (E : Z) (fmt : list Z) (spec : printf_spec) (args : list arg) (stores : list Z) (o : out)
    (W : list Z) (a a1 : Z) (f1 : list Z) (sv1 : printf_spec) (args1 : list arg) : Prop :=
  bstr_step env mem E fmt spec W a o =
    ('(f, s, _, _, o) ← vsnprintf_step env E fmt spec args stores o; Some (f, s, a1, o)) /\
  forall f s a st o', vsnprintf_step env E fmt spec args stores o = Some (f, s, a, st, o') ->
    f = f1 /\ a = args1 /\ sim s sv1.

(** The tokens of a round: both runs decode the same one. *)
Record same_token (fmt : list Z) (spec specv s s' : printf_spec) (rest : list Z) : Prop := {
  st_run : format_decode fmt spec = (rest, s);
  st_bin : format_decode fmt specv = (rest, s');
  st_sim : sim s s' }.

Ltac sync_done := split; [done|]; intros ????? [= <- <- <- <- <-]; done.

Context (E e : Z) (fmt : list Z) (spec specv s s' : printf_spec) (rest : list Z) (stores : list Z) (o : out)
        (b b1 : bin) (W f1 : list Z) (sv1 : printf_spec) (args args1 : list arg).
Hypothesis token : same_token fmt spec specv s s' rest.
Hypothesis start : 0 <= bpos b.
Hypothesis object : e <= Z.of_nat (length (words b)).
Hypothesis saved_here : vbin_step e fmt specv args b = Some (f1, sv1, args1, b1).
Hypothesis inside : bpos b1 < e.
Hypothesis unchanged : agree (bpos b1) W (words b1).

Lemma get_saved n v : save_arg e n v b = Some b1 -> arg_size n ->
  get_arg n W (bpos b) = Some (v mod 256 ^ Z.of_nat n, bpos b1).
Proof. intros Hs Hn. apply save_arg_spec in Hs as [_ Hg]; auto. Qed.

Lemma sync_plain :
  token_kinds (type s') rest = [] -> round_sync E fmt spec args stores o W (bpos b) (bpos b1) f1 sv1 args1.
Proof.
  destruct token as [H1 H2 H3]. pose proof H3 as [Ety _]. revert saved_here.
  unfold round_sync, bstr_step, vsnprintf_step, vbin_step. rewrite H1, H2, Ety.
  destruct (type s'); try done; intros [= <- <- <- <-] _.
  - destruct (if str o <? E then _ else _); cbn [mbind option_bind]; [|done]. sync_done.
  - destruct (put E 37 o); cbn [mbind option_bind]; [|done]. sync_done.
  - destruct (put E 37 o); cbn [mbind option_bind]; [|done]. sync_done.
Qed.

Lemma sync_star :
  type s' = FORMAT_TYPE_WIDTH \/ type s' = FORMAT_TYPE_PRECISION ->
  round_sync E fmt spec args stores o W (bpos b) (bpos b1) f1 sv1 args1.
Proof.
  destruct token as [H1 H2 H3]. pose proof H3 as [Ety _]. revert saved_here.
  unfold round_sync, bstr_step, vsnprintf_step, vbin_step. rewrite H1, H2, Ety. intros H Ht.
  assert (exists v args', args = AInt v :: args' /\ save_arg e 4 (s32 v) b = Some b1 /\ f1 = rest /\ sv1 = s' /\ args1 = args')
    as (v & args' & -> & Hs & -> & -> & ->).
  { destruct Ht as [Ht|Ht]; rewrite Ht in H; destruct args as [|[v| | |] args']; try done; cbn [va_int mbind option_bind] in H;
      (destruct (save_arg e 4 (s32 v) b) as [b2|] eqn:Eb; [|done]); injection H as <- <- <- <-; eauto 10. }
  rewrite (get_saved _ _ Hs) by (unfold arg_size; tauto). cbn [va_int mbind option_bind].
  change (256 ^ Z.of_nat 4) with (256 ^ 4). rewrite s32_back. destruct Ht as [-> | ->]; sync_done.
Qed.

Lemma sync_char :
  type s' = FORMAT_TYPE_CHAR -> round_sync E fmt spec args stores o W (bpos b) (bpos b1) f1 sv1 args1.
Proof.
  destruct token as [H1 H2 H3]. pose proof H3 as [Ety _]. revert saved_here.
  unfold round_sync, bstr_step, vsnprintf_step, vbin_step. rewrite H1, H2, Ety. intros H Ht. rewrite Ht in *.
  destruct args as [|[v| | |] args']; try done. cbn [va_int mbind option_bind] in *.
  destruct (save_arg e 1 (s32 v) b) as [b2|] eqn:Eb; [|done]. injection H as <- <- <- Hb. subst b2.
  rewrite (get_saved _ _ Eb) by (unfold arg_size; tauto).
  destruct (if negb (has (flags s) LEFT) then _ else _) as [[w o1]|]; cbn [mbind option_bind]; [|done].
  change (s32 v mod 256 ^ Z.of_nat 1) with (u8 (s32 v)).
  destruct (put E (u8 (s32 v)) o1) as [o2|]; cbn [mbind option_bind]; [|done].
  destruct (pad E 1 32 w o2) as [[w2 o3]|]; cbn [mbind option_bind]; [|done]. sync_done.
Qed.

Lemma sync_str :
  type s' = FORMAT_TYPE_STR -> (forall a args', args = a :: args' -> token_safe mem FORMAT_TYPE_STR a) ->
  round_sync E fmt spec args stores o W (bpos b) (bpos b1) f1 sv1 args1.
Proof.
  destruct token as [H1 H2 H3]. pose proof H3 as [Ety _]. revert saved_here.
  unfold round_sync, bstr_step, vsnprintf_step, vbin_step. rewrite H1, H2, Ety. intros H Ht Hsafe. rewrite Ht in *.
  destruct args as [|[| | |addr obj] args']; try done. cbn [va_ptr mbind option_bind] in *.
  destruct (Hsafe _ _ eq_refl) as [Hz Ha]. destruct (save_str e addr obj b) as [b2|] eqn:Eb; [|done]. injection H as <- <- <- Hb. subst b2.
  apply save_str_spec in Eb as [_ Hg]; [|done|done]. rewrite (Hg inside Hz W unchanged). cbn [mbind option_bind].
  assert (string E kernel_address (saved_str addr obj) s o = string E addr obj s o) as ->.
  { unfold saved_str, string. destruct (Z.ltb_spec (4294967296 - PAGE_SIZE) addr); [lia|]. cbn [orb].
    change (kernel_address <? PAGE_SIZE) with false. by destruct (addr <? PAGE_SIZE). }
  destruct (string E addr obj s o); cbn [mbind option_bind]; [|done]. sync_done.
Qed.

Lemma sync_ptr :
  type s' = FORMAT_TYPE_PTR \/ type s' = FORMAT_TYPE_NRCHARS ->
  (forall a args', args = a :: args' -> token_safe mem (type s') a) ->
  round_sync E fmt spec args stores o W (bpos b) (bpos b1) f1 sv1 args1.
Proof.
  destruct token as [H1 H2 H3]. pose proof H3 as [Ety _]. revert saved_here.
  unfold round_sync, bstr_step, vsnprintf_step, vbin_step. rewrite H1, H2, Ety. intros H Ht Hsafe.
  destruct Ht as [Ht|Ht]; rewrite Ht in *; destruct args as [|[| | |addr obj] args']; try done;
    cbn [va_ptr mbind option_bind] in *.
  - destruct (Hsafe _ _ eq_refl) as [Ha Hm]. destruct (save_arg e 4 addr b) as [b2|] eqn:Eb; [|done].
    injection H as <- <- <- Hb. subst b2. rewrite (get_saved _ _ Eb) by (unfold arg_size; tauto). cbn [mbind option_bind].
    change (256 ^ Z.of_nat 4) with (2 ^ 32). rewrite (Z.mod_small addr), Hm by lia.
    destruct (pointer env E (drop 1 rest) addr obj s o); cbn [mbind option_bind]; [|done]. sync_done.
  - injection H as <- <- <- <-. sync_done.
Qed.

(** The types of the numbers. *)
Definition number_token (ty : format_type) : bool :=
  match ty with
  | FORMAT_TYPE_LONG_LONG | FORMAT_TYPE_ULONG | FORMAT_TYPE_LONG | FORMAT_TYPE_SIZE_T | FORMAT_TYPE_PTRDIFF
  | FORMAT_TYPE_UBYTE | FORMAT_TYPE_BYTE | FORMAT_TYPE_USHORT | FORMAT_TYPE_SHORT | FORMAT_TYPE_UINT
  | FORMAT_TYPE_INT => true
  | _ => false
  end.

Lemma sync_number :
  number_token (type s') = true -> (forall a args', args = a :: args' -> token_safe mem (type s') a) ->
  round_sync E fmt spec args stores o W (bpos b) (bpos b1) f1 sv1 args1.
Proof.
  destruct token as [H1 H2 H3]. pose proof H3 as [Ety _]. revert saved_here.
  unfold round_sync, bstr_step, vsnprintf_step, vbin_step. rewrite H1, H2, Ety. intros H Hn Hsafe.
  assert (exists x, va_num (type s') args = Some (x, args1) /\ bstr_num (type s') W (bpos b) = Some (x, bpos b1) /\
    f1 = rest /\ sv1 = s') as (x & Hx1 & Hx2 & -> & ->).
  { destruct args as [|a args']; [by destruct (type s')|]. specialize (Hsafe a args' eq_refl).
    pose proof (bstr_num_va (type s') e a args') as Hva. cbv zeta in Hva.
    destruct (type s'); try done; destruct a as [v|v|v|]; try done; cbn [va_int va_long va_longlong mbind option_bind] in H, Hva;
      (destruct (save_arg e _ _ b) as [b2|] eqn:Eb; [|done]); injection H as <- <- <- Hb; subst b2;
      destruct (Hva _ _ b b1 W eq_refl Hsafe start object inside unchanged I Eb) as (x & ? & ?); eauto. }
  destruct (type s'); try done; rewrite Hx1, Hx2; cbn [mbind option_bind];
    (destruct (number E x s o) as [o'|]; cbn [mbind option_bind]; [|done]); sync_done.
Qed.

Lemma step_sync :
  (token_kinds (type s') rest = [] \/ exists a args', args = a :: args' /\ token_safe mem (type s') a) ->
  round_sync E fmt spec args stores o W (bpos b) (bpos b1) f1 sv1 args1.
Proof.
  intros H. assert (token_kinds (type s') rest <> [] -> forall a args', args = a :: args' -> token_safe mem (type s') a) as Hs.
  { intros Hne a args' Ha. destruct H as [|(a' & args'' & Ha' & Hsafe)]; [done|]. by simplify_eq. }
  destruct (type s') eqn:Hty; try (apply sync_plain; by rewrite Hty);
    try (apply sync_number; rewrite Hty; [done|by apply Hs]).
  - apply sync_star. tauto.
  - apply sync_star. tauto.
  - by apply sync_char.
  - apply sync_str; [done|by apply Hs].
  - apply sync_ptr; rewrite Hty; [tauto|by apply Hs].
  - apply sync_ptr; rewrite Hty; [tauto|by apply Hs].
Qed.

End lockstep.

Section lockstep_loop.
Context (env : kenv) (mem : Z -> list Z).

(** The result of the token and of the argument it takes. *)
Lemma vbin_step_shape e fmt specv args b f1 sv1 args1 b1 fuel :
  fmt <> [] -> vbin_step e fmt specv args b = Some (f1, sv1, args1, b1) ->
  recorded_ok mem (S fuel) fmt specv args ->
  exists rest, format_decode fmt specv = (rest, sv1) /\ recorded_ok mem fuel f1 sv1 args1 /\
    (token_kinds (type sv1) rest = [] \/ exists a args', args = a :: args' /\ token_safe mem (type sv1) a).
Proof.
  intros Hne H Hr. assert (recorded_ok mem (S fuel) fmt specv args = let '(rest, s) := format_decode fmt specv in
      let next := recorded_ok mem fuel (token_rest (type s) rest) s in
      match token_kinds (type s) rest, args with
      | [], _ => next args | _, a :: args' => token_safe mem (type s) a /\ next args' | _, [] => False end) as E
    by (by destruct fmt). rewrite E in Hr. clear E. unfold vbin_step in H.
  destruct (format_decode fmt specv) as [rest s]. exists rest.
  destruct (type s) eqn:Hty; cbn [token_kinds token_rest] in Hr;
    try (injection H as <- <- <- <-; rewrite Hty; cbn [token_kinds]; auto; fail).
  all: destruct args as [|a args']; [done|]; destruct Hr as [Hsafe Hr].
  all: destruct a; try done; cbn [va_int va_long va_longlong va_ptr mbind option_bind] in H.
  all: try (destruct (save_arg e _ _ b); [|done]); try (destruct (save_str e _ _ b); [|done]).
  all: injection H as <- <- <- <-; rewrite Hty; split; [done|]; split; [done|]; right; eauto.
Qed.

Lemma loop_sync fuel E e fmt spec specv args stores o b b' W :
  sim spec specv -> 0 <= bpos b -> e <= Z.of_nat (length (words b)) ->
  vbin_loop fuel e fmt specv args b = Some b' -> bpos b' < e -> agree (bpos b') W (words b') ->
  recorded_ok mem fuel fmt specv args ->
  bstr_loop fuel env mem E fmt spec W (bpos b) o =
    ('(_, o) ← vsnprintf_loop fuel env E fmt spec args stores o; Some o).
Proof.
  revert fmt spec specv args stores o b. induction fuel as [|fuel IH]; intros fmt spec specv args stores o b Hsim Hp He H Hlt HW Hr.
  { by destruct fmt. }
  destruct (decide (fmt = [])) as [->|Hne]; [done|].
  assert (vbin_loop (S fuel) e fmt specv args b = ('(fmt, spec, args, b) ← vbin_step e fmt specv args b;
    vbin_loop fuel e fmt spec args b)) as Ev by (by destruct fmt). rewrite Ev in H. clear Ev.
  destruct (vbin_step e fmt specv args b) as [[[[f1 sv1] args1] b1]|] eqn:Es; [|done]. cbn [mbind option_bind] in H.
  pose proof (vbin_step_extends _ _ _ _ _ _ _ _ _ Hp He Es) as (X1 & X2 & X3).
  pose proof (vbin_loop_extends fuel e f1 sv1 args1 b1 b' ltac:(lia) ltac:(by rewrite X2) H) as (Y1 & Y2 & Y3).
  assert (agree (bpos b1) W (words b1)) as HW1.
  { eapply agree_trans; [eapply agree_le; [exact HW|lia]|apply Y3, Hlt]. }
  destruct (vbin_step_shape _ _ _ _ _ _ _ _ _ fuel Hne Es Hr) as (rest & Hd & Hr1 & Htok).
  destruct (format_decode_sim fmt _ _ Hsim) as [D1 D2]. rewrite Hd in D1, D2. cbn [fst snd] in D1, D2.
  destruct (format_decode fmt spec) as [rest0 s] eqn:Hd0. cbn [fst snd] in D1, D2. subst rest0.
  destruct (step_sync env mem E e fmt spec specv s sv1 rest stores o b b1 W f1 sv1 args args1) as [Hstep Hnext];
    [by split|done|done|done|lia|done|done|].
  assert (bstr_loop (S fuel) env mem E fmt spec W (bpos b) o = ('(fmt, spec, a, o) ← bstr_step env mem E fmt spec W (bpos b) o;
    bstr_loop fuel env mem E fmt spec W a o)) as -> by (by destruct fmt).
  assert (vsnprintf_loop (S fuel) env E fmt spec args stores o =
    ('(fmt, spec, args, stores, o) ← vsnprintf_step env E fmt spec args stores o;
     vsnprintf_loop fuel env E fmt spec args stores o)) as -> by (by destruct fmt).
  rewrite Hstep. destruct (vsnprintf_step env E fmt spec args stores o) as [[[[[f2 s2] a2] st2] o2]|]; [|done].
  destruct (Hnext _ _ _ _ _ eq_refl) as (-> & -> & Hs2). cbn [mbind option_bind]. apply (IH _ _ sv1); auto; [lia|].
  by rewrite X2.
Qed.

End lockstep_loop.

(** ** Recording does not fault *)

Section record_total.

Lemma save_arg_total e n v b : e <= Z.of_nat (length (words b)) -> is_Some (save_arg e n v b).
Proof.
  intros He. unfold save_arg. set (p := PTR_ALIGN _ _). destruct (Z.leb_spec (p + Z.of_nat n) e); [|by eexists].
  unfold memcpy_at. rewrite length_le_bytes.
  destruct (Z.leb_spec (Z.of_nat n) (Z.of_nat n)), (Z.leb_spec (p + Z.of_nat n) (Z.of_nat (length (words b)))); try lia. by eexists.
Qed.

Lemma save_str_total e a s b : e <= Z.of_nat (length (words b)) -> is_Some (save_str e a s b).
Proof.
  intros He. unfold save_str. set (t := if _ || _ then _ else s).
  destruct (Z.ltb_spec (bpos b + (Z.of_nat (length t) + 1)) e); [|by eexists].
  unfold memcpy_at. rewrite length_app. cbn [length].
  destruct (Z.leb_spec (Z.of_nat (length t) + 1) (Z.of_nat (length t + 1)));
  destruct (Z.leb_spec (bpos b + (Z.of_nat (length t) + 1)) (Z.of_nat (length (words b)))); try lia. by eexists.
Qed.

Lemma vbin_step_total e fmt spec used more b :
  e <= Z.of_nat (length (words b)) ->
  let '(rest, s) := format_decode fmt spec in
  Forall2 has_kind (token_kinds (type s) rest) used ->
  exists b1, vbin_step e fmt spec (used ++ more) b = Some (token_rest (type s) rest, s, more, b1).
Proof.
  intros He. unfold vbin_step. destruct (format_decode fmt spec) as [rest s]. intros H.
  assert (forall n v, is_Some (save_arg e n v b)) as Hs by (intros; by apply save_arg_total).
  destruct (type s); cbn [token_kinds token_rest] in *.
  all: try (apply Forall2_nil_inv_l in H as ->; cbn [app]; by eexists).
  all: apply Forall2_cons_inv_l in H as (a & ? & Ha & ->%Forall2_nil_inv_l & ->).
  all: try (destruct (ptr_need (drop 1 rest))); destruct a; try done; cbn [app va_int va_long va_longlong va_ptr mbind option_bind].
  all: try match goal with |- context [save_arg _ ?n ?v _] => destruct (Hs n v) as [b1 ->]; by eexists end.
  all: try (by eexists).
  all: destruct (save_str_total e addr obj b He) as [b1 ->]; by eexists.
Qed.

Lemma vbin_loop_total fuel e fmt spec spec' args b :
  (rounds fmt (type spec) <= fuel)%nat -> spec_wf spec -> unsign (type spec) = unsign (type spec') ->
  0 <= bpos b -> e <= Z.of_nat (length (words b)) ->
  Forall2 has_kind (wanted_loop fuel fmt spec') args -> is_Some (vbin_loop fuel e fmt spec args b).
Proof.
  revert fmt spec spec' args b. induction fuel as [|fuel IH]; intros fmt spec spec' args b Hf Hwf Hu Hp He H.
  { destruct fmt; [by eexists|]. unfold rounds in Hf. cbn [length] in Hf. lia. }
  destruct (decide (fmt = [])) as [->|Hne]; [by eexists|].
  assert (wanted_loop (S fuel) fmt spec' = let '(rest, s) := format_decode fmt spec' in
    token_kinds (type s) rest ++ wanted_loop fuel (token_rest (type s) rest) s) as Hw by (by destruct fmt).
  assert (vbin_loop (S fuel) e fmt spec args b = ('(fmt, spec, args, b) ← vbin_step e fmt spec args b;
    vbin_loop fuel e fmt spec args b)) as -> by (by destruct fmt).
  destruct (format_decode_indep fmt spec spec' Hu) as [E1 E2]. pose proof (rounds_decrease fmt spec) as Hr.
  pose proof (format_decode_decoded fmt spec Hwf Hne) as (_ & Hwf1 & _). pose proof (vbin_step_total e fmt spec) as Hs.
  destruct (format_decode fmt spec) as [rest s1], (format_decode fmt spec') as [rest' s1']. cbn [fst snd] in *. subst rest'.
  destruct (unsign_token _ _ rest E2) as (K1 & K2 & _). rewrite Hw, <- K1, <- K2 in H.
  apply Forall2_app_inv_l in H as (u1 & u2 & Hu1 & Hu2 & ->).
  destruct (Hs u1 u2 b He Hu1) as [b1 Hb1]. rewrite Hb1. cbn [mbind option_bind].
  apply vbin_step_extends in Hb1 as (X1 & X2 & _); [|done|done].
  eapply (IH _ s1 s1'); auto; [specialize (Hr rest s1 Hwf Hne eq_refl); lia|lia|by rewrite X2].
Qed.

End record_total.

(** C18: [vbin_printf] records arguments of the kinds the format asks for
    without touching a byte outside its buffer; when the record ends before
    the end of the buffer, [bstr_printf] formats it to what [vsnprintf]
    prints for the arguments directly: the same return value and the same
    buffer, or the same fault, for every size of the output buffer. This
    needs that no [%ld] has a negative argument, no string lies in the last
    page of the address space, and the memory that pointer conversions look
    at has not changed in between. *)
Theorem recorded_printf (env : kenv) (mem : Z -> list Z) (bin_buf : list Z) (bsize : Z) (fmt : list Z) (args : list arg) :
  4 * bsize <= Z.of_nat (length bin_buf) -> Forall2 has_kind (wanted fmt) args ->
  exists last bin_buf',
    vbin_printf bin_buf bsize fmt args = Some (PTR_ALIGN last 4 / 4, bin_buf') /\ length bin_buf' = length bin_buf /\
    (last < 4 * bsize -> recorded_ok mem (vsnprintf_fuel fmt) fmt spec0 args ->
     forall buf b size,
       bstr_printf env mem buf b size fmt bin_buf' =
         (r ← vsnprintf env buf b size fmt args; Some (ret r, obuf r))).
Proof.
  intros Hb Hk. destruct (vbin_loop_total (vsnprintf_fuel fmt) (4 * bsize) fmt spec0 spec0 args (MkBin bin_buf 0)) as [b' Hv]; auto.
  { unfold rounds, vsnprintf_fuel. cbn. lia. } { split; cbn; unfold byte_range; lia. } { done. }
  exists (bpos b'), (words b'). unfold vbin_printf. rewrite Hv.
  assert (extends (4 * bsize) (MkBin bin_buf 0) b') as (E1 & E2 & _) by (by eapply vbin_loop_extends; [|exact Hb|exact Hv]).
  cbn [bpos words] in E1, E2. split; [done|]. split; [done|]. intros Hlt Hr buf b size.
  unfold bstr_printf, vsnprintf. destruct (s32 size <? 0); [done|]. set (e := if u32 (buf + size) <? buf then _ else _).
  rewrite (loop_sync env mem _ e (4 * bsize) fmt spec0 spec0 args [] (MkOut b 0) (MkBin bin_buf 0) b' (words b')); try done.
  - destruct (vsnprintf_loop _ env e fmt spec0 args [] (MkOut b 0)) as [[st o]|]; [|done]. cbn [mbind option_bind].
    by destruct (if 0 <? e then _ else _).
  - apply agree_refl. lia.
Qed.

Lemma recorded_printf_witness :
  exists last bin_buf',
    vbin_printf (replicate 12 0) 3 (bytes_of "%s %d") [APtr 3221225500 (bytes_of "irq"); AInt (-7)] =
      Some (PTR_ALIGN last 4 / 4, bin_buf') /\
    (last < 12 -> forall buf b size,
      bstr_printf plain_env (fun _ => []) buf b size (bytes_of "%s %d") bin_buf' =
        (r ← vsnprintf plain_env buf b size (bytes_of "%s %d") [APtr 3221225500 (bytes_of "irq"); AInt (-7)];
         Some (ret r, obuf r))).
Proof.
  destruct (recorded_printf plain_env (fun _ => []) (replicate 12 0) 3 (bytes_of "%s %d")
    [APtr 3221225500 (bytes_of "irq"); AInt (-7)]) as (last & bin_buf' & H1 & _ & H2).
  - vm_compute. discriminate.
  - vm_compute (wanted _). repeat constructor; vm_compute; discriminate.
  - exists last, bin_buf'. split; [exact H1|]. intros Hl. apply (H2 Hl). vm_compute. repeat split; try discriminate.
    repeat constructor; discriminate.
Defined.
