(* ===== verification/Seqfile.v ===== *)
(** * Sequential files

    [fs/seq_file.c], behind [/proc/kallsyms] and most other files of the proc
    file system: the functions that append to the buffer of a file, and
    [seq_read], [seq_lseek] and [traverse], which turn the records an iterator
    shows into a stream of bytes that can be read in pieces of any size and
    from any position.

    The operations of a file are the class [SeqOps]; what an iterator has to
    promise is the class [SeqRecords], against which the theorems about reads
    are proved and which the files discharge. What [kmalloc] delivers and
    whether [copy_to_user] succeeds are arguments. The version of the file,
    which no function here looks at, and the mutex are left out. *)

From stdpp Require Import prelude gmap list strings.
From Stdlib Require Import ZArith Lia.
From S2P Require Import Prelude Vsprintf Bcmutils Printf.

Open Scope Z_scope.
Open Scope list_scope.

(** ** Appending to the buffer *)

(** [m->buf] with [m->size] its length, and [m->count]. *)
Record sbuf := MkSbuf { sb_buf : list Z; sb_count : Z }.

Definition sb_size (m : sbuf) : Z := Z.of_nat (length (sb_buf m)).

(** The new buffer and the result; [base] is the address of the buffer. *)
Definition seq_printf (env : kenv) (base : Z) (f : list Z) (args : list arg) (m : sbuf) : option (sbuf * Z) :=
  if sb_count m <? sb_size m then
    r ← vsnprintf env (base + sb_count m) (drop (Z.to_nat (sb_count m)) (sb_buf m)) (sb_size m - sb_count m) f args;
    let b := take (Z.to_nat (sb_count m)) (sb_buf m) ++ obuf r in
    if u32 (sb_count m + ret r) <? sb_size m then Some (MkSbuf b (sb_count m + ret r), 0)
    else Some (MkSbuf b (sb_size m), -1)
  else Some (MkSbuf (sb_buf m) (sb_size m), -1).

Definition seq_putc (c : Z) (m : sbuf) : option (sbuf * Z) :=
  if sb_count m <? sb_size m then
    b ← zset (sb_buf m) (sb_count m) c; Some (MkSbuf b (sb_count m + 1), 0)
  else Some (m, -1).

Definition seq_write (data : list Z) (len : Z) (m : sbuf) : option (sbuf * Z) :=
  if u32 (sb_count m + len) <? sb_size m then
    b ← memcpy_at (sb_buf m) (sb_count m) data len; Some (MkSbuf b (sb_count m + len), 0)
  else Some (MkSbuf (sb_buf m) (sb_size m), -1).

Definition seq_puts (s : list Z) (m : sbuf) : option (sbuf * Z) :=
  let len := Z.of_nat (length s) in
  if u32 (sb_count m + len) <? sb_size m then
    b ← memcpy_at (sb_buf m) (sb_count m) s len; Some (MkSbuf b (sb_count m + len), 0)
  else Some (MkSbuf (sb_buf m) (sb_size m), -1).

(** An octal escape. *)
Definition octal (c : Z) : list Z :=
  [92; 48 + Z.shiftr (Z.land c 192) 6; 48 + Z.shiftr (Z.land c 56) 3; 48 + Z.land c 7].

(** [strchr(esc, c)] for a character that is not the NUL. *)
Definition escaped (esc : list Z) (c : Z) : bool := bool_decide (c ∈ esc).

(** The buffer, the position and whether there was room. *)
Fixpoint escape_loop (s esc b : list Z) (p : Z) : option (list Z * Z * bool) :=
  match s with
  | [] => Some (b, p, true)
  | c :: s' =>
      if p <? Z.of_nat (length b) then
        if negb (escaped esc c) then b ← zset b p c; escape_loop s' esc b (p + 1)
        else if p + 3 <? Z.of_nat (length b) then b ← memcpy_at b p (octal c) 4; escape_loop s' esc b (p + 4)
        else Some (b, p, false)
      else Some (b, p, true)
  end.

Definition seq_escape (s esc : list Z) (m : sbuf) : option (sbuf * Z) :=
  '(b, p, ok) ← escape_loop s esc (sb_buf m) (sb_count m);
  if (ok : bool) then Some (MkSbuf b p, 0) else Some (MkSbuf b (sb_size m), -1).

(** The path at [p] is copied to [s] in the same buffer; the end of the copy. *)
Fixpoint mangle_loop (fuel : nat) (b esc : list Z) (s p : Z) : option (list Z * option Z) :=
  match fuel with
  | O => None
  | S fuel' =>
      if s <=? p then
        c ← zget b p;
        let p := p + 1 in
        if c =? 0 then Some (b, Some s)
        else if negb (escaped esc c) then b ← zset b s c; mangle_loop fuel' b esc (s + 1) p
        else if p <? s + 4 then Some (b, None)
        else b ← memcpy_at b s (octal c) 4; mangle_loop fuel' b esc (s + 4) p
      else Some (b, None)
  end.

Definition mangle_path (b esc : list Z) (s p : Z) : option (list Z * option Z) :=
  mangle_loop (S (length b)) b esc s p.

(** ** The operations of a file *)

(** What [start] and [next] return: NULL, an error pointer or an element. *)
Inductive seq_iter (E : Type) :=
  | INull
  | IErr (err : Z)
  | IElem (x : E).
Arguments INull {E}.
Arguments IErr {E} err.
Arguments IElem {E} x.

Class SeqOps (P E : Type) := {
  op_start : P -> Z -> option (P * Z * seq_iter E);
  op_next : P -> E -> Z -> option (P * Z * seq_iter E);
  op_stop : P -> P;
  op_show : P -> E -> sbuf -> option (P * sbuf * Z) }.

(** [struct seq_file], with the private data of the iterator. *)
Record seq_file (P : Type) := MkSeq {
  sq_buf : option (list Z);
  sq_size : Z;
  sq_from : Z;
  sq_count : Z;
  sq_index : Z;
  sq_read_pos : Z;
  sq_private : P }.
Arguments MkSeq {P}.
Arguments sq_buf {P}.
Arguments sq_size {P}.
Arguments sq_from {P}.
Arguments sq_count {P}.
Arguments sq_index {P}.
Arguments sq_read_pos {P}.
Arguments sq_private {P}.

Definition ENOMEM : Z := 12.
Definition EFAULT : Z := 14.
Definition EAGAIN : Z := 11.
Definition EINVAL : Z := 22.

Section seq.
Context {P E : Type} {ops : SeqOps P E}.

(** [kmalloc]: the bytes of the new object; [copy_to_user] of [n] bytes to
    offset [at_] of the buffer of the user. *)
Context (kmalloc : Z -> option (list Z)) (user_ok : Z -> Z -> bool).

Definition seq_open (private : P) : seq_file P := MkSeq None 0 0 0 0 0 private.

Definition set_buf (m : seq_file P) (b : option (list Z)) (size : Z) : seq_file P :=
  MkSeq b size (sq_from m) (sq_count m) (sq_index m) (sq_read_pos m) (sq_private m).
Definition set_from (m : seq_file P) (from : Z) : seq_file P :=
  MkSeq (sq_buf m) (sq_size m) from (sq_count m) (sq_index m) (sq_read_pos m) (sq_private m).
Definition set_count (m : seq_file P) (count : Z) : seq_file P :=
  MkSeq (sq_buf m) (sq_size m) (sq_from m) count (sq_index m) (sq_read_pos m) (sq_private m).
Definition set_index (m : seq_file P) (index : Z) : seq_file P :=
  MkSeq (sq_buf m) (sq_size m) (sq_from m) (sq_count m) index (sq_read_pos m) (sq_private m).
Definition set_read_pos (m : seq_file P) (pos : Z) : seq_file P :=
  MkSeq (sq_buf m) (sq_size m) (sq_from m) (sq_count m) (sq_index m) pos (sq_private m).
Definition set_private (m : seq_file P) (p : P) : seq_file P :=
  MkSeq (sq_buf m) (sq_size m) (sq_from m) (sq_count m) (sq_index m) (sq_read_pos m) p.

Definition start (m : seq_file P) (pos : Z) : option (seq_file P * Z * seq_iter E) :=
  '(p, pos, x) ← op_start (sq_private m) pos; Some (set_private m p, pos, x).
Definition next (m : seq_file P) (x : E) (pos : Z) : option (seq_file P * Z * seq_iter E) :=
  '(p, pos, x) ← op_next (sq_private m) x pos; Some (set_private m p, pos, x).
Definition stop (m : seq_file P) : seq_file P := set_private m (op_stop (sq_private m)).
Definition show (m : seq_file P) (x : E) : option (seq_file P * Z) :=
  b ← sq_buf m;
  '(p, sb, err) ← op_show (sq_private m) x (MkSbuf b (sq_count m));
  Some (set_private (set_count (set_buf m (Some (sb_buf sb)) (sq_size m)) (sb_count sb)) p, err).

(** The buffer of a file that has none. *)
Definition grab_buf (m : seq_file P) : seq_file P * bool :=
  match sq_buf m with
  | Some _ => (m, true)
  | None => let b := kmalloc PAGE_SIZE in (set_buf m b PAGE_SIZE, bool_decide (is_Some b))
  end.

(** [m->buf = kmalloc(m->size <<= 1, GFP_KERNEL)] *)
Definition double_buf (m : seq_file P) : seq_file P * bool :=
  let size := u32 (2 * sq_size m) in
  let b := kmalloc size in (set_buf m b size, bool_decide (is_Some b)).

(** *** [traverse] *)

(** The state and [error]; the index is the local one. *)
Fixpoint traverse_loop (fuel : nat) (m : seq_file P) (offset pos index : Z) (p : seq_iter E) : option (seq_file P * Z) :=
  match fuel with
  | O => None
  | S fuel' =>
      match p with
      | INull => Some (set_index (stop m) index, 0)
      | IErr e => Some (set_index (stop m) index, e)
      | IElem x =>
          '(m, error) ← show m x;
          if error <? 0 then Some (set_index (stop m) index, error)
          else
            let m := if ctrue error then set_count m 0 else m in
            if sq_count m =? sq_size m then
              let '(m, ok) := double_buf (stop m) in
              Some (m, if (ok : bool) then - EAGAIN else - ENOMEM)
            else if offset <? pos + sq_count m then
              let m := set_from m (offset - pos) in
              let m := set_count m (sq_count m - sq_from m) in
              Some (set_index (stop m) index, 0)
            else
              let pos := pos + sq_count m in
              let m := set_count m 0 in
              if pos =? offset then Some (set_index (stop m) (index + 1), 0)
              else '(m, index, p) ← next m x index; traverse_loop fuel' m offset pos index p
      end
  end.

Definition traverse (fuel : nat) (m : seq_file P) (offset : Z) : option (seq_file P * Z) :=
  let m := set_from (set_count m 0) 0 in
  if offset =? 0 then Some (set_index m 0, 0)
  else
    let '(m, ok) := grab_buf m in
    if (ok : bool) then
      '(m, index, p) ← start m 0; traverse_loop fuel m offset 0 index p
    else Some (m, - ENOMEM).

(** [while ((err = traverse(m, offset)) == -EAGAIN)] *)
Fixpoint traverse_again (fuel steps : nat) (m : seq_file P) (offset : Z) : option (seq_file P * Z) :=
  match fuel with
  | O => None
  | S fuel' =>
      '(m, err) ← traverse steps m offset;
      if err =? - EAGAIN then traverse_again fuel' steps m offset else Some (m, err)
  end.

Definition forget (m : seq_file P) : seq_file P := set_count (set_index (set_read_pos m 0) 0) 0.

(** *** [seq_read] *)

(** How the loop that looks for a record ends. *)
Inductive found := FFill (x : E) (pos : Z) | FBreak (err : Z) | FEnomem.

Fixpoint record_loop (fuel : nat) (m : seq_file P) (pos : Z) (p : seq_iter E) : option (seq_file P * found) :=
  match fuel with
  | O => None
  | S fuel' =>
      match p with
      | INull => Some (m, FBreak 0)
      | IErr e => Some (m, FBreak e)
      | IElem x =>
          '(m, err) ← show m x;
          if err <? 0 then Some (m, FBreak err)
          else
            let m := if ctrue err then set_count m 0 else m in
            if sq_count m =? 0 then
              '(m, pos, p) ← next m x pos; record_loop fuel' (set_index m pos) pos p
            else if sq_count m <? sq_size m then Some (m, FFill x pos)
            else
              let '(m, ok) := double_buf (stop m) in
              if (ok : bool) then
                let m := set_count m 0 in
                '(m, pos, p) ← start m (sq_index m); record_loop fuel' m pos p
              else Some (m, FEnomem)
      end
  end.

(** More records, while they fit and are wanted. *)
Fixpoint fill_loop (fuel : nat) (m : seq_file P) (size pos : Z) (x : E) : option (seq_file P * Z) :=
  match fuel with
  | O => None
  | S fuel' =>
      if sq_count m <? size then
        let offs := sq_count m in
        '(m, nxt, p) ← next m x pos;
        match p with
        | INull | IErr _ => Some (m, pos)
        | IElem x =>
            '(m, err) ← show m x;
            if (sq_count m =? sq_size m) || ctrue err then
              let m := set_count m offs in
              if err <=? 0 then Some (m, pos) else fill_loop fuel' m size nxt x
            else fill_loop fuel' m size nxt x
        end
      else Some (m, pos)
  end.

(** The bytes at [from] in the buffer. *)
Definition bytes_at (m : seq_file P) (from n : Z) : option (list Z) :=
  b ← sq_buf m;
  if (0 <=? from) && (from + n <=? Z.of_nat (length b)) then Some (take (Z.to_nat n) (drop (Z.to_nat from) b)) else None.

(** At [Done]: the result, the bytes in the buffer of the user, the state and
    the position of the file. *)
Definition done_read (m : seq_file P) (err : Z) (out : list Z) (ppos : Z) : Z * list Z * seq_file P * Z :=
  let copied := Z.of_nat (length out) in
  if copied =? 0 then (err, out, m, ppos)
  else (copied, out, set_read_pos m (sq_read_pos m + copied), ppos + copied).

(** From the search for a record on, with [size] bytes wanted and [out] copied. *)
Definition read_records (fuel : nat) (m : seq_file P) (size : Z) (out : list Z) (ppos : Z)
  : option (Z * list Z * seq_file P * Z) :=
  '(m, pos, p) ← start m (sq_index m);
  '(m, f) ← record_loop fuel m pos p;
  match f with
  | FEnomem => Some (done_read m (- ENOMEM) out ppos)
  | FBreak err => Some (done_read (set_count (stop m) 0) err out ppos)
  | FFill x pos =>
      '(m, pos) ← fill_loop fuel m size pos x;
      let m := stop m in
      let n := Z.min (sq_count m) size in
      l ← bytes_at m 0 n;
      if user_ok (Z.of_nat (length out)) n then
        let m := set_count m (sq_count m - n) in
        let '(m, pos) := if ctrue (sq_count m) then (set_from m n, pos) else (m, pos + 1) in
        Some (done_read (set_index m pos) 0 (out ++ l) ppos)
      else Some (done_read m (- EFAULT) out ppos)
  end.

(** What is left in the buffer is copied first. *)
Definition read_buffered (fuel : nat) (m : seq_file P) (size ppos : Z) : option (Z * list Z * seq_file P * Z) :=
  if ctrue (sq_count m) then
    let n := Z.min (sq_count m) size in
    l ← bytes_at m (sq_from m) n;
    if user_ok 0 n then
      let m := set_from (set_count m (sq_count m - n)) (sq_from m + n) in
      let size := size - n in
      let m := if ctrue (sq_count m) then m else set_index m (sq_index m + 1) in
      if size =? 0 then Some (done_read m 0 l ppos) else read_records fuel m size l ppos
    else Some (done_read m (- EFAULT) [] ppos)
  else read_records fuel m size [] ppos.

Definition seq_read (fuel : nat) (m : seq_file P) (size ppos : Z) : option (Z * list Z * seq_file P * Z) :=
  '(m, err) ← (if ppos =? sq_read_pos m then Some (m, 0)
               else traverse_again fuel fuel (set_read_pos m ppos) ppos);
  if ctrue err then Some (done_read (forget m) err [] ppos)
  else
    let '(m, ok) := grab_buf m in
    if (ok : bool) then read_buffered fuel m size ppos else Some (done_read m (- ENOMEM) [] ppos).

(** The result, the state and the new position. *)
Definition seq_lseek (fuel : nat) (m : seq_file P) (f_pos offset origin : Z) : option (Z * seq_file P * Z) :=
  if (origin =? 0) || (origin =? 1) then
    let offset := if origin =? 1 then offset + f_pos else offset in
    if offset <? 0 then Some (- EINVAL, m, f_pos)
    else if offset =? sq_read_pos m then Some (offset, m, f_pos)
    else
      '(m, err) ← traverse_again fuel fuel m offset;
      if ctrue err then Some (err, forget m, 0)
      else Some (offset, set_read_pos m offset, offset)
  else Some (- EINVAL, m, f_pos).

End seq.

(** ** The functions that append *)

Section append.
Context (smax : Z) (smax_ok : smax < 2 ^ 31).

Definition sb_ok (m : sbuf) : Prop := 0 <= sb_count m <= sb_size m /\ sb_size m <= smax.

(** The text is behind what was there, or the buffer is marked as full; what
    was there is kept. *)
Definition appended (m : sbuf) (t : list Z) (m' : sbuf) : Prop :=
  sb_size m' = sb_size m /\
  take (Z.to_nat (sb_count m)) (sb_buf m') = take (Z.to_nat (sb_count m)) (sb_buf m) /\
  if sb_count m + Z.of_nat (length t) <? sb_size m
  then sb_count m' = sb_count m + Z.of_nat (length t) /\
       take (Z.to_nat (sb_count m')) (sb_buf m') = take (Z.to_nat (sb_count m)) (sb_buf m) ++ t
  else sb_count m' = sb_size m.

Definition appends (f : sbuf -> option (sbuf * Z)) (t : list Z) : Prop :=
  forall m, sb_ok m -> exists m' r, f m = Some (m', r) /\ appended m t m'.

Lemma appended_ok m t m' : sb_ok m -> appended m t m' -> sb_ok m'.
Proof.
  intros [Hc Hs] (Hz & _ & H). unfold sb_ok. rewrite Hz. split; [|done].
  destruct (Z.ltb_spec (sb_count m + Z.of_nat (length t)) (sb_size m)); lia.
Qed.

(** One call after the other. *)
Lemma appended_app m t1 m1 t2 m2 :
  sb_ok m -> appended m t1 m1 -> appended m1 t2 m2 -> appended m (t1 ++ t2) m2.
Proof.
  intros [Hc Hs] (Hz1 & Hk1 & H1) (Hz2 & Hk2 & H2). split; [lia|]. rewrite length_app, Hz1 in *.
  assert (sb_count m <= sb_count m1) as Hle by (destruct (Z.ltb_spec (sb_count m + Z.of_nat (length t1)) (sb_size m)); lia).
  split.
  { rewrite <- Hk1. rewrite <- (Nat.min_l (Z.to_nat (sb_count m)) (Z.to_nat (sb_count m1))), <- !take_take, Hk2 by lia. done. }
  destruct (Z.ltb_spec (sb_count m + Z.of_nat (length t1)) (sb_size m)).
  - destruct H1 as [Hc1 Ht1]. rewrite Hc1 in H2.
    destruct (Z.ltb_spec (sb_count m + Z.of_nat (length t1) + Z.of_nat (length t2)) (sb_size m)),
      (Z.ltb_spec (sb_count m + Z.of_nat (length t1 + length t2)) (sb_size m)); try lia.
    destruct H2 as [Hc2 Ht2]. split; [lia|]. rewrite Ht2, <- Hc1, Ht1. by rewrite app_assoc.
  - rewrite H1 in H2. destruct (Z.ltb_spec (sb_size m + Z.of_nat (length t2)) (sb_size m)); [lia|].
    by destruct (Z.ltb_spec (sb_count m + Z.of_nat (length t1 + length t2)) (sb_size m)); [lia|].
Qed.

Definition and_then (f g : sbuf -> option (sbuf * Z)) (m : sbuf) : option (sbuf * Z) :=
  '(m, _) ← f m; g m.

Lemma appends_app f g t1 t2 : appends f t1 -> appends g t2 -> appends (and_then f g) (t1 ++ t2).
Proof.
  intros Hf Hg m Hm. destruct (Hf m Hm) as (m1 & r1 & E1 & H1). pose proof (appended_ok _ _ _ Hm H1) as Hm1.
  destruct (Hg m1 Hm1) as (m2 & r2 & E2 & H2). exists m2, r2. unfold and_then. rewrite E1. split; [done|].
  by eapply appended_app.
Qed.

Lemma appended_memcpy b p t b' :
  0 <= p -> p + Z.of_nat (length t) <= Z.of_nat (length b) -> memcpy_at b p t (Z.of_nat (length t)) = Some b' ->
  appended (MkSbuf b p) t (MkSbuf b' (p + Z.of_nat (length t))).
Proof.
  intros Hp Hl. unfold memcpy_at.
  destruct (Z.leb_spec (Z.of_nat (length t)) (Z.of_nat (length t))), (Z.leb_spec (p + Z.of_nat (length t)) (Z.of_nat (length b)));
    try lia. cbn [andb]. intros [= <-]. rewrite Nat2Z.id, firstn_all. unfold appended, sb_size. cbn [sb_buf sb_count].
  rewrite !length_app, length_take, length_drop. split; [lia|].
  split; [by rewrite take_app_length' by (rewrite length_take; lia)|].
  destruct (Z.ltb_spec (p + Z.of_nat (length t)) (Z.of_nat (length b))); [|lia]. split; [done|].
  rewrite app_assoc, take_app_length'; [done|]. rewrite length_app, length_take. lia.
Qed.

Lemma appended_zset b p c b' : 0 <= p -> zset b p c = Some b' -> appended (MkSbuf b p) [c] (MkSbuf b' (p + 1)).
Proof.
  intros Hp H. apply zset_Some_inv in H as [Hl ->]. split; unfold sb_size; cbn [sb_buf sb_count length].
  { by rewrite length_insert. }
  split; [by rewrite take_insert_ge by lia|].
  destruct (Z.ltb_spec (p + Z.of_nat 1) (Z.of_nat (length b))); [|lia]. split; [done|].
  replace (Z.to_nat (p + 1)) with (S (Z.to_nat p)) by lia.
  rewrite (take_S_r _ _ c) by (apply list_lookup_insert_eq; lia). by rewrite take_insert_ge by lia.
Qed.

Lemma memcpy_at_total b p t : 0 <= p -> p + Z.of_nat (length t) <= Z.of_nat (length b) ->
  is_Some (memcpy_at b p t (Z.of_nat (length t))).
Proof. 
  intros Hp Hl. unfold memcpy_at.
  destruct (Z.leb_spec (Z.of_nat (length t)) (Z.of_nat (length t))), (Z.leb_spec (p + Z.of_nat (length t)) (Z.of_nat (length b)));
    try lia. by eexists.
Qed.

Lemma appended_full m t b :
  sb_size m <= sb_count m + Z.of_nat (length t) -> length b = length (sb_buf m) ->
  take (Z.to_nat (sb_count m)) b = take (Z.to_nat (sb_count m)) (sb_buf m) -> appended m t (MkSbuf b (sb_size m)).
Proof.
  intros H Hb Hk. split; [unfold sb_size; cbn; lia|]. split; [done|].
  by destruct (Z.ltb_spec (sb_count m + Z.of_nat (length t)) (sb_size m)); [lia|].
Qed.

Lemma seq_puts_appends s : Z.of_nat (length s) < 2 ^ 31 -> appends (seq_puts s) s.
Proof.
  intros Hl [b c] [Hc Hm]. unfold seq_puts, sb_size in *. cbn [sb_buf sb_count] in *. rewrite u32_id by lia.
  destruct (Z.ltb_spec (c + Z.of_nat (length s)) (Z.of_nat (length b))).
  - destruct (memcpy_at_total b c s) as [b' Hb']; [lia|lia|]. rewrite Hb'. do 2 eexists. split; [done|].
    by apply appended_memcpy; [lia|lia|].
  - do 2 eexists. split; [done|]. by apply appended_full.
Qed.

Lemma seq_write_appends s : Z.of_nat (length s) < 2 ^ 31 -> appends (seq_write s (Z.of_nat (length s))) s.
Proof. exact (seq_puts_appends s). Qed.

Lemma seq_putc_appends c : appends (seq_putc c) [c].
Proof.
  intros [b p] [Hc Hm]. unfold seq_putc, sb_size in *. cbn [sb_buf sb_count] in *.
  destruct (Z.ltb_spec p (Z.of_nat (length b))).
  - destruct (zset b p c) as [b'|] eqn:Eb; [|apply zset_None in Eb; lia]. do 2 eexists. split; [done|].
    apply appended_zset; [lia|done].
  - do 2 eexists. split; [done|]. assert (p = Z.of_nat (length b)) as -> by lia.
    by apply (appended_full (MkSbuf b (Z.of_nat (length b)))); [unfold sb_size; cbn; lia|..].
Qed.

Lemma seq_printf_appends env base f args t :
  0 <= base -> base + smax < 2 ^ 32 -> Z.of_nat (length t) < 2 ^ 31 -> runs env (vsnprintf_fuel f) f spec0 args t ->
  appends (seq_printf env base f args) t.
Proof.
  intros Hbase Hsm Ht Hr [b p] [Hc Hm]. unfold seq_printf, sb_size in *. cbn [sb_buf sb_count] in *.
  destruct (Z.ltb_spec p (Z.of_nat (length b))) as [Hlt|Hge].
  2: { do 2 eexists. split; [done|]. by apply appended_full; [unfold sb_size; cbn; lia|..]. }
  assert (end_of (base + p) (Z.of_nat (length b) - p) = Z.of_nat (length b) - p) as He.
  { unfold end_of. rewrite u32_id by lia. by destruct (Z.ltb_spec (base + p + (Z.of_nat (length b) - p)) (base + p)); [lia|]. }
  rewrite (vsnprintf_runs env _ _ _ _ _ t) by (rewrite ?He, ?length_drop; try done; lia).
  cbn [mbind option_bind ret obuf]. rewrite He, u32_id by lia. unfold printed_buf.
  destruct (Z.eqb_spec (Z.of_nat (length b) - p) 0); [lia|].
  destruct (Z.ltb_spec (p + Z.of_nat (length t)) (Z.of_nat (length b))) as [Hfit|Hno].
  - destruct (Z.ltb_spec (Z.of_nat (length t)) (Z.of_nat (length b) - p)); [|lia]. do 2 eexists. split; [done|].
    split; unfold sb_size; cbn [sb_buf sb_count].
    { rewrite !length_app. cbn [length]. rewrite length_drop, length_take, length_drop. lia. }
    split; [by rewrite take_app_length' by (rewrite length_take; lia)|].
    destruct (Z.ltb_spec (p + Z.of_nat (length t)) (Z.of_nat (length b))); [|lia]. split; [done|].
    rewrite app_assoc, take_app_length'; [done|]. rewrite length_app, length_take. lia.
  - destruct (Z.ltb_spec (Z.of_nat (length t)) (Z.of_nat (length b) - p)); [lia|]. do 2 eexists. split; [done|].
    apply appended_full; [unfold sb_size; cbn; lia| |cbn; by rewrite take_app_length' by (rewrite length_take; lia)].
    rewrite !length_app. cbn [length sb_buf]. rewrite length_drop, !length_take, length_drop. lia.
Qed.

(** The text of [seq_escape]. *)
Definition escape (esc s : list Z) : list Z := s ≫= fun c => if escaped esc c then octal c else [c].

Lemma escape_cons esc c s : escape esc (c :: s) = (if escaped esc c then octal c else [c]) ++ escape esc s.
Proof. done. Qed.

Lemma escape_loop_spec s esc b p :
  sb_ok (MkSbuf b p) ->
  exists b' p' ok, escape_loop s esc b p = Some (b', p', ok) /\
    appended (MkSbuf b p) (escape esc s) (MkSbuf b' (if (ok : bool) then p' else Z.of_nat (length b))).
Proof.
  revert b p. induction s as [|c s IH]; intros b p Hm; pose proof Hm as [Hp _]; unfold sb_size in Hp;
    cbn [escape_loop sb_buf sb_count] in *.
  { exists b, p, true. split; [done|]. split; [done|]. split; [done|]. unfold sb_size. cbn [sb_buf sb_count escape mbind list_bind length].
    rewrite app_nil_r, Z.add_0_r. destruct (Z.ltb_spec p (Z.of_nat (length b))); [done|lia]. }
  rewrite escape_cons. destruct (Z.ltb_spec p (Z.of_nat (length b))) as [Hlt|Hge].
  2: { exists b, p, true. split; [done|]. assert (p = Z.of_nat (length b)) as -> by lia.
       by apply (appended_full (MkSbuf b (Z.of_nat (length b)))); [unfold sb_size; cbn [sb_buf sb_count]; lia|..]. }
  destruct (escaped esc c) eqn:Ec; cbn [negb].
  - destruct (Z.ltb_spec (p + 3) (Z.of_nat (length b))) as [H4|H4].
    + destruct (memcpy_at_total b p (octal c)) as [b1 Hb1]; [lia|cbn [length octal]; lia|].
      pose proof (appended_memcpy b p (octal c) b1 ltac:(lia) ltac:(cbn [length octal]; lia) Hb1) as Ha.
      change (Z.of_nat (length (octal c))) with 4 in Hb1, Ha. rewrite Hb1. cbn [mbind option_bind].
      destruct (IH b1 (p + 4)) as (b' & p' & ok & E & Ha'); [by eapply appended_ok|]. exists b', p', ok. split; [done|].
      pose proof (proj1 Ha) as Hz. unfold sb_size in Hz. cbn [sb_buf] in Hz. rewrite Hz in Ha'.
      exact (appended_app _ _ _ _ _ Hm Ha Ha').
    + exists b, p, false. split; [done|]. apply (appended_full (MkSbuf b p)); [|done|done]. unfold sb_size. cbn [sb_buf sb_count].
      rewrite length_app. cbn [length octal]. lia.
  - destruct (zset b p c) as [b1|] eqn:Hb1; [|apply zset_None in Hb1; lia]. cbn [mbind option_bind].
    pose proof (appended_zset b p c b1 ltac:(lia) Hb1) as Ha.
    destruct (IH b1 (p + 1)) as (b' & p' & ok & E & Ha'); [by eapply appended_ok|]. exists b', p', ok. split; [done|].
    pose proof (proj1 Ha) as Hz. unfold sb_size in Hz. cbn [sb_buf] in Hz. rewrite Hz in Ha'.
      exact (appended_app _ _ _ _ _ Hm Ha Ha').
Qed.

Lemma seq_escape_appends s esc : appends (seq_escape s esc) (escape esc s).
Proof.
  intros [b p] Hm. destruct (escape_loop_spec s esc b p Hm) as (b' & p' & ok & E & Ha). unfold seq_escape.
  cbn [sb_buf sb_count]. rewrite E. cbn [mbind option_bind]. by destruct ok; do 2 eexists.
Qed.

End append.

Lemma escape_length esc s : (length s <= length (escape esc s))%nat.
Proof.
  induction s as [|c s IH]; [done|]. rewrite escape_cons, length_app. destruct (escaped esc c); cbn [length octal]; lia.
Qed.

Lemma mangle_loop_spec path esc rest fuel b s p :
  (length path < fuel)%nat -> 0 <= s <= p -> drop (Z.to_nat p) b = path ++ 0 :: rest -> Forall (fun c => c <> 0) path ->
  exists b' r, mangle_loop fuel b esc s p = Some (b', r) /\ length b' = length b /\
    (r = Some (s + Z.of_nat (length (escape esc path))) /\
     take (Z.to_nat s + length (escape esc path)) b' = take (Z.to_nat s) b ++ escape esc path \/
     r = None /\ p - s < Z.of_nat (length (escape esc path)) - Z.of_nat (length path)).
Proof.
  revert fuel b s p. induction path as [|c path IH]; intros fuel b s p Hf Hsp Hd Hz; destruct fuel as [|fuel]; try (cbn in Hf; lia);
    cbn [mangle_loop]; (destruct (Z.leb_spec s p); [|lia]);
    assert (zget b p = head (drop (Z.to_nat p) b)) as ->
      by (unfold zget; destruct (Z.leb_spec 0 p); [|lia]; by rewrite head_lookup, lookup_drop, Nat.add_0_r);
    rewrite Hd; cbn [app head mbind option_bind].
  { do 2 eexists. split; [done|]. split; [done|]. left. rewrite Z.add_0_r, Nat.add_0_r. by rewrite app_nil_r. }
  assert (Z.to_nat p < length b)%nat as Hlp.
  { destruct (decide (Z.to_nat p < length b)%nat); [done|]. rewrite drop_ge in Hd by lia. done. }
  assert (drop (Z.to_nat (p + 1)) b = path ++ 0 :: rest) as Hd'.
  { replace (Z.to_nat (p + 1)) with (Z.to_nat p + 1)%nat by lia. by rewrite <- drop_drop, Hd. }
  apply Forall_cons in Hz as [Hc Hz]. destruct (Z.eqb_spec c 0); [done|]. rewrite escape_cons. cbn [length] in Hf.
  destruct (escaped esc c); cbn [negb].
  - destruct (Z.ltb_spec (p + 1) (s + 4)) as [H4|H4].
    { exists b, None. split; [done|]. split; [done|]. right. split; [done|]. rewrite length_app. cbn [length octal].
      pose proof (escape_length esc path). lia. }
    destruct (memcpy_at_total b s (octal c)) as [b1 Hb1]; [lia|cbn [length octal]; lia|].
    change (Z.of_nat (length (octal c))) with 4 in Hb1. rewrite Hb1. cbn [mbind option_bind]. unfold memcpy_at in Hb1.
    destruct (_ && _); [|done]. injection Hb1 as <-. change (take (Z.to_nat 4) (octal c)) with (octal c).
    assert (length (take (Z.to_nat s) b ++ octal c) = Z.to_nat (s + 4)) as Hl1.
    { rewrite length_app, length_take. cbn [length octal]. lia. }
    destruct (IH fuel (take (Z.to_nat s) b ++ octal c ++ drop (Z.to_nat (s + 4)) b) (s + 4) (p + 1)) as (b' & r & E & Hlb & Hr).
    { lia. } { lia. }
    { rewrite app_assoc, drop_app_ge, Hl1, drop_drop by lia. rewrite <- Hd'. f_equal. lia. } { done. }
    exists b', r. split; [done|]. split; [rewrite Hlb, app_assoc, length_app, length_drop; lia|].
    rewrite length_app. change (length (octal c)) with 4%nat. destruct Hr as [[-> Ht]|[-> Hr]]; [left|right].
    + split; [f_equal; lia|]. replace (Z.to_nat s + (4 + length (escape esc path)))%nat
        with (Z.to_nat (s + 4) + length (escape esc path))%nat by lia.
      rewrite Ht, app_assoc, take_app_length' by done. by rewrite <- app_assoc.
    + split; [done|]. cbn [length]. lia.
  - rewrite zset_is_Some by lia. cbn [mbind option_bind].
    destruct (IH fuel (<[Z.to_nat s := c]> b) (s + 1) (p + 1)) as (b' & r & E & Hlb & Hr).
    { lia. } { lia. } { by rewrite drop_insert_lt by lia. } { done. }
    exists b', r. split; [done|]. split; [by rewrite Hlb, length_insert|]. rewrite length_app. cbn [length].
    destruct Hr as [[-> Ht]|[-> Hr]]; [left|right].
    + split; [f_equal; lia|]. replace (Z.to_nat s + (1 + length (escape esc path)))%nat
        with (Z.to_nat (s + 1) + length (escape esc path))%nat by lia. rewrite Ht.
      replace (Z.to_nat (s + 1)) with (S (Z.to_nat s)) by lia.
      rewrite (take_S_r _ _ c) by (apply list_lookup_insert_eq; lia). rewrite take_insert_ge, <- app_assoc by lia. done.
    + split; [done|]. cbn [length]. lia.
Qed.

(** ** What an iterator promises

    The file is a list of records; a record that the iterator asks to skip is
    [None]. An element [x] stands at position [i] ([sr_at]) as long as the
    private data of the iterator agree. *)

Definition SEQ_SKIP : Z := 1.

Class SeqRecords {P E : Type} (ops : SeqOps P E) (smax : Z) (recs : list (option (list Z))) := {
  sr_inv : P -> Prop;
  sr_at : P -> E -> nat -> Prop;
  sr_lands := fun (p : P) (i : nat) (r : seq_iter E) =>
    if decide (i < length recs)%nat then exists x, r = IElem x /\ sr_at p x i else r = INull;
  sr_start : forall p i, sr_inv p ->
    exists p' r, op_start p (Z.of_nat i) = Some (p', Z.of_nat i, r) /\ sr_inv p' /\ sr_lands p' i r;
  sr_next : forall p x i, sr_inv p -> sr_at p x i ->
    exists p' r, op_next p x (Z.of_nat i) = Some (p', Z.of_nat (S i), r) /\ sr_inv p' /\ sr_lands p' (S i) r;
  sr_stop : forall p, sr_inv p -> sr_inv (op_stop p);
  sr_show : forall p x i rec sb, sr_inv p -> sr_at p x i -> recs !! i = Some rec -> sb_ok smax sb ->
    exists p' sb' err, op_show p x sb = Some (p', sb', err) /\ sr_inv p' /\ sr_at p' x i /\
      match rec with
      | Some t => err = 0 /\ appended sb t sb'
      | None => err = SEQ_SKIP /\ sb_ok smax sb' /\ sb_size sb' = sb_size sb /\
          take (Z.to_nat (sb_count sb)) (sb_buf sb') = take (Z.to_nat (sb_count sb)) (sb_buf sb)
      end }.

Section reading.
Context {P E : Type} {ops : SeqOps P E} {smax : Z} {recs : list (option (list Z))} {SR : SeqRecords ops smax recs}.
Context (kmalloc : Z -> option (list Z)) (user_ok : Z -> Z -> bool).

(** The longest record. *)
Context (maxlen : Z).
Hypothesis recs_short : Forall (fun r => Z.of_nat (length (default [] r)) <= maxlen) recs.
Hypothesis maxlen_ok : 0 <= maxlen /\ 2 * maxlen <= smax /\ PAGE_SIZE <= smax < 2 ^ 31.
Hypothesis kmalloc_len : forall n b, 0 < n <= smax -> kmalloc n = Some b -> Z.of_nat (length b) = n.

(** An allocation the file asks for can fail, or a copy to the user can. *)
Definition alloc_fails : Prop := exists n, 0 < n <= smax /\ kmalloc n = None.
Definition copy_fails : Prop := exists at_ n, user_ok at_ n = false.
Definition failure : Prop := alloc_fails \/ copy_fails.

(** The text of the file, from a record on. *)
Definition rest_from (i : nat) : list Z := concat (default [] <$> drop i recs).
Definition contents : list Z := rest_from 0.

Lemma rest_from_S i r : recs !! i = Some r -> rest_from i = default [] r ++ rest_from (S i).
Proof. intros H. unfold rest_from. by rewrite (drop_S _ _ _ H). Qed.

Lemma rest_from_end i : (length recs <= i)%nat -> rest_from i = [].
Proof. intros H. unfold rest_from. by rewrite drop_ge. Qed.

(** The buffer, if there is one. *)
Definition buf_ok (m : seq_file P) : Prop :=
  match sq_buf m with
  | Some b => Z.of_nat (length b) = sq_size m /\ PAGE_SIZE <= sq_size m <= smax
  | None => True
  end.

(** What is left in the buffer lies in it. *)
Record seq_ok (m : seq_file P) : Prop := {
  so_inv : sr_inv (sq_private m);
  so_buf : buf_ok m;
  so_index : 0 <= sq_index m;
  so_left : match sq_buf m with
            | Some _ => 0 <= sq_from m /\ 0 <= sq_count m /\ sq_from m + sq_count m <= sq_size m
            | None => sq_count m = 0 /\ sq_from m = 0
            end }.

(** The bytes the next reads deliver. *)
Definition pending (m : seq_file P) : list Z :=
  if sq_count m =? 0 then rest_from (Z.to_nat (sq_index m))
  else take (Z.to_nat (sq_count m)) (drop (Z.to_nat (sq_from m)) (default [] (sq_buf m))) ++
       rest_from (S (Z.to_nat (sq_index m))).

(** [show] on a file with a buffer. *)
Lemma show_spec m x i r b :
  sr_inv (sq_private m) -> buf_ok m -> sq_buf m = Some b -> 0 <= sq_count m <= sq_size m ->
  sr_at (sq_private m) x i -> recs !! i = Some r ->
  exists m' b' err, show m x = Some (m', err) /\ sr_inv (sq_private m') /\ sr_at (sq_private m') x i /\
    sq_buf m' = Some b' /\ buf_ok m' /\ sq_size m' = sq_size m /\ sq_from m' = sq_from m /\
    sq_index m' = sq_index m /\ sq_read_pos m' = sq_read_pos m /\ 0 <= sq_count m' <= sq_size m /\
    take (Z.to_nat (sq_count m)) b' = take (Z.to_nat (sq_count m)) b /\
    match r with
    | Some t => err = 0 /\ appended (MkSbuf b (sq_count m)) t (MkSbuf b' (sq_count m'))
    | None => err = SEQ_SKIP
    end.
Proof.
  intros Hinv Hb Eb Hc Hat Hr. unfold buf_ok in Hb. rewrite Eb in Hb. destruct Hb as [Hl Hs].
  assert (sb_ok smax (MkSbuf b (sq_count m))) as Hsb by (unfold sb_ok, sb_size; cbn [sb_buf sb_count]; lia).
  destruct (sr_show _ x i r (MkSbuf b (sq_count m)) Hinv Hat Hr Hsb) as (p' & [b' c'] & err & Hop & Hinv' & Hat' & Hrec).
  unfold show. rewrite Eb. cbn [mbind option_bind]. rewrite Hop. cbn [mbind option_bind sb_buf sb_count].
  exists (set_private (set_count (set_buf m (Some b') (sq_size m)) c') p'), b', err.
  assert (sb_ok smax (MkSbuf b' c') /\ sb_size (MkSbuf b' c') = sb_size (MkSbuf b (sq_count m)) /\
    take (Z.to_nat (sq_count m)) b' = take (Z.to_nat (sq_count m)) b) as ([Hok' _] & Hsz & Hk).
  { destruct r; [|tauto]. destruct Hrec as [_ Ha]. split; [by eapply appended_ok|]. split; apply Ha. }
  unfold sb_size in Hok', Hsz. cbn [sb_buf sb_count] in Hok', Hsz.
  unfold buf_ok. cbn [sq_buf sq_private sq_size sq_from sq_index sq_read_pos sq_count set_private set_count set_buf].
  repeat split; try done; try lia. destruct r; tauto.
Qed.

(** The smallest fuel: a round for every record and for every larger buffer. *)
Definition rounds_left (i : nat) (size : Z) : nat := length recs - i + Z.to_nat (maxlen + 1 - size).

Lemma double_spec m :
  buf_ok m -> PAGE_SIZE <= sq_size m <= maxlen ->
  (exists b, double_buf kmalloc m = (set_buf m (Some b) (2 * sq_size m), true) /\ Z.of_nat (length b) = 2 * sq_size m) \/
  alloc_fails /\ exists m', double_buf kmalloc m = (m', false).
Proof.
  intros Hb Hs. unfold double_buf. unfold PAGE_SIZE in *. rewrite u32_id by lia.
  destruct (kmalloc (2 * sq_size m)) as [b|] eqn:Hk; [left; exists b; split; [done|apply kmalloc_len; [unfold PAGE_SIZE in *; lia|done]]|].
  right. split; [exists (2 * sq_size m); split; [lia|done]|by eexists].
Qed.

(** What the loop that looks for a record finds. *)
Definition found_spec (m m' : seq_file P) (i : nat) (f : found) : Prop :=
  sr_inv (sq_private m') /\ buf_ok m' /\ is_Some (sq_buf m') /\ sq_from m' = sq_from m /\ sq_size m <= sq_size m' /\
  sq_read_pos m' = sq_read_pos m /\
  ((f = FBreak 0 /\ rest_from i = [] /\ 0 <= sq_index m' /\ rest_from (Z.to_nat (sq_index m')) = []) \/
   exists j x t, f = FFill x (Z.of_nat j) /\ sr_at (sq_private m') x j /\ recs !! j = Some (Some t) /\ t <> [] /\
     rest_from i = t ++ rest_from (S j) /\ sq_count m' = Z.of_nat (length t) /\ sq_count m' < sq_size m' /\
     take (length t) (default [] (sq_buf m')) = t).

(** A record shown into the empty buffer: nothing, a text, or no room. *)
Lemma show_empty m x i b :
  sr_inv (sq_private m) -> buf_ok m -> sq_buf m = Some b -> sq_count m = 0 -> sr_at (sq_private m) x i ->
  (i < length recs)%nat ->
  exists m1 err, show m x = Some (m1, err) /\ 0 <= err /\
    let m2 := if ctrue err then set_count m1 0 else m1 in
    sr_inv (sq_private m2) /\ sr_at (sq_private m2) x i /\ is_Some (sq_buf m2) /\ buf_ok m2 /\ sq_size m2 = sq_size m /\
    sq_from m2 = sq_from m /\ sq_index m2 = sq_index m /\ sq_read_pos m2 = sq_read_pos m /\
    (sq_count m2 = 0 /\ rest_from i = rest_from (S i) \/
     exists t, recs !! i = Some (Some t) /\ t <> [] /\ rest_from i = t ++ rest_from (S i) /\
       (sq_count m2 = Z.of_nat (length t) /\ sq_count m2 < sq_size m2 /\ take (length t) (default [] (sq_buf m2)) = t \/
        sq_count m2 = sq_size m2 /\ sq_size m2 <= Z.of_nat (length t))).
Proof.
  intros Hinv Hb Eb Hc Hat Hlt. destruct (lookup_lt_is_Some_2 recs i Hlt) as [r Hr].
  assert (Z.of_nat (length b) = sq_size m /\ PAGE_SIZE <= sq_size m <= smax) as [Hlb Hsz] by (unfold buf_ok in Hb; by rewrite Eb in Hb).
  destruct (show_spec m x i r b Hinv Hb Eb) as (m1 & b1 & err & Hsh & Hinv1 & Hat1 & Eb1 & Hb1 & Hs1 & Hf1 & Hi1 & Hrp1 & Hc1 & _ & Hrec);
    [unfold PAGE_SIZE in *; lia|done|done|].
  exists m1, err. split; [done|]. pose proof (rest_from_S i r Hr) as Hrest. destruct r as [t|].
  - destruct Hrec as [-> (_ & _ & Ha)]. split; [lia|]. cbn [ctrue Z.eqb negb]. rewrite Eb1.
    split_and!; try done. unfold sb_size in Ha. cbn [sb_buf sb_count] in Ha. rewrite Hc, Z.add_0_l, Hlb in Ha. cbn [default from_option id] in Hrest |- *.
    destruct t as [|c t].
    + left. change (Z.of_nat (length (@nil Z))) with 0 in Ha. rewrite (proj2 (Z.ltb_lt 0 (sq_size m))) in Ha by (unfold PAGE_SIZE in *; lia). by destruct Ha.
    + right. exists (c :: t). split_and!; try done. rewrite Hs1.
      destruct (Z.ltb_spec (Z.of_nat (length (c :: t))) (sq_size m)); [left|right; lia].
      destruct Ha as [Ha1 Ha2]. rewrite Ha1, Nat2Z.id in *. split_and!; [done|lia|]. by rewrite Ha2.
  - subst err. split; [unfold SEQ_SKIP; lia|]. change (ctrue SEQ_SKIP) with true. cbv zeta iota.
    cbn [sq_private sq_buf sq_size sq_from sq_index sq_read_pos sq_count set_count]. unfold buf_ok in *.
    cbn [sq_buf sq_size set_count]. rewrite Eb1 in *. split_and!; try (done || lia). by left.
Qed.

Lemma record_loop_spec fuel m i p :
  (rounds_left i (sq_size m) < fuel)%nat -> sr_inv (sq_private m) -> buf_ok m -> is_Some (sq_buf m) ->
  sq_count m = 0 -> sq_index m = Z.of_nat i -> sr_lands (sq_private m) i p ->
  exists m' f, record_loop kmalloc fuel m (Z.of_nat i) p = Some (m', f) /\
    (found_spec m m' i f \/ f = FEnomem /\ alloc_fails).
Proof.
  revert m i p. induction fuel as [|fuel IH]; intros m i p Hf Hinv Hb [b Eb] Hc Hi Hp; [lia|].
  cbn [record_loop]. unfold sr_lands in Hp. destruct (decide (i < length recs)%nat) as [Hlt|Hge].
  2: { subst p. exists m, (FBreak 0). split; [done|]. left. rewrite <- Nat.le_ngt in Hge.
       unfold found_spec. rewrite Hi, Nat2Z.id, rest_from_end by done. split_and!; try (done || lia || by eexists). left. auto with lia. }
  destruct Hp as (x & -> & Hat).
  destruct (show_empty m x i b Hinv Hb Eb Hc Hat Hlt) as (m1 & err & Hsh & Herr & H2). rewrite Hsh. cbn [mbind option_bind].
  destruct (Z.ltb_spec err 0); [lia|]. cbv zeta in H2. set (m2 := if ctrue err then set_count m1 0 else m1) in *.
  destruct H2 as (Hinv2 & Hat2 & Hb2 & Hbok2 & Hs2 & Hf2 & Hi2 & Hrp2 & [[Hc2 Hrest]|(t & Hr & Hne & Hrest & [(Hc2 & Hfit & Ht)|(Hc2 & Hno)])]).
  - rewrite Hc2. cbn [Z.eqb]. destruct (sr_next _ x i Hinv2 Hat2) as (p' & r' & Hn & Hinv3 & Hl3).
    unfold next. rewrite Hn. cbn [mbind option_bind].
    destruct (IH (set_index (set_private m2 p') (Z.of_nat (S i))) (S i) r') as (m' & f & Hl & Hfs); try done.
    { cbn. unfold rounds_left in *. rewrite Hs2. lia. }
    exists m', f. split; [done|]. destruct Hfs as [Hfs|Hfs]; [left|by right]. unfold found_spec in *. cbn in Hfs.
    rewrite Hrest, <- Hf2, <- Hs2, <- Hrp2. done.
  - destruct (Z.eqb_spec (sq_count m2) 0) as [E0|_]; [destruct t; [done|cbn in Hc2; lia]|].
    destruct (Z.ltb_spec (sq_count m2) (sq_size m2)); [|lia]. do 2 eexists. split; [done|].
    left. unfold found_spec. split_and!; try done; [lia|]. right. exists i, x, t. done.
  - assert (PAGE_SIZE <= sq_size m2 <= maxlen) as Hsz.
    { destruct Hb2 as [b2 Eb2]. unfold buf_ok in Hbok2. rewrite Eb2 in Hbok2.
      pose proof (Forall_lookup_1 _ _ _ _ recs_short Hr) as Hl. cbn in Hl. lia. }
    destruct (Z.eqb_spec (sq_count m2) 0) as [E0|_]; [unfold PAGE_SIZE in *; lia|].
    destruct (Z.ltb_spec (sq_count m2) (sq_size m2)); [lia|].
    destruct (double_spec (stop m2)) as [(b3 & -> & Hl3)|(Hfail & m3 & ->)]; [done|done| |by do 2 eexists; split; [done|right]].
    unfold start. cbn [sq_private set_count set_buf stop set_private sq_index]. rewrite Hi2, Hi.
    destruct (sr_start _ i (sr_stop _ Hinv2)) as (p' & r' & Hst & Hinv4 & Hl4). rewrite Hst. cbn [mbind option_bind].
    match goal with |- context [record_loop _ _ ?m0 _ _] => destruct (IH m0 i r') as (m' & f & Hl & Hfs) end; try done.
    { cbn in Hs2 |- *. unfold rounds_left, PAGE_SIZE in *. lia. } { unfold buf_ok. cbn in Hl3 |- *. lia. } { cbn. lia. }
    exists m', f. split; [done|]. destruct Hfs as [Hfs|Hfs]; [left|by right]. unfold found_spec in *. cbn in Hfs. rewrite <- Hf2, <- Hrp2.
    split_and!; try tauto. destruct Hfs as (_ & _ & _ & _ & Hle & _). unfold PAGE_SIZE in *. lia.
Qed.

(** More records were put behind the bytes in the buffer, up to number [j']. *)
Definition filled (m : seq_file P) (j : nat) (m' : seq_file P) (j' : nat) : Prop :=
  sr_inv (sq_private m') /\ is_Some (sq_buf m') /\ buf_ok m' /\ sq_size m' = sq_size m /\ sq_from m' = sq_from m /\
  sq_read_pos m' = sq_read_pos m /\ sq_count m <= sq_count m' < sq_size m' /\
  take (Z.to_nat (sq_count m')) (default [] (sq_buf m')) ++ rest_from (S j') =
    take (Z.to_nat (sq_count m)) (default [] (sq_buf m)) ++ rest_from (S j).

Lemma filled_trans m1 j1 m2 j2 m3 j3 : filled m1 j1 m2 j2 -> filled m2 j2 m3 j3 -> filled m1 j1 m3 j3.
Proof. intros (?&?&?&?&?&?&?&Ht1) (?&?&?&?&?&?&?&Ht2). unfold filled. rewrite Ht2, Ht1. split_and!; congruence || lia || done. Qed.

Lemma fill_loop_spec fuel m size j x b :
  (length recs - j < fuel)%nat -> sr_inv (sq_private m) -> sq_buf m = Some b -> buf_ok m ->
  0 <= sq_count m < sq_size m -> sr_at (sq_private m) x j ->
  exists m' j', fill_loop fuel m size (Z.of_nat j) x = Some (m', Z.of_nat j') /\ filled m j m' j'.
Proof.
  revert m j x b. induction fuel as [|fuel IH]; intros m j x b Hf Hinv Eb Hb Hc Hat; [lia|]. cbn [fill_loop].
  destruct (Z.ltb_spec (sq_count m) size) as [Hlt|Hge].
  2: { exists m, j. unfold filled. rewrite Eb. split_and!; try (done || lia). }
  destruct (sr_next _ x j Hinv Hat) as (p' & r & Hn & Hinv1 & Hl1). unfold next. rewrite Hn. cbn [mbind option_bind].
  set (m1 := set_private m p') in *. unfold sr_lands in Hl1. destruct (decide (S j < length recs)%nat) as [Hj|Hj].
  2: { subst r. exists m1, j. unfold filled. cbn [sq_buf sq_count sq_size sq_from sq_private sq_read_pos m1 set_private].
       rewrite Eb. split_and!; try (done || lia). }
  destruct Hl1 as (y & -> & Hat1). destruct (lookup_lt_is_Some_2 recs (S j) Hj) as [rec Hr].
  destruct (show_spec m1 y (S j) rec b Hinv1 Hb Eb) as (m2 & b2 & err & Hsh & Hinv2 & Hat2 & Eb2 & Hb2 & Hs2 & Hf2 & Hi2 & Hrp2 & Hc2 & Hk2 & Hrec);
    [cbn; lia|done|done|]. rewrite Hsh. cbn [mbind option_bind]. cbn in Hs2, Hf2, Hrp2, Hk2, Hc2.
  assert (Z.of_nat (length b) = sq_size m) as Hlb by (unfold buf_ok in Hb; rewrite Eb in Hb; lia).
  assert (forall mz, sq_buf mz = Some b2 -> 0 <= sq_count mz -> sr_at (sq_private mz) y (S j) -> filled m j mz (S j) ->
    exists m' j', fill_loop fuel mz size (Z.of_nat (S j)) y = Some (m', Z.of_nat j') /\ filled m j m' j') as Hgo.
  { intros mz Hbz Hcz Hatz Hfz. pose proof Hfz as (Hiz & _ & Hbkz & _ & _ & _ & Hltz & _).
    destruct (IH mz (S j) y b2) as (m' & j' & Hl & Hfill); try (done || lia). exists m', j'. split; [done|]. by eapply filled_trans. }
  pose proof (rest_from_S (S j) rec Hr) as Hrest. destruct rec as [t|]; cbn [default from_option id] in Hrest.
  - destruct Hrec as [-> (_ & _ & Ha)]. unfold sb_size in Ha. cbn in Ha. rewrite Hlb in Ha. change (ctrue 0) with false.
    rewrite orb_false_r. destruct (Z.ltb_spec (sq_count m + Z.of_nat (length t)) (sq_size m)).
    + destruct Ha as [Hc2' Ht]. destruct (Z.eqb_spec (sq_count m2) (sq_size m2)); [lia|].
      apply Hgo; try (done || lia). unfold filled. rewrite Eb2, Eb. cbn [default from_option id].
      rewrite Ht, Hrest, app_assoc. split_and!; try (done || lia).
    + destruct (Z.eqb_spec (sq_count m2) (sq_size m2)); [|lia]. cbn [Z.leb Z.compare]. do 2 eexists. split; [done|].
      unfold filled, buf_ok in *. cbn. rewrite Eb2, Eb in *. cbn. rewrite Hk2. split_and!; try (done || lia).
  - subst err. change (ctrue SEQ_SKIP) with true. rewrite orb_true_r. change (SEQ_SKIP <=? 0) with false. cbn iota.
    cbn [app] in Hrest. apply Hgo; cbn; try (done || lia). unfold filled, buf_ok in *. cbn. rewrite Eb2, Eb in *. cbn.
    rewrite Hk2, Hrest. split_and!; try (done || lia).
Qed.

(** ** Reading *)

(** The bytes in the buffer are copied, and what is left stays. *)
Lemma deliver m j b n :
  sr_inv (sq_private m) -> sq_buf m = Some b -> buf_ok m -> 0 <= sq_from m <= sq_size m ->
  0 <= n <= sq_count m -> sq_count m < sq_size m ->
  let m1 := set_count m (sq_count m - n) in
  let '(m2, pos) := if ctrue (sq_count m1) then (set_from m1 n, Z.of_nat j) else (m1, Z.of_nat j + 1) in
  bytes_at m 0 n = Some (take (Z.to_nat n) b) /\ seq_ok (set_index m2 pos) /\
  take (Z.to_nat n) b ++ pending (set_index m2 pos) = take (Z.to_nat (sq_count m)) b ++ rest_from (S j).
Proof.
  intros Hinv Eb Hb Hfrom Hn Hlt. assert (Z.of_nat (length b) = sq_size m) as Hlb by (unfold buf_ok in Hb; rewrite Eb in Hb; lia).
  assert (bytes_at m 0 n = Some (take (Z.to_nat n) b)) as Hba.
  { unfold bytes_at. rewrite Eb. cbn [mbind option_bind]. by destruct (Z.leb_spec (0 + n) (Z.of_nat (length b))); [|lia]. }
  cbv zeta. cbn [sq_count set_count]. unfold ctrue. destruct (Z.eqb_spec (sq_count m - n) 0) as [H0|H0]; cbn [negb]; (split; [done|]).
  - split; [split; cbn; try (done || lia); rewrite Eb; lia|]. unfold pending. cbn. rewrite (proj2 (Z.eqb_eq _ _) H0).
    replace (sq_count m) with n by lia. do 2 f_equal. lia.
  - split; [split; cbn; try (done || lia); rewrite Eb; lia|]. unfold pending. cbn. rewrite (proj2 (Z.eqb_neq _ _) H0), Eb. cbn.
    rewrite Nat2Z.id, app_assoc. f_equal. rewrite take_take_drop. f_equal. lia.
Qed.

Definition read_error (err : Z) : Prop := err = - ENOMEM \/ err = - EFAULT.

(** From the search for a record on. *)
Lemma read_records_spec fuel m size out ppos :
  (rounds_left 0 0 < fuel)%nat -> seq_ok m -> is_Some (sq_buf m) -> sq_count m = 0 -> 0 <= size ->
  (exists l m', read_records kmalloc user_ok fuel m size out ppos = Some (done_read m' 0 (out ++ l) ppos) /\
     seq_ok m' /\ sq_read_pos m' = sq_read_pos m /\ l ++ pending m' = pending m /\ Z.of_nat (length l) <= size /\
     (0 < size -> l = [] -> pending m = [])) \/
  failure /\ exists err m', read_records kmalloc user_ok fuel m size out ppos = Some (done_read m' err out ppos) /\ read_error err.
Proof.
  intros Hf [Hinv Hb Hi Hleft] [b Eb] Hc Hsize. unfold read_records. set (i := Z.to_nat (sq_index m)).
  assert (sq_index m = Z.of_nat i) as Ei by (subst i; lia). rewrite Ei. rewrite Eb in Hleft.
  destruct (sr_start (sq_private m) i Hinv) as (p & r & Hst & Hinv1 & Hl1). unfold start. rewrite Hst. cbn [mbind option_bind].
  destruct (record_loop_spec fuel (set_private m p) i r) as (m1 & f & Hl & Hfound); try done.
  { cbn. unfold rounds_left in *. unfold buf_ok in Hb. rewrite Eb in Hb. unfold PAGE_SIZE in Hb. lia. }
  rewrite Hl. cbn [mbind option_bind]. assert (pending m = rest_from i) as -> by (unfold pending; rewrite Hc; done).
  destruct Hfound as [(Hinv2 & Hb2 & [b2 Eb2] & Hf2 & Hs2 & Hrp2 & [(-> & Hend & Hi2 & Hend2)|(j & x & t & -> & Hat & Hr & Hne & Hrest & Hc2 & Hlt2 & Ht)])|[-> Hfail]].
  3: { right. split; [by left|]. do 2 eexists. split; [done|by left]. }
  - left. exists [], (set_count (stop m1) 0). rewrite app_nil_r. split; [done|]. unfold pending. cbn. split_and!; try (done || lia).
    + split; cbn; try (done || lia). { by apply sr_stop. } rewrite Eb2. unfold buf_ok in Hb2. rewrite Eb2 in Hb2. cbn in Hf2, Hs2. lia.
    + by rewrite Hend, Hend2.
  - destruct (fill_loop_spec fuel m1 size j x b2) as (m2 & j2 & Hfl & Hfill); try (done || lia).
    { unfold rounds_left in *. lia. }
    rewrite Hfl. cbn [mbind option_bind]. destruct Hfill as (Hinv3 & [b3 Eb3] & Hb3 & Hs3 & Hf3 & Hrp3 & Hc3 & Hrest3).
    assert (0 < length t)%nat by (destruct t; [done|cbn; lia]). set (n := Z.min (sq_count (stop m2)) size).
    pose proof (deliver (stop m2) j2 b3 n) as Hd. cbv zeta in Hd. cbn in Hf2, Hs2, Hrp2.
    destruct (if ctrue (sq_count (set_count (stop m2) (sq_count (stop m2) - n))) then _ else _) as [m4 pos] eqn:E4.
    destruct Hd as (Hba & Hok & Hpend); try done; [by apply sr_stop|cbn; lia|subst n; cbn; lia|cbn; lia|].
    rewrite Hba. cbn [mbind option_bind]. destruct (user_ok (Z.of_nat (length out)) n) eqn:Euser.
    2: { right. split; [right; by do 2 eexists|]. do 2 eexists. split; [done|by right]. }
    left. do 2 eexists. split; [done|]. split; [done|].
    rewrite Eb3, Eb2 in *. cbn [default from_option id] in *. rewrite Hc2, Nat2Z.id, Ht in Hrest3.
    assert (take (Z.to_nat n) b3 ++ pending (set_index m4 pos) = rest_from i) as Hall by (rewrite Hpend, Hrest; exact Hrest3).
    split; [|split; [exact Hall|split]].
    + rewrite <- Hrp2, <- Hrp3. by destruct (ctrue _); injection E4 as <- <-.
    + rewrite length_take. subst n. cbn. lia.
    + intros Hpos Hl0. apply (f_equal length) in Hl0. rewrite length_take in Hl0. unfold buf_ok in Hb3. rewrite Eb3 in Hb3.
      subst n. cbn in Hl0. lia.
Qed.

Lemma read_buffered_spec fuel m size ppos :
  (rounds_left 0 0 < fuel)%nat -> seq_ok m -> is_Some (sq_buf m) -> 0 <= size ->
  (exists l m', read_buffered kmalloc user_ok fuel m size ppos = Some (done_read m' 0 l ppos) /\
     seq_ok m' /\ sq_read_pos m' = sq_read_pos m /\ l ++ pending m' = pending m /\ Z.of_nat (length l) <= size /\
     (0 < size -> l = [] -> pending m = [])) \/
  failure /\ exists l err m' rest, read_buffered kmalloc user_ok fuel m size ppos = Some (done_read m' err l ppos) /\ read_error err /\
    l ++ rest = pending m /\ Z.of_nat (length l) <= size.
Proof.
  intros Hf Hok [b Eb] Hsize. unfold read_buffered.
  assert (ctrue (sq_count m) = negb (sq_count m =? 0)) as -> by done. destruct (Z.eqb_spec (sq_count m) 0) as [H0|H0]; cbn [negb].
  { destruct (read_records_spec fuel m size [] ppos) as [Hr|(Hfail & err & m' & E1 & He)]; try done; [by left|].
    right. split; [done|]. exists [], err, m', (pending m). split_and!; done. }
  destruct Hok as [Hinv Hb Hi Hleft]. rewrite Eb in Hleft. set (n := Z.min (sq_count m) size).
  assert (Z.of_nat (length b) = sq_size m) as Hlb by (unfold buf_ok in Hb; rewrite Eb in Hb; lia).
  unfold bytes_at. rewrite Eb. cbn [mbind option_bind]. destruct (Z.leb_spec 0 (sq_from m)); [|lia].
  destruct (Z.leb_spec (sq_from m + n) (Z.of_nat (length b))); [|lia]. cbn [andb mbind option_bind]. destruct (user_ok 0 n) eqn:Euser.
  2: { right. split; [right; by do 2 eexists|]. do 3 eexists. exists (pending m). split; [done|]. split_and!; [by right|done|cbn; lia]. }
  set (l := take (Z.to_nat n) (drop (Z.to_nat (sq_from m)) b)).
  assert (length l = Z.to_nat n) as Hll by (subst l; rewrite length_take, length_drop; lia).
  cbn [sq_count set_from set_count]. unfold ctrue.
  assert (pending m = take (Z.to_nat (sq_count m)) (drop (Z.to_nat (sq_from m)) b) ++ rest_from (S (Z.to_nat (sq_index m)))) as Hpm.
  { unfold pending. rewrite (proj2 (Z.eqb_neq _ _) H0), Eb. done. }
  destruct (Z.eqb_spec (sq_count m - n) 0) as [Hn|Hn]; cbn [negb].
  - set (m1 := set_index _ _). assert (seq_ok m1) as Hok1 by (split; cbn; try (done || lia); rewrite Eb; lia).
    assert (l ++ pending m1 = pending m) as Hl1.
    { rewrite Hpm. unfold pending. cbn. rewrite (proj2 (Z.eqb_eq _ _) Hn). subst l. replace n with (sq_count m) by lia.
      do 2 f_equal. lia. }
    destruct (Z.eqb_spec (size - n) 0) as [Hs|Hs].
    + left. exists l, m1. split_and!; try (done || lia). intros _ ->. cbn in Hll. lia.
    + destruct (read_records_spec fuel m1 (size - n) l ppos)
        as [(l' & m' & Hr & Hok' & Hrp & Hp & Hlen & Hemp)|(Hfail & err & m' & E1 & He)]; try (done || lia).
      2: { right. split; [done|]. exists l, err, m', (pending m1). split_and!; try (done || lia). }
      left. exists (l ++ l'), m'. split; [done|]. split_and!; try (done || lia).
      * by rewrite <- app_assoc, Hp.
      * rewrite length_app. lia.
      * intros _ Hnil%app_eq_nil. destruct Hnil as [-> _]. cbn in Hll. lia.
  - assert (n = size) as Hns by lia. destruct (Z.eqb_spec (size - n) 0); [|lia].
    left. exists l. eexists. split; [done|]. split; [|split; [done|split; [|split; [lia|]]]].
    + split; cbn; try (done || lia). rewrite Eb. lia.
    + rewrite Hpm. unfold pending. cbn. rewrite (proj2 (Z.eqb_neq _ _) Hn), Eb. cbn. rewrite app_assoc. f_equal. subst l.
      replace (Z.to_nat (sq_from m + n)) with (Z.to_nat (sq_from m) + Z.to_nat n)%nat by lia. rewrite <- drop_drop, take_take_drop.
      f_equal. lia.
    + intros Hp ->. cbn in Hll. lia.
Qed.

(** The records before number [i]. *)
Definition text_before (i : nat) : list Z := concat (default [] <$> take i recs).

Lemma contents_split i : contents = text_before i ++ rest_from i.
Proof. unfold contents, text_before, rest_from. rewrite drop_0, <- concat_app, <- fmap_app, take_drop. done. Qed.

Lemma text_before_S i r : recs !! i = Some r -> text_before (S i) = text_before i ++ default [] r.
Proof.
  intros H. unfold text_before. rewrite (take_S_r _ _ _ H), fmap_app, concat_app. cbn. by rewrite app_nil_r.
Qed.

(** The state after a search for a position: there, or to be tried again with
    a larger buffer. *)
Definition traversed (m m' : seq_file P) (offset err : Z) : Prop :=
  sr_inv (sq_private m') /\ buf_ok m' /\ is_Some (sq_buf m') /\ sq_read_pos m' = sq_read_pos m /\
  (err = 0 /\ seq_ok m' /\ pending m' = drop (Z.to_nat offset) contents \/
   err = - EAGAIN /\ sq_size m' = 2 * sq_size m /\ sq_size m <= maxlen).

Lemma traverse_loop_spec fuel m offset i p :
  (length recs - i < fuel)%nat -> sr_inv (sq_private m) -> buf_ok m -> is_Some (sq_buf m) ->
  sq_count m = 0 -> sq_from m = 0 -> sr_lands (sq_private m) i p -> Z.of_nat (length (text_before i)) < offset ->
  exists m' err, traverse_loop kmalloc fuel m offset (Z.of_nat (length (text_before i))) (Z.of_nat i) p = Some (m', err) /\
    (traversed m m' offset err \/ err = - ENOMEM /\ alloc_fails).
Proof.
  revert m i p. induction fuel as [|fuel IH]; intros m i p Hf Hinv Hb [b Eb] Hc Hfr Hp Hoff; [lia|].
  cbn [traverse_loop]. unfold sr_lands in Hp. set (pos := Z.of_nat (length (text_before i))) in *.
  assert (Z.of_nat (length b) = sq_size m /\ PAGE_SIZE <= sq_size m) as [Hlb Hpg] by (unfold buf_ok in Hb; rewrite Eb in Hb; lia).
  destruct (decide (i < length recs)%nat) as [Hlt|Hge].
  2: { subst p. do 2 eexists. split; [done|]. left. rewrite <- Nat.le_ngt in Hge. pose proof (sr_stop _ Hinv).
       unfold traversed. split_and!; try (done || by eexists). left. split; [done|].
       split; [split; cbn; try (done || lia); rewrite Eb; lia|]. unfold pending. cbn. rewrite Hc, Nat2Z.id. cbn [Z.eqb].
       rewrite (contents_split i), rest_from_end, app_nil_r, drop_ge by (done || lia). done. }
  destruct Hp as (x & -> & Hat).
  destruct (show_empty m x i b Hinv Hb Eb Hc Hat Hlt) as (m1 & err & Hsh & Herr & H2). rewrite Hsh. cbn [mbind option_bind].
  destruct (Z.ltb_spec err 0); [lia|]. cbv zeta in H2. set (m2 := if ctrue err then set_count m1 0 else m1) in *.
  destruct H2 as (Hinv2 & Hat2 & [b2 Eb2] & Hb2 & Hs2 & Hf2 & Hi2 & Hrp2 & Hcase). rewrite Hfr in Hf2.
  assert (Z.of_nat (length b2) = sq_size m2) as Hlb2 by (unfold buf_ok in Hb2; rewrite Eb2 in Hb2; lia).
  assert (forall l, rest_from i = l ++ rest_from (S i) -> text_before (S i) = text_before i ++ l) as Hbefore.
  { intros l Hl. destruct (lookup_lt_is_Some_2 recs i Hlt) as [r Hr]. rewrite (text_before_S i r Hr). f_equal.
    rewrite (rest_from_S i r Hr) in Hl. by apply app_inv_tail in Hl. }
  assert (forall l, rest_from i = l ++ rest_from (S i) -> pos + Z.of_nat (length l) < offset ->
    exists m' err, ('(m, index, p) ← next (set_count m2 0) x (Z.of_nat i);
      traverse_loop kmalloc fuel m offset (pos + Z.of_nat (length l)) index p) = Some (m', err) /\
      (traversed m m' offset err \/ err = - ENOMEM /\ alloc_fails)) as Hgo.
  { intros l Hl Hpos. destruct (sr_next _ x i Hinv2 Hat2) as (p' & r' & Hn & Hinv3 & Hl3). unfold next. cbn [sq_private set_count].
    rewrite Hn. cbn [mbind option_bind]. pose proof (Hbefore l Hl) as Htb.
    replace (pos + Z.of_nat (length l)) with (Z.of_nat (length (text_before (S i)))) in * by (rewrite Htb, length_app; lia).
    destruct (IH (set_private (set_count m2 0) p') (S i) r') as (m' & e & He & Htr); try (done || lia).
    exists m', e. split; [done|]. destruct Htr as [Htr|Htr]; [left|by right]. unfold traversed in *. cbn in Htr. by rewrite Hrp2, Hs2 in Htr. }
  destruct Hcase as [[Hc2 Hrest]|(t & Hr & Hne & Hrest & [(Hc2 & Hfit & Ht)|(Hc2 & Hno)])].
  - destruct (Z.eqb_spec (sq_count m2) (sq_size m2)); [unfold PAGE_SIZE in *; lia|]. rewrite Hc2, Z.add_0_r.
    destruct (Z.ltb_spec offset pos); [lia|]. destruct (Z.eqb_spec pos offset); [lia|].
    destruct (Hgo []) as (m' & e & He & Htr); [done|cbn; lia|]. cbn [length Z.of_nat] in He. rewrite Z.add_0_r in He. eauto.
  - destruct (Z.eqb_spec (sq_count m2) (sq_size m2)); [lia|].
    assert (drop (Z.to_nat offset) contents = drop (Z.to_nat (offset - pos)) (t ++ rest_from (S i))) as Hdc.
    { rewrite (contents_split i), drop_app_ge, Hrest by lia. f_equal. lia. }
    destruct (Z.ltb_spec offset (pos + sq_count m2)) as [Hin|Hout].
    + do 2 eexists. split; [done|]. left. pose proof (sr_stop _ Hinv2). rewrite Eb2 in Ht. cbn in Ht.
      unfold traversed. split_and!; try (done || by eexists). left. split; [done|].
      split; [split; cbn; try (done || lia); rewrite Eb2; lia|]. unfold pending. cbn.
      destruct (Z.eqb_spec (sq_count m2 - (offset - pos)) 0); [lia|]. rewrite Eb2, Nat2Z.id, Hdc, drop_app_le by lia. f_equal. cbn.
      replace (drop (Z.to_nat (offset - pos)) t) with (drop (Z.to_nat (offset - pos)) (take (length t) b2)) by (by rewrite Ht).
      rewrite skipn_firstn_comm. f_equal. lia.
    + rewrite Hc2. destruct (Z.eqb_spec (pos + Z.of_nat (length t)) offset) as [Heq|Hneq]; [|apply Hgo; [done|lia]].
      do 2 eexists. split; [done|]. left. pose proof (sr_stop _ Hinv2). unfold traversed. split_and!; try (done || by eexists). left.
      split; [done|]. split; [split; cbn; try (done || lia); rewrite Eb2; lia|]. unfold pending. cbn.
      rewrite Hdc, drop_app_ge by lia. replace (Z.to_nat (offset - pos) - length t)%nat with 0%nat by lia. rewrite drop_0. f_equal. lia.
  - destruct (Z.eqb_spec (sq_count m2) (sq_size m2)); [|lia].
    pose proof (Forall_lookup_1 _ _ _ _ recs_short Hr) as Hl. cbn in Hl.
    destruct (double_spec (stop m2)) as [(b3 & -> & Hl3)|(Hfail & m3 & ->)]; [done|cbn; lia| |by do 2 eexists; split; [done|right]].
    do 2 eexists. split; [done|]. left. pose proof (sr_stop _ Hinv2).
    assert (buf_ok (set_buf (stop m2) (Some b3) (2 * sq_size (stop m2)))) by (unfold buf_ok; cbn in Hl3 |- *; lia).
    unfold traversed. split_and!; try (done || by eexists). right. cbn. split_and!; done || lia.
Qed.

(** The size of the buffer, 0 when there is none. *)
Definition room (m : seq_file P) : Z := match sq_buf m with Some _ => sq_size m | None => 0 end.

Lemma grab_spec m : sr_inv (sq_private m) -> buf_ok m ->
  (exists m1, grab_buf kmalloc m = (m1, true) /\ is_Some (sq_buf m1) /\ buf_ok m1 /\ sq_private m1 = sq_private m /\
     sq_from m1 = sq_from m /\ sq_count m1 = sq_count m /\ sq_index m1 = sq_index m /\ sq_read_pos m1 = sq_read_pos m /\
     room m <= sq_size m1) \/
  alloc_fails /\ exists m1, grab_buf kmalloc m = (m1, false).
Proof.
  intros Hinv Hb. unfold grab_buf, buf_ok, room in *. destruct (sq_buf m) as [b|] eqn:Eb.
  - left. exists m. rewrite Eb. split_and!; try (done || lia).
  - destruct (kmalloc PAGE_SIZE) as [b|] eqn:Hk.
    + pose proof (kmalloc_len PAGE_SIZE b ltac:(unfold PAGE_SIZE in *; lia) Hk) as Hl. left. eexists. split; [done|]. cbn. unfold PAGE_SIZE in *. split_and!; try (done || lia).
    + right. split; [exists PAGE_SIZE; split; [unfold PAGE_SIZE in *; lia|done]|by eexists].
Qed.

Lemma traverse_spec fuel m offset :
  (length recs < fuel)%nat -> sr_inv (sq_private m) -> buf_ok m -> 0 <= offset ->
  exists m' err, traverse kmalloc fuel m offset = Some (m', err) /\
    (sr_inv (sq_private m') /\ buf_ok m' /\ sq_read_pos m' = sq_read_pos m /\
     (err = 0 /\ seq_ok m' /\ pending m' = drop (Z.to_nat offset) contents \/
      err = - EAGAIN /\ room m < room m' /\ room m <= maxlen) \/
     err = - ENOMEM /\ alloc_fails).
Proof.
  intros Hf Hinv Hb Ho. unfold traverse. destruct (Z.eqb_spec offset 0) as [->|Hne].
  { do 2 eexists. split; [done|]. left. split_and!; try done. left. split_and!; try done.
    split; cbn; try (done || lia). unfold buf_ok in Hb. unfold PAGE_SIZE in *. destruct (sq_buf m); lia. }
  destruct (grab_spec (set_from (set_count m 0) 0) Hinv Hb)
    as [(m1 & -> & [b1 Eb1] & Hb1 & Hp1 & Hf1 & Hc1 & Hi1 & Hr1 & Hroom)|(Hfail & m1 & ->)]; [|by do 2 eexists; split; [done|right]].
  unfold start. rewrite Hp1. cbn in Hf1, Hc1, Hr1. destruct (sr_start _ 0 Hinv) as (p & r & Hst & Hinv2 & Hl2).
  cbn [sq_private set_from set_count]. change (Z.of_nat 0) with 0 in Hst. rewrite Hst. cbn [mbind option_bind].
  destruct (traverse_loop_spec fuel (set_private m1 p) offset 0 r) as (m' & err & Hl & Htr); try (done || lia);
    [change (text_before 0) with (@nil Z); cbn; lia|].
  exists m', err. split; [done|]. destruct Htr as [(Hinv' & Hb' & [b' Eb'] & Hrp & Hcase)|Htr]; [left|by right].
  cbn in Hrp. split_and!; try (done || lia).
  destruct Hcase as [Hcase|(-> & Hsz & Hle)]; [by left|]. right. cbn in Hsz, Hle. change (room (set_from (set_count m 0) 0)) with (room m) in Hroom.
  unfold room at 2. rewrite Eb', Hsz. unfold buf_ok in Hb1. rewrite Eb1 in Hb1. unfold PAGE_SIZE in *. split; [done|lia].
Qed.

Lemma traverse_again_spec fuel steps m offset :
  (Z.to_nat (maxlen + 1 - room m) < fuel)%nat -> (length recs < steps)%nat -> sr_inv (sq_private m) -> buf_ok m -> 0 <= offset ->
  (exists m', traverse_again kmalloc fuel steps m offset = Some (m', 0) /\ seq_ok m' /\ sq_read_pos m' = sq_read_pos m /\
     pending m' = drop (Z.to_nat offset) contents) \/
  alloc_fails /\ exists m', traverse_again kmalloc fuel steps m offset = Some (m', - ENOMEM).
Proof.
  revert m. induction fuel as [|fuel IH]; intros m Hf Hs Hinv Hb Ho; [lia|]. cbn [traverse_again].
  destruct (traverse_spec steps m offset Hs Hinv Hb Ho) as (m1 & err & -> & [(Hinv1 & Hb1 & Hr1 & Hcase)|[-> Hfail]]);
    cbn [mbind option_bind]; [|right; split; [done|by eexists]].
  destruct Hcase as [(-> & Hok & Hp)|(-> & Hlt & Hle)].
  - cbn [Z.eqb EAGAIN Z.opp]. left. by exists m1.
  - rewrite Z.eqb_refl. destruct (IH m1) as [(m' & -> & Hok & Hr & Hp)|(Hfail & m' & ->)]; try (done || lia).
    + left. exists m'. split_and!; try done. lia.
    + right. split; [done|by eexists].
Qed.

(** The next bytes are those at the position of the file. *)
Definition positioned (m : seq_file P) : Prop :=
  seq_ok m /\ 0 <= sq_read_pos m /\ pending m = drop (Z.to_nat (sq_read_pos m)) contents.

Lemma positioned_open p : sr_inv p -> positioned (seq_open p).
Proof. intros Hp. split; [split; cbn; done || lia|]. split; [cbn; lia|]. done. Qed.

Lemma pending_read_pos m pos : pending (set_read_pos m pos) = pending m.
Proof. done. Qed.

(** What a read of [size] bytes at [ppos] gives: [l] at the position, and the
    buffer behind it. When an allocation or a copy can fail, what was copied,
    or an error. *)
Definition read_result (size ppos ret : Z) (l : list Z) (m' : seq_file P) : Prop :=
  l = take (length l) (drop (Z.to_nat ppos) contents) /\ Z.of_nat (length l) <= size /\
  (ret = Z.of_nat (length l) /\ positioned m' /\ sq_read_pos m' = ppos + Z.of_nat (length l) /\
     (0 < size -> l = [] -> drop (Z.to_nat ppos) contents = []) \/
   failure /\ (ret = Z.of_nat (length l) /\ l <> [] \/ l = [] /\ read_error ret)).

Lemma failed_read m err l rest size ppos :
  failure -> read_error err -> l ++ rest = drop (Z.to_nat ppos) contents -> Z.of_nat (length l) <= size ->
  exists ret m', Some (done_read m err l ppos) = Some (ret, l, m', ppos + Z.of_nat (length l)) /\ read_result size ppos ret l m'.
Proof.
  intros Hfail He Hl Hlen. unfold done_read, read_result. rewrite <- Hl, take_app_length.
  destruct (Z.eqb_spec (Z.of_nat (length l)) 0) as [E0|E0].
  - rewrite E0, Z.add_0_r. do 2 eexists. split; [done|]. split_and!; [done|lia|right]. split; [done|]. right.
    split; [by destruct l|done].
  - do 2 eexists. split; [done|]. split_and!; [done|lia|right]. split; [done|]. left. split; [done|]. by intros ->.
Qed.

(** Positioning: the buffer is at [ppos], or an allocation failed. *)
Lemma position_spec fuel m ppos :
  (rounds_left 0 0 < fuel)%nat -> positioned m -> 0 <= ppos ->
  exists m1 err, (if ppos =? sq_read_pos m then Some (m, 0) else traverse_again kmalloc fuel fuel (set_read_pos m ppos) ppos)
    = Some (m1, err) /\
    (err = 0 /\ seq_ok m1 /\ sq_read_pos m1 = ppos /\ pending m1 = drop (Z.to_nat ppos) contents \/
     err = - ENOMEM /\ alloc_fails).
Proof.
  intros Hf (Hok & Hrp & Hpm) Hpp.
  destruct (Z.eqb_spec ppos (sq_read_pos m)) as [E0|E0]; [exists m, 0; split; [done|left; by rewrite E0]|].
  unfold rounds_left in Hf. destruct Hok as [Hinv Hb _ _].
  assert (0 <= room m) by (unfold room, buf_ok, PAGE_SIZE in *; destruct (sq_buf m); lia).
  destruct (traverse_again_spec fuel fuel (set_read_pos m ppos) ppos) as [(m1 & -> & ?)|(Hfail & m1 & ->)]; try done; [|lia| |].
  - change (room (set_read_pos m ppos)) with (room m). lia.
  - exists m1, 0. split; [done|by left].
  - exists m1, (- ENOMEM). split; [done|by right].
Qed.

Lemma read_spec fuel m size ppos :
  (rounds_left 0 0 < fuel)%nat -> positioned m -> 0 <= size -> 0 <= ppos ->
  exists ret l m', seq_read kmalloc user_ok fuel m size ppos = Some (ret, l, m', ppos + Z.of_nat (length l)) /\
    read_result size ppos ret l m'.
Proof.
  intros Hf Hm Hsize Hpp. unfold seq_read.
  assert (forall m, alloc_fails -> exists ret l m', Some (done_read m (- ENOMEM) [] ppos) = Some (ret, l, m', ppos + Z.of_nat (length l)) /\
    read_result size ppos ret l m') as Hnomem.
  { intros m0 Hfail. destruct (failed_read m0 (- ENOMEM) [] (drop (Z.to_nat ppos) contents) size ppos) as (ret & m' & ?);
      [by left|by left|done|done|]. by exists ret, [], m'. }
  destruct (position_spec fuel m ppos Hf Hm Hpp) as (m1 & err & -> & [(-> & Hok1 & Hr1 & Hp1)|[-> Hfail]]);
    cbn [mbind option_bind ctrue Z.eqb negb ENOMEM Z.opp]; [|by apply Hnomem].
  destruct Hok1 as [Hinv1 Hb1 Hi1 Hleft1].
  destruct (grab_spec m1 Hinv1 Hb1) as [(m2 & Hg & [b2 Eb2] & Hb2 & Hp2 & Hf2 & Hc2 & Hi2 & Hr2 & Hroom)|(Hfail & m2 & ->)];
    [|by apply Hnomem].
  rewrite Hg. assert (seq_ok m2) as Hok2.
  { split; rewrite ?Hp2, ?Hi2; try done. rewrite Eb2, Hf2, Hc2. unfold room, buf_ok in *. rewrite Eb2 in Hb2.
    unfold PAGE_SIZE in *. destruct (sq_buf m1); lia. }
  assert (pending m2 = pending m1) as Hp12.
  { unfold pending. rewrite Hc2, Hf2, Hi2. destruct (sq_count m1 =? 0) eqn:E0; [done|]. apply Z.eqb_neq in E0. do 3 f_equal.
    unfold grab_buf in Hg. destruct (sq_buf m1) eqn:Eb1; [|lia]. injection Hg as ->. by rewrite Eb1. }
  destruct (read_buffered_spec fuel m2 size ppos Hf Hok2) as [(l & m' & -> & Hok' & Hr' & Hp' & Hl & Hemp)|
    (Hfail & l & err & m' & rest & -> & He & Hl & Hlen)]; [done|done| |].
  2: { rewrite Hp12, Hp1 in Hl. destruct (failed_read m' err l rest size ppos) as (ret & m3 & ?); try done. by exists ret, l, m3. }
  rewrite Hp12, Hp1 in Hp', Hemp. rewrite Hr2, Hr1 in Hr'. exists (Z.of_nat (length l)), l. unfold done_read, read_result.
  assert (l = take (length l) (drop (Z.to_nat ppos) contents)) as Hl' by (by rewrite <- Hp', take_app_length).
  assert (pending m' = drop (Z.to_nat (ppos + Z.of_nat (length l))) contents) as Hpend.
  { rewrite Z2Nat.inj_add, Nat2Z.id, <- drop_drop, <- Hp', drop_app_length by lia. done. }
  destruct (Z.eqb_spec (Z.of_nat (length l)) 0) as [E0|E0].
  - exists m'. rewrite E0, Z.add_0_r in *. split_and!; try done. left. split_and!; try done. split_and!; [done|lia|by rewrite Hr'].
  - eexists. split; [done|]. split_and!; try done. left. split_and!; try done; [|cbn; lia]. split; [by destruct Hok'; split|].
    split; [cbn; lia|]. rewrite pending_read_pos. cbn. by rewrite Hr'.
Qed.

(** [read] until it delivers nothing, as [cat] does. *)
Fixpoint read_all (n : nat) (fuel : nat) (m : seq_file P) (size ppos : Z) : option (list Z) :=
  match n with
  | O => None
  | S n' =>
      '(r, l, m, ppos) ← seq_read kmalloc user_ok fuel m size ppos;
      if r <=? 0 then Some [] else (l ++.) <$> read_all n' fuel m size ppos
  end.

Lemma read_all_spec n fuel m size ppos :
  ~ failure ->
  (rounds_left 0 0 < fuel)%nat -> positioned m -> 0 < size -> 0 <= ppos -> (length (drop (Z.to_nat ppos) contents) < n)%nat ->
  read_all n fuel m size ppos = Some (drop (Z.to_nat ppos) contents).
Proof.
  intros Hok. revert m ppos. induction n as [|n IH]; intros m ppos Hf Hm Hsize Hpp Hn; [lia|]. cbn [read_all].
  destruct (read_spec fuel m size ppos) as (ret & l & m' & -> & Hl & _ & [(-> & Hm' & _ & Hemp)|[Hfail _]]); try (done || lia).
  cbn [mbind option_bind].
  destruct (Z.leb_spec (Z.of_nat (length l)) 0) as [H0|H0].
  - rewrite Hemp; [done|done|]. destruct l; [done|cbn in H0; lia].
  - assert (drop (Z.to_nat (ppos + Z.of_nat (length l))) contents = drop (length l) (drop (Z.to_nat ppos) contents)) as Hd.
    { rewrite Z2Nat.inj_add, Nat2Z.id, <- drop_drop by lia. done. }
    assert (length l <= length (drop (Z.to_nat ppos) contents))%nat by (rewrite Hl at 1; rewrite length_take; lia).
    rewrite IH, Hd; try (done || lia).
    + cbn. f_equal. rewrite Hl at 1. apply take_drop.
    + rewrite Hd, length_drop. lia.
Qed.

Lemma seek_spec fuel m f_pos offset :
  (rounds_left 0 0 < fuel)%nat -> positioned m -> 0 <= offset ->
  (exists m', seq_lseek kmalloc fuel m f_pos offset 0 =
       Some (offset, m', if offset =? sq_read_pos m then f_pos else offset) /\
     positioned m' /\ sq_read_pos m' = offset) \/
  alloc_fails /\ exists m', seq_lseek kmalloc fuel m f_pos offset 0 = Some (- ENOMEM, m', 0).
Proof.
  intros Hf Hm Ho. unfold seq_lseek. cbn [Z.eqb orb]. destruct (Z.ltb_spec offset 0); [lia|].
  destruct (Z.eqb_spec offset (sq_read_pos m)) as [E0|E0]; [left; by exists m|]. destruct Hm as (Hok & Hrp & Hp).
  destruct Hok as [Hinv Hb _ _]. unfold rounds_left in Hf.
  assert (0 <= room m) by (unfold room, buf_ok, PAGE_SIZE in *; destruct (sq_buf m); lia).
  destruct (traverse_again_spec fuel fuel m offset) as [(m1 & -> & Hok1 & Hr1 & Hp1)|(Hfail & m1 & ->)]; try (done || lia);
    [left|right; split; [done|by eexists]].
  cbn [mbind option_bind ctrue Z.eqb negb]. eexists. split; [done|]. split; [|done].
  split; [by destruct Hok1; split|]. split; [done|]. rewrite pending_read_pos. cbn. done.
Qed.

(** C6: a read of a sequential file at any position delivers bytes of the
    file from that position on, at most as many as wanted, and the position
    moves by as much. Unless an allocation or a copy to the caller fails, it
    delivers nothing only at the end of the file and leaves the buffer behind
    what it delivered, ready for the next read. If one fails, it returns what
    it had copied before, or else ENOMEM or EFAULT; the state it then leaves is
    not constrained ([nomem_leaks], [fault_repeats]). This holds for every size
    of the reads, whatever records, empty and skipped ones included, the
    iterator shows. Assumed: the iterator is restartable and its [show]
    appends one text per record without an error of its own ([SeqRecords]);
    [kmalloc] gives the size asked for if it gives any; twice the longest
    record fits the largest buffer, which is below 2^31; the earlier reads and
    seeks since the file was opened did not fail ([positioned]). *)
Theorem seq_read_correct (fuel : nat) (m : seq_file P) (size ppos : Z) :
  (rounds_left 0 0 < fuel)%nat -> positioned m -> 0 <= size -> 0 <= ppos ->
  exists ret l m', seq_read kmalloc user_ok fuel m size ppos = Some (ret, l, m', ppos + Z.of_nat (length l)) /\
    l = take (length l) (drop (Z.to_nat ppos) contents) /\ Z.of_nat (length l) <= size /\
    (ret = Z.of_nat (length l) /\ positioned m' /\ sq_read_pos m' = ppos + Z.of_nat (length l) /\
       (0 < size -> l = [] -> drop (Z.to_nat ppos) contents = []) \/
     failure /\ (ret = Z.of_nat (length l) /\ l <> [] \/ l = [] /\ (ret = - ENOMEM \/ ret = - EFAULT))).
Proof. apply read_spec. Qed.

(** Reading a newly opened sequential file until a read delivers nothing
    gives the texts of its records in order, when no allocation and no copy
    fails. *)
Theorem seq_read_all (n fuel : nat) (p : P) (size : Z) :
  ~ failure ->
  (rounds_left 0 0 < fuel)%nat -> sr_inv p -> 0 < size -> (length contents < n)%nat ->
  read_all n fuel (seq_open p) size 0 = Some contents.
Proof. intros. apply (read_all_spec n fuel (seq_open p) size 0); [done|done|by apply positioned_open|done|lia|done]. Qed.

(** [seq_lseek] puts the buffer at the position, but leaves [f_pos] alone
    when the buffer was there already; when an allocation fails, ENOMEM and
    position 0. *)
Theorem seq_lseek_correct (fuel : nat) (m : seq_file P) (f_pos offset : Z) :
  (rounds_left 0 0 < fuel)%nat -> positioned m -> 0 <= offset ->
  (exists m', seq_lseek kmalloc fuel m f_pos offset 0 =
       Some (offset, m', if offset =? sq_read_pos m then f_pos else offset) /\
     positioned m' /\ sq_read_pos m' = offset) \/
  alloc_fails /\ exists m', seq_lseek kmalloc fuel m f_pos offset 0 = Some (- ENOMEM, m', 0).
Proof. apply seek_spec. Qed.

End reading.

(** [seq_putc], [seq_puts], [seq_write], [seq_escape] and [seq_printf]
    append their text when it fits with a byte to spare, and otherwise mark
    the buffer as full; they keep what was in the buffer. *)
Theorem writers_append (smax base : Z) (env : kenv) (s esc f : list Z) (args : list arg) (t : list Z) (c : Z) :
  smax < 2 ^ 31 -> 0 <= base -> base + smax < 2 ^ 32 -> Z.of_nat (length s) < 2 ^ 31 -> Z.of_nat (length t) < 2 ^ 31 ->
  runs env (vsnprintf_fuel f) f spec0 args t ->
  appends smax (seq_putc c) [c] /\ appends smax (seq_puts s) s /\ appends smax (seq_write s (Z.of_nat (length s))) s /\
  appends smax (seq_escape s esc) (escape esc s) /\ appends smax (seq_printf env base f args) t.
Proof.
  intros. split; [apply seq_putc_appends|]. split; [by apply seq_puts_appends|]. split; [by apply seq_write_appends|].
  split; [apply seq_escape_appends|by apply seq_printf_appends].
Qed.

Lemma writers_append_witness :
  appends 65536 (seq_putc 10) [10] /\ appends 65536 (seq_puts (bytes_of "a b")) (bytes_of "a b") /\
  appends 65536 (seq_write (bytes_of "a b") 3) (bytes_of "a b") /\
  appends 65536 (seq_escape (bytes_of "a b") (bytes_of " ")) (escape (bytes_of " ") (bytes_of "a b")) /\
  appends 65536 (seq_printf plain_env 3221225472 [] []) [].
Proof. apply (writers_append 65536 3221225472 plain_env (bytes_of "a b") (bytes_of " ") [] [] [] 10); try lia; [cbn; lia|cbn; lia|apply runs_end]. Defined.

(** [mangle_path] copies a path within its buffer, with the characters of
    [esc] as octal escapes, and fails only when the escapes would overtake the
    path. *)
Theorem mangle_path_correct (pre gap path rest esc : list Z) :
  Forall (fun c => c <> 0) path ->
  let b := pre ++ gap ++ path ++ 0 :: rest in
  let s := Z.of_nat (length pre) in
  let text := escape esc path in
  exists b' r, mangle_path b esc s (s + Z.of_nat (length gap)) = Some (b', r) /\ length b' = length b /\
    (r = Some (s + Z.of_nat (length text)) /\ take (length pre + length text) b' = pre ++ text \/
     r = None /\ (length path + length gap < length text)%nat).
Proof.
  intros Hz b s text. unfold mangle_path.
  destruct (mangle_loop_spec path esc rest (S (length b)) b s (s + Z.of_nat (length gap))) as (b' & r & Hl & Hlen & Hr).
  { subst b. rewrite !length_app. cbn. lia. } { lia. }
  { subst b s. rewrite <- Nat2Z.inj_add, Nat2Z.id, <- length_app, app_assoc, drop_app_length. done. } { done. }
  exists b', r. split; [done|]. split; [done|]. subst s. rewrite Nat2Z.id in Hr.
  replace (take (length pre) b) with pre in Hr by (subst b; by rewrite take_app_length).
  destruct Hr as [Hr|[-> Hr]]; [by left|right]. split; [done|]. subst text. lia.
Qed.

Lemma mangle_path_correct_witness :
  exists b' r, mangle_path (bytes_of "xx...../a b" ++ [0]) (bytes_of " ") 2 7 = Some (b', r) /\
    take 9 b' = bytes_of "xx/a\040b".
Proof.
  destruct (mangle_path_correct (bytes_of "xx") (bytes_of ".....") (bytes_of "/a b") [] (bytes_of " ")) as (b' & r & Hm & _ & Hr).
  { repeat constructor; discriminate. }
  exists b', r. split; [exact Hm|]. destruct Hr as [[_ Hr]|[_ Hr]]; [exact Hr|]. vm_compute in Hr. lia.
Defined.

(** ** Files with a single record *)

Section single.
Context (show : sbuf -> option (sbuf * Z)).

Definition single_start (pos : Z) : seq_iter unit := if pos =? 0 then IElem () else INull.
Definition single_next (pos : Z) : Z * seq_iter unit := (pos + 1, INull).
Definition single_stop (p : unit) : unit := p.

(** The operations [single_open] puts together. *)
Definition single_open : SeqOps unit unit := {|
  op_start p pos := Some (p, pos, single_start pos);
  op_next p _ pos := let '(pos, r) := single_next pos in Some (p, pos, r);
  op_stop := single_stop;
  op_show p _ sb := '(sb, err) ← show sb; Some (p, sb, err) |}.

End single.

(** A function that appends a text and returns 0 makes a file of that text. *)
Program Definition single_records (show : sbuf -> option (sbuf * Z)) (smax : Z) (t : list Z)
    (Hshow : forall m, sb_ok smax m -> exists m', show m = Some (m', 0) /\ appended m t m')
  : SeqRecords (single_open show) smax [Some t] := {|
  sr_inv _ := True;
  sr_at _ _ i := i = 0%nat |}.
Next Obligation.
  intros show smax t _ [] i _. do 2 eexists. split; [done|]. split; [done|]. cbn [length]. unfold single_start.
  destruct (decide (i < 1)%nat); destruct (Z.eqb_spec (Z.of_nat i) 0); try lia; [|done]. exists (). split; [done|lia].
Qed.
Next Obligation. intros show smax t _ [] [] i _ ->. do 2 eexists. split; [done|]. done. Qed.
Next Obligation. done. Qed.
Next Obligation.
  intros show smax t Hshow [] [] i rec sb _ -> Hr Hsb. cbn in Hr. injection Hr as <-.
  destruct (Hshow sb Hsb) as (m' & Hs & Ha). cbn [op_show single_open]. rewrite Hs. by do 3 eexists.
Qed.

(** ** Files over a linked list

    A node is the list from it on; the empty list stands for NULL. *)

Section list_files.
Context {A : Type}.

Fixpoint seq_list_start (head : list A) (pos : Z) : list A :=
  match head with
  | [] => []
  | _ :: head' => if pos =? 0 then head else seq_list_start head' (pos - 1)
  end.

Definition seq_list_next (v : list A) (ppos : Z) : Z * list A := (ppos + 1, tail v).

Lemma seq_list_start_drop (head : list A) i : seq_list_start head (Z.of_nat i) = drop i head.
Proof.
  revert i. induction head as [|x head IH]; intros i; [by destruct i|]. cbn [seq_list_start].
  destruct i as [|i]; [done|]. destruct (Z.eqb_spec (Z.of_nat (S i)) 0); [lia|].
  replace (Z.of_nat (S i) - 1) with (Z.of_nat i) by lia. apply IH.
Qed.

Context (show : A -> sbuf -> option (sbuf * Z)).

Definition node (l : list A) : seq_iter (list A) := match l with [] => INull | _ => IElem l end.

Definition list_ops : SeqOps (list A) (list A) := {|
  op_start p pos := Some (p, pos, node (seq_list_start p pos));
  op_next p v pos := let '(pos, v) := seq_list_next v pos in Some (p, pos, node v);
  op_stop p := p;
  op_show p v sb := x ← head v; '(sb, err) ← show x sb; Some (p, sb, err) |}.

Lemma node_lands (l : list A) i :
  if decide (i < length l)%nat then exists x, node (drop i l) = IElem x /\ x = drop i l else node (drop i l) = INull.
Proof.
  destruct (decide (i < length l)%nat) as [Hi|Hi]; [|by rewrite drop_ge by lia].
  destruct (drop i l) as [|y v] eqn:Ed; [|by eexists]. apply (f_equal length) in Ed. rewrite length_drop in Ed. cbn in Ed. lia.
Qed.

(** An element whose text is [text x] is shown, or skipped. *)
Program Definition list_records (l : list A) (smax : Z) (text : A -> option (list Z))
    (Hshow : forall x m, x ∈ l -> sb_ok smax m -> exists m',
       match text x with
       | Some t => show x m = Some (m', 0) /\ appended m t m'
       | None => show x m = Some (m', SEQ_SKIP) /\ sb_ok smax m' /\ sb_size m' = sb_size m /\
           take (Z.to_nat (sb_count m)) (sb_buf m') = take (Z.to_nat (sb_count m)) (sb_buf m)
       end)
  : SeqRecords list_ops smax (text <$> l) := {|
  sr_inv p := p = l;
  sr_at _ v i := v = drop i l |}.
Next Obligation.
  intros l smax text _ p i ->. do 2 eexists. split; [done|]. split; [done|]. rewrite seq_list_start_drop, length_fmap.
  apply node_lands.
Qed.
Next Obligation.
  intros l smax text _ p v i -> ->. do 2 eexists. split; [cbn; do 3 f_equal; lia|]. split; [done|]. rewrite length_fmap.
  replace (tail (drop i l)) with (drop (S i) l); [apply node_lands|]. by rewrite <- Nat.add_1_r, <- drop_drop; destruct (drop i l).
Qed.
Next Obligation. done. Qed.
Next Obligation.
  intros l smax text Hshow p v i rec sb -> -> Hr Hsb. rewrite list_lookup_fmap in Hr. destruct (l !! i) as [x|] eqn:Hx; [|done].
  cbn in Hr. injection Hr as <-. destruct (Hshow x sb) as (m' & Hs); [by eapply list_elem_of_lookup_2|done|].
  cbn [op_show list_ops]. rewrite (drop_S _ _ _ Hx). cbn [head mbind option_bind]. exists l, m'.
  destruct (text x); destruct Hs as [-> Hs]; eexists; (split; [done|]); (split; [done|]); done.
Qed.

End list_files.

(** *** A file that says hello *)

Definition hello_text : list Z := bytes_of "hello, world
".

Definition hello_show (m : sbuf) : option (sbuf * Z) := '(m, _) ← seq_puts hello_text m; Some (m, 0).

Lemma hello_appends m : sb_ok 65536 m -> exists m', hello_show m = Some (m', 0) /\ appended m hello_text m'.
Proof.
  intros Hm. destruct (seq_puts_appends 65536 ltac:(lia) hello_text ltac:(vm_compute; done) m Hm) as (m' & r & Hs & Ha).
  exists m'. unfold hello_show. by rewrite Hs.
Qed.

#[export] Instance hello_ops : SeqOps unit unit := single_open hello_show.
#[export] Instance hello_records : SeqRecords hello_ops 65536 [Some hello_text] :=
  single_records hello_show 65536 hello_text hello_appends.

(** Memory that [kmalloc] delivers, and an allocation that fails. *)
Definition kmalloc_zero (n : Z) : option (list Z) := Some (replicate (Z.to_nat n) 0).

Lemma kmalloc_zero_len n b : 0 < n <= 65536 -> kmalloc_zero n = Some b -> Z.of_nat (length b) = n.
Proof. intros Hn [= <-]. rewrite length_replicate. lia. Qed.

Lemma zero_never_fails smax : ~ failure (smax := smax) kmalloc_zero (fun _ _ => true).
Proof. intros [(n & _ & [=])|(a & n & [=])]. Qed.

Lemma hello_short : Forall (fun r => Z.of_nat (length (default [] r)) <= 13) [Some hello_text].
Proof. repeat constructor. vm_compute. discriminate. Qed.

Lemma seq_read_correct_witness :
  exists l m', seq_read kmalloc_zero (fun _ _ => true) 20 (seq_open ()) 5 7 = Some (Z.of_nat (length l), l, m', 7 + Z.of_nat (length l)) /\
    l = take (length l) (bytes_of "world
") /\ Z.of_nat (length l) <= 5 /\ l <> [].
Proof.
  destruct (seq_read_correct (SR := hello_records) kmalloc_zero (fun _ _ => true) 13 hello_short ltac:(unfold PAGE_SIZE; lia)
    kmalloc_zero_len 20 (seq_open ()) 5 7) as (ret & l & m' & Hr & Hl & Hlen & [(Hret & _ & _ & Hne)|[Hfail _]]).
  { vm_compute. lia. } { by apply positioned_open. } { lia. } { lia. } 2: { by apply zero_never_fails in Hfail. }
  exists l, m'. rewrite Hret in Hr. split; [exact Hr|]. split; [exact Hl|]. split; [exact Hlen|].
  intros ->. specialize (Hne ltac:(lia) eq_refl). discriminate Hne.
Defined.

Lemma seq_read_all_witness : read_all kmalloc_zero (fun _ _ => true) 20 20 (seq_open ()) 4 0 = Some hello_text.
Proof.
  apply (seq_read_all (SR := hello_records) kmalloc_zero (fun _ _ => true) 13 hello_short ltac:(unfold PAGE_SIZE; lia)
    kmalloc_zero_len 20 20 () 4); [apply zero_never_fails|vm_compute; lia|done|lia|vm_compute; lia].
Defined.

Lemma seq_lseek_correct_witness :
  exists m', seq_lseek kmalloc_zero 20 (seq_open ()) 0 7 0 = Some (7, m', 7) /\ sq_read_pos m' = 7.
Proof.
  destruct (seq_lseek_correct (SR := hello_records) kmalloc_zero (fun _ _ => true) 13 hello_short ltac:(unfold PAGE_SIZE; lia)
    kmalloc_zero_len 20 (seq_open ()) 0 7) as [(m' & Hl & _ & Hp)|[(n & _ & Hn) _]];
    [vm_compute; lia|by apply positioned_open|lia| |discriminate Hn].
  exists m'. split; [exact Hl|exact Hp].
Defined.

(** ** What happens when something fails *)

(** Lines of the given texts. *)
Definition line_ops : SeqOps (list (list Z)) (list (list Z)) := list_ops (fun t m => '(m, _) ← seq_puts t m; Some (m, 0)).

(** A record of 4096 bytes does not fit a page and the larger buffer cannot be
    allocated: [count] keeps the size of the buffer that was freed, and the
    next read delivers the contents of a page fresh from [kmalloc]. *)
Definition one_page (n : Z) : option (list Z) := if n =? 4096 then Some (replicate 4096 165) else None.

Example nomem_leaks :
  match seq_read (ops := line_ops) one_page (fun _ _ => true) 5 (seq_open [replicate 4096 120]) 3 0 with
  | Some (r, _, m, pos) =>
      r = - ENOMEM /\ pos = 0 /\
      match seq_read (ops := line_ops) one_page (fun _ _ => true) 5 m 3 pos with
      | Some (r, l, _, _) => r = 3 /\ l = [165; 165; 165]
      | None => False
      end
  | None => False
  end.
Proof. vm_compute. repeat split. Qed.

(** After a read that faults, the next one repeats a record. *)
Example fault_repeats :
  match seq_read (ops := line_ops) one_page (fun _ _ => false) 5 (seq_open [bytes_of "a"; bytes_of "b"]) 8 0 with
  | Some (r, _, m, pos) =>
      r = - EFAULT /\ pos = 0 /\
      match seq_read (ops := line_ops) one_page (fun _ _ => true) 5 m 8 pos with
      | Some (r, l, _, _) => r = 3 /\ l = bytes_of "abb"
      | None => False
      end
  | None => False
  end.
Proof. vm_compute. repeat split. Qed.

(** A [pread] of three bytes moves [read_pos] but not [f_pos]; a seek to byte
    3 then returns 3 and leaves [f_pos] at 0. *)
Example seek_lost :
  match seq_read (ops := line_ops) one_page (fun _ _ => true) 5 (seq_open [bytes_of "abcdef"]) 3 0 with
  | Some (_, _, m, _) =>
      (fun r => (r.1.1, r.2)) <$> seq_lseek (ops := line_ops) one_page 5 m 0 3 0 = Some (3, 0)
  | None => False
  end.
Proof. vm_compute. reflexivity. Qed.
