(* ===== verification/Kallsyms.v ===== *)
(** * The kernel's symbol table

    [kernel/kallsyms.c], which the tracer's proc file [st] asks for the
    address of a symbol and for the symbol at an address: the expansion of
    compressed names, the markers into the stream of names, the binary search
    for an address, the lookups, [sprint_symbol] and the iterator of
    [/proc/kallsyms].

    The tables are those the build generates. An access outside a table is a
    fault ([None]). *)

From stdpp Require Import prelude gmap list strings sorting.
From Stdlib Require Import ZArith Lia.
From S2P Require Import Prelude Vsprintf Dynamic Bcmutils Printf Address.

Open Scope Z_scope.
Open Scope list_scope.

Definition KSYM_NAME_LEN : Z := 128.

(** sizeof("%s+%#lx/%#lx [%s]") + 127 + 2 * 9 + 59 + 1 *)
Definition KSYM_SYMBOL_LEN : Z := 223.

Record ksyms := MkKsyms {
  kallsyms_addresses : list Z;
  kallsyms_num_syms : Z;
  kallsyms_names : list Z;
  kallsyms_markers : list Z;
  kallsyms_token_table : list Z;
  kallsyms_token_index : list Z;
  _stext : Z;
  _end : Z;
  _sinittext : Z;
  _einittext : Z }.

(** Reading a string up to its NUL. *)
Fixpoint c_string (l : list Z) : option (list Z) :=
  match l with
  | [] => None
  | c :: l' => if c =? 0 then Some [] else (c ::.) <$> c_string l'
  end.

(** A string and its NUL stored at the start of an object. *)
Definition store_str (res s : list Z) : option (list Z) :=
  if Z.of_nat (length s) <? Z.of_nat (length res) then Some (s ++ 0 :: drop (S (length s)) res) else None.

(** The kernel is built without modules: the functions of
    [include/linux/module.h] find nothing. *)
Definition ERANGE : Z := 34.
Definition module_address_lookup (addr : Z) : option (list Z * Z * Z * list Z) := None.
Definition lookup_module_symbol_name (addr : Z) (symname : list Z) : Z * list Z := (- ERANGE, symname).
Definition lookup_module_symbol_attrs (addr : Z) (modname name : list Z) : Z * Z * Z * list Z * list Z :=
  (- ERANGE, 0, 0, modname, name).
Definition module_get_kallsym (symnum : Z) : Z := - ERANGE.
Definition module_kallsyms_lookup_name (name : list Z) : Z := 0.

Section kallsyms.
Context (k : ksyms).

Definition is_kernel_inittext (addr : Z) : bool := (_sinittext k <=? addr) && (addr <=? _einittext k).

(** [in_gate_area_no_mm] is 0 on this architecture. *)
Definition is_kernel (addr : Z) : bool := (_stext k <=? addr) && (addr <=? _end k).

(** [all_var] is set. *)
Definition is_ksym_addr (addr : Z) : bool := is_kernel addr.

(** The token of a code. *)
Definition token (code : Z) : option (list Z) :=
  i ← zget (kallsyms_token_index k) code;
  if (0 <=? i) then c_string (drop (Z.to_nat i) (kallsyms_token_table k)) else None.

(** The inner loop: the first character of all is not copied. *)
Fixpoint copy_token (t : list Z) (skipped_first : bool) : list Z * bool :=
  match t with
  | [] => ([], skipped_first)
  | c :: t' =>
      if skipped_first then let '(r, s) := copy_token t' true in (c :: r, s)
      else copy_token t' true
  end.

Fixpoint expand_loop (len : nat) (data : Z) (skipped_first : bool) : option (list Z) :=
  match len with
  | O => Some []
  | S len' =>
      code ← zget (kallsyms_names k) data;
      t ← token code;
      let '(r, s) := copy_token t skipped_first in
      rest ← expand_loop len' (data + 1) s;
      Some (r ++ rest)
  end.

(** The offset of the next symbol and the buffer. *)
Definition kallsyms_expand_symbol (off : Z) (result : list Z) : option (Z * list Z) :=
  len ← zget (kallsyms_names k) off;
  s ← expand_loop (Z.to_nat len) (off + 1) false;
  result ← store_str result s;
  Some (off + len + 1, result).

Definition kallsyms_get_symbol_type (off : Z) : option Z :=
  code ← zget (kallsyms_names k) (off + 1);
  i ← zget (kallsyms_token_index k) code;
  zget (kallsyms_token_table k) i.

Fixpoint offset_loop (n : nat) (name : Z) : option Z :=
  match n with
  | O => Some name
  | S n' => len ← zget (kallsyms_names k) name; offset_loop n' (name + len + 1)
  end.

Definition get_symbol_offset (pos : Z) : option Z :=
  m ← zget (kallsyms_markers k) (Z.shiftr pos 8);
  offset_loop (Z.to_nat (Z.land pos 255)) m.

Definition namebuf : list Z := replicate (Z.to_nat KSYM_NAME_LEN) 0.

(** [fn] gets the data, the name and the address, and returns the data and a
    number that stops the loop if it is not zero. *)
Fixpoint each_symbol_loop {D} (fn : D -> list Z -> Z -> D * Z) (n : nat) (i off : Z) (buf : list Z) (data : D)
  : option (Z * D) :=
  match n with
  | O => Some (0, data)
  | S n' =>
      '(off, buf) ← kallsyms_expand_symbol off buf;
      a ← zget (kallsyms_addresses k) i;
      let '(data, ret) := fn data (cstr buf) a in
      if ctrue ret then Some (ret, data) else each_symbol_loop fn n' (i + 1) off buf data
  end.

Definition kallsyms_on_each_symbol {D} (fn : D -> list Z -> Z -> D * Z) (data : D) : option (Z * D) :=
  each_symbol_loop fn (Z.to_nat (kallsyms_num_syms k)) 0 0 namebuf data.

(** [n] symbols are left, the next one is number [i] at [off]. *)
Fixpoint lookup_name_loop (n : nat) (i off : Z) (buf name : list Z) : option Z :=
  match n with
  | O => Some (module_kallsyms_lookup_name name)
  | S n' =>
      '(off, buf) ← kallsyms_expand_symbol off buf;
      if bool_decide (cstr buf = name) then zget (kallsyms_addresses k) i
      else lookup_name_loop n' (i + 1) off buf name
  end.

Definition kallsyms_lookup_name (name : list Z) : option Z :=
  lookup_name_loop (Z.to_nat (kallsyms_num_syms k)) 0 0 namebuf name.

(** The binary search; [unsigned long] has 32 bits, so 32 rounds are enough. *)
Fixpoint search_loop (fuel : nat) (addr low high : Z) : option Z :=
  match fuel with
  | O => None
  | S fuel' =>
      if 1 <? high - low then
        let mid := low + (high - low) / 2 in
        a ← zget (kallsyms_addresses k) mid;
        if a <=? addr then search_loop fuel' addr mid high else search_loop fuel' addr low mid
      else Some low
  end.

(** The first symbol with the same address. *)
Fixpoint first_alias (low : nat) : option Z :=
  match low with
  | O => Some 0
  | S low' =>
      a ← zget (kallsyms_addresses k) (Z.of_nat low');
      b ← zget (kallsyms_addresses k) (Z.of_nat low);
      if a =? b then first_alias low' else Some (Z.of_nat low)
  end.

(** The address of the next symbol that is not an alias, or 0. *)
Fixpoint next_symbol (n : nat) (i start : Z) : option Z :=
  match n with
  | O => Some 0
  | S n' =>
      a ← zget (kallsyms_addresses k) i;
      if start <? a then Some a else next_symbol n' (i + 1) start
  end.

(** The position, the size and the offset. *)
Definition get_symbol_pos (addr : Z) : option (Z * Z * Z) :=
  low ← search_loop 33 addr 0 (kallsyms_num_syms k);
  low ← first_alias (Z.to_nat low);
  symbol_start ← zget (kallsyms_addresses k) low;
  symbol_end ← next_symbol (Z.to_nat (kallsyms_num_syms k - (low + 1))) (low + 1) symbol_start;
  let symbol_end :=
    if symbol_end =? 0 then if is_kernel_inittext addr then _einittext k else _end k
    else symbol_end in
  Some (low, u32 (symbol_end - symbol_start), u32 (addr - symbol_start)).

Definition kallsyms_lookup_size_offset (addr : Z) : option (bool * Z * Z) :=
  if is_ksym_addr addr then
    '(pos, size, off) ← get_symbol_pos addr; Some (ctrue pos, size, off)
  else
    Some (match module_address_lookup addr with
          | Some (_, size, off, _) => (true, size, off)
          | None => (false, 0, 0)
          end).

(** The name, if one was found, with the size, the offset and the name of the
    module; the buffer has at least [KSYM_NAME_LEN] bytes. *)
Definition kallsyms_lookup (addr : Z) (buf : list Z)
  : option (option (list Z * Z * Z * option (list Z)) * list Z) :=
  buf ← zset buf (KSYM_NAME_LEN - 1) 0;
  buf ← zset buf 0 0;
  if is_ksym_addr addr then
    '(pos, size, off) ← get_symbol_pos addr;
    o ← get_symbol_offset pos;
    '(_, buf) ← kallsyms_expand_symbol o buf;
    Some (Some (cstr buf, size, off, None), buf)
  else
    Some (match module_address_lookup addr with
          | Some (name, size, off, modname) => Some (name, size, off, Some modname)
          | None => None
          end, buf).

Definition lookup_symbol_name (addr : Z) (symname : list Z) : option (Z * list Z) :=
  symname ← zset symname 0 0;
  symname ← zset symname (KSYM_NAME_LEN - 1) 0;
  if is_ksym_addr addr then
    '(pos, _, _) ← get_symbol_pos addr;
    o ← get_symbol_offset pos;
    '(_, symname) ← kallsyms_expand_symbol o symname;
    Some (0, symname)
  else Some (lookup_module_symbol_name addr symname).

(** The result, the size, the offset and the two buffers. *)
Definition lookup_symbol_attrs (addr : Z) (modname name : list Z) : option (Z * Z * Z * list Z * list Z) :=
  name ← zset name 0 0;
  name ← zset name (KSYM_NAME_LEN - 1) 0;
  if is_ksym_addr addr then
    '(pos, size, off) ← get_symbol_pos addr;
    o ← get_symbol_offset pos;
    '(_, name) ← kallsyms_expand_symbol o name;
    modname ← zset modname 0 0;
    Some (0, size, off, modname, name)
  else Some (lookup_module_symbol_attrs addr modname name).

(** [sprintf(buffer + len, ...)] on the bytes from [len] on: the number of
    characters and the buffer. *)
Definition sprintf_at (env : kenv) (base len : Z) (buffer : list Z) (fmt : list Z) (args : list arg)
  : option (Z * list Z) :=
  r ← sprintf env (base + len) (drop (Z.to_nat len) buffer) fmt args;
  Some (ret r, take (Z.to_nat len) buffer ++ obuf r).

(** [base] is the address of the buffer. *)
Definition __sprint_symbol (env : kenv) (base : Z) (buffer : list Z) (address symbol_offset : Z)
  : option (Z * list Z) :=
  let address := u32 (address + symbol_offset) in
  '(r, buffer) ← kallsyms_lookup address buffer;
  match r with
  | None => sprintf_at env base 0 buffer (bytes_of "0x%lx") [ALong address]
  | Some (name, size, off, modname) =>
      buffer ← store_str buffer name;
      let len := Z.of_nat (length name) in
      let off := u32 (off - symbol_offset) in
      '(n, buffer) ←
        (match modname with
         | Some m => sprintf_at env base len buffer (bytes_of "+%#lx/%#lx [%s]") [ALong off; ALong size; APtr kernel_address m]
         | None => sprintf_at env base len buffer (bytes_of "+%#lx/%#lx") [ALong off; ALong size]
         end);
      Some (len + n, buffer)
  end.

Definition sprint_symbol (env : kenv) (base : Z) (buffer : list Z) (address : Z) : option (Z * list Z) :=
  __sprint_symbol env base buffer address 0.

Definition sprint_backtrace (env : kenv) (base : Z) (buffer : list Z) (address : Z) : option (Z * list Z) :=
  __sprint_symbol env base buffer address (-1).

(** ** The iterator of [/proc/kallsyms] *)

Record kallsym_iter := MkIter {
  it_pos : Z;
  it_value : Z;
  it_nameoff : Z;
  it_type : Z;
  it_name : list Z;
  it_module : list Z;
  it_exported : Z }.

Definition get_ksymbol_mod (it : kallsym_iter) : bool :=
  negb (module_get_kallsym (it_pos it - kallsyms_num_syms k) <? 0).

(** The space to the next name. *)
Definition get_ksymbol_core (it : kallsym_iter) : option (Z * kallsym_iter) :=
  m ← zset (it_module it) 0 0;
  value ← zget (kallsyms_addresses k) (it_pos it);
  ty ← kallsyms_get_symbol_type (it_nameoff it);
  '(off, name) ← kallsyms_expand_symbol (it_nameoff it) (it_name it);
  Some (off - it_nameoff it, MkIter (it_pos it) value (it_nameoff it) ty name m (it_exported it)).

Definition reset_iter (it : kallsym_iter) (new_pos : Z) : option kallsym_iter :=
  name ← zset (it_name it) 0 0;
  off ← get_symbol_offset new_pos;
  Some (MkIter new_pos (it_value it) off (it_type it) name (it_module it) (it_exported it)).

Definition update_iter (it : kallsym_iter) (pos : Z) : option (bool * kallsym_iter) :=
  if kallsyms_num_syms k <=? pos then
    let it := MkIter pos (it_value it) (it_nameoff it) (it_type it) (it_name it) (it_module it) (it_exported it) in
    Some (get_ksymbol_mod it, it)
  else
    it ← (if negb (pos =? it_pos it) then reset_iter it pos else Some it);
    '(n, it) ← get_ksymbol_core it;
    Some (true, MkIter (it_pos it + 1) (it_value it) (it_nameoff it + n) (it_type it) (it_name it)
                  (it_module it) (it_exported it)).

End kallsyms.

(** ** What the tables mean

    The symbols in order, with the codes of each of them. *)
Record ksym := MkKsym { ks_addr : Z; ks_type : Z; ks_name : list Z }.

(** The stream of names: for each symbol the number of its codes and the codes. *)
Definition stream (codes : list (list Z)) : list Z := concat ((fun c => Z.of_nat (length c) :: c) <$> codes).

(** The offset of symbol number [i]. *)
Definition sym_off (codes : list (list Z)) (i : nat) : Z := Z.of_nat (length (stream (take i codes))).

Definition expands (k : ksyms) (c text : list Z) : Prop :=
  exists ts, mapM (token k) c = Some ts /\ Forall (fun t => t <> []) ts /\ concat ts = text.

Definition name_ok (s : ksym) : Prop := Forall (fun c => c <> 0) (ks_name s) /\ Z.of_nat (length (ks_name s)) < KSYM_NAME_LEN.

Record tables_ok (k : ksyms) (syms : list ksym) (codes : list (list Z)) : Prop := {
  tk_num : kallsyms_num_syms k = Z.of_nat (length syms);
  tk_count : Z.of_nat (length syms) < 2 ^ 32;
  tk_addr : kallsyms_addresses k = ks_addr <$> syms;
  tk_stream : exists rest, kallsyms_names k = stream codes ++ rest;
  tk_tokens : Forall2 (fun s c => expands k c (ks_type s :: ks_name s)) syms codes;
  tk_markers : forall j, (256 * j < length syms)%nat -> zget (kallsyms_markers k) (Z.of_nat j) = Some (sym_off codes (256 * j));
  tk_names : Forall name_ok syms;
  tk_range : Forall (fun s => 0 <= ks_addr s < 2 ^ 32) syms;
  tk_sorted : forall i j s t, (i <= j)%nat -> syms !! i = Some s -> syms !! j = Some t -> ks_addr s <= ks_addr t }.

(** The symbol that holds an address: the first one with the greatest address
    that is not behind it. *)
Definition holds (syms : list ksym) (addr : Z) (p : nat) (s : ksym) : Prop :=
  syms !! p = Some s /\ ks_addr s <= addr /\
  (forall j t, syms !! j = Some t -> ks_addr t <= addr -> ks_addr t <= ks_addr s) /\
  (forall j t, (j < p)%nat -> syms !! j = Some t -> ks_addr t < ks_addr s).

(** The end of that symbol: the next address in the table, or the end of the
    section. *)
Definition symbol_end (k : ksyms) (syms : list ksym) (addr : Z) (s : ksym) : Z :=
  match filter (fun t => ks_addr s < ks_addr t) syms with
  | t :: _ => ks_addr t
  | [] => if is_kernel_inittext k addr then _einittext k else _end k
  end.

Section names.
Context (k : ksyms) (syms : list ksym) (codes : list (list Z)).
Hypothesis ok : tables_ok k syms codes.

Lemma stream_app c1 c2 : stream (c1 ++ c2) = stream c1 ++ stream c2.
Proof. unfold stream. by rewrite fmap_app, concat_app. Qed.

Lemma sym_off_S i c : codes !! i = Some c -> sym_off codes (S i) = sym_off codes i + Z.of_nat (length c) + 1.
Proof.
  intros Hc. unfold sym_off. rewrite (take_S_r _ _ c Hc), stream_app, length_app. unfold stream at 2. cbn.
  rewrite length_app. cbn. lia.
Qed.

Lemma codes_of i s : syms !! i = Some s -> exists c, codes !! i = Some c /\ expands k c (ks_type s :: ks_name s).
Proof. intros Hs. destruct (Forall2_lookup_l _ _ _ _ _ (tk_tokens _ _ _ ok) Hs) as (c & ? & ?). eauto. Qed.

(** The stream at a symbol. *)
Lemma names_at i c : codes !! i = Some c ->
  exists pre post, kallsyms_names k = pre ++ (Z.of_nat (length c) :: c) ++ post /\ Z.of_nat (length pre) = sym_off codes i.
Proof.
  intros Hc. destruct (tk_stream _ _ _ ok) as [rest Hr].
  exists (stream (take i codes)), (stream (drop (S i) codes) ++ rest). split; [|done]. rewrite Hr.
  rewrite <- (take_drop_middle codes i c Hc) at 1. rewrite stream_app. change (c :: ?l) with ([c] ++ l).
  rewrite stream_app. unfold stream at 2. cbn [fmap list_fmap concat]. rewrite app_nil_r, <- !app_assoc. done.
Qed.

Lemma zget_app_r {A} (l l' : list A) i : zget (l ++ l') (Z.of_nat (length l) + Z.of_nat i) = l' !! i.
Proof.
  unfold zget. destruct (Z.leb_spec 0 (Z.of_nat (length l) + Z.of_nat i)); [|lia].
  replace (Z.to_nat _) with (length l + i)%nat by lia. by rewrite lookup_app_r, Nat.add_comm, Nat.add_sub by lia.
Qed.

Lemma copy_token_true t : copy_token t true = (t, true).
Proof. induction t as [|c t IH]; [done|]. cbn [copy_token]. by rewrite IH. Qed.

Lemma copy_token_false t : copy_token t false = (drop 1 t, negb (bool_decide (t = []))).
Proof. destruct t as [|c t]; [done|]. cbn [copy_token]. rewrite copy_token_true. done. Qed.

Lemma expand_loop_spec c ts data (skipped : bool) :
  (forall i x, c !! i = Some x -> zget (kallsyms_names k) (data + Z.of_nat i) = Some x) ->
  mapM (token k) c = Some ts ->
  expand_loop k (length c) data skipped = Some (if skipped then concat ts else drop 1 (concat ts)).
Proof.
  revert data skipped ts. induction c as [|x c IH]; intros data skipped ts Hz Hm.
  { injection Hm as <-. by destruct skipped. }
  cbn [length expand_loop]. pose proof (Hz 0%nat x eq_refl) as H0. rewrite Z.add_0_r in H0. rewrite H0.
  cbn [mapM mbind option_bind] in Hm |- *. destruct (token k x) as [t|]; [|done].
  cbn [mbind option_bind] in Hm |- *. destruct (mapM (token k) c) as [ts'|] eqn:Em; [|done]. injection Hm as <-.
  assert (forall i y, c !! i = Some y -> zget (kallsyms_names k) (data + 1 + Z.of_nat i) = Some y) as Hz'.
  { intros i y Hi. replace (data + 1 + Z.of_nat i) with (data + Z.of_nat (S i)) by lia. by apply Hz. }
  destruct skipped.
  - rewrite copy_token_true, (IH _ _ ts') by done. done.
  - rewrite copy_token_false, (IH _ _ ts') by done. cbn [mbind option_bind concat]. destruct t; [done|].
    rewrite bool_decide_eq_false_2 by done. done.
Qed.

Lemma expand_symbol i s buf :
  syms !! i = Some s -> Z.of_nat (length buf) >= KSYM_NAME_LEN ->
  kallsyms_expand_symbol k (sym_off codes i) buf =
    Some (sym_off codes (S i), ks_name s ++ 0 :: drop (S (length (ks_name s))) buf).
Proof.
  intros Hs Hb. destruct (codes_of i s Hs) as (c & Hc & ts & Hts & Hne & Hcat).
  destruct (names_at i c Hc) as (pre & post & Hn & Hp). unfold kallsyms_expand_symbol.
  rewrite Hn. rewrite <- Hp. pose proof (zget_app_r pre ((Z.of_nat (length c) :: c) ++ post) 0) as H0.
  rewrite Z.add_0_r in H0. rewrite H0. cbn [app lookup list_lookup mbind option_bind]. rewrite Nat2Z.id.
  rewrite (expand_loop_spec c ts) by (try done; intros j x Hj;
    rewrite Hn; replace (Z.of_nat (length pre) + 1 + Z.of_nat j) with (Z.of_nat (length pre) + Z.of_nat (S j)) by lia;
    rewrite zget_app_r; cbn [app lookup list_lookup]; by apply lookup_app_l_Some).
  cbn [mbind option_bind]. rewrite Hcat. cbn [drop skipn]. rewrite drop_0.
  assert (name_ok s) as [Hz Hl] by (by eapply Forall_lookup_1; [apply (tk_names _ _ _ ok)|]).
  unfold store_str. destruct (Z.ltb_spec (Z.of_nat (length (ks_name s))) (Z.of_nat (length buf))); [|lia].
  cbn [mbind option_bind]. by rewrite Hp, (sym_off_S i c Hc).
Qed.

Lemma offset_loop_spec n m :
  (m + n < length syms)%nat -> offset_loop k n (sym_off codes m) = Some (sym_off codes (m + n)).
Proof.
  revert m. induction n as [|n IH]; intros m Hm; cbn [offset_loop]; [by rewrite Nat.add_0_r|].
  destruct (lookup_lt_is_Some_2 syms m) as [s Hs]; [lia|]. destruct (codes_of m s Hs) as (c & Hc & _).
  destruct (names_at m c Hc) as (pre & post & Hn & Hp). rewrite Hn, <- Hp.
  pose proof (zget_app_r pre ((Z.of_nat (length c) :: c) ++ post) 0) as H0. rewrite Z.add_0_r in H0. rewrite H0.
  cbn [app lookup list_lookup mbind option_bind]. rewrite Hp, <- (sym_off_S m c Hc), IH by lia. do 2 f_equal. lia.
Qed.

(** The markers and the scan from the last one give the offset. *)
Lemma symbol_offset i : (i < length syms)%nat -> get_symbol_offset k (Z.of_nat i) = Some (sym_off codes i).
Proof.
  intros Hi. unfold get_symbol_offset. rewrite Z.shiftr_div_pow2, land_255 by lia. change (2 ^ 8) with 256.
  change 256 with (Z.of_nat 256). rewrite <- Nat2Z.inj_div, <- Nat2Z.inj_mod, Nat2Z.id.
  pose proof (Nat.div_mod_eq i 256). rewrite (tk_markers _ _ _ ok) by lia. cbn [mbind option_bind].
  rewrite offset_loop_spec by lia. do 2 f_equal. lia.
Qed.

End names.

Section search.
Context (k : ksyms) (syms : list ksym) (codes : list (list Z)).
Hypothesis ok : tables_ok k syms codes.

Lemma address_at i s : syms !! i = Some s -> zget (kallsyms_addresses k) (Z.of_nat i) = Some (ks_addr s).
Proof.
  intros Hs. rewrite (tk_addr _ _ _ ok). unfold zget. destruct (Z.leb_spec 0 (Z.of_nat i)); [|lia].
  by rewrite Nat2Z.id, list_lookup_fmap, Hs.
Qed.

Lemma search_loop_S fuel addr low high :
  search_loop k (S fuel) addr low high =
    if 1 <? high - low then
      a ← zget (kallsyms_addresses k) (low + (high - low) / 2);
      if a <=? addr then search_loop k fuel addr (low + (high - low) / 2) high
      else search_loop k fuel addr low (low + (high - low) / 2)
    else Some low.
Proof. done. Qed.

(** The search keeps the address between [low] and [high]. *)
Lemma search_spec fuel addr low high :
  (low < high <= length syms)%nat -> Z.of_nat high - Z.of_nat low <= 2 ^ Z.of_nat fuel ->
  (forall s, syms !! low = Some s -> ks_addr s <= addr) ->
  (forall s, syms !! high = Some s -> addr < ks_addr s) ->
  exists r, search_loop k (S fuel) addr (Z.of_nat low) (Z.of_nat high) = Some (Z.of_nat r) /\ (low <= r < high)%nat /\
    (forall s, syms !! r = Some s -> ks_addr s <= addr) /\ (forall s, syms !! S r = Some s -> addr < ks_addr s).
Proof.
  revert low high. induction fuel as [|fuel IH]; intros low high Hlh Hf Hlo Hhi; rewrite search_loop_S.
  - destruct (Z.ltb_spec 1 (Z.of_nat high - Z.of_nat low)); [cbn in Hf; lia|]. exists low.
    assert (high = S low) as -> by lia. auto with lia.
  - destruct (Z.ltb_spec 1 (Z.of_nat high - Z.of_nat low)) as [H1|H1].
    2: { exists low. assert (high = S low) as -> by lia. auto with lia. }
    set (d := ((high - low) / 2)%nat). assert ((Z.of_nat high - Z.of_nat low) / 2 = Z.of_nat d) as ->.
    { subst d. rewrite <- Nat2Z.inj_sub, Nat2Z.inj_div by lia. done. }
    rewrite <- Nat2Z.inj_add. pose proof (Nat.div_mod_eq (high - low) 2) as Hd. fold d in Hd.
    pose proof (Nat.mod_upper_bound (high - low) 2).
    rewrite Nat2Z.inj_succ, Z.pow_succ_r in Hf by lia.
    destruct (lookup_lt_is_Some_2 syms (low + d)) as [s Hs]; [lia|]. rewrite (address_at _ _ Hs).
    cbn [mbind option_bind]. destruct (Z.leb_spec (ks_addr s) addr).
    + destruct (IH (low + d)%nat high) as (r & ? & ? & ? & ?); [lia|lia| |done|].
      { intros t Ht. by simplify_eq. } exists r. split; [done|]. split; [lia|done].
    + destruct (IH low (low + d)%nat) as (r & ? & ? & ? & ?); [lia|lia|done| |].
      { intros t Ht. by simplify_eq. } exists r. split; [done|]. split; [lia|done].
Qed.

Lemma first_alias_spec r s :
  syms !! r = Some s ->
  exists p t, first_alias k r = Some (Z.of_nat p) /\ (p <= r)%nat /\ syms !! p = Some t /\ ks_addr t = ks_addr s /\
    forall j u, (j < p)%nat -> syms !! j = Some u -> ks_addr u < ks_addr s.
Proof.
  revert s. induction r as [|r IH]; intros s Hs; cbn [first_alias].
  { exists 0%nat, s. repeat split; try done; lia. }
  destruct (lookup_lt_is_Some_2 syms r) as [u Hu]; [apply lookup_lt_Some in Hs; lia|].
  rewrite (address_at _ _ Hu), (address_at _ _ Hs). cbn [mbind option_bind].
  destruct (Z.eqb_spec (ks_addr u) (ks_addr s)) as [E|E].
  - destruct (IH u Hu) as (p & t & H1 & H2 & H3 & H4 & H5). exists p, t. rewrite <- E. auto with lia.
  - exists (S r), s. repeat split; try done. intros j v Hj Hv.
    pose proof (tk_sorted _ _ _ ok j r v u ltac:(lia) Hv Hu). pose proof (tk_sorted _ _ _ ok r (S r) u s ltac:(lia) Hu Hs). lia.
Qed.

(** The loop over the following symbols. *)
Lemma next_symbol_spec n i start :
  (i + n = length syms)%nat -> 0 <= start ->
  next_symbol k n (Z.of_nat i) start =
    Some (match filter (fun t => start < ks_addr t) (drop i syms) with t :: _ => ks_addr t | [] => 0 end).
Proof.
  revert i. induction n as [|n IH]; intros i Hi Hst; cbn [next_symbol].
  { by rewrite drop_ge by lia. }
  destruct (lookup_lt_is_Some_2 syms i) as [s Hs]; [lia|]. rewrite (address_at _ _ Hs). cbn [mbind option_bind].
  rewrite (drop_S _ _ _ Hs), filter_cons. destruct (Z.ltb_spec start (ks_addr s)).
  - by rewrite decide_True by done.
  - rewrite decide_False by lia. replace (Z.of_nat i + 1) with (Z.of_nat (S i)) by lia. apply IH; lia.
Qed.

(** No symbol before the one found is behind it. *)
Lemma filter_drop p s :
  syms !! p = Some s ->
  filter (fun t => ks_addr s < ks_addr t) (drop (S p) syms) = filter (fun t => ks_addr s < ks_addr t) syms.
Proof.
  intros Hs. rewrite <- (take_drop (S p) syms) at 2. rewrite filter_app.
  replace (filter (fun t => ks_addr s < ks_addr t) (take (S p) syms)) with (@nil ksym); [done|].
  destruct (filter _ (take (S p) syms)) as [|t l] eqn:Ef; [done|]. exfalso.
  assert (t ∈ filter (fun t => ks_addr s < ks_addr t) (take (S p) syms)) as Hin by (rewrite Ef; by left).
  apply list_elem_of_filter in Hin as [Hlt' [j Hj]%list_elem_of_lookup].
  apply lookup_take_Some in Hj as [Hj Hlt]. pose proof (tk_sorted _ _ _ ok j p t s ltac:(lia) Hj Hs). lia.
Qed.

Lemma symbol_pos addr :
  (exists s, syms !! 0%nat = Some s /\ ks_addr s <= addr) ->
  exists p s, holds syms addr p s /\
    get_symbol_pos k addr = Some (Z.of_nat p, u32 (symbol_end k syms addr s - ks_addr s), u32 (addr - ks_addr s)).
Proof.
  intros (s0 & Hs0 & Ha0). assert (0 < length syms)%nat as Hne by (apply lookup_lt_Some in Hs0; lia).
  destruct (search_spec 32 addr 0 (length syms)) as (r & Hr & Hrl & Hlo & Hhi).
  { lia. } { pose proof (tk_count _ _ _ ok). change (Z.of_nat 32) with 32. lia. }
  { intros t Ht. by simplify_eq. } { intros t Ht. apply lookup_lt_Some in Ht. lia. }
  destruct (lookup_lt_is_Some_2 syms r) as [u Hu]; [lia|]. pose proof (Hlo u Hu) as Hle.
  destruct (first_alias_spec r u Hu) as (p & s & Hp & Hpr & Hs & Hsa & Hfirst).
  exists p, s. split.
  { split; [done|]. rewrite Hsa. split; [done|]. split; [|done]. intros j t Ht Hta.
    destruct (decide (j <= r)%nat) as [Hj|Hj]; [by eapply (tk_sorted _ _ _ ok j r)|].
    destruct (lookup_lt_is_Some_2 syms (S r)) as [v Hv]; [apply lookup_lt_Some in Ht; lia|].
    specialize (Hhi v Hv). pose proof (tk_sorted _ _ _ ok (S r) j v t ltac:(lia) Hv Ht). lia. }
  unfold get_symbol_pos. rewrite (tk_num _ _ _ ok). change (Z.of_nat 0) with 0 in Hr. rewrite Hr.
  cbn [mbind option_bind]. rewrite Nat2Z.id, Hp. cbn [mbind option_bind]. rewrite (address_at _ _ Hs). cbn [mbind option_bind].
  replace (Z.of_nat p + 1) with (Z.of_nat (S p)) by lia. assert (0 <= ks_addr s < 2 ^ 32) as Hrange
    by (by eapply (Forall_lookup_1 _ _ _ _ (tk_range _ _ _ ok))).
  rewrite next_symbol_spec by (apply lookup_lt_Some in Hs; lia). cbn [mbind option_bind].
  rewrite (filter_drop p s Hs). unfold symbol_end.
  destruct (filter (fun t => ks_addr s < ks_addr t) syms) as [|t l] eqn:Ef; [done|].
  assert (t ∈ filter (fun t => ks_addr s < ks_addr t) syms) as Hin by (rewrite Ef; by left).
  apply list_elem_of_filter in Hin as [Hlt _]. by destruct (Z.eqb_spec (ks_addr t) 0); [lia|].
Qed.

End search.

(** ** The text of an offset and a size *)

Section text.
Context (env : kenv).

Definition spec_slx : printf_spec := MkSpec FORMAT_TYPE_ULONG (Z.lor SPECIAL SMALL) 16 108 (-1) (-1).

Lemma spec_slx_ok : spec_ok spec_slx.
Proof. split; unfold byte_range, number_base; vm_compute; intuition discriminate. Qed.

Definition hex0x (v : Z) : list Z := 48 :: 120 :: hex_chars v.

Lemma number_slx v : 0 <= v < 2 ^ 32 -> number_chars v spec_slx = hex0x v.
Proof.
  intros Hv. rewrite number_chars_text; [|apply spec_slx_ok|split; vm_compute; discriminate].
  unfold hex0x. rewrite <- hex_text by done. unfold number_text. cbn [flags base field_width precision spec_slx].
  change (has (Z.lor SPECIAL SMALL) LEFT) with false. change (has (Z.lor SPECIAL SMALL) ZEROPAD) with false.
  change (has (Z.lor SPECIAL SMALL) SMALL) with true. unfold number_sign, number_mag, number_prefix.
  change (has (Z.lor SPECIAL SMALL) SIGN) with false. change (has (Z.lor SPECIAL SMALL) SPECIAL) with true.
  change (has (Z.lor SPECIAL SMALL) SMALL) with true.
  cbn [andb negb app length Z.of_nat Z.eqb Pos.eqb orb]. pose proof (length_digit_text true 16 v).
  replace (Z.to_nat (-1 - _)) with 0%nat by lia. cbn [replicate app].
  by replace (Z.to_nat (-1 - _ - _)) with 0%nat by lia.
Qed.

Lemma length_hex0x v : 0 <= v < 2 ^ 32 -> (length (hex0x v) <= 10)%nat.
Proof.
  intros Hv. unfold hex0x. rewrite <- hex_text by done. cbn [length].
  assert (length (digit_text true 16 v) <= 8)%nat; [|lia]. apply length_digits_below; [lia|lia|]. cbn. lia.
Qed.

Definition offset_text (off size : Z) : list Z := 43 :: hex0x off ++ 47 :: hex0x size.

Lemma offset_runs off size :
  0 <= off < 2 ^ 32 -> 0 <= size < 2 ^ 32 ->
  runs env (vsnprintf_fuel (bytes_of "+%#lx/%#lx")) (bytes_of "+%#lx/%#lx") spec0 [ALong off; ALong size] (offset_text off size).
Proof.
  intros Ho Hs. change (vsnprintf_fuel _) with 20%nat. unfold offset_text. rewrite <- !number_slx by done.
  change (43 :: number_chars off spec_slx ++ 47 :: number_chars size spec_slx)
    with ([43] ++ number_chars off spec_slx ++ [47] ++ number_chars size spec_slx).
  rewrite <- (app_nil_r (number_chars size spec_slx)).
  apply (runs_lit env 19 (bytes_of "+%#lx/%#lx") spec0 (bytes_of "%#lx/%#lx") spec0); [done|done|cbn; lia|].
  apply (runs_num env 18 _ _ (bytes_of "/%#lx") _ off _ [ALong size]); [done|done|apply spec_slx_ok|done| |lia|].
  { cbn. by rewrite u32_s32. }
  apply (runs_lit env 17 (bytes_of "/%#lx") _ (bytes_of "%#lx") (MkSpec FORMAT_TYPE_NONE (Z.lor SPECIAL SMALL) 16 108 (-1) (-1)));
    [done|done|cbn; lia|].
  apply (runs_num env 16 _ _ [] _ size _ []); [done|done|apply spec_slx_ok|done| |lia|apply runs_end].
  cbn. by rewrite u32_s32.
Qed.

Lemma length_offset_text off size :
  0 <= off < 2 ^ 32 -> 0 <= size < 2 ^ 32 -> (length (offset_text off size) <= 22)%nat.
Proof.
  intros Ho Hs. pose proof (length_hex0x off Ho). pose proof (length_hex0x size Hs).
  unfold offset_text. cbn [length]. rewrite length_app. cbn [length]. lia.
Qed.

End text.

(** ** Looking up symbols *)

Section lookups.
Context (k : ksyms) (syms : list ksym) (codes : list (list Z)).
Hypothesis ok : tables_ok k syms codes.

Lemma name_at i s : syms !! i = Some s -> name_ok s.
Proof. apply Forall_lookup_1, ok. Qed.

Lemma expanded_name i s buf rest : syms !! i = Some s -> cstr (ks_name s ++ 0 :: drop rest buf) = ks_name s.
Proof. intros Hs. apply cstr_app, (name_at i s Hs). Qed.

Lemma expanded_length i s (buf : list Z) :
  syms !! i = Some s -> Z.of_nat (length buf) >= KSYM_NAME_LEN ->
  length (ks_name s ++ 0 :: drop (S (length (ks_name s))) buf) = length buf.
Proof. intros Hs Hb. destruct (name_at i s Hs) as [_ Hl]. rewrite length_app. cbn. rewrite length_drop. lia. Qed.

Lemma lookup_name_loop_spec n i buf name :
  (i + n = length syms)%nat -> Z.of_nat (length buf) >= KSYM_NAME_LEN ->
  lookup_name_loop k n (Z.of_nat i) (sym_off codes i) buf name =
    Some (match filter (fun s => ks_name s = name) (drop i syms) with s :: _ => ks_addr s | [] => 0 end).
Proof.
  revert i buf. induction n as [|n IH]; intros i buf Hi Hb; cbn [lookup_name_loop].
  { by rewrite drop_ge by lia. }
  destruct (lookup_lt_is_Some_2 syms i) as [s Hs]; [lia|].
  rewrite (expand_symbol k syms codes ok i s) by done. cbn [mbind option_bind]. rewrite (expanded_name i s) by done.
  rewrite (drop_S _ _ _ Hs), filter_cons. destruct (decide (ks_name s = name)) as [E|E].
  - rewrite bool_decide_eq_true_2 by done. by apply (address_at k syms codes ok).
  - rewrite bool_decide_eq_false_2 by done. replace (Z.of_nat i + 1) with (Z.of_nat (S i)) by lia.
    apply IH; [lia|]. by rewrite (expanded_length i s).
Qed.

Lemma lookup_name_first name :
  kallsyms_lookup_name k name =
    Some (match filter (fun s => ks_name s = name) syms with s :: _ => ks_addr s | [] => 0 end).
Proof.
  unfold kallsyms_lookup_name. rewrite (tk_num _ _ _ ok), Nat2Z.id.
  change 0 with (sym_off codes 0) at 2. change 0 with (Z.of_nat 0) at 1.
  rewrite lookup_name_loop_spec; [by rewrite drop_0|lia|]. unfold namebuf. rewrite length_replicate.
  unfold KSYM_NAME_LEN. lia.
Qed.

(** The loop over all symbols: the calls of [fn], until one stops it. *)
Fixpoint fold_stop {D A} (fn : D -> A -> D * Z) (data : D) (l : list A) : Z * D :=
  match l with
  | [] => (0, data)
  | x :: l' => let '(data, ret) := fn data x in if ctrue ret then (ret, data) else fold_stop fn data l'
  end.

Lemma each_symbol_spec {D} (fn : D -> list Z -> Z -> D * Z) n i buf data :
  (i + n = length syms)%nat -> Z.of_nat (length buf) >= KSYM_NAME_LEN ->
  each_symbol_loop k fn n (Z.of_nat i) (sym_off codes i) buf data =
    Some (fold_stop (fun d s => fn d (ks_name s) (ks_addr s)) data (drop i syms)).
Proof.
  revert i buf data. induction n as [|n IH]; intros i buf data Hi Hb; cbn [each_symbol_loop].
  { by rewrite drop_ge by lia. }
  destruct (lookup_lt_is_Some_2 syms i) as [s Hs]; [lia|].
  rewrite (expand_symbol k syms codes ok i s), (address_at k syms codes ok i s) by done. cbn [mbind option_bind].
  rewrite (expanded_name i s), (drop_S _ _ _ Hs) by done. cbn [fold_stop].
  destruct (fn data (ks_name s) (ks_addr s)) as [data' ret]. destruct (ctrue ret); [done|].
  replace (Z.of_nat i + 1) with (Z.of_nat (S i)) by lia. apply IH; [lia|]. by rewrite (expanded_length i s).
Qed.

(** The name, the size and the offset of an address, and the buffer. *)
Lemma lookup_address addr buf :
  is_ksym_addr k addr = true -> (exists s, syms !! 0%nat = Some s /\ ks_addr s <= addr) ->
  addr < 2 ^ 32 -> Z.of_nat (length buf) >= KSYM_NAME_LEN ->
  exists p s rest, holds syms addr p s /\
    kallsyms_lookup k addr buf =
      Some (Some (ks_name s, u32 (symbol_end k syms addr s - ks_addr s), addr - ks_addr s, None), ks_name s ++ 0 :: rest) /\
    length (ks_name s ++ 0 :: rest) = length buf.
Proof.
  intros Hk H0 Ha Hb. destruct (symbol_pos k syms codes ok addr H0) as (p & s & Hh & Hpos).
  destruct (Hh) as (Hs & Hle & _ & _). exists p, s. unfold kallsyms_lookup.
  destruct (zset buf (KSYM_NAME_LEN - 1) 0) as [b1|] eqn:E1.
  2: { unfold zset in E1. unfold KSYM_NAME_LEN in *. destruct (_ && _) eqn:?; [done|lia]. }
  assert (length b1 = length buf) as Hl1 by (by eapply zset_length). cbn [mbind option_bind].
  destruct (zset b1 0 0) as [b2|] eqn:E2.
  2: { unfold zset in E2. unfold KSYM_NAME_LEN in *. destruct (_ && _) eqn:?; [done|lia]. }
  assert (length b2 = length b1) as Hl2 by (by eapply zset_length). cbn [mbind option_bind].
  exists (drop (S (length (ks_name s))) b2). split; [done|]. rewrite Hk, Hpos. cbn [mbind option_bind].
  rewrite (symbol_offset k syms codes ok) by (by apply lookup_lt_Some in Hs). cbn [mbind option_bind].
  rewrite (expand_symbol k syms codes ok p s) by (try done; lia). cbn [mbind option_bind].
  rewrite (expanded_name p s) by done. split; [|rewrite (expanded_length p s); [lia|done|lia]].
  rewrite (u32_id (addr - ks_addr s)); [done|].
  assert (0 <= ks_addr s < 2 ^ 32) by (by eapply (Forall_lookup_1 _ _ _ _ (tk_range _ _ _ ok))). lia.
Qed.

End lookups.

(** [kallsyms_lookup_name] gives the address of the first symbol of that
    name, and 0 when there is none. *)
Theorem name_lookup (k : ksyms) (syms : list ksym) (codes : list (list Z)) (name : list Z) :
  tables_ok k syms codes ->
  kallsyms_lookup_name k name =
    Some (match filter (fun s => ks_name s = name) syms with s :: _ => ks_addr s | [] => 0 end).
Proof. intros ok. by eapply lookup_name_first. Qed.

(** [kallsyms_on_each_symbol] calls its function on the symbols in the order
    of the table until one call returns a number that is not zero, and
    returns that number. *)
Theorem each_symbol {D} (k : ksyms) (syms : list ksym) (codes : list (list Z)) (fn : D -> list Z -> Z -> D * Z) (data : D) :
  tables_ok k syms codes ->
  kallsyms_on_each_symbol k fn data = Some (fold_stop (fun d s => fn d (ks_name s) (ks_addr s)) data syms).
Proof.
  intros ok. unfold kallsyms_on_each_symbol. rewrite (tk_num _ _ _ ok), Nat2Z.id.
  rewrite (each_symbol_spec k syms codes ok fn (length syms) 0); [by rewrite drop_0|lia|].
  unfold namebuf. rewrite length_replicate. unfold KSYM_NAME_LEN. lia.
Qed.

Lemma sprint_symbol_text k syms codes env base buf address so :
  tables_ok k syms codes -> let addr := address + so in
  is_ksym_addr k addr = true -> (exists s, syms !! 0%nat = Some s /\ ks_addr s <= addr) ->
  0 <= addr < 2 ^ 32 -> -1 <= so <= 0 -> address < 2 ^ 32 ->
  Z.of_nat (length buf) = KSYM_SYMBOL_LEN -> 0 <= base -> base + KSYM_SYMBOL_LEN < UINT_MAX ->
  exists p s, holds syms addr p s /\
    let text := ks_name s ++ offset_text (address - ks_addr s) (u32 (symbol_end k syms addr s - ks_addr s)) in
    (length text < length buf)%nat /\
    exists rest, __sprint_symbol k env base buf address so = Some (Z.of_nat (length text), text ++ 0 :: rest).
Proof.
  intros ok addr Hk H0 Ha Hso Haddr Hb Hbase Hend.
  destruct (lookup_address k syms codes ok addr buf Hk H0) as (p & s & rest & Hh & Hlook & Hlen);
    [lia|rewrite Hb; unfold KSYM_NAME_LEN, KSYM_SYMBOL_LEN; lia|].
  exists p, s. split; [done|]. destruct (Hh) as (Hs & Hle & _ & _). cbv zeta.
  set (size := u32 (symbol_end k syms addr s - ks_addr s)).
  assert (0 <= size < 2 ^ 32) as Hsize by (apply wrapu_range; lia).
  assert (0 <= ks_addr s < 2 ^ 32) as Hsa by (by eapply (Forall_lookup_1 _ _ _ _ (tk_range _ _ _ ok))).
  assert (0 <= address - ks_addr s < 2 ^ 32) as Hoff by lia.
  pose proof (length_offset_text _ _ Hoff Hsize) as Hlt. destruct (name_at k syms codes ok p s Hs) as [_ Hn].
  rewrite length_app in Hlen |- *. cbn [length] in Hlen. unfold KSYM_NAME_LEN, KSYM_SYMBOL_LEN in *. split; [lia|].
  unfold __sprint_symbol. fold addr. rewrite u32_id, Hlook by lia. cbn [mbind option_bind].
  fold size. unfold store_str. rewrite length_app. cbn [length].
  destruct (Z.ltb_spec (Z.of_nat (length (ks_name s))) (Z.of_nat (length (ks_name s) + S (length rest)))); [|lia].
  cbn [mbind option_bind]. replace (u32 (addr - ks_addr s - so)) with (address - ks_addr s)
    by (rewrite u32_id; subst addr; lia).
  replace (S (length (ks_name s))) with (length (ks_name s) + 1)%nat by lia.
  rewrite drop_app_add' by done. cbn [drop skipn]. rewrite drop_0. unfold sprintf_at. rewrite Nat2Z.id, drop_app_length, take_app_length.
  rewrite sprintf_runs with (t := offset_text (address - ks_addr s) size);
    [|lia|cbn [length]; lia|cbn [length]; unfold INT_MAX; lia|cbn [length]; lia|by apply offset_runs].
  cbn [mbind option_bind ret obuf]. eexists. rewrite Nat2Z.inj_add, <- app_assoc. reflexivity.
Qed.

(** C19: [sprint_symbol] writes the name of the symbol that holds the
    address, the offset in it and its size, in at most [KSYM_SYMBOL_LEN]
    bytes with the NUL. *)
Theorem address_lookup (k : ksyms) (syms : list ksym) (codes : list (list Z)) (env : kenv) (base : Z) (buf : list Z) (addr : Z) :
  tables_ok k syms codes -> is_ksym_addr k addr = true -> (exists s, syms !! 0%nat = Some s /\ ks_addr s <= addr) ->
  0 <= addr < 2 ^ 32 -> Z.of_nat (length buf) = KSYM_SYMBOL_LEN -> 0 <= base -> base + KSYM_SYMBOL_LEN < UINT_MAX ->
  exists p s, holds syms addr p s /\
    let text := ks_name s ++ offset_text (addr - ks_addr s) (u32 (symbol_end k syms addr s - ks_addr s)) in
    (length text < length buf)%nat /\
    exists rest, sprint_symbol k env base buf addr = Some (Z.of_nat (length text), text ++ 0 :: rest).
Proof.
  intros ok. intros. pose proof (sprint_symbol_text k syms codes env base buf addr 0 ok) as H'. cbv zeta in H'.
  rewrite Z.add_0_r in H'. apply H'; auto with lia.
Qed.

(** [sprint_backtrace] looks up the byte before the address, so that
    the address behind a final call belongs to its caller, and counts the
    offset from the address itself. *)
Theorem backtrace_lookup (k : ksyms) (syms : list ksym) (codes : list (list Z)) (env : kenv) (base : Z) (buf : list Z) (addr : Z) :
  tables_ok k syms codes -> is_ksym_addr k (addr - 1) = true -> (exists s, syms !! 0%nat = Some s /\ ks_addr s <= addr - 1) ->
  0 < addr < 2 ^ 32 -> Z.of_nat (length buf) = KSYM_SYMBOL_LEN -> 0 <= base -> base + KSYM_SYMBOL_LEN < UINT_MAX ->
  exists p s, holds syms (addr - 1) p s /\
    let text := ks_name s ++ offset_text (addr - ks_addr s) (u32 (symbol_end k syms (addr - 1) s - ks_addr s)) in
    (length text < length buf)%nat /\
    exists rest, sprint_backtrace k env base buf addr = Some (Z.of_nat (length text), text ++ 0 :: rest).
Proof.
  intros ok Hk H0 Ha. intros.
  apply (sprint_symbol_text k syms codes env base buf addr (-1) ok Hk H0); auto with lia.
Qed.

(** C36: [kallsyms_lookup_size_offset] gives the size and the offset, but its
    result is the position of the symbol as a truth value: an address in the
    first symbol of the table is reported as not found. *)
Theorem size_offset (k : ksyms) (syms : list ksym) (codes : list (list Z)) (addr : Z) :
  tables_ok k syms codes -> is_ksym_addr k addr = true -> (exists s, syms !! 0%nat = Some s /\ ks_addr s <= addr) ->
  exists p s, holds syms addr p s /\
    kallsyms_lookup_size_offset k addr =
      Some (negb (p =? 0)%nat, u32 (symbol_end k syms addr s - ks_addr s), u32 (addr - ks_addr s)).
Proof.
  intros ok Hk H0. destruct (symbol_pos k syms codes ok addr H0) as (p & s & Hh & Hpos). exists p, s. split; [done|].
  unfold kallsyms_lookup_size_offset. rewrite Hk, Hpos. cbn [mbind option_bind]. do 3 f_equal.
  unfold ctrue. f_equal. destruct (Z.eqb_spec (Z.of_nat p) 0), (Nat.eqb_spec p 0); done || lia.
Qed.

(** ** The iterator *)

Section iterator.
Context (k : ksyms) (syms : list ksym) (codes : list (list Z)).
Hypothesis ok : tables_ok k syms codes.

(** The offset of the next name belongs to the position. *)
Record iter_ok (it : kallsym_iter) : Prop := {
  io_name : Z.of_nat (length (it_name it)) = KSYM_NAME_LEN;
  io_module : (0 < length (it_module it))%nat;
  io_off : forall i, it_pos it = Z.of_nat i -> (i < length syms)%nat -> it_nameoff it = sym_off codes i }.

(** The iterator shows a symbol. *)
Definition shows (it : kallsym_iter) (s : ksym) : Prop :=
  it_value it = ks_addr s /\ it_type it = ks_type s /\ cstr (it_name it) = ks_name s /\ cstr (it_module it) = [].

Lemma token_first x y t :
  token k x = Some (y :: t) -> (j ← zget (kallsyms_token_index k) x; zget (kallsyms_token_table k) j) = Some y.
Proof.
  unfold token. destruct (zget (kallsyms_token_index k) x) as [j|]; cbn [mbind option_bind]; [|done].
  destruct (0 <=? j) eqn:Ej; [|done]. unfold zget. rewrite Ej, <- (Nat.add_0_r (Z.to_nat j)), <- lookup_drop, Nat.add_0_r.
  destruct (drop (Z.to_nat j) (kallsyms_token_table k)) as [|z l]; [done|]. cbn [c_string lookup list_lookup].
  destruct (z =? 0); [done|]. destruct (c_string l); cbn; [|done]. by intros [= -> ->].
Qed.

Lemma symbol_type i s : syms !! i = Some s -> kallsyms_get_symbol_type k (sym_off codes i) = Some (ks_type s).
Proof.
  intros Hs. destruct (codes_of k syms codes ok i s Hs) as (c & Hc & ts & Hts & Hne & Hcat).
  destruct (names_at k syms codes ok i c Hc) as (pre & post & Hn & Hp). unfold kallsyms_get_symbol_type.
  destruct c as [|x c]; [by injection Hts as <-|].
  pose proof (zget_app_r pre ((Z.of_nat (length (x :: c)) :: x :: c) ++ post) 1) as H1. change (Z.of_nat 1) with 1 in H1.
  rewrite Hn, <- Hp, H1. cbn [app lookup list_lookup mbind option_bind].
  cbn [mapM mbind option_bind] in Hts. destruct (token k x) as [t|] eqn:Et; cbn [mbind option_bind] in Hts; [|done].
  destruct (mapM (token k) c) as [ts'|]; cbn [mbind option_bind] in Hts; [|done]. injection Hts as <-.
  destruct t as [|y t]; [by inversion Hne|]. rewrite (token_first x y t Et). cbn in Hcat. by injection Hcat as ->.
Qed.

Lemma reset_iter_ok it i :
  Z.of_nat (length (it_name it)) = KSYM_NAME_LEN -> (0 < length (it_module it))%nat -> (i < length syms)%nat ->
  exists it', reset_iter k it (Z.of_nat i) = Some it' /\ iter_ok it' /\ it_pos it' = Z.of_nat i.
Proof.
  intros Hn Hm Hi. unfold reset_iter. rewrite zset_is_Some by (unfold KSYM_NAME_LEN in Hn; lia). cbn [mbind option_bind].
  rewrite (symbol_offset k syms codes ok) by done. cbn [mbind option_bind]. eexists. split; [done|]. split; [|done].
  split; cbn [it_name it_module it_pos it_nameoff]; [by rewrite length_insert|done|]. intros j Hj. by apply Nat2Z.inj in Hj as ->.
Qed.

Lemma ksymbol_core it i s : iter_ok it -> it_pos it = Z.of_nat i -> syms !! i = Some s ->
  exists n it', get_ksymbol_core k it = Some (n, it') /\ shows it' s /\ it_pos it' = it_pos it /\
    length (it_name it') = length (it_name it) /\ length (it_module it') = length (it_module it) /\
    it_nameoff it' + n = sym_off codes (S i).
Proof.
  intros [Hn Hm Ho] Hp Hs. assert (i < length syms)%nat as Hi by (by eapply lookup_lt_Some).
  unfold get_ksymbol_core. rewrite zset_is_Some by lia. cbn [mbind option_bind].
  rewrite Hp, (address_at k syms codes ok i s Hs), (Ho i Hp Hi), (symbol_type i s Hs). cbn [mbind option_bind].
  rewrite (expand_symbol k syms codes ok i s) by (done || lia). cbn [mbind option_bind].
  do 2 eexists. split; [done|]. unfold shows. cbn [it_name it_module it_pos it_nameoff it_value it_type].
  rewrite (expanded_name k syms codes ok i s) by done. rewrite (expanded_length k syms codes ok i s), length_insert by (done || lia).
  destruct (it_module it) as [|x m]; [cbn in Hm; lia|]. split; [done|]. repeat split; lia.
Qed.

Lemma update_shows it i s : iter_ok it -> syms !! i = Some s ->
  exists it', update_iter k it (Z.of_nat i) = Some (true, it') /\ iter_ok it' /\ shows it' s.
Proof.
  intros Hok Hs. assert (i < length syms)%nat as Hi by (by eapply lookup_lt_Some). unfold update_iter.
  destruct (Z.leb_spec (kallsyms_num_syms k) (Z.of_nat i)); [rewrite (tk_num _ _ _ ok) in *; lia|].
  assert (exists it1, (if negb (Z.of_nat i =? it_pos it) then reset_iter k it (Z.of_nat i) else Some it) = Some it1 /\
    iter_ok it1 /\ it_pos it1 = Z.of_nat i) as (it1 & -> & Hok1 & Hp1).
  { destruct (Z.eqb_spec (Z.of_nat i) (it_pos it)); [by exists it|]. by apply reset_iter_ok; [apply Hok|apply Hok|]. }
  cbn [mbind option_bind]. destruct (ksymbol_core it1 i s Hok1 Hp1 Hs) as (n & it2 & -> & Hsh & Hp2 & Hl & Hlm & Hoff).
  cbn [mbind option_bind]. eexists. split; [done|]. split; [|done]. destruct Hok1 as [Hn Hm _].
  split; cbn [it_name it_module it_pos it_nameoff]; [lia|lia|]. intros j Hj _. rewrite Hoff. f_equal. lia.
Qed.

Lemma update_end it i : iter_ok it -> (length syms <= i)%nat ->
  exists it', update_iter k it (Z.of_nat i) = Some (false, it') /\ iter_ok it'.
Proof.
  intros [Hn Hm Ho] Hi. unfold update_iter.
  destruct (Z.leb_spec (kallsyms_num_syms k) (Z.of_nat i)); [|rewrite (tk_num _ _ _ ok) in *; lia].
  eexists. split; [done|]. split; cbn [it_name it_module it_pos it_nameoff]; [done|done|]. intros j Hj Hlt. lia.
Qed.

End iterator.

(** ** A small table *)

Definition small_syms : list ksym :=
  [MkKsym 3221258240 84 (bytes_of "_stext"); MkKsym 3221258240 84 (bytes_of "asm_sche");
   MkKsym 3221259264 84 (bytes_of "schedule"); MkKsym 3221260000 116 (bytes_of "panic")].

Definition small_tokens : list (list Z) :=
  bytes_of <$> ["T"; "t"; "_stext"; "asm_"; "sche"; "dule"; "panic"]%string.

Definition small_codes : list (list Z) := [[0; 2]; [0; 3; 4]; [0; 4; 5]; [1; 6]].

Definition small_table : ksyms :=
  MkKsyms (ks_addr <$> small_syms) 4 (stream small_codes ++ [0; 0]) [0]
    (concat ((fun t => t ++ [0]) <$> small_tokens)) [0; 2; 4; 11; 16; 21; 26]
    3221258240 3221270000 3221262000 3221263000.

Lemma small_ok : tables_ok small_table small_syms small_codes.
Proof.
  split.
  - reflexivity.
  - vm_compute. reflexivity.
  - reflexivity.
  - by exists [0; 0].
  - repeat (constructor; [eexists; split; [vm_compute; reflexivity|split; [repeat constructor; discriminate|reflexivity]]|]).
    constructor.
  - intros j Hj. cbn [length small_syms] in Hj. assert (j = 0%nat) as -> by lia. reflexivity.
  - repeat (constructor; [split; [repeat constructor; discriminate|vm_compute; reflexivity]|]). constructor.
  - repeat (constructor; [cbn [ks_addr]; lia|]). constructor.
  - intros i j s t Hij Hs Ht. unfold small_syms in Hs, Ht.
    destruct i as [|[|[|[|i]]]]; cbn [lookup list_lookup] in Hs; try discriminate; injection Hs as <-;
    destruct j as [|[|[|[|j]]]]; cbn [lookup list_lookup] in Ht; try discriminate; injection Ht as <-; cbn [ks_addr]; lia.
Qed.

Lemma name_lookup_witness : kallsyms_lookup_name small_table (bytes_of "schedule") = Some 3221259264.
Proof. rewrite (name_lookup small_table small_syms small_codes _ small_ok). reflexivity. Defined.

Lemma each_symbol_witness :
  kallsyms_on_each_symbol small_table (fun n name a => (n + 1, if a =? 3221259264 then 7 else 0)) 0 = Some (7, 3).
Proof. rewrite (each_symbol small_table small_syms small_codes _ _ small_ok). reflexivity. Defined.

Lemma address_lookup_witness :
  exists p s, holds small_syms 3221259280 p s /\
    exists n rest, sprint_symbol small_table plain_env 3221225472 (replicate 223 0) 3221259280 =
      Some (n, (ks_name s ++ offset_text (3221259280 - ks_addr s) (u32 (symbol_end small_table small_syms 3221259280 s - ks_addr s))) ++ 0 :: rest).
Proof.
  destruct (address_lookup small_table small_syms small_codes plain_env 3221225472 (replicate 223 0) 3221259280 small_ok)
    as (p & s & Hh & _ & rest & E); [reflexivity|by eexists|lia|reflexivity|lia|unfold KSYM_SYMBOL_LEN, UINT_MAX; lia|].
  exists p, s. split; [exact Hh|]. do 2 eexists. exact E.
Defined.

Example sprint_symbol_ex :
  (fun r => cstr (r.2)) <$> sprint_symbol small_table plain_env 3221225472 (replicate 223 0) 3221259280
    = Some (bytes_of "schedule+0x10/0x2e0") /\
  (fun r => cstr (r.2)) <$> sprint_symbol small_table plain_env 3221225472 (replicate 223 0) 3221258244
    = Some (bytes_of "_stext+0x4/0x400") /\
  (fun r => cstr (r.2)) <$> sprint_backtrace small_table plain_env 3221225472 (replicate 223 0) 3221260000
    = Some (bytes_of "schedule+0x2e0/0x2e0") /\
  (fun r => cstr (r.2)) <$> sprint_symbol small_table plain_env 3221225472 (replicate 223 0) 4096
    = Some (bytes_of "0x1000").
Proof. repeat split; vm_compute; reflexivity. Qed.

Lemma backtrace_lookup_witness :
  exists p s, holds small_syms 3221259999 p s /\
    exists n rest, sprint_backtrace small_table plain_env 3221225472 (replicate 223 0) 3221260000 =
      Some (n, (ks_name s ++ offset_text (3221260000 - ks_addr s) (u32 (symbol_end small_table small_syms 3221259999 s - ks_addr s))) ++ 0 :: rest).
Proof.
  destruct (backtrace_lookup small_table small_syms small_codes plain_env 3221225472 (replicate 223 0) 3221260000 small_ok)
    as (p & s & Hh & _ & rest & E); [reflexivity|by eexists|lia|reflexivity|lia|unfold KSYM_SYMBOL_LEN, UINT_MAX; lia|].
  exists p, s. split; [exact Hh|]. do 2 eexists. exact E.
Defined.

(** An address in the first symbol is reported as not found. *)
Lemma size_offset_witness :
  exists p s, holds small_syms 3221258244 p s /\
    kallsyms_lookup_size_offset small_table 3221258244 =
      Some (negb (p =? 0)%nat, u32 (symbol_end small_table small_syms 3221258244 s - ks_addr s), u32 (3221258244 - ks_addr s)).
Proof. apply (size_offset small_table small_syms small_codes 3221258244 small_ok); [reflexivity|by eexists]. Defined.

Example first_symbol_not_found : kallsyms_lookup_size_offset small_table 3221258244 = Some (false, 1024, 4).
Proof. vm_compute. reflexivity. Qed.
