(* ===== verification/Ksymfile.v ===== *)
(** * The file [/proc/kallsyms]

    The operations of [kernel/kallsyms.c] for sequential files: the iterator
    of [Kallsyms.v] behind the interface of [Seqfile.v], with the lines printed
    by [Printf.v]. The iterator keeps the promises of the interface, so that
    the file reads as one line for every symbol of the table. *)

From stdpp Require Import prelude gmap list strings.
From Stdlib Require Import ZArith Lia.
From S2P Require Import Prelude Vsprintf Dynamic Bcmutils Printf Address Seqfile Kallsyms.

Open Scope Z_scope.
Open Scope list_scope.

Definition __tolower (c : Z) : Z := if isupper c then u8 (c + 32) else c.

Section operations.
Context (k : ksyms) (env : kenv) (base : Z).

Definition s_next (it : kallsym_iter) (pos : Z) : option (kallsym_iter * Z * seq_iter unit) :=
  let pos := pos + 1 in
  '(b, it) ← update_iter k it pos;
  Some (it, pos, if (b : bool) then IElem () else INull).

Definition s_start (it : kallsym_iter) (pos : Z) : option (kallsym_iter * Z * seq_iter unit) :=
  '(b, it) ← update_iter k it pos;
  Some (it, pos, if (b : bool) then IElem () else INull).

Definition s_stop (it : kallsym_iter) : kallsym_iter := it.

Definition s_show (it : kallsym_iter) (m : sbuf) : option (sbuf * Z) :=
  c ← zget (it_name it) 0;
  if c =? 0 then Some (m, 0)
  else
    mc ← zget (it_module it) 0;
    '(m, _) ←
      (if ctrue mc then
         let type := if ctrue (it_exported it) then __toupper (it_type it) else __tolower (it_type it) in
         seq_printf env base (bytes_of "%pK %c %s	[%s]
") [APtr (it_value it) []; AInt type; APtr kernel_address (cstr (it_name it)); APtr kernel_address (cstr (it_module it))] m
       else
         seq_printf env base (bytes_of "%pK %c %s
") [APtr (it_value it) []; AInt (it_type it); APtr kernel_address (cstr (it_name it))] m);
    Some (m, 0).

Definition kallsyms_op : SeqOps kallsym_iter unit := {|
  op_start := s_start;
  op_next it _ pos := s_next it pos;
  op_stop := s_stop;
  op_show it _ m := '(m, err) ← s_show it m; Some (it, m, err) |}.

(** The memory of the new iterator is [it]. *)
Definition kallsyms_open (it : kallsym_iter) : option (seq_file kallsym_iter) :=
  it ← reset_iter k it 0; Some (seq_open it).

End operations.

(** ** The line of a symbol *)

Section line.
Context (env : kenv).

Definition spec_pk : printf_spec := MkSpec FORMAT_TYPE_PTR (Z.lor (Z.lor 0 SMALL) ZEROPAD) 16 255 8 (-1).

Lemma spec_pk_ok : spec_ok spec_pk.
Proof. split; unfold byte_range, number_base; vm_compute; intuition discriminate. Qed.

(** Eight hexadecimal digits. *)
Definition hex8 (v : Z) : list Z := replicate (8 - length (hex_chars v)) 48 ++ hex_chars v.

Lemma number_pk v : 0 <= v < 2 ^ 32 -> number_chars v spec_pk = hex8 v.
Proof.
  intros Hv. rewrite number_chars_text; [|apply spec_pk_ok|split; vm_compute; discriminate].
  unfold hex8. rewrite <- hex_text by done. unfold number_text. cbn [flags base field_width precision spec_pk].
  set (fl := Z.lor (Z.lor 0 SMALL) ZEROPAD).
  change (has fl LEFT) with false. change (has fl ZEROPAD) with true. change (has fl SMALL) with true.
  unfold number_sign, number_mag, number_prefix. change (has fl SIGN) with false. change (has fl SPECIAL) with false.
  cbn [andb app length Z.of_nat]. pose proof (length_digit_text true 16 v).
  replace (Z.to_nat (-1 - _)) with 0%nat by lia. cbn [replicate app]. do 2 f_equal. lia.
Qed.

(** What [%pK] shows of an address. *)
Definition shown_address (v : Z) : Z :=
  if (kptr_restrict env =? 0) || ((kptr_restrict env =? 1) && cap_syslog env) then v else 0.

Definition line_of (s : ksym) : list Z :=
  match ks_name s with
  | [] => []
  | _ => hex8 (shown_address (ks_addr s)) ++ [32; ks_type s; 32] ++ ks_name s ++ [10]
  end.

Lemma line_runs v ty name :
  in_interrupt env = false -> 0 <= v < 2 ^ 32 -> 0 <= ty < 256 -> Z.of_nat (length name) < 2 ^ 32 - 1 ->
  runs env (vsnprintf_fuel (bytes_of "%pK %c %s
")) (bytes_of "%pK %c %s
") spec0 [APtr v []; AInt ty; APtr kernel_address name] (hex8 (shown_address v) ++ [32; ty; 32] ++ name ++ [10]).
Proof.
  intros Hirq Hv Hty Hname. change (vsnprintf_fuel _) with 20%nat.
  assert (0 <= shown_address v < 2 ^ 32) as Hs by (unfold shown_address; destruct (_ || _); lia).
  rewrite <- number_pk by done. change [32; ty; 32] with ([32] ++ ty :: [32]). rewrite <- !app_assoc. cbn [app].
  apply (runs_ptr env 19 _ _ (bytes_of "pK %c %s
") (MkSpec FORMAT_TYPE_PTR 0 10 255 (-1) (-1))); [done|done|done| |].
  { intros e o. unfold pointer. change (ch (drop 1 _)) with 75. cbv zeta. cbn [Z.eqb negb andb orb Pos.eqb field_width flags type qualifier precision].
    rewrite andb_false_r, Hirq. unfold shown_address in *.
    destruct ((kptr_restrict env =? 0) || _); cbn [negb]; by rewrite number_puts; [|apply spec_pk_ok|lia]. }
  change (skip_alnum _) with (bytes_of " %c %s
").
  apply (runs_lit env 18 (bytes_of " %c %s
") _ (bytes_of "%c %s
") (MkSpec FORMAT_TYPE_NONE 0 10 255 (-1) (-1))); [done|done|cbn; lia|].
  apply (runs_chr env 17 _ _ (bytes_of " %s
") (MkSpec FORMAT_TYPE_CHAR 0 10 255 (-1) (-1))); [done|done|done|done|done|lia|].
  apply (runs_lit env 16 (bytes_of " %s
") _ (bytes_of "%s
") (MkSpec FORMAT_TYPE_NONE 0 10 255 (-3) (-1))); [done|done|cbn; lia|].
  pose proof (string_chars_plain kernel_address name (MkSpec FORMAT_TYPE_STR 0 10 255 (-1) (-1)) ltac:(vm_compute; discriminate)
    eq_refl eq_refl eq_refl Hname) as Hstr. replace (name ++ [10]) with (string_chars kernel_address name
    (MkSpec FORMAT_TYPE_STR 0 10 255 (-1) (-1)) ++ [10]) by (by rewrite Hstr).
  apply (runs_str env 15 _ _ [10] (MkSpec FORMAT_TYPE_STR 0 10 255 (-1) (-1))); [done|done| |done|].
  { split; cbn; unfold byte_range; lia. }
  apply (runs_lit env 14 [10] _ [] (MkSpec FORMAT_TYPE_NONE 0 10 255 (-1) (-1))); [done|done|cbn; lia|]. apply runs_end.
Qed.

Lemma length_hex8 v : 0 <= v < 2 ^ 32 -> length (hex8 v) = 8%nat.
Proof.
  intros Hv. unfold hex8. rewrite length_app, length_replicate. rewrite <- hex_text by done.
  pose proof (length_digits_below true 8 16 v ltac:(lia) ltac:(lia) ltac:(cbn; lia)). lia.
Qed.

End line.

(** ** The promises of the iterator *)

Section records.
Context (k : ksyms) (syms : list ksym) (codes : list (list Z)) (env : kenv) (base smax : Z).
Hypothesis ok : tables_ok k syms codes.
Hypothesis types_ok : Forall (fun s => byte_range (ks_type s)) syms.
Hypothesis not_irq : in_interrupt env = false.
Hypothesis base_ok : 0 <= base /\ base + smax < 2 ^ 32 /\ smax < 2 ^ 31.

Definition kallsyms_lines : list (option (list Z)) := (fun s => Some (line_of env s)) <$> syms.

Lemma update_lands it i : iter_ok syms codes it ->
  exists b it', update_iter k it (Z.of_nat i) = Some (b, it') /\ iter_ok syms codes it' /\
    if decide (i < length kallsyms_lines)%nat
    then exists x, (if (b : bool) then IElem () else INull) = IElem x /\ exists s, syms !! i = Some s /\ shows it' s
    else (if (b : bool) then IElem () else INull) = INull.
Proof.
  intros Hit. unfold kallsyms_lines. rewrite length_fmap. destruct (decide (i < length syms)%nat) as [Hi|Hi].
  - destruct (lookup_lt_is_Some_2 syms i Hi) as [s Hs].
    destruct (update_shows k syms codes ok it i s Hit Hs) as (it' & -> & Hok & Hsh). eauto 10.
  - destruct (update_end k syms codes ok it i Hit) as (it' & -> & Hok); [lia|]. eauto 10.
Qed.

Lemma cstr_first b c : zget b 0 = Some c -> (c = 0 <-> cstr b = []).
Proof.
  destruct b as [|x b]; [done|]. cbn. intros [= ->]. destruct (Z.eqb_spec c 0); split; done.
Qed.

Lemma show_line it s m : iter_ok syms codes it -> shows it s -> s ∈ syms -> sb_ok smax m ->
  exists m', s_show env base it m = Some (m', 0) /\ appended m (line_of env s) m'.
Proof.
  intros [Hn Hmod _] (Hv & Hty & Hname & Hmname) [i Hs]%list_elem_of_lookup Hm. unfold s_show, KSYM_NAME_LEN in *.
  destruct (it_name it) as [|c nm] eqn:En; [cbn in Hn; lia|]. destruct (it_module it) as [|mc md] eqn:Em; [cbn in Hmod; lia|].
  change (zget (c :: nm) 0) with (Some c). change (zget (mc :: md) 0) with (Some mc). cbn [mbind option_bind].
  assert (mc = 0) as -> by (by apply (cstr_first (mc :: md) mc eq_refl)). unfold line_of. rewrite <- Hname.
  destruct (Z.eqb_spec c 0) as [->|Hc].
  { exists m. split; [done|]. cbn. split; [done|]. split; [done|]. cbn. rewrite app_nil_r, Z.add_0_r. destruct Hm.
    destruct (Z.ltb_spec (sb_count m) (sb_size m)); [done|lia]. }
  change (ctrue 0) with false. cbn iota.
  assert (0 <= ks_addr s < 2 ^ 32) as Ha by (by eapply (Forall_lookup_1 _ _ _ _ (tk_range _ _ _ ok))).
  assert (byte_range (ks_type s)) as Hb by (by eapply (Forall_lookup_1 _ _ _ _ types_ok)). unfold byte_range in Hb.
  destruct (name_at k syms codes ok i s Hs) as [_ Hl]. rewrite <- Hname in Hl. unfold KSYM_NAME_LEN in Hl.
  assert (0 <= shown_address env (ks_addr s) < 2 ^ 32) as Hsa by (unfold shown_address; destruct (_ || _); lia).
  rewrite Hv, Hty. set (t := hex8 (shown_address env (ks_addr s)) ++ [32; ks_type s; 32] ++ cstr (c :: nm) ++ [10]).
  assert (Z.of_nat (length t) < 2 ^ 31) as Htl by (subst t; rewrite !length_app, length_hex8 by done; cbn [length]; lia).
  destruct (seq_printf_appends smax (proj2 (proj2 base_ok)) env base _ _ t (proj1 base_ok) (proj1 (proj2 base_ok)) Htl
    (line_runs env (ks_addr s) (ks_type s) (cstr (c :: nm)) not_irq Ha Hb ltac:(lia)) m Hm) as (m' & r & -> & Happ).
  cbn [mbind option_bind]. exists m'. split; [done|]. destruct (cstr (c :: nm)) eqn:Ec; [|done].
  exfalso. by apply Hc, (cstr_first (c :: nm) c eq_refl).
Qed.

#[export] Program Instance kallsyms_records : SeqRecords (kallsyms_op k env base) smax kallsyms_lines := {|
  sr_inv it := iter_ok syms codes it;
  sr_at it _ i := exists s, syms !! i = Some s /\ shows it s |}.
Next Obligation.
  intros it i Hit. cbn [op_start kallsyms_op]. unfold s_start. destruct (update_lands it i Hit) as (b & it' & -> & Hok & Hl). eauto 10.
Qed.
Next Obligation.
  intros it [] i Hit _. cbn [op_next kallsyms_op]. unfold s_next. replace (Z.of_nat i + 1) with (Z.of_nat (S i)) by lia.
  destruct (update_lands it (S i) Hit) as (b & it' & -> & Hok & Hl). eauto 10.
Qed.
Next Obligation. done. Qed.
Next Obligation.
  intros it [] i rec sb Hit (s & Hs & Hsh) Hr Hsb. unfold kallsyms_lines in Hr. rewrite list_lookup_fmap, Hs in Hr.
  cbn in Hr. injection Hr as <-. destruct (show_line it s sb Hit Hsh) as (m' & Hshow & Happ); [by eapply list_elem_of_lookup_2|done|].
  cbn [op_show kallsyms_op]. rewrite Hshow. do 3 eexists. split; [done|]. split_and!; eauto.
Qed.

(** A line has at most 139 characters. *)
Lemma lines_short : Forall (fun r => Z.of_nat (length (default [] r)) <= 139) kallsyms_lines.
Proof.
  unfold kallsyms_lines. apply Forall_fmap, Forall_forall. intros s [i Hs]%list_elem_of_lookup. cbn [compose default from_option id].
  destruct (name_at k syms codes ok i s Hs) as [_ Hl]. unfold KSYM_NAME_LEN in Hl.
  assert (0 <= ks_addr s < 2 ^ 32) as Ha by (by eapply (Forall_lookup_1 _ _ _ _ (tk_range _ _ _ ok))).
  unfold line_of. destruct (ks_name s) as [|c nm] eqn:En; [cbn; lia|].
  rewrite !length_app, length_hex8 by (unfold shown_address; destruct (_ || _); lia). cbn [length] in *. lia.
Qed.

Lemma lines_text : contents (recs := kallsyms_lines) = concat (line_of env <$> syms).
Proof. unfold contents, rest_from, kallsyms_lines. rewrite drop_0, <- list_fmap_compose. done. Qed.

End records.

(** C11: [cat /proc/kallsyms] shows one line for every symbol of the table
    that has a name, in the order of the table: the address in eight digits
    (zeros for a reader who may not see it), the type and the name; a symbol
    without a name gets no line. This holds whatever was in the memory of the
    new iterator and for every size of the reads. Assumed: the tables have the
    layout [tables_ok] and at least one symbol, the kernel has no modules (the
    stubs of module.h), the file is read outside of interrupts, and the
    allocations and the copies to the reader succeed. *)
Theorem kallsyms_file (k : ksyms) (syms : list ksym) (codes : list (list Z)) (env : kenv) (base : Z) (kmalloc : Z -> option (list Z))
    (it : kallsym_iter) (n fuel : nat) (size : Z) :
  tables_ok k syms codes -> Forall (fun s => byte_range (ks_type s)) syms -> in_interrupt env = false ->
  0 <= base -> base + PAGE_SIZE < 2 ^ 32 -> (0 < length syms)%nat ->
  Z.of_nat (length (it_name it)) = KSYM_NAME_LEN -> (0 < length (it_module it))%nat ->
  (forall n, 0 < n <= PAGE_SIZE -> exists b, kmalloc n = Some b /\ Z.of_nat (length b) = n) ->
  0 < size -> (length syms + 200 < fuel)%nat -> (length (concat (line_of env <$> syms)) < n)%nat ->
  exists m, kallsyms_open k it = Some m /\
    read_all (ops := kallsyms_op k env base) kmalloc (fun _ _ => true) n fuel m size 0 = Some (concat (line_of env <$> syms)).
Proof.
  intros ok Hty Hirq Hb Hb2 Hne Hname Hmod Hk Hsize Hf Hn.
  destruct (reset_iter_ok k syms codes ok it 0 Hname Hmod Hne) as (it' & Hr & Hit' & _). unfold kallsyms_open.
  change (Z.of_nat 0) with 0 in Hr. rewrite Hr. cbn [mbind option_bind]. eexists. split; [done|].
  assert (0 <= base /\ base + PAGE_SIZE < 2 ^ 32 /\ PAGE_SIZE < 2 ^ 31) as Hbase by (unfold PAGE_SIZE in *; lia).
  pose (SR := kallsyms_records k syms codes env base PAGE_SIZE ok Hty Hirq Hbase).
  rewrite <- (lines_text syms env) in *.
  apply (read_all_spec (SR := SR) kmalloc (fun _ _ => true) 139 (lines_short k syms codes env ok)); try (done || lia).
  - intros n' b Hn' Hs. destruct (Hk n' Hn') as (b' & Hs' & Hl). by simplify_eq.
  - intros [(n' & Hn' & Hnone)|(a & n' & [=])]. destruct (Hk n' Hn') as (b & Hs & _). congruence.
  -   unfold rounds_left, kallsyms_lines. rewrite length_fmap. change (Z.to_nat (139 + 1 - 0)) with 140%nat. lia.
Qed.

Definition small_iter : kallsym_iter := MkIter 0 0 0 0 (replicate 128 0) (replicate 60 0) 0.

Lemma kallsyms_file_witness :
  exists m, kallsyms_open small_table small_iter = Some m /\
    read_all (ops := kallsyms_op small_table plain_env 3221225472) kmalloc_zero (fun _ _ => true) 200 300 m 7 0 =
      Some (concat (line_of plain_env <$> small_syms)).
Proof.
  apply (kallsyms_file small_table small_syms small_codes plain_env 3221225472 kmalloc_zero small_iter 200 300 7 small_ok);
    try done; try lia.
  - repeat (constructor; [unfold byte_range; cbn; lia|]). constructor.
  - cbn. lia.
  - cbn. lia.
  - intros m Hm. eexists. split; [done|]. rewrite length_replicate. lia.
  - vm_compute. lia.
  - vm_compute. lia.
Defined.

Example kallsyms_file_ex :
  concat (line_of plain_env <$> small_syms) = bytes_of "c0008000 T _stext
c0008000 T asm_sche
c0008400 T schedule
c00086e0 t panic
".
Proof. vm_compute. reflexivity. Qed.

(** ** Symbols printed by [%pS] and translated by [/proc/st] *)

(** The array [sym] of [symbol_string], for the letter [ext]. *)
Definition symbol_sym (k : ksyms) (ext value : Z) : list Z :=
  let sym := replicate (Z.to_nat KSYM_SYMBOL_LEN) 0 in
  let filled :=
    if ext =? 66 then snd <$> sprint_backtrace k plain_env kernel_address sym value
    else if negb (ext =? 102) && negb (ext =? 115) then snd <$> sprint_symbol k plain_env kernel_address sym value
    else snd <$> kallsyms_lookup k value sym in
  default [] (cstr <$> filled).

(** The environment of [vsnprintf] in a kernel with this table. *)
Definition kernel_env (k : ksyms) (irq : bool) (restrict : Z) (cap : bool) : kenv :=
  MkKenv irq restrict cap (symbol_sym k).

Lemma hex_chars_nonzero v : Forall (fun c => c <> 0) (hex_chars v).
Proof.
  unfold hex_chars. apply Forall_rev, Forall_fmap. cut (Forall (fun d => 0 <= d < 16) (hex_lsb 8 v)).
  { intros H. eapply Forall_impl; [exact H|]. intros d Hd. cbn beta in Hd. unfold compose, hex_digit. destruct (Z.ltb_spec d 10); lia. }
  generalize 8%nat. intros fuel. revert v. induction fuel as [|fuel IH]; intros v; [constructor|]. cbn [hex_lsb].
  constructor; [apply Z.mod_pos_bound; lia|]. destruct (_ =? 0); [constructor|apply IH].
Qed.

Lemma offset_text_nonzero off size : Forall (fun c => c <> 0) (offset_text off size).
Proof.
  unfold offset_text, hex0x. cbn [app]. repeat (constructor; [lia|]). apply Forall_app. split; [apply hex_chars_nonzero|].
  repeat (constructor; [lia|]). apply hex_chars_nonzero.
Qed.

(** C35: [%pS] prints the name of the symbol that holds the address, the offset
    in it and its size: [vsnprintf] counts the text and stores as much of it
    as the buffer takes. *)
Theorem symbol_printed (k : ksyms) (syms : list ksym) (codes : list (list Z)) (irq : bool) (restrict : Z) (cap : bool)
    (addr buf size : Z) (b obj : list Z) :
  tables_ok k syms codes -> is_ksym_addr k addr = true -> (exists s, syms !! 0%nat = Some s /\ ks_addr s <= addr) ->
  0 < addr < 2 ^ 32 -> 0 < size < 2 ^ 31 -> 0 <= buf -> buf + size < 2 ^ 32 -> Z.of_nat (length b) = size ->
  exists p s, holds syms addr p s /\
    let text := ks_name s ++ offset_text (addr - ks_addr s) (u32 (symbol_end k syms addr s - ks_addr s)) in
    vsnprintf (kernel_env k irq restrict cap) buf b size (bytes_of "%pS") [APtr addr obj] =
      Some (MkPrinted (Z.of_nat (length text)) (printed_buf size text b) []).
Proof.
  intros ok Hk H0 Ha Hsize Hbuf Hend Hb.
  destruct (sprint_symbol_text k syms codes plain_env kernel_address (replicate 223 0) addr 0 ok) as (p & s & Hh & Hlen & rest & Hs);
    rewrite ?Z.add_0_r; try (done || lia).
  exists p, s. rewrite Z.add_0_r in *. split; [done|]. cbv zeta in *.
  set (text := ks_name s ++ _) in *. assert (Forall (fun c => c <> 0) text) as Hz.
  { subst text. destruct Hh as [Hp _]. apply Forall_app. split; [apply (name_at k syms codes ok p s Hp)|apply offset_text_nonzero]. }
  assert (symbol_sym k 83 addr = text) as Hsym.
  { unfold symbol_sym. cbn [Z.eqb Pos.eqb negb andb]. change (Z.to_nat KSYM_SYMBOL_LEN) with 223%nat.
    unfold sprint_symbol. rewrite Hs. cbn [fmap option_fmap option_map snd default from_option id]. by apply cstr_app. }
  assert (end_of buf size = size) as He.
  { unfold end_of. rewrite u32_id by lia. by destruct (Z.ltb_spec (buf + size) buf); [lia|]. }
  rewrite (vsnprintf_runs _ buf b size _ _ text); rewrite ?He; try (done || lia).
  change (vsnprintf_fuel _) with 6%nat. rewrite <- (app_nil_r text).
  apply (runs_ptr _ 5 _ _ (bytes_of "pS") (MkSpec FORMAT_TYPE_PTR 0 10 255 (-1) (-1))); [done|done|done| |apply runs_end].
  intros e o. unfold pointer. change (ch (drop 1 (bytes_of "pS"))) with 83. cbv zeta.
  destruct (Z.eqb_spec addr 0); [lia|]. cbn [Z.eqb Pos.eqb negb andb orb]. unfold symbol_string. cbn [symbol_text kernel_env].
  rewrite Hsym, string_puts by (split; cbn; unfold byte_range; lia).
  rewrite length_replicate in Hlen. rewrite string_chars_plain; done || lia.
Qed.

Lemma symbol_printed_witness :
  exists p s, holds small_syms 3221259280 p s /\
    let text := ks_name s ++ offset_text (3221259280 - ks_addr s) (u32 (symbol_end small_table small_syms 3221259280 s - ks_addr s)) in
    vsnprintf (kernel_env small_table false 0 true) 3221225472 (replicate 40 0) 40 (bytes_of "%pS") [APtr 3221259280 []] =
      Some (MkPrinted (Z.of_nat (length text)) (printed_buf 40 text (replicate 40 0)) []).
Proof.
  apply (symbol_printed small_table small_syms small_codes); [exact small_ok|reflexivity|by eexists|lia|lia|lia|lia|reflexivity].
Defined.

Example symbol_printed_ex :
  (fun r => cstr (obuf r)) <$> snprintf (kernel_env small_table false 0 true) 3221225472 (replicate 64 0) 64
    (bytes_of "%pS %pB %pf") [APtr 3221259280 []; APtr 3221260000 []; APtr 3221260000 []]
  = Some (bytes_of "schedule+0x10/0x2e0 schedule+0x2e0/0x2e0 panic").
Proof. vm_compute. reflexivity. Qed.

(** A name written to [/proc/st] is translated by the symbol table: the
    next read delivers the address of the first symbol of that name. *)
Theorem st_translates (k : ksyms) (syms : list ksym) (codes : list (list Z)) (i : nat) (y : ksym) (sprint : Z -> list Z)
    (count : Z) (s : st) :
  tables_ok k syms codes -> syms !! i = Some y -> (forall j z, (j < i)%nat -> syms !! j = Some z -> ks_name z <> ks_name y) ->
  length (stsymbuffer s) = 512%nat -> ks_name y <> [] -> take 2 (ks_name y) <> bytes_of "0x" ->
  Z.of_nat (length (hex_chars (ks_addr y))) <= count ->
  exists s', set_address true (ks_name y ++ [10]) (Z.of_nat (length (ks_name y)) + 1) s = Some (Z.of_nat (length (ks_name y)) + 1, s') /\
    (read_symbol sprint (fun n => default 0 (kallsyms_lookup_name k n)) 0 count s').1 =
      MkRead (Z.of_nat (length (hex_chars (ks_addr y)))) true (hex_chars (ks_addr y)).
Proof.
  intros ok Hy Hfirst Hb Hne H0x Hcount. destruct (name_at k syms codes ok i y Hy) as [Hz Hl]. unfold KSYM_NAME_LEN in Hl.
  assert (default 0 (kallsyms_lookup_name k (ks_name y)) = ks_addr y) as Hlook.
  { rewrite (lookup_name_first k syms codes ok). cbn [default from_option id]. rewrite <- (take_drop_middle syms i y Hy), filter_app.
    replace (filter (fun s => ks_name s = ks_name y) (take i syms)) with (@nil ksym).
    { cbn [app]. by rewrite filter_cons, decide_True. }
    destruct (filter _ (take i syms)) as [|z l] eqn:Ef; [done|]. exfalso.
    assert (z ∈ filter (fun s => ks_name s = ks_name y) (take i syms)) as Hin by (rewrite Ef; by left).
    apply list_elem_of_filter in Hin as [Heq [j Hj]%list_elem_of_lookup]. apply lookup_take_Some in Hj as [Hj Hlt].
    by apply (Hfirst j z). }
  rewrite <- Hlook in *. apply symbol_lookup; try done. lia.
Qed.

Lemma st_translates_witness :
  exists s', set_address true (bytes_of "schedule" ++ [10]) 9 st_boot = Some (9, s') /\
    (read_symbol (fun _ => []) (fun n => default 0 (kallsyms_lookup_name small_table n)) 0 4096 s').1 =
      MkRead 8 true (bytes_of "c0008400").
Proof.
  apply (st_translates small_table small_syms small_codes 2 (MkKsym 3221259264 84 (bytes_of "schedule"))); try done.
  - exact small_ok.
  - intros [|[|j]] z Hj Hz; try lia; cbn in Hz; injection Hz as <-; discriminate.
Defined.
