(* ===== verification/Ksymgen.v ===== *)
(** * The generator of the symbol table

    [scripts/kallsyms.c], which the build runs on the output of [nm]: it picks
    and sorts the symbols, compresses their names by replacing the most
    frequent pair of codes by a free code over and over, and writes the tables
    that [Kallsyms.v] reads.

    A line of [nm] is what [fscanf] delivers of it: an address, a type and a
    name. Of the assembler source only the values of its directives are
    modelled; [qsort] is a sort by the comparison, which leaves no ties. The
    array [token_profit] is a finite map whose absent entries are 0. [None] is
    an access outside an array, or the exit when no symbol is valid. *)

From stdpp Require Import prelude gmap list strings sorting.
From Stdlib Require Import ZArith Lia.
From S2P Require Import Prelude Vsprintf Dynamic Bcmutils Printf Address Kallsyms.

Open Scope Z_scope.
Open Scope list_scope.

(** ** Reading the symbols *)

(** [sym] is the object allocated for the type, the name and the NUL. *)
Record sym_entry := MkSym {
  se_addr : Z;
  se_len : Z;
  se_start_pos : Z;
  se_sym : list Z }.

Record text_range := MkRange { stext : list Z; etext : list Z; tr_start : Z; tr_end : Z }.

Record nm_line := MkNm { nm_addr : Z; nm_type : Z; nm_name : list Z }.

(** The globals while the map is read. *)
Record gen := MkGen {
  g_text : Z;
  text_ranges : list text_range;
  table : list sym_entry }.

Definition gen0 : gen :=
  MkGen 0 [MkRange (bytes_of "_stext") (bytes_of "_etext") 0 0; MkRange (bytes_of "_sinittext") (bytes_of "_einittext") 0 0;
           MkRange (bytes_of "_stext_l1") (bytes_of "_etext_l1") 0 0; MkRange (bytes_of "_stext_l2") (bytes_of "_etext_l2") 0 0] [].

Definition toupper (c : Z) : Z := if (97 <=? c) && (c <=? 122) then c - 32 else c.

(** [strchr] also finds the NUL. *)
Definition is_arm_mapping_symbol (str : list Z) : bool :=
  (ch str =? 36) && bool_decide (ch_at str 1 ∈ [97; 116; 100; 0]) && ((ch_at str 2 =? 0) || (ch_at str 2 =? 46)).

(** The ranges, and whether the symbol is none of their bounds. *)
Fixpoint read_symbol_tr (sym : list Z) (addr : Z) (trs : list text_range) : list text_range * bool :=
  match trs with
  | [] => ([], true)
  | tr :: trs' =>
      if bool_decide (sym = stext tr) then (MkRange (stext tr) (etext tr) addr (tr_end tr) :: trs', false)
      else if bool_decide (sym = etext tr) then (MkRange (stext tr) (etext tr) (tr_start tr) addr :: trs', false)
      else let '(trs', r) := read_symbol_tr sym addr trs' in (tr :: trs', r)
  end.

Definition useful_absolute : list (list Z) :=
  bytes_of <$> ["__kernel_syscall_via_break"; "__kernel_syscall_via_epc"; "__kernel_sigtramp"; "__gp"]%string.

Section generator.
Context (all_symbols : bool) (symbol_prefix_char : Z).

(** The name behind the prefix character. *)
Definition skip_prefix (str : list Z) : list Z :=
  if ctrue symbol_prefix_char && (ch str =? symbol_prefix_char) then drop 1 str else str.

(** A line that is kept is added with its position. *)
Definition read_symbol (l : nm_line) (g : gen) : gen :=
  let str := nm_name l in
  let sym := skip_prefix str in
  let keep g :=
    MkGen (g_text g) (text_ranges g)
      (table g ++ [MkSym (nm_addr l) (Z.of_nat (length str) + 1) (Z.of_nat (length (table g))) (nm_type l :: str ++ [0])]) in
  let '(trs, other) := read_symbol_tr sym (nm_addr l) (text_ranges g) in
  if bool_decide (sym = bytes_of "_text") then keep (MkGen (nm_addr l) (text_ranges g) (table g))
  else if negb other then keep (MkGen (g_text g) trs (table g))
  else if toupper (nm_type l) =? 65 then if bool_decide (sym ∈ useful_absolute) then keep g else g
  else if (toupper (nm_type l) =? 85) || is_arm_mapping_symbol sym then g
  else if ch str =? 36 then g
  else if nm_type l =? 78 then g
  else keep g.

Definition read_map (input : list nm_line) : gen := foldl (fun g l => read_symbol l g) gen0 input.

(** ** Which symbols are kept *)

(** The string at [sym + offset]. *)
Definition sym_str (s : sym_entry) (offset : Z) : list Z := cstr (drop (Z.to_nat offset) (se_sym s)).

Definition symbol_valid_tr (trs : list text_range) (s : sym_entry) : bool :=
  existsb (fun tr => (tr_start tr <=? se_addr s) && (se_addr s <=? tr_end tr)) trs.

Definition special_symbols : list (list Z) :=
  bytes_of <$> ["kallsyms_addresses"; "kallsyms_num_syms"; "kallsyms_names"; "kallsyms_markers"; "kallsyms_token_table";
                "kallsyms_token_index"; "_SDA_BASE_"; "_SDA2_BASE_"]%string.

(** [strstr(s, p) != NULL] *)
Fixpoint strstr (s p : list Z) : bool :=
  bool_decide (take (length p) s = p) || match s with [] => false | _ :: s' => strstr s' p end.

(** Whether a symbol has the address of the end of a range and is not that end. *)
Definition at_end (tr : option text_range) (s : sym_entry) (name : list Z) : bool :=
  match tr with
  | Some tr => (se_addr s =? tr_end tr) && negb (bool_decide (name = etext tr))
  | None => false
  end.

Definition symbol_valid (trs : list text_range) (s : sym_entry) : bool :=
  let offset := if ctrue symbol_prefix_char && (ch (sym_str s 1) =? symbol_prefix_char) then 2 else 1 in
  let name := sym_str s offset in
  if negb all_symbols &&
     (negb (symbol_valid_tr trs s) || at_end (trs !! 0%nat) s name || at_end (trs !! 1%nat) s name) then false
  else if strstr name (bytes_of "_compiled.") then false
  else negb (bool_decide (name ∈ special_symbols)).

End generator.

(** ** Sorting *)

Definition memcmp_at (s : list Z) (at_ : Z) (p : list Z) : bool :=
  bool_decide (take (length p) (drop (Z.to_nat at_) s) = p).

Definition may_be_linker_script_provide_symbol (se : sym_entry) : bool :=
  let symbol := drop 1 (se_sym se) in
  let len := se_len se - 1 in
  if len <? 8 then false
  else if negb ((ch symbol =? 95) && (ch_at symbol 1 =? 95)) then false
  else memcmp_at symbol 2 (bytes_of "start_") || memcmp_at symbol 2 (bytes_of "stop_") ||
       memcmp_at symbol 2 (bytes_of "end_") || memcmp_at symbol (len - 6) (bytes_of "_start") ||
       memcmp_at symbol (len - 4) (bytes_of "_end").

Fixpoint prefix_underscores_count (str : list Z) : Z :=
  match str with
  | c :: str' => if c =? 95 then 1 + prefix_underscores_count str' else 0
  | [] => 0
  end.

Definition weak (s : sym_entry) : Z := if (ch (se_sym s) =? 119) || (ch (se_sym s) =? 87) then 1 else 0.
Definition provided (s : sym_entry) : Z := if may_be_linker_script_provide_symbol s then 1 else 0.
Definition underscores (s : sym_entry) : Z := prefix_underscores_count (drop 1 (se_sym s)).

Definition compare_symbols (sa sb : sym_entry) : Z :=
  if se_addr sb <? se_addr sa then 1
  else if se_addr sa <? se_addr sb then -1
  else if negb (weak sa =? weak sb) then weak sa - weak sb
  else if negb (provided sa =? provided sb) then provided sa - provided sb
  else if negb (underscores sa =? underscores sb) then underscores sa - underscores sb
  else se_start_pos sa - se_start_pos sb.

Definition sym_le (a b : sym_entry) : Prop := compare_symbols a b <= 0.

#[export] Instance sym_le_dec a b : Decision (sym_le a b) := Z_le_dec _ _.

Definition sort_symbols (t : list sym_entry) : list sym_entry := merge_sort sym_le t.

(** ** Compression *)

Definition profit_at (p : gmap Z Z) (i : Z) : Z := default 0 (p !! i).

Definition pair_code (a b : Z) : Z := a + Z.shiftl b 8.

Fixpoint count_pairs (by_ : Z) (symbol : list Z) (p : gmap Z Z) : gmap Z Z :=
  match symbol with
  | a :: symbol' =>
      match symbol' with
      | b :: _ => count_pairs by_ symbol' (<[pair_code a b := profit_at p (pair_code a b) + by_]> p)
      | [] => p
      end
  | [] => p
  end.

(** On the first [len] bytes of the object. *)
Definition learn_symbol (symbol : list Z) (len : Z) : gmap Z Z -> gmap Z Z := count_pairs 1 (take (Z.to_nat len) symbol).
Definition forget_symbol (symbol : list Z) (len : Z) : gmap Z Z -> gmap Z Z := count_pairs (-1) (take (Z.to_nat len) symbol).

(** [best_table] and [best_table_len]. *)
Record best := MkBest { best_table : list (Z * Z); best_table_len : list Z }.

(** The first [n] pairs from [at_] on. *)
Fixpoint find_token (n : nat) (str : list Z) (at_ : Z) (t0 t1 : Z) : option (option Z) :=
  match n with
  | O => Some None
  | S n' =>
      a ← zget str at_;
      b ← zget str (at_ + 1);
      if (a =? t0) && (b =? t1) then Some (Some at_) else find_token n' str (at_ + 1) t0 t1
  end.

(** The loop over the tokens of a symbol: the object and the length. *)
Fixpoint replace_loop (fuel : nat) (idx t0 t1 : Z) (sym : list Z) (p1 p2 size len : Z) : option (list Z * Z) :=
  match fuel with
  | O => None
  | S fuel' =>
      sym ← zset sym p2 idx;
      let p2 := p2 + 1 in
      let size := size - (p2 - p1) in
      sym ← memcpy_at sym p2 (drop (Z.to_nat (p2 + 1)) sym) size;
      let p1 := p2 in
      let len := len - 1 in
      if size <? 2 then Some (sym, len)
      else
        r ← find_token (Z.to_nat (size - 1)) sym p1 t0 t1;
        match r with
        | None => Some (sym, len)
        | Some p2 => replace_loop fuel' idx t0 t1 sym p1 p2 size len
        end
  end.

Definition compress_symbol (idx t0 t1 : Z) (s : sym_entry) (p : gmap Z Z) : option (sym_entry * gmap Z Z) :=
  r ← find_token (Z.to_nat (se_len s - 1)) (se_sym s) 0 t0 t1;
  match r with
  | None => Some (s, p)
  | Some p2 =>
      let p := forget_symbol (se_sym s) (se_len s) p in
      '(sym, len) ← replace_loop (length (se_sym s)) idx t0 t1 (se_sym s) 0 p2 (se_len s) (se_len s);
      Some (MkSym (se_addr s) len (se_start_pos s) sym, learn_symbol sym len p)
  end.

Fixpoint compress_symbols (idx t0 t1 : Z) (t : list sym_entry) (p : gmap Z Z) : option (list sym_entry * gmap Z Z) :=
  match t with
  | [] => Some ([], p)
  | s :: t' =>
      '(s, p) ← compress_symbol idx t0 t1 s p;
      '(t', p) ← compress_symbols idx t0 t1 t' p;
      Some (s :: t', p)
  end.

Definition find_best_token (p : gmap Z Z) : Z :=
  (foldl (fun '(best, bestprofit) i => if bestprofit <? profit_at p i then (i, profit_at p i) else (best, bestprofit))
     (0, -10000) (seqZ 0 65536)).1.

(** The loop from slot 255 down, over the slots that are left. *)
Fixpoint optimize_loop (slots : list Z) (bt : best) (t : list sym_entry) (p : gmap Z Z) : option (best * list sym_entry * gmap Z Z) :=
  match slots with
  | [] => Some (bt, t, p)
  | i :: slots' =>
      n ← zget (best_table_len bt) i;
      if n =? 0 then
        let best := find_best_token p in
        if profit_at p best =? 0 then Some (bt, t, p)
        else
          let t0 := Z.land best 255 in
          let t1 := Z.land (Z.shiftr best 8) 255 in
          lens ← zset (best_table_len bt) i 2;
          chars ← zset (best_table bt) i (t0, t1);
          '(t, p) ← compress_symbols i t0 t1 t p;
          optimize_loop slots' (MkBest chars lens) t p
      else optimize_loop slots' bt t p
  end.

Definition optimize_result : best -> list sym_entry -> gmap Z Z -> option (best * list sym_entry * gmap Z Z) :=
  optimize_loop (rev (seqZ 0 256)).

Definition insert_char (bt : best) (c : Z) : option best :=
  '(_, b1) ← zget (best_table bt) c;
  chars ← zset (best_table bt) c (c, b1);
  lens ← zset (best_table_len bt) c 1;
  Some (MkBest chars lens).

Fixpoint insert_chars (cs : list Z) (bt : best) : option best :=
  match cs with
  | [] => Some bt
  | c :: cs' => bt ← insert_char bt c; insert_chars cs' bt
  end.

Definition sym_codes (s : sym_entry) : list Z := take (Z.to_nat (se_len s)) (se_sym s).

Definition insert_real_symbols_in_table (t : list sym_entry) : option best :=
  insert_chars (t ≫= sym_codes) (MkBest (replicate 256 (0, 0)) (replicate 256 0)).

(** The valid symbols and the count of their pairs. *)
Definition build_initial_tok_table (all_symbols : bool) (prefix : Z) (trs : list text_range) (t : list sym_entry)
  : list sym_entry * gmap Z Z :=
  let t := filter (fun s => symbol_valid all_symbols prefix trs s = true) t in
  (t, foldl (fun p s => learn_symbol (se_sym s) (se_len s) p) ∅ t).

(** No valid symbol ends the program. *)
Definition optimize_token_table (all_symbols : bool) (prefix : Z) (trs : list text_range) (t : list sym_entry)
  : option (best * list sym_entry) :=
  let '(t, p) := build_initial_tok_table all_symbols prefix trs t in
  bt ← insert_real_symbols_in_table t;
  match t with
  | [] => None
  | _ => '(bt, t, _) ← optimize_result bt t p; Some (bt, t)
  end.

(** ** The tables *)

(** The text of some codes; the recursion is bounded by [fuel]. *)
Fixpoint expand_symbol (fuel : nat) (bt : best) (data : list Z) : option (list Z) :=
  match fuel with
  | O => None
  | S fuel' =>
      ts ← mapM (fun c =>
        '(b0, b1) ← zget (best_table bt) c;
        n ← zget (best_table_len bt) c;
        if (b0 =? c) && (n =? 1) then Some [c] else expand_symbol fuel' bt (take (Z.to_nat n) [b0; b1])) data;
      Some (concat ts)
  end.

(** A slot is made of slots above it, so the depth is at most 257. *)
Definition expand_fuel : nat := 258.

(** The text of slot [i] in the array [buf]. *)
Definition slot_text (bt : best) (i : Z) : option (list Z) :=
  '(b0, b1) ← zget (best_table bt) i;
  n ← zget (best_table_len bt) i;
  t ← expand_symbol expand_fuel bt (take (Z.to_nat n) [b0; b1]);
  if Z.of_nat (length t) <? KSYM_NAME_LEN then Some (cstr (t ++ [0])) else None.

(** [PTR _text + ...] and its siblings, relocated with the [_text] of the map. *)
Definition address_directive (text : Z) (s : sym_entry) : Z :=
  if negb (toupper (ch (se_sym s)) =? 65) then
    if text <=? se_addr s then u32 (text + u64 (se_addr s - text)) else u32 (text - u64 (text - se_addr s))
  else u32 (se_addr s).

Definition name_directive (s : sym_entry) : list Z := u8 (se_len s) :: (u8 <$> sym_codes s).

(** The offsets of the names, at every symbol. *)
Fixpoint name_offsets (off : Z) (t : list sym_entry) : list Z :=
  match t with
  | [] => []
  | s :: t' => off :: name_offsets (u32 (off + se_len s + 1)) t'
  end.

(** Every 256th of them. *)
Definition markers (t : list sym_entry) : list Z :=
  omap (fun i => name_offsets 0 t !! (256 * i)%nat) (seq 0 ((length t + 255) / 256)).

Fixpoint token_offsets (off : Z) (texts : list (list Z)) : list Z :=
  match texts with
  | [] => []
  | x :: texts' => off :: token_offsets (off + Z.of_nat (length x) + 1) texts'
  end.

(** The linker adds the bounds of the sections. *)
Definition write_src (text : Z) (bt : best) (t : list sym_entry) (bounds : Z * Z * Z * Z) : option ksyms :=
  texts ← mapM (slot_text bt) (seqZ 0 256);
  let '(st, en, si, ei) := bounds in
  Some (MkKsyms (address_directive text <$> t) (Z.of_nat (length t)) (t ≫= name_directive) (markers t)
          (concat ((fun x => x ++ [0]) <$> texts)) (u16 <$> token_offsets 0 texts) st en si ei).

Definition kallsyms_main (all_symbols : bool) (prefix : Z) (input : list nm_line) (bounds : Z * Z * Z * Z) : option ksyms :=
  let g := read_map prefix input in
  '(bt, t) ← optimize_token_table all_symbols prefix (text_ranges g) (sort_symbols (table g));
  write_src (g_text g) bt t bounds.

(** ** Replacing a pair of codes *)

Section replacing.
Context (idx t0 t1 : Z).
Hypothesis T0 : t0 <> 0.
Hypothesis T1 : t1 <> 0.

(** From left to right, without overlaps. *)
Fixpoint replace_pair (l : list Z) : list Z :=
  match l with
  | a :: tl =>
      match tl with
      | b :: l' => if (a =? t0) && (b =? t1) then idx :: replace_pair l' else a :: replace_pair tl
      | [] => [a]
      end
  | [] => []
  end.

(** The pair does not begin inside [u] when [x] follows. *)
Fixpoint pair_free (u : list Z) (x : Z) : bool :=
  match u with
  | [] => true
  | a :: u' => negb ((a =? t0) && (hd x u' =? t1)) && pair_free u' x
  end.

Lemma replace_cons a b l :
  replace_pair (a :: b :: l) = if (a =? t0) && (b =? t1) then idx :: replace_pair l else a :: replace_pair (b :: l).
Proof. done. Qed.

Lemma replace_free u v : pair_free u (hd 0 v) = true -> replace_pair (u ++ v) = u ++ replace_pair v.
Proof.
  induction u as [|a u IH]; [done|]. cbn [pair_free app]. intros [Ha Hu]%andb_prop. specialize (IH Hu).
  destruct (u ++ v) as [|b l] eqn:E.
  - destruct u; [|done]. cbn in E. by subst v.
  - assert (Hb : hd (hd 0 v) u = b) by (destruct u, v; naive_solver).
    rewrite Hb in Ha. by rewrite replace_cons, (proj1 (negb_true_iff _) Ha), IH.
Qed.

Lemma replace_found u v : pair_free u t0 = true -> replace_pair (u ++ t0 :: t1 :: v) = u ++ idx :: replace_pair v.
Proof. intros H. rewrite replace_free by done. cbn. by rewrite !Z.eqb_refl. Qed.

Lemma replace_none l : pair_free l 0 = true -> replace_pair l = l.
Proof. intros H. pose proof (replace_free l [] H) as E. rewrite app_nil_r in E. cbn in E. by rewrite app_nil_r in E. Qed.

(** Where the first pair is. *)
Lemma first_pair l : pair_free l 0 = true \/ exists u v, l = u ++ t0 :: t1 :: v /\ pair_free u t0 = true.
Proof.
  induction l as [|a l IH]; [by left|]. destruct ((a =? t0) && (hd 0 l =? t1)) eqn:E.
  - apply andb_prop in E as [->%Z.eqb_eq E%Z.eqb_eq]. destruct l as [|b l]; [by cbn in E|]. cbn in E. subst b.
    right. by exists [], l.
  - destruct IH as [IH|(u & v & -> & IH)]; [left; cbn; by rewrite E, IH|].
    right. exists (a :: u), v. split; [done|]. cbn. rewrite IH, andb_true_r.
    replace (hd t0 u) with (hd 0 (u ++ t0 :: t1 :: v)) by (by destruct u). by rewrite E.
Qed.

Lemma find_token_skip u n pre rest x l :
  rest = u ++ x :: l -> pair_free u x = true ->
  find_token (length u + n) (pre ++ rest) (Z.of_nat (length pre)) t0 t1 =
    find_token n (pre ++ rest) (Z.of_nat (length (pre ++ u))) t0 t1.
Proof.
  revert pre rest. induction u as [|a u IH]; intros pre rest -> H; [by rewrite app_nil_r|].
  cbn [pair_free] in H. apply andb_prop in H as [Ha Hu]. cbn [length Nat.add find_token app].
  rewrite zget_app. cbn [mbind option_bind].
  assert (E : zget (pre ++ a :: u ++ x :: l) (Z.of_nat (length pre) + 1) = Some (hd x u))
    by (destruct u; cbn [app]; apply zget_app_next).
  rewrite E. cbn [mbind option_bind]. rewrite (proj1 (negb_true_iff _) Ha).
  replace (pre ++ a :: u ++ x :: l) with ((pre ++ [a]) ++ u ++ x :: l) by (by rewrite <- app_assoc).
  replace (Z.of_nat (length pre) + 1) with (Z.of_nat (length (pre ++ [a]))) by (rewrite length_app; cbn; lia).
  rewrite (IH (pre ++ [a]) (u ++ x :: l)) by done. by rewrite <- !(app_assoc pre).
Qed.

Lemma find_token_found pre u v n :
  pair_free u t0 = true -> (length u < n)%nat ->
  find_token n (pre ++ u ++ t0 :: t1 :: v) (Z.of_nat (length pre)) t0 t1 = Some (Some (Z.of_nat (length (pre ++ u)))).
Proof.
  intros H Hn. replace n with (length u + S (n - length u - 1))%nat by lia.
  rewrite (find_token_skip u _ pre _ t0 (t1 :: v)) by done. rewrite app_assoc. cbn [find_token].
  rewrite zget_app, zget_app_next. cbn [mbind option_bind]. by rewrite !Z.eqb_refl.
Qed.

(** Behind the symbol there are only NULs. *)
Lemma find_token_none pre rest k n :
  pair_free rest 0 = true -> (n < length rest + k)%nat ->
  find_token n (pre ++ rest ++ replicate k 0) (Z.of_nat (length pre)) t0 t1 = Some None.
Proof.
  intros H Hn. revert pre rest k H Hn. induction n as [|n IH]; [done|]. intros pre rest k H Hn. cbn [find_token].
  destruct rest as [|a rest]; cbn [app].
  - destruct k as [|[|k]]; [cbn in *; lia|cbn in *; lia|]. cbn [replicate]. rewrite zget_app, zget_app_next.
    cbn [mbind option_bind]. destruct (Z.eqb_spec 0 t0); [congruence|]. cbn [andb].
    replace (pre ++ 0 :: 0 :: replicate k 0) with ((pre ++ [0]) ++ [] ++ replicate (S k) 0) by (by rewrite <- app_assoc).
    replace (Z.of_nat (length pre) + 1) with (Z.of_nat (length (pre ++ [0]))) by (rewrite length_app; cbn; lia).
    apply IH; cbn in *; [done|lia].
  - cbn [pair_free] in H. apply andb_prop in H as [Ha Hr].
    assert (E : zget (pre ++ a :: rest ++ replicate k 0) (Z.of_nat (length pre) + 1) = Some (hd 0 rest)).
    { destruct rest; [|cbn [app]; apply zget_app_next]. destruct k; [cbn in *; lia|]. cbn [app replicate]. apply zget_app_next. }
    rewrite zget_app, E. cbn [mbind option_bind]. rewrite (proj1 (negb_true_iff _) Ha).
    replace (pre ++ a :: rest ++ replicate k 0) with ((pre ++ [a]) ++ rest ++ replicate k 0) by (by rewrite <- app_assoc).
    replace (Z.of_nat (length pre) + 1) with (Z.of_nat (length (pre ++ [a]))) by (rewrite length_app; cbn; lia).
    apply IH; cbn in *; [done|lia].
Qed.

(** [memmove] takes one byte out. *)
Lemma move_down pre x v z k sym :
  sym = pre ++ x :: v ++ replicate z 0 -> (k < z)%nat ->
  memcpy_at sym (Z.of_nat (length pre)) (drop (Z.to_nat (Z.of_nat (length pre) + 1)) sym) (Z.of_nat (length v + S k)) =
    Some (pre ++ v ++ replicate (S z) 0).
Proof.
  intros -> Hk. unfold memcpy_at.
  replace (drop _ _) with (v ++ replicate z 0).
  2: { replace (Z.to_nat _) with (length (pre ++ [x])) by (rewrite length_app; cbn; lia).
       rewrite (app_assoc pre [x] (v ++ replicate z 0) : pre ++ x :: v ++ replicate z 0 = _). by rewrite drop_app_length. }
  rewrite !(proj2 (Z.leb_le _ _)) by (rewrite !length_app; cbn; rewrite ?length_app, length_replicate; lia). cbn [andb].
  rewrite Nat2Z.id, take_app_length. do 2 f_equal.
  replace (Z.to_nat (_ + _)) with (length pre + (length v + S k))%nat by lia. rewrite Nat2Z.id, drop_app_add' by done.
  rewrite (take_app_add' v) by done. rewrite Nat.add_succ_r. cbn [drop]. rewrite drop_app_add' by done.
  rewrite take_replicate, drop_replicate, <- app_assoc, <- replicate_add. do 2 f_equal. lia.
Qed.

(** The object while its tokens are replaced: what is finished, what is left
    and NULs, one of them behind the bytes that are moved. *)
Lemma replace_loop_spec fuel fin u v z k len :
  pair_free u t0 = true -> (k < z)%nat -> (length v < fuel)%nat ->
  exists z', replace_loop fuel idx t0 t1 (fin ++ (u ++ t0 :: t1 :: v) ++ replicate z 0) (Z.of_nat (length fin))
      (Z.of_nat (length (fin ++ u))) (Z.of_nat (length (u ++ t0 :: t1 :: v) + k)) len =
    Some (fin ++ (u ++ idx :: replace_pair v) ++ replicate z' 0,
          len - Z.of_nat (length (u ++ t0 :: t1 :: v)) + Z.of_nat (length (u ++ idx :: replace_pair v))) /\ (z < z')%nat.
Proof.
  revert fin u v z k len. induction fuel as [|fuel IH]; [lia|]. intros fin u v z k len Hu Hk Hf. cbn [replace_loop].
  rewrite <- app_assoc. cbn [app]. rewrite (app_assoc fin u), zset_app. cbn [mbind option_bind].
  replace (Z.of_nat (length (fin ++ u)) + 1) with (Z.of_nat (length (fin ++ u ++ [idx])))
    by (rewrite !length_app; cbn; lia).
  set (size := Z.of_nat (length (u ++ t0 :: t1 :: v) + k) - _).
  assert (Hs : size = Z.of_nat (length v + S k)) by (unfold size; rewrite !length_app; cbn; lia).
  rewrite Hs. rewrite (move_down (fin ++ u ++ [idx]) t1 v z k) by (done || (by rewrite <- !app_assoc)).
  cbn [mbind option_bind].
  assert (Hstop : pair_free v 0 = true -> exists z', Some ((fin ++ u ++ [idx]) ++ v ++ replicate (S z) 0, len - 1) =
     Some (fin ++ (u ++ idx :: replace_pair v) ++ replicate z' 0,
       len - Z.of_nat (length (u ++ t0 :: t1 :: v)) + Z.of_nat (length (u ++ idx :: replace_pair v))) /\ (z < z')%nat).
  { intros Hv. exists (S z). rewrite replace_none by done. split; [|lia]. do 2 f_equal; [by rewrite <- !app_assoc|].
    rewrite !length_app. cbn. lia. }
  destruct (Z.ltb_spec (Z.of_nat (length v + S k)) 2).
  { apply Hstop. destruct v; [done|cbn in *; lia]. }
  destruct (first_pair v) as [Hv|(u' & v' & -> & Hu')].
  - rewrite find_token_none by (done || lia). by apply Hstop.
  - rewrite <- (app_assoc u'). cbn [app].
    rewrite find_token_found by (done || (rewrite !length_app in *; cbn in *; lia)). cbn [mbind option_bind].
    destruct (IH (fin ++ u ++ [idx]) u' v' (S z) (S k) (len - 1)) as (z' & E & Hz'); [done|lia|rewrite length_app in Hf; cbn in Hf; lia|].
    rewrite <- (app_assoc u') in E. cbn [app] in E. rewrite E. exists z'. rewrite (replace_found u' v') by done. split; [|lia].
    do 2 f_equal; [|rewrite !length_app; cbn; rewrite !length_app; cbn; lia].
    rewrite <- !app_assoc. cbn [app]. by rewrite <- !app_assoc.
Qed.

(** A symbol of the table holds some codes, and NULs behind them. *)
Definition holds_codes (s : sym_entry) (cs : list Z) : Prop :=
  exists z, se_sym s = cs ++ replicate (S z) 0 /\ se_len s = Z.of_nat (length cs).

Lemma holds_sym_codes s cs : holds_codes s cs -> sym_codes s = cs.
Proof. intros (z & Es & El). unfold sym_codes. by rewrite El, Nat2Z.id, Es, take_app_length. Qed.

(** How often a pair occurs. *)
Fixpoint pair_count (i : Z) (l : list Z) : Z :=
  match l with
  | a :: tl => match tl with b :: _ => (if pair_code a b =? i then 1 else 0) + pair_count i tl | [] => 0 end
  | [] => 0
  end.

Definition pairs_in (i : Z) (css : list (list Z)) : Z := foldr (fun cs n => pair_count i cs + n) 0 css.

Lemma count_pairs_at by_ l p i : profit_at (count_pairs by_ l p) i = profit_at p i + by_ * pair_count i l.
Proof.
  revert p. induction l as [|a l IH]; intros p; [cbn; lia|]. destruct l as [|b l]; [cbn; lia|].
  change (count_pairs by_ (a :: b :: l) p) with (count_pairs by_ (b :: l) (<[pair_code a b := profit_at p (pair_code a b) + by_]> p)).
  change (pair_count i (a :: b :: l)) with ((if pair_code a b =? i then 1 else 0) + pair_count i (b :: l)).
  rewrite IH. unfold profit_at at 1. destruct (Z.eqb_spec (pair_code a b) i) as [->|Hi].
  - rewrite lookup_insert_eq. cbn [default from_option id]. lia.
  - rewrite lookup_insert_ne by done. change (default 0 (p !! i)) with (profit_at p i). lia.
Qed.

Lemma compress_symbol_spec s cs p : holds_codes s cs ->
  exists s' p', compress_symbol idx t0 t1 s p = Some (s', p') /\ holds_codes s' (replace_pair cs) /\
    se_addr s' = se_addr s /\ se_start_pos s' = se_start_pos s /\
    forall i, profit_at p' i = profit_at p i - pair_count i cs + pair_count i (replace_pair cs).
Proof.
  intros (z & Es & El). unfold compress_symbol. rewrite Es, El.
  destruct (first_pair cs) as [Hf|(u & v & -> & Hu)].
  - pose proof (find_token_none [] cs (S z) (Z.to_nat (Z.of_nat (length cs) - 1)) Hf ltac:(lia)) as E.
    cbn [app length] in E. change (Z.of_nat 0) with 0 in E. rewrite E. cbn [mbind option_bind]. rewrite (replace_none cs) by done.
    exists s, p. split_and!; [done|by exists z|done|done|lia].
  - set (cs := u ++ t0 :: t1 :: v).
    assert (Ea : cs ++ replicate (S z) 0 = u ++ t0 :: t1 :: v ++ replicate (S z) 0) by (unfold cs; by rewrite <- app_assoc).
    pose proof (find_token_found [] u (v ++ replicate (S z) 0) (Z.to_nat (Z.of_nat (length cs) - 1)) Hu) as E.
    cbn [app length] in E. change (Z.of_nat 0) with 0 in E. rewrite Ea, E by (unfold cs; rewrite length_app; cbn; lia). rewrite <- Ea. cbn [mbind option_bind].
    destruct (replace_loop_spec (length (cs ++ replicate (S z) 0)) [] u v (S z) 0 (Z.of_nat (length cs)))
      as (z' & Er & Hz'); [done|lia|unfold cs; rewrite !length_app; cbn; lia|].
    fold cs in Er. cbn [app length] in Er. change (Z.of_nat 0) with 0 in Er. rewrite Nat.add_0_r in Er. rewrite Er.
    cbn [mbind option_bind]. assert (Ec : replace_pair cs = u ++ idx :: replace_pair v) by (by apply replace_found). rewrite Ec. set (cs' := u ++ idx :: replace_pair v) in *.
    do 2 eexists. split; [done|]. cbn [se_addr se_start_pos].
    split; [exists (pred z'); cbn [se_sym se_len]; split; [by replace (S (pred z')) with z' by lia|lia]|]. split_and!; [done|done|].
    intros i. unfold learn_symbol, forget_symbol. rewrite !count_pairs_at, Nat2Z.id, take_app_length.
    replace (Z.to_nat _) with (length cs') by lia. rewrite take_app_length. lia.
Qed.

(** The table after a pass. *)
Lemma compress_symbols_spec t css p : Forall2 holds_codes t css ->
  exists t' p', compress_symbols idx t0 t1 t p = Some (t', p') /\ Forall2 holds_codes t' (replace_pair <$> css) /\
    se_addr <$> t' = se_addr <$> t /\
    forall i, profit_at p' i = profit_at p i - pairs_in i css + pairs_in i (replace_pair <$> css).
Proof.
  intros H. revert p. induction H as [|s cs t css Hs _ IH]; intros p; cbn [compress_symbols fmap list_fmap].
  { exists [], p. split_and!; [done|constructor|done|cbn; lia]. }
  destruct (compress_symbol_spec s cs p Hs) as (s' & p1 & -> & Hs' & Ha & _ & Hp1). cbn [mbind option_bind].
  destruct (IH p1) as (t' & p2 & -> & Ht' & Hat & Hp2). cbn [mbind option_bind].
  exists (s' :: t'), p2. split_and!; [done|by constructor|cbn; by f_equal|].
  intros i. rewrite Hp2, Hp1. cbn. fold (pairs_in i css) (pairs_in i (replace_pair <$> css)). lia.
Qed.
End replacing.

(** ** The most frequent pair *)

Lemma best_fold p l b bp : profit_at p b = bp \/ (b = 0 /\ bp = -10000) ->
  let r := foldl (fun '(best, bestprofit) i => if bestprofit <? profit_at p i then (i, profit_at p i) else (best, bestprofit))
             (b, bp) l in
  (profit_at p r.1 = r.2 \/ (r.1 = 0 /\ r.2 = -10000)) /\ bp <= r.2 /\ (forall i, i ∈ l -> profit_at p i <= r.2) /\
  (r.1 = b \/ r.1 ∈ l).
Proof.
  revert b bp. induction l as [|i l IH]; intros b bp H; cbn [foldl]; [split_and!; [done|done|by intros ? ?%not_elem_of_nil|by left]|].
  destruct (Z.ltb_spec bp (profit_at p i)).
  - destruct (IH i (profit_at p i)) as (H1 & H2 & H3 & H4); [by left|].
    split_and!; [done|lia| |right; apply elem_of_cons; destruct H4 as [H4|H4]; [by left|by right]].
    intros j [->|Hj]%elem_of_cons; [lia|by apply H3].
  - destruct (IH b bp H) as (H1 & H2 & H3 & H4).
    split_and!; [done|lia| |destruct H4 as [H4|H4]; [by left|right; apply elem_of_cons; by right]].
    intros j [->|Hj]%elem_of_cons; [lia|by apply H3].
Qed.

(** No pair is more frequent than the one that is found. *)
Lemma find_best_token_max p i : 0 <= i < 65536 -> (forall j, 0 <= profit_at p j) ->
  profit_at p i <= profit_at p (find_best_token p) /\ 0 <= find_best_token p < 65536.
Proof.
  intros Hi Hp. unfold find_best_token.
  destruct (best_fold p (seqZ 0 65536) 0 (-10000)) as (H1 & H2 & H3 & H4); [by right|].
  set (r := foldl _ _ _) in *. assert (Hi' := H3 i ltac:(apply elem_of_seqZ; lia)). specialize (Hp i). split.
  - destruct H1 as [->|[_ H1]]; [done|]. rewrite H1 in Hi'. lia.
  - destruct H4 as [->|H4%elem_of_seqZ]; lia.
Qed.

Definition bytes (cs : list Z) : Prop := Forall (fun c => 0 <= c < 256) cs.

Lemma pair_code_eq a b : pair_code a b = a + 256 * b.
Proof. unfold pair_code. rewrite Z.shiftl_mul_pow2 by lia. lia. Qed.

Lemma pair_code_range a b : 0 <= a < 256 -> 0 <= b < 256 -> 0 <= pair_code a b < 65536.
Proof. intros. rewrite pair_code_eq. lia. Qed.

Lemma pair_code_split a b : 0 <= a < 256 -> 0 <= b < 256 ->
  Z.land (pair_code a b) 255 = a /\ Z.land (Z.shiftr (pair_code a b) 8) 255 = b.
Proof.
  intros Ha Hb. rewrite pair_code_eq, Z.shiftr_div_pow2 by lia. change 255 with (Z.ones 8). rewrite !Z.land_ones by lia.
  change (2 ^ 8) with 256. Z.div_mod_to_equations. lia.
Qed.

Lemma pair_count_nonneg i l : 0 <= pair_count i l.
Proof. induction l as [|a [|b l] IH]; [done|done|]. cbn in *. destruct (_ =? _); lia. Qed.

Lemma pairs_in_nonneg i css : 0 <= pairs_in i css.
Proof. induction css as [|cs css IH]; [done|]. cbn. pose proof (pair_count_nonneg i cs). unfold pairs_in in IH. lia. Qed.

Lemma pair_count_pos i l : 0 < pair_count i l -> exists u a b v, l = u ++ a :: b :: v /\ pair_code a b = i.
Proof.
  induction l as [|a l IH]; [cbn; lia|]. destruct l as [|b l]; [cbn; lia|].
  change (pair_count i (a :: b :: l)) with ((if pair_code a b =? i then 1 else 0) + pair_count i (b :: l)).
  destruct (Z.eqb_spec (pair_code a b) i) as [E|_]; intros H.
  - by exists [], a, b, l.
  - destruct IH as (u & a' & b' & v & -> & E); [lia|]. by exists (a :: u), a', b', v.
Qed.

Lemma pairs_in_pos i css : 0 < pairs_in i css -> exists cs u a b v, cs ∈ css /\ cs = u ++ a :: b :: v /\ pair_code a b = i.
Proof.
  induction css as [|cs css IH]; [cbn; lia|]. cbn. intros H. pose proof (pair_count_nonneg i cs).
  destruct (decide (0 < pair_count i cs)) as [Hp|Hp].
  - destruct (pair_count_pos i cs Hp) as (u & a & b & v & E & Ei). exists cs, u, a, b, v. split; [apply elem_of_cons; by left|done].
  - destruct IH as (cs' & u & a & b & v & Hin & E); [unfold pairs_in; lia|]. exists cs', u, a, b, v. split; [apply elem_of_cons; by right|done].
Qed.

(** The count of a table is exact. *)
Definition counted (p : gmap Z Z) (css : list (list Z)) : Prop := forall i, profit_at p i = pairs_in i css.

Lemma best_pair p css best : (forall i, 0 <= i < 65536 -> profit_at p i <= profit_at p best) -> counted p css -> Forall bytes css -> profit_at p best <> 0 ->
  let t0 := Z.land best 255 in
  let t1 := Z.land (Z.shiftr best 8) 255 in
  (exists cs u v, cs ∈ css /\ cs = u ++ t0 :: t1 :: v) /\ pair_code t0 t1 = best /\
  forall a b, 0 <= a < 256 -> 0 <= b < 256 -> pairs_in (pair_code a b) css <= pairs_in (pair_code t0 t1) css.
Proof.
  intros Hbest Hc Hb Hne t0 t1. assert (Hp : forall j, 0 <= profit_at p j) by (intros; rewrite Hc; apply pairs_in_nonneg).
  destruct (pairs_in_pos best css) as (cs & u & a & b & v & Hin & -> & E).
  { rewrite <- Hc. specialize (Hp best). lia. }
  pose proof (proj1 (Forall_forall _ _) Hb _ Hin) as Hcs. unfold bytes in Hcs.
  apply Forall_app in Hcs as [_ Hcs]. apply Forall_cons in Hcs as [Ha Hcs]. apply Forall_cons in Hcs as [Hb' _].
  destruct (pair_code_split a b Ha Hb') as [E0 E1]. rewrite E in E0, E1. unfold t0, t1. rewrite E0, E1.
  split; [by exists (u ++ a :: b :: v), u, v|]. split; [exact E|]. intros a' b' Ha' Hb''. rewrite <- !Hc, E.
  by apply Hbest, pair_code_range.
Qed.

(** ** Expansion *)

(** The text of one code. *)
Definition code_text (fuel : nat) (bt : best) (c : Z) : option (list Z) :=
  '(b0, b1) ← zget (best_table bt) c;
  n ← zget (best_table_len bt) c;
  if (b0 =? c) && (n =? 1) then Some [c] else expand_symbol fuel bt (take (Z.to_nat n) [b0; b1]).

Lemma expand_S fuel bt data : expand_symbol (S fuel) bt data = ts ← mapM (code_text fuel bt) data; Some (concat ts).
Proof. done. Qed.

Lemma expand_app fuel bt d1 d2 t1 t2 :
  expand_symbol fuel bt d1 = Some t1 -> expand_symbol fuel bt d2 = Some t2 -> expand_symbol fuel bt (d1 ++ d2) = Some (t1 ++ t2).
Proof.
  destruct fuel; [done|]. rewrite !expand_S. intros H1 H2.
  destruct (mapM _ d1) as [ts1|] eqn:E1; [|done]. destruct (mapM _ d2) as [ts2|] eqn:E2; [|done].
  cbn [mbind option_bind] in *. apply (inj Some) in H1 as <-, H2 as <-.
  assert (E : mapM (code_text fuel bt) (d1 ++ d2) = Some (ts1 ++ ts2)).
  { apply mapM_Some. apply Forall2_app; by apply mapM_Some. }
  rewrite E. cbn [mbind option_bind]. by rewrite concat_app.
Qed.

Lemma expand_app_inv fuel bt d1 d2 t : expand_symbol fuel bt (d1 ++ d2) = Some t ->
  exists t1 t2, t = t1 ++ t2 /\ expand_symbol fuel bt d1 = Some t1 /\ expand_symbol fuel bt d2 = Some t2.
Proof.
  destruct fuel; [done|]. rewrite !expand_S. intros H.
  destruct (mapM _ (d1 ++ d2)) as [ts|] eqn:E; [|done]. cbn [mbind option_bind] in H. apply (inj Some) in H as <-.
  apply mapM_Some, Forall2_app_inv_l in E as (ts1 & ts2 & H1%mapM_Some & H2%mapM_Some & ->). rewrite H1, H2.
  exists (concat ts1), (concat ts2). by rewrite concat_app.
Qed.

Lemma expand_more fuel fuel' bt data t : (fuel <= fuel')%nat -> expand_symbol fuel bt data = Some t -> expand_symbol fuel' bt data = Some t.
Proof.
  revert fuel' data t. induction fuel as [|fuel IH]; [done|]. intros [|fuel'] data t Hf; [lia|]. rewrite !expand_S.
  destruct (mapM _ data) as [ts|] eqn:E; [|done]. intros H. cbn [mbind option_bind] in H. apply (inj Some) in H as <-.
  assert (E' : mapM (code_text fuel' bt) data = Some ts); [|by rewrite E'].
  apply mapM_Some. apply mapM_Some in E. eapply Forall2_impl; [exact E|]. intros c tc. unfold code_text.
  destruct (zget (best_table bt) c) as [[b0 b1]|]; [|done]. destruct (zget (best_table_len bt) c) as [n|]; [|done].
  cbn [mbind option_bind]. destruct (_ && _); [done|]. apply IH. lia.
Qed.

Definition used (bt : best) (c : Z) : Prop := exists n, zget (best_table_len bt) c = Some n /\ n <> 0.

(** A slot is free, a character of the names, or a pair of codes in use;
    slots below [n] are not yet given away. *)
Inductive slot (n : Z) (bt : best) (c : Z) : Prop :=
  | SFree b : zget (best_table_len bt) c = Some 0 -> zget (best_table bt) c = Some b -> slot n bt c
  | SReal b1 : zget (best_table_len bt) c = Some 1 -> zget (best_table bt) c = Some (c, b1) -> c <> 0 -> slot n bt c
  | SPair b0 b1 : zget (best_table_len bt) c = Some 2 -> zget (best_table bt) c = Some (b0, b1) -> n <= c ->
      used bt b0 -> used bt b1 -> slot n bt c.

Record table_wf (n : Z) (bt : best) : Prop := {
  wf_len : length (best_table_len bt) = 256%nat;
  wf_tab : length (best_table bt) = 256%nat;
  wf_slot : forall c, 0 <= c < 256 -> slot n bt c }.

Lemma used_range n bt c : table_wf n bt -> used bt c -> 0 <= c < 256.
Proof. intros Hw (m & H & _). apply zget_Some in H. rewrite (wf_len _ _ Hw) in H. lia. Qed.

(** Codes in use do not depend on the slots that are free. *)
Lemma expand_stable n bt bt' fuel data : table_wf n bt ->
  (forall c, used bt c -> zget (best_table bt') c = zget (best_table bt) c /\ zget (best_table_len bt') c = zget (best_table_len bt) c) ->
  Forall (used bt) data -> expand_symbol fuel bt' data = expand_symbol fuel bt data.
Proof.
  intros Hw Heq. revert data. induction fuel as [|fuel IH]; [done|]. intros data Hd. rewrite !expand_S.
  assert (E : mapM (code_text fuel bt') data = mapM (code_text fuel bt) data); [|by rewrite E].
  induction Hd as [|c data Hc Hd IHd]; [done|]. cbn [mapM]. rewrite IHd. clear IHd.
  assert (E : code_text fuel bt' c = code_text fuel bt c); [|by rewrite E]. unfold code_text.
  destruct (Heq c Hc) as [-> ->]. destruct (wf_slot _ _ Hw c (used_range _ _ _ Hw Hc)) as [b El Eb|b1 El Eb|b0 b1 El Eb _ U0 U1].
  - destruct Hc as (m & Em & Hm). congruence.
  - rewrite El, Eb. cbn [mbind option_bind]. by rewrite !Z.eqb_refl.
  - rewrite El, Eb. cbn [mbind option_bind]. rewrite andb_false_r. apply IH. by repeat constructor.
Qed.

(** ** The greedy algorithm *)

(** What a run does to the names, slot [n - 1] first: a free slot gets a pair
    that no pair is more frequent than, until no name has two codes. *)
Inductive packs : nat -> best -> list (list Z) -> best -> list (list Z) -> Prop :=
  | PEnd bt css : packs 0 bt css bt css
  | PNone n bt css : zget (best_table_len bt) (Z.of_nat n) = Some 0 ->
      (forall a b, 0 <= a < 256 -> 0 <= b < 256 -> pairs_in (pair_code a b) css = 0) -> packs (S n) bt css bt css
  | PTaken n bt css bt' css' : used bt (Z.of_nat n) -> packs n bt css bt' css' -> packs (S n) bt css bt' css'
  | PPair n bt css a b bt' css' : zget (best_table_len bt) (Z.of_nat n) = Some 0 -> used bt a -> used bt b ->
      0 < pairs_in (pair_code a b) css ->
      (forall a' b', 0 <= a' < 256 -> 0 <= b' < 256 -> pairs_in (pair_code a' b') css <= pairs_in (pair_code a b) css) ->
      packs n (MkBest (<[n := (a, b)]> (best_table bt)) (<[n := 2]> (best_table_len bt))) (replace_pair (Z.of_nat n) a b <$> css)
        bt' css' ->
      packs (S n) bt css bt' css'.

Lemma Forall2_with {A B} (P : A -> Prop) (R : A -> B -> Prop) l k :
  Forall P l -> Forall2 R l k -> Forall2 (fun x y => P x /\ R x y) l k.
Proof. intros HP HR. induction HR; [done|]. apply Forall_cons in HP as [? ?]. by constructor; [|apply IHHR]. Qed.

Section greedy.
Context (m : nat) (texts : list (list Z)).

Definition text_ok (t : list Z) : Prop := t <> [] /\ Forall (fun c => c <> 0) t /\ (length t <= m)%nat.

Hypothesis short : Forall text_ok texts.

Record gen_inv (n : nat) (bt : best) (css : list (list Z)) : Prop := {
  gi_wf : table_wf (Z.of_nat n) bt;
  gi_used : Forall (Forall (used bt)) css;
  gi_text : Forall2 (fun cs t => expand_symbol (257 - n) bt cs = Some t) css texts;
  gi_code : forall c, used bt c -> exists t, expand_symbol (257 - n) bt [c] = Some t /\ text_ok t }.

Lemma slot_weaken n n' bt c : n' <= n -> slot n bt c -> slot n' bt c.
Proof. intros Hn [b ??|b1 ???|b0 b1 ???]; [by eapply SFree|by eapply SReal|eapply SPair; eauto; lia]. Qed.

(** A slot that is in use is passed over. *)
Lemma inv_taken n bt css : gen_inv (S n) bt css -> gen_inv n bt css.
Proof.
  intros [[Hl Ht Hs] Hu Hx Hc]. assert (Hf : (257 - S n <= 257 - n)%nat) by lia. split; [|done| |].
  - split; [done|done|]. intros c Hr. eapply slot_weaken; [|by apply Hs]. lia.
  - eapply Forall2_impl; [exact Hx|]. intros cs t. cbn. by apply expand_more.
  - intros c (t & E & Ht')%Hc. exists t. split; [by eapply expand_more|done].
Qed.

Lemma used_nonzero n bt c : table_wf (Z.of_nat (S n)) bt -> used bt c -> c <> 0.
Proof.
  intros Hw Hu ->. destruct (wf_slot _ _ Hw 0) as [b E _|b1 _ _ H0|b0 b1 _ _ Hn]; [lia| |done|lia].
  destruct Hu as (k & E' & Hk). congruence.
Qed.

(** Giving a free slot to a pair of codes in use. *)
Section new_slot.
Context (n : nat) (bt : best) (css : list (list Z)) (a b : Z).
Hypothesis inv : gen_inv (S n) bt css.
Hypothesis small : (n < 256)%nat.
Hypothesis free : zget (best_table_len bt) (Z.of_nat n) = Some 0.
Hypothesis ua : used bt a.
Hypothesis ub : used bt b.

Definition bt_new : best := MkBest (<[n := (a, b)]> (best_table bt)) (<[n := 2]> (best_table_len bt)).

Lemma new_at : zget (best_table bt_new) (Z.of_nat n) = Some (a, b) /\ zget (best_table_len bt_new) (Z.of_nat n) = Some 2.
Proof.
  destruct (gi_wf _ _ _ inv) as [Hl Ht _]. unfold zget. rewrite (proj2 (Z.leb_le 0 _)), Nat2Z.id by lia. cbn.
  split; apply list_lookup_insert_eq; lia.
Qed.

Lemma new_other c : c <> Z.of_nat n ->
  zget (best_table bt_new) c = zget (best_table bt) c /\ zget (best_table_len bt_new) c = zget (best_table_len bt) c.
Proof.
  intros Hc. unfold zget. destruct (Z.leb_spec 0 c); [|done]. cbn.
  split; apply list_lookup_insert_ne; lia.
Qed.

Lemma used_not_new c : used bt c -> c <> Z.of_nat n.
Proof. intros (k & E & Hk) ->. congruence. Qed.

Lemma used_new c : used bt_new c <-> c = Z.of_nat n \/ used bt c.
Proof.
  destruct (decide (c = Z.of_nat n)) as [->|Hc].
  - split; [by left|]. intros _. exists 2. split; [apply new_at|done].
  - unfold used. rewrite (proj2 (new_other c Hc)). split; [by right|by intros [?|?]].
Qed.

Lemma new_wf : table_wf (Z.of_nat n) bt_new.
Proof.
  destruct (gi_wf _ _ _ inv) as [Hl Ht Hs]. split; [by cbn; rewrite length_insert|by cbn; rewrite length_insert|].
  assert (U : forall c, used bt c -> used bt_new c) by (intros; apply used_new; by right).
  intros c Hc. destruct (decide (c = Z.of_nat n)) as [->|Hn].
  - destruct new_at. eapply SPair; eauto. lia.
  - destruct (new_other c Hn) as [E1 E2].
    destruct (Hs c Hc) as [b' El Eb|b1 El Eb|b0 b1 El Eb]; rewrite <- E1 in Eb; rewrite <- E2 in El;
      [by eapply SFree|by eapply SReal|eapply SPair; eauto; lia].
Qed.

Lemma new_expand fuel data : Forall (used bt) data -> expand_symbol fuel bt_new data = expand_symbol fuel bt data.
Proof. apply (expand_stable _ _ _ _ _ (gi_wf _ _ _ inv)). intros c Hc. by apply new_other, used_not_new. Qed.

Lemma new_code fuel : expand_symbol (S fuel) bt_new [Z.of_nat n] = expand_symbol fuel bt_new [a; b].
Proof.
  rewrite expand_S. cbn [mapM]. unfold code_text. destruct new_at as [-> ->]. cbn [mbind option_bind].
  rewrite andb_false_r. change (take (Z.to_nat 2) [a; b]) with [a; b].
  destruct (expand_symbol fuel bt_new [a; b]); [|done]. cbn. by rewrite app_nil_r.
Qed.

(** The replacement keeps the text. *)
Lemma replace_expand fuel data t : expand_symbol fuel bt_new data = Some t ->
  expand_symbol (S fuel) bt_new (replace_pair (Z.of_nat n) a b data) = Some t.
Proof.
  remember (length data) as k eqn:Hk. revert data t Hk. induction (lt_wf k) as [k _ IH]. intros data t -> H.
  destruct data as [|x [|y l]]; [by eapply expand_more; [|exact H]; lia|by eapply expand_more; [|exact H]; lia|].
  rewrite replace_cons. destruct (Z.eqb_spec x a) as [->|_]; [destruct (Z.eqb_spec y b) as [->|_]|]; cbn [andb].
  1: { apply (expand_app_inv _ _ [a; b] l) in H as (t1 & t2 & -> & H1 & H2).
       apply (expand_app _ _ [_] _); [by rewrite new_code|]. eapply IH; [|done|done]. cbn. lia. }
  all: match goal with |- context [?c :: replace_pair _ _ _ _] => apply (expand_app_inv _ _ [c] (y :: l)) in H as (t1 & t2 & -> & H1 & H2) end;
    apply (expand_app _ _ [_] _); [by eapply expand_more; [|exact H1]; lia|eapply IH; [|done|done]; cbn; lia].
Qed.

Lemma replace_used data : Forall (used bt) data -> Forall (used bt_new) (replace_pair (Z.of_nat n) a b data).
Proof.
  remember (length data) as k eqn:Hk. revert data Hk. induction (lt_wf k) as [k _ IH]. intros data -> H.
  assert (U : forall c, used bt c -> used bt_new c) by (intros; apply used_new; by right).
  destruct data as [|x [|y l]]; [done|eapply Forall_impl; [exact H|done]|].
  rewrite replace_cons. apply Forall_cons in H as [Hx H]. destruct (_ && _).
  - apply Forall_cons in H as [_ H]. constructor; [apply used_new; by left|]. eapply IH; [|done|done]. cbn. lia.
  - constructor; [by apply U|]. eapply IH; [|done|done]. cbn. lia.
Qed.

Lemma inv_new : (exists cs u v, cs ∈ css /\ cs = u ++ a :: b :: v) -> gen_inv n bt_new (replace_pair (Z.of_nat n) a b <$> css).
Proof.
  intros (cs & u & v & Hin & ->). destruct inv as [Hw Hu Hx Hc]. split.
  - apply new_wf.
  - apply Forall_fmap. eapply Forall_impl; [exact Hu|]. intros. by apply replace_used.
  - apply Forall2_fmap_l. eapply Forall2_impl; [exact (Forall2_with _ _ _ _ Hu Hx)|]. intros cs t [Hcs E]. cbn.
    replace (257 - n)%nat with (S (257 - S n)) by lia. apply replace_expand. by rewrite new_expand.
  - intros c [->|Hu']%used_new.
    + destruct (Hc a ua) as (ta & Ea & Na & Za & _), (Hc b ub) as (tb & Eb & _ & Zb & _).
      pose proof (expand_app _ _ [a] [b] _ _ Ea Eb) as Eab. cbn [app] in Eab.
      exists (ta ++ tb). replace (257 - n)%nat with (S (257 - S n)) by lia.
      rewrite new_code, new_expand by (by repeat constructor). split; [done|]. split_and!; [by destruct ta|by apply Forall_app|].
      apply list_elem_of_lookup in Hin as [i Hi]. destruct (Forall2_lookup_l _ _ _ _ _ Hx Hi) as (t & Ht & E).
      apply (expand_app_inv _ _ u) in E as (t1 & t2 & -> & _ & E). apply (expand_app_inv _ _ [a; b]) in E as (t3 & t4 & -> & E & _).
      rewrite Eab in E. apply (inj Some) in E as <-. destruct (Forall_lookup_1 _ _ _ _ short Ht) as (_ & _ & Hm).
      rewrite !length_app in *. lia.
    + destruct (Hc c Hu') as (t & E & Ht). exists t. split; [|done]. eapply expand_more; [|by rewrite new_expand; [exact E|by constructor]]. lia.
Qed.
End new_slot.

Lemma rev_seqZ n : rev (seqZ 0 (Z.of_nat (S n))) = Z.of_nat n :: rev (seqZ 0 (Z.of_nat n)).
Proof.
  replace (Z.of_nat (S n)) with (Z.of_nat n + 1) by lia. rewrite seqZ_app by lia. rewrite rev_app_distr. done.
Qed.

Lemma inv_bytes n bt css : gen_inv n bt css -> Forall bytes css.
Proof.
  intros [Hw Hu _ _]. eapply Forall_impl; [exact Hu|]. intros cs Hcs. eapply Forall_impl; [exact Hcs|].
  intros c Hc. by eapply used_range.
Qed.

(** The loop gives every free slot to the most frequent pair, and the names
    keep their text. *)
Lemma optimize_loop_spec n bt css t p :
  (n <= 256)%nat -> gen_inv n bt css -> Forall2 holds_codes t css -> counted p css ->
  exists bt' t' p' css', optimize_loop (rev (seqZ 0 (Z.of_nat n))) bt t p = Some (bt', t', p') /\
    packs n bt css bt' css' /\ Forall2 holds_codes t' css' /\ counted p' css' /\ se_addr <$> t' = se_addr <$> t /\
    exists n', gen_inv n' bt' css'.
Proof.
  revert bt css t p. induction n as [|n IH]; intros bt css t p Hn Hi Ht Hp.
  { exists bt, t, p, css. split_and!; [done|constructor|done|done|done|by exists 0%nat]. }
  rewrite rev_seqZ. cbn [optimize_loop]. pose proof (gi_wf _ _ _ Hi) as Hw.
  destruct (zget_is_Some (best_table_len bt) (Z.of_nat n)) as [k Hk]; [rewrite (wf_len _ _ Hw); lia|].
  rewrite Hk. cbn [mbind option_bind]. 
  assert (Hbest : forall i, 0 <= i < 65536 -> profit_at p i <= profit_at p (find_best_token p)).
  { intros i Hr. refine (proj1 (find_best_token_max p i Hr _)). intros j. rewrite Hp. apply pairs_in_nonneg. }
  generalize dependent (find_best_token p). intros best Hbest. destruct (Z.eqb_spec k 0) as [->|Hk0].
  2: { destruct (IH bt css t p) as (bt' & t' & p' & css' & E & Hpk & R); [lia|by apply inv_taken|done|done|].
       exists bt', t', p', css'. split; [done|]. split; [|done]. apply PTaken; [|done]. by exists k. }
  destruct (Z.eqb_spec (profit_at p best) 0) as [E0|E0].
  { exists bt, t, p, css. split_and!; [done| |done|done|done|by exists (S n)]. apply PNone; [done|]. intros a b Ha Hb.
    pose proof (Hbest (pair_code a b) (pair_code_range a b Ha Hb)) as Hm. pose proof (pairs_in_nonneg (pair_code a b) css) as H0.
    rewrite <- Hp in *. lia. }
  destruct (best_pair p css best Hbest Hp (inv_bytes _ _ _ Hi) E0) as (Hin & Ec & Hmax). set (t0 := Z.land best 255) in *.
  set (t1 := Z.land (Z.shiftr best 8) 255) in *.
  rewrite !zset_is_Some by (rewrite ?(wf_len _ _ Hw), ?(wf_tab _ _ Hw); lia). rewrite Nat2Z.id. cbn [mbind option_bind].
  assert (used bt t0 /\ used bt t1) as [U0 U1].
  { destruct Hin as (cs & u & v & Hin & ->). pose proof (proj1 (Forall_forall _ _) (gi_used _ _ _ Hi) _ Hin) as Hu.
    apply Forall_app in Hu as [_ Hu]. apply Forall_cons in Hu as [? Hu]. by apply Forall_cons in Hu as [? _]. }
  destruct (compress_symbols_spec (Z.of_nat n) t0 t1 (used_nonzero _ _ _ Hw U0) (used_nonzero _ _ _ Hw U1) t css p Ht)
    as (t2 & p2 & -> & Ht2 & Ha2 & Hp2). cbn [mbind option_bind].
  destruct (IH (bt_new n bt t0 t1) (replace_pair (Z.of_nat n) t0 t1 <$> css) t2 p2) as (bt' & t' & p' & css' & E & Hpk & R1 & R2 & R3 & R4);
    [lia|by apply inv_new|done|intros i; rewrite Hp2, Hp; lia|].
  exists bt', t', p', css'. split; [exact E|]. split_and!; [|done|done|by rewrite R3|done].
  apply (PPair n bt css t0 t1); [done|done|done| |done|done].
  rewrite Ec, <- Hp. pose proof (pairs_in_nonneg best css) as H0. rewrite <- Hp in H0. lia.
Qed.
End greedy.

(** ** The characters of the names *)

Lemma real_slot bt c : table_wf 256 bt -> used bt c -> exists b1, zget (best_table_len bt) c = Some 1 /\ zget (best_table bt) c = Some (c, b1).
Proof.
  intros Hw Hu. pose proof (used_range _ _ _ Hw Hu) as Hc. destruct (wf_slot _ _ Hw c Hc) as [b E _|b1 E Eb _|b0 b1 _ _ Hn]; [| |lia].
  - destruct Hu as (k & E' & Hk). congruence.
  - by exists b1.
Qed.

Lemma insert_char_spec bt c : table_wf 256 bt -> 0 < c < 256 ->
  exists bt', insert_char bt c = Some bt' /\ table_wf 256 bt' /\ used bt' c /\ forall d, used bt d -> used bt' d.
Proof.
  intros Hw Hc. pose proof (wf_len _ _ Hw) as Hl. pose proof (wf_tab _ _ Hw) as Ht. unfold insert_char.
  destruct (zget_is_Some (best_table bt) c) as [[b0 b1] Hg]; [rewrite Ht; lia|]. rewrite Hg. cbn [mbind option_bind].
  destruct (zset (best_table bt) c (c, b1)) as [chars|] eqn:E1; [|rewrite zset_is_Some in E1 by (rewrite Ht; lia); done].
  destruct (zset (best_table_len bt) c 1) as [lens|] eqn:E2; [|rewrite zset_is_Some in E2 by (rewrite Hl; lia); done].
  cbn [mbind option_bind]. exists (MkBest chars lens). pose proof (zget_zset_eq _ _ _ _ E1) as G1. pose proof (zget_zset_eq _ _ _ _ E2) as G2.
  assert (Hd : forall d, used bt d -> used (MkBest chars lens) d).
  { intros d (k & Ek & Hk). destruct (decide (c = d)) as [<-|Hne]; [by exists 1|]. exists k. cbn. by rewrite (zget_zset_ne _ _ _ _ _ E2 Hne). }
  split_and!; [done| |by exists 1|done].
  apply zset_Some_inv in E1 as Z1. apply zset_Some_inv in E2 as Z2. destruct Z1 as [_ ->], Z2 as [_ ->].
  split; [by cbn; rewrite length_insert|by cbn; rewrite length_insert|]. intros d Hr. destruct (decide (c = d)) as [<-|Hne].
  - eapply SReal; [exact G2|exact G1|lia].
  - pose proof (zget_zset_ne _ _ _ _ _ E1 Hne) as N1. pose proof (zget_zset_ne _ _ _ _ _ E2 Hne) as N2.
    destruct (wf_slot _ _ Hw d Hr) as [b El Eb|b' El Eb|x y El Eb]; [|eapply SReal; cbn; [by rewrite N2|by rewrite N1|done]|lia].
    eapply SFree; cbn; [by rewrite N2|by rewrite N1].
Qed.

Lemma insert_chars_spec cs bt : table_wf 256 bt -> Forall (fun c => 0 < c < 256) cs ->
  exists bt', insert_chars cs bt = Some bt' /\ table_wf 256 bt' /\ (forall d, used bt d \/ d ∈ cs -> used bt' d).
Proof.
  intros Hw H. revert bt Hw. induction H as [|c cs Hc _ IH]; intros bt Hw; cbn [insert_chars].
  { exists bt. split_and!; [done|done|]. by intros d [?|?%not_elem_of_nil]. }
  destruct (insert_char_spec bt c Hw Hc) as (bt1 & -> & Hw1 & Hu & Hd). cbn [mbind option_bind].
  destruct (IH bt1 Hw1) as (bt' & -> & Hw' & Hd'). exists bt'. split_and!; [done|done|].
  intros d [?|[->|?]%elem_of_cons]; apply Hd'; eauto.
Qed.

Lemma zget_replicate {A} (x : A) n i : 0 <= i < Z.of_nat n -> zget (replicate n x) i = Some x.
Proof. intros H. unfold zget. rewrite (proj2 (Z.leb_le 0 i)) by lia. apply lookup_replicate_2. lia. Qed.

Lemma empty_wf : table_wf 256 (MkBest (replicate 256 (0, 0)) (replicate 256 0)).
Proof.
  split; [done|done|]. intros c Hc. apply (SFree _ _ _ (0, 0)); cbn [best_table best_table_len]; apply zget_replicate; lia.
Qed.

Lemma real_expand bt cs : table_wf 256 bt -> Forall (used bt) cs -> expand_symbol 1 bt cs = Some cs.
Proof.
  intros Hw H. rewrite expand_S.
  assert (E : mapM (code_text 0 bt) cs = Some ((fun c => [c]) <$> cs)).
  { apply mapM_Some. apply Forall2_fmap_r. induction H as [|c cs Hc _ IH]; [done|]. constructor; [|done].
    unfold code_text. destruct (real_slot bt c Hw Hc) as (b1 & -> & ->). cbn [mbind option_bind]. by rewrite !Z.eqb_refl. }
  rewrite E. cbn [mbind option_bind]. f_equal. clear. induction cs; cbn; congruence.
Qed.

(** The table before the first pass. *)
Lemma initial_inv m t css : Forall2 holds_codes t css -> Forall (text_ok m) css -> Forall bytes css -> (0 < m)%nat ->
  exists bt, insert_real_symbols_in_table t = Some bt /\ gen_inv m css 256 bt css.
Proof.
  intros Ht Hok Hb Hm. unfold insert_real_symbols_in_table.
  assert (Ecs : t ≫= sym_codes = concat css).
  { clear Hok Hb. induction Ht as [|s cs t css Hs _ IH]; [done|]. cbn. by rewrite IH, (holds_sym_codes s cs Hs). }
  rewrite Ecs. destruct (insert_chars_spec (concat css) _ empty_wf) as (bt & -> & Hw & Hu).
  { apply Forall_concat. clear Ecs Ht. induction Hok as [|cs css (_ & Hz & _) _ IH]; [constructor|].
    apply Forall_cons in Hb as [Hcs Hb]. constructor; [|by apply IH].
    eapply Forall_impl; [apply Forall_and; exact (conj Hz Hcs)|]. intros c [? ?]. cbn in *. lia. }
  exists bt. split; [done|]. assert (Hus : Forall (Forall (used bt)) css).
  { apply Forall_forall. intros cs Hcs. apply Forall_forall. intros c Hc. apply Hu. right. apply list_elem_of_In, in_concat.
    exists cs. by rewrite <- !list_elem_of_In. }
  change (257 - 256)%nat with 1%nat. split; [done|done| |].
  - apply Forall2_same_length_lookup_2; [done|]. intros i x y Hx Hy. simplify_eq. apply real_expand; [done|].
    by apply (Forall_lookup_1 _ _ _ _ Hus Hx).
  - intros c Hc. exists [c]. split; [apply real_expand; [done|by constructor]|]. destruct (real_slot bt c Hw Hc) as (b1 & El & Eb).
    split_and!; [done| |cbn; lia]. constructor; [|done]. intros ->.
    destruct (wf_slot _ _ Hw 0) as [? E' _|? _ _ ?|? ? _ _ Hn]; [lia|congruence|done|lia].
Qed.

Lemma initial_count t css p : Forall2 holds_codes t css ->
  forall i, profit_at (foldl (fun p s => learn_symbol (se_sym s) (se_len s) p) p t) i = profit_at p i + pairs_in i css.
Proof.
  intros H. revert p. induction H as [|s cs t css Hs _ IH]; intros p i; cbn [foldl pairs_in foldr]; [lia|].
  rewrite IH. unfold learn_symbol. rewrite count_pairs_at. fold (sym_codes s). rewrite (holds_sym_codes s cs Hs).
  fold (pairs_in i css). lia.
Qed.

(** The whole compression of some valid symbols. *)
Lemma compression all_symbols prefix trs t css m :
  let valid := filter (fun s => symbol_valid all_symbols prefix trs s = true) t in
  valid <> [] -> Forall2 holds_codes valid css -> Forall (text_ok m) css -> Forall bytes css -> (0 < m)%nat ->
  exists bt0 bt t' css', insert_real_symbols_in_table valid = Some bt0 /\
    optimize_token_table all_symbols prefix trs t = Some (bt, t') /\ packs 256 bt0 css bt css' /\
    Forall2 holds_codes t' css' /\ se_addr <$> t' = se_addr <$> valid /\ exists n, gen_inv m css n bt css'.
Proof.
  intros valid Hne Hv Hok Hb Hm. unfold optimize_token_table, build_initial_tok_table. fold valid.
  destruct (initial_inv m valid css Hv Hok Hb Hm) as (bt0 & E0 & Hi). rewrite E0. cbn [mbind option_bind].
  destruct (optimize_loop_spec m css Hok 256 bt0 css valid (foldl (fun p s => learn_symbol (se_sym s) (se_len s) p) ∅ valid))
    as (bt & t' & p' & css' & E & Hpk & Ht' & _ & Ha & n & Hn); [lia|done|done| |].
  { intros i. rewrite (initial_count _ css) by done. done. }
  exists bt0, bt, t', css'. split; [done|]. split; [|split_and!; [done|done|done|by exists n]].
  unfold optimize_result. change (Z.of_nat 256) with 256 in E. rewrite E. by destruct valid.
Qed.

(** ** The tables that are written *)

Lemma c_string_app t rest : Forall (fun c => c <> 0) t -> c_string (t ++ 0 :: rest) = Some t.
Proof. induction 1 as [|c t Hc _ IH]; [done|]. cbn. destruct (Z.eqb_spec c 0); [done|]. by rewrite IH. Qed.

Lemma token_offset texts off i x : texts !! i = Some x ->
  token_offsets off texts !! i = Some (off + Z.of_nat (length (concat ((fun x => x ++ [0]) <$> take i texts)))).
Proof.
  revert off i. induction texts as [|y texts IH]; intros off i H; [done|]. destruct i as [|i]; cbn in *; [f_equal; lia|].
  rewrite (IH _ _ H). f_equal. rewrite !length_app. cbn. lia.
Qed.

Section tables.
Context (m n : nat) (texts : list (list Z)) (bt : best) (css : list (list Z)).
Hypothesis M : (m < 128)%nat.
Hypothesis inv : gen_inv m texts n bt css.

(** The text of a slot. *)
Lemma slot_text_of c : 0 <= c < 256 -> exists x, slot_text bt c = Some x /\ Forall (fun c => c <> 0) x /\ (length x <= m)%nat /\
  (used bt c -> x <> [] /\ expand_symbol expand_fuel bt [c] = Some x).
Proof.
  intros Hc. destruct inv as [Hw _ _ Hcode].
  assert (Hx : exists b0 b1 k x, zget (best_table bt) c = Some (b0, b1) /\ zget (best_table_len bt) c = Some k /\
    expand_symbol expand_fuel bt (take (Z.to_nat k) [b0; b1]) = Some x /\ Forall (fun c => c <> 0) x /\ (length x <= m)%nat /\
    (used bt c -> x <> [] /\ expand_symbol expand_fuel bt [c] = Some x)).
  { assert (Hf : (257 - n <= expand_fuel)%nat) by (unfold expand_fuel; lia).
    destruct (wf_slot _ _ Hw c Hc) as [[b0 b1] El Eb|b1 El Eb|b0 b1 El Eb _ U0 U1].
    - exists b0, b1, 0, []. split_and!; [done|done|done|constructor|cbn; lia|]. intros (k & Ek & Hk). congruence.
    - destruct (Hcode c) as (t & E & N & Z & L); [by exists 1|]. pose proof (expand_more _ _ _ _ _ Hf E) as E'.
      exists c, b1, 1, t. by split_and!.
    - destruct (Hcode c) as (t & E & N & Z & L); [by exists 2|]. pose proof (expand_more _ _ _ _ _ Hf E) as E'.
      exists b0, b1, 2, t. split_and!; try done.
      destruct (257 - n)%nat as [|f] eqn:Ef; [done|]. rewrite expand_S in E. cbn [mapM] in E. unfold code_text in E.
      rewrite El, Eb in E. cbn [mbind option_bind] in E. rewrite andb_false_r in E.
      destruct (expand_symbol f bt (take (Z.to_nat 2) [b0; b1])) as [t'|] eqn:Et; [|done]. cbn in E. rewrite app_nil_r in E.
      apply (inj Some) in E as <-. eapply expand_more; [|exact Et]. unfold expand_fuel. lia. }
  destruct Hx as (b0 & b1 & k & x & Eb & El & E & Z & L & U). exists x. split_and!; [|done|done|done].
  unfold slot_text. rewrite Eb, El. cbn [mbind option_bind]. rewrite E. cbn [mbind option_bind].
  rewrite (proj2 (Z.ltb_lt _ _)) by (unfold KSYM_NAME_LEN; lia). by rewrite cstr_app.
Qed.

(** The 256 texts, short enough for the offsets. *)
Lemma slot_texts : exists xs, mapM (slot_text bt) (seqZ 0 256) = Some xs /\ length xs = 256%nat /\
  Forall (fun x => Forall (fun c => c <> 0) x /\ (length x <= m)%nat) xs.
Proof.
  assert (H : forall l, Forall (fun c => 0 <= c < 256) l -> exists xs, mapM (slot_text bt) l = Some xs /\ length xs = length l /\
    Forall (fun x => Forall (fun c => c <> 0) x /\ (length x <= m)%nat) xs).
  { induction 1 as [|c l Hc _ (xs & E & L & F)]; [by exists []|]. destruct (slot_text_of c Hc) as (x & Ex & Hx & Hl & _).
    exists (x :: xs). cbn [mapM]. rewrite Ex, E. cbn. split_and!; [done|by rewrite L|by constructor]. }
  destruct (H (seqZ 0 256)) as (xs & E & L & F); [|exists xs; split_and!; [done|by rewrite L, length_seqZ|done]].
  apply Forall_forall. intros c Hc%elem_of_seqZ. lia.
Qed.

Lemma concat_short (xs : list (list Z)) : Forall (fun x => Forall (fun c => c <> 0) x /\ (length x <= m)%nat) xs ->
  (length (concat ((fun x => x ++ [0%Z]) <$> xs)) <= 128 * length xs)%nat.
Proof.
  induction 1 as [|x xs [_ Hx] _ IH]; [done|].
  change (concat _) with ((x ++ [0]) ++ concat ((fun x => x ++ [0]) <$> xs)). rewrite !length_app. cbn [length]. lia.
Qed.

(** The kernel reads the text of a code in use. *)
Lemma token_text xs k c : mapM (slot_text bt) (seqZ 0 256) = Some xs -> length xs = 256%nat ->
  Forall (fun x => Forall (fun c => c <> 0) x /\ (length x <= m)%nat) xs ->
  kallsyms_token_table k = concat ((fun x => x ++ [0]) <$> xs) -> kallsyms_token_index k = u16 <$> token_offsets 0 xs ->
  used bt c -> exists x, token k c = Some x /\ x <> [] /\ expand_symbol expand_fuel bt [c] = Some x.
Proof.
  intros E L F Et Ei Hu. pose proof (used_range _ _ _ (gi_wf _ _ _ _ _ inv) Hu) as Hc.
  destruct (slot_text_of c Hc) as (x & Ex & Hx & _ & Hux). exists x. split; [|by apply Hux].
  assert (Hl : xs !! Z.to_nat c = Some x).
  { apply mapM_Some in E. destruct (Forall2_lookup_l _ _ _ (Z.to_nat c) c E) as (x' & H' & E'); [apply lookup_seqZ; lia|]. congruence. }
  unfold token. rewrite Ei, Et. unfold zget. rewrite (proj2 (Z.leb_le 0 c)) by lia. rewrite list_lookup_fmap, (token_offset _ _ _ _ Hl).
  cbn [fmap option_fmap option_map mbind option_bind]. rewrite Z.add_0_l.
  set (pre := concat _). assert (Hp : (length pre <= 128 * 256)%nat).
  { unfold pre. etransitivity; [apply concat_short; by apply Forall_take|]. rewrite length_take. lia. }
  rewrite u16_id by lia.
  rewrite (proj2 (Z.leb_le _ _)) by lia. rewrite Nat2Z.id. rewrite <- (take_drop_middle xs _ _ Hl) at 1.
  rewrite fmap_app, concat_app. fold pre. rewrite drop_app_length. cbn [fmap list_fmap concat]. rewrite <- app_assoc. cbn [app].
  by apply c_string_app.
Qed.

End tables.

Lemma expands_codes bt k cs t :
  (forall c, used bt c -> exists x, token k c = Some x /\ x <> [] /\ expand_symbol expand_fuel bt [c] = Some x) ->
  Forall (used bt) cs -> expand_symbol expand_fuel bt cs = Some t -> expands k cs t /\ (length cs <= length t)%nat.
Proof.
  intros Hk H. revert t. induction H as [|c cs Hc _ IH]; intros t E.
  { rewrite (expand_S 257) in E. cbn in E. apply (inj Some) in E as <-. split; [|done]. by exists []. }
  apply (expand_app_inv _ _ [c] cs) in E as (t1 & t2 & -> & E1 & E2).
  destruct (IH _ E2) as ((ts & Ets & Hts & <-) & Hl), (Hk c Hc) as (x & Ex & Hx & Ex'). rewrite E1 in Ex'. apply (inj Some) in Ex' as ->.
  split; [|rewrite length_app; destruct x; [done|]; cbn; lia]. exists (x :: ts). cbn [mapM]. rewrite Ex, Ets.
  split_and!; [done|by constructor|done].
Qed.


Lemma name_directives t css : Forall2 holds_codes t css -> Forall bytes css -> Forall (fun cs => (length cs < 256)%nat) css ->
  t ≫= name_directive = stream css.
Proof.
  intros H. induction H as [|s cs t css Hs _ IH]; intros Hb Hl; [done|]. apply Forall_cons in Hb as [Hb ?]. apply Forall_cons in Hl as [Hl ?].
  cbn [mbind list_bind]. rewrite IH by done. unfold name_directive. rewrite (holds_sym_codes s cs Hs). destruct Hs as (z & _ & ->).
  change (stream (cs :: css)) with ((Z.of_nat (length cs) :: cs) ++ stream css). do 2 f_equal; [apply u8_id; lia|].
  clear -Hb. induction Hb as [|c cs Hc _ IH]; [done|]. cbn. rewrite IH. f_equal. by apply u8_id.
Qed.

Lemma sym_off_cons cs css i : sym_off (cs :: css) (S i) = Z.of_nat (length cs) + 1 + sym_off css i.
Proof. unfold sym_off, stream. cbn. rewrite length_app. lia. Qed.

Lemma sym_off_short css i : Forall (fun cs => (length cs < 128)%nat) css -> 0 <= sym_off css i <= 128 * Z.of_nat (length css).
Proof.
  intros H. revert i. induction H as [|cs css Hc _ IH]; intros i; [destruct i; done|]. destruct i as [|i]; [unfold sym_off; cbn; lia|].
  rewrite sym_off_cons. specialize (IH i). cbn [length]. lia.
Qed.

Lemma name_offset t css off i : Forall2 holds_codes t css -> Forall (fun cs => (length cs < 128)%nat) css -> 0 <= off ->
  off + 128 * Z.of_nat (length css) < 2 ^ 32 -> (i < length t)%nat -> name_offsets off t !! i = Some (off + sym_off css i).
Proof.
  intros H. revert off i. induction H as [|s cs t css Hs _ IH]; intros off i Hc Ho Hs32 Hi; [cbn in Hi; lia|].
  apply Forall_cons in Hc as [Hc ?]. cbn [name_offsets length] in *. destruct i as [|i]; [cbn; unfold sym_off; cbn; f_equal; lia|].
  destruct Hs as (z & _ & ->). cbn [lookup list_lookup].
  rewrite u32_id by lia. rewrite IH by (done || lia). rewrite sym_off_cons. f_equal. lia.
Qed.

Lemma omap_lookup_all {A B} (f : A -> option B) l j x : Forall (fun x => is_Some (f x)) l -> l !! j = Some x -> omap f l !! j = f x.
Proof.
  intros H. revert j. induction H as [|y l [z Hz] _ IH]; intros j Hj; [done|]. cbn. rewrite Hz. destruct j; cbn in *; [congruence|by apply IH].
Qed.

Lemma marker_at t css j : Forall2 holds_codes t css -> Forall (fun cs => (length cs < 128)%nat) css ->
  128 * Z.of_nat (length css) < 2 ^ 32 -> (256 * j < length t)%nat -> zget (markers t) (Z.of_nat j) = Some (sym_off css (256 * j)).
Proof.
  intros Ht Hc Hs Hj. assert (Hoff : forall i, (i < length t)%nat -> name_offsets 0 t !! i = Some (sym_off css i)).
  { intros i Hi. rewrite (name_offset t css) by (done || lia). done. }
  assert (Hd : forall i, (i < (length t + 255) / 256)%nat -> (256 * i < length t)%nat)
    by (intros i Hi; pose proof (Nat.Div0.mul_div_le (length t + 255) 256); lia).
  unfold zget. rewrite (proj2 (Z.leb_le 0 _)), Nat2Z.id by lia. unfold markers.
  rewrite (omap_lookup_all _ _ _ j); [by apply Hoff| |].
  - apply Forall_forall. intros i [_ Hi]%elem_of_seq. rewrite Hoff; [done|]. apply Hd. lia.
  - apply lookup_seq. split; [lia|]. apply Nat.div_le_lower_bound; lia.
Qed.

Lemma address_value text s : 0 <= text < 2 ^ 32 -> 0 <= se_addr s < 2 ^ 32 -> address_directive text s = se_addr s.
Proof.
  intros Ht Hs. unfold address_directive. destruct (negb _); [|apply u32_id; lia].
  destruct (Z.leb_spec text (se_addr s)).
  - unfold u64. rewrite wrapu_id, u32_id by lia. lia.
  - unfold u64. rewrite wrapu_id, u32_id by lia. lia.
Qed.

(** ** What is read and kept *)

(** The symbol of an entry that is not compressed. *)
Definition ksym_of (s : sym_entry) : ksym := MkKsym (se_addr s) (ch (se_sym s)) (sym_str s 1).

(** The symbols of the table, in its order. *)
Definition chosen (all_symbols : bool) (prefix : Z) (input : list nm_line) : list sym_entry :=
  let g := read_map prefix input in
  filter (fun s => symbol_valid all_symbols prefix (text_ranges g) s = true) (sort_symbols (table g)).

(** What [nm] writes: characters that are bytes, names that the buffers hold,
    and addresses of 32 bits. *)
Definition line_ok (l : nm_line) : Prop :=
  0 <= nm_addr l < 2 ^ 32 /\ Forall (fun c => 0 < c < 256) (nm_type l :: nm_name l) /\ (length (nm_name l) < 127)%nat.

#[export] Instance line_ok_dec l : Decision (line_ok l).
Proof. unfold line_ok. apply _. Defined.

Definition entry_of (i : nat) (l : nm_line) : sym_entry :=
  MkSym (nm_addr l) (Z.of_nat (length (nm_name l)) + 1) (Z.of_nat i) (nm_type l :: nm_name l ++ [0]).

Definition bound_names : list (list Z) :=
  bytes_of <$> ["_stext"; "_etext"; "_sinittext"; "_einittext"; "_stext_l1"; "_etext_l1"; "_stext_l2"; "_etext_l2"]%string.

(** Which lines are kept: it depends on the line alone. *)
Definition keeps (prefix : Z) (l : nm_line) : bool :=
  let sym := skip_prefix prefix (nm_name l) in
  bool_decide (sym = bytes_of "_text") || bool_decide (sym ∈ bound_names) ||
  (if toupper (nm_type l) =? 65 then bool_decide (sym ∈ useful_absolute)
   else negb ((toupper (nm_type l) =? 85) || is_arm_mapping_symbol sym || (ch (nm_name l) =? 36) || (nm_type l =? 78))).

Lemma read_symbol_tr_names sym addr trs :
  (fun tr => (stext tr, etext tr)) <$> (read_symbol_tr sym addr trs).1 = (fun tr => (stext tr, etext tr)) <$> trs /\
  (read_symbol_tr sym addr trs).2 = negb (bool_decide (sym ∈ trs ≫= (fun tr => [stext tr; etext tr]))).
Proof.
  induction trs as [|tr trs [IH1 IH2]]; [done|]. cbn [read_symbol_tr mbind list_bind].
  destruct (bool_decide_reflect (sym = stext tr)) as [H1|H1]; [|destruct (bool_decide_reflect (sym = etext tr)) as [H2|H2]].
  - split; [done|]. rewrite bool_decide_true; [done|]. subst. apply elem_of_cons. by left.
  - split; [done|]. rewrite bool_decide_true; [done|]. subst. apply elem_of_cons. right. apply elem_of_cons. by left.
  - destruct (read_symbol_tr sym addr trs) as [trs' r]. cbn in *. split; [by rewrite IH1|]. rewrite IH2. f_equal.
    apply bool_decide_ext. rewrite !elem_of_cons. split; [by auto|by intros [?|[?|?]]].
Qed.

Definition range_names (g : gen) : list (list Z) := text_ranges g ≫= (fun tr => [stext tr; etext tr]).

Lemma names_of_ranges trs : trs ≫= (fun tr => [stext tr; etext tr]) = ((fun tr => (stext tr, etext tr)) <$> trs) ≫= (fun '(a, b) => [a; b]).
Proof. induction trs as [|tr trs IH]; [done|]. cbn. by rewrite IH. Qed.

(** One line: the names of the bounds stay, and the line is added when it is
    kept. *)
Lemma read_symbol_spec prefix l g : range_names g = bound_names ->
  let g' := read_symbol prefix l g in
  range_names g' = bound_names /\ (g_text g' = g_text g \/ g_text g' = nm_addr l) /\
  table g' = if keeps prefix l then table g ++ [entry_of (length (table g)) l] else table g.
Proof.
  intros Hg. unfold read_symbol, keeps. set (sym := skip_prefix prefix (nm_name l)).
  destruct (read_symbol_tr_names sym (nm_addr l) (text_ranges g)) as [H1 H2].
  destruct (read_symbol_tr sym (nm_addr l) (text_ranges g)) as [trs r]. cbn [fst snd] in *. fold (range_names g) in H2. rewrite Hg in H2.
  assert (Hr : trs ≫= (fun tr => [stext tr; etext tr]) = bound_names) by (rewrite names_of_ranges, H1, <- names_of_ranges; done).
  cbv zeta. destruct (bool_decide_reflect (sym = bytes_of "_text")) as [_|_]; cbn [orb].
  { split_and!; [exact Hg|by right|reflexivity]. }
  rewrite H2. destruct (bool_decide_reflect (sym ∈ bound_names)) as [_|_]; cbn [negb orb].
  { split_and!; [exact Hr|by left|reflexivity]. }
  destruct (_ =? 65); [destruct (bool_decide _); (split_and!; [exact Hg|by left|reflexivity])|].
  destruct (_ =? 85), (is_arm_mapping_symbol sym), (_ =? 36), (_ =? 78); cbn [orb negb];
    (split_and!; [exact Hg|by left|reflexivity]).
Qed.

Lemma read_map_spec prefix input :
  let g := read_map prefix input in
  range_names g = bound_names /\ table g = imap entry_of (filter (fun l => keeps prefix l = true) input) /\
  (Forall line_ok input -> 0 <= g_text g < 2 ^ 32).
Proof.
  cbv zeta. induction input as [|l input (Hr & Ht & Hx)] using rev_ind; [cbn; split_and!; [done|done|lia]|].
  unfold read_map in *. rewrite foldl_app. cbn [foldl]. set (g := foldl _ gen0 input) in *.
  destruct (read_symbol_spec prefix l g Hr) as (H1 & H2 & H3). split_and!; [done| |].
  - rewrite H3, filter_app, imap_app, Ht. rewrite filter_cons, filter_nil, length_imap.
    destruct (keeps prefix l), (decide (_ = true)); try done; cbn [imap]; [by rewrite Nat.add_0_r|by rewrite app_nil_r].
  - intros [Hi Hl]%Forall_app. apply Forall_cons in Hl as [Hl _]. specialize (Hx Hi). destruct H2 as [->| ->]; [done|apply Hl].
Qed.

(** ** The order *)

Lemma compare_swap a b : compare_symbols b a = - compare_symbols a b.
Proof.
  unfold compare_symbols.
  destruct (Z.ltb_spec (se_addr b) (se_addr a)), (Z.ltb_spec (se_addr a) (se_addr b)); try lia.
  rewrite !(Z.eqb_sym (weak b)), !(Z.eqb_sym (provided b)), !(Z.eqb_sym (underscores b)).
  repeat (destruct (negb _); [lia|]). lia.
Qed.

(** The order: the address, weak symbols behind others, then those a linker
    script may provide, then the number of underscores, then the position. *)
Definition lex_le (a b : sym_entry) : Prop :=
  se_addr a < se_addr b \/ se_addr a = se_addr b /\
  (weak a < weak b \/ weak a = weak b /\
   (provided a < provided b \/ provided a = provided b /\
    (underscores a < underscores b \/ underscores a = underscores b /\ se_start_pos a <= se_start_pos b))).

Lemma sym_le_lex a b : sym_le a b <-> lex_le a b.
Proof.
  unfold sym_le, lex_le, compare_symbols.
  destruct (Z.ltb_spec (se_addr b) (se_addr a)), (Z.ltb_spec (se_addr a) (se_addr b)); try lia.
  destruct (Z.eqb_spec (weak a) (weak b)); cbn [negb]; [|lia].
  destruct (Z.eqb_spec (provided a) (provided b)); cbn [negb]; [|lia].
  destruct (Z.eqb_spec (underscores a) (underscores b)); cbn [negb]; lia.
Qed.

#[export] Instance sym_le_total : Total sym_le.
Proof. intros a b. unfold sym_le. rewrite (compare_swap a b). lia. Qed.

#[export] Instance sym_le_trans : Transitive sym_le.
Proof. intros a b c. rewrite !sym_le_lex. unfold lex_le. lia. Qed.

Lemma sort_sorted t : StronglySorted sym_le (sort_symbols t).
Proof. apply StronglySorted_merge_sort; apply _. Qed.

Lemma sorted_filter {A} (R : A -> A -> Prop) (P : A -> Prop) `{forall x, Decision (P x)} l :
  StronglySorted R l -> StronglySorted R (filter P l).
Proof.
  induction 1 as [|x l _ IH Hx]; [constructor|]. rewrite filter_cons. case_decide; [|done]. constructor; [done|].
  apply Forall_forall. intros y [_ Hy]%list_elem_of_filter. by apply (proj1 (Forall_forall _ _) Hx).
Qed.

Lemma sorted_lookup {A} (R : A -> A -> Prop) l i j x y :
  StronglySorted R l -> (i < j)%nat -> l !! i = Some x -> l !! j = Some y -> R x y.
Proof.
  intros H. revert i j. induction H as [|z l _ IH Hz]; intros i j Hij Hi Hj; [done|].
  destruct j as [|j]; [lia|]. destruct i as [|i]; cbn in *; [|apply (IH i j); [lia|done|done]].
  simplify_eq. by apply (Forall_lookup_1 _ _ _ _ Hz Hj).
Qed.

Lemma chosen_sorted all_symbols prefix input : StronglySorted sym_le (chosen all_symbols prefix input).
Proof. apply sorted_filter, sort_sorted. Qed.

Lemma chosen_from all_symbols prefix input s : s ∈ chosen all_symbols prefix input ->
  exists i l, l ∈ input /\ keeps prefix l = true /\ s = entry_of i l.
Proof.
  unfold chosen. intros [_ H]%list_elem_of_filter. unfold sort_symbols in H. rewrite (merge_sort_Permutation sym_le) in H.
  rewrite (proj1 (proj2 (read_map_spec prefix input))) in H. apply elem_of_lookup_imap in H as (i & l & -> & Hl).
  apply list_elem_of_lookup_2, list_elem_of_filter in Hl as [Hk Hl]. by exists i, l.
Qed.

(** The entry of a line. *)
Lemma entry_facts i l : line_ok l ->
  holds_codes (entry_of i l) (nm_type l :: nm_name l) /\ ksym_of (entry_of i l) = MkKsym (nm_addr l) (nm_type l) (nm_name l) /\
  text_ok 127 (nm_type l :: nm_name l) /\ bytes (nm_type l :: nm_name l) /\ name_ok (MkKsym (nm_addr l) (nm_type l) (nm_name l)).
Proof.
  intros (Ha & Hc & Hl). assert (Hz : Forall (fun c => c <> 0) (nm_type l :: nm_name l)) by (eapply Forall_impl; [exact Hc|]; cbn; lia).
  split_and!.
  - exists 0%nat. cbn [se_sym se_len entry_of]. split; [done|]. cbn [length]. lia.
  - unfold ksym_of, sym_str, entry_of. cbn [se_addr se_sym ch]. change (Z.to_nat 1) with 1%nat. cbn [drop]. f_equal.
    apply Forall_cons in Hz as [_ Hz]. exact (cstr_app _ [] Hz).
  - split_and!; [done|done|cbn; lia].
  - eapply Forall_impl; [exact Hc|]. cbn. lia.
  - apply Forall_cons in Hz as [_ Hz]. split; [done|]. cbn. unfold KSYM_NAME_LEN. lia.
Qed.

Section generated.
Context (all_symbols : bool) (prefix : Z) (input : list nm_line).
Hypothesis lines : Forall line_ok input.

Definition name_text (s : sym_entry) : list Z := ks_type (ksym_of s) :: ks_name (ksym_of s).

Lemma chosen_facts s : s ∈ chosen all_symbols prefix input ->
  holds_codes s (name_text s) /\ text_ok 127 (name_text s) /\ bytes (name_text s) /\ name_ok (ksym_of s) /\ 0 <= se_addr s < 2 ^ 32.
Proof.
  intros (i & l & Hin & _ & ->)%chosen_from. pose proof (proj1 (Forall_forall _ _) lines _ Hin) as Hl.
  destruct (entry_facts i l Hl) as (H1 & H2 & H3 & H4 & H5). unfold name_text. rewrite H2. cbn [ks_type ks_name].
  split_and!; try done; apply Hl.
Qed.

Lemma chosen_count : (length (chosen all_symbols prefix input) <= length input)%nat.
Proof.
  unfold chosen. etransitivity; [apply length_filter|]. unfold sort_symbols. rewrite (merge_sort_Permutation sym_le).
  rewrite (proj1 (proj2 (read_map_spec prefix input))), length_imap. apply length_filter.
Qed.

(** The codes of a table expand to the names, within the bytes that count them. *)
Lemma codes_expand v n bt css k :
  gen_inv 127 (name_text <$> v) n bt css -> Forall (fun s => text_ok 127 (name_text s)) v ->
  (forall c, used bt c -> exists x, token k c = Some x /\ x <> [] /\ expand_symbol expand_fuel bt [c] = Some x) ->
  Forall2 (fun s c => expands k c (ks_type s :: ks_name s)) (ksym_of <$> v) css /\ Forall (fun cs => (length cs < 128)%nat) css.
Proof.
  intros Hi Hv Hk. pose proof (gi_used _ _ _ _ _ Hi) as Hu. pose proof (gi_text _ _ _ _ _ Hi) as Hx. apply Forall2_fmap_r in Hx.
  pose proof (Forall2_with _ _ _ _ Hu Hx) as H. clear Hu Hx Hi.
  induction H as [|cs s css v [Hcs E] _ IH]; [done|]. apply Forall_cons in Hv as [(_ & _ & Hl) Hv]. destruct (IH Hv) as [IH1 IH2].
  destruct (expands_codes bt k cs (name_text s) Hk Hcs) as [He Hle].
  { eapply expand_more; [|exact E]. unfold expand_fuel. lia. }
  split; [cbn; by constructor|]. constructor; [lia|done].
Qed.

Lemma addresses_value text t : 0 <= text < 2 ^ 32 -> Forall (fun a => 0 <= a < 2 ^ 32) (se_addr <$> t) ->
  address_directive text <$> t = se_addr <$> t.
Proof.
  intros Ht Ha. apply Forall_fmap in Ha. induction Ha as [|s t Hs _ IH]; [done|]. cbn. rewrite IH. f_equal. by apply address_value.
Qed.

Lemma chosen_order i j x y : (i <= j)%nat -> (ksym_of <$> chosen all_symbols prefix input) !! i = Some x ->
  (ksym_of <$> chosen all_symbols prefix input) !! j = Some y -> ks_addr x <= ks_addr y.
Proof.
  rewrite !list_lookup_fmap. intros Hij (a & Ha & ->)%fmap_Some (b & Hb & ->)%fmap_Some. cbn.
  destruct (decide (i = j)) as [->|]; [simplify_eq; lia|]. assert (Hlt : (i < j)%nat) by lia.
  pose proof (sorted_lookup _ _ _ _ _ _ (chosen_sorted all_symbols prefix input) Hlt Ha Hb) as Hle%sym_le_lex.
  unfold lex_le in Hle. lia.
Qed.

(** The tables of a map with few enough symbols describe the chosen ones. *)
Lemma generated st en si ei :
  chosen all_symbols prefix input <> [] -> Z.of_nat (length input) < 2 ^ 24 ->
  exists k codes, kallsyms_main all_symbols prefix input (st, en, si, ei) = Some k /\
    tables_ok k (ksym_of <$> chosen all_symbols prefix input) codes /\
    _stext k = st /\ _end k = en /\ _sinittext k = si /\ _einittext k = ei.
Proof.
  intros Hne Hcnt. set (v := chosen all_symbols prefix input) in *. pose proof chosen_facts as Hf. fold v in Hf.
  assert (Hlen : Z.of_nat (length v) < 2 ^ 24) by (pose proof chosen_count as Hc; fold v in Hc; lia).
  assert (Hv : Forall (fun s => text_ok 127 (name_text s)) v) by (apply Forall_forall; intros s Hs; by apply Hf).
  destruct (compression all_symbols prefix (text_ranges (read_map prefix input)) (sort_symbols (table (read_map prefix input)))
    (name_text <$> v) 127) as (bt0 & bt & t & css & _ & E & _ & Ht & Ha & n & Hi); [done| |by apply Forall_fmap| |lia|].
  { apply Forall2_fmap_r. apply Forall_Forall2_diag, Forall_forall. intros s Hs. by apply Hf. }
  { apply Forall_fmap, Forall_forall. intros s Hs. by apply Hf. }
  change (se_addr <$> t = se_addr <$> v) in Ha. unfold kallsyms_main. rewrite E. cbn [mbind option_bind]. unfold write_src.
  destruct (slot_texts 127 n (name_text <$> v) bt css) as (xs & Exs & Lxs & Fxs); [lia|done|]. rewrite Exs. cbn [mbind option_bind].
  eexists _, css. split; [done|]. split; [|done]. set (k := MkKsyms _ _ _ _ _ _ _ _ _ _).
  assert (Hk : forall c, used bt c -> exists x, token k c = Some x /\ x <> [] /\ expand_symbol expand_fuel bt [c] = Some x)
    by (intros c Hc; eapply (token_text 127 n (name_text <$> v) bt css); eauto; lia).
  destruct (codes_expand v n bt css k Hi Hv Hk) as [Hx Hl].
  pose proof (Forall2_length _ _ _ Ht) as L1. pose proof (Forall2_length _ _ _ Hx) as L2. rewrite length_fmap in L2.
  split; cbn [kallsyms_num_syms kallsyms_addresses kallsyms_names kallsyms_markers k].
  - rewrite length_fmap. lia.
  - rewrite length_fmap. lia.
  - rewrite <- list_fmap_compose. change (ks_addr ∘ ksym_of) with se_addr. rewrite <- Ha.
    apply addresses_value; [exact (proj2 (proj2 (read_map_spec prefix input)) lines)|].
    rewrite Ha. apply Forall_fmap, Forall_forall. intros s Hs. by apply Hf.
  - exists []. rewrite app_nil_r. apply name_directives; [done|by eapply inv_bytes|].
    eapply Forall_impl; [exact Hl|]. cbn. lia.
  - done.
  - intros j Hj. rewrite length_fmap in Hj. apply marker_at; [done|done|lia|lia].
  - apply Forall_fmap, Forall_forall. intros s Hs. by apply Hf.
  - apply Forall_fmap, Forall_forall. intros s Hs. by apply Hf.
  - apply chosen_order.
Qed.
End generated.

(** ** The generator and its reader *)

(** A count is at most the number of pairs: it fits an [int]. *)
Lemma pairs_in_bound i css : Forall (fun cs => (length cs <= 127)%nat) css -> Z.of_nat (length css) < 2 ^ 24 -> pairs_in i css < 2 ^ 31.
Proof.
  intros H Hl. assert (Hc : forall cs : list Z, cs <> [] -> pair_count i cs < Z.of_nat (length cs)).
  { induction cs as [|a [|b cs] IH]; intros Hne; [done|cbn; lia|]. specialize (IH ltac:(done)).
    change (pair_count i (a :: b :: cs)) with ((if pair_code a b =? i then 1 else 0) + pair_count i (b :: cs)).
    cbn [length] in *. destruct (_ =? _); lia. }
  assert (Hs : pairs_in i css <= 126 * Z.of_nat (length css)); [|lia].
  clear Hl. induction H as [|cs css Hcs _ IH]; [cbn; lia|]. cbn [pairs_in foldr length]. fold (pairs_in i css).
  destruct (decide (cs = [])) as [->|Hne]; [cbn; lia|]. specialize (Hc cs Hne). lia.
Qed.

(** C8: [optimize_token_table] is the greedy algorithm: on the names of the valid
    symbols it gives each free slot, from 255 down, to a pair of codes that no
    pair is more frequent than and replaces it everywhere, until no pair or no
    slot is left. The addresses stay, the codes of a name expand to it within
    258 nested calls, and the counts of the pairs at the start fit an [int]. *)
Theorem compression_greedy (all_symbols : bool) (prefix : Z) (input : list nm_line) :
  let g := read_map prefix input in
  let v := chosen all_symbols prefix input in
  Forall line_ok input -> v <> [] -> Z.of_nat (length input) < 2 ^ 24 ->
  exists bt0 bt t css, insert_real_symbols_in_table v = Some bt0 /\
    optimize_token_table all_symbols prefix (text_ranges g) (sort_symbols (table g)) = Some (bt, t) /\
    packs 256 bt0 (name_text <$> v) bt css /\ sym_codes <$> t = css /\ se_addr <$> t = se_addr <$> v /\
    Forall2 (fun cs s => expand_symbol expand_fuel bt cs = Some (name_text s)) css v /\
    (forall i, pairs_in i (name_text <$> v) < 2 ^ 31).
Proof.
  intros g v Hl Hne Hcnt. pose proof (chosen_facts all_symbols prefix input Hl) as Hf. fold v in Hf.
  assert (Hv : Forall (fun s => text_ok 127 (name_text s)) v) by (apply Forall_forall; intros s Hs; by apply Hf).
  destruct (compression all_symbols prefix (text_ranges g) (sort_symbols (table g)) (name_text <$> v) 127)
    as (bt0 & bt & t & css & E0 & E & Hp & Ht & Ha & n & Hi); [done| |by apply Forall_fmap| |lia|].
  { apply Forall2_fmap_r. apply Forall_Forall2_diag, Forall_forall. intros s Hs. by apply Hf. }
  { apply Forall_fmap, Forall_forall. intros s Hs. by apply Hf. }
  exists bt0, bt, t, css. split; [exact E0|]. split; [exact E|]. split; [exact Hp|]. split_and!; [|exact Ha| |].
  - clear -Ht. induction Ht as [|s cs t css Hs _ IH]; [done|]. cbn. by rewrite IH, (holds_sym_codes s cs Hs).
  - pose proof (gi_text _ _ _ _ _ Hi) as Hx. apply Forall2_fmap_r in Hx. eapply Forall2_impl; [exact Hx|].
    intros cs s Hs. eapply expand_more; [|exact Hs]. unfold expand_fuel. lia.
  - intros i. apply pairs_in_bound.
    + apply Forall_fmap. eapply Forall_impl; [exact Hv|]. intros s (_ & _ & Hs). exact Hs.
    + rewrite length_fmap. pose proof (chosen_count all_symbols prefix input) as Hc. fold v in Hc. lia.
Qed.

(** C24: For a map of fewer than 2^24 lines with names of fewer than 127
    characters and 32-bit addresses, of which some symbol is valid, the
    generator finishes and its tables are what the kernel relies on: they
    describe the chosen symbols in the order of the sort. *)
Theorem generated_tables (all_symbols : bool) (prefix : Z) (input : list nm_line) (st en si ei : Z) :
  Forall line_ok input -> chosen all_symbols prefix input <> [] -> Z.of_nat (length input) < 2 ^ 24 ->
  exists k codes, kallsyms_main all_symbols prefix input (st, en, si, ei) = Some k /\
    tables_ok k (ksym_of <$> chosen all_symbols prefix input) codes /\
    _stext k = st /\ _end k = en /\ _sinittext k = si /\ _einittext k = ei.
Proof. intros Hl. by apply generated. Qed.

(** The symbol that holds an address comes first among its aliases. *)
Lemma holds_first all_symbols prefix input addr p ks :
  holds (ksym_of <$> chosen all_symbols prefix input) addr p ks ->
  exists s, s ∈ chosen all_symbols prefix input /\ ks = ksym_of s /\ se_addr s <= addr /\
    forall t, t ∈ chosen all_symbols prefix input -> se_addr t <= addr -> se_addr t < se_addr s \/ se_addr t = se_addr s /\ lex_le s t.
Proof.
  intros (Hp & Hle & Hmax & Hfirst). rewrite list_lookup_fmap in Hp. apply fmap_Some in Hp as (s & Hs & ->).
  exists s. split; [by eapply list_elem_of_lookup_2|]. split; [done|]. split; [done|].
  intros t (j & Hj)%list_elem_of_lookup Ht.
  assert (Hj' : (ksym_of <$> chosen all_symbols prefix input) !! j = Some (ksym_of t)) by (by rewrite list_lookup_fmap, Hj).
  pose proof (Hmax j (ksym_of t) Hj' Ht) as Hts. cbn in Hts. destruct (decide (se_addr t < se_addr s)) as [|Hge]; [by left|].
  right. split; [lia|]. destruct (lt_eq_lt_dec j p) as [[Hlt| ->]|Hgt].
  - specialize (Hfirst j (ksym_of t) Hlt Hj'). cbn in Hfirst. lia.
  - rewrite Hs in Hj. apply (inj Some) in Hj as ->. unfold lex_le. lia.
  - apply sym_le_lex. by apply (sorted_lookup _ _ _ _ _ _ (chosen_sorted all_symbols prefix input) Hgt Hs Hj).
Qed.

(** The first symbol of a name. *)
Lemma name_first all_symbols prefix input name :
  match filter (fun s => ks_name s = name) (ksym_of <$> chosen all_symbols prefix input) with s :: _ => ks_addr s | [] => 0 end =
  match filter (fun s => sym_str s 1 = name) (chosen all_symbols prefix input) with s :: _ => se_addr s | [] => 0 end.
Proof.
  induction (chosen all_symbols prefix input) as [|s v IH]; [done|]. cbn [fmap list_fmap]. rewrite !filter_cons.
  destruct (decide (sym_str s 1 = name)) as [E|E], (decide (ks_name (ksym_of s) = name)) as [E'|E']; done.
Qed.

(** C7: The kernel reads the generated tables back: a name is found at the
    address of the first chosen symbol of that name, or as 0, and an address in
    the kernel is named after the closest chosen symbol before it; of aliases
    that is one which is not weak, which no linker script provides and which
    has the fewest underscores, in this order, if there is one. *)
Theorem generated_lookup (all_symbols : bool) (prefix : Z) (input : list nm_line) (st en si ei addr : Z) (buf name : list Z) :
  let v := chosen all_symbols prefix input in
  Forall line_ok input -> Z.of_nat (length input) < 2 ^ 24 ->
  (exists s, v !! 0%nat = Some s /\ se_addr s <= addr) -> st <= addr <= en -> addr < 2 ^ 32 -> Z.of_nat (length buf) >= KSYM_NAME_LEN ->
  exists k, kallsyms_main all_symbols prefix input (st, en, si, ei) = Some k /\
    kallsyms_lookup_name k name =
      Some (match filter (fun s => sym_str s 1 = name) v with s :: _ => se_addr s | [] => 0 end) /\
    exists s size rest, s ∈ v /\ se_addr s <= addr /\
      (forall t, t ∈ v -> se_addr t <= addr -> se_addr t < se_addr s \/ se_addr t = se_addr s /\ lex_le s t) /\
      kallsyms_lookup k addr buf = Some (Some (sym_str s 1, size, addr - se_addr s, None), sym_str s 1 ++ 0 :: rest).
Proof.
  intros v Hl Hcnt (s0 & H0 & Hle) Hr Ha Hb.
  destruct (generated all_symbols prefix input Hl st en si ei) as (k & codes & E & ok & E1 & E2 & E3 & E4); [|done|].
  { intros E. unfold v in H0. by rewrite E in H0. }
  fold v in ok. exists k. split; [exact E|]. split.
  { rewrite (lookup_name_first k _ _ ok). f_equal. apply name_first. }
  destruct (lookup_address k _ _ ok addr buf) as (p & ks & rest & Hh & Hlook & _); [| |done|done|].
  - unfold is_ksym_addr, is_kernel. rewrite E1, E2. apply andb_true_intro. split; apply Z.leb_le; lia.
  - exists (ksym_of s0). by rewrite list_lookup_fmap, H0.
  - destruct (holds_first _ _ _ _ _ _ Hh) as (s & Hs & -> & Hs' & Hmin). exists s. do 2 eexists. split_and!; [done|done|done|].
    exact Hlook.
Qed.

(** ** A small map *)

Definition small_map : list nm_line :=
  [MkNm 0 97 (bytes_of "swapper"); MkNm 3221258240 84 (bytes_of "_text"); MkNm 3221258240 84 (bytes_of "_stext");
   MkNm 3221258240 116 (bytes_of "$a"); MkNm 3221259264 87 (bytes_of "sched_clock"); MkNm 3221259264 84 (bytes_of "__sched_clock");
   MkNm 3221259264 84 (bytes_of "schedule"); MkNm 3221260000 84 (bytes_of "_etext"); MkNm 3221260000 68 (bytes_of "data")].

Lemma small_lines : Forall line_ok small_map.
Proof. apply (bool_decide_eq_true_1 _). vm_compute. reflexivity. Qed.

(** The absolute symbol, the mapping symbol and the alias of [_etext] are left
    out, and the weak symbol comes behind its aliases. *)
Example small_chosen : ksym_of <$> chosen false 0 small_map =
  [MkKsym 3221258240 84 (bytes_of "_text"); MkKsym 3221258240 84 (bytes_of "_stext"); MkKsym 3221259264 84 (bytes_of "schedule");
   MkKsym 3221259264 84 (bytes_of "__sched_clock"); MkKsym 3221259264 87 (bytes_of "sched_clock");
   MkKsym 3221260000 84 (bytes_of "_etext")].
Proof. vm_compute. reflexivity. Qed.

Lemma compression_greedy_witness :
  exists bt t, optimize_token_table false 0 (text_ranges (read_map 0 small_map)) (sort_symbols (table (read_map 0 small_map))) = Some (bt, t) /\
    se_addr <$> t = se_addr <$> chosen false 0 small_map.
Proof.
  destruct (compression_greedy false 0 small_map small_lines) as (bt0 & bt & t & css & _ & E & _ & _ & Ha & _);
    [vm_compute; discriminate|vm_compute; reflexivity|]. exists bt, t. exact (conj E Ha).
Defined.

Lemma generated_tables_witness :
  exists k codes, kallsyms_main false 0 small_map (3221258240, 3221270000, 3221262000, 3221263000) = Some k /\
    tables_ok k (ksym_of <$> chosen false 0 small_map) codes.
Proof.
  destruct (generated_tables false 0 small_map 3221258240 3221270000 3221262000 3221263000 small_lines) as (k & codes & E & ok & _);
    [vm_compute; discriminate|vm_compute; reflexivity|]. exists k, codes. exact (conj E ok).
Defined.

Lemma generated_lookup_witness :
  exists k, kallsyms_main false 0 small_map (3221258240, 3221270000, 3221262000, 3221263000) = Some k /\
    kallsyms_lookup_name k (bytes_of "sched_clock") = Some 3221259264.
Proof.
  destruct (generated_lookup false 0 small_map 3221258240 3221270000 3221262000 3221263000 3221259280 (replicate 128 0)
    (bytes_of "sched_clock") small_lines) as (k & E & En & _);
    [vm_compute; reflexivity|eexists; split; [vm_compute; reflexivity|vm_compute; discriminate]|lia|lia|vm_compute; discriminate|].
  exists k. split; [exact E|]. rewrite En. vm_compute. reflexivity.
Defined.

(** A name of 130 characters is kept and valid, and the buffers of the kernel
    do not hold it. *)
Definition long_map : list nm_line := [MkNm 3221258240 84 (replicate 130 97)].

Example long_name_kept :
  (fun s => (se_len s, symbol_valid true 0 (text_ranges (read_map 0 long_map)) s)) <$> table (read_map 0 long_map) = [(131, true)] /\
  kallsyms_expand_symbol (MkKsyms [3221258240] 1 [2; 0; 1] [0] ([84; 0] ++ replicate 130 97 ++ [0]) [0; 2] 0 0 0 0) 0 (replicate 128 0) = None.
Proof. split; vm_compute; reflexivity. Qed.

(** The ranges that the map does not have begin and end at 0: a symbol at
    address 0 counts as text. *)
Example zero_is_text :
  let bounds := (fun '(a, n) => MkNm a 84 (bytes_of n)) <$>
    [(3221258240, "_stext"); (3221260000, "_etext"); (3221262000, "_sinittext"); (3221263000, "_einittext")]%string in
  (fun s => ks_name (ksym_of s)) <$> chosen false 0 (MkNm 0 100 (bytes_of "percpu") :: MkNm 16 100 (bytes_of "next") :: bounds) =
    bytes_of <$> ["percpu"; "_stext"; "_etext"; "_sinittext"; "_einittext"]%string.
Proof. vm_compute. reflexivity. Qed.
