(* ===== verification/Softirq.v ===== *)
(** * Softirqs and tasklets

    [kernel/softirq.c] and the inline functions of [include/linux/interrupt.h]
    and [include/linux/hardirq.h] on one CPU, with the tracepoints of SEPExtract
    they contain: raising a softirq, [__do_softirq] with its restarts, entering
    and leaving an interrupt, and the tasklet queues as the linked lists they
    are.

    The softirq handlers and the tasklet functions are code elsewhere, hence
    arguments. [None] is an access to a tasklet that does not exist, outside
    [softirq_vec], or a [BUG()]. Interrupt enabling and the accounting calls have
    no effect on this state. *)

From S2P Require Import Prelude Sepext Vsprintf Linked.
From stdpp Require Import prelude gmap list.
From Stdlib Require Import ZArith Lia.

Open Scope Z_scope.
Open Scope list_scope.

(** ** The preemption counter: HARDIRQ_BITS is 9 for the 410 interrupts of OMAP *)

Definition SOFTIRQ_MASK : Z := 65280.
Definition HARDIRQ_MASK : Z := 33488896.
Definition NMI_MASK : Z := 33554432.
Definition SOFTIRQ_OFFSET : Z := 256.
Definition HARDIRQ_OFFSET : Z := 65536.
Definition SOFTIRQ_DISABLE_OFFSET : Z := 2 * SOFTIRQ_OFFSET.
Definition IRQ_EXIT_OFFSET : Z := HARDIRQ_OFFSET - 1.

Definition irq_count (c : Z) : Z := Z.land c (Z.lor (Z.lor HARDIRQ_MASK SOFTIRQ_MASK) NMI_MASK).
Definition in_interrupt (c : Z) : bool := ctrue (irq_count c).

(** Softirq numbers. *)
Definition HI_SOFTIRQ : Z := 0.
Definition TASKLET_SOFTIRQ : Z := 6.
Definition RCU_SOFTIRQ : Z := 9.
Definition NR_SOFTIRQS : Z := 10.

Definition TASKLET_STATE_SCHED : Z := 0.
Definition TASKLET_STATE_RUN : Z := 1.

(** [struct tasklet_struct] *)
Record tasklet_struct := MkTk { tk_next : Z; tk_state : Z; tk_count : Z; tk_func : Z; tk_data : Z }.

(** [struct tasklet_head]: [tail] points to [head] or to the [next] of a tasklet. *)
Inductive tail_ptr := TailHead | TailNext (t : Z).
Record tasklet_head := MkTh { th_head : Z; th_tail : tail_ptr }.

Inductive ksoftirqd_state := NoThread | Sleeping | Running.

Record cpu := MkCpu {
  preempt_count : Z;
  softirq_pending : Z;             (* __u32 *)
  softirq_vec : list Z;            (* the action of each softirq *)
  ksoftirqd : ksoftirqd_state;
  tasklets : gmap Z tasklet_struct;
  tasklet_vec : tasklet_head;
  tasklet_hi_vec : tasklet_head;
  events : list tp_event }.

Definition set_preempt_count v s := MkCpu v (softirq_pending s) (softirq_vec s) (ksoftirqd s) (tasklets s)
  (tasklet_vec s) (tasklet_hi_vec s) (events s).
Definition set_softirq_pending v s := MkCpu (preempt_count s) v (softirq_vec s) (ksoftirqd s) (tasklets s)
  (tasklet_vec s) (tasklet_hi_vec s) (events s).
Definition set_ksoftirqd v s := MkCpu (preempt_count s) (softirq_pending s) (softirq_vec s) v (tasklets s)
  (tasklet_vec s) (tasklet_hi_vec s) (events s).
Definition set_tasklets v s := MkCpu (preempt_count s) (softirq_pending s) (softirq_vec s) (ksoftirqd s) v
  (tasklet_vec s) (tasklet_hi_vec s) (events s).
Definition set_vec (hi : bool) v s := MkCpu (preempt_count s) (softirq_pending s) (softirq_vec s) (ksoftirqd s) (tasklets s)
  (if hi then tasklet_vec s else v) (if hi then v else tasklet_hi_vec s) (events s).
Definition emit e s := MkCpu (preempt_count s) (softirq_pending s) (softirq_vec s) (ksoftirqd s) (tasklets s)
  (tasklet_vec s) (tasklet_hi_vec s) (events s ++ [e]).

Definition add_preempt_count (n : Z) (s : cpu) : cpu := set_preempt_count (s32 (preempt_count s + n)) s.
Definition sub_preempt_count (n : Z) (s : cpu) : cpu := set_preempt_count (s32 (preempt_count s - n)) s.

(** ** Raising softirqs *)

Definition wakeup_softirqd (s : cpu) : cpu :=
  match ksoftirqd s with Sleeping => set_ksoftirqd Running s | _ => s end.

Definition __raise_softirq_irqoff (nr : Z) (s : cpu) : cpu :=
  set_softirq_pending (u32 (Z.lor (softirq_pending s) (u32 (Z.shiftl 1 nr)))) s.

Definition raise_softirq_irqoff (nr : Z) (s : cpu) : cpu :=
  let s := emit (tp_srvqueue nr (sem_queue_id_val SRVQ_HI_SOFTIRQ + nr) 0 QUEUE_ENQUEUE) s in
  let s := __raise_softirq_irqoff nr s in
  if in_interrupt (preempt_count s) then s else wakeup_softirqd s.

Definition raise_softirq (nr : Z) (s : cpu) : cpu := raise_softirq_irqoff nr s.

Definition open_softirq (nr action : Z) (s : cpu) : option cpu :=
  v ← zset (softirq_vec s) nr action;
  Some (MkCpu (preempt_count s) (softirq_pending s) v (ksoftirqd s) (tasklets s) (tasklet_vec s) (tasklet_hi_vec s) (events s)).

(** ** Processing softirqs: [act] runs the action at an address *)
Section do_softirq.
Context (act : Z -> cpu -> option cpu).

Definition __local_bh_disable (cnt : Z) (s : cpu) : cpu := add_preempt_count cnt s.
Definition local_bh_disable (s : cpu) : cpu := __local_bh_disable SOFTIRQ_DISABLE_OFFSET s.
Definition __local_bh_enable (cnt : Z) (s : cpu) : cpu := sub_preempt_count cnt s.
Definition _local_bh_enable (s : cpu) : cpu := __local_bh_enable SOFTIRQ_DISABLE_OFFSET s.

(** The body of the inner loop for a pending softirq. *)
Definition run_softirq (vec_nr : Z) (s : cpu) : option cpu :=
  h ← zget (softirq_vec s) vec_nr;
  let prev_count := preempt_count s in
  s ← act h (emit (tp_srvqueue h 0 0 QUEUE_DEQUEUE) s);
  h ← zget (softirq_vec s) vec_nr;
  let s := emit (tp_srvexit h) s in
  Some (if prev_count =? preempt_count s then s else set_preempt_count prev_count s).

(** The inner loop, with the numbers of the softirqs it ran: 32 iterations
    exhaust the bits of [pending]. *)
Fixpoint softirq_pass (fuel : nat) (vec_nr pending : Z) (s : cpu) : option (cpu * list Z) :=
  match fuel with
  | O => None
  | S fuel' =>
      let s := emit tp_looprestart s in
      '(s, run) ← (if ctrue (Z.land pending 1) then s ← run_softirq vec_nr s; Some (s, [vec_nr]) else Some (s, []));
      let pending := Z.shiftr pending 1 in
      if pending =? 0 then Some (s, run)
      else '(s, runs) ← softirq_pass fuel' (vec_nr + 1) pending s; Some (s, run ++ runs)
  end.

Definition MAX_SOFTIRQ_RESTART : nat := 10.

Definition queue_range (max per : Z) : tp_event :=
  tp_loopstart max per (sem_queue_id_val SRVQ_HI_SOFTIRQ) (sem_queue_id_val SRVQ_HRTIMER_SOFTIRQ).

(** From the label [restart], with what each pass ran; [n + 1] is [max_restart]. *)
Fixpoint softirq_restart (n : nat) (pending : Z) (s : cpu) : option (cpu * list (list Z)) :=
  let s := emit tp_looprestart s in
  let s := set_softirq_pending 0 s in
  let s := emit (queue_range 1 1) s in
  '(s, runs) ← softirq_pass 32 0 pending s;
  let s := emit tp_loopstop s in
  let pending := softirq_pending s in
  if ctrue pending then
    match n with
    | S n' => '(s, more) ← softirq_restart n' pending s; Some (s, runs :: more)
    | O => Some (wakeup_softirqd (emit tp_loopstop s), [runs])
    end
  else Some (emit tp_loopstop s, [runs]).

Definition __do_softirq (s : cpu) : option (cpu * list (list Z)) :=
  let pending := softirq_pending s in
  let s := __local_bh_disable SOFTIRQ_OFFSET s in
  let s := emit (queue_range (Z.of_nat MAX_SOFTIRQ_RESTART) 0) s in
  '(s, passes) ← softirq_restart (MAX_SOFTIRQ_RESTART - 1) pending s;
  Some (__local_bh_enable SOFTIRQ_OFFSET s, passes).

Definition do_softirq (s : cpu) : option (cpu * list (list Z)) :=
  if in_interrupt (preempt_count s) then Some (s, [])
  else if ctrue (softirq_pending s) then __do_softirq s else Some (s, []).

Definition local_bh_enable (s : cpu) : option (cpu * list (list Z)) :=
  let s := sub_preempt_count (SOFTIRQ_DISABLE_OFFSET - 1) s in
  '(s, passes) ← (if negb (in_interrupt (preempt_count s)) && ctrue (softirq_pending s) then do_softirq s
                  else Some (s, []));
  Some (sub_preempt_count 1 s, passes).

(** ** Interrupts: [entry] is the address of [irq_enter], which the events name;
    [tick] is [tick_check_idle], called when the idle task was interrupted *)

Definition irq_enter (entry : Z) (idle : bool) (tick : cpu -> cpu) (s : cpu) : cpu :=
  let s := emit (tp_srventry entry) s in
  let s := if idle && negb (in_interrupt (preempt_count s))
           then _local_bh_enable (tick (local_bh_disable s)) else s in
  add_preempt_count HARDIRQ_OFFSET s.

(** CONFIG_IRQ_FORCED_THREADING is not set. *)
Definition invoke_softirq (s : cpu) : option (cpu * list (list Z)) := __do_softirq s.

Definition irq_exit (entry : Z) (s : cpu) : option (cpu * list (list Z)) :=
  let s := sub_preempt_count IRQ_EXIT_OFFSET s in
  '(s, passes) ← (if negb (in_interrupt (preempt_count s)) && ctrue (softirq_pending s) then invoke_softirq s
                  else Some (s, []));
  let s := emit (tp_srvexit entry) s in
  Some (sub_preempt_count 1 s, passes).
End do_softirq.

(** ** Tasklets *)

Definition set_next (t x : Z) (m : gmap Z tasklet_struct) : option (gmap Z tasklet_struct) :=
  k ← m !! t;
  Some (<[t := MkTk x (tk_state k) (tk_count k) (tk_func k) (tk_data k)]> m).

Definition set_state (t x : Z) (m : gmap Z tasklet_struct) : option (gmap Z tasklet_struct) :=
  k ← m !! t;
  Some (<[t := MkTk (tk_next k) x (tk_count k) (tk_func k) (tk_data k)]> m).

Definition vec (hi : bool) (s : cpu) : tasklet_head := if hi then tasklet_hi_vec s else tasklet_vec s.
Definition vec_softirq (hi : bool) : Z := if hi then HI_SOFTIRQ else TASKLET_SOFTIRQ.
Definition vec_queue (hi : bool) : Z := sem_queue_id_val (if hi then SRVQ_TASKLET_HI else SRVQ_TASKLET).

(** [t->next = NULL; *tail = t; tail = &(t->next);] on [tasklet_vec], or on
    [tasklet_hi_vec] if [hi]. *)
Definition tasklet_append (hi : bool) (t : Z) (s : cpu) : option cpu :=
  m ← set_next t 0 (tasklets s);
  match th_tail (vec hi s) with
  | TailHead => Some (set_vec hi (MkTh t (TailNext t)) (set_tasklets m s))
  | TailNext u =>
      m ← set_next u t m;
      Some (set_vec hi (MkTh (th_head (vec hi s)) (TailNext t)) (set_tasklets m s))
  end.

(** [__tasklet_schedule] and [__tasklet_hi_schedule] *)
Definition __tasklet_schedule (hi : bool) (t : Z) (s : cpu) : option cpu :=
  s ← tasklet_append hi t s; Some (raise_softirq_irqoff (vec_softirq hi) s).

(** [tasklet_schedule] and [tasklet_hi_schedule] *)
Definition tasklet_schedule (hi : bool) (t : Z) (s : cpu) : option cpu :=
  k ← tasklets s !! t;
  if test_bit TASKLET_STATE_SCHED (tk_state k) then Some s
  else
    m ← set_state t (set_bit TASKLET_STATE_SCHED (tk_state k)) (tasklets s);
    __tasklet_schedule hi t (set_tasklets m s).

Definition __tasklet_hi_schedule_first (t : Z) (s : cpu) : option cpu :=
  m ← set_next t (th_head (tasklet_hi_vec s)) (tasklets s);
  let s := set_vec true (MkTh t (th_tail (tasklet_hi_vec s))) (set_tasklets m s) in
  let s := emit (tp_srvqueue HI_SOFTIRQ (sem_queue_id_val SRVQ_HI_SOFTIRQ + HI_SOFTIRQ) 0 QUEUE_ENQUEUE) s in
  Some (__raise_softirq_irqoff HI_SOFTIRQ s).

Definition tasklet_hi_schedule_first (t : Z) (s : cpu) : option cpu :=
  k ← tasklets s !! t;
  if test_bit TASKLET_STATE_SCHED (tk_state k) then Some s
  else
    m ← set_state t (set_bit TASKLET_STATE_SCHED (tk_state k)) (tasklets s);
    __tasklet_hi_schedule_first t (set_tasklets m s).

Section tasklet_action.
Context (fn : Z -> Z -> cpu -> option cpu).   (* t->func(t->data) *)

(** A tasklet that is not locked and not disabled: run it. *)
Definition tasklet_run (t : Z) (k : tasklet_struct) (s : cpu) : option cpu :=
  let state := set_bit TASKLET_STATE_RUN (tk_state k) in
  if negb (test_bit TASKLET_STATE_SCHED state) then None     (* BUG() *)
  else
    m ← set_state t (clear_bit TASKLET_STATE_SCHED state) (tasklets s);
    let s := emit (tp_srvqueue (tk_func k) 0 0 QUEUE_DEQUEUE) (set_tasklets m s) in
    s ← fn (tk_func k) (tk_data k) s;
    k ← tasklets s !! t;
    let s := emit (tp_srvexit (tk_func k)) s in
    m ← set_state t (clear_bit TASKLET_STATE_RUN (tk_state k)) (tasklets s);
    Some (set_tasklets m s).

(** Otherwise it is put back on the queue. *)
Definition tasklet_requeue (hi : bool) (t : Z) (s : cpu) : option cpu :=
  s ← tasklet_append hi t s;
  let nr := vec_softirq hi in
  let s := emit (tp_srvqueue nr (sem_queue_id_val SRVQ_HI_SOFTIRQ + nr) 0 QUEUE_ENQUEUE) s in
  Some (__raise_softirq_irqoff nr s).

(** The [while (list)] loop of [tasklet_action] and [tasklet_hi_action], with
    the tasklets it ran. *)
Fixpoint tasklet_loop (fuel : nat) (hi : bool) (lst : Z) (s : cpu) : option (cpu * list Z) :=
  match fuel with
  | O => None
  | S fuel' =>
      if lst =? 0 then Some (s, [])
      else
        let t := lst in
        let s := emit tp_looprestart s in
        k ← tasklets s !! t;
        let lst := tk_next k in
        if negb (test_bit TASKLET_STATE_RUN (tk_state k)) && (tk_count k =? 0) then
          s ← tasklet_run t k s;
          '(s, runs) ← tasklet_loop fuel' hi lst s;
          Some (s, t :: runs)
        else
          s ← tasklet_requeue hi t s;
          tasklet_loop fuel' hi lst s
  end.

(** [tasklet_action], or [tasklet_hi_action] if [hi]. *)
Definition tasklet_action (hi : bool) (s : cpu) : option (cpu * list Z) :=
  let lst := th_head (vec hi s) in
  let s := set_vec hi (MkTh 0 TailHead) s in
  let s := emit (tp_loopstart (-1) 0 (vec_queue hi) (vec_queue hi)) s in
  '(s, runs) ← tasklet_loop (S (size (tasklets s))) hi lst s;
  Some (emit tp_loopstop s, runs).
End tasklet_action.

Definition tasklet_init (t func data : Z) (s : cpu) : cpu :=
  set_tasklets (<[t := MkTk 0 0 0 func data]> (tasklets s)) s.

(** [tasklet_disable_nosync] and [tasklet_enable] *)
Definition tasklet_count_add (n t : Z) (s : cpu) : option cpu :=
  k ← tasklets s !! t;
  Some (set_tasklets (<[t := MkTk (tk_next k) (tk_state k) (s32 (tk_count k + n)) (tk_func k) (tk_data k)]> (tasklets s)) s).
Definition tasklet_disable_nosync (t : Z) (s : cpu) : option cpu := tasklet_count_add 1 t s.
Definition tasklet_enable (t : Z) (s : cpu) : option cpu := tasklet_count_add (-1) t s.

(** [softirq_init]: the queues are empty and the two tasklet softirqs open, at
    the addresses of their actions. *)
Definition softirq_init (action hi_action : Z) (s : cpu) : option cpu :=
  let s := set_vec false (MkTh (th_head (tasklet_vec s)) TailHead) s in
  let s := set_vec true (MkTh (th_head (tasklet_hi_vec s)) TailHead) s in
  s ← open_softirq TASKLET_SOFTIRQ action s;
  open_softirq HI_SOFTIRQ hi_action s.

(** ** Nesting of the events

    Loops and executions of services are brackets in the event stream: a loop
    opens with [loopstart] and closes with [loopstop], the execution of a service
    opens with its entry, or with the dequeue of the service from its queue, and
    closes with its exit. *)
Inductive frame := FLoop | FService (address : Z).

#[export] Instance frame_eq_dec : EqDecision frame.
Proof. solve_decision. Defined.

Definition nest1 (stk : list frame) (e : tp_event) : option (list frame) :=
  match e with
  | tp_loopstart _ _ _ _ => Some (FLoop :: stk)
  | tp_loopstop => match stk with FLoop :: stk' => Some stk' | _ => None end
  | tp_srventry a | tp_srvqueue a _ _ QUEUE_DEQUEUE => Some (FService a :: stk)
  | tp_srvexit a => match stk with FService b :: stk' => if a =? b then Some stk' else None | _ => None end
  | _ => Some stk
  end.

Fixpoint nest (stk : list frame) (es : list tp_event) : option (list frame) :=
  match es with
  | [] => Some stk
  | e :: es' => stk' ← nest1 stk e; nest stk' es'
  end.

Section softirq_proofs.

Lemma nest_app stk es1 es2 : nest stk (es1 ++ es2) = (stk' ← nest stk es1; nest stk' es2).
Proof.
  revert stk. induction es1 as [|e es1 IH]; intros stk; [done|]. cbn [app nest].
  destruct (nest1 stk e); [|done]. cbn [mbind option_bind]. apply IH.
Qed.

(** The events that [s'] has and [s] does not open [up] and close [down]. *)
Definition opens (s s' : cpu) (down up : list frame) : Prop :=
  exists es, events s' = events s ++ es /\ forall stk, nest (down ++ stk) es = Some (up ++ stk).

Definition nested (s s' : cpu) : Prop := opens s s' [] [].

Lemma opens_refl s s' up : events s' = events s -> opens s s' up up.
Proof. intros E. exists []. by rewrite E, app_nil_r. Qed.

Lemma opens_trans s1 s2 s3 a b c : opens s1 s2 a b -> opens s2 s3 b c -> opens s1 s3 a c.
Proof.
  intros (e1 & E1 & H1) (e2 & E2 & H2). exists (e1 ++ e2). split; [by rewrite E2, E1, app_assoc|].
  intros stk. rewrite nest_app, H1. cbn [mbind option_bind]. apply H2.
Qed.

Lemma opens_emit s e a b : (forall stk, nest1 (a ++ stk) e = Some (b ++ stk)) -> opens s (emit e s) a b.
Proof. intros H. exists [e]. split; [done|]. intros stk. cbn [nest]. by rewrite H. Qed.

Lemma opens_under s s' a b c : opens s s' a b -> opens s s' (a ++ c) (b ++ c).
Proof. intros (es & E & H). exists es. split; [done|]. intros stk. by rewrite <- !app_assoc. Qed.

Lemma opens_same s1 s2 s2' a b : events s2' = events s2 -> opens s1 s2 a b -> opens s1 s2' a b.
Proof. intros E (es & E2 & H). exists es. by rewrite E. Qed.

(** ** Processing *)

Definition sane (s : cpu) : Prop := length (softirq_vec s) = 10%nat /\ 0 <= softirq_pending s < 2 ^ 10.

(** Progress that the code around the handlers makes: it only adds events and
    changes the preemption counter and the state of [ksoftirqd]. *)
Record quiet_step (s s' : cpu) : Prop := {
  qt_pending : softirq_pending s' = softirq_pending s;
  qt_vec : softirq_vec s' = softirq_vec s;
  qt_tasklets : tasklets s' = tasklets s;
  qt_queues : tasklet_vec s' = tasklet_vec s /\ tasklet_hi_vec s' = tasklet_hi_vec s;
  qt_events : exists es, events s' = events s ++ es }.

(** The interface between [__do_softirq] and its handlers. [Inv mask s] is an
    invariant of the handlers, where [mask] has the softirqs of the current pass
    that have not run yet: clearing the pending mask moves softirqs there, and
    running one removes it. Handlers return, raise softirqs that exist, do not
    replace handlers, and leave a nested event stream. *)
Class softirq_client (act : Z -> cpu -> option cpu) (Inv : Z -> cpu -> Prop) : Prop := {
  sc_frame mask s s' : quiet_step s s' -> Inv mask s -> Inv mask s';
  sc_detach s : sane s -> Inv 0 s -> Inv (softirq_pending s) (set_softirq_pending 0 s);
  sc_act mask nr h s :
    sane s -> Inv mask s -> zget (softirq_vec s) nr = Some h -> Z.testbit mask nr = true ->
    exists s', act h s = Some s' /\ softirq_vec s' = softirq_vec s /\ sane s' /\ nested s s' /\ Inv (Z.clearbit mask nr) s' }.

(** Handlers without an invariant. *)
Definition act_ok (act : Z -> cpu -> option cpu) : Prop :=
  forall h s, sane s -> exists s', act h s = Some s' /\ softirq_vec s' = softirq_vec s /\ sane s' /\ nested s s'.

Lemma act_ok_client act : act_ok act -> softirq_client act (fun _ _ => True).
Proof.
  intros H. split; [done|done|]. intros mask nr h s Hs _ _ _. destruct (H h s Hs) as (s' & ? & ? & ? & ?). by exists s'.
Qed.

Definition pending_bits (p : Z) : list Z := filter (fun i => Z.testbit p i = true) (seqZ 0 10).

Context (act : Z -> cpu -> option cpu) (Inv : Z -> cpu -> Prop) `{!softirq_client act Inv}.

Lemma quiet_emit e s : quiet_step s (emit e s).
Proof. split; try done. by exists [e]. Qed.

Lemma run_softirq_ok mask v s :
  sane s -> Inv mask s -> 0 <= v < 10 -> Z.testbit mask v = true ->
  exists s', run_softirq act v s = Some s' /\ softirq_vec s' = softirq_vec s /\ sane s' /\
    preempt_count s' = preempt_count s /\ nested s s' /\ Inv (Z.clearbit mask v) s'.
Proof.
  intros [Hl Hp] Hi Hv Hm. unfold run_softirq. destruct (zget_is_Some (softirq_vec s) v) as [h Hh]; [lia|].
  rewrite Hh. cbn [mbind option_bind].
  destruct (sc_act mask v h (emit (tp_srvqueue h 0 0 QUEUE_DEQUEUE) s)) as (s1 & -> & Hv1 & [Hl1 Hp1] & Hn1 & Hi1); try done.
  { by apply (sc_frame _ s); [apply quiet_emit|]. }
  cbn [mbind option_bind]. rewrite Hv1. change (softirq_vec (emit _ s)) with (softirq_vec s). rewrite Hh. cbn [mbind option_bind].
  assert (nested s (emit (tp_srvexit h) s1)) as Hn.
  { eapply (opens_trans _ (emit (tp_srvqueue h 0 0 QUEUE_DEQUEUE) s) _ _ [FService h]); [by apply opens_emit|].
    eapply (opens_trans _ s1 _ _ [FService h]); [by apply (opens_under _ _ [] [])|].
    apply opens_emit. intros stk. cbn. by rewrite Z.eqb_refl. }
  change (preempt_count (emit (tp_srvexit h) s1)) with (preempt_count s1).
  assert (quiet_step s1 (set_preempt_count (preempt_count s) (emit (tp_srvexit h) s1))) as Hq by (split; try done; by exists [tp_srvexit h]).
  destruct (Z.eqb_spec (preempt_count s) (preempt_count s1)) as [E|E]; eexists; (split; [reflexivity|]); split_and!; try done.
  - by apply (sc_frame _ s1); [apply quiet_emit|].
  - by apply (sc_frame _ s1).
Qed.

Lemma land_1_testbit p : ctrue (Z.land p 1) = Z.testbit p 0.
Proof.
  unfold ctrue. assert (Z.land p 1 = p mod 2) as -> by exact (Z.land_ones p 1 ltac:(lia)). rewrite <- Z.bit0_mod.
  by destruct (Z.testbit p 0).
Qed.

Lemma filter_ext_in (P Q : Z -> Prop) `{!forall x, Decision (P x)} `{!forall x, Decision (Q x)} (l : list Z) :
  (forall x, x ∈ l -> P x <-> Q x) -> filter P l = filter Q l.
Proof.
  induction l as [|x l IH]; intros Hpq; [done|]. rewrite !filter_cons.
  rewrite IH by (intros y Hy; apply Hpq; by right). specialize (Hpq x ltac:(left)).
  destruct (decide (P x)), (decide (Q x)); tauto.
Qed.

(** The bits of [p] from number [v] on, [k] of them. *)
Definition bits_from (v p : Z) (k : Z) : list Z := filter (fun i => Z.testbit p (i - v) = true) (seqZ v k).

Lemma bits_from_S v p k :
  0 < k -> bits_from v p k = (if Z.testbit p 0 then [v] else []) ++ bits_from (v + 1) (Z.shiftr p 1) (k - 1).
Proof.
  intros Hk. unfold bits_from. rewrite seqZ_cons by lia. rewrite filter_cons. rewrite Z.sub_diag.
  replace (Z.succ v) with (v + 1) by lia. replace (Z.pred k) with (k - 1) by lia.
  assert (filter (fun i => Z.testbit p (i - v) = true) (seqZ (v + 1) (k - 1))
    = filter (fun i => Z.testbit (Z.shiftr p 1) (i - (v + 1)) = true) (seqZ (v + 1) (k - 1))) as ->.
  { apply filter_ext_in. intros i Hi%elem_of_seqZ. rewrite Z.shiftr_spec by lia. by replace (i - (v + 1) + 1) with (i - v) by lia. }
  by destruct (Z.testbit p 0).
Qed.

Lemma bits_from_0 v k : bits_from v 0 k = [].
Proof.
  unfold bits_from. generalize (seqZ v k). intros l. induction l as [|x l IH]; [done|].
  by rewrite filter_cons_False by (by rewrite Z.testbit_0_l).
Qed.

(** The softirqs left after the one at [v]. *)
Lemma mask_next p v : 0 <= v -> Z.shiftl (Z.shiftr p 1) (v + 1) = Z.clearbit (Z.shiftl p v) v.
Proof.
  intros Hv. apply Z.bits_inj'. intros n Hn. rewrite Z.clearbit_eqb, Z.shiftl_spec by lia. destruct (Z.ltb_spec n (v + 1)).
  - rewrite Z.testbit_neg_r by lia. rewrite Z.shiftl_spec by lia. destruct (Z.eqb_spec v n) as [->|]; [by rewrite andb_false_r|].
    by rewrite Z.testbit_neg_r by lia.
  - rewrite Z.shiftr_spec, Z.shiftl_spec by lia. replace (n - (v + 1) + 1) with (n - v) by lia.
    destruct (Z.eqb_spec v n); [lia|]. by rewrite andb_true_r.
Qed.

Lemma clearbit_clear p v : Z.testbit p v = false -> Z.clearbit p v = p.
Proof.
  intros H. apply Z.bits_inj'. intros n Hn. rewrite Z.clearbit_eqb. destruct (Z.eqb_spec v n) as [<-|]; [by rewrite H|].
  by rewrite andb_true_r.
Qed.

Lemma softirq_pass_ok (k : nat) fuel v p s :
  sane s -> Inv (Z.shiftl p v) s -> 0 <= p < 2 ^ Z.of_nat k -> (0 < k <= fuel)%nat -> 0 <= v -> v + Z.of_nat k <= 10 ->
  exists s', softirq_pass act fuel v p s = Some (s', bits_from v p (Z.of_nat k)) /\ softirq_vec s' = softirq_vec s /\
    sane s' /\ preempt_count s' = preempt_count s /\ nested s s' /\ Inv 0 s'.
Proof.
  revert fuel v p s. induction k as [|k IH]; intros fuel v p s Hs Hi Hp Hf Hv Hvk; [lia|]. destruct fuel as [|fuel]; [lia|].
  cbn [softirq_pass]. rewrite land_1_testbit, bits_from_S by lia.
  assert (nested s (emit tp_looprestart s)) as Hn0 by (by apply opens_emit).
  assert (Inv (Z.shiftl p v) (emit tp_looprestart s)) as Hi0 by (by apply (sc_frame _ s); [apply quiet_emit|]).
  assert (Z.testbit (Z.shiftl p v) v = Z.testbit p 0) as Hbit by (by rewrite Z.shiftl_spec, Z.sub_diag by lia).
  assert (exists s1, (if Z.testbit p 0 then s ← run_softirq act v (emit tp_looprestart s); Some (s, [v])
                      else Some (emit tp_looprestart s, [])) = Some (s1, if Z.testbit p 0 then [v] else []) /\
      softirq_vec s1 = softirq_vec s /\ sane s1 /\ preempt_count s1 = preempt_count s /\ nested s s1 /\
      Inv (Z.shiftl (Z.shiftr p 1) (v + 1)) s1)
    as (s1 & -> & Hv1 & Hs1 & Hc1 & Hn1 & Hi1).
  { rewrite mask_next by done. destruct (Z.testbit p 0) eqn:Eb; [|eexists; split_and!; try done; by rewrite clearbit_clear].
    destruct (run_softirq_ok (Z.shiftl p v) v (emit tp_looprestart s) Hs Hi0 ltac:(lia) Hbit) as (s1 & -> & Hv1 & Hs1 & Hc1 & Hn1 & Hi1).
    cbn [mbind option_bind]. eexists. split_and!; try done. by eapply opens_trans. }
  cbn [mbind option_bind]. destruct (Z.eqb_spec (Z.shiftr p 1) 0) as [E|E].
  { rewrite E, bits_from_0, app_nil_r. rewrite E, Z.shiftl_0_l in Hi1. by exists s1. }
  assert (0 <= Z.shiftr p 1 < 2 ^ Z.of_nat k).
  { rewrite Z.shiftr_div_pow2 by lia. change (2 ^ 1) with 2.
    rewrite Nat2Z.inj_succ, Z.pow_succ_r in Hp by lia. split; [apply Z.div_pos; lia|apply Z.div_lt_upper_bound; lia]. }
  assert (0 < k)%nat by (destruct k; [simpl in *; lia|lia]).
  destruct (IH fuel (v + 1) (Z.shiftr p 1) s1 Hs1 Hi1 ltac:(lia) ltac:(lia) ltac:(lia) ltac:(lia)) as (s2 & -> & Hv2 & Hs2 & Hc2 & Hn2 & Hi2).
  cbn [mbind option_bind]. exists s2. replace (Z.of_nat (S k) - 1) with (Z.of_nat k) by lia.
  split_and!; try done; [congruence|congruence|]. by eapply opens_trans.
Qed.

Lemma bits_from_all p : bits_from 0 p 10 = pending_bits p.
Proof. unfold bits_from, pending_bits. apply filter_ext_in. intros x _. by rewrite Z.sub_0_r. Qed.

Lemma emit_sane e s : sane s -> sane (emit e s).
Proof. done. Qed.

Lemma wakeup_softirqd_ok s :
  ksoftirqd (wakeup_softirqd s) <> Sleeping /\ softirq_vec (wakeup_softirqd s) = softirq_vec s /\
  softirq_pending (wakeup_softirqd s) = softirq_pending s /\ preempt_count (wakeup_softirqd s) = preempt_count s /\
  events (wakeup_softirqd s) = events s /\ quiet_step s (wakeup_softirqd s).
Proof. unfold wakeup_softirqd. destruct (ksoftirqd s) eqn:E; cbn; rewrite ?E; split_and!; try done; (split; try done; exists []; cbn; by rewrite app_nil_r). Qed.

(** The invariant once the pending softirqs are taken over by a pass. *)
Definition ready (s : cpu) : Prop := Inv (softirq_pending s) (set_softirq_pending 0 s).

Lemma ready_frame s s' : quiet_step s s' -> ready s -> ready s'.
Proof.
  intros Hq Hr. unfold ready. rewrite (qt_pending _ _ Hq). destruct Hq as [E1 E2 E3 E4 E5].
  eapply sc_frame; [|exact Hr]. by split.
Qed.

Lemma inv_ready s : sane s -> Inv 0 s -> ready s.
Proof. apply sc_detach. Qed.

(** The outer loop closes the loop that [__do_softirq] opened before it. *)
Lemma softirq_restart_ok n s :
  sane s -> ready s ->
  exists s' passes, softirq_restart act n (softirq_pending s) s = Some (s', passes) /\ sane s' /\ preempt_count s' = preempt_count s /\
    head passes = Some (pending_bits (softirq_pending s)) /\ (length passes <= S n)%nat /\
    (softirq_pending s' <> 0 -> length passes = S n /\ ksoftirqd s' <> Sleeping) /\ opens s s' [FLoop] [] /\ Inv 0 s'.
Proof.
  revert s. induction n as [|n IH]; intros s Hs Hi; cbn [softirq_restart];
    set (s0 := emit (queue_range 1 1) (set_softirq_pending 0 (emit tp_looprestart s)));
    (assert (sane s0) as Hs0 by (split; [apply Hs|cbn; lia]));
    (assert (Inv (Z.shiftl (softirq_pending s) 0) s0) as Hi0 by
      (rewrite Z.shiftl_0_r; apply (sc_frame _ (set_softirq_pending 0 (emit tp_looprestart s))); [apply quiet_emit|];
       apply (ready_frame s (emit tp_looprestart s)); [apply quiet_emit|done]));
    (assert (opens s s0 [] [FLoop]) as Hn0 by
      (eapply (opens_trans _ (emit tp_looprestart s) _ _ []); [by apply opens_emit|];
       eapply (opens_trans _ (set_softirq_pending 0 (emit tp_looprestart s)) _ _ []); [by apply opens_refl|]; by apply opens_emit));
    destruct (softirq_pass_ok 10 32 0 (softirq_pending s) s0 Hs0 Hi0 (proj2 Hs) ltac:(lia) ltac:(lia) ltac:(lia))
      as (s1 & -> & _ & Hs1 & Hc1 & Hn1 & Hi1);
    change (Z.of_nat 10) with 10; rewrite bits_from_all; cbn [mbind option_bind];
    (assert (nested s (emit tp_loopstop s1)) as Hn2 by
      (eapply (opens_trans _ s0 _ _ [FLoop]); [done|]; eapply (opens_trans _ s1 _ _ [FLoop]);
       [by apply (opens_under _ _ [] [])|]; by apply opens_emit));
    (assert (opens s (emit tp_loopstop (emit tp_loopstop s1)) [FLoop] []) as Hn3 by
      (eapply (opens_trans _ (emit tp_loopstop s1) _ _ [FLoop]); [by apply (opens_under _ _ [] [])|]; by apply opens_emit));
    (assert (Inv 0 (emit tp_loopstop s1) /\ Inv 0 (emit tp_loopstop (emit tp_loopstop s1))) as [Hi2 Hi3] by
      (split; repeat (eapply sc_frame; [apply quiet_emit|]); done));
    change (softirq_pending (emit tp_loopstop s1)) with (softirq_pending s1); unfold ctrue;
    destruct (Z.eqb_spec (softirq_pending s1) 0) as [E|E]; cbn [negb];
    try (do 2 eexists; split; [reflexivity|]; split_and!; (done || cbn; lia)).
  - destruct (wakeup_softirqd_ok (emit tp_loopstop (emit tp_loopstop s1))) as (Hk & Hv & Hpp & Hpc & He & Hq).
    do 2 eexists. split; [reflexivity|]. split_and!; try done; [unfold sane; by rewrite Hv, Hpp|by rewrite Hpc| |by eapply sc_frame].
    by eapply opens_same.
  - destruct (IH (emit tp_loopstop s1) Hs1 (inv_ready (emit tp_loopstop s1) Hs1 Hi2)) as (s2 & more & E2 & Hs2 & Hc2 & _ & Hl2 & Hk2 & Hn4 & Hi4).
    change (softirq_pending (emit tp_loopstop s1)) with (softirq_pending s1) in E2. rewrite E2.
    cbn [mbind option_bind]. do 2 eexists. split; [reflexivity|]. cbn [head length].
    split_and!; try done; [by rewrite Hc2|lia| |].
    + intros Hz. destruct (Hk2 Hz) as [-> ?]. by split.
    + eapply (opens_trans _ (emit tp_loopstop s1) _ _ [FLoop]); [by apply (opens_under _ _ [] [])|done].
Qed.

Lemma do_softirq_ok s :
  sane s -> ready s -> 0 <= preempt_count s < 2 ^ 30 ->
  exists s' passes, __do_softirq act s = Some (s', passes) /\ sane s' /\ preempt_count s' = preempt_count s /\
    head passes = Some (pending_bits (softirq_pending s)) /\ (length passes <= 10)%nat /\
    (softirq_pending s' <> 0 -> length passes = 10%nat /\ ksoftirqd s' <> Sleeping) /\ nested s s' /\ Inv 0 s'.
Proof.
  intros Hs Hi Hc. unfold __do_softirq.
  set (s0 := emit (queue_range (Z.of_nat MAX_SOFTIRQ_RESTART) 0) (__local_bh_disable SOFTIRQ_OFFSET s)).
  assert (ready s0) as Hi0 by (apply (ready_frame s); [split; try done; by eexists|done]).
  destruct (softirq_restart_ok 9 s0 Hs Hi0) as (s1 & passes & E & Hs1 & Hc1 & Hh & Hl & Hk & Hn & Hi1).
  change (MAX_SOFTIRQ_RESTART - 1)%nat with 9%nat. change (softirq_pending s0) with (softirq_pending s) in E. rewrite E.
  cbn [mbind option_bind]. do 2 eexists. split; [reflexivity|]. split_and!; try done.
  - unfold __local_bh_enable, sub_preempt_count. cbn [preempt_count set_preempt_count]. rewrite Hc1. cbn. unfold SOFTIRQ_OFFSET.
    rewrite (s32_id (preempt_count s + 256)) by lia. rewrite s32_id by lia. lia.
  - eapply (opens_same _ s1); [done|]. eapply (opens_trans _ s0 _ _ [FLoop]); [|done].
    eapply (opens_trans _ (__local_bh_disable SOFTIRQ_OFFSET s) _ _ []); [by apply opens_refl|]. by apply opens_emit.
  - apply (sc_frame _ s1); [|done]. split; try done. exists []. by rewrite app_nil_r.
Qed.

(** ** The preemption counter as a number *)

Lemma in_interrupt_div c : in_interrupt c = negb ((c / 256) mod 2 ^ 18 =? 0).
Proof.
  unfold in_interrupt, ctrue, irq_count. f_equal.
  change (Z.lor (Z.lor HARDIRQ_MASK SOFTIRQ_MASK) NMI_MASK) with (Z.shiftl (Z.ones 18) 8).
  assert (Z.land c (Z.shiftl (Z.ones 18) 8) = Z.shiftl ((c / 256) mod 2 ^ 18) 8) as ->.
  { rewrite <- Z.land_ones by lia. change 256 with (2 ^ 8). rewrite <- Z.shiftr_div_pow2 by lia.
    apply Z.bits_inj'. intros n Hn. rewrite Z.land_spec. destruct (Z.ltb_spec n 8).
    - by rewrite !Z.shiftl_spec_low, andb_false_r by lia.
    - rewrite !Z.shiftl_spec, Z.land_spec, Z.shiftr_spec by lia. by replace (n - 8 + 8) with n by lia. }
  rewrite Z.shiftl_mul_pow2 by lia.
  destruct (Z.eqb_spec ((c / 256) mod 2 ^ 18) 0) as [->|], (Z.eqb_spec ((c / 256) mod 2 ^ 18 * 2 ^ 8) 0); (done || lia).
Qed.

Lemma in_interrupt_succ c : c mod 256 < 255 -> in_interrupt (c + 1) = in_interrupt c.
Proof.
  intros Hc. rewrite !in_interrupt_div. do 3 f_equal.
  pose proof (Z.div_mod c 256). pose proof (Z.mod_pos_bound c 256).
  symmetry. apply (Z.div_unique _ _ _ (c mod 256 + 1)); lia.
Qed.

Lemma in_interrupt_idle c : 0 <= c < 256 -> in_interrupt c = false.
Proof. intros Hc. rewrite in_interrupt_div. by rewrite Z.div_small by lia. Qed.
End softirq_proofs.

(** C10: [__do_softirq] first runs the handlers of exactly the softirqs that are
    pending, in the order of their numbers, and restarts for those raised
    meanwhile, ten passes at most. What is still pending when it returns is left
    to [ksoftirqd], which is then awake. The preemption counter is restored
    whatever the handlers do to it, and their invariant holds again. *)
Theorem softirqs_run (act : Z -> cpu -> option cpu) (Inv : Z -> cpu -> Prop) (s : cpu) :
  softirq_client act Inv -> sane s -> Inv 0 s -> 0 <= preempt_count s < 2 ^ 30 ->
  exists s' passes, __do_softirq act s = Some (s', passes) /\
    head passes = Some (pending_bits (softirq_pending s)) /\ (length passes <= 10)%nat /\
    (softirq_pending s' <> 0 -> length passes = 10%nat /\ ksoftirqd s' <> Sleeping) /\
    preempt_count s' = preempt_count s /\ Inv 0 s'.
Proof.
  intros Hact Hs Hi Hc. destruct (do_softirq_ok act Inv s Hs (inv_ready _ _ s Hs Hi) Hc) as (s' & passes & E & _ & ? & ? & ? & ? & _ & ?).
  exists s', passes. by split_and!.
Qed.

(** The handler at 4096 raises softirq 3, the other ones do nothing. *)
Definition sample_act (h : Z) (s : cpu) : option cpu :=
  Some (if h =? 4096 then __raise_softirq_irqoff 3 s else s).
Definition sample_cpu : cpu :=
  MkCpu 1 (2 ^ 1 + 2 ^ 3) [0; 4096; 0; 8192; 0; 0; 0; 0; 0; 0] Sleeping ∅ (MkTh 0 TailHead) (MkTh 0 TailHead) [].

Lemma sample_act_ok : act_ok sample_act.
Proof.
  intros h s [Hl Hp]. unfold sample_act. eexists. split; [reflexivity|].
  destruct (h =? 4096); [|by split_and!; [..|by apply opens_refl]]. split_and!; [done| |by apply opens_refl]. split; [done|]. cbn.
  change (u32 (Z.shiftl 1 3)) with 8.
  assert (0 <= Z.lor (softirq_pending s) 8 < 2 ^ 10).
  { split; [apply Z.lor_nonneg; lia|]. destruct (Z.eq_dec (Z.lor (softirq_pending s) 8) 0) as [->|]; [lia|].
    apply Z.log2_lt_pow2; [pose proof (proj2 (Z.lor_nonneg (softirq_pending s) 8)); lia|].
    rewrite Z.log2_lor by lia. apply Z.max_lub_lt; [|done].
    destruct (Z.eq_dec (softirq_pending s) 0) as [->|]; [done|]. apply Z.log2_lt_pow2; lia. }
  rewrite u32_id by lia. done.
Qed.

Lemma softirqs_run_witness :
  exists s' passes, __do_softirq sample_act sample_cpu = Some (s', passes) /\
    head passes = Some [1; 3] /\ (length passes <= 10)%nat /\
    (softirq_pending s' <> 0 -> length passes = 10%nat /\ ksoftirqd s' <> Sleeping) /\
    preempt_count s' = 1 /\ True.
Proof.
  apply (softirqs_run sample_act (fun _ _ => True) sample_cpu);
    [exact (act_ok_client _ sample_act_ok)|split; [reflexivity|simpl; lia]|exact I|simpl; lia].
Defined.

(** The events of [__do_softirq] are well nested, if those of the handlers
    are: every loop and every execution of a handler that is opened is closed,
    in the right order. *)
Theorem softirq_events_nested (act : Z -> cpu -> option cpu) (s : cpu) :
  act_ok act -> sane s -> 0 <= preempt_count s < 2 ^ 30 ->
  exists s' passes es, __do_softirq act s = Some (s', passes) /\ events s' = events s ++ es /\
    forall stk, nest stk es = Some stk.
Proof.
  intros Hact%act_ok_client Hs Hc. destruct (do_softirq_ok act _ s Hs I Hc) as (s' & passes & E & _ & _ & _ & _ & _ & (es & Ee & Hn) & _).
  exists s', passes, es. by split_and!.
Qed.

Lemma softirq_events_nested_witness :
  exists s' passes es, __do_softirq sample_act sample_cpu = Some (s', passes) /\ events s' = [] ++ es /\
    forall stk, nest stk es = Some stk.
Proof.
  apply (softirq_events_nested sample_act sample_cpu); [exact sample_act_ok|split; [reflexivity|simpl; lia]|simpl; lia].
Defined.

(** An interrupt whose handler prepares the invariant of the softirqs, which
    then run unless the interrupt is nested. *)
Lemma interrupt_ok act Inv (isr : cpu -> cpu) entry s :
  softirq_client act Inv -> 0 <= preempt_count s < 2 ^ 26 -> preempt_count s mod 256 < 255 ->
  (let s0 := irq_enter entry false id s in
   sane (isr s0) /\ preempt_count (isr s0) = preempt_count s0 /\ nested s0 (isr s0) /\ ready Inv (isr s0)) ->
  exists s' passes, irq_exit act entry (isr (irq_enter entry false id s)) = Some (s', passes) /\
    preempt_count s' = preempt_count s /\ nested s s' /\
    if in_interrupt (preempt_count s) then passes = []
    else Inv 0 s' /\ (softirq_pending s' <> 0 -> ksoftirqd s' <> Sleeping) /\
      default [] (head passes) = pending_bits (softirq_pending (isr (irq_enter entry false id s))).
Proof.
  intros Hact Hc Hm Hisr. unfold irq_enter in *. cbn [andb] in *.
  set (s0 := add_preempt_count HARDIRQ_OFFSET (emit (tp_srventry entry) s)) in *.
  destruct Hisr as ([Hl1 Hp1] & Hc1 & Hn1 & Hi1). unfold irq_exit.
  set (s1 := sub_preempt_count IRQ_EXIT_OFFSET (isr s0)).
  assert (preempt_count s1 = preempt_count s + 1) as Hc2.
  { unfold s1, sub_preempt_count. cbn. rewrite Hc1. unfold s0. cbn. unfold HARDIRQ_OFFSET, IRQ_EXIT_OFFSET, HARDIRQ_OFFSET.
    rewrite (s32_id (preempt_count s + 65536)) by lia. rewrite s32_id by lia. lia. }
  assert (sane s1) as Hs1 by done.
  assert (ready Inv s1) as Hi2 by (eapply (ready_frame act Inv (isr s0)); [split; try done; exists []; by rewrite app_nil_r|done]).
  assert (opens s s1 [] [FService entry]) as Hn2.
  { eapply (opens_same _ (isr s0)); [done|]. eapply (opens_trans _ s0 _ _ [FService entry]); [|by apply (opens_under _ _ [] [])].
    eapply (opens_same _ (emit (tp_srventry entry) s)); [done|]. by apply opens_emit. }
  assert (forall s2, opens s1 s2 [FService entry] [FService entry] -> preempt_count s2 = preempt_count s1 ->
    preempt_count (sub_preempt_count 1 (emit (tp_srvexit entry) s2)) = preempt_count s /\
    nested s (sub_preempt_count 1 (emit (tp_srvexit entry) s2)) /\
    (Inv 0 s2 -> Inv 0 (sub_preempt_count 1 (emit (tp_srvexit entry) s2)))) as Hclose.
  { intros s2 H2 E2. split_and!.
    - unfold sub_preempt_count. cbn [preempt_count set_preempt_count emit]. rewrite E2, Hc2, s32_id by lia. lia.
    - eapply (opens_same _ (emit (tp_srvexit entry) s2)); [done|].
      eapply (opens_trans _ s1 _ _ [FService entry]); [done|]. eapply (opens_trans _ s2 _ _ [FService entry]); [done|].
      apply opens_emit. intros stk. cbn. by rewrite Z.eqb_refl.
    - apply sc_frame. split; try done. by eexists. }
  rewrite Hc2, in_interrupt_succ by done.
  destruct (in_interrupt (preempt_count s)); cbn [negb andb mbind option_bind].
  { do 2 eexists. split; [reflexivity|]. destruct (Hclose s1) as (? & ? & _); [by apply opens_refl|done|]. by split_and!. }
  unfold ctrue. destruct (Z.eqb_spec (softirq_pending s1) 0) as [E|E]; cbn [negb mbind option_bind].
  { do 2 eexists. split; [reflexivity|]. destruct (Hclose s1) as (? & ? & Hi); [by apply opens_refl|done|]. split_and!; try done.
    - apply Hi. unfold ready in Hi2. rewrite E in Hi2. eapply sc_frame; [|exact Hi2]. split; try done. exists []. by rewrite app_nil_r.
    - cbn [head default]. change (softirq_pending (isr s0)) with (softirq_pending s1). by rewrite E. }
  unfold invoke_softirq. destruct (do_softirq_ok act Inv s1 Hs1 Hi2 ltac:(lia)) as (s2 & passes & -> & _ & Hc3 & Hh & _ & Hk & Hn3 & Hi3).
  cbn [mbind option_bind]. do 2 eexists. split; [reflexivity|].
  destruct (Hclose s2) as (? & ? & Hi); [by apply (opens_under _ _ [] [])|done|]. split_and!; try done.
  - by apply Hi.
  - intros Hz. by apply Hk.
  - by rewrite Hh.
Qed.

(** Around an interrupt handler that leaves the preemption counter alone,
    [irq_enter] and [irq_exit] restore the counter and bracket the events. When
    the interrupt was not nested and bottom halves were enabled, no softirq is
    pending afterwards unless [ksoftirqd] is awake; otherwise no softirq runs. *)
Theorem interrupt_brackets (act : Z -> cpu -> option cpu) (isr : cpu -> cpu) (entry : Z) (s : cpu) :
  act_ok act -> sane s -> 0 <= preempt_count s < 2 ^ 26 -> preempt_count s mod 256 < 255 ->
  (forall s, sane s -> sane (isr s) /\ preempt_count (isr s) = preempt_count s /\ nested s (isr s)) ->
  exists s' passes, irq_exit act entry (isr (irq_enter entry false id s)) = Some (s', passes) /\
    preempt_count s' = preempt_count s /\ nested s s' /\
    if in_interrupt (preempt_count s) then passes = []
    else softirq_pending s' <> 0 -> ksoftirqd s' <> Sleeping.
Proof.
  intros Hact%act_ok_client Hs Hc Hm Hisr. destruct (interrupt_ok act _ isr entry s Hact Hc Hm) as (s' & passes & E & ? & ? & H).
  { cbv zeta. destruct (Hisr (irq_enter entry false id s) Hs) as (? & ? & ?). by split_and!. }
  exists s', passes. split_and!; try done. by destruct (in_interrupt _); [|apply H].
Qed.

Lemma interrupt_brackets_witness :
  exists s' passes, irq_exit sample_act 64 (__raise_softirq_irqoff 3 (irq_enter 64 false id sample_cpu)) = Some (s', passes) /\
    preempt_count s' = 1 /\ nested sample_cpu s' /\
    if in_interrupt 1 then passes = [] else softirq_pending s' <> 0 -> ksoftirqd s' <> Sleeping.
Proof.
  apply (interrupt_brackets sample_act (__raise_softirq_irqoff 3) 64 sample_cpu);
    [exact sample_act_ok|split; [reflexivity|simpl; lia]|simpl; lia|reflexivity|].
  intros s [Hl Hp]. destruct (sample_act_ok 4096 s (conj Hl Hp)) as (s' & E & _ & Hs' & Hn). injection E as <-.
  split; [exact Hs'|]. split; [reflexivity|exact Hn].
Defined.

(** The queue identifiers are computed from the softirq number, but there is
    none for RCU: raising it is recorded as an enqueue to the tasklet queue. *)
Theorem rcu_logged_as_tasklet (s : cpu) :
  events (raise_softirq_irqoff RCU_SOFTIRQ s) =
    events s ++ [tp_srvqueue RCU_SOFTIRQ (sem_queue_id_val SRVQ_TASKLET) 0 QUEUE_ENQUEUE].
Proof.
  unfold raise_softirq_irqoff. destruct (in_interrupt _); [done|].
  by rewrite (proj1 (proj2 (proj2 (proj2 (proj2 (wakeup_softirqd_ok _)))))).
Qed.

(** ** The tasklet queues as lists *)

Definition nx (m : gmap Z tasklet_struct) (x : Z) : option Z := tk_next <$> m !! x.
Definition tail_of (l : list Z) : tail_ptr := match last l with Some t => TailNext t | None => TailHead end.

(** The two queues by [hi]. *)
Definition upd (hi : bool) (l : list Z) (qs : bool -> list Z) : bool -> list Z :=
  fun b => if Bool.eqb b hi then l else qs b.
Definition queued (qs : bool -> list Z) : list Z := qs false ++ qs true.

Definition scheduled (k : tasklet_struct) : bool := test_bit TASKLET_STATE_SCHED (tk_state k).

(** What the queue operations leave alone in a tasklet. *)
Definition info (k : tasklet_struct) : Z * bool * Z * Z :=
  (tk_count k, test_bit TASKLET_STATE_RUN (tk_state k), tk_func k, tk_data k).
Definition same_info (m m' : gmap Z tasklet_struct) : Prop := forall t, info <$> m' !! t = info <$> m !! t.

(** [d] is the list a running [tasklet_action] has detached, starting at [ptr];
    [x] are tasklets that are marked as scheduled and on no list for the moment.
    A tasklet is marked as scheduled if and only if it is in one of the lists. *)
Record tk_rep (s : cpu) (ptr : Z) (x d : list Z) (qs : bool -> list Z) : Prop := {
  tr_detached : lseg (nx (tasklets s)) ptr d 0;
  tr_queue : forall hi, lseg (nx (tasklets s)) (th_head (vec hi s)) (qs hi) 0 /\ th_tail (vec hi s) = tail_of (qs hi);
  tr_nodup : NoDup (x ++ d ++ queued qs);
  tr_sched : forall t k, tasklets s !! t = Some k -> scheduled k = true <-> t ∈ x ++ d ++ queued qs;
  tr_nonzero : forall t, is_Some (tasklets s !! t) -> t <> 0;
  tr_pending : 0 <= softirq_pending s < 2 ^ 32 }.

(** The softirq of a queue that is not empty is pending, or among the softirqs
    [mask] that the current pass of [__do_softirq] still has to run. *)
Definition raised_in (mask : Z) (s : cpu) (qs : bool -> list Z) : Prop :=
  forall hi, qs hi <> [] -> Z.testbit (Z.lor (softirq_pending s) mask) (vec_softirq hi) = true.
Definition raised (s : cpu) (qs : bool -> list Z) : Prop := raised_in 0 s qs.

Section tasklet_proofs.
Context (mask : Z).

Lemma upd_eq hi l qs : upd hi l qs hi = l.
Proof. unfold upd. by rewrite eqb_reflx. Qed.
Lemma upd_ne hi hi' l qs : hi' <> hi -> upd hi l qs hi' = qs hi'.
Proof. unfold upd. intros H. destruct (Bool.eqb_spec hi' hi); [done|done]. Qed.

Lemma queued_snoc hi t qs : queued (upd hi (qs hi ++ [t]) qs) ≡ₚ t :: queued qs.
Proof. unfold queued, upd. destruct hi; cbn; solve_Permutation. Qed.

Lemma queued_in hi qs t : t ∈ qs hi -> t ∈ queued qs.
Proof. unfold queued. intros H. apply elem_of_app. destruct hi; [by right|by left]. Qed.

Lemma tail_of_snoc l t : tail_of (l ++ [t]) = TailNext t.
Proof. unfold tail_of. by rewrite last_snoc. Qed.

Lemma same_info_trans m1 m2 m3 : same_info m1 m2 -> same_info m2 m3 -> same_info m1 m3.
Proof. intros H1 H2 t. by rewrite H2, H1. Qed.

Lemma nx_insert m t k x : nx (<[t := k]> m) x = if decide (x = t) then Some (tk_next k) else nx m x.
Proof. unfold nx. destruct (decide (x = t)) as [->|]; [by rewrite lookup_insert_eq|by rewrite lookup_insert_ne]. Qed.

(** Setting links changes neither the marks nor the rest of a tasklet. *)
Lemma set_next_ok m t v :
  is_Some (m !! t) ->
  exists m', set_next t v m = Some m' /\ (forall y, nx m' y = if decide (y = t) then Some v else nx m y) /\
    (forall y, scheduled <$> m' !! y = scheduled <$> m !! y) /\ same_info m m'.
Proof.
  intros [k Hk]. unfold set_next. rewrite Hk. cbn [mbind option_bind]. eexists. split; [reflexivity|]. split_and!.
  - intros y. by rewrite nx_insert.
  - intros y. destruct (decide (y = t)) as [->|]; [by rewrite lookup_insert_eq, Hk|by rewrite lookup_insert_ne].
  - intros y. destruct (decide (y = t)) as [->|]; [by rewrite lookup_insert_eq, Hk|by rewrite lookup_insert_ne].
Qed.

Lemma set_state_ok m t k st :
  m !! t = Some k -> set_state t st m = Some (<[t := MkTk (tk_next k) st (tk_count k) (tk_func k) (tk_data k)]> m).
Proof. intros Hk. unfold set_state. by rewrite Hk. Qed.

Lemma is_Some_scheduled (m m' : gmap Z tasklet_struct) t :
  scheduled <$> m' !! t = scheduled <$> m !! t -> is_Some (m' !! t) -> is_Some (m !! t).
Proof. intros E [k Hk]. rewrite Hk in E. destruct (m !! t); [eauto|done]. Qed.

(** The links after an append: the new last element ends its queue, and nothing
    else that is linked moves. *)
Lemma append_links m m1 h l t :
  lseg (nx m) h l 0 -> NoDup (l ++ [t]) -> t <> 0 -> nx m1 t = Some 0 -> (forall y, y <> t -> y <> last0 l -> nx m1 y = nx m y) ->
  (l <> [] -> nx m1 (last0 l) = Some t) ->
  lseg (nx m1) (if decide (l = []) then t else h) (l ++ [t]) 0.
Proof.
  intros Hs Hnd Ht Hn Hm Hl. destruct l as [|y l _] using rev_ind.
  - rewrite decide_True by done. cbn [app lseg]. eauto 6.
  - rewrite decide_False by (by destruct l). rewrite last0_snoc in *. rewrite <- app_assoc in *. cbn [app] in *.
    eapply (lseg_snoc (nx m)); try done; [|by apply Hl; destruct l].
    intros z Hz. apply NoDup_app in Hnd as (_ & Hd & _). apply Hm; intros ->; apply (Hd _ Hz); [right; by left|by left].
Qed.

(** The memory after the two stores of an append. *)
Lemma append_memory m (hi : bool) (qs : bool -> list Z) t :
  is_Some (m !! t) -> (qs hi <> [] -> is_Some (m !! last0 (qs hi)) /\ last0 (qs hi) <> t) ->
  exists mF, (m1 ← set_next t 0 m; match tail_of (qs hi) with TailHead => Some m1 | TailNext u => set_next u t m1 end) = Some mF /\
    nx mF t = Some 0 /\ (forall y, y <> t -> y <> last0 (qs hi) -> nx mF y = nx m y) /\
    (qs hi <> [] -> nx mF (last0 (qs hi)) = Some t) /\
    (forall y, scheduled <$> mF !! y = scheduled <$> m !! y) /\ same_info m mF.
Proof.
  intros Ht Hl. destruct (set_next_ok m t 0 Ht) as (m1 & -> & Hn1 & Hs1 & Hi1). cbn [mbind option_bind].
  destruct (qs hi) as [|u l _] using rev_ind.
  - exists m1. split_and!; try done; [by rewrite Hn1, decide_True|]. intros y Hy _. by rewrite Hn1, decide_False.
  - rewrite tail_of_snoc. rewrite last0_snoc in *. destruct Hl as [Hu Hut]; [by destruct l|].
    assert (is_Some (m1 !! u)) as Hu1.
    { destruct Hu as [k Hk]. specialize (Hs1 u). rewrite Hk in Hs1. destruct (m1 !! u); [eauto|done]. }
    destruct (set_next_ok m1 u t Hu1) as (m2 & -> & Hn2 & Hs2 & Hi2). exists m2. split_and!; try done.
    + by rewrite Hn2, decide_False, Hn1, decide_True.
    + intros y Hyt Hyu. by rewrite Hn2, decide_False, Hn1, decide_False.
    + intros _. by rewrite Hn2, decide_True.
    + intros y. by rewrite Hs2, Hs1.
    + by eapply same_info_trans.
Qed.

Lemma tasklet_append_alt hi t s (qs : bool -> list Z) :
  th_tail (vec hi s) = tail_of (qs hi) ->
  tasklet_append hi t s =
    (mF ← (m1 ← set_next t 0 (tasklets s); match tail_of (qs hi) with TailHead => Some m1 | TailNext u => set_next u t m1 end);
     Some (set_vec hi (MkTh (if decide (qs hi = []) then t else th_head (vec hi s)) (TailNext t)) (set_tasklets mF s))).
Proof.
  intros Ht. unfold tasklet_append. rewrite Ht. destruct (set_next t 0 (tasklets s)) as [m1|]; [|done]. cbn [mbind option_bind].
  destruct (qs hi) as [|u l _] using rev_ind; [by rewrite decide_True|]. rewrite tail_of_snoc.
  destruct (set_next u t m1); [|done]. cbn [mbind option_bind]. by rewrite decide_False by (by destruct l).
Qed.

(** The lists of the representation do not share tasklets. *)
Lemma rep_disjoint s ptr x d qs hi y :
  tk_rep s ptr x d qs -> y ∈ qs hi -> (y ∉ x) /\ (y ∉ d) /\ (forall hi', hi' <> hi -> y ∉ qs hi').
Proof.
  intros H Hy. pose proof (tr_nodup _ _ _ _ _ H) as Hnd. apply NoDup_app in Hnd as (_ & Hx & Hnd).
  apply NoDup_app in Hnd as (_ & Hd & Hnd). unfold queued in Hnd. apply NoDup_app in Hnd as (_ & Hq & _).
  pose proof (queued_in _ _ _ Hy) as Hyq. split_and!.
  - intros Hyx. apply (Hx y Hyx), elem_of_app. by right.
  - intros Hyd. by apply (Hd y Hyd).
  - intros hi' Hne Hy'. destruct hi, hi'; try done; by apply (Hq y).
Qed.

Lemma rep_queue_nodup s ptr x d qs hi : tk_rep s ptr x d qs -> NoDup (qs hi).
Proof.
  intros H. pose proof (tr_nodup _ _ _ _ _ H) as Hnd. apply NoDup_app in Hnd as (_ & _ & Hnd).
  apply NoDup_app in Hnd as (_ & _ & Hnd). unfold queued in Hnd. apply NoDup_app in Hnd as (? & _ & ?). by destruct hi.
Qed.

(** A tasklet outside queue [hi] is not its last one. *)
Lemma not_last y l : y ∉ l -> y <> 0 -> y <> last0 l.
Proof. intros Hy Hz ->. destruct (decide (l = [])) as [->|Hl]; [done|]. by apply Hy, last0_in. Qed.

Lemma tasklet_append_ok hi t s ptr x d qs :
  tk_rep s ptr (t :: x) d qs -> is_Some (tasklets s !! t) ->
  exists s', tasklet_append hi t s = Some s' /\ tk_rep s' ptr x d (upd hi (qs hi ++ [t]) qs) /\
    same_info (tasklets s) (tasklets s') /\ softirq_pending s' = softirq_pending s.
Proof.
  intros H Ht. pose proof (tr_queue _ _ _ _ _ H hi) as [Hq Htl].
  assert (forall hi' y, y ∈ qs hi' -> y <> t) as Hqt.
  { intros hi' y Hy ->. apply (rep_disjoint _ _ _ _ _ _ _ H) in Hy as [Hy _]. apply Hy. by left. }
  destruct (append_memory (tasklets s) hi qs t Ht) as (mF & E & Hn & Hsame & Hlast & Hsch & Hinfo).
  { intros Hne. pose proof (last0_in _ Hne) as Hin. split; [|by eapply Hqt].
    destruct (lseg_node _ _ _ _ _ Hq Hin) as [n Hn]. unfold nx in Hn. destruct (tasklets s !! last0 (qs hi)); [eauto|done]. }
  rewrite (tasklet_append_alt hi t s qs Htl), E. cbn [mbind option_bind]. eexists. split; [reflexivity|].
  split; [|split; [by destruct hi|by destruct hi]].
  assert (Permutation (x ++ d ++ queued (upd hi (qs hi ++ [t]) qs)) (t :: x ++ d ++ queued qs)) as Hperm.
  { rewrite queued_snoc. solve_Permutation. }
  split; cbn [tasklets set_vec set_tasklets softirq_pending]; [..|apply H].
  - pose proof (tr_detached _ _ _ _ _ H) as Hdet. eapply lseg_ext; [|done]. intros y Hy. apply Hsame.
    + intros ->. pose proof (tr_nodup _ _ _ _ _ H) as Hnd. apply NoDup_cons in Hnd as [Hnd _].
      apply Hnd, elem_of_app. right. apply elem_of_app. by left.
    + apply not_last; [|by eapply (lseg_nonzero _ _ _ _ _ Hdet)]. intros Hyq. by apply (rep_disjoint _ _ _ _ _ _ _ H) in Hyq as (_ & ? & _).
  - intros hi'. destruct (decide (hi' = hi)) as [->|Hne].
    + rewrite upd_eq, tail_of_snoc. split; [|by destruct hi].
      replace (th_head (vec hi _)) with (if decide (qs hi = []) then t else th_head (vec hi s)) by (by destruct hi).
      eapply (append_links (tasklets s)); try done; [|by eapply (tr_nonzero _ _ _ _ _ H)].
      apply NoDup_app. split_and!; [by eapply rep_queue_nodup|intros y Hy ->%list_elem_of_singleton; by eapply Hqt|apply NoDup_singleton].
    + rewrite upd_ne by done. pose proof (tr_queue _ _ _ _ _ H hi') as [Hq' Htl'].
      replace (vec hi' _) with (vec hi' s) by (by destruct hi, hi'). split; [|done].
      eapply lseg_ext; [|done]. intros y Hy. apply Hsame; [by eapply Hqt|].
      apply not_last; [|by eapply (lseg_nonzero _ _ _ _ _ Hq')]. apply (rep_disjoint _ _ _ _ _ _ _ H) in Hy as (_ & _ & Hy). auto.
  - rewrite Hperm. apply H.
  - intros y k Hk. rewrite Hperm. specialize (Hsch y). rewrite Hk in Hsch. cbn in Hsch.
    destruct (tasklets s !! y) as [k0|] eqn:Ek0; [|done]. injection Hsch as ->. by apply (tr_sched _ _ _ _ _ H).
  - intros y Hy. eapply (tr_nonzero _ _ _ _ _ H), is_Some_scheduled, Hy. by apply Hsch.
Qed.

(** ** Scheduling *)

Lemma rep_frame s s' ptr x d qs :
  tk_rep s ptr x d qs -> tasklets s' = tasklets s -> (forall hi, vec hi s' = vec hi s) -> 0 <= softirq_pending s' < 2 ^ 32 ->
  tk_rep s' ptr x d qs.
Proof. intros H E1 E2 Hp. split; rewrite ?E1; try apply H; [|done]. intros hi. rewrite E2. apply H. Qed.

Lemma raise_bits nr s i :
  0 <= nr < 32 -> 0 <= i < 32 ->
  Z.testbit (softirq_pending (__raise_softirq_irqoff nr s)) i = (Z.eqb i nr || Z.testbit (softirq_pending s) i)%bool.
Proof.
  intros Hn Hi. cbn. unfold u32, wrapu. rewrite Z.mod_pow2_bits_low, Z.lor_spec, Z.mod_pow2_bits_low by lia.
  rewrite Z.shiftl_1_l, Z.pow2_bits_eqb, orb_comm, Z.eqb_sym by lia. done.
Qed.

Lemma vec_softirq_range hi : 0 <= vec_softirq hi < 32.
Proof. unfold vec_softirq, HI_SOFTIRQ, TASKLET_SOFTIRQ. destruct hi; lia. Qed.

(** Raising the softirq of [hi]. *)
Lemma raise_raised hi s qs l :
  raised_in mask s qs -> raised_in mask (__raise_softirq_irqoff (vec_softirq hi) s) (upd hi l qs).
Proof.
  intros H hi' Hne. rewrite Z.lor_spec, raise_bits by apply vec_softirq_range. destruct (Bool.eqb_spec hi' hi) as [->|Hh].
  - by rewrite Z.eqb_refl.
  - rewrite upd_ne in Hne by done. specialize (H hi' Hne). rewrite Z.lor_spec in H. by rewrite <- orb_assoc, H, orb_true_r.
Qed.

Lemma raise_softirq_irqoff_ok nr s ptr x d qs :
  tk_rep s ptr x d qs ->
  tk_rep (raise_softirq_irqoff nr s) ptr x d qs /\ tasklets (raise_softirq_irqoff nr s) = tasklets s /\
  softirq_pending (raise_softirq_irqoff nr s) = softirq_pending (__raise_softirq_irqoff nr s).
Proof.
  intros H. unfold raise_softirq_irqoff.
  assert (forall s1, tasklets s1 = tasklets s -> (forall hi, vec hi s1 = vec hi s) ->
    softirq_pending s1 = softirq_pending (__raise_softirq_irqoff nr s) ->
    tk_rep s1 ptr x d qs /\ tasklets s1 = tasklets s /\ softirq_pending s1 = softirq_pending (__raise_softirq_irqoff nr s)) as Hf.
  { intros s1 E1 E2 E3. split_and!; try done. eapply rep_frame; try done. rewrite E3. apply u32_range. }
  destruct (in_interrupt _); [apply Hf; [done|by intros []|done]|].
  unfold wakeup_softirqd. destruct (ksoftirqd _); apply Hf; (done || by intros []).
Qed.

(** The specification of scheduling [t] on queue [hi] while [held] are the
    scheduled tasklets that are on no queue. *)
Definition sched_spec (held : list Z) (qs : bool -> list Z) (ht : bool * Z) : bool -> list Z :=
  if decide (ht.2 ∈ held ++ queued qs) then qs else upd ht.1 (qs ht.1 ++ [ht.2]) qs.

Lemma bit_other (n m : Z) st : n <> m -> 0 <= n -> 0 <= m ->
  test_bit m (set_bit n st) = test_bit m st /\ test_bit m (clear_bit n st) = test_bit m st.
Proof.
  intros Hnm Hn Hm. rewrite test_set_bit, test_clear_bit by done.
  destruct (Z.eqb_spec m n); [congruence|done].
Qed.

(** Changing the state word of [t]: what its mark becomes decides the list. *)
Lemma rep_set_state s ptr x x' d qs t k st :
  tk_rep s ptr x d qs -> tasklets s !! t = Some k -> NoDup (x' ++ d ++ queued qs) ->
  (test_bit TASKLET_STATE_SCHED st = true <-> t ∈ x' ++ d ++ queued qs) ->
  (forall y, y <> t -> y ∈ x' <-> y ∈ x) ->
  tk_rep (set_tasklets (<[t := MkTk (tk_next k) st (tk_count k) (tk_func k) (tk_data k)]> (tasklets s)) s) ptr x' d qs.
Proof.
  intros H Hk Hnd Hst Hx. 
  assert (forall y, nx (<[t := MkTk (tk_next k) st (tk_count k) (tk_func k) (tk_data k)]> (tasklets s)) y = nx (tasklets s) y) as Hn.
  { intros y. rewrite nx_insert. destruct (decide (y = t)) as [->|]; [|done]. unfold nx. by rewrite Hk. }
  split; cbn [tasklets set_tasklets softirq_pending]; try done; [..|apply H].
  - eapply lseg_ext; [|apply H]. done.
  - intros hi. change (vec hi (set_tasklets _ s)) with (vec hi s). destruct (tr_queue _ _ _ _ _ H hi). split; [|done].
    eapply lseg_ext; [|eassumption]. intros y _. apply Hn.
  - intros y k' Hk'. destruct (decide (y = t)) as [->|Hy].
    + rewrite lookup_insert_eq in Hk'. by injection Hk' as <-.
    + rewrite lookup_insert_ne in Hk' by done. rewrite (tr_sched _ _ _ _ _ H y k' Hk'), !(elem_of_app x), (elem_of_app x').
      by rewrite Hx.
  - intros y. destruct (decide (y = t)) as [->|Hy]; intros Hs; apply (tr_nonzero _ _ _ _ _ H); [eauto|].
    by rewrite lookup_insert_ne in Hs.
Qed.

Lemma same_info_insert m t k k' : m !! t = Some k -> info k' = info k -> same_info m (<[t := k']> m).
Proof.
  intros Hk E y. destruct (decide (y = t)) as [->|]; [|by rewrite lookup_insert_ne].
  rewrite lookup_insert_eq, Hk. cbn. by rewrite E.
Qed.

Lemma tasklet_schedule_ok hi t s ptr x d qs :
  tk_rep s ptr x d qs -> raised_in mask s qs -> is_Some (tasklets s !! t) ->
  exists s', tasklet_schedule hi t s = Some s' /\ tk_rep s' ptr x d (sched_spec (x ++ d) qs (hi, t)) /\
    raised_in mask s' (sched_spec (x ++ d) qs (hi, t)) /\ same_info (tasklets s) (tasklets s').
Proof.
  intros H Hr [k Hk]. unfold tasklet_schedule, sched_spec. rewrite Hk. cbn [mbind option_bind fst snd].
  pose proof (tr_sched _ _ _ _ _ H t k Hk) as Hs. rewrite app_assoc in Hs. unfold scheduled in Hs.
  destruct (test_bit TASKLET_STATE_SCHED (tk_state k)) eqn:E.
  { rewrite decide_True by (by apply Hs). exists s. by split_and!. }
  rewrite decide_False by (by intros ?%Hs). rewrite (set_state_ok _ _ _ _ Hk). cbn [mbind option_bind].
  assert (t ∉ x ++ d ++ queued qs) as Hni by (rewrite app_assoc; by intros ?%Hs).
  pose proof (rep_set_state s ptr x (t :: x) d qs t k (set_bit TASKLET_STATE_SCHED (tk_state k)) H Hk) as H1.
  destruct (tasklet_append_ok hi t _ ptr x d qs (H1 ltac:(constructor; [done|apply H])
    ltac:(rewrite test_set_bit by done; rewrite Z.eqb_refl; split; [by left|done])
    ltac:(intros y Hy; rewrite elem_of_cons; tauto))) as (s2 & E2 & H2 & Hi2 & Hp2).
  { cbn. rewrite lookup_insert_eq. eauto. }
  unfold __tasklet_schedule. rewrite E2. cbn [mbind option_bind]. eexists. split; [reflexivity|].
  destruct (raise_softirq_irqoff_ok (vec_softirq hi) s2 _ _ _ _ H2) as (H3 & Et & Ep). split; [done|]. split.
  - intros hi' Hne. rewrite Ep. assert (raised_in mask s2 qs) as Hr2 by (intros hi2; rewrite Hp2; apply Hr).
    by apply (raise_raised hi s2 qs (qs hi ++ [t]) Hr2).
  - rewrite Et. eapply same_info_trans; [|done]. eapply same_info_insert; [done|]. unfold info. cbn.
    by rewrite (proj1 (bit_other TASKLET_STATE_SCHED TASKLET_STATE_RUN (tk_state k) ltac:(done) ltac:(done) ltac:(done))).
Qed.

(** ** Running

    A tasklet function as the calls of [tasklet_schedule] and
    [tasklet_hi_schedule] it makes. *)
Fixpoint schedule_all (l : list (bool * Z)) (s : cpu) : option cpu :=
  match l with
  | [] => Some s
  | (hi, t) :: l' => s' ← tasklet_schedule hi t s; schedule_all l' s'
  end.

Lemma same_info_Some m m' t : same_info m m' -> is_Some (m !! t) -> is_Some (m' !! t).
Proof. intros H [k Hk]. specialize (H t). rewrite Hk in H. destruct (m' !! t); [eauto|done]. Qed.

Lemma schedule_all_ok l s ptr x d qs :
  tk_rep s ptr x d qs -> raised_in mask s qs -> Forall (fun ht => is_Some (tasklets s !! ht.2)) l ->
  exists s', schedule_all l s = Some s' /\ tk_rep s' ptr x d (foldl (sched_spec (x ++ d)) qs l) /\
    raised_in mask s' (foldl (sched_spec (x ++ d)) qs l) /\ same_info (tasklets s) (tasklets s').
Proof.
  revert s qs. induction l as [|[hi t] l IH]; intros s qs H Hr Hl; [by exists s|].
  apply Forall_cons in Hl as [Ht Hl]. cbn [schedule_all foldl].
  destruct (tasklet_schedule_ok hi t s _ _ _ _ H Hr Ht) as (s1 & -> & H1 & Hr1 & Hi1). cbn [mbind option_bind].
  destruct (IH s1 _ H1 Hr1) as (s2 & E2 & H2 & Hr2 & Hi2).
  { eapply Forall_impl; [exact Hl|]. intros ht. by apply same_info_Some. }
  exists s2. split_and!; try done. by eapply same_info_trans.
Qed.

Section run.
Context (body : Z -> Z -> list (bool * Z)).
Definition fn_of (f dt : Z) (s : cpu) : option cpu := schedule_all (body f dt) s.

Lemma tasklet_run_ok t k s ptr d qs :
  tk_rep s ptr [t] d qs -> raised_in mask s qs -> tasklets s !! t = Some k ->
  test_bit TASKLET_STATE_RUN (tk_state k) = false ->
  Forall (fun ht => is_Some (tasklets s !! ht.2)) (body (tk_func k) (tk_data k)) ->
  exists s', tasklet_run fn_of t k s = Some s' /\
    tk_rep s' ptr [] d (foldl (sched_spec d) qs (body (tk_func k) (tk_data k))) /\
    raised_in mask s' (foldl (sched_spec d) qs (body (tk_func k) (tk_data k))) /\ same_info (tasklets s) (tasklets s').
Proof.
  intros H Hr Hk Hrun Hb. unfold tasklet_run.
  assert (scheduled k = true) as Hsch by (apply (tr_sched _ _ _ _ _ H t k Hk); by left). unfold scheduled in Hsch.
  rewrite (proj1 (bit_other TASKLET_STATE_RUN TASKLET_STATE_SCHED _ ltac:(done) ltac:(done) ltac:(done))), Hsch. cbn [negb].
  rewrite (set_state_ok _ _ _ _ Hk). cbn [mbind option_bind].
  pose proof (tr_nodup _ _ _ _ _ H) as Hnd. cbn [app] in Hnd. apply NoDup_cons in Hnd as [Htn Hnd].
  set (st1 := clear_bit TASKLET_STATE_SCHED (set_bit TASKLET_STATE_RUN (tk_state k))).
  assert (tk_rep (set_tasklets (<[t := MkTk (tk_next k) st1 (tk_count k) (tk_func k) (tk_data k)]> (tasklets s)) s) ptr [] d qs) as H1.
  { eapply rep_set_state; try done.
    - unfold st1. rewrite test_clear_bit, Z.eqb_refl by done. cbn [negb andb app]. by split.
    - intros y Hy. rewrite list_elem_of_singleton. split; [by intros ?%not_elem_of_nil|done]. }
  set (s1 := emit _ (set_tasklets _ s)).
  assert (tk_rep s1 ptr [] d qs) as H2 by (eapply rep_frame; [exact H1|done|by intros []|apply H]).
  destruct (schedule_all_ok (body (tk_func k) (tk_data k)) s1 ptr [] d qs H2 Hr) as (s2 & E2 & H3 & Hr3 & Hi3).
  { eapply Forall_impl; [exact Hb|]. intros ht Hs. cbn. destruct (decide (ht.2 = t)) as [->|].
    - rewrite lookup_insert_eq. eauto.
    - by rewrite lookup_insert_ne. }
  unfold fn_of. rewrite E2. cbn [mbind option_bind app] in *.
  assert (tasklets s1 !! t = Some (MkTk (tk_next k) st1 (tk_count k) (tk_func k) (tk_data k))) as Hk1 by (cbn; by rewrite lookup_insert_eq).
  pose proof (Hi3 t) as Ht2. rewrite Hk1 in Ht2. destruct (tasklets s2 !! t) as [k2|] eqn:Hk2; [|done].
  cbn in Ht2. injection Ht2 as Ec Er Ef Ed. cbn [mbind option_bind]. change (tasklets (emit _ s2)) with (tasklets s2).
  rewrite (set_state_ok _ _ _ _ Hk2). cbn [mbind option_bind]. eexists. split; [reflexivity|].
  set (st2 := clear_bit TASKLET_STATE_RUN (tk_state k2)).
  assert (test_bit TASKLET_STATE_SCHED st2 = scheduled k2) as Hst2.
  { unfold st2. by rewrite (proj2 (bit_other TASKLET_STATE_RUN TASKLET_STATE_SCHED _ ltac:(done) ltac:(done) ltac:(done))). }
  split_and!.
  - eapply (rep_frame (set_tasklets _ s2)); [|reflexivity|by intros []|apply H3]. eapply rep_set_state; try done; [apply H3|].
    rewrite Hst2. by apply (tr_sched _ _ _ _ _ H3).
  - done.
  - intros y. cbn. destruct (decide (y = t)) as [->|Hy].
    + rewrite lookup_insert_eq, Hk. cbn. unfold info. cbn. unfold st2. rewrite test_clear_bit, Z.eqb_refl, Hrun by done.
      cbn. by rewrite Ec, Ef, Ed.
    + rewrite lookup_insert_ne by done. rewrite Hi3. cbn. by rewrite lookup_insert_ne.
Qed.

(** ** The loop *)

Definition runnable (m : gmap Z tasklet_struct) (t : Z) : bool :=
  match m !! t with Some k => negb (test_bit TASKLET_STATE_RUN (tk_state k)) && (tk_count k =? 0) | None => false end.
Definition body_of (m : gmap Z tasklet_struct) (t : Z) : list (bool * Z) :=
  match m !! t with Some k => body (tk_func k) (tk_data k) | None => [] end.

(** What happens to the queues when the list [d] is processed. *)
Fixpoint loop_spec (m : gmap Z tasklet_struct) (hi : bool) (d : list Z) (qs : bool -> list Z) : bool -> list Z :=
  match d with
  | [] => qs
  | t :: d' =>
      if runnable m t then loop_spec m hi d' (foldl (sched_spec d') qs (body_of m t))
      else loop_spec m hi d' (upd hi (qs hi ++ [t]) qs)
  end.

Lemma same_info_runnable m m' t : same_info m m' -> runnable m' t = runnable m t /\ body_of m' t = body_of m t.
Proof.
  intros H. specialize (H t). unfold runnable, body_of. destruct (m' !! t) as [k'|], (m !! t) as [k|]; try done.
  cbn in H. injection H as Ec Er Ef Ed. by rewrite Ec, Er, Ef, Ed.
Qed.

Lemma rep_pop s t n d qs :
  tk_rep s t [] (t :: d) qs -> nx (tasklets s) t = Some n -> tk_rep s n [t] d qs.
Proof.
  intros H Hn. split; try apply H. destruct (tr_detached _ _ _ _ _ H) as (_ & _ & n' & Hn' & Hs). rewrite Hn in Hn'. by injection Hn' as <-.
Qed.

Lemma tasklet_requeue_ok hi t s ptr d qs :
  tk_rep s ptr [t] d qs -> raised_in mask s qs -> is_Some (tasklets s !! t) ->
  exists s', tasklet_requeue hi t s = Some s' /\ tk_rep s' ptr [] d (upd hi (qs hi ++ [t]) qs) /\
    raised_in mask s' (upd hi (qs hi ++ [t]) qs) /\ same_info (tasklets s) (tasklets s').
Proof.
  intros H Hr Ht. destruct (tasklet_append_ok hi t s ptr [] d qs H Ht) as (s1 & E & H1 & Hi1 & Hp1).
  unfold tasklet_requeue. rewrite E. cbn [mbind option_bind]. eexists. split; [reflexivity|]. split_and!; [| |done].
  - eapply rep_frame; [exact H1|done|by intros []|]. apply u32_range.
  - apply (raise_raised hi (emit _ s1) qs). intros hi' Hne. change (softirq_pending (emit _ s1)) with (softirq_pending s1).
    rewrite Hp1. by apply Hr.
Qed.

Lemma tasklet_loop_ok m hi fuel ptr d s qs :
  tk_rep s ptr [] d qs -> raised_in mask s qs -> same_info m (tasklets s) -> (length d < fuel)%nat ->
  (forall t, Forall (fun ht => is_Some (m !! ht.2)) (body_of m t)) ->
  exists s', tasklet_loop fn_of fuel hi ptr s = Some (s', filter (fun t => runnable m t = true) d) /\
    tk_rep s' 0 [] [] (loop_spec m hi d qs) /\ raised_in mask s' (loop_spec m hi d qs).
Proof.
  revert fuel ptr s qs. induction d as [|t d IH]; intros fuel ptr s qs H Hr Hi Hf Hb; (destruct fuel as [|fuel]; [cbn in Hf; lia|]).
  { pose proof (tr_detached _ _ _ _ _ H) as Hp. cbn [lseg] in Hp. subst ptr. exists s. split; [done|]. split; [exact H|exact Hr]. }
  cbn [length] in Hf. pose proof (tr_detached _ _ _ _ _ H) as (-> & Ht0 & n & Hn & _). cbn [tasklet_loop loop_spec].
  destruct (Z.eqb_spec t 0) as [|_]; [done|]. change (tasklets (emit tp_looprestart s)) with (tasklets s).
  pose proof Hn as Hn'. unfold nx in Hn'. destruct (tasklets s !! t) as [k|] eqn:Hk; [|done]. injection Hn' as Hkn. cbn [mbind option_bind].
  pose proof (rep_frame s (emit tp_looprestart s) n [t] d qs (rep_pop _ _ _ _ _ H Hn) eq_refl ltac:(by intros []) (tr_pending _ _ _ _ _ H)) as H1.
  destruct (same_info_runnable _ _ t Hi) as [Hrt Hbt]. unfold runnable at 1 in Hrt. unfold body_of at 1 in Hbt. rewrite Hk in Hrt, Hbt.
  rewrite filter_cons, <- Hbt, Hrt, Hkn. destruct (runnable m t) eqn:Er.
  - rewrite decide_True by done. apply andb_true_iff in Hrt as [Hrun%negb_true_iff _].
    destruct (tasklet_run_ok t k (emit tp_looprestart s) n d qs H1 Hr Hk Hrun) as (s2 & -> & H2 & Hr2 & Hi2).
    { rewrite Hbt. eapply Forall_impl; [apply (Hb t)|]. intros ht. by apply same_info_Some. }
    cbn [mbind option_bind]. destruct (IH fuel n s2 _ H2 Hr2) as (s3 & -> & H3 & Hr3); [by eapply same_info_trans|lia|done|].
    cbn [mbind option_bind]. by exists s3.
  - rewrite decide_False by done.
    destruct (tasklet_requeue_ok hi t (emit tp_looprestart s) n d qs H1 Hr) as (s2 & -> & H2 & Hr2 & Hi2); [cbn; eauto|].
    cbn [mbind option_bind]. destruct (IH fuel n s2 _ H2 Hr2) as (s3 & -> & H3 & Hr3); [by eapply same_info_trans|lia|done|].
    by exists s3.
Qed.
End run.
End tasklet_proofs.

Lemma dom_length (m : gmap Z tasklet_struct) (l : list Z) :
  NoDup l -> (forall t, t ∈ l -> is_Some (m !! t)) -> (length l <= size m)%nat.
Proof.
  intros Hnd Hl. rewrite <- (size_dom (D := gset Z)), <- (size_list_to_set (C := gset Z) l) by done.
  apply subseteq_size. intros x Hx%elem_of_list_to_set. apply elem_of_dom. auto.
Qed.

Lemma queue_exists s ptr x d qs hi t : tk_rep s ptr x d qs -> t ∈ qs hi -> is_Some (tasklets s !! t).
Proof.
  intros H Ht. destruct (lseg_node _ _ _ _ _ (proj1 (tr_queue _ _ _ _ _ H hi)) Ht) as [n Hn]. unfold nx in Hn.
  destruct (tasklets s !! t); [eauto|done].
Qed.

(** Detaching the queue [hi]. *)
Lemma rep_detach hi s qs :
  tk_rep s 0 [] [] qs -> tk_rep (set_vec hi (MkTh 0 TailHead) s) (th_head (vec hi s)) [] (qs hi) (upd hi [] qs).
Proof.
  intros H. split; cbn [tasklets set_vec softirq_pending]; try apply H.
  - intros hi'. destruct (decide (hi' = hi)) as [->|Hne]; [rewrite upd_eq; by destruct hi|].
    rewrite upd_ne by done. replace (vec hi' _) with (vec hi' s) by (by destruct hi, hi'). apply H.
  - pose proof (tr_nodup _ _ _ _ _ H) as Hnd. unfold queued, upd in *. cbn [app] in *.
    destruct hi; cbn; [by rewrite app_nil_r, Permutation_app_comm|done].
  - intros t k Hk. rewrite (tr_sched _ _ _ _ _ H t k Hk). unfold queued, upd. rewrite !elem_of_app.
    destruct hi; cbn; rewrite elem_of_nil; tauto.
Qed.

Lemma sched_spec_keeps held qs ht hi t : t ∈ qs hi -> t ∈ sched_spec held qs ht hi.
Proof.
  intros Ht. unfold sched_spec. destruct (decide _); [done|]. destruct (decide (hi = ht.1)) as [->|Hne].
  - rewrite upd_eq. apply elem_of_app. by left.
  - by rewrite upd_ne.
Qed.

Lemma loop_spec_keeps body m hi d qs hi' t : t ∈ qs hi' -> t ∈ loop_spec body m hi d qs hi'.
Proof.
  revert qs. induction d as [|u d IH]; intros qs Ht; [done|]. cbn [loop_spec]. destruct (runnable m u); apply IH.
  - generalize (body_of body m u) as l. intros l. revert qs Ht. induction l as [|ht l IHl]; intros qs Ht; [done|].
    cbn [foldl]. by apply IHl, sched_spec_keeps.
  - destruct (decide (hi' = hi)) as [->|Hne]; [rewrite upd_eq; apply elem_of_app; by left|by rewrite upd_ne].
Qed.

Lemma loop_spec_requeues body m hi d qs t : t ∈ d -> runnable m t = false -> t ∈ loop_spec body m hi d qs hi.
Proof.
  revert qs. induction d as [|u d IH]; intros qs; [by intros ?%not_elem_of_nil|]. cbn [loop_spec].
  intros [->|Ht]%elem_of_cons Hr; [|destruct (runnable m u); by apply IH].
  rewrite Hr. apply loop_spec_keeps. rewrite upd_eq. apply elem_of_app. right. by left.
Qed.

(** Scheduling a tasklet puts it at the end of its queue and raises the
    softirq of the queue, unless it is already scheduled on either queue; then,
    and on every further attempt, nothing changes. *)
Theorem tasklet_scheduled_once (hi : bool) (t : Z) (s : cpu) (qs : bool -> list Z) :
  tk_rep s 0 [] [] qs -> raised s qs -> is_Some (tasklets s !! t) ->
  exists s1, tasklet_schedule hi t s = Some s1 /\
    (let qs1 := if decide (t ∈ queued qs) then qs else upd hi (qs hi ++ [t]) qs in
     tk_rep s1 0 [] [] qs1 /\ raised s1 qs1 /\ t ∈ queued qs1) /\
    forall hi', tasklet_schedule hi' t s1 = Some s1.
Proof.
  intros H Hr Ht. destruct (tasklet_schedule_ok 0 hi t s 0 [] [] qs H Hr Ht) as (s1 & E & H1 & Hr1 & Hi).
  unfold sched_spec in *. cbn [app fst snd] in *. exists s1. split; [done|].
  assert (t ∈ queued (if decide (t ∈ queued qs) then qs else upd hi (qs hi ++ [t]) qs)) as Hin.
  { destruct (decide (t ∈ queued qs)); [done|]. rewrite queued_snoc. by left. }
  split; [by split_and!|]. intros hi'. unfold tasklet_schedule. destruct (same_info_Some _ _ t Hi Ht) as [k Hk]. rewrite Hk. cbn [mbind option_bind].
  change (test_bit TASKLET_STATE_SCHED (tk_state k)) with (scheduled k). by rewrite (proj2 (tr_sched _ _ _ _ _ H1 t k Hk) Hin).
Qed.

(** A CPU on which tasklet 64 is scheduled, tasklet 128 is scheduled but
    disabled, and tasklet 192 is not scheduled. *)
Definition tk_cpu : cpu :=
  MkCpu 257 64 [0; 0; 0; 0; 0; 0; 0; 0; 0; 0] Sleeping
    {[64 := MkTk 128 1 0 1000 7; 128 := MkTk 0 1 1 2000 7; 192 := MkTk 0 0 0 3000 7]}
    (MkTh 64 (TailNext 128)) (MkTh 0 TailHead) [].
Definition tk_qs (hi : bool) : list Z := if hi then [] else [64; 128].

Lemma tk_cpu_rep : tk_rep tk_cpu 0 [] [] tk_qs.
Proof.
  split.
  - reflexivity.
  - intros []; (split; [|reflexivity]); [reflexivity|]. cbn. split_and!; try lia. exists 128. split; [reflexivity|].
    split_and!; try lia. by exists 0.
  - apply (bool_decide_unpack _). vm_compute. exact I.
  - intros t k. cbn [tasklets tk_cpu]. change (_ ++ _ ++ queued tk_qs) with [64; 128].
    rewrite !elem_of_cons, elem_of_nil.
    intros [[<- <-]|[? Hk]]%lookup_insert_Some; [split; [tauto|done]|].
    apply lookup_insert_Some in Hk as [[<- <-]|[? Hk]]; [split; [tauto|done]|].
    apply lookup_singleton_Some in Hk as [<- <-]. split; [done|intuition lia].
  - intros t [k Hk] ->. vm_compute in Hk. discriminate.
  - simpl. lia.
Qed.

Lemma tk_cpu_raised : raised tk_cpu tk_qs.
Proof. by intros []. Qed.

Lemma tasklet_scheduled_once_witness :
  exists s1, tasklet_schedule false 192 tk_cpu = Some s1 /\
    (let qs1 := if decide (192 ∈ queued tk_qs) then tk_qs else upd false (tk_qs false ++ [192]) tk_qs in
     tk_rep s1 0 [] [] qs1 /\ raised s1 qs1 /\ 192 ∈ queued qs1) /\
    forall hi', tasklet_schedule hi' 192 s1 = Some s1.
Proof. apply (tasklet_scheduled_once false 192 tk_cpu tk_qs tk_cpu_rep tk_cpu_raised). by eexists. Defined.

Lemma tasklet_action_ok mask (body : Z -> Z -> list (bool * Z)) (hi : bool) (s : cpu) (qs : bool -> list Z) :
  tk_rep s 0 [] [] qs -> raised_in mask s (upd hi [] qs) ->
  (forall t, Forall (fun ht => is_Some (tasklets s !! ht.2)) (body_of body (tasklets s) t)) ->
  exists s', tasklet_action (fn_of body) hi s =
      Some (s', filter (fun t => runnable (tasklets s) t = true) (qs hi)) /\
    (let qs' := loop_spec body (tasklets s) hi (qs hi) (upd hi [] qs) in
     tk_rep s' 0 [] [] qs' /\ raised_in mask s' qs' /\
     forall t, t ∈ qs hi -> runnable (tasklets s) t = false -> t ∈ qs' hi).
Proof.
  intros H Hr Hb. unfold tasklet_action.
  set (s0 := emit _ (set_vec hi (MkTh 0 TailHead) s)).
  assert (tk_rep s0 (th_head (vec hi s)) [] (qs hi) (upd hi [] qs)) as H0.
  { eapply rep_frame; [by apply rep_detach|done|by intros []|apply H]. }
  destruct (tasklet_loop_ok mask body (tasklets s) hi (S (size (tasklets s0))) (th_head (vec hi s)) (qs hi) s0 (upd hi [] qs))
    as (s1 & E & H1 & Hr1); try done.
  { apply Nat.lt_succ_r, dom_length; [by eapply rep_queue_nodup|]. intros t. by eapply (queue_exists s). }
  rewrite E. cbn [mbind option_bind]. eexists. split; [reflexivity|]. cbn zeta. split_and!; [|done|].
  - eapply rep_frame; [exact H1|done|by intros []|apply H1].
  - intros t Ht Hrt. by apply loop_spec_requeues.
Qed.

(** C37: [tasklet_action] runs every tasklet that was queued, is enabled and is
    not running elsewhere, exactly once and in the order of the queue, whatever
    tasklets their functions schedule meanwhile; the other ones go back to the
    queue, and the softirq is pending again if the queue is not empty. *)
Theorem tasklet_action_fifo (body : Z -> Z -> list (bool * Z)) (hi : bool) (s : cpu) (qs : bool -> list Z) :
  tk_rep s 0 [] [] qs -> raised s (upd hi [] qs) ->
  (forall t, Forall (fun ht => is_Some (tasklets s !! ht.2)) (body_of body (tasklets s) t)) ->
  exists s', tasklet_action (fn_of body) hi s =
      Some (s', filter (fun t => runnable (tasklets s) t = true) (qs hi)) /\
    (let qs' := loop_spec body (tasklets s) hi (qs hi) (upd hi [] qs) in
     tk_rep s' 0 [] [] qs' /\ raised s' qs' /\
     forall t, t ∈ qs hi -> runnable (tasklets s) t = false -> t ∈ qs' hi).
Proof. apply tasklet_action_ok. Qed.

(** Running 64 schedules 192 and itself; 128 is disabled. *)
Definition tk_body (f dt : Z) : list (bool * Z) := if f =? 1000 then [(false, 192); (false, 64)] else [].

Lemma tasklet_action_fifo_witness :
  exists s', tasklet_action (fn_of tk_body) false tk_cpu = Some (s', [64]) /\
    (let qs' := loop_spec tk_body (tasklets tk_cpu) false [64; 128] (upd false [] tk_qs) in
     tk_rep s' 0 [] [] qs' /\ raised s' qs' /\
     forall t, t ∈ [64; 128] -> runnable (tasklets tk_cpu) t = false -> t ∈ qs' false).
Proof.
  apply (tasklet_action_fifo tk_body false tk_cpu tk_qs tk_cpu_rep).
  - by intros [].
  - intros t. unfold body_of. destruct (tasklets tk_cpu !! t) as [k|]; [|constructor]. unfold tk_body.
    destruct (tk_func k =? 1000); repeat constructor; by eexists.
Defined.

Example tasklet_action_queue :
  loop_spec tk_body (tasklets tk_cpu) false [64; 128] (upd false [] tk_qs) false = [192; 64; 128].
Proof. vm_compute. reflexivity. Qed.

(** [tasklet_hi_schedule_first] on an empty queue does not move the tail.
    The next [tasklet_hi_schedule] overwrites the head with its own tasklet: the
    first one is on no queue any more but still marked as scheduled, so it never
    runs and can never be scheduled again. *)
Theorem hi_schedule_first_lost (t u : Z) (s : cpu) (qs : bool -> list Z) (kt ku : tasklet_struct) :
  tk_rep s 0 [] [] qs -> qs true = [] -> t <> u ->
  tasklets s !! t = Some kt -> tasklets s !! u = Some ku -> scheduled kt = false -> scheduled ku = false ->
  exists s1 s2, tasklet_hi_schedule_first t s = Some s1 /\ tasklet_schedule true u s1 = Some s2 /\
    lseg (nx (tasklets s2)) (th_head (tasklet_hi_vec s2)) [u] 0 /\ tasklet_vec s2 = tasklet_vec s /\
    forall hi, tasklet_schedule hi t s2 = Some s2.
Proof.
  intros H Hq Htu Ht Hu Hst Hsu. pose proof (tr_queue _ _ _ _ _ H true) as [Hh Htl]. rewrite Hq in Hh, Htl. cbn in Hh, Htl.
  assert (u <> 0) as Hu0 by (eapply (tr_nonzero _ _ _ _ _ H); eauto).
  unfold tasklet_hi_schedule_first. rewrite Ht. cbn [mbind option_bind]. unfold scheduled in *. rewrite Hst, (set_state_ok _ _ _ _ Ht). cbn [mbind option_bind].
  unfold __tasklet_hi_schedule_first, set_next. cbn [tasklets set_tasklets tasklet_hi_vec]. rewrite lookup_insert_eq. cbn [mbind option_bind].
  eexists. eexists. split; [reflexivity|].
  unfold tasklet_schedule at 1. cbn [tasklets set_tasklets set_vec emit set_softirq_pending __raise_softirq_irqoff].
  rewrite !insert_insert_eq, lookup_insert_ne, Hu by done. cbn [mbind option_bind]. rewrite Hsu.
  unfold set_state. rewrite lookup_insert_ne, Hu by done. cbn [mbind option_bind].
  unfold __tasklet_schedule, tasklet_append, set_next. cbn [tasklets set_tasklets]. rewrite lookup_insert_eq. cbn [mbind option_bind].
  cbn [vec tasklet_hi_vec set_tasklets __raise_softirq_irqoff set_softirq_pending emit set_vec th_tail th_head]. rewrite Htl. cbn [mbind option_bind].
  split; [reflexivity|]. rewrite insert_insert_eq.
  set (s2 := raise_softirq_irqoff _ _).
  assert (forall s', tasklets (raise_softirq_irqoff (vec_softirq true) s') = tasklets s' /\
    tasklet_hi_vec (raise_softirq_irqoff (vec_softirq true) s') = tasklet_hi_vec s' /\
    tasklet_vec (raise_softirq_irqoff (vec_softirq true) s') = tasklet_vec s') as Hraise.
  { intros s'. unfold raise_softirq_irqoff, wakeup_softirqd. destruct (in_interrupt _); [done|]. by destruct (ksoftirqd _). }
  subst s2. rewrite !(proj1 (Hraise _)), (proj1 (proj2 (Hraise _))), (proj2 (proj2 (Hraise _))).
  cbn [tasklets set_tasklets set_vec tasklet_hi_vec tasklet_vec th_head]. split_and!; [|done|].
  - cbn [lseg]. split_and!; try done. exists 0. split; [|done]. unfold nx. by rewrite lookup_insert_eq.
  - intros hi. unfold tasklet_schedule. rewrite (proj1 (Hraise _)). cbn [tasklets set_tasklets set_vec].
    rewrite lookup_insert_ne, lookup_insert_eq by done. cbn [mbind option_bind tk_state].
    by rewrite test_set_bit, Z.eqb_refl by done.
Qed.

(** The CPU of the witnesses with a second tasklet that is not scheduled. *)
Definition tk_cpu2 : cpu := tasklet_init 256 4000 7 tk_cpu.

Lemma tk_cpu2_rep : tk_rep tk_cpu2 0 [] [] tk_qs.
Proof.
  pose proof tk_cpu_rep as H. assert (tasklets tk_cpu !! 256 = None) as Hn by reflexivity.
  assert (forall y, y <> 256 -> nx (tasklets tk_cpu2) y = nx (tasklets tk_cpu) y) as Hnx.
  { intros y Hy. unfold nx. cbn [tasklets tk_cpu2 tasklet_init set_tasklets]. by rewrite lookup_insert_ne. }
  split.
  - reflexivity.
  - intros hi. destruct (tr_queue _ _ _ _ _ H hi) as [Hq Ht]. split; [|by destruct hi].
    replace (vec hi tk_cpu2) with (vec hi tk_cpu) by (by destruct hi). eapply lseg_ext; [|exact Hq].
    intros y Hy. apply Hnx. intros ->. apply (queue_exists _ _ _ _ _ _ _ H) in Hy as [k Hk]. by rewrite Hn in Hk.
  - apply H.
  - intros t k Hk. cbn [tasklets tk_cpu2 tasklet_init set_tasklets] in Hk.
    apply lookup_insert_Some in Hk as [[<- <-]|[Hne Hk]]; [|by apply (tr_sched _ _ _ _ _ H)].
    split; [done|]. change ([] ++ [] ++ queued tk_qs) with [64; 128]. rewrite !elem_of_cons, elem_of_nil. intuition lia.
  - intros t [k Hk]. cbn [tasklets tk_cpu2 tasklet_init set_tasklets] in Hk.
    apply lookup_insert_Some in Hk as [[<- _]|[_ Hk]]; [done|]. apply (tr_nonzero _ _ _ _ _ H). eauto.
  - apply H.
Qed.

Lemma hi_schedule_first_lost_witness :
  exists s1 s2, tasklet_hi_schedule_first 192 tk_cpu2 = Some s1 /\ tasklet_schedule true 256 s1 = Some s2 /\
    lseg (nx (tasklets s2)) (th_head (tasklet_hi_vec s2)) [256] 0 /\ tasklet_vec s2 = tasklet_vec tk_cpu2 /\
    forall hi, tasklet_schedule hi 192 s2 = Some s2.
Proof.
  apply (hi_schedule_first_lost 192 256 tk_cpu2 tk_qs (MkTk 0 0 0 3000 7) (MkTk 0 0 0 4000 7) tk_cpu2_rep); try reflexivity.
  discriminate.
Defined.
