(* ===== verification/Deferred.v ===== *)
(** * Deferred work: tasklets on softirqs

    Softirqs and tasklets together. [tasklet_action] and [tasklet_hi_action] are
    two of the handlers that [__do_softirq] runs: they satisfy the interface of
    its handlers, so a tasklet that is scheduled in an interrupt runs when the
    interrupt returns. Then the parts of [kernel/softirq.c] around them: the
    thread [ksoftirqd], and the takeover of the tasklets of a CPU that is dead.

    The functions of tasklets and the other softirq handlers are code elsewhere:
    they are given as the softirqs they raise and the tasklets they schedule. *)

From stdpp Require Import prelude gmap list.
From Stdlib Require Import ZArith Lia.
From S2P Require Import Prelude Sepext Vsprintf Linked Softirq.

Open Scope Z_scope.
Open Scope list_scope.

(** ** The handlers *)

Inductive bh_call := Schedule (hi : bool) (t : Z) | Raise (nr : Z).

Definition bh_do (c : bh_call) (s : cpu) : option cpu :=
  match c with Schedule hi t => tasklet_schedule hi t s | Raise nr => Some (raise_softirq_irqoff nr s) end.
Fixpoint bh_all (l : list bh_call) (s : cpu) : option cpu :=
  match l with [] => Some s | c :: l' => s' ← bh_do c s; bh_all l' s' end.

Section handlers.
Context (body : Z -> Z -> list (bool * Z)).     (* the function of a tasklet, with its data *)
Context (other : Z -> list bh_call).            (* the other softirq handlers *)
Context (a_tk a_hi : Z).                        (* the addresses of tasklet_action and tasklet_hi_action *)

Definition handler (h : Z) (s : cpu) : option cpu :=
  if h =? a_hi then fst <$> tasklet_action (fn_of body) true s
  else if h =? a_tk then fst <$> tasklet_action (fn_of body) false s
  else bh_all (other h) s.
End handlers.

(** ** What the operations leave alone *)

(** [s'] has the same handlers, no softirqs that do not exist, and nested events. *)
Record extends (s s' : cpu) : Prop := {
  ex_vec : softirq_vec s' = softirq_vec s;
  ex_sane : sane s -> sane s';
  ex_nested : nested s s';
  ex_info : same_info (tasklets s) (tasklets s') }.

(** The function at [f] has been executed between [s] and [s']. *)
Definition ran (f : Z) (s s' : cpu) : Prop :=
  exists es, events s' = events s ++ es /\ tp_srvqueue f 0 0 QUEUE_DEQUEUE ∈ es.

Section extension.
Lemma extends_refl s s' :
  softirq_vec s' = softirq_vec s -> softirq_pending s' = softirq_pending s -> events s' = events s ->
  same_info (tasklets s) (tasklets s') -> extends s s'.
Proof. intros E1 E2 E3 E4. split; try done; [unfold sane; by rewrite E1, E2|by apply opens_refl]. Qed.

Lemma extends_trans s1 s2 s3 : extends s1 s2 -> extends s2 s3 -> extends s1 s3.
Proof.
  intros [V1 S1 N1 I1] [V2 S2 N2 I2]. split; [congruence|auto|by eapply opens_trans|by eapply same_info_trans].
Qed.

Lemma ran_app f s1 s2 s3 : ran f s1 s2 -> nested s2 s3 -> ran f s1 s3.
Proof.
  intros (es & E & H) (es' & E' & _). exists (es ++ es'). split; [by rewrite E', E, app_assoc|]. apply elem_of_app. by left.
Qed.
Lemma ran_pre f s1 s2 s3 : nested s1 s2 -> ran f s2 s3 -> ran f s1 s3.
Proof.
  intros (es & E & _) (es' & E' & H). exists (es ++ es'). split; [by rewrite E', E, app_assoc|]. apply elem_of_app. by right.
Qed.

(** Events that open and close nothing. *)
Lemma extends_emit e s : (forall stk, nest1 stk e = Some stk) -> extends s (emit e s).
Proof. intros He. split; try done. by apply opens_emit. Qed.

Lemma raise_range p nr : 0 <= p < 2 ^ 10 -> 0 <= nr < 10 -> 0 <= u32 (Z.lor p (u32 (Z.shiftl 1 nr))) < 2 ^ 10.
Proof.
  intros Hp Hn. assert (u32 (Z.shiftl 1 nr) = 2 ^ nr) as ->.
  { rewrite Z.shiftl_1_l. apply u32_id. split; [lia|]. apply (Z.pow_lt_mono_r 2 nr 32); lia. }
  assert (0 < 2 ^ nr) by lia. assert (0 <= Z.lor p (2 ^ nr)) by (apply Z.lor_nonneg; lia).
  assert (Z.lor p (2 ^ nr) < 2 ^ 10); [|rewrite u32_id; lia].
  destruct (Z.eq_dec (Z.lor p (2 ^ nr)) 0) as [->|]; [lia|]. apply Z.log2_lt_pow2; [lia|]. rewrite Z.log2_lor by lia.
  apply Z.max_lub_lt; [|rewrite Z.log2_pow2; lia]. destruct (Z.eq_dec p 0) as [->|]; [done|]. apply Z.log2_lt_pow2; lia.
Qed.

Lemma extends_raise nr s : 0 <= nr < 10 -> extends s (__raise_softirq_irqoff nr s).
Proof. intros Hn. split; try done; [|by apply opens_refl]. intros [? ?]. split; [done|]. by apply raise_range. Qed.

Lemma raise_extends nr s : 0 <= nr < 10 -> extends s (raise_softirq_irqoff nr s).
Proof.
  intros Hn. unfold raise_softirq_irqoff. set (s1 := __raise_softirq_irqoff nr _).
  assert (extends s s1) by (eapply extends_trans; [|by apply extends_raise]; by apply extends_emit).
  destruct (in_interrupt _); [done|]. eapply extends_trans; [done|].
  destruct (wakeup_softirqd_ok s1) as (_ & ? & ? & _ & ? & Hq). apply extends_refl; try done.
  by rewrite (qt_tasklets _ _ Hq).
Qed.

Lemma set_next_info m t v m' : set_next t v m = Some m' -> same_info m m'.
Proof.
  unfold set_next. destruct (m !! t) as [k|] eqn:E; [|done]. cbn. intros [= <-]. by eapply same_info_insert.
Qed.

Lemma append_extends hi t s s' : tasklet_append hi t s = Some s' -> extends s s'.
Proof.
  unfold tasklet_append. destruct (set_next t 0 (tasklets s)) as [m|] eqn:E; [|done]. apply set_next_info in E. cbn.
  destruct (th_tail (vec hi s)) as [|u]; [intros [= <-]; by apply extends_refl|].
  destruct (set_next u t m) as [m'|] eqn:E'; [|done]. apply set_next_info in E'. cbn. intros [= <-].
  apply extends_refl; try done. cbn. by eapply same_info_trans.
Qed.

Lemma set_state_info m t k st : m !! t = Some k -> test_bit TASKLET_STATE_RUN st = test_bit TASKLET_STATE_RUN (tk_state k) ->
  exists m', set_state t st m = Some m' /\ same_info m m'.
Proof.
  intros Hk Hst. rewrite (set_state_ok _ _ _ _ Hk). eexists. split; [reflexivity|]. eapply same_info_insert; [done|].
  unfold info. cbn. by rewrite Hst.
Qed.

Lemma sched_range hi : 0 <= vec_softirq hi < 10.
Proof. destruct hi; unfold vec_softirq, HI_SOFTIRQ, TASKLET_SOFTIRQ; lia. Qed.

Lemma schedule_extends hi t s s' : tasklet_schedule hi t s = Some s' -> extends s s'.
Proof.
  unfold tasklet_schedule. destruct (tasklets s !! t) as [k|] eqn:Ek; [|done]. cbn [mbind option_bind].
  destruct (test_bit TASKLET_STATE_SCHED (tk_state k)); [intros [= <-]; by apply extends_refl|].
  destruct (set_state_info (tasklets s) t k (set_bit TASKLET_STATE_SCHED (tk_state k)) Ek) as (m & -> & Hm).
  { by apply bit_other. }
  cbn [mbind option_bind]. unfold __tasklet_schedule. destruct (tasklet_append hi t (set_tasklets m s)) as [s1|] eqn:E1; [|done]. cbn [mbind option_bind].
  intros [= <-]. eapply extends_trans; [|apply raise_extends, sched_range]. eapply extends_trans; [|by eapply append_extends].
  by apply extends_refl.
Qed.

Lemma schedule_all_extends l s s' : schedule_all l s = Some s' -> extends s s'.
Proof.
  revert s. induction l as [|[hi t] l IH]; intros s; cbn [schedule_all]; [intros [= <-]; by apply extends_refl|].
  destruct (tasklet_schedule hi t s) as [s1|] eqn:E; [|done]. cbn [mbind option_bind]. intros E'.
  eapply extends_trans; [by eapply schedule_extends|by apply IH].
Qed.

Section tasklets.
Context (body : Z -> Z -> list (bool * Z)).

Lemma run_extends t k s s' :
  tasklets s !! t = Some k -> test_bit TASKLET_STATE_RUN (tk_state k) = false ->
  tasklet_run (fn_of body) t k s = Some s' -> extends s s' /\ ran (tk_func k) s s'.
Proof.
  intros Hk Hrun. unfold tasklet_run. destruct (negb _); [done|]. rewrite (set_state_ok _ _ _ _ Hk). cbn [mbind option_bind].
  set (k1 := MkTk _ _ _ _ _). set (s1 := emit _ _). unfold fn_of.
  destruct (schedule_all (body (tk_func k) (tk_data k)) s1) as [s2|] eqn:E2; [|done]. apply schedule_all_extends in E2 as [V2 S2 N2 I2].
  cbn [mbind option_bind]. pose proof (I2 t) as It. change (tasklets s1) with (<[t := k1]> (tasklets s)) in It, I2. rewrite lookup_insert_eq in It.
  destruct (tasklets s2 !! t) as [k2|] eqn:Hk2; [|done]. cbn in It. injection It as Ec Er Ef Ed. cbn [mbind option_bind].
  change (tasklets (emit _ s2)) with (tasklets s2). rewrite (set_state_ok _ _ _ _ Hk2). cbn [mbind option_bind]. intros [= <-].
  set (s3 := set_tasklets _ _). set (ev := tp_srvqueue (tk_func k) 0 0 QUEUE_DEQUEUE).
  assert (opens s s1 [] [FService (tk_func k)]) as O1 by (apply (opens_same _ (emit ev s)); [done|]; by apply opens_emit).
  assert (opens s2 s3 [FService (tk_func k)] []) as O3.
  { apply (opens_same _ (emit (tp_srvexit (tk_func k2)) s2)); [done|]. apply opens_emit. intros stk. cbn. by rewrite Ef, Z.eqb_refl. }
  assert (nested s s3) as N3.
  { eapply opens_trans; [exact O1|]. eapply opens_trans; [apply (opens_under _ _ [] [] _ N2)|done]. }
  split; [split; try done|].
  - intros y. cbn [tasklets s3 set_tasklets]. destruct (decide (y = t)) as [->|Hy].
    + rewrite lookup_insert_eq, Hk. cbn. unfold info. cbn. rewrite test_clear_bit, Z.eqb_refl, Hrun by done. cbn. by rewrite Ec, Ef, Ed.
    + rewrite lookup_insert_ne by done. rewrite I2. by rewrite lookup_insert_ne.
  - destruct N2 as (es & E2 & _). exists ([ev] ++ es ++ [tp_srvexit (tk_func k2)]). split; [|by left].
    cbn [events s3 set_tasklets emit]. rewrite E2. cbn [events s1 emit set_tasklets]. by rewrite <- !app_assoc.
Qed.

Lemma requeue_extends hi t s s' : tasklet_requeue hi t s = Some s' -> extends s s'.
Proof.
  unfold tasklet_requeue. destruct (tasklet_append hi t s) as [s1|] eqn:E; [|done]. apply append_extends in E. cbn [mbind option_bind].
  intros [= <-]. eapply extends_trans; [exact E|]. eapply extends_trans; [|apply extends_raise, sched_range]. by apply extends_emit.
Qed.

Definition func_of (m : gmap Z tasklet_struct) (t : Z) : Z := default 0 (tk_func <$> m !! t).

Lemma func_same m m' t : same_info m m' -> func_of m' t = func_of m t.
Proof.
  intros H. specialize (H t). unfold func_of. destruct (m' !! t), (m !! t); try done. cbn in H. injection H as _ _ H _. cbn. by rewrite H.
Qed.

Lemma loop_extends fuel hi ptr s s' runs :
  tasklet_loop (fn_of body) fuel hi ptr s = Some (s', runs) ->
  extends s s' /\ forall t, t ∈ runs -> ran (func_of (tasklets s) t) s s'.
Proof.
  revert ptr s runs. induction fuel as [|fuel IH]; intros ptr s runs; [done|]. cbn [tasklet_loop].
  destruct (ptr =? 0). { intros [= <- <-]. split; [by apply extends_refl|]. by intros t ?%not_elem_of_nil. }
  assert (extends s (emit tp_looprestart s)) as X0 by (by apply extends_emit).
  change (tasklets (emit tp_looprestart s)) with (tasklets s). destruct (tasklets s !! ptr) as [k|] eqn:Hk; [|done]. cbn [mbind option_bind].
  destruct (negb (test_bit TASKLET_STATE_RUN (tk_state k)) && (tk_count k =? 0)) eqn:Er.
  - apply andb_true_iff in Er as [Er%negb_true_iff _].
    destruct (tasklet_run (fn_of body) ptr k (emit tp_looprestart s)) as [s1|] eqn:E1; [|done].
    destruct (run_extends ptr k (emit tp_looprestart s) s1 Hk Er E1) as [X1 R1]. cbn [mbind option_bind].
    destruct (tasklet_loop (fn_of body) fuel hi (tk_next k) s1) as [[s2 runs2]|] eqn:E2; [|done]. cbn [mbind option_bind]. intros [= <- <-].
    destruct (IH _ _ _ E2) as [X2 R2]. pose proof (extends_trans _ _ _ X0 X1) as X. split; [by eapply extends_trans|].
    intros t [->|Ht]%elem_of_cons.
    + unfold func_of. rewrite Hk. cbn. eapply ran_app; [eapply ran_pre; [apply X0|exact R1]|apply X2].
    + rewrite <- (func_same _ _ _ (ex_info _ _ X)). eapply ran_pre; [apply X|]. by apply R2.
  - destruct (tasklet_requeue hi ptr (emit tp_looprestart s)) as [s1|] eqn:E1; [|done]. apply requeue_extends in E1. cbn [mbind option_bind].
    intros E2. destruct (IH _ _ _ E2) as [X2 R2]. pose proof (extends_trans _ _ _ X0 E1) as X. split; [by eapply extends_trans|].
    intros t Ht. rewrite <- (func_same _ _ _ (ex_info _ _ X)). eapply ran_pre; [apply X|]. by apply R2.
Qed.

Lemma action_extends hi s s' runs :
  tasklet_action (fn_of body) hi s = Some (s', runs) ->
  extends s s' /\ forall t, t ∈ runs -> ran (func_of (tasklets s) t) s s'.
Proof.
  unfold tasklet_action. set (s0 := emit _ _). destruct (tasklet_loop (fn_of body) _ hi _ s0) as [[s1 runs1]|] eqn:E; [|done].
  cbn [mbind option_bind]. intros [= <- <-]. destruct (loop_extends _ _ _ _ _ _ E) as [[V S N I] R].
  assert (opens s s0 [] [FLoop]) as O0 by (apply (opens_same _ (emit (tp_loopstart (-1) 0 (vec_queue hi) (vec_queue hi)) s)); [done|]; by apply opens_emit).
  assert (nested s (emit tp_loopstop s1)) as Nn.
  { eapply opens_trans; [exact O0|]. eapply (opens_trans _ s1); [apply (opens_under _ _ [] [] _ N)|]. by apply opens_emit. }
  split; [by split|]. intros t Ht. destruct (R t Ht) as (es & E1 & Hin).
  exists ([tp_loopstart (-1) 0 (vec_queue hi) (vec_queue hi)] ++ es ++ [tp_loopstop]). split; [cbn [events emit]; rewrite E1; cbn; by rewrite <- !app_assoc|].
  right. apply elem_of_app. by left.
Qed.
End tasklets.
End extension.

(** ** The tasklet handlers as clients of [__do_softirq] *)

Lemma ran_grows f s1 s2 s3 : ran f s1 s2 -> (exists es, events s3 = events s2 ++ es) -> ran f s1 s3.
Proof.
  intros (es & E & H) (es' & E'). exists (es ++ es'). split; [by rewrite E', E, app_assoc|]. apply elem_of_app. by left.
Qed.

Section client.
Context (body : Z -> Z -> list (bool * Z)) (other : Z -> list bh_call) (a_tk a_hi : Z).
Context (s0 : cpu) (qs0 : bool -> list Z).
Abbreviation act := (handler body other a_tk a_hi).

Definition addr (hi : bool) : Z := if hi then a_hi else a_tk.

(** Tasklets that are scheduled exist, and softirqs that are raised do. *)
Definition call_ok (m : gmap Z tasklet_struct) (c : bh_call) : Prop :=
  match c with Schedule _ t => is_Some (m !! t) | Raise nr => 0 <= nr < 10 end.

Context (Haddr : a_tk <> a_hi).
Context (Hbody : forall t, Forall (fun ht => is_Some (tasklets s0 !! ht.2)) (body_of body (tasklets s0) t)).
Context (Hother : forall h, Forall (call_ok (tasklets s0)) (other h)).

(** [s0] is where [__do_softirq] starts, with the queues [qs0]: the tasklets in
    them that can run have run, or wait for the current pass. *)
Record tk_inv (mask : Z) (s : cpu) : Prop := {
  ti_rep : exists qs, tk_rep s 0 [] [] qs /\ raised_in mask s qs /\
    forall hi t, t ∈ qs0 hi -> runnable (tasklets s0) t = true ->
      ran (func_of (tasklets s0) t) s0 s \/ (t ∈ qs hi /\ Z.testbit mask (vec_softirq hi) = true);
  ti_info : same_info (tasklets s0) (tasklets s);
  ti_vec : forall hi, zget (softirq_vec s) (vec_softirq hi) = Some (addr hi);
  ti_events : exists es, events s = events s0 ++ es }.

Lemma grows_trans s1 s2 s3 :
  (exists es, events s2 = events s1 ++ es) -> (exists es, events s3 = events s2 ++ es) -> exists es, events s3 = events s1 ++ es.
Proof. intros [e1 E1] [e2 E2]. exists (e1 ++ e2). by rewrite E2, E1, app_assoc. Qed.

Lemma nested_grows s s' : nested s s' -> exists es, events s' = events s ++ es.
Proof. intros (es & E & _). by exists es. Qed.

Lemma tk_inv_frame mask s s' : quiet_step s s' -> tk_inv mask s -> tk_inv mask s'.
Proof.
  intros [E1 E2 E3 [E4 E5] E6] [(qs & H & Hr & Hran) Hi Hv He]. split; rewrite ?E2, ?E3; try done; [|by eapply grows_trans].
  exists qs. split_and!.
  - eapply rep_frame; [exact H|done|intros []; unfold vec; congruence|rewrite E1; apply H].
  - intros hi. rewrite E1. apply Hr.
  - intros hi t Ht Hrt. destruct (Hran hi t Ht Hrt) as [|]; [left; by eapply ran_grows|by right].
Qed.

Lemma tk_inv_detach s : sane s -> tk_inv 0 s -> tk_inv (softirq_pending s) (set_softirq_pending 0 s).
Proof.
  intros _ [(qs & H & Hr & Hran) Hi Hv He]. split; try done. exists qs. split_and!.
  - eapply rep_frame; [exact H|done|by intros []|cbn; lia].
  - intros hi Hne. cbn [softirq_pending set_softirq_pending]. rewrite Z.lor_0_l. specialize (Hr hi Hne). by rewrite Z.lor_0_r in Hr.
  - intros hi t Ht Hrt. destruct (Hran hi t Ht Hrt) as [|[_ Hb]]; [by left|]. by rewrite Z.testbit_0_l in Hb.
Qed.

Lemma bh_all_ok mask l s qs :
  tk_rep s 0 [] [] qs -> raised_in mask s qs -> Forall (call_ok (tasklets s)) l ->
  exists s' qs', bh_all l s = Some s' /\ extends s s' /\ tk_rep s' 0 [] [] qs' /\ raised_in mask s' qs' /\
    (forall hi t, t ∈ qs hi -> t ∈ qs' hi) /\ (forall hi t, Schedule hi t ∈ l -> t ∈ queued qs').
Proof.
  revert s qs. induction l as [|c l IH]; intros s qs H Hr Hl; 
    [exists s, qs; split_and!; try done; [by apply extends_refl|by intros hi t ?%not_elem_of_nil]|].
  apply Forall_cons in Hl as [Hc Hl]. cbn [bh_all].
  assert (exists s1 qs1, bh_do c s = Some s1 /\ extends s s1 /\ tk_rep s1 0 [] [] qs1 /\ raised_in mask s1 qs1 /\
    (forall hi t, t ∈ qs hi -> t ∈ qs1 hi) /\ forall hi t, Schedule hi t = c -> t ∈ queued qs1) as (s1 & qs1 & E1 & X1 & H1 & Hr1 & Hk1 & Hc1).
  { destruct c as [hi t|nr]; cbn [bh_do call_ok] in *.
    - destruct (tasklet_schedule_ok mask hi t s 0 [] [] qs H Hr Hc) as (s1 & E & H1 & Hr1 & _). exists s1, (sched_spec [] qs (hi, t)).
      split_and!; try done; [by eapply schedule_extends|intros hi' y; apply sched_spec_keeps|]. intros hi' t' [= -> ->].
      unfold sched_spec. cbn [app fst snd]. destruct (decide (t ∈ queued qs)); [done|]. rewrite queued_snoc. by left.
    - exists (raise_softirq_irqoff nr s), qs. destruct (raise_softirq_irqoff_ok nr s _ _ _ _ H) as (H1 & _ & Ep).
      split_and!; try done; [by apply raise_extends|]. intros hi Hne. rewrite Ep, Z.lor_spec, raise_bits by (pose proof (vec_softirq_range hi); lia).
      specialize (Hr hi Hne). rewrite Z.lor_spec in Hr. by rewrite <- orb_assoc, Hr, orb_true_r. }
  rewrite E1. cbn [mbind option_bind]. destruct (IH s1 qs1 H1 Hr1) as (s2 & qs2 & E2 & X2 & H2 & Hr2 & Hk2 & Hc2).
  { eapply Forall_impl; [exact Hl|]. intros [hi t|nr]; cbn; [|done]. apply same_info_Some, X1. }
  exists s2, qs2. split_and!; try done; [by eapply extends_trans|auto|]. intros hi t [Heq|Ht]%elem_of_cons; [|by eapply Hc2].
  specialize (Hc1 hi t Heq). unfold queued in *. rewrite elem_of_app in *. destruct Hc1; auto.
Qed.

Lemma raise_count nr s : preempt_count (raise_softirq_irqoff nr s) = preempt_count s.
Proof. unfold raise_softirq_irqoff. destruct (in_interrupt _); [done|]. unfold wakeup_softirqd. by destruct (ksoftirqd _). Qed.

Lemma append_count hi t s s' : tasklet_append hi t s = Some s' -> preempt_count s' = preempt_count s.
Proof.
  unfold tasklet_append. destruct (set_next _ _ _) as [m|]; [|done]. cbn [mbind option_bind]. destruct (th_tail _) as [|u]; [by intros [= <-]|].
  destruct (set_next u t m); [|done]. cbn [mbind option_bind]. by intros [= <-].
Qed.

Lemma bh_all_count l s s' : bh_all l s = Some s' -> preempt_count s' = preempt_count s.
Proof.
  revert s. induction l as [|c l IH]; intros s; cbn [bh_all]; [by intros [= <-]|]. destruct (bh_do c s) as [s1|] eqn:E; [|done].
  cbn [mbind option_bind]. intros E'. rewrite (IH _ E'). destruct c as [hi t|nr]; cbn [bh_do] in E; [|injection E as <-; apply raise_count].
  unfold tasklet_schedule in E. destruct (tasklets s !! t) as [k|]; [|done]. cbn [mbind option_bind] in E.
  destruct (test_bit _ _); [by injection E as <-|]. destruct (set_state _ _ _) as [m|]; [|done]. cbn [mbind option_bind] in E.
  unfold __tasklet_schedule in E. destruct (tasklet_append hi t _) as [s2|] eqn:E2; [|done]. cbn [mbind option_bind] in E. injection E as <-.
  rewrite raise_count. by rewrite (append_count _ _ _ _ E2).
Qed.

Lemma clearbit_other mask a b : a <> b -> Z.testbit (Z.clearbit mask a) b = Z.testbit mask b.
Proof. intros H. rewrite Z.clearbit_eqb. destruct (Z.eqb_spec a b); [done|]. by rewrite andb_true_r. Qed.

(** The softirq of a queue whose handler is not run stays in the mask. *)
Lemma raised_clear mask nr s qs qs' :
  raised_in mask s qs -> (forall hi, qs' hi <> [] -> qs hi <> [] /\ nr <> vec_softirq hi) -> raised_in (Z.clearbit mask nr) s qs'.
Proof.
  intros Hr H hi Hne. destruct (H hi Hne) as [Hq Hnr]. specialize (Hr hi Hq). rewrite Z.lor_spec in *. by rewrite clearbit_other.
Qed.

Lemma vec_inj s nr hi h : (forall hi, zget (softirq_vec s) (vec_softirq hi) = Some (addr hi)) ->
  zget (softirq_vec s) nr = Some h -> h <> addr hi -> nr <> vec_softirq hi.
Proof. intros Hs Hh Hne ->. rewrite Hs in Hh. congruence. Qed.

Lemma addr_ne hi hi' : hi <> hi' -> addr hi <> addr hi'.
Proof. destruct hi, hi'; unfold addr; congruence. Qed.

Lemma handler_tasklet hi : act (addr hi) = fun s => fst <$> tasklet_action (fn_of body) hi s.
Proof.
  unfold handler, addr. destruct hi; [by rewrite Z.eqb_refl|]. rewrite (proj2 (Z.eqb_neq a_tk a_hi)) by done. by rewrite Z.eqb_refl.
Qed.

Lemma tk_inv_tasklet mask nr hi s :
  tk_inv mask s -> zget (softirq_vec s) nr = Some (addr hi) ->
  exists s', act (addr hi) s = Some s' /\ extends s s' /\ tk_inv (Z.clearbit mask nr) s'.
Proof.
  intros [(qs & H & Hr & Hran) Hi Hv He] Hnr. rewrite handler_tasklet.
  destruct (tasklet_action_ok (Z.clearbit mask nr) body hi s qs H) as (s' & E & H' & Hr' & _).
  { eapply raised_clear; [exact Hr|]. intros hi' Hne. destruct (decide (hi' = hi)) as [->|Hh]; [by rewrite upd_eq in Hne|].
    rewrite upd_ne in Hne by done. split; [done|]. eapply (vec_inj s); [exact Hv|exact Hnr|]. by apply addr_ne. }
  { intros t. rewrite (proj2 (same_info_runnable body _ _ t Hi)). eapply Forall_impl; [apply Hbody|]. intros ht. by apply same_info_Some. }
  rewrite E. exists s'. split; [done|]. destruct (action_extends _ _ _ _ _ E) as [X R]. split; [done|].
  assert (exists es, events s' = events s ++ es) as Hg by (apply nested_grows, X).
  split; [|eapply same_info_trans; [exact Hi|apply X]|intros hi'; by rewrite (ex_vec _ _ X)|by eapply grows_trans].
  eexists. split; [exact H'|]. split; [exact Hr'|]. intros hi' t Ht Hrt. destruct (Hran hi' t Ht Hrt) as [Hd|[Hq Hm]]; [left; by eapply ran_grows|].
  destruct (decide (hi' = hi)) as [->|Hh].
  - left. rewrite <- (func_same _ _ t Hi). destruct (R t) as (es & Ee & Hin).
    { apply list_elem_of_filter. split; [|done]. by rewrite (proj1 (same_info_runnable body _ _ t Hi)). }
    destruct He as [es0 He]. exists (es0 ++ es). split; [by rewrite Ee, He, app_assoc|]. apply elem_of_app. by right.
  - right. split; [apply loop_spec_keeps; by rewrite upd_ne|]. rewrite clearbit_other; [done|].
    eapply (vec_inj s); [exact Hv|exact Hnr|]. by apply addr_ne.
Qed.

Lemma tk_inv_other mask nr h s :
  tk_inv mask s -> zget (softirq_vec s) nr = Some h -> (forall hi, h <> addr hi) ->
  exists s', act h s = Some s' /\ extends s s' /\ tk_inv (Z.clearbit mask nr) s'.
Proof.
  intros [(qs & H & Hr & Hran) Hi Hv He] Hnr Hh. assert (act h = bh_all (other h)) as ->.
  { unfold handler. rewrite (proj2 (Z.eqb_neq h a_hi) (Hh true)). by rewrite (proj2 (Z.eqb_neq h a_tk) (Hh false)). }
  assert (forall hi, nr <> vec_softirq hi) as Hne by (intros hi; eapply (vec_inj s); [exact Hv|exact Hnr|apply Hh]).
  destruct (bh_all_ok (Z.clearbit mask nr) (other h) s qs H) as (s' & qs' & E & X & H' & Hr' & Hk & _).
  { by eapply raised_clear. }
  { eapply Forall_impl; [apply Hother|]. intros [hi t|n]; cbn; [|done]. by apply same_info_Some. }
  exists s'. split; [done|]. split; [done|]. assert (exists es, events s' = events s ++ es) as Hg by (apply nested_grows, X).
  split; [|eapply same_info_trans; [exact Hi|apply X]|intros hi'; by rewrite (ex_vec _ _ X)|by eapply grows_trans].
  exists qs'. split_and!; try done. intros hi t Ht Hrt. destruct (Hran hi t Ht Hrt) as [Hd|[Hq Hm]]; [left; by eapply ran_grows|].
  right. split; [auto|]. by rewrite clearbit_other.
Qed.

#[export] Instance tasklets_client : softirq_client act tk_inv.
Proof.
  split; [apply tk_inv_frame|apply tk_inv_detach|]. intros mask nr h s Hs Hi Hnr _.
  assert (exists s', act h s = Some s' /\ extends s s' /\ tk_inv (Z.clearbit mask nr) s') as (s' & E & [V S N I] & Hi').
  { destruct (decide (h = addr true)) as [->|H1]; [by apply tk_inv_tasklet|].
    destruct (decide (h = addr false)) as [->|H2]; [by apply tk_inv_tasklet|]. apply tk_inv_other; [done|done|by intros []]. }
  exists s'. split_and!; auto.
Qed.

(** Where [__do_softirq] starts. *)
Lemma tk_inv_ready : tk_rep s0 0 [] [] qs0 -> raised s0 qs0 ->
  (forall hi, zget (softirq_vec s0) (vec_softirq hi) = Some (addr hi)) -> ready tk_inv s0.
Proof.
  intros H Hr Hv. assert (forall hi, qs0 hi <> [] -> Z.testbit (softirq_pending s0) (vec_softirq hi) = true) as Hp.
  { intros hi Hne. specialize (Hr hi Hne). by rewrite Z.lor_0_r in Hr. }
  split; try done; [|exists []; by rewrite app_nil_r]. exists qs0. split_and!.
  - eapply rep_frame; [exact H|done|by intros []|cbn; lia].
  - intros hi Hne. cbn [softirq_pending set_softirq_pending]. rewrite Z.lor_0_l. auto.
  - intros hi t Ht _. right. split; [done|]. apply Hp. intros Hn. rewrite Hn in Ht. by apply not_elem_of_nil in Ht.
Qed.
End client.

(** C13: tasklets run when the interrupt that schedules them returns. An
    interrupt on a CPU that was not in an interrupt and had bottom halves enabled
    raises softirqs and schedules tasklets. When [irq_exit] returns, every tasklet
    that was queued before or was scheduled by the interrupt, is enabled and is
    not running elsewhere has been executed, whatever the other handlers and the
    tasklets themselves raise and schedule; the queues are intact, and the softirq
    of a queue that is not empty is pending again. *)
Theorem tasklets_run_after_interrupt (body : Z -> Z -> list (bool * Z)) (other : Z -> list bh_call) (a_tk a_hi entry : Z)
    (l : list bh_call) (s : cpu) (qs : bool -> list Z) :
  a_tk <> a_hi -> (forall hi, zget (softirq_vec s) (vec_softirq hi) = Some (addr a_tk a_hi hi)) ->
  sane s -> tk_rep s 0 [] [] qs -> raised s qs ->
  (forall t, Forall (fun ht => is_Some (tasklets s !! ht.2)) (body_of body (tasklets s) t)) ->
  (forall h, Forall (call_ok (tasklets s)) (other h)) -> Forall (call_ok (tasklets s)) l ->
  0 <= preempt_count s < 2 ^ 26 -> preempt_count s mod 256 < 255 -> in_interrupt (preempt_count s) = false ->
  exists s1 s' passes,
    bh_all l (irq_enter entry false id s) = Some s1 /\
    irq_exit (handler body other a_tk a_hi) entry s1 = Some (s', passes) /\
    preempt_count s' = preempt_count s /\ nested s s' /\
    (forall t, t ∈ queued qs \/ (exists hi, Schedule hi t ∈ l) -> runnable (tasklets s) t = true ->
       ran (func_of (tasklets s) t) s s') /\
    exists qs', tk_rep s' 0 [] [] qs' /\ raised s' qs'.
Proof.
  intros Ha Hv Hs H Hr Hbody Hother Hl Hc Hm Hint. set (s0 := irq_enter entry false id s).
  assert (tk_rep s0 0 [] [] qs) as H0 by (eapply rep_frame; [exact H|done|by intros []|apply H]).
  destruct (bh_all_ok 0 l s0 qs H0 Hr Hl) as (s1 & qs1 & E1 & X1 & H1 & Hr1 & Hk1 & Hc1). exists s1.
  assert (ready (tk_inv a_tk a_hi s1 qs1) s1) as Hready.
  { apply tk_inv_ready; [done|done|]. intros hi. rewrite (ex_vec _ _ X1). apply Hv. }
  assert (softirq_client (handler body other a_tk a_hi) (tk_inv a_tk a_hi s1 qs1)) as Hclient.
  { apply tasklets_client; [done| |].
    - intros t. rewrite (proj2 (same_info_runnable body _ _ t (ex_info _ _ X1))). eapply Forall_impl; [apply Hbody|].
      intros ht. by apply same_info_Some, X1.
    - intros h. eapply Forall_impl; [apply Hother|]. intros [hi t|nr]; cbn; [|done]. by apply same_info_Some, X1. }
  destruct (interrupt_ok (handler body other a_tk a_hi) _ (fun _ => s1) entry s Hclient Hc Hm) as (s' & passes & E & Hp & Hn & Hrest).
  { cbv zeta. split_and!; [by apply X1| |apply X1|done]. by eapply bh_all_count. }
  rewrite Hint in Hrest. destruct Hrest as [[(qs' & H' & Hr' & Hran) _ _ _] _]. exists s', passes. split_and!; try done; [|by exists qs'].
  intros t Ht Hrt. assert (exists hi, t ∈ qs1 hi) as [hi Hti].
  { assert (t ∈ queued qs1) as Hq; [|unfold queued in Hq; apply elem_of_app in Hq as [?|?]; eauto]. destruct Ht as [Ht|[hi Ht]]; [|by eapply Hc1].
    unfold queued in *. rewrite elem_of_app in *. destruct Ht; auto. }
  destruct (Hran hi t Hti) as [(es & Ee & Hin)|[_ Hb]]; [by rewrite (proj1 (same_info_runnable body _ _ t (ex_info _ _ X1)))| |by rewrite Z.testbit_0_l in Hb].
  rewrite (func_same _ _ t (ex_info _ _ X1)) in Hin. destruct (nested_grows _ _ (ex_nested _ _ X1)) as [es1 E2].
  exists ([tp_srventry entry] ++ es1 ++ es). split; [rewrite Ee, E2; cbn; by rewrite <- !app_assoc|]. right. apply elem_of_app. by right.
Qed.

(** The CPU of [tk_cpu] outside of interrupts, with the handlers installed at
    100 and 200, and the handler at 300 of softirq 3, which schedules a tasklet.
    The interrupt raises softirq 3 and schedules tasklet 192. *)
Definition def_cpu : cpu :=
  MkCpu 0 64 [200; 0; 0; 300; 0; 0; 100; 0; 0; 0] Sleeping (tasklets tk_cpu) (tasklet_vec tk_cpu) (tasklet_hi_vec tk_cpu) [].
Definition def_other (h : Z) : list bh_call := if h =? 300 then [Schedule true 192] else [].
Definition def_isr : list bh_call := [Raise 3; Schedule false 192].

Lemma tasklets_run_after_interrupt_witness :
  exists s1 s' passes,
    bh_all def_isr (irq_enter 4096 false id def_cpu) = Some s1 /\
    irq_exit (handler tk_body def_other 100 200) 4096 s1 = Some (s', passes) /\
    preempt_count s' = 0 /\ nested def_cpu s' /\
    (forall t, t ∈ [64; 128] \/ (exists hi, Schedule hi t ∈ def_isr) -> runnable (tasklets def_cpu) t = true ->
       ran (func_of (tasklets def_cpu) t) def_cpu s') /\
    exists qs', tk_rep s' 0 [] [] qs' /\ raised s' qs'.
Proof.
  apply (tasklets_run_after_interrupt tk_body def_other 100 200 4096 def_isr def_cpu tk_qs).
  - discriminate.
  - intros []; reflexivity.
  - split; [reflexivity|simpl; lia].
  - eapply rep_frame; [exact tk_cpu_rep|reflexivity|intros []; reflexivity|simpl; lia].
  - intros []; [done|]. reflexivity.
  - intros t. unfold body_of. destruct (tasklets def_cpu !! t) as [k|]; [|constructor]. unfold tk_body.
    destruct (tk_func k =? 1000); repeat constructor; by eexists.
  - intros h. unfold def_other. destruct (h =? 300); [constructor; [by eexists|constructor]|constructor].
  - constructor; [simpl; lia|]. constructor; [by eexists|constructor].
  - split; [discriminate|reflexivity].
  - reflexivity.
  - reflexivity.
Defined.

(** ** The thread ksoftirqd

    Its inner loop, [fuel] iterations at most, with what every call of
    [__do_softirq] ran; [offline] is [cpu_is_offline] at each test, and [None] in
    the result is [goto wait_to_die]. Rescheduling between two iterations has no
    effect on this state: an interrupt there is a step of its own. *)
Section ksoftirqd.
Context (act : Z -> cpu -> option cpu).

Fixpoint ksoftirqd_loop (fuel : nat) (offline : nat -> bool) (s : cpu) : option (cpu * option (list (list (list Z)))) :=
  match fuel with
  | O => None
  | S fuel' =>
      if ctrue (softirq_pending s) then
        let s := emit tp_looprestart s in
        if offline fuel' then Some (s, None)
        else
          '(s, passes) ← __do_softirq act s;
          let s := sub_preempt_count 1 s in     (* preempt_enable_no_resched *)
          let s := add_preempt_count 1 s in     (* preempt_disable *)
          '(s, more) ← ksoftirqd_loop fuel' offline s;
          Some (s, option_map (cons passes) more)
      else Some (s, Some [])
  end.

(** One iteration of the outer loop, from [preempt_disable] on. When nothing is
    pending the thread calls [schedule]: [wake] is what happens until it runs
    again. *)
Definition ksoftirqd_round (fuel : nat) (offline : nat -> bool) (wake : cpu -> cpu) (s : cpu)
    : option (cpu * option (list (list (list Z)))) :=
  let s := emit tp_looprestart s in
  let s := add_preempt_count 1 s in
  let s := if ctrue (softirq_pending s) then s
           else add_preempt_count 1 (wake (set_ksoftirqd Sleeping (sub_preempt_count 1 s))) in
  let s := set_ksoftirqd Running s in
  let s := emit (queue_range (-1) 0) s in
  '(s, runs) ← ksoftirqd_loop fuel offline s;
  match runs with
  | None => Some (sub_preempt_count 1 s, None)     (* wait_to_die *)
  | Some runs => Some (sub_preempt_count 1 (emit tp_loopstop s), Some runs)
  end.
End ksoftirqd.

Section ksoftirqd_proofs.
Context (act : Z -> cpu -> option cpu) (Inv : Z -> cpu -> Prop) `{!softirq_client act Inv}.

(** The loop ends when no softirq is pending; as long as it does not end, every
    iteration has called [__do_softirq]. *)
Lemma ksoftirqd_loop_ok fuel s :
  sane s -> ready Inv s -> 0 < preempt_count s < 2 ^ 30 ->
  match ksoftirqd_loop act fuel (fun _ => false) s with
  | Some (s', Some runs) => softirq_pending s' = 0 /\ preempt_count s' = preempt_count s /\ nested s s' /\ ready Inv s' /\
      (length runs < fuel)%nat
  | Some (_, None) => False
  | None => True
  end.
Proof.
  revert s. induction fuel as [|fuel IH]; intros s Hs Hi Hc; [done|]. cbn [ksoftirqd_loop]. unfold ctrue.
  destruct (Z.eqb_spec (softirq_pending s) 0) as [E|E]; cbn [negb].
  { split_and!; try done; [by apply opens_refl|cbn; lia]. }
  assert (ready Inv (emit tp_looprestart s)) as Hi0 by (eapply ready_frame; [eassumption|apply quiet_emit|done]).
  destruct (do_softirq_ok act Inv (emit tp_looprestart s) Hs Hi0 ltac:(cbn; lia)) as (s1 & passes & -> & Hs1 & Hc1 & _ & _ & _ & Hn1 & Hi1).
  cbn [mbind option_bind]. set (s2 := add_preempt_count 1 (sub_preempt_count 1 s1)).
  assert (preempt_count s2 = preempt_count s) as Hc2.
  { unfold s2, add_preempt_count, sub_preempt_count. cbn [preempt_count set_preempt_count]. rewrite Hc1. cbn. rewrite (s32_id (_ - 1)) by lia.
    rewrite s32_id by lia. lia. }
  assert (ready Inv s2) as Hi2.
  { eapply (ready_frame act Inv s1); [split; try done; exists []; by rewrite app_nil_r|]. by eapply inv_ready. }
  specialize (IH s2 Hs1 Hi2 ltac:(lia)).
  destruct (ksoftirqd_loop act fuel (fun _ => false) s2) as [[s' [runs|]]|]; cbn [mbind option_bind option_map]; [|done|done].
  destruct IH as (? & ? & Hn & ? & ?). split_and!; try done; [congruence| |cbn; lia].
  eapply (opens_trans _ (emit tp_looprestart s) _ _ []); [by apply opens_emit|]. eapply (opens_trans _ s2 _ _ []); [by eapply opens_same|done].
Qed.
End ksoftirqd_proofs.

(** When its CPU goes offline, ksoftirqd leaves the inner loop without an event
    that says so: the loop stays open in the event stream. *)
Example ksoftirqd_leaves_loop_open (act : Z -> cpu -> option cpu) (s : cpu) :
  softirq_pending s <> 0 ->
  exists s', ksoftirqd_round act 1 (fun _ => true) id s = Some (s', None) /\
    exists es, events s' = events s ++ es /\ forall stk, nest stk es = Some (FLoop :: stk).
Proof.
  intros E. unfold ksoftirqd_round. cbn [ksoftirqd_loop]. unfold ctrue. cbn [softirq_pending add_preempt_count emit set_preempt_count].
  rewrite (proj2 (Z.eqb_neq _ _) E). cbn [negb softirq_pending set_ksoftirqd add_preempt_count emit set_preempt_count].
  rewrite (proj2 (Z.eqb_neq _ _) E). cbn [negb mbind option_bind]. eexists. split; [reflexivity|].
  exists [tp_looprestart; queue_range (-1) 0; tp_looprestart]. split; [cbn; by rewrite <- !app_assoc|done].
Qed.

(** ** Tasklets of a dead CPU

    Tasklets are shared between CPUs: the ones of the dead CPU are in the same
    memory, and its queues are given as their heads. *)

(** One of the two blocks of [takeover_tasklets]. *)
Definition takeover_queue (hi : bool) (dead : tasklet_head) (s : cpu) : option (tasklet_head * cpu) :=
  '(dead, s) ← match th_tail dead with
    | TailHead => Some (dead, s)
    | TailNext u =>
        s ← match th_tail (vec hi s) with
            | TailHead => Some (set_vec hi (MkTh (th_head dead) (TailNext u)) s)
            | TailNext v => m ← set_next v (th_head dead) (tasklets s);
                            Some (set_vec hi (MkTh (th_head (vec hi s)) (TailNext u)) (set_tasklets m s))
            end;
        Some (MkTh 0 TailHead, s)
    end;
  Some (dead, raise_softirq_irqoff (vec_softirq hi) s).

Definition takeover_tasklets (dead dead_hi : tasklet_head) (s : cpu) : option (tasklet_head * tasklet_head * cpu) :=
  '(dead, s) ← takeover_queue false dead s;
  '(dead_hi, s) ← takeover_queue true dead_hi s;
  Some (dead, dead_hi, s).

(** The loop of [tasklet_kill_immediate]: [i] points to the head of the queue or
    to the [next] of a tasklet. *)
Fixpoint kill_loop (fuel : nat) (i : tail_ptr) (t : Z) (q : tasklet_head) (m : gmap Z tasklet_struct)
    : option (tasklet_head * gmap Z tasklet_struct) :=
  match fuel with
  | O => None
  | S fuel' =>
      cur ← match i with TailHead => Some (th_head q) | TailNext p => tk_next <$> m !! p end;
      if cur =? 0 then None          (* BUG() *)
      else if cur =? t then
        next ← tk_next <$> m !! t;
        '(q, m) ← match i with
                  | TailHead => Some (MkTh next (th_tail q), m)
                  | TailNext p => m ← set_next p next m; Some (q, m)
                  end;
        Some (if next =? 0 then MkTh (th_head q) i else q, m)
      else kill_loop fuel' (TailNext cur) t q m
  end.

Definition tasklet_kill_immediate (online : bool) (t : Z) (dead : tasklet_head) (s : cpu) : option (tasklet_head * cpu) :=
  k ← tasklets s !! t;
  if online || test_bit TASKLET_STATE_RUN (tk_state k) then None     (* BUG_ON() *)
  else if negb (test_bit TASKLET_STATE_SCHED (tk_state k)) then Some (dead, s)
  else
    '(dead, m) ← kill_loop (S (size (tasklets s))) TailHead t dead (tasklets s);
    Some (dead, set_tasklets m s).

Section takeover.
(** A queue of the memory [m]. *)
Definition queue_rep (m : gmap Z tasklet_struct) (q : tasklet_head) (l : list Z) : Prop :=
  lseg (nx m) (th_head q) l 0 /\ th_tail q = tail_of l.

Lemma tail_of_app l l' : l' <> [] -> tail_of (l ++ l') = tail_of l'.
Proof. destruct l' as [|x l' _] using rev_ind; [done|]. intros _. by rewrite app_assoc, !tail_of_snoc. Qed.

Lemma tail_of_cases l : l = [] /\ tail_of l = TailHead \/ exists l' x, l = l' ++ [x] /\ tail_of l = TailNext x.
Proof. destruct l as [|x l _] using rev_ind; [by left|]. right. exists l, x. by rewrite tail_of_snoc. Qed.

(** Linking the first node of one list behind the last one of another. *)
Lemma lseg_join (f f' : Z -> option Z) a l v b l' :
  lseg f a (l ++ [v]) 0 -> (forall y, y ∈ l -> f' y = f y) -> f' v = Some b -> lseg f' b l' 0 -> lseg f' a ((l ++ [v]) ++ l') 0.
Proof.
  intros (m & H1 & Hv)%lseg_app Hsame Hfv H2. apply lseg_app. exists b. split; [|done]. apply lseg_app. exists m. split; [by eapply lseg_ext|].
  destruct Hv as (-> & Hv0 & _). cbn. eauto 6.
Qed.

Lemma vec_set hi h s : vec hi (set_vec hi h s) = h.
Proof. by destruct hi. Qed.

Lemma tk_rep_ext s ptr x d qs qs' : (forall hi, qs' hi = qs hi) -> tk_rep s ptr x d qs -> tk_rep s ptr x d qs'.
Proof.
  intros E H. assert (queued qs' = queued qs) as Eq by (unfold queued; by rewrite !E). split; rewrite ?Eq; try apply H.
  intros hi. rewrite E. apply H.
Qed.

(** The state after the links of queue [hi] have been changed to append [l]. *)
Lemma rep_append hi s s' ptr x d qs l :
  tk_rep s ptr (l ++ x) d qs ->
  (forall y, y <> last0 (qs hi) -> nx (tasklets s') y = nx (tasklets s) y) ->
  (forall y, scheduled <$> tasklets s' !! y = scheduled <$> tasklets s !! y) ->
  queue_rep (tasklets s') (vec hi s') (qs hi ++ l) -> (forall hi', hi' <> hi -> vec hi' s' = vec hi' s) ->
  softirq_pending s' = softirq_pending s ->
  tk_rep s' ptr x d (upd hi (qs hi ++ l) qs).
Proof.
  intros H Hnx Hsch Hq Hv Hp.
  assert (x ++ d ++ queued (upd hi (qs hi ++ l) qs) ≡ₚ (l ++ x) ++ d ++ queued qs) as Hperm.
  { unfold queued, upd. destruct hi; cbn; solve_Permutation. }
  assert (forall y l', lseg (nx (tasklets s)) y l' 0 -> (forall z, z ∈ l' -> z ∉ qs hi) -> lseg (nx (tasklets s')) y l' 0) as Hkeep.
  { intros y l' Hl Hz. eapply lseg_ext; [|exact Hl]. intros z Hzl. apply Hnx, not_last; [by apply Hz|]. by eapply (lseg_nonzero _ _ _ _ _ Hl). }
  split.
  - apply Hkeep; [apply H|]. intros z Hz Hzq. apply (rep_disjoint _ _ _ _ _ _ _ H) in Hzq as (_ & ? & _). done.
  - intros hi'. destruct (decide (hi' = hi)) as [->|Hne]; [by rewrite upd_eq|]. rewrite upd_ne, Hv by done.
    destruct (tr_queue _ _ _ _ _ H hi') as [Hl Ht]. split; [|done]. apply Hkeep; [done|]. intros z Hz Hzq.
    apply (rep_disjoint _ _ _ _ _ _ _ H) in Hzq as (_ & _ & Hzq). by eapply Hzq.
  - rewrite Hperm. apply H.
  - intros y k Hk. rewrite Hperm. specialize (Hsch y). rewrite Hk in Hsch. cbn in Hsch.
    destruct (tasklets s !! y) as [k0|] eqn:Ek0; [|done]. injection Hsch as ->. by apply (tr_sched _ _ _ _ _ H).
  - intros y Hy. eapply (tr_nonzero _ _ _ _ _ H), is_Some_scheduled, Hy. by apply Hsch.
  - rewrite Hp. apply H.
Qed.

Lemma takeover_queue_ok hi dead l s x qs :
  tk_rep s 0 (l ++ x) [] qs -> raised s qs -> queue_rep (tasklets s) dead l ->
  exists s', takeover_queue hi dead s = Some (MkTh 0 TailHead, s') /\ tk_rep s' 0 x [] (upd hi (qs hi ++ l) qs) /\
    raised s' (upd hi (qs hi ++ l) qs) /\ same_info (tasklets s) (tasklets s') /\
    (forall y, y ∉ qs hi -> y <> 0 -> nx (tasklets s') y = nx (tasklets s) y).
Proof.
  intros H Hr [Hl Ht].
  assert (forall s1, tk_rep s1 0 x [] (upd hi (qs hi ++ l) qs) -> raised s1 qs -> same_info (tasklets s) (tasklets s1) ->
    (forall y, y ∉ qs hi -> y <> 0 -> nx (tasklets s1) y = nx (tasklets s) y) ->
    exists s', Some (MkTh 0 TailHead, raise_softirq_irqoff (vec_softirq hi) s1) = Some (MkTh 0 TailHead, s') /\
      tk_rep s' 0 x [] (upd hi (qs hi ++ l) qs) /\ raised s' (upd hi (qs hi ++ l) qs) /\ same_info (tasklets s) (tasklets s') /\
      (forall y, y ∉ qs hi -> y <> 0 -> nx (tasklets s') y = nx (tasklets s) y)) as Hfin.
  { intros s1 H1 Hr1 Hi1 Hn1. eexists. split; [reflexivity|]. destruct (raise_softirq_irqoff_ok (vec_softirq hi) s1 _ _ _ _ H1) as (H2 & Et & Ep).
    split_and!; [done| |by rewrite Et|by rewrite Et]. intros hi' Hne. rewrite Ep. exact (raise_raised 0 hi s1 qs (qs hi ++ l) Hr1 hi' Hne). }
  unfold takeover_queue. rewrite Ht. destruct (tail_of_cases l) as [[-> ->]|(l' & u & El & ->)].
  { cbn in Hl. assert (dead = MkTh 0 TailHead) as -> by (destruct dead; cbn in *; subst; done). cbn [mbind option_bind]. apply Hfin; try done.
    rewrite app_nil_r. eapply tk_rep_ext; [|exact H]. intros hi'. unfold upd. by destruct (Bool.eqb_spec hi' hi) as [->|]. }
  assert (tail_of (qs hi ++ l) = TailNext u) as Htl by (rewrite tail_of_app by (by rewrite El; destruct l'); by rewrite El, tail_of_snoc).
  destruct (tr_queue _ _ _ _ _ H hi) as [Hq Hqt]. rewrite Hqt. destruct (tail_of_cases (qs hi)) as [[Eq ->]|(q' & v & Eq & ->)]; cbn [mbind option_bind].
  - apply Hfin; try (by destruct hi). eapply (rep_append hi s); try done; try (by destruct hi).
    + rewrite Eq in *. cbn [app]. split; [by destruct hi|]. rewrite <- Htl. by destruct hi.
    + intros hi' Hne. by destruct hi, hi'.
  - assert (v ∈ qs hi) as Hvq by (rewrite Eq; apply elem_of_app; right; by left).
    assert (is_Some (tasklets s !! v)) as Hv by (by eapply queue_exists).
    destruct (set_next_ok (tasklets s) v (th_head dead) Hv) as (m & -> & Hn & Hs & Hi). cbn [mbind option_bind].
    assert (forall y, y <> v -> nx m y = nx (tasklets s) y) as Hother by (intros y Hy; by rewrite Hn, decide_False).
    apply Hfin; try (by destruct hi); [|destruct hi; cbn; intros y Hy _; apply Hother; by intros ->].
    eapply (rep_append hi s); try done; try (by destruct hi).
    + rewrite Eq, last0_snoc. by destruct hi.
    + split; [|rewrite Htl; by destruct hi]. rewrite vec_set. cbn [th_head].
      change (tasklets (set_vec hi _ (set_tasklets m s))) with m. rewrite Eq in Hq |- *. eapply lseg_join; [exact Hq| |by rewrite Hn, decide_True|].
      * intros y Hy. apply Hother. intros ->. pose proof (rep_queue_nodup _ _ _ _ _ hi H) as Hnd. rewrite Eq in Hnd.
        apply NoDup_app in Hnd as (_ & Hd & _). apply (Hd v Hy). by left.
      * eapply lseg_ext; [|exact Hl]. intros y Hy. apply Hother. intros ->.
        apply (rep_disjoint _ _ _ _ _ _ _ H) in Hvq as [Hvx _]. apply Hvx, elem_of_app. by left.
    + intros hi' Hne. by destruct hi, hi'.
Qed.

(** Unlinking [t]: the loop finds the pointer to it. *)
Lemma kill_loop_ok fuel (m : gmap Z tasklet_struct) q pre t l1 l2 cur :
  lseg (nx m) (th_head q) (pre ++ l1 ++ t :: l2) 0 -> lseg (nx m) cur (l1 ++ t :: l2) 0 -> NoDup (pre ++ l1 ++ t :: l2) ->
  th_tail q = tail_of (pre ++ l1 ++ t :: l2) -> (length l1 < fuel)%nat ->
  match tail_of pre with TailHead => th_head q = cur | TailNext p => nx m p = Some cur end ->
  exists q' m', kill_loop fuel (tail_of pre) t q m = Some (q', m') /\ queue_rep m' q' (pre ++ l1 ++ l2) /\ same_info m m' /\
    (forall y, scheduled <$> m' !! y = scheduled <$> m !! y) /\ (forall y, y ∉ pre ++ l1 -> nx m' y = nx m y).
Proof.
  revert pre l1 cur. induction fuel as [|fuel IH]; intros pre l1 cur Hq Hc Hnd Ht Hf Hcur; [lia|]. cbn [kill_loop].
  assert (match tail_of pre with TailHead => Some (th_head q) | TailNext p => tk_next <$> m !! p end = Some cur) as ->.
  { destruct (tail_of pre); [by rewrite Hcur|exact Hcur]. }
  cbn [mbind option_bind]. destruct l1 as [|y l1]; cbn [app] in *.
  - destruct Hc as (-> & Ht0 & n & Hn & Hl2). rewrite (proj2 (Z.eqb_neq t 0)), Z.eqb_refl by done. unfold nx in Hn. rewrite Hn. cbn [mbind option_bind].
    assert (tail_of (pre ++ t :: l2) = if n =? 0 then TailNext t else tail_of l2) as Htl.
    { rewrite tail_of_app by done. destruct (Z.eqb_spec n 0) as [->|Hn0]; [by rewrite (lseg_null _ _ _ Hl2)|].
      destruct l2 as [|z l2]; [cbn in Hl2; congruence|]. change (t :: z :: l2) with ([t] ++ z :: l2). by rewrite tail_of_app. }
    apply NoDup_app in Hnd as (Hndp & Hd & Hndt). apply NoDup_cons in Hndt as [Htl2 Hnd2].
    destruct (tail_of_cases pre) as [[-> ->]|(pre' & p & -> & ->)]; cbn [mbind option_bind app] in *.
    + eexists _, _. split; [reflexivity|]. split_and!; try done. rewrite Ht, Htl. destruct (Z.eqb_spec n 0) as [->|Hn0]; [|done].
      by rewrite (lseg_null _ _ _ Hl2).
    + assert (is_Some (m !! p)) as Hp.
      { destruct (lseg_node _ _ _ _ p Hq ltac:(apply elem_of_app; left; apply elem_of_app; right; by left)) as [x Hx].
        unfold nx in Hx. destruct (m !! p); [eauto|done]. }
      destruct (set_next_ok m p n Hp) as (m' & -> & Hn' & Hs' & Hi'). cbn [mbind option_bind]. eexists _, m'. split; [reflexivity|].
      assert (forall y, y <> p -> nx m' y = nx m y) as Hother by (intros y Hy; by rewrite Hn', decide_False).
      assert (p ∉ l2) as Hpl2 by (intros Hp2; apply (Hd p); [apply elem_of_app; right; by left|by right]).
      split_and!; try done; [|rewrite app_nil_r; intros y Hy; apply Hother; intros ->; apply Hy, elem_of_app; right; by left].
      split; [|destruct (Z.eqb_spec n 0) as [->|Hn0]].
      * replace (th_head (if n =? 0 then _ else _)) with (th_head q) by (by destruct (n =? 0)).
        apply lseg_app in Hq as (z & Hpre & Hz). destruct Hz as (-> & _ & _).
        apply lseg_app. exists n. split; [|eapply lseg_ext; [|exact Hl2]; intros y Hy; apply Hother; by intros ->].
        apply lseg_app in Hpre as (z & Hpre & Hz). apply lseg_app. exists z. split.
        -- eapply lseg_ext; [|exact Hpre]. intros y Hy. apply Hother. intros ->. apply NoDup_app in Hndp as (_ & Hdp & _). apply (Hdp p Hy). by left.
        -- destruct Hz as (-> & ? & _). cbn. split_and!; try done. exists n. split; [|done]. by rewrite Hn', decide_True.
      * rewrite (lseg_null _ _ _ Hl2), app_nil_r. cbn [th_tail]. by rewrite tail_of_snoc.
      * rewrite Ht, Htl. destruct l2 as [|z l2]; [cbn in Hl2; congruence|]. by rewrite tail_of_app.
  - destruct Hc as (-> & Hy0 & n & Hn & Hl). rewrite (proj2 (Z.eqb_neq y 0)) by done.
    assert (y <> t) as Hyt.
    { intros ->. apply NoDup_app in Hnd as (_ & _ & Hnd). apply NoDup_cons in Hnd as [Hnd _]. apply Hnd, elem_of_app. right. by left. }
    rewrite (proj2 (Z.eqb_neq y t)) by done. rewrite <- (tail_of_snoc pre y).
    replace (pre ++ y :: l1 ++ t :: l2) with ((pre ++ [y]) ++ l1 ++ t :: l2) in * by (by rewrite <- app_assoc).
    replace (pre ++ y :: l1 ++ l2) with ((pre ++ [y]) ++ l1 ++ l2) by (by rewrite <- app_assoc).
    replace (pre ++ y :: l1) with ((pre ++ [y]) ++ l1) by (by rewrite <- app_assoc).
    apply (IH (pre ++ [y]) l1 n); try done; [cbn in Hf; lia|]. by rewrite tail_of_snoc.
Qed.
End takeover.

(** [takeover_tasklets] moves all tasklets that were queued on a dead CPU
    behind those of this CPU, in their order and on the queue of the same
    priority, leaves the queues of the dead CPU empty and raises the softirqs. *)
Theorem takeover_moves_tasklets (dead dead_hi : tasklet_head) (l lhi : list Z) (s : cpu) (qs : bool -> list Z) :
  tk_rep s 0 (l ++ lhi) [] qs -> raised s qs ->
  queue_rep (tasklets s) dead l -> queue_rep (tasklets s) dead_hi lhi ->
  exists s' qs', takeover_tasklets dead dead_hi s = Some (MkTh 0 TailHead, MkTh 0 TailHead, s') /\
    tk_rep s' 0 [] [] qs' /\ raised s' qs' /\ qs' false = qs false ++ l /\ qs' true = qs true ++ lhi.
Proof.
  intros H Hr Hd Hdh. unfold takeover_tasklets. destruct (takeover_queue_ok false dead l s lhi qs H Hr Hd) as (s1 & -> & H1 & Hr1 & _ & Hn1).
  cbn [mbind option_bind]. assert (queue_rep (tasklets s1) dead_hi lhi) as Hdh1.
  { destruct Hdh as [Hl Ht]. split; [|done]. eapply lseg_ext; [|exact Hl]. intros y Hy. apply Hn1; [|by eapply (lseg_nonzero _ _ _ _ _ Hl)].
    intros Hyq. apply (rep_disjoint _ _ _ _ _ _ _ H) in Hyq as [Hyq _]. apply Hyq, elem_of_app. by right. }
  destruct (takeover_queue_ok true dead_hi lhi s1 [] _ (eq_ind_r (fun x => tk_rep s1 0 x [] _) H1 (app_nil_r lhi)) Hr1 Hdh1)
    as (s2 & -> & H2 & Hr2 & _). cbn [mbind option_bind].
  eexists s2, _. split; [reflexivity|]. split; [exact H2|]. split; [exact Hr2|done].
Qed.

(** [tasklet_kill_immediate] takes a tasklet off the queue of a dead CPU,
    wherever it is in it, and keeps the tail right. *)
Theorem kill_immediate_unlinks (t : Z) (dead : tasklet_head) (l1 l2 : list Z) (s : cpu) (k : tasklet_struct) :
  queue_rep (tasklets s) dead (l1 ++ t :: l2) -> NoDup (l1 ++ t :: l2) -> tasklets s !! t = Some k ->
  test_bit TASKLET_STATE_RUN (tk_state k) = false -> test_bit TASKLET_STATE_SCHED (tk_state k) = true ->
  exists dead' s', tasklet_kill_immediate false t dead s = Some (dead', s') /\ queue_rep (tasklets s') dead' (l1 ++ l2) /\
    same_info (tasklets s) (tasklets s').
Proof.
  intros [Hl Ht] Hnd Hk Hrun Hsch. unfold tasklet_kill_immediate. rewrite Hk. cbn [mbind option_bind orb]. rewrite Hrun, Hsch. cbn [negb].
  assert (length (l1 ++ t :: l2) <= size (tasklets s))%nat as Hsz.
  { apply dom_length; [done|]. intros y Hy. destruct (lseg_node _ _ _ _ _ Hl Hy) as [n Hn]. unfold nx in Hn. destruct (tasklets s !! y); [eauto|done]. }
  destruct (kill_loop_ok (S (size (tasklets s))) (tasklets s) dead [] t l1 l2 (th_head dead)) as (q' & m' & E & Hq & Hi & _); try done.
  { rewrite length_app in Hsz. lia. }
  change TailHead with (tail_of []). rewrite E. cbn [mbind option_bind]. by eexists _, _.
Qed.

(** The tasklets of [tk_cpu] on a dead CPU, seen from a CPU with empty queues. *)
Definition idle_cpu : cpu := set_vec false (MkTh 0 TailHead) tk_cpu.

Lemma idle_cpu_rep : tk_rep idle_cpu 0 ([64; 128] ++ []) [] (fun _ => []).
Proof.
  pose proof (rep_detach false tk_cpu tk_qs tk_cpu_rep) as H. apply (tk_rep_ext _ _ _ _ _ (fun _ => [])) in H; [|by intros []].
  destruct H as [H1 H2 H3 H4 H5 H6]. split; try done; by intros [].
Qed.

Lemma tk_queue_rep : queue_rep (tasklets tk_cpu) (tasklet_vec tk_cpu) [64; 128].
Proof. exact (tr_queue _ _ _ _ _ tk_cpu_rep false). Qed.

Lemma takeover_moves_tasklets_witness :
  exists s' qs', takeover_tasklets (tasklet_vec tk_cpu) (MkTh 0 TailHead) idle_cpu = Some (MkTh 0 TailHead, MkTh 0 TailHead, s') /\
    tk_rep s' 0 [] [] qs' /\ raised s' qs' /\ qs' false = [] ++ [64; 128] /\ qs' true = [] ++ [].
Proof.
  apply (takeover_moves_tasklets (tasklet_vec tk_cpu) (MkTh 0 TailHead) [64; 128] [] idle_cpu (fun _ => []));
    [exact idle_cpu_rep|by intros hi H|exact tk_queue_rep|by split].
Defined.

Lemma kill_immediate_unlinks_witness :
  exists dead' s', tasklet_kill_immediate false 128 (tasklet_vec tk_cpu) tk_cpu = Some (dead', s') /\
    queue_rep (tasklets s') dead' ([64] ++ []) /\ same_info (tasklets tk_cpu) (tasklets s').
Proof.
  apply (kill_immediate_unlinks 128 (tasklet_vec tk_cpu) [64] [] tk_cpu (MkTk 0 1 1 2000 7));
    [exact tk_queue_rep|apply (bool_decide_unpack _); vm_compute; exact I|reflexivity|reflexivity|reflexivity].
Defined.

(** [tasklet_kill_immediate] searches [tasklet_vec] only: a tasklet scheduled
    with [tasklet_hi_schedule] is not found, and the call ends in [BUG()]. *)
Example kill_immediate_misses_hi :
  (s ← tasklet_schedule true 192 tk_cpu; tasklet_kill_immediate false 192 (tasklet_vec s) s) = None /\ is_Some (tasklet_schedule true 192 tk_cpu).
Proof. split; [vm_compute; reflexivity|eexists; vm_compute; reflexivity]. Qed.
