(* ===== verification/Backlog.v ===== *)
(** * Packet reception: the backlog of the network core

    [net/core/dev.c]: drivers pass packets to [netif_rx], which queues them on
    the backlog of a CPU chosen by receive packet steering; the softirq NET_RX
    polls the backlog and the devices in turn and passes packets to the protocols.

    The queues of a CPU are used by interrupts, by other CPUs and by the
    softirq, which enables interrupts while a packet is processed. The code is a
    transition system whose steps are its sections with interrupts disabled; a
    queue that other CPUs use is only touched with its lock held in such a
    section. [None] is a fault: a CPU that does not exist, or [list_del] of an
    entry that is on no list.

    The choice of the CPU, the protocols and the poll functions of the devices
    are code elsewhere: their results are part of the labels. CONFIG_NETPOLL is
    not set; disabling a NAPI context and CPU hotplug are not modelled. *)

From stdpp Require Import prelude gmap list.
From Stdlib Require Import ZArith Lia.
From S2P Require Import Prelude Sepext Vsprintf Linked.

Open Scope Z_scope.
Open Scope list_scope.

(** A NAPI context: the backlog of a CPU, or one of a device. *)
Inductive napi := Backlog (cpu : nat) | Device (id : Z).

#[export] Instance napi_eq_dec : EqDecision napi.
Proof. solve_decision. Defined.

(** Where a CPU is in [net_rx_action]. *)
Inductive rx_pc :=
  | Idle
  | Loop (budget : Z)                                (* at [while (!list_empty(&sd->poll_list))] *)
  | BlStart (own : nat) (budget : Z)                 (* [process_backlog] is called *)
  | BlGo (own : nat) (budget : Z)                    (* pending interrupts have been sent *)
  | BlRecv (own : nat) (budget work quota skb : Z)   (* in [__netif_receive_skb] *)
  | DevPoll (id budget : Z)                          (* in the poll function of a device *)
  | Post (n : napi) (budget work weight : Z).        (* the poll function has returned *)

(** [struct softnet_data], with the packets passed to the protocols, the bit of
    NET_RX in the pending softirqs and the events of the CPU. *)
Record softnet := MkSn {
  input_pkt_queue : list Z; process_queue : list Z;
  poll_list : list napi; rps_ipi_list : list nat; sched : bool;
  input_queue_head : Z; input_queue_tail : Z;
  dropped : Z; time_squeeze : Z; received_rps : Z;
  delivered : list Z; rx_pending : bool; rx_events : list tp_event; pc : rx_pc }.

Definition set_queues inp prc sd := MkSn inp prc (poll_list sd) (rps_ipi_list sd) (sched sd) (input_queue_head sd) (input_queue_tail sd)
  (dropped sd) (time_squeeze sd) (received_rps sd) (delivered sd) (rx_pending sd) (rx_events sd) (pc sd).
Definition set_poll l sd := MkSn (input_pkt_queue sd) (process_queue sd) l (rps_ipi_list sd) (sched sd) (input_queue_head sd) (input_queue_tail sd)
  (dropped sd) (time_squeeze sd) (received_rps sd) (delivered sd) (rx_pending sd) (rx_events sd) (pc sd).
Definition set_ipi l sd := MkSn (input_pkt_queue sd) (process_queue sd) (poll_list sd) l (sched sd) (input_queue_head sd) (input_queue_tail sd)
  (dropped sd) (time_squeeze sd) (received_rps sd) (delivered sd) (rx_pending sd) (rx_events sd) (pc sd).
Definition set_sched b sd := MkSn (input_pkt_queue sd) (process_queue sd) (poll_list sd) (rps_ipi_list sd) b (input_queue_head sd) (input_queue_tail sd)
  (dropped sd) (time_squeeze sd) (received_rps sd) (delivered sd) (rx_pending sd) (rx_events sd) (pc sd).
Definition set_counts h t d q r sd := MkSn (input_pkt_queue sd) (process_queue sd) (poll_list sd) (rps_ipi_list sd) (sched sd) h t
  d q r (delivered sd) (rx_pending sd) (rx_events sd) (pc sd).
Definition set_delivered l sd := MkSn (input_pkt_queue sd) (process_queue sd) (poll_list sd) (rps_ipi_list sd) (sched sd) (input_queue_head sd)
  (input_queue_tail sd) (dropped sd) (time_squeeze sd) (received_rps sd) l (rx_pending sd) (rx_events sd) (pc sd).
Definition set_rx b sd := MkSn (input_pkt_queue sd) (process_queue sd) (poll_list sd) (rps_ipi_list sd) (sched sd) (input_queue_head sd)
  (input_queue_tail sd) (dropped sd) (time_squeeze sd) (received_rps sd) (delivered sd) b (rx_events sd) (pc sd).
Definition rx_emit e sd := MkSn (input_pkt_queue sd) (process_queue sd) (poll_list sd) (rps_ipi_list sd) (sched sd) (input_queue_head sd)
  (input_queue_tail sd) (dropped sd) (time_squeeze sd) (received_rps sd) (delivered sd) (rx_pending sd) (rx_events sd ++ [e]) (pc sd).
Definition set_pc p sd := MkSn (input_pkt_queue sd) (process_queue sd) (poll_list sd) (rps_ipi_list sd) (sched sd) (input_queue_head sd)
  (input_queue_tail sd) (dropped sd) (time_squeeze sd) (received_rps sd) (delivered sd) (rx_pending sd) (rx_events sd) p.

(** The CPUs, the interrupts between them that are on their way, and the devices
    whose NAPI context is scheduled. *)
Record net := MkNet { cpus : list softnet; ipis : list nat; dev_sched : gmap Z bool }.

Definition set_cpu (i : nat) (sd : softnet) (s : net) : net := MkNet (<[i := sd]> (cpus s)) (ipis s) (dev_sched s).
Definition on_cpu (i : nat) (f : softnet -> softnet) (s : net) : option net := sd ← cpus s !! i; Some (set_cpu i (f sd) s).

Definition NET_RX_SOFTIRQ : Z := 3.
Definition NET_RX_SUCCESS : Z := 0.
Definition NET_RX_DROP : Z := 1.

Definition rx_raised : tp_event := tp_srvqueue NET_RX_SOFTIRQ (sem_queue_id_val SRVQ_HI_SOFTIRQ + NET_RX_SOFTIRQ) 0 QUEUE_ENQUEUE.
Definition backlog_id : Z := sem_queue_id_val PKTQ_IP_BACKLOG.

Section backlog.
(** The sysctl variables, the weights of the devices, the CPUs that are online
    and the data pointer of a packet. *)
Context (netdev_max_backlog netdev_budget weight_p : Z) (dev_weight : Z -> Z) (online : nat -> bool) (skb_data : Z -> Z).

Definition ____napi_schedule (n : napi) (sd : softnet) : softnet :=
  set_rx true (rx_emit rx_raised (set_poll (poll_list sd ++ [n]) sd)).

(** The branch of [rps_ipi_queued] for the backlog of another CPU. *)
Definition rps_ipi_queue (cpu : nat) (mysd : softnet) : softnet :=
  set_rx true (rx_emit rx_raised (set_ipi (cpu :: rps_ipi_list mysd) mysd)).

Definition queue_empty (sd : softnet) : bool := bool_decide (input_pkt_queue sd = []).

(** On CPU [me], for the backlog of [cpu]. *)
Definition enqueue_to_backlog (me : nat) (skb : Z) (cpu : nat) (s : net) : option (Z * net) :=
  sd ← cpus s !! cpu;
  s ← on_cpu me (rx_emit (tp_pktqueue (skb_data skb) backlog_id 0 QUEUE_ENQUEUE)) s;
  s ← on_cpu me (rx_emit (tp_queuecondition (if queue_empty sd then QUEUE_EMPTY else QUEUE_NOTEMPTY) backlog_id backlog_id)) s;
  if Z.of_nat (length (input_pkt_queue sd)) <=? netdev_max_backlog then
    s ← (if queue_empty sd && negb (sched sd) then
           s ← on_cpu cpu (set_sched true) s;
           if decide (cpu = me) then on_cpu cpu (____napi_schedule (Backlog cpu)) s else on_cpu me (rps_ipi_queue cpu) s
         else Some s);
    s ← on_cpu cpu (fun sd => set_counts (input_queue_head sd) (u32 (input_queue_tail sd + 1)) (dropped sd) (time_squeeze sd) (received_rps sd)
                               (set_queues (input_pkt_queue sd ++ [skb]) (process_queue sd) sd)) s;
    Some (NET_RX_SUCCESS, s)
  else
    s ← on_cpu cpu (fun sd => set_counts (input_queue_head sd) (input_queue_tail sd) (u32 (dropped sd + 1)) (time_squeeze sd) (received_rps sd) sd) s;
    Some (NET_RX_DROP, s).

(** [napi_schedule] for a device, on CPU [me]. *)
Definition napi_schedule (me : nat) (id : Z) (s : net) : option net :=
  if default false (dev_sched s !! id) then Some s
  else on_cpu me (____napi_schedule (Device id)) (MkNet (cpus s) (ipis s) (<[id := true]> (dev_sched s))).

(** The interrupt for [cpu] arrives: [rps_trigger_softirq]. *)
Definition rps_trigger_softirq (cpu : nat) (s : net) : option net :=
  on_cpu cpu (fun sd => set_counts (input_queue_head sd) (input_queue_tail sd) (dropped sd) (time_squeeze sd) (u32 (received_rps sd + 1))
                          (____napi_schedule (Backlog cpu) sd)) s.

(** [net_rps_action_and_irq_enable] for CPU [i]. The interrupts are sent one by
    one with interrupts enabled; the chain has been taken off the CPU and nothing
    else looks at it, so that they are sent in one step here. *)
Definition net_rps_action (i : nat) (s : net) : option net :=
  sd ← cpus s !! i;
  Some (MkNet (<[i := set_ipi [] sd]> (cpus s)) (ipis s ++ List.filter online (rps_ipi_list sd)) (dev_sched s)).

(** [list_del] of the entry of a NAPI context. *)
Definition list_del (n : napi) (s : net) : option net :=
  if existsb (fun sd => bool_decide (n ∈ poll_list sd)) (cpus s)
  then Some (MkNet ((fun sd => set_poll (filter (fun x => x <> n) (poll_list sd)) sd) <$> cpus s) (ipis s) (dev_sched s))
  else None.

(** [process_backlog] from [while (work < quota)], with interrupts disabled, on
    CPU [me] for the backlog of [own], to the point where they are enabled. The
    inner loop is entered with [inner]. *)
Fixpoint backlog_loop (fuel : nat) (inner : bool) (me own : nat) (budget work quota : Z) (s : net) : option net :=
  match fuel with
  | O => None
  | S fuel' =>
      if negb inner && negb (work <? quota) then on_cpu me (set_pc (Post (Backlog own) budget work weight_p)) s
      else
        s ← (if inner then Some s else on_cpu me (rx_emit (tp_loopstart quota 0 backlog_id backlog_id)) s);
        s ← on_cpu me (rx_emit tp_looprestart) s;
        sd ← cpus s !! own;
        match process_queue sd with
        | skb :: rest =>
            let s := set_cpu own (set_queues (input_pkt_queue sd) rest sd) s in
            s ← on_cpu me (rx_emit (tp_pktqueue (skb_data skb) backlog_id 0 QUEUE_DEQUEUE)) s;
            on_cpu me (set_pc (BlRecv own budget work quota skb)) s
        | [] =>
            s ← on_cpu me (rx_emit tp_loopstop) s;
            sd ← cpus s !! own;
            let qlen := Z.of_nat (length (input_pkt_queue sd)) in
            let s := set_cpu own (set_queues [] (process_queue sd ++ input_pkt_queue sd) sd) s in
            if qlen <? quota - work then
              s ← list_del (Backlog own) s;
              s ← on_cpu own (set_sched false) s;
              backlog_loop fuel' false me own budget work (work + qlen) s
            else backlog_loop fuel' false me own budget work quota s
        end
  end.

(** The packet has been processed. *)
Definition backlog_received (me own : nat) (budget work quota skb : Z) (s : net) : option net :=
  s ← on_cpu own (fun sd => set_counts (u32 (input_queue_head sd + 1)) (input_queue_tail sd) (dropped sd) (time_squeeze sd) (received_rps sd)
                              (set_delivered (delivered sd ++ [skb]) sd)) s;
  let work := work + 1 in
  if quota <=? work then
    s ← on_cpu me (rx_emit tp_loopstop) s;
    on_cpu me (set_pc (Post (Backlog own) budget work weight_p)) s
  else backlog_loop 3 true me own budget work quota s.

(** [net_rx_action] on CPU [me] from the test of its loop. *)
Definition rx_loop (me : nat) (budget : Z) (timeup : bool) (s : net) : option net :=
  sd ← cpus s !! me;
  match poll_list sd with
  | [] => s ← net_rps_action me s; on_cpu me (set_pc Idle) s
  | n :: _ =>
      if (budget <=? 0) || timeup then
        s ← on_cpu me (fun sd => set_counts (input_queue_head sd) (input_queue_tail sd) (dropped sd) (u32 (time_squeeze sd + 1)) (received_rps sd) sd) s;
        s ← on_cpu me (fun sd => set_rx true (rx_emit rx_raised sd)) s;
        s ← net_rps_action me s;
        on_cpu me (set_pc Idle) s
      else
        match n with
        | Backlog own =>
            osd ← cpus s !! own;
            on_cpu me (set_pc (if sched osd then BlStart own budget else Post n budget 0 weight_p)) s
        | Device id => on_cpu me (set_pc (if default false (dev_sched s !! id) then DevPoll id budget else Post n budget 0 (dev_weight id))) s
        end
  end.

(** The rest of the loop body: a context that used its whole weight goes to the
    end of the list. *)
Definition rx_post (me : nat) (n : napi) (budget work weight : Z) (s : net) : option net :=
  let budget := budget - work in
  s ← (if work =? weight then
         s ← list_del n s; on_cpu me (fun sd => set_poll (poll_list sd ++ [n]) sd) s
       else Some s);
  on_cpu me (set_pc (Loop budget)) s.

(** The poll function of a device returns [work] and has called [napi_complete]
    or not. *)
Definition dev_poll (me : nat) (id budget work : Z) (complete : bool) (s : net) : option net :=
  s ← (if complete then s ← list_del (Device id) s; Some (MkNet (cpus s) (ipis s) (<[id := false]> (dev_sched s))) else Some s);
  on_cpu me (set_pc (Post (Device id) budget work (dev_weight id))) s.

(** The next section of [net_rx_action] on CPU [me]; [poll] has what the poll
    functions of the devices do. *)
Definition rx_step (me : nat) (timeup : bool) (poll : Z -> Z * bool) (s : net) : option net :=
  sd ← cpus s !! me;
  match pc sd with
  | Idle => Some s
  | Loop budget => rx_loop me budget timeup s
  | BlStart own budget =>
      osd ← cpus s !! own;
      s ← (if bool_decide (rps_ipi_list osd = []) then Some s else net_rps_action own s);
      on_cpu me (set_pc (BlGo own budget)) s
  | BlGo own budget => backlog_loop 3 false me own budget 0 weight_p s
  | BlRecv own budget work quota skb => backlog_received me own budget work quota skb s
  | DevPoll id budget => dev_poll me id budget (poll id).1 (poll id).2 s
  | Post n budget work weight => rx_post me n budget work weight s
  end.

(** [flush_backlog] on CPU [i]: the packets of a device that goes away are
    dropped from the queues. *)
Definition flush_backlog (skb_dev : Z -> Z) (dev : Z) (i : nat) (s : net) : option net :=
  on_cpu i (fun sd =>
    let keep := List.filter (fun skb => negb (skb_dev skb =? dev)) in
    let n := Z.of_nat (length (input_pkt_queue sd ++ process_queue sd)) - Z.of_nat (length (keep (input_pkt_queue sd ++ process_queue sd))) in
    set_counts (u32 (input_queue_head sd + n)) (input_queue_tail sd) (dropped sd) (time_squeeze sd) (received_rps sd)
      (set_queues (keep (input_pkt_queue sd)) (keep (process_queue sd)) sd)) s.

(** ** The transition system *)

Inductive rx_label :=
  | LEnqueue (me : nat) (skb : Z) (cpu : nat)
  | LSchedule (me : nat) (id : Z)
  | LIpi (cpu : nat)
  | LSoftirq (cpu : nat)
  | LRx (cpu : nat) (timeup : bool) (poll : Z -> Z * bool)
  | LFlush (cpu : nat) (skb_dev : Z -> Z) (dev : Z).

(** Removes one of the interrupts for [cpu]. *)
Fixpoint take_ipi (cpu : nat) (l : list nat) : option (list nat) :=
  match l with
  | [] => None
  | c :: l' => if decide (c = cpu) then Some l' else cons c <$> take_ipi cpu l'
  end.

(** A label that is not possible changes nothing: an interrupt that was not
    sent, a softirq that is not pending or is already running on the CPU. *)
Definition rx_do (l : rx_label) (s : net) : option (net * option Z) :=
  match l with
  | LEnqueue me skb cpu => '(r, s) ← enqueue_to_backlog me skb cpu s; Some (s, Some r)
  | LSchedule me id => s ← napi_schedule me id s; Some (s, None)
  | LIpi cpu =>
      match take_ipi cpu (ipis s) with
      | Some l => s ← rps_trigger_softirq cpu (MkNet (cpus s) l (dev_sched s)); Some (s, None)
      | None => Some (s, None)
      end
  | LSoftirq cpu =>
      sd ← cpus s !! cpu;
      match pc sd with
      | Idle => if rx_pending sd then Some (set_cpu cpu (set_pc (Loop netdev_budget) (set_rx false sd)) s, None) else Some (s, None)
      | _ => Some (s, None)
      end
  | LRx cpu timeup poll => s ← rx_step cpu timeup poll s; Some (s, None)
  | LFlush cpu skb_dev dev => s ← flush_backlog skb_dev dev cpu s; Some (s, None)
  end.

Fixpoint rx_run (ls : list rx_label) (s : net) : option (net * list (option Z)) :=
  match ls with
  | [] => Some (s, [])
  | l :: ls' => '(s, r) ← rx_do l s; '(s, rs) ← rx_run ls' s; Some (s, r :: rs)
  end.
End backlog.

(** [net_dev_init] *)
Definition softnet_init : softnet := MkSn [] [] [] [] false 0 0 0 0 0 [] false [] Idle.
Definition net_init (n : nat) : net := MkNet (replicate n softnet_init) [] ∅.

(** ** Invariant *)

(** The places where a NAPI context that is scheduled can be: on the list of a
    CPU to be polled, or, for a backlog, on a list of interrupts to be sent or
    among those on their way. *)
Definition toks (sd : softnet) : list napi := (Backlog <$> rps_ipi_list sd) ++ poll_list sd.
Definition tokens (s : net) : list napi := concat (toks <$> cpus s) ++ (Backlog <$> ipis s).
Definition napi_on (s : net) (n : napi) : bool :=
  match n with Backlog c => default false (sched <$> cpus s !! c) | Device d => default false (dev_sched s !! d) end.

(** A context is scheduled if and only if it is in one of these places, and
    then in one of them, once. *)
Record token_inv (s : net) : Prop := { tk_nodup : NoDup (tokens s); tk_on : forall n, n ∈ tokens s <-> napi_on s n = true }.

Definition recv (sd : softnet) : list Z := match pc sd with BlRecv _ _ _ _ skb => [skb] | _ => [] end.

Section invariant.
Context (netdev_max_backlog netdev_budget weight_p : Z) (dev_weight : Z -> Z) (online : nat -> bool) (skb_data : Z -> Z).
Context (Hmax : 0 <= netdev_max_backlog) (Hweight : 0 < weight_p) (Hdev : forall d, 0 < dev_weight d) (Honline : forall c, online c = true).

(** While a packet is processed, the backlog is still on the list with its whole
    quota, or it has been taken off and the quota is what is left to process. *)
Definition pc_ok (i : nat) (sd : softnet) : Prop :=
  match pc sd with
  | BlStart own _ | BlGo own _ => own = i /\ Backlog i ∈ poll_list sd
  | BlRecv own _ w q _ => own = i /\ 0 <= w < q /\
      ((Backlog i ∈ poll_list sd /\ q = weight_p) \/ (q < weight_p /\ q - w = Z.of_nat (length (process_queue sd)) + 1))
  | DevPoll d _ => Device d ∈ poll_list sd
  | Post n _ w wt => w = wt -> n ∈ poll_list sd
  | _ => True
  end.

(** [acc] has the packets accepted for each CPU. *)
Record cpu_inv (acc : nat -> list Z) (i : nat) (sd : softnet) : Prop := {
  ci_own : forall o, Backlog o ∈ poll_list sd -> o = i;
  ci_len : Z.of_nat (length (input_pkt_queue sd)) <= netdev_max_backlog + 1;
  ci_wake : poll_list sd <> [] \/ rps_ipi_list sd <> [] -> rx_pending sd = true \/ pc sd <> Idle;
  ci_input : input_pkt_queue sd <> [] -> sched sd = true;
  ci_proc : process_queue sd <> [] -> sched sd = true \/
    exists b w q skb, pc sd = BlRecv i b w q skb /\ q - w = Z.of_nat (length (process_queue sd)) + 1;
  ci_pc : pc_ok i sd;
  ci_fifo : acc i = delivered sd ++ recv sd ++ process_queue sd ++ input_pkt_queue sd }.

Record net_inv (acc : nat -> list Z) (s : net) : Prop := {
  ni_token : token_inv s;
  ni_cpu : forall i sd, cpus s !! i = Some sd -> cpu_inv acc i sd }.

(** *** Tokens *)

Lemma token_perm s s' : tokens s' ≡ₚ tokens s -> (forall n, napi_on s' n = napi_on s n) -> token_inv s -> token_inv s'.
Proof. intros Hp Hn [H1 H2]. split; [by rewrite Hp|]. intros n. by rewrite Hp, Hn. Qed.

Lemma token_add n s s' :
  tokens s' ≡ₚ n :: tokens s -> napi_on s n = false -> napi_on s' n = true -> (forall m, m <> n -> napi_on s' m = napi_on s m) ->
  token_inv s -> token_inv s'.
Proof.
  intros Hp H0 H1 Hm [Hd Ho]. assert (n ∉ tokens s) as Hn by (intros Hin%Ho; congruence). split; [rewrite Hp; by constructor|].
  intros m. rewrite Hp, elem_of_cons. destruct (decide (m = n)) as [->|Hne]; [rewrite H1; tauto|]. rewrite Hm, <- Ho by done. tauto.
Qed.

Lemma token_del n s s' :
  tokens s ≡ₚ n :: tokens s' -> napi_on s' n = false -> (forall m, m <> n -> napi_on s' m = napi_on s m) -> token_inv s -> token_inv s'.
Proof.
  intros Hp H0 Hm [Hd Ho]. rewrite Hp in Hd. apply NoDup_cons in Hd as [Hn Hd]. split; [done|]. intros m.
  destruct (decide (m = n)) as [->|Hne]; [rewrite H0; by split; [intros ?%Hn|]|]. rewrite Hm, <- Ho, Hp, elem_of_cons by done.
  split; [by right|by intros [?|?]].
Qed.

Definition rest (i : nat) (s : net) : list napi := others i (toks <$> cpus s) ++ (Backlog <$> ipis s).

Lemma tokens_cpu i sd s : cpus s !! i = Some sd -> tokens s ≡ₚ toks sd ++ rest i s.
Proof.
  intros H. unfold tokens, rest. rewrite (concat_others i _ (toks sd)) by (by rewrite list_lookup_fmap, H). by rewrite app_assoc.
Qed.

Lemma tokens_set i sd sd' s : cpus s !! i = Some sd -> tokens (set_cpu i sd' s) ≡ₚ toks sd' ++ rest i s.
Proof.
  intros H. unfold tokens, rest. cbn [cpus set_cpu ipis]. rewrite list_fmap_insert, concat_insert_others.
  - by rewrite app_assoc.
  - rewrite length_fmap. by eapply lookup_lt_Some.
Qed.

Lemma cpu_set_eq i sd sd' s : cpus s !! i = Some sd -> cpus (set_cpu i sd' s) !! i = Some sd'.
Proof. intros H. cbn. apply list_lookup_insert_eq. by eapply lookup_lt_Some. Qed.
Lemma cpu_set_ne i j sd' s : i <> j -> cpus (set_cpu i sd' s) !! j = cpus s !! j.
Proof. intros H. cbn. by apply list_lookup_insert_ne. Qed.
Lemma set_cpu_twice i a b s : set_cpu i a (set_cpu i b s) = set_cpu i a s.
Proof. unfold set_cpu. cbn. by rewrite list_insert_insert_eq. Qed.

Lemma on_cpu_eq i f sd s : cpus s !! i = Some sd -> on_cpu i f s = Some (set_cpu i (f sd) s).
Proof. intros H. unfold on_cpu. by rewrite H. Qed.

Lemma on_set i f sd sd' s : cpus s !! i = Some sd -> on_cpu i f (set_cpu i sd' s) = Some (set_cpu i (f sd') s).
Proof. intros H. rewrite (on_cpu_eq i f sd') by (by eapply cpu_set_eq). by rewrite set_cpu_twice. Qed.

Lemma napi_on_set i sd sd' s n : cpus s !! i = Some sd -> sched sd' = sched sd -> napi_on (set_cpu i sd' s) n = napi_on s n.
Proof.
  intros H E. destruct n as [c|d]; [|done]. cbn [napi_on]. destruct (decide (c = i)) as [->|Hne].
  - rewrite (cpu_set_eq i sd), H by done. cbn. by rewrite E.
  - by rewrite cpu_set_ne.
Qed.

(** A change of one CPU that keeps its places. *)
Lemma inv_set acc acc' i sd sd' s :
  net_inv acc s -> cpus s !! i = Some sd -> toks sd' ≡ₚ toks sd -> sched sd' = sched sd ->
  cpu_inv acc' i sd' -> (forall j, j <> i -> acc' j = acc j) -> net_inv acc' (set_cpu i sd' s).
Proof.
  intros [Ht Hc] H Hp Hs Hi Ha. split.
  - eapply token_perm; [|intros n; by eapply napi_on_set|done]. rewrite (tokens_set i sd), (tokens_cpu i sd) by done. by rewrite Hp.
  - intros j sdj Hj. destruct (decide (j = i)) as [->|Hne].
    + rewrite (cpu_set_eq i sd) in Hj by done. by injection Hj as <-.
    + rewrite cpu_set_ne in Hj by done. destruct (Hc j sdj Hj). split; try done. by rewrite Ha.
Qed.

Lemma inv_emit acc i e sd s : net_inv acc s -> cpus s !! i = Some sd -> net_inv acc (set_cpu i (rx_emit e sd) s).
Proof. intros H Hi. eapply inv_set; try done. destruct (ni_cpu _ _ H i sd Hi). by split. Qed.

(** A backlog that is not scheduled becomes scheduled on its own CPU. *)
Lemma inv_add acc acc' i sd sd' s :
  net_inv acc s -> cpus s !! i = Some sd -> toks sd' ≡ₚ Backlog i :: toks sd -> sched sd = false -> sched sd' = true ->
  cpu_inv acc' i sd' -> (forall j, j <> i -> acc' j = acc j) -> net_inv acc' (set_cpu i sd' s).
Proof.
  intros [Ht Hc] H Hp Hs Hs' Hi Ha. split.
  - apply (token_add (Backlog i) s); try done.
    + rewrite (tokens_set i sd), (tokens_cpu i sd) by done. by rewrite Hp.
    + cbn. by rewrite H.
    + cbn [napi_on]. rewrite (cpu_set_eq i sd) by done. done.
    + intros [c|d] Hne; [|done]. cbn [napi_on]. rewrite cpu_set_ne by congruence. done.
  - intros j sdj Hj. destruct (decide (j = i)) as [->|Hne].
    + rewrite (cpu_set_eq i sd) in Hj by done. by injection Hj as <-.
    + rewrite cpu_set_ne in Hj by done. destruct (Hc j sdj Hj). split; try done. by rewrite Ha.
Qed.

(** It is put on the list of interrupts that [me] will send. *)
Lemma inv_add_remote acc acc' me i sdm sdm' sd sd' s :
  net_inv acc s -> me <> i -> cpus s !! i = Some sd -> cpus s !! me = Some sdm ->
  toks sd' = toks sd -> toks sdm' ≡ₚ Backlog i :: toks sdm -> sched sd = false -> sched sd' = true -> sched sdm' = sched sdm ->
  cpu_inv acc' i sd' -> cpu_inv acc' me sdm' -> (forall j, j <> i -> acc' j = acc j) ->
  net_inv acc' (set_cpu i sd' (set_cpu me sdm' s)).
Proof.
  intros [Ht Hc] Hne H Hm Hp Hpm Hs Hs' Hsm Hi Hme Ha.
  assert (cpus (set_cpu me sdm' s) !! i = Some sd) as H1 by (by rewrite cpu_set_ne). split.
  - apply (token_add (Backlog i) s); try done.
    + rewrite (tokens_set i sd), Hp, <- (tokens_cpu i sd (set_cpu me sdm' s)) by done.
      rewrite (tokens_set me sdm), (tokens_cpu me sdm) by done. by rewrite Hpm.
    + cbn. by rewrite H.
    + cbn [napi_on]. by rewrite (cpu_set_eq i sd) by done.
    + intros [c|d] Hnc; [|done]. cbn [napi_on]. rewrite cpu_set_ne by congruence. apply (napi_on_set me sdm sdm' s (Backlog c) Hm Hsm).
  - intros j sdj Hj. destruct (decide (j = i)) as [->|Hji].
    + rewrite (cpu_set_eq i sd) in Hj by done. by injection Hj as <-.
    + rewrite cpu_set_ne in Hj by done. destruct (decide (j = me)) as [->|Hjm].
      * rewrite (cpu_set_eq me sdm) in Hj by done. by injection Hj as <-.
      * rewrite cpu_set_ne in Hj by done. destruct (Hc j sdj Hj). split; try done. by rewrite Ha.
Qed.

(** *** Queueing *)

Definition add_acc (c : nat) (skb : Z) (acc : nat -> list Z) : nat -> list Z := fun j => if decide (j = c) then acc j ++ [skb] else acc j.

Definition push (skb : Z) (sd : softnet) : softnet :=
  set_counts (input_queue_head sd) (u32 (input_queue_tail sd + 1)) (dropped sd) (time_squeeze sd) (received_rps sd)
    (set_queues (input_pkt_queue sd ++ [skb]) (process_queue sd) sd).

(** A queue that is scheduled takes another packet. *)
Lemma push_inv acc i skb sd :
  cpu_inv acc i sd -> sched sd = true -> Z.of_nat (length (input_pkt_queue sd)) <= netdev_max_backlog ->
  cpu_inv (add_acc i skb acc) i (push skb sd).
Proof.
  intros [H1 H2 H3 H4 H5 H6 H7] Hs Hl. split; try done.
  - cbn. rewrite length_app. cbn [length]. lia.
  - unfold add_acc. rewrite decide_True by done. rewrite H7. cbn [delivered recv process_queue input_pkt_queue push set_counts set_queues pc].
    change (recv (push skb sd)) with (recv sd). by rewrite <- !app_assoc.
Qed.

Lemma pc_ok_more i sd sd' :
  pc sd' = pc sd -> process_queue sd' = process_queue sd -> (forall n, n ∈ poll_list sd -> n ∈ poll_list sd') -> pc_ok i sd -> pc_ok i sd'.
Proof.
  unfold pc_ok. intros -> -> Hp. destruct (pc sd); try done; try (by intros [? ?]; auto); auto.
  intros (? & ? & [[? ?]|?]); split_and!; try done; try tauto. left. auto.
Qed.

Lemma schedule_inv acc i sd :
  cpu_inv acc i sd -> cpu_inv acc i (____napi_schedule (Backlog i) (set_sched true sd)).
Proof.
  intros [H1 H2 H3 H4 H5 H6 H7]. split; try done; cbn.
  - intros o [Ho|Ho%list_elem_of_singleton]%elem_of_app; [auto|congruence].
  - auto.
  - auto.
  - eapply (pc_ok_more i sd); try done. cbn. intros n Hn. apply elem_of_app. by left.
Qed.

Lemma enqueue_inv acc me skb cpu s :
  net_inv acc s -> (me < length (cpus s))%nat -> (cpu < length (cpus s))%nat ->
  exists r s', enqueue_to_backlog netdev_max_backlog skb_data me skb cpu s = Some (r, s') /\ length (cpus s') = length (cpus s) /\
    ((r = NET_RX_SUCCESS /\ net_inv (add_acc cpu skb acc) s') \/ (r = NET_RX_DROP /\ net_inv acc s')).
Proof.
  intros H Hme Hcpu. destruct (lookup_lt_is_Some_2 _ _ Hme) as [sdm Hm]. destruct (lookup_lt_is_Some_2 _ _ Hcpu) as [sd Hc].
  unfold enqueue_to_backlog. rewrite Hc. cbn [mbind option_bind]. rewrite (on_cpu_eq me _ sdm) by done. cbn [mbind option_bind].
  rewrite (on_set me _ sdm) by done. cbn [mbind option_bind].
  set (sdm1 := rx_emit _ (rx_emit _ sdm)). set (s1 := set_cpu me sdm1 s).
  assert (net_inv acc s1) as H1.
  { unfold s1, sdm1. rewrite <- (set_cpu_twice me _ (rx_emit (tp_pktqueue (skb_data skb) backlog_id 0 QUEUE_ENQUEUE) sdm)).
    eapply inv_emit; [by eapply inv_emit|by eapply cpu_set_eq]. }
  assert (exists sd1, cpus s1 !! cpu = Some sd1 /\ input_pkt_queue sd1 = input_pkt_queue sd /\ sched sd1 = sched sd) as (sd1 & Hc1 & Ei & Es).
  { unfold s1. destruct (decide (cpu = me)) as [->|Hne]; [rewrite (cpu_set_eq me sdm) by done|rewrite cpu_set_ne by done; eauto].
    rewrite Hm in Hc. injection Hc as ->. by eexists. }
  assert (length (cpus s1) = length (cpus s)) as Hlen by apply length_insert. pose proof (ni_cpu _ _ H1 cpu sd1 Hc1) as Hi.
  assert (cpus s1 !! me = Some sdm1) as Hm1 by (by eapply cpu_set_eq). rewrite <- Ei, <- Es. clearbody s1 sdm1.
  replace (queue_empty sd) with (queue_empty sd1) by (unfold queue_empty; by rewrite Ei).
  destruct (Z.leb_spec (Z.of_nat (length (input_pkt_queue sd1))) netdev_max_backlog) as [Hle|_].
  2:{ rewrite (on_cpu_eq cpu _ sd1) by done. cbn [mbind option_bind]. eexists _, _. split; [reflexivity|].
      split; [cbn; by rewrite length_insert|]. right. split; [done|]. eapply inv_set; try done. destruct Hi. by split. }
  destruct (queue_empty sd1 && negb (sched sd1)) eqn:Eq.
  2:{ cbn [mbind option_bind]. rewrite (on_cpu_eq cpu _ sd1) by done. cbn [mbind option_bind]. eexists _, _. split; [reflexivity|].
      split; [cbn; by rewrite length_insert|]. left. split; [done|]. eapply (inv_set acc); try done.
      - apply push_inv; try done. apply andb_false_iff in Eq as [Eq|Eq%negb_false_iff]; [|done]. apply bool_decide_eq_false in Eq. by apply Hi.
      - intros j Hj. unfold add_acc. by rewrite decide_False. }
  apply andb_true_iff in Eq as [_ Eq%negb_true_iff]. rewrite (on_cpu_eq cpu _ sd1) by done. cbn [mbind option_bind].
  destruct (decide (cpu = me)) as [->|Hne].
  - rewrite (on_set me _ sd1) by done. cbn [mbind option_bind]. rewrite (on_set me _ sd1) by done. cbn [mbind option_bind].
    eexists _, _. split; [reflexivity|]. split; [cbn; by rewrite length_insert|]. left. split; [done|]. eapply (inv_add acc _ me sd1); try done.
    + unfold toks. cbn. solve_Permutation.
    + apply push_inv; [by apply schedule_inv|done|done].
    + intros j Hj. unfold add_acc. by rewrite decide_False.
  - rewrite (on_cpu_eq me _ sdm1) by (by rewrite cpu_set_ne). cbn [mbind option_bind].
    assert (cpus (set_cpu me (rps_ipi_queue cpu sdm1) (set_cpu cpu (set_sched true sd1) s1)) !! cpu = Some (set_sched true sd1)) as Hl
      by (rewrite cpu_set_ne by done; by eapply cpu_set_eq).
    rewrite (on_cpu_eq cpu _ _ _ Hl). cbn [mbind option_bind]. eexists _, _. split; [reflexivity|]. split; [cbn; by rewrite !length_insert|].
    left. split; [done|]. assert (forall a b c0, set_cpu cpu a (set_cpu me b (set_cpu cpu c0 s1)) = set_cpu cpu a (set_cpu me b s1)) as ->.
    { intros a b c0. unfold set_cpu. cbn. f_equal. rewrite (list_insert_insert_ne _ me cpu) by done. by rewrite list_insert_insert_eq. }
    apply (inv_add_remote acc _ me cpu sdm1 _ sd1); try done.
    + apply push_inv; [|done|done]. destruct Hi. split; try done. all: cbn; auto.
    + destruct (ni_cpu _ _ H1 me sdm1 Hm1) as [G1 G2 G3 G4 G5 G6 G7]. split; try done; [by left|].
      unfold add_acc. rewrite decide_False by done. exact G7.
    + intros j Hj. unfold add_acc. by rewrite decide_False.
Qed.

(** *** Interrupts *)

Lemma add_poll_inv acc i n sd :
  cpu_inv acc i sd -> (forall o, n = Backlog o -> o = i) -> cpu_inv acc i (____napi_schedule n sd).
Proof.
  intros [H1 H2 H3 H4 H5 H6 H7] Hn. split; try done; cbn.
  - intros o [Ho|Ho%list_elem_of_singleton]%elem_of_app; [auto|by apply Hn].
  - auto.
  - eapply (pc_ok_more i sd); try done. cbn. intros m Hm. apply elem_of_app. by left.
Qed.

Lemma schedule_dev_inv acc me id s :
  net_inv acc s -> (me < length (cpus s))%nat ->
  exists s', napi_schedule me id s = Some s' /\ net_inv acc s' /\ length (cpus s') = length (cpus s).
Proof.
  intros H Hme. destruct (lookup_lt_is_Some_2 _ _ Hme) as [sd Hsd]. unfold napi_schedule.
  destruct (default false (dev_sched s !! id)) eqn:E; [by exists s|].
  rewrite (on_cpu_eq me _ sd) by done. eexists. split; [reflexivity|]. split; [|cbn; by rewrite length_insert].
  set (s1 := MkNet _ _ _). destruct H as [Ht Hc]. split.
  - apply (token_add (Device id) s); try done.
    + rewrite (tokens_set me sd _ s1) by done. rewrite (tokens_cpu me sd s) by done.
      change (rest me s1) with (rest me s). unfold toks. cbn. solve_Permutation.
    + cbn. by rewrite lookup_insert_eq.
    + intros [c|d] Hne; [|cbn; by rewrite lookup_insert_ne by congruence]. by rewrite (napi_on_set me sd).
  - intros j sdj Hj. destruct (decide (j = me)) as [->|Hne].
    + rewrite (cpu_set_eq me sd) in Hj by done. injection Hj as <-. apply add_poll_inv; [by apply Hc|done].
    + rewrite cpu_set_ne in Hj by done. by apply Hc.
Qed.

Lemma take_ipi_perm c l l' : take_ipi c l = Some l' -> l ≡ₚ c :: l'.
Proof.
  revert l'. induction l as [|x l IH]; intros l'; [done|]. cbn [take_ipi]. destruct (decide (x = c)) as [->|]; [by intros [= <-]|].
  destruct (take_ipi c l) as [l1|]; [|done]. cbn. intros [= <-]. rewrite (IH l1) by done. solve_Permutation.
Qed.

Lemma ipi_inv acc c l s :
  net_inv acc s -> (c < length (cpus s))%nat -> take_ipi c (ipis s) = Some l ->
  exists s', rps_trigger_softirq c (MkNet (cpus s) l (dev_sched s)) = Some s' /\ net_inv acc s' /\ length (cpus s') = length (cpus s).
Proof.
  intros H Hcl Hl. destruct (lookup_lt_is_Some_2 _ _ Hcl) as [sd Hsd]. unfold rps_trigger_softirq. set (s1 := MkNet _ _ _).
  rewrite (on_cpu_eq c _ sd) by done. eexists. split; [reflexivity|]. split; [|cbn; by rewrite length_insert].
  destruct H as [Ht Hc]. split.
  - eapply (token_perm s); [|intros n; by rewrite (napi_on_set c sd)|done]. rewrite (tokens_set c sd _ s1), (tokens_cpu c sd s) by done.
    unfold rest. cbn [cpus ipis s1]. rewrite (take_ipi_perm _ _ _ Hl), fmap_cons. unfold toks. cbn. solve_Permutation.
  - intros j sdj Hj. destruct (decide (j = c)) as [->|Hne].
    + rewrite (cpu_set_eq c sd) in Hj by done. injection Hj as <-. destruct (add_poll_inv acc c (Backlog c) sd); [by apply Hc|congruence|]. by split.
    + rewrite cpu_set_ne in Hj by done. by apply Hc.
Qed.

(** Sending the interrupts. *)
Lemma rps_action_inv acc i sd s :
  net_inv acc s -> cpus s !! i = Some sd ->
  exists s', net_rps_action online i s = Some s' /\ net_inv acc s' /\ cpus s' = <[i := set_ipi [] sd]> (cpus s).
Proof.
  intros [Ht Hc] Hsd. unfold net_rps_action. rewrite Hsd. cbn [mbind option_bind]. eexists. split; [reflexivity|]. split; [|done].
  assert (List.filter online (rps_ipi_list sd) = rps_ipi_list sd) as ->.
  { generalize (rps_ipi_list sd). intros l. induction l as [|x l IH]; [done|]. cbn. by rewrite Honline, IH. }
  split.
  - apply (token_perm s); [| |done].
    + unfold tokens. cbn [cpus ipis]. rewrite list_fmap_insert, concat_insert_others by (rewrite length_fmap; by eapply lookup_lt_Some).
      rewrite (concat_others i (toks <$> cpus s) (toks sd)) by (by rewrite list_lookup_fmap, Hsd). rewrite fmap_app.
      unfold toks at 1 3. cbn. solve_Permutation.
    + intros n. by apply (napi_on_set i sd (set_ipi [] sd) s n).
  - intros j sdj Hj. cbn [cpus] in Hj. destruct (decide (j = i)) as [->|Hne].
    + rewrite list_lookup_insert_eq in Hj by (by eapply lookup_lt_Some). injection Hj as <-. destruct (Hc i sd Hsd) as [H1 H2 H3 H4 H5 H6 H7].
      split; try done. cbn. intros [?|?]; [|done]. auto.
    + rewrite list_lookup_insert_ne in Hj by done. by apply Hc.
Qed.

(** *** [list_del] *)

Lemma filter_absent (n : napi) (l : list napi) : n ∉ l -> filter (fun x => x <> n) l = l.
Proof.
  induction l as [|x l IH]; [done|]. intros [Hx Hl]%not_elem_of_cons. rewrite filter_cons_True by (by intros ->). by rewrite IH.
Qed.

(** A context is on the list of one CPU only. *)
Lemma poll_unique s i j sd sdj n :
  token_inv s -> cpus s !! i = Some sd -> cpus s !! j = Some sdj -> n ∈ poll_list sd -> n ∈ poll_list sdj -> i = j.
Proof.
  intros [Hd _] Hi Hj Hn Hnj. destruct (decide (i = j)) as [|Hne]; [done|]. rewrite (tokens_cpu i sd s Hi) in Hd.
  apply NoDup_app in Hd as (_ & Hd & _). exfalso. apply (Hd n); [apply elem_of_app; by right|]. apply elem_of_app. left.
  eapply (elem_of_others i j _ (toks sdj)); [by rewrite list_lookup_fmap, Hj|done|]. apply elem_of_app. by right.
Qed.

Lemma list_del_eq s i sd n :
  token_inv s -> cpus s !! i = Some sd -> n ∈ poll_list sd ->
  list_del n s = Some (set_cpu i (set_poll (filter (fun x => x <> n) (poll_list sd)) sd) s).
Proof.
  intros Ht Hi Hn. unfold list_del.
  assert (existsb (fun sd => bool_decide (n ∈ poll_list sd)) (cpus s) = true) as ->.
  { apply existsb_exists. exists sd. split; [apply list_elem_of_In; by eapply list_elem_of_lookup_2|]. by apply bool_decide_eq_true. }
  f_equal. unfold set_cpu. f_equal. apply list_eq. intros j. rewrite list_lookup_fmap. destruct (decide (j = i)) as [->|Hne].
  - rewrite Hi, list_lookup_insert_eq by (by eapply lookup_lt_Some). done.
  - rewrite list_lookup_insert_ne by done. destruct (cpus s !! j) as [sdj|] eqn:Hj; [|done]. cbn. f_equal.
    rewrite filter_absent; [by destruct sdj|]. intros Hnj. by pose proof (poll_unique s i j sd sdj n Ht Hi Hj Hn Hnj).
Qed.

Lemma poll_split s i sd n :
  token_inv s -> cpus s !! i = Some sd -> n ∈ poll_list sd ->
  poll_list sd ≡ₚ n :: filter (fun x => x <> n) (poll_list sd).
Proof.
  intros [Hd _] Hi Hn. rewrite (tokens_cpu i sd s Hi) in Hd. apply NoDup_app in Hd as (Hd & _ & _). unfold toks in Hd.
  apply NoDup_app in Hd as (_ & _ & Hd). revert Hn Hd. generalize (poll_list sd). intros l. induction l as [|x l IH]; [by intros ?%not_elem_of_nil|].
  intros Hn [Hx Hd]%NoDup_cons. rewrite filter_cons. destruct (decide (x <> n)) as [Hne|Heq%dec_stable].
  - apply elem_of_cons in Hn as [->|Hn]; [done|]. rewrite IH at 1 by done. solve_Permutation.
  - subst. by rewrite filter_absent.
Qed.

(** *** [process_backlog] *)

(** The events at the head of the loops. *)
Definition loop_head (inner : bool) (q : Z) (sd : softnet) : softnet :=
  rx_emit tp_looprestart (if inner then sd else rx_emit (tp_loopstart q 0 backlog_id backlog_id) sd).
Definition dequeued (inner : bool) (i : nat) (b w q skb : Z) (rest : list Z) (sd : softnet) : softnet :=
  set_pc (BlRecv i b w q skb) (rx_emit (tp_pktqueue (skb_data skb) backlog_id 0 QUEUE_DEQUEUE)
    (set_queues (input_pkt_queue sd) rest (loop_head inner q sd))).
Definition spliced (inner : bool) (q : Z) (sd : softnet) : softnet :=
  set_queues [] (input_pkt_queue sd) (rx_emit tp_loopstop (loop_head inner q sd)).

Lemma loop_head_fields inner q sd :
  process_queue (loop_head inner q sd) = process_queue sd /\ input_pkt_queue (loop_head inner q sd) = input_pkt_queue sd.
Proof. by destruct inner. Qed.

Lemma backlog_loop_head fuel inner i b w q sd s :
  cpus s !! i = Some sd -> w < q ->
  backlog_loop weight_p skb_data (S fuel) inner i i b w q s =
    match process_queue sd with
    | skb :: rest => Some (set_cpu i (dequeued inner i b w q skb rest sd) s)
    | [] =>
        let qlen := Z.of_nat (length (input_pkt_queue sd)) in
        let s := set_cpu i (spliced inner q sd) s in
        if qlen <? q - w then
          s ← list_del (Backlog i) s; s ← on_cpu i (set_sched false) s;
          backlog_loop weight_p skb_data fuel false i i b w (w + qlen) s
        else backlog_loop weight_p skb_data fuel false i i b w q s
    end.
Proof.
  intros H Hw. cbn [backlog_loop]. rewrite (proj2 (Z.ltb_lt w q)) by done. rewrite andb_false_r.
  assert ((if inner then Some s else on_cpu i (rx_emit (tp_loopstart q 0 backlog_id backlog_id)) s) =
    Some (if inner then s else set_cpu i (rx_emit (tp_loopstart q 0 backlog_id backlog_id) sd) s)) as -> by (destruct inner; [done|by apply on_cpu_eq]).
  cbn [mbind option_bind].
  assert (on_cpu i (rx_emit tp_looprestart) (if inner then s else set_cpu i (rx_emit (tp_loopstart q 0 backlog_id backlog_id) sd) s) =
    Some (set_cpu i (loop_head inner q sd) s)) as -> by (destruct inner; [by apply on_cpu_eq|by rewrite (on_set i _ sd)]).
  cbn [mbind option_bind]. rewrite (cpu_set_eq i sd) by done. cbn [mbind option_bind]. destruct (loop_head_fields inner q sd) as [-> ->].
  destruct (process_queue sd) as [|skb rest'] eqn:Ep.
  - rewrite (on_set i _ sd) by done. cbn [mbind option_bind]. rewrite (cpu_set_eq i sd) by done. cbn [mbind option_bind].
    rewrite set_cpu_twice. cbn [input_pkt_queue process_queue rx_emit]. destruct (loop_head_fields inner q sd) as [E1 ->].
    rewrite E1, Ep. cbn [app]. done.
  - rewrite set_cpu_twice, (on_set i _ sd) by done. cbn [mbind option_bind]. by rewrite (on_set i _ sd).
Qed.

(** A state as it is between the sections, without the packet in hand. *)
Definition between (b : Z) (sd : softnet) : softnet := set_pc (Loop b) sd.

Lemma deq_inv acc inner i b w q skb rest' sd :
  (forall o, Backlog o ∈ poll_list sd -> o = i) -> Z.of_nat (length (input_pkt_queue sd)) <= netdev_max_backlog + 1 ->
  (input_pkt_queue sd <> [] -> sched sd = true) -> acc i = delivered sd ++ process_queue sd ++ input_pkt_queue sd ->
  process_queue sd = skb :: rest' -> 0 <= w < q ->
  (Backlog i ∈ poll_list sd /\ sched sd = true /\ q = weight_p) \/ (q < weight_p /\ q - w = Z.of_nat (length (process_queue sd))) ->
  cpu_inv acc i (dequeued inner i b w q skb rest' sd).
Proof.
  intros H1 H2 H4 H7 Hp Hw Hc. unfold dequeued, loop_head. rewrite Hp in *. split; try (destruct inner; done).
  - intros _. right. destruct inner; discriminate.
  - intros _. destruct Hc as [(_ & Hs & _)|[_ Hl]]; [left; by destruct inner|right]. exists b, w, q, skb. split; [done|].
    cbn [length process_queue set_pc rx_emit set_queues] in *. lia.
  - unfold pc_ok. cbn [pc set_pc]. split_and!; try done; try lia. destruct Hc as [(Hi & _ & ->)|[Hq Hl]]; [left; by destruct inner|].
    right. cbn [length process_queue set_pc rx_emit set_queues] in *. lia.
Qed.

Lemma inv_between acc b i sd s sd' :
  net_inv acc (set_cpu i (between b sd) s) -> cpus s !! i = Some sd -> toks sd' ≡ₚ toks sd -> sched sd' = sched sd ->
  cpu_inv acc i sd' -> net_inv acc (set_cpu i sd' s).
Proof.
  intros H Hi Hp Hs Hc. rewrite <- (set_cpu_twice i sd' (between b sd)). by eapply (inv_set acc acc i (between b sd)); [..|by eapply cpu_set_eq|done|done|done|done].
Qed.

Lemma sched_on acc s i sd : net_inv acc s -> cpus s !! i = Some sd -> Backlog i ∈ poll_list sd -> sched sd = true.
Proof.
  intros H Hi Hin. assert (napi_on s (Backlog i) = true) as Hn.
  { apply (tk_on _ (ni_token _ _ H)). rewrite (tokens_cpu i sd) by done. apply elem_of_app. left. apply elem_of_app. by right. }
  cbn [napi_on] in Hn. by rewrite Hi in Hn.
Qed.

(** The backlog is taken off the list and its queue is what is left to process. *)
Definition completed (i : nat) (sd : softnet) : softnet :=
  set_sched false (set_poll (filter (fun x => x <> Backlog i) (poll_list sd)) sd).

Lemma completed_inv acc b i sd s sd' :
  net_inv acc (set_cpu i (between b sd) s) -> cpus s !! i = Some sd -> Backlog i ∈ poll_list sd ->
  toks sd' = toks (completed i sd) -> sched sd' = false -> cpu_inv acc i sd' -> net_inv acc (set_cpu i sd' s).
Proof.
  intros [Ht Hc] Hi Hin Hp Hs Hci. rewrite <- (set_cpu_twice i sd' (between b sd)). set (s0 := set_cpu i (between b sd) s) in *.
  assert (cpus s0 !! i = Some (between b sd)) as H0 by (by eapply cpu_set_eq). split.
  - apply (token_del (Backlog i) s0); [| | |done].
    + rewrite (tokens_set i (between b sd)), (tokens_cpu i (between b sd) s0) by done. rewrite Hp.
      rewrite app_comm_cons. apply Permutation_app_tail. unfold toks. etrans; [apply Permutation_app_head, (poll_split s0 i (between b sd) (Backlog i)); done|].
      cbn. solve_Permutation.
    + cbn [napi_on]. rewrite (cpu_set_eq i (between b sd)) by done. done.
    + intros [c|d] Hne; [|done]. cbn [napi_on]. by rewrite cpu_set_ne by congruence.
  - intros j sdj Hj. destruct (decide (j = i)) as [->|Hne].
    + rewrite (cpu_set_eq i (between b sd)) in Hj by done. by injection Hj as <-.
    + rewrite cpu_set_ne in Hj by done. by apply Hc.
Qed.

(** What the loop has done when it enables interrupts, with the packets [Q] to
    process: it has returned, or it has taken the first packet, and either kept
    the whole quota or taken the backlog off the list [pl]. *)
Definition off (i : nat) (pl : list napi) : list napi := filter (fun x => x <> Backlog i) pl.
Definition queued (sd : softnet) : list Z := process_queue sd ++ input_pkt_queue sd.
Definition taken (i : nat) (b w : Z) (pl : list napi) (Q del : list Z) (sd' : softnet) : Prop :=
  delivered sd' = del /\
  match Q with
  | [] => pc sd' = Post (Backlog i) b w weight_p /\ queued sd' = [] /\ poll_list sd' = off i pl
  | skb :: rest => queued sd' = rest /\
      ((pc sd' = BlRecv i b w weight_p skb /\ poll_list sd' = pl) \/
       (exists q, pc sd' = BlRecv i b w q skb /\ q = w + Z.of_nat (length Q) /\ q < weight_p /\ poll_list sd' = off i pl))
  end.

(** After the queue of the interrupts has been moved to the queue to process:
    with enough packets for the quota the first one is taken, *)
Lemma spliced_more acc fuel i b w sd s :
  net_inv acc (set_cpu i (between b sd) s) -> cpus s !! i = Some sd -> Backlog i ∈ poll_list sd -> sched sd = true -> 0 <= w < weight_p ->
  process_queue sd <> [] ->
  exists sd', backlog_loop weight_p skb_data (S fuel) false i i b w weight_p s = Some (set_cpu i sd' s) /\ net_inv acc (set_cpu i sd' s) /\
    taken i b w (poll_list sd) (queued sd) (delivered sd) sd'.
Proof.
  intros H Hi Hin Hs Hw Hne. rewrite (backlog_loop_head _ _ _ _ _ _ sd) by (done || lia). destruct (process_queue sd) as [|skb rest'] eqn:Ep; [done|].
  eexists. split; [reflexivity|]. split.
  - eapply (inv_between acc b i sd); try done. destruct (ni_cpu _ _ H i _ (cpu_set_eq i sd _ s Hi)). apply deq_inv; try done. by left.
  - unfold taken, queued. rewrite Ep. cbn. eauto.
Qed.

(** otherwise the backlog is taken off the list, and the quota is the number of
    packets that are left. *)
Lemma spliced_less acc fuel i b w sd s :
  net_inv acc (set_cpu i (between b sd) s) -> cpus s !! i = Some sd -> Backlog i ∈ poll_list sd -> 0 <= w ->
  input_pkt_queue sd = [] -> w + Z.of_nat (length (process_queue sd)) < weight_p ->
  exists sd', (s ← list_del (Backlog i) s; s ← on_cpu i (set_sched false) s;
     backlog_loop weight_p skb_data (S fuel) false i i b w (w + Z.of_nat (length (process_queue sd))) s) = Some (set_cpu i sd' s) /\
    net_inv acc (set_cpu i sd' s) /\ taken i b w (poll_list sd) (queued sd) (delivered sd) sd'.
Proof.
  intros H Hi Hin Hw Hq Hlt. rewrite (list_del_eq _ i sd); [|..]; try done.
  2:{ eapply token_perm; [| |apply H]; [by rewrite (tokens_set i sd), (tokens_cpu i sd) by done|].
      intros n. symmetry. by eapply napi_on_set. }
  cbn [mbind option_bind]. rewrite (on_set i _ sd) by done. cbn [mbind option_bind]. fold (completed i sd).
  pose proof (ni_cpu _ _ H i _ (cpu_set_eq i sd _ s Hi)) as [H1 H2 H3 H4 H5 H6 H7].
  assert (forall o, Backlog o ∈ poll_list (completed i sd) -> o = i) as Ho by (intros o [_ Ho]%list_elem_of_filter; by apply H1).
  destruct (process_queue sd) as [|skb rest'] eqn:Ep.
  - cbn [length backlog_loop]. rewrite Z.add_0_r, Z.ltb_irrefl. cbn [negb andb]. rewrite (on_set i _ sd) by done. eexists. split; [reflexivity|].
    split; [|unfold taken, queued; cbn; by rewrite Ep, Hq]. apply (completed_inv acc b i sd); try done. split; try done.
    + intros _. by right.
    + unfold pc_ok. cbn [length pc set_pc] in *. lia.
  - assert (cpus (set_cpu i (completed i sd) s) !! i = Some (completed i sd)) as Hc by (by eapply cpu_set_eq).
    rewrite (backlog_loop_head _ _ _ _ _ _ _ _ Hc) by (cbn [length]; lia).
    change (process_queue (completed i sd)) with (process_queue sd). rewrite Ep, set_cpu_twice. eexists. split; [reflexivity|].
    split; [|unfold taken, queued; rewrite Ep, Hq, app_nil_r; split_and!; [done|cbn; by rewrite Hq, app_nil_r|right; by eexists]]. apply (completed_inv acc b i sd); try done. apply deq_inv; try done; [cbn [length]; lia|].
    right. split; [done|]. cbn [completed set_sched set_poll process_queue]. rewrite Ep. lia.
Qed.

Lemma backlog_inv acc fuel inner i b w sd s :
  net_inv acc (set_cpu i (between b sd) s) -> cpus s !! i = Some sd -> Backlog i ∈ poll_list sd -> 0 <= w < weight_p ->
  exists sd', backlog_loop weight_p skb_data (S (S fuel)) inner i i b w weight_p s = Some (set_cpu i sd' s) /\ net_inv acc (set_cpu i sd' s) /\
    taken i b w (poll_list sd) (queued sd) (delivered sd) sd'.
Proof.
  intros H Hi Hin Hw. pose proof (ni_cpu _ _ H i _ (cpu_set_eq i sd _ s Hi)) as Hc.
  assert (sched sd = true) as Hs by (by apply (sched_on acc _ i (between b sd) H (cpu_set_eq i sd _ s Hi))).
  rewrite (backlog_loop_head _ _ _ _ _ _ sd) by (done || lia). destruct (process_queue sd) as [|skb rest'] eqn:Ep.
  2:{ eexists. split; [reflexivity|]. split; [|unfold taken, queued; rewrite Ep; by destruct inner; cbn; eauto].
      eapply (inv_between acc b i sd); try done; [by destruct inner..|]. destruct Hc. apply deq_inv; try done. by left. }
  cbv zeta. set (sd1 := spliced inner weight_p sd). set (qlen := Z.of_nat (length (input_pkt_queue sd))).
  assert (cpu_inv acc i (between b sd1)) as Hc1.
  { destruct Hc as [H1 H2 H3 H4 H5 H6 H7]. unfold sd1, spliced, loop_head. split; try (by destruct inner).
    - cbn. lia.
    - intros _. left. by destruct inner.
    - rewrite H7. cbn [delivered recv process_queue input_pkt_queue between set_pc pc rx_emit set_queues]. rewrite Ep, app_nil_r. by destruct inner. }
  assert (net_inv acc (set_cpu i (between b sd1) s)) as H1 by (eapply (inv_between acc b i sd); try done; by destruct inner).
  assert (Backlog i ∈ poll_list sd1) as Hin1 by (unfold sd1, spliced, loop_head; by destruct inner).
  assert (process_queue sd1 = input_pkt_queue sd) as Ep1 by done. assert (input_pkt_queue sd1 = []) as Eq1 by done. assert (sched sd1 = true) as Hs1 by (by destruct inner).
  assert (cpus (set_cpu i sd1 s) !! i = Some sd1) as Hi1 by (by eapply cpu_set_eq).
  assert (poll_list sd1 = poll_list sd) as Epl by (by destruct inner). assert (delivered sd1 = delivered sd) as Ed by (by destruct inner).
  assert (queued sd1 = queued sd) as Eqd by (unfold queued; rewrite Ep1, Eq1, Ep; by rewrite app_nil_r). clearbody sd1.
  destruct (Z.ltb_spec qlen (weight_p - w)) as [Hq|Hq].
  - unfold qlen in *. rewrite <- Ep1 in *.
    destruct (spliced_less acc fuel i b w sd1 (set_cpu i sd1 s)) as (sd' & -> & H' & Ht); rewrite ?set_cpu_twice in *; try done; try lia.
    exists sd'. by rewrite Epl, Eqd, Ed in Ht.
  - destruct (spliced_more acc fuel i b w sd1 (set_cpu i sd1 s)) as (sd' & -> & H' & Ht); rewrite ?set_cpu_twice in *; try done.
    { rewrite Ep1. intros E. unfold qlen in Hq. rewrite E in Hq. cbn in Hq. lia. }
    exists sd'. by rewrite Epl, Eqd, Ed in Ht.
Qed.

(** What it has done after the packet [skb]. *)
Definition next_taken (i : nat) (b w q skb : Z) (sd sd' : softnet) : Prop :=
  if q <=? w + 1 then
    delivered sd' = delivered sd ++ [skb] /\ pc sd' = Post (Backlog i) b (w + 1) weight_p /\ queued sd' = queued sd /\ poll_list sd' = poll_list sd
  else if q =? weight_p then taken i b (w + 1) (poll_list sd) (queued sd) (delivered sd ++ [skb]) sd'
  else exists skb', queued sd = skb' :: queued sd' /\ delivered sd' = delivered sd ++ [skb] /\ pc sd' = BlRecv i b (w + 1) q skb' /\
         poll_list sd' = poll_list sd.

Lemma received_inv acc i b w q skb sd s :
  net_inv acc s -> cpus s !! i = Some sd -> pc sd = BlRecv i b w q skb ->
  exists sd', backlog_received weight_p skb_data i i b w q skb s = Some (set_cpu i sd' s) /\ net_inv acc (set_cpu i sd' s) /\
    next_taken i b w q skb sd sd'.
Proof.
  intros H Hi Hpc. pose proof (ni_cpu _ _ H i sd Hi) as [H1 H2 H3 H4 H5 H6 H7]. unfold pc_ok in H6. rewrite Hpc in H6.
  destruct H6 as (_ & Hw & Hcase). unfold recv in H7. rewrite Hpc in H7. cbn [app] in H7.
  unfold backlog_received. rewrite (on_cpu_eq i _ sd) by done. cbn [mbind option_bind]. set (sd1 := set_counts _ _ _ _ _ _).
  assert (acc i = delivered sd1 ++ process_queue sd1 ++ input_pkt_queue sd1) as Hf by (rewrite H7; cbn; by rewrite <- app_assoc).
  assert (process_queue sd <> [] -> sched sd = true \/ q - w = Z.of_nat (length (process_queue sd)) + 1) as Hp.
  { intros Hne. destruct (H5 Hne) as [?|(b' & w' & q' & skb' & E & ?)]; [by left|]. rewrite Hpc in E. injection E as -> -> -> ->. by right. }
  assert (cpus (set_cpu i sd1 s) !! i = Some sd1) as Hi1 by (by eapply cpu_set_eq).
  destruct (Z.leb_spec q (w + 1)) as [Hq|Hq].
  - rewrite (on_set i _ sd) by done. cbn [mbind option_bind]. rewrite (on_set i _ sd) by done. eexists. split; [reflexivity|].
    split; [|unfold next_taken; by rewrite (proj2 (Z.leb_le q (w + 1)))]. eapply (inv_set acc); try done. split; try done.
    + intros _. by right.
    + intros Hne. destruct (Hp Hne) as [?|Hl]; [by left|]. destruct (process_queue sd) eqn:E; [done|]. cbn [length] in Hl. lia.
    + unfold pc_ok. cbn [pc set_pc]. intros ?. destruct Hcase as [[? ?]|?]; [done|lia].
  - destruct Hcase as [[Hin ->]|[Hlt Hl]].
    + destruct (backlog_inv acc 1 true i b (w + 1) sd1 (set_cpu i sd1 s)) as (sd' & -> & H' & Ht); try done; try lia; rewrite ?set_cpu_twice in *.
      2:{ exists sd'. split_and!; [done|done|]. unfold next_taken. by rewrite (proj2 (Z.leb_gt weight_p (w + 1))), Z.eqb_refl by lia. }
      eapply (inv_set acc); try done. split; try done; [intros _; by right|]. intros _. left. by apply (sched_on acc s i sd).
    + rewrite (backlog_loop_head _ _ _ _ _ _ _ _ Hi1) by lia. destruct (process_queue sd1) as [|skb' rest'] eqn:Ep.
      { change (process_queue sd1) with (process_queue sd) in Ep. rewrite Ep in Hl. cbn in Hl. lia. }
      rewrite set_cpu_twice. eexists. split; [reflexivity|]. split.
      2:{ unfold next_taken, queued. rewrite (proj2 (Z.leb_gt q (w + 1))), (proj2 (Z.eqb_neq q weight_p)) by lia. exists skb'.
          change (process_queue sd1) with (process_queue sd) in Ep. by rewrite Ep. }
      eapply (inv_set acc); try done. apply deq_inv; try done; [by rewrite Ep|lia|]. right. split; [done|]. change (process_queue sd1) with (process_queue sd). lia.
Qed.

(** *** [net_rx_action] *)

(** A section that only moves CPU [i] on. *)
Lemma inv_pc acc i p sd s :
  net_inv acc s -> cpus s !! i = Some sd -> p <> Idle -> recv sd = [] -> (match p with BlRecv _ _ _ _ _ => False | _ => True end) ->
  pc_ok i (set_pc p sd) -> net_inv acc (set_cpu i (set_pc p sd) s).
Proof.
  intros H Hi Hp Hr Hnr Hok. eapply (inv_set acc); try done. destruct (ni_cpu _ _ H i sd Hi) as [H1 H2 H3 H4 H5 H6 H7]. split; try done.
  - intros _. by right.
  - intros Hne. left. destruct (H5 Hne) as [?|(b & w & q & skb & E & _)]; [done|]. unfold recv in Hr. by rewrite E in Hr.
  - rewrite H7, Hr. unfold recv. cbn [pc set_pc]. by destruct p.
Qed.

(** What a section does: no fault, and the invariant is kept. *)
Definition steps_ok (acc : nat -> list Z) (s : net) (o : option net) : Prop :=
  exists s', o = Some s' /\ net_inv acc s' /\ length (cpus s') = length (cpus s).

Lemma steps_set acc i sd' s : net_inv acc (set_cpu i sd' s) -> steps_ok acc s (Some (set_cpu i sd' s)).
Proof. intros H. eexists. split_and!; [done|done|]. cbn. by rewrite length_insert. Qed.

Lemma step_pc acc i p sd s :
  net_inv acc s -> cpus s !! i = Some sd -> p <> Idle -> recv sd = [] -> (match p with BlRecv _ _ _ _ _ => False | _ => True end) ->
  pc_ok i (set_pc p sd) -> steps_ok acc s (on_cpu i (set_pc p) s).
Proof. intros. rewrite (on_cpu_eq i _ sd) by done. by apply steps_set, inv_pc. Qed.

Lemma finish_inv acc i sd s :
  net_inv acc s -> cpus s !! i = Some sd -> recv sd = [] -> poll_list sd = [] \/ rx_pending sd = true ->
  steps_ok acc s (s ← net_rps_action online i s; on_cpu i (set_pc Idle) s).
Proof.
  intros H Hi Hr Hor. destruct (rps_action_inv acc i sd s H Hi) as (s' & -> & H' & E). cbn [mbind option_bind].
  assert (cpus s' !! i = Some (set_ipi [] sd)) as Hi' by (rewrite E; apply list_lookup_insert_eq; by eapply lookup_lt_Some).
  rewrite (on_cpu_eq i _ _ _ Hi'). eexists. split_and!; [reflexivity| |cbn; by rewrite length_insert, E, length_insert].
  eapply (inv_set acc); try done. destruct (ni_cpu _ _ H' i _ Hi') as [H1 H2 H3 H4 H5 H6 H7]. split; try done.
  - intros [Hp|Hp]; [|done]. destruct Hor as [Hor|Hor]; [by destruct Hp|by left].
  - intros Hne. left. destruct (H5 Hne) as [?|(b & w & q & skb & Eq & _)]; [done|]. change (pc sd = BlRecv i b w q skb) in Eq. unfold recv in Hr. by rewrite Eq in Hr.
  - rewrite H7. change (recv (set_ipi [] sd)) with (recv sd). by rewrite Hr.
Qed.

Lemma rx_loop_inv acc i b timeup sd s :
  net_inv acc s -> cpus s !! i = Some sd -> pc sd = Loop b -> steps_ok acc s (rx_loop weight_p dev_weight online i b timeup s).
Proof.
  intros H Hi Hpc. assert (recv sd = []) as Hr by (unfold recv; by rewrite Hpc). unfold rx_loop. rewrite Hi. cbn [mbind option_bind].
  destruct (poll_list sd) as [|n l] eqn:Ep; [eapply finish_inv; eauto|].
  destruct ((b <=? 0) || timeup).
  - rewrite (on_cpu_eq i _ sd) by done. cbn [mbind option_bind]. rewrite (on_set i _ sd) by done. cbn [mbind option_bind]. set (sd1 := set_rx true _).
    assert (net_inv acc (set_cpu i sd1 s)) as H1.
    { eapply (inv_set acc); try done. destruct (ni_cpu _ _ H i sd Hi). split; try done. intros _. by left. }
    destruct (finish_inv acc i sd1 (set_cpu i sd1 s)) as (s' & E & ? & Hl); try done; [by eapply cpu_set_eq|by right|].
    cbn [mbind option_bind] in E. rewrite E. exists s'. split_and!; try done. rewrite Hl. cbn. by rewrite length_insert.
  - assert (n ∈ poll_list sd) as Hn by (rewrite Ep; by left). destruct n as [o|d].
    + pose proof (ci_own _ _ _ (ni_cpu _ _ H i sd Hi) o Hn) as ->. rewrite Hi. cbn [mbind option_bind].
      destruct (sched sd); (eapply step_pc; try done); unfold pc_ok; cbn; auto.
    + destruct (default false _); (eapply step_pc; try done); unfold pc_ok; cbn; auto.
Qed.

Lemma rx_post_inv acc i n b w wt sd s :
  net_inv acc s -> cpus s !! i = Some sd -> pc sd = Post n b w wt -> steps_ok acc s (rx_post i n b w wt s).
Proof.
  intros H Hi Hpc. unfold rx_post. cbv zeta. pose proof (ni_cpu _ _ H i sd Hi) as Hc. assert (recv sd = []) as Hr by (unfold recv; by rewrite Hpc).
  destruct (Z.eqb_spec w wt) as [->|_]; [|by eapply step_pc].
  assert (n ∈ poll_list sd) as Hn by (pose proof (ci_pc _ _ _ Hc) as Hp; unfold pc_ok in Hp; rewrite Hpc in Hp; by apply Hp).
  rewrite (list_del_eq s i sd) by (done || apply H). cbn [mbind option_bind]. rewrite (on_set i _ sd) by done. cbn [mbind option_bind].
  rewrite (on_set i _ sd) by done. apply steps_set. eapply (inv_set acc); try done.
  - unfold toks. cbn. apply Permutation_app_head. rewrite <- Permutation_cons_append. symmetry. eapply poll_split; try done. apply H.
  - destruct Hc as [H1 H2 H3 H4 H5 H6 H7]. split; try done.
    + cbn. intros o [[_ Ho]%list_elem_of_filter|Ho%list_elem_of_singleton]%elem_of_app; [by apply H1|]. apply H1. by rewrite Ho.
    + intros _. by right.
    + intros Hne. left. destruct (H5 Hne) as [?|(? & ? & ? & ? & E & _)]; [done|congruence].
    + rewrite H7, Hr. done.
Qed.

Lemma dev_poll_inv acc i d b w (complete : bool) sd s :
  net_inv acc s -> cpus s !! i = Some sd -> pc sd = DevPoll d b -> (complete = true -> w < dev_weight d) ->
  steps_ok acc s (dev_poll dev_weight i d b w complete s).
Proof.
  intros H Hi Hpc Hct. unfold dev_poll. pose proof (ni_cpu _ _ H i sd Hi) as Hc. assert (recv sd = []) as Hr by (unfold recv; by rewrite Hpc).
  assert (Device d ∈ poll_list sd) as Hn by (pose proof (ci_pc _ _ _ Hc) as Hp; unfold pc_ok in Hp; by rewrite Hpc in Hp).
  destruct complete; [|eapply step_pc; try done; unfold pc_ok; cbn; auto].
  rewrite (list_del_eq s i sd) by (done || apply H). cbn [mbind option_bind]. set (sd1 := set_poll _ sd). set (s1 := MkNet _ _ _).
  assert (cpus s1 !! i = Some sd1) as Hi1 by (by eapply cpu_set_eq). rewrite (on_cpu_eq i _ _ _ Hi1).
  eexists. split_and!; [reflexivity| |cbn; by rewrite !length_insert]. destruct H as [Ht Ha]. split.
  - apply (token_del (Device d) s); [| | |done].
    + rewrite (tokens_set i sd1 _ s1) by done. rewrite (tokens_cpu i sd s), app_comm_cons by done.
      unfold rest. cbn [cpus ipis s1 set_cpu]. rewrite list_fmap_insert. unfold others. rewrite take_insert_ge, drop_insert_lt by lia. apply Permutation_app_tail.
      unfold toks. cbn. etrans; [apply Permutation_app_head, (poll_split s i sd (Device d)); done|]. solve_Permutation.
    + cbn. by rewrite lookup_insert_eq.
    + intros [c|d'] Hne; [|cbn; by rewrite lookup_insert_ne by congruence]. rewrite (napi_on_set i sd1) by done.
      change (napi_on s1 (Backlog c)) with (napi_on (set_cpu i sd1 s) (Backlog c)). by apply (napi_on_set i sd).
  - intros j sdj Hj. destruct (decide (j = i)) as [->|Hne].
    + rewrite (cpu_set_eq i sd1) in Hj by done. injection Hj as <-. destruct Hc as [H1 H2 H3 H4 H5 H6 H7]. split; try done.
      * intros o [_ Ho]%list_elem_of_filter. by apply H1.
      * intros _. by right.
      * intros Hnp. left. destruct (H5 Hnp) as [?|(? & ? & ? & ? & E & _)]; [done|congruence].
      * unfold pc_ok. cbn. intros ->. specialize (Hct eq_refl). lia.
      * rewrite H7, Hr. done.
    + cbn in Hj. rewrite !list_lookup_insert_ne in Hj by done. by apply Ha.
Qed.

(** What the poll functions of the devices are documented to do: one that has
    called [napi_complete] returns less than its weight. *)
Definition poll_contract (poll : Z -> Z * bool) : Prop := forall d, (poll d).2 = true -> (poll d).1 < dev_weight d.

Lemma rx_step_inv acc i timeup poll s :
  net_inv acc s -> (i < length (cpus s))%nat -> poll_contract poll ->
  steps_ok acc s (rx_step weight_p dev_weight online skb_data i timeup poll s).
Proof.
  intros H Hl Hpoll. destruct (lookup_lt_is_Some_2 _ _ Hl) as [sd Hi]. unfold rx_step. rewrite Hi. cbn [mbind option_bind].
  pose proof (ci_pc _ _ _ (ni_cpu _ _ H i sd Hi)) as Hok. unfold pc_ok in Hok. destruct (pc sd) as [|b|own b|own b|own b w q skb|d b|n b w wt] eqn:Hpc.
  - by exists s.
  - by eapply rx_loop_inv.
  - destruct Hok as [-> Hin]. rewrite Hi. cbn [mbind option_bind]. destruct (bool_decide (rps_ipi_list sd = [])).
    + cbn [mbind option_bind]. eapply step_pc; try done. unfold recv. by rewrite Hpc.
    + destruct (rps_action_inv acc i sd s H Hi) as (s' & -> & H' & E). cbn [mbind option_bind].
      destruct (step_pc acc i (BlGo i b) (set_ipi [] sd) s') as (s'' & E' & ? & Hl'); try done.
      * rewrite E. by apply list_lookup_insert_eq.
      * unfold recv. cbn. by rewrite Hpc.
      * exists s''. split_and!; try done. by rewrite Hl', E, length_insert.
  - destruct Hok as [-> Hin]. destruct (backlog_inv acc 1 false i b 0 sd s) as (sd' & -> & H' & _); try done; [|by apply steps_set].
    apply inv_pc; try done. unfold recv. by rewrite Hpc.
  - destruct Hok as [-> _]. destruct (received_inv acc i b w q skb sd s) as (sd' & -> & H' & _); try done. by apply steps_set.
  - eapply dev_poll_inv; try done. apply Hpoll.
  - by eapply rx_post_inv.
Qed.

Lemma softirq_inv acc i sd s :
  net_inv acc s -> cpus s !! i = Some sd -> pc sd = Idle -> net_inv acc (set_cpu i (set_pc (Loop netdev_budget) (set_rx false sd)) s).
Proof.
  intros H Hi Hpc. eapply (inv_set acc); try done. destruct (ni_cpu _ _ H i sd Hi) as [H1 H2 H3 H4 H5 H6 H7]. split; try done.
  - intros _. by right.
  - intros Hne. left. destruct (H5 Hne) as [?|(? & ? & ? & ? & E & _)]; [done|congruence].
  - rewrite H7. unfold recv. by rewrite Hpc.
Qed.

(** The labels of a run on [n] CPUs: no device goes away. *)
Definition label_ok (n : nat) (l : rx_label) : Prop :=
  match l with
  | LEnqueue me _ cpu => (me < n)%nat /\ (cpu < n)%nat
  | LSchedule me _ => (me < n)%nat
  | LIpi cpu | LSoftirq cpu => (cpu < n)%nat
  | LRx cpu _ poll => (cpu < n)%nat /\ poll_contract poll
  | LFlush _ _ _ => False
  end.

Definition accept (l : rx_label) (r : option Z) (acc : nat -> list Z) : nat -> list Z :=
  match l with
  | LEnqueue _ skb cpu => if decide (r = Some NET_RX_SUCCESS) then add_acc cpu skb acc else acc
  | _ => acc
  end.

Lemma rx_do_inv acc l s :
  net_inv acc s -> label_ok (length (cpus s)) l ->
  exists s' r, rx_do netdev_max_backlog netdev_budget weight_p dev_weight online skb_data l s = Some (s', r) /\
    net_inv (accept l r acc) s' /\ length (cpus s') = length (cpus s).
Proof.
  intros H Hl. destruct l as [me skb cpu|me id|cpu|cpu|cpu timeup poll|]; cbn [label_ok rx_do] in *; [| | | | |done].
  - destruct Hl as [Hm Hc]. destruct (enqueue_inv acc me skb cpu s H Hm Hc) as (r & s' & -> & Hlen & Hor). cbn [mbind option_bind].
    eexists _, _. split; [reflexivity|]. split; [|done]. unfold accept. destruct Hor as [[-> ?]|[-> ?]]; [by rewrite decide_True|by rewrite decide_False].
  - destruct (schedule_dev_inv acc me id s H Hl) as (s' & -> & ? & ?). by eexists _, _.
  - destruct (take_ipi cpu (ipis s)) as [l|] eqn:El; [|by eexists _, _].
    destruct (ipi_inv acc cpu l s H Hl El) as (s' & -> & ? & ?). by eexists _, _.
  - destruct (lookup_lt_is_Some_2 _ _ Hl) as [sd Hi]. rewrite Hi. cbn [mbind option_bind]. destruct (pc sd) eqn:Hpc; try by eexists _, _.
    destruct (rx_pending sd); [|by eexists _, _]. eexists _, _. split; [reflexivity|]. split; [by apply softirq_inv|cbn; by rewrite length_insert].
  - destruct Hl as [Hc Hp]. destruct (rx_step_inv acc cpu timeup poll s H Hc Hp) as (s' & -> & ? & ?). by eexists _, _.
Qed.

(** The packets for the backlog of [c] that were accepted in a run, in order. *)
Fixpoint accepted (c : nat) (ls : list rx_label) (rs : list (option Z)) : list Z :=
  match ls, rs with
  | LEnqueue _ skb cpu :: ls, r :: rs => (if decide (cpu = c) then if decide (r = Some NET_RX_SUCCESS) then [skb] else [] else []) ++ accepted c ls rs
  | _ :: ls, _ :: rs => accepted c ls rs
  | _, _ => []
  end.

Lemma accepted_cons c l r ls rs acc :
  acc c ++ accepted c (l :: ls) (r :: rs) = accept l r acc c ++ accepted c ls rs.
Proof.
  destruct l; try done. cbn [accepted accept]. destruct (decide (r = _)); unfold add_acc; destruct (decide (cpu = c)) as [->|Hne]; try done.
  - rewrite decide_True by done. by rewrite <- app_assoc.
  - rewrite decide_False by congruence. done.
Qed.

Lemma rx_run_inv acc ls s :
  net_inv acc s -> Forall (label_ok (length (cpus s))) ls ->
  exists s' rs, rx_run netdev_max_backlog netdev_budget weight_p dev_weight online skb_data ls s = Some (s', rs) /\
    net_inv (fun c => acc c ++ accepted c ls rs) s' /\ length (cpus s') = length (cpus s).
Proof.
  revert acc s. induction ls as [|l ls IH]; intros acc s H Hls; cbn [rx_run].
  - eexists _, _. split; [reflexivity|]. split; [|done]. destruct H as [Ht Hc]. split; [done|]. intros i sd Hi. destruct (Hc i sd Hi). split; try done.
    cbn. by rewrite app_nil_r.
  - apply Forall_cons in Hls as [Hl Hls]. destruct (rx_do_inv acc l s H Hl) as (s1 & r & -> & H1 & E1). cbn [mbind option_bind].
    destruct (IH (accept l r acc) s1) as (s' & rs & -> & H' & E'); [done|by rewrite E1|]. cbn [mbind option_bind].
    eexists _, _. split; [reflexivity|]. split; [|congruence]. destruct H' as [Ht Hc]. split; [done|]. intros i sd Hi. destruct (Hc i sd Hi). split; try done.
    by rewrite accepted_cons.
Qed.

Lemma init_inv n : net_inv (fun _ => []) (net_init n).
Proof.
  assert (forall m, concat (toks <$> replicate m softnet_init) = []) as E by (intros m; induction m as [|m IH]; [done|exact IH]).
  split.
  - split; unfold tokens; cbn [cpus ipis net_init]; rewrite E; [constructor|]. intros m. split; [by intros ?%not_elem_of_nil|].
    destruct m as [c|d]; cbn [napi_on cpus net_init dev_sched]; [|done]. destruct (replicate n softnet_init !! c) eqn:El; [|done].
    apply lookup_replicate in El as [-> _]. done.
  - intros i sd Hi. apply lookup_replicate in Hi as [-> _]. split; try done; cbn; [by intros o ?%not_elem_of_nil|lia|by intros [?|?]].
Qed.

(** ** Properties *)

(** C14: from the state of [net_dev_init], whatever the order in which packets
    arrive on the CPUs, interrupts between the CPUs are delivered and the
    softirqs run, with any devices polled, no list operation faults, and each CPU
    passes exactly the packets that were accepted for it to the protocols, each
    once and in the order in which they were accepted: those not passed on yet
    are the one being processed and those in the two queues. The queue filled by
    the interrupts never holds more than one packet above the limit. *)
Theorem backlog_fifo n ls :
  Forall (label_ok n) ls ->
  exists s rs, rx_run netdev_max_backlog netdev_budget weight_p dev_weight online skb_data ls (net_init n) = Some (s, rs) /\
    forall c sd, cpus s !! c = Some sd ->
      accepted c ls rs = delivered sd ++ recv sd ++ process_queue sd ++ input_pkt_queue sd /\
      Z.of_nat (length (input_pkt_queue sd)) <= netdev_max_backlog + 1.
Proof.
  intros Hls. destruct (rx_run_inv (fun _ => []) ls (net_init n)) as (s & rs & E & [_ Hc] & _); [apply init_inv|cbn; by rewrite length_replicate|].
  exists s, rs. split; [done|]. intros c sd Hsd. destruct (Hc c sd Hsd). done.
Qed.

(** The softirq will look at the lists of a CPU: it is pending or running there. *)
Definition will_run (sd : softnet) : Prop := rx_pending sd = true \/ pc sd <> Idle.

(** Who will look at the backlog of [c]: the softirq on [c], because the backlog
    is on its list; another CPU, which will send an interrupt; the interrupt on
    its way; or the softirq on [c] in the middle of the last packets. *)
Definition attended (s : net) (c : nat) (sd : softnet) : Prop :=
  (Backlog c ∈ poll_list sd /\ will_run sd) \/
  (exists j sdj, cpus s !! j = Some sdj /\ c ∈ rps_ipi_list sdj /\ will_run sdj) \/
  c ∈ ipis s \/
  (exists b w q skb, pc sd = BlRecv c b w q skb /\ input_pkt_queue sd = [] /\ q - w = Z.of_nat (length (process_queue sd)) + 1).

Lemma sched_attended acc s c sd : net_inv acc s -> cpus s !! c = Some sd -> sched sd = true -> attended s c sd.
Proof.
  intros [[_ Ho] Hc] Hsd Hs. assert (Backlog c ∈ tokens s) as Ht by (apply Ho; cbn; by rewrite Hsd).
  apply elem_of_app in Ht as [Ht|Ht]; [|right; right; left; by apply list_elem_of_fmap in Ht as (x & [= ->] & ?)].
  apply list_elem_of_In, in_concat in Ht as (l & Hl%list_elem_of_In & Hin%list_elem_of_In).
  apply list_elem_of_fmap in Hl as (sdj & -> & Hj). apply list_elem_of_lookup in Hj as [j Hj]. destruct (Hc j sdj Hj) as [H1 _ H3 _ _ _ _].
  apply elem_of_app in Hin as [Hin|Hin].
  - apply list_elem_of_fmap in Hin as (x & [= ->] & Hx). right. left. exists j, sdj. split_and!; try done. apply H3. right. intros E. rewrite E in Hx. by apply not_elem_of_nil in Hx.
  - pose proof (H1 c Hin) as ->. rewrite Hsd in Hj. injection Hj as ->. left. split; [done|]. apply H3. left. intros E. rewrite E in Hin. by apply not_elem_of_nil in Hin.
Qed.

(** C15: no wake-up of the backlog is lost: in every state of every such run, a
    CPU with packets in its queues is attended to, so that the packets cannot be
    left with nobody to process them. *)
Theorem backlog_no_lost_wakeup n ls :
  Forall (label_ok n) ls ->
  exists s rs, rx_run netdev_max_backlog netdev_budget weight_p dev_weight online skb_data ls (net_init n) = Some (s, rs) /\
    forall c sd, cpus s !! c = Some sd -> process_queue sd ++ input_pkt_queue sd <> [] -> attended s c sd.
Proof.
  intros Hls. destruct (rx_run_inv (fun _ => []) ls (net_init n)) as (s & rs & E & H & _); [apply init_inv|cbn; by rewrite length_replicate|].
  exists s, rs. split; [done|]. intros c sd Hsd Hne. destruct (sched sd) eqn:Hs; [by eapply sched_attended|].
  destruct (ni_cpu _ _ H c sd Hsd) as [_ _ _ H4 H5 _ _]. assert (input_pkt_queue sd = []) as Ei by (destruct (input_pkt_queue sd); [done|by rewrite H4 in Hs]).
  rewrite Ei, app_nil_r in Hne. destruct (H5 Hne) as [?|(b & w & q & skb & ? & ?)]; [congruence|]. do 3 right. by exists b, w, q, skb.
Qed.

(** ** The budget

    The softirq on CPU [c] without interference, with the backlog alone on its
    list. *)

Section drain.
Context (c : nat) (acc : nat -> list Z).

Definition no_poll : Z -> Z * bool := fun _ => (0, false).
Abbreviation step := (rx_step weight_p dev_weight online skb_data c false no_poll).
Abbreviation runs := (rx_run netdev_max_backlog netdev_budget weight_p dev_weight online skb_data).

(** The steps of the softirq lead to a state of the CPU. *)
Definition leads (s : net) (P : softnet -> Prop) : Prop :=
  exists k s' rs sd', runs (replicate k (LRx c false no_poll)) s = Some (s', rs) /\ net_inv acc s' /\ cpus s' !! c = Some sd' /\ P sd'.

Lemma leads_now s sd (P : softnet -> Prop) : net_inv acc s -> cpus s !! c = Some sd -> P sd -> leads s P.
Proof. intros H Hc HP. by exists 0%nat, s, [], sd. Qed.

Lemma leads_step s sd s1 P :
  net_inv acc s -> cpus s !! c = Some sd -> step s = Some s1 -> (net_inv acc s1 -> leads s1 P) -> leads s P.
Proof.
  intros H Hc E Hn. destruct (rx_step_inv acc c false no_poll s H) as (s1' & E' & H' & _); [by eapply lookup_lt_Some|done|].
  rewrite E in E'. injection E' as <-. destruct (Hn H') as (k & s' & rs & sd' & Er & HP). exists (S k), s', (None :: rs), sd'. split; [|done].
  cbn [replicate rx_run rx_do]. rewrite E. cbn [mbind option_bind]. by rewrite Er.
Qed.

Lemma leads_trans s P Q :
  leads s P -> (forall s' sd', net_inv acc s' -> cpus s' !! c = Some sd' -> P sd' -> leads s' Q) -> leads s Q.
Proof.
  intros (k & s1 & rs1 & sd1 & E1 & H1 & Hc1 & HP) Hn. destruct (Hn s1 sd1 H1 Hc1 HP) as (k2 & s2 & rs2 & sd2 & E2 & HQ).
  exists (k + k2)%nat, s2, (rs1 ++ rs2), sd2. split; [|done]. clear -E1 E2. revert s rs1 E1. induction k as [|k IH]; intros s rs1.
  - cbn. by intros [= -> <-].
  - cbn [replicate Nat.add rx_run]. destruct (rx_do _ _ _ _ _ _ _ s) as [[s' r]|]; [|done]. cbn [mbind option_bind].
    destruct (runs (replicate k (LRx c false no_poll)) s') as [[s'' rs]|] eqn:E; [|done]. cbn [mbind option_bind]. intros [= <- <-]. by rewrite (IH s' rs).
Qed.

(** The last packets, once the backlog is off the list. *)
Lemma drain_off b q Q s sd w skb :
  net_inv acc s -> cpus s !! c = Some sd -> pc sd = BlRecv c b w q skb -> queued sd = Q -> q < weight_p -> w + 1 + Z.of_nat (length Q) = q ->
  leads s (fun sd' => pc sd' = Post (Backlog c) b q weight_p /\ queued sd' = [] /\ delivered sd' = delivered sd ++ skb :: Q /\
    poll_list sd' = poll_list sd).
Proof.
  revert s sd w skb. induction Q as [|skb' Q IH]; intros s sd w skb H Hc Hpc HQ Hq Hl;
    destruct (received_inv acc c b w q skb sd s H Hc Hpc) as (sd' & E & H' & Ht); unfold next_taken in Ht;
    (eapply leads_step; [done|done|unfold rx_step; rewrite Hc; cbn [mbind option_bind]; rewrite Hpc; exact E|intros _]);
    cbn [length] in Hl; assert (cpus (set_cpu c sd' s) !! c = Some sd') as Hc' by (by eapply cpu_set_eq).
  - rewrite (proj2 (Z.leb_le q (w + 1))) in Ht by lia. destruct Ht as (E1 & E2 & E3 & E4). eapply leads_now; [done|done|].
    split_and!; [|congruence|done|done]. rewrite E2. do 2 f_equal. lia.
  - rewrite (proj2 (Z.leb_gt q (w + 1))), (proj2 (Z.eqb_neq q weight_p)) in Ht by lia. destruct Ht as (skb1 & E1 & E2 & E3 & E4).
    rewrite HQ in E1. injection E1 as <- E1. eapply leads_trans; [eapply (IH _ sd' (w + 1) skb'); (done || lia)|].
    intros s2 sd2 H2 Hc2 (F1 & F2 & F3 & F4). eapply leads_now; [done|done|]. split_and!; try congruence. rewrite F3, E2, <- app_assoc. done.
Qed.

(** The packets of a round, while the backlog is on the list. *)
Definition round_end (b w : Z) (Q del : list Z) (sd' : softnet) : Prop :=
  let e := Z.min weight_p (w + Z.of_nat (length Q)) in
  pc sd' = Post (Backlog c) b e weight_p /\ delivered sd' = del ++ take (Z.to_nat (e - w)) Q /\
  queued sd' = drop (Z.to_nat (e - w)) Q /\ poll_list sd' = if w + Z.of_nat (length Q) <? weight_p then [] else [Backlog c].

Lemma off_single : off c [Backlog c] = [].
Proof. unfold off. rewrite filter_cons_False by (intros Hn; by apply Hn). done. Qed.

Lemma taken_leads b w Q del s sd' :
  (forall s sd skb Q', (length Q' < length Q)%nat -> net_inv acc s -> cpus s !! c = Some sd -> pc sd = BlRecv c b w weight_p skb -> queued sd = Q' ->
     poll_list sd = [Backlog c] -> leads s (round_end b w (skb :: Q') (delivered sd))) ->
  0 <= w < weight_p -> net_inv acc s -> cpus s !! c = Some sd' -> taken c b w [Backlog c] Q del sd' -> leads s (round_end b w Q del).
Proof.
  intros IH Hw H Hc [Hd Ht]. destruct Q as [|skb Q].
  - destruct Ht as (E1 & E2 & E3). eapply leads_now; [done|done|]. unfold round_end. cbn [length]. rewrite Z.min_r, (proj2 (Z.ltb_lt _ _)) by lia.
    rewrite E1, E3, E2, Hd, off_single. rewrite take_nil, drop_nil, app_nil_r. split_and!; try done. do 2 f_equal. lia.
  - destruct Ht as (E2 & [[E1 E3]|(q & E1 & -> & Hq & E3)]).
    + rewrite <- Hd. eapply (IH s sd' skb Q); try done. cbn. lia.
    + eapply leads_trans; [eapply (drain_off b _ Q s sd' w skb); try done; cbn [length]; lia|]. intros s2 sd2 H2 Hc2 (F1 & F2 & F3 & F4). eapply leads_now; [done|done|].
      unfold round_end. rewrite Z.min_r, (proj2 (Z.ltb_lt _ _)) by lia. replace (Z.to_nat _) with (length (skb :: Q)) by lia.
      rewrite firstn_all, drop_all, F1, F2, F3, F4, E3, Hd, off_single. done.
Qed.

Lemma round_cons b w skb Q del sd' : 0 <= w < weight_p -> round_end b (w + 1) Q (del ++ [skb]) sd' -> round_end b w (skb :: Q) del sd'.
Proof.
  intros Hw. unfold round_end. cbn [length]. replace (w + Z.of_nat (S (length Q))) with (w + 1 + Z.of_nat (length Q)) by lia.
  set (e := Z.min _ _). assert (w + 1 <= e) by lia. replace (Z.to_nat (e - w)) with (S (Z.to_nat (e - (w + 1)))) by lia.
  cbn [take drop]. by rewrite <- app_assoc.
Qed.

Lemma drain_on b n Q : (length Q < n)%nat -> forall s sd w skb,
  net_inv acc s -> cpus s !! c = Some sd -> pc sd = BlRecv c b w weight_p skb -> queued sd = Q -> poll_list sd = [Backlog c] ->
  leads s (round_end b w (skb :: Q) (delivered sd)).
Proof.
  revert Q. induction n as [|n IH]; intros Q Hn s sd w skb H Hc Hpc HQ Hpl; [lia|].
  assert (0 <= w < weight_p) as Hw by (pose proof (ci_pc _ _ _ (ni_cpu _ _ H c sd Hc)) as Hp; unfold pc_ok in Hp; rewrite Hpc in Hp; tauto).
  destruct (received_inv acc c b w weight_p skb sd s H Hc Hpc) as (sd' & E & H' & Ht). unfold next_taken in Ht.
  eapply leads_step; [done|done|unfold rx_step; rewrite Hc; cbn [mbind option_bind]; rewrite Hpc; exact E|intros _].
  assert (cpus (set_cpu c sd' s) !! c = Some sd') as Hc' by (by eapply cpu_set_eq).
  destruct (Z.leb_spec weight_p (w + 1)) as [Hle|Hgt].
  - destruct Ht as (E1 & E2 & E3 & E4). eapply leads_now; [done|done|]. apply round_cons; [done|]. unfold round_end.
    rewrite Z.min_l, (proj2 (Z.ltb_ge _ _)) by lia. replace (Z.to_nat _) with 0%nat by lia.
    rewrite E1, E2, E3, E4. cbn [take drop]. rewrite app_nil_r. split_and!; try done. do 2 f_equal. lia.
  - rewrite Z.eqb_refl, Hpl, HQ in Ht. eapply leads_trans.
    + eapply (taken_leads b (w + 1) Q); [|lia|done|done|done]. intros s1 sd1 skb1 Q' HQ'. by apply IH; lia.
    + intros s2 sd2 H2 Hc2 HP. eapply leads_now; [done|done|]. by apply round_cons.
Qed.

(** The sections around the loop of [process_backlog]. *)
Lemma start_leads b s sd :
  net_inv acc s -> cpus s !! c = Some sd -> pc sd = BlStart c b ->
  leads s (fun sd' => pc sd' = BlGo c b /\ poll_list sd' = poll_list sd /\ queued sd' = queued sd /\ delivered sd' = delivered sd).
Proof.
  intros H Hc Hpc. destruct (bool_decide (rps_ipi_list sd = [])) eqn:Ei.
  - eapply leads_step; [done|done| |intros H1].
    + unfold rx_step. rewrite Hc. cbn [mbind option_bind]. rewrite Hpc, Hc. cbn [mbind option_bind]. rewrite Ei. by apply on_cpu_eq.
    + by eapply leads_now; [done|by eapply cpu_set_eq|].
  - destruct (rps_action_inv acc c sd s H Hc) as (s' & E & _ & Es).
    assert (cpus s' !! c = Some (set_ipi [] sd)) as Hc' by (rewrite Es; apply list_lookup_insert_eq; by eapply lookup_lt_Some).
    eapply leads_step; [done|done| |intros H1].
    + unfold rx_step. rewrite Hc. cbn [mbind option_bind]. rewrite Hpc, Hc. cbn [mbind option_bind]. rewrite Ei, E. by apply on_cpu_eq.
    + by eapply leads_now; [done|by eapply cpu_set_eq|].
Qed.

Lemma go_leads b s sd :
  net_inv acc s -> cpus s !! c = Some sd -> pc sd = BlGo c b -> poll_list sd = [Backlog c] -> leads s (round_end b 0 (queued sd) (delivered sd)).
Proof.
  intros H Hc Hpc Hpl. destruct (backlog_inv acc 1 false c b 0 sd s) as (sd' & E & H' & Ht); try done.
  - apply inv_pc; try done. unfold recv. by rewrite Hpc.
  - rewrite Hpl. by left.
  - eapply leads_step; [done|done|unfold rx_step; rewrite Hc; cbn [mbind option_bind]; rewrite Hpc; exact E|intros _].
    rewrite Hpl in Ht. eapply (taken_leads b 0); [|done|done|by eapply cpu_set_eq|done]. intros s1 sd1 skb1 Q' _.
    apply (drain_on b (S (length Q'))). lia.
Qed.

Lemma post_leads b Q del s sd :
  net_inv acc s -> cpus s !! c = Some sd -> round_end b 0 Q del sd ->
  leads s (fun sd' => pc sd' = Loop (b - Z.min weight_p (Z.of_nat (length Q))) /\
    poll_list sd' = poll_list sd /\ queued sd' = queued sd /\ delivered sd' = delivered sd).
Proof.
  intros H Hc (Hpc & _ & _ & Hpl). set (e := Z.min weight_p (0 + Z.of_nat (length Q))) in *. change (Z.min weight_p (Z.of_nat (length Q))) with e.
  destruct (Z.eqb_spec e weight_p) as [Ee|Ee].
  - rewrite (proj2 (Z.ltb_ge _ _)) in Hpl by lia.
    eapply leads_step; [done|done| |intros H1].
    + unfold rx_step. rewrite Hc. cbn [mbind option_bind]. rewrite Hpc. unfold rx_post. rewrite (proj2 (Z.eqb_eq _ _) Ee).
      rewrite (list_del_eq s c sd); [|apply H|done|rewrite Hpl; by left]. cbn [mbind option_bind]. rewrite (on_set c _ sd) by done. cbn [mbind option_bind].
      by rewrite (on_set c _ sd).
    + eapply leads_now; [done|by eapply cpu_set_eq|]. cbn. rewrite Hpl. fold (off c [Backlog c]). by rewrite off_single.
  - eapply leads_step; [done|done| |intros H1].
    + unfold rx_step. rewrite Hc. cbn [mbind option_bind]. rewrite Hpc. unfold rx_post. rewrite (proj2 (Z.eqb_neq _ _) Ee). by apply on_cpu_eq.
    + by eapply leads_now; [done|by eapply cpu_set_eq|].
Qed.

(** A round of the loop of [net_rx_action]. *)
Lemma round_leads b s sd :
  net_inv acc s -> cpus s !! c = Some sd -> pc sd = Loop b -> poll_list sd = [Backlog c] -> 0 < b ->
  leads s (fun sd' => let e := Z.min weight_p (Z.of_nat (length (queued sd))) in
    pc sd' = Loop (b - e) /\ delivered sd' = delivered sd ++ take (Z.to_nat e) (queued sd) /\ queued sd' = drop (Z.to_nat e) (queued sd) /\
    poll_list sd' = if Z.of_nat (length (queued sd)) <? weight_p then [] else [Backlog c]).
Proof.
  intros H Hc Hpc Hpl Hb. assert (sched sd = true) as Hs by (eapply sched_on; try done; rewrite Hpl; by left).
  eapply leads_step; [done|done| |intros H1].
  { unfold rx_step. rewrite Hc. cbn [mbind option_bind]. rewrite Hpc. unfold rx_loop. rewrite Hc. cbn [mbind option_bind].
    rewrite Hpl, (proj2 (Z.leb_gt b 0)) by done. cbn [orb]. rewrite Hc. cbn [mbind option_bind]. rewrite Hs. by apply on_cpu_eq. }
  eapply leads_trans; [by eapply start_leads; [done|by eapply cpu_set_eq|]|]. intros s2 sd2 H2 Hc2 (E1 & E2 & E3 & E4).
  eapply leads_trans; [eapply go_leads; [done|done|done|by rewrite E2]|]. intros s3 sd3 H3 Hc3 He.
  change (queued (set_pc (BlStart c b) sd)) with (queued sd) in E3. rewrite E3, E4 in He. cbn [delivered set_pc] in He.
  eapply leads_trans; [by eapply post_leads|]. intros s4 sd4 H4 Hc4 (F1 & F2 & F3 & F4). eapply leads_now; [done|done|].
  destruct He as (_ & G2 & G3 & G4). rewrite Z.sub_0_r, Z.add_0_l in *. cbv zeta. split_and!; congruence.
Qed.

(** The packets that a budget allows: whole rounds of the weight. *)
Definition budget_packets (b : Z) : Z := weight_p * ((b + weight_p - 1) / weight_p).

Lemma budget_round b : budget_packets b = weight_p + budget_packets (b - weight_p).
Proof.
  unfold budget_packets. replace (b + weight_p - 1) with (b - weight_p + weight_p - 1 + 1 * weight_p) by lia. rewrite Z.div_add by lia. lia.
Qed.
Lemma budget_le b : b <= 0 -> budget_packets b <= 0.
Proof.
  intros Hb. unfold budget_packets. assert ((b + weight_p - 1) / weight_p < 1) by (apply Z.div_lt_upper_bound; lia). nia.
Qed.
Lemma budget_gt b : 0 < b -> weight_p <= budget_packets b.
Proof.
  intros Hb. unfold budget_packets. assert (1 <= (b + weight_p - 1) / weight_p) by (apply Z.div_le_lower_bound; lia). nia.
Qed.

(** The state after the softirq. *)
Definition softirq_end (b : Z) (Q del : list Z) (sd' : softnet) : Prop :=
  let e := Z.to_nat (Z.min (budget_packets b) (Z.of_nat (length Q))) in
  pc sd' = Idle /\ delivered sd' = del ++ take e Q /\ queued sd' = drop e Q /\
  if Z.of_nat (length Q) <? budget_packets b then poll_list sd' = [] else poll_list sd' = [Backlog c] /\ rx_pending sd' = true.

Lemma finish_eval s sd :
  cpus s !! c = Some sd ->
  exists s', (s ← net_rps_action online c s; on_cpu c (set_pc Idle) s) = Some s' /\ cpus s' !! c = Some (set_pc Idle (set_ipi [] sd)).
Proof.
  intros Hc. unfold net_rps_action. rewrite Hc. cbn [mbind option_bind]. set (s1 := MkNet _ _ _).
  assert (cpus s1 !! c = Some (set_ipi [] sd)) as Hc1 by (by eapply (cpu_set_eq c sd)).
  rewrite (on_cpu_eq c _ _ _ Hc1). eexists. split; [reflexivity|]. by eapply cpu_set_eq.
Qed.

Lemma finish_leads b s sd :
  net_inv acc s -> cpus s !! c = Some sd -> pc sd = Loop b -> poll_list sd = [] \/ b <= 0 ->
  leads s (fun sd' => pc sd' = Idle /\ delivered sd' = delivered sd /\ queued sd' = queued sd /\ poll_list sd' = poll_list sd /\
    (poll_list sd = [] \/ rx_pending sd' = true)).
Proof.
  intros H Hc Hpc Hor. assert (exists s' sd', step s = Some s' /\ cpus s' !! c = Some (set_pc Idle (set_ipi [] sd')) /\
    delivered sd' = delivered sd /\ queued sd' = queued sd /\ poll_list sd' = poll_list sd /\ (poll_list sd = [] \/ rx_pending sd' = true))
    as (s' & sd' & E & Hc' & E1 & E2 & E3 & E4).
  { unfold rx_step. rewrite Hc. cbn [mbind option_bind]. rewrite Hpc. unfold rx_loop. rewrite Hc. cbn [mbind option_bind].
    destruct (poll_list sd) as [|n l] eqn:Ep.
    - destruct (finish_eval s sd Hc) as (s' & E & Hc'). exists s', sd. by split_and!; [..|left].
    - destruct Hor as [?|Hb]; [done|]. rewrite (proj2 (Z.leb_le b 0)) by done. cbn [orb]. rewrite (on_cpu_eq c _ sd) by done. cbn [mbind option_bind].
      rewrite (on_set c _ sd) by done. cbn [mbind option_bind]. set (sd1 := set_rx true _).
      destruct (finish_eval (set_cpu c sd1 s) sd1) as (s' & E & Hc'); [by eapply cpu_set_eq|]. exists s', sd1. cbn [mbind option_bind] in E.
      split_and!; try done. by right. }
  eapply leads_step; [done|done|exact E|intros H1]. eapply leads_now; [done|exact Hc'|]. cbn. unfold queued in *. cbn. by split_and!.
Qed.

Lemma drain_leads n : forall b s sd, (length (queued sd) < n)%nat ->
  net_inv acc s -> cpus s !! c = Some sd -> pc sd = Loop b -> poll_list sd = [Backlog c] -> leads s (softirq_end b (queued sd) (delivered sd)).
Proof.
  induction n as [|n IH]; intros b s sd Hn H Hc Hpc Hpl; [lia|]. destruct (Z.le_gt_cases b 0) as [Hb|Hb].
  - eapply leads_trans; [eapply finish_leads; eauto|]. intros s1 sd1 H1 Hc1 (E1 & E2 & E3 & E4 & E5). eapply leads_now; [done|done|]. pose proof (budget_le b Hb).
    unfold softirq_end. rewrite Z.min_l, (proj2 (Z.ltb_ge _ _)) by lia. replace (Z.to_nat _) with 0%nat by lia. rewrite take_0, drop_0, app_nil_r.
    split_and!; try congruence; destruct E5; congruence.
  - eapply leads_trans; [by eapply round_leads|]. cbv zeta. intros s1 sd1 H1 Hc1 (E1 & E2 & E3 & E4). pose proof (budget_gt b Hb).
    destruct (Z.ltb_spec (Z.of_nat (length (queued sd))) weight_p) as [Hlt|Hge].
    + rewrite Z.min_r, Nat2Z.id in * by lia. eapply leads_trans; [eapply finish_leads; eauto|]. intros s2 sd2 H2 Hc2 (F1 & F2 & F3 & F4 & _).
      eapply leads_now; [done|done|]. unfold softirq_end. rewrite Z.min_r, (proj2 (Z.ltb_lt _ _)), Nat2Z.id by lia. split_and!; congruence.
    + rewrite Z.min_l in * by lia. assert (length (queued sd1) = length (queued sd) - Z.to_nat weight_p)%nat as El by (by rewrite E3, length_drop).
      eapply leads_trans; [eapply (IH (b - weight_p) s1 sd1); try done; lia|]. intros s2 sd2 H2 Hc2 (F1 & F2 & F3 & F4). eapply leads_now; [done|done|].
      pose proof (budget_round b) as Er. unfold softirq_end. rewrite El in *. set (bp := budget_packets (b - weight_p)) in *. rewrite Er.
      replace (Z.to_nat (Z.min (weight_p + bp) _)) with (Z.to_nat weight_p + Z.to_nat (Z.min bp (Z.of_nat (length (queued sd) - Z.to_nat weight_p))))%nat by lia.
      rewrite <- take_take_drop, <- drop_drop, <- E3, F2, F3, E2, <- app_assoc. split_and!; try done. revert F4.
      destruct (Z.ltb_spec (Z.of_nat (length (queued sd) - Z.to_nat weight_p)) bp), (Z.ltb_spec (Z.of_nat (length (queued sd))) (weight_p + bp)); (done || lia).
Qed.
End drain.

(** C28: in every state of such a run where the softirq is pending on an idle CPU
    with the backlog alone on its list, its run without interference ends, having
    passed on the packets that were queued, in order: all of them if they are
    fewer than the budget rounded up to a multiple of the weight, and otherwise
    that many, and then the softirq is pending again for the others. *)
Theorem softirq_drains_backlog n ls s rs c sd :
  Forall (label_ok n) ls ->
  rx_run netdev_max_backlog netdev_budget weight_p dev_weight online skb_data ls (net_init n) = Some (s, rs) ->
  cpus s !! c = Some sd -> pc sd = Idle -> rx_pending sd = true -> poll_list sd = [Backlog c] ->
  exists k s' rs' sd',
    rx_run netdev_max_backlog netdev_budget weight_p dev_weight online skb_data (LSoftirq c :: replicate k (LRx c false no_poll)) s = Some (s', rs') /\
    cpus s' !! c = Some sd' /\ softirq_end c netdev_budget (queued sd) (delivered sd) sd'.
Proof.
  intros Hls Er Hc Hpc Hrx Hpl.
  destruct (rx_run_inv (fun _ => []) ls (net_init n)) as (s0 & rs0 & E & H & _); [apply init_inv|cbn; by rewrite length_replicate|].
  rewrite Er in E. injection E as <- <-. cbn [rx_run rx_do]. rewrite Hc. cbn [mbind option_bind]. rewrite Hpc, Hrx. set (sd1 := set_pc _ _).
  destruct (drain_leads c (fun c => accepted c ls rs) (S (length (queued sd1))) netdev_budget (set_cpu c sd1 s) sd1) as (k & s' & rs' & sd' & E & _ & Hc' & He); try done.
  - lia.
  - by apply softirq_inv.
  - by eapply cpu_set_eq.
  - exists k, s', (None :: rs'), sd'. cbn [mbind option_bind]. by rewrite E.
Qed.
End invariant.

(** ** Examples

    Two CPUs and the values of the system variables at boot. *)

Abbreviation boot_run := (rx_run 1000 300 64 (fun _ => 64) (fun _ => true) (fun skb => skb)).
Abbreviation rx c := (LRx c false no_poll).

(** CPU 0 takes three packets from its device, two of them for CPU 1, which is
    interrupted when CPU 0 has run its softirq. *)
Definition steered : list rx_label :=
  [LEnqueue 0 10 1; LEnqueue 0 11 0; LEnqueue 0 12 1; LSoftirq 0; rx 0; rx 0; LIpi 1; LSoftirq 1] ++ replicate 7 (rx 1).

Definition seen (o : option (net * list (option Z))) : option (list (list Z * list Z)) :=
  '(s, _) ← o; Some ((fun sd => (delivered sd, queued sd)) <$> cpus s).

Example steered_delivered : seen (boot_run steered (net_init 2)) = Some [([], [11]); ([10; 12], [])].
Proof. vm_compute. reflexivity. Qed.

(** A device goes away while the protocols have the first of its packets and the
    poll of the backlog has already completed: its packets are dropped from the
    queue that the poll still counts on, and the poll completes a second time,
    with [list_del] of an entry that is on no list. *)
Example flush_during_poll :
  is_Some (boot_run [LEnqueue 0 10 0; LEnqueue 0 11 0; LSoftirq 0; rx 0; rx 0; rx 0; LFlush 0 (fun _ => 1) 1] (net_init 2)) /\
  boot_run [LEnqueue 0 10 0; LEnqueue 0 11 0; LSoftirq 0; rx 0; rx 0; rx 0; LFlush 0 (fun _ => 1) 1; rx 0] (net_init 2) = None.
Proof. split; [vm_compute; by eexists|vm_compute; reflexivity]. Qed.

(** With a limit of no packets the second packet is dropped, after the event that
    it is queued. *)
Example dropped_packet_traced :
  match rx_run 0 300 64 (fun _ => 64) (fun _ => true) (fun skb => skb) [LEnqueue 0 10 0; LEnqueue 0 11 0] (net_init 1) with
  | Some (s, rs) => rs = [Some NET_RX_SUCCESS; Some NET_RX_DROP] /\
      exists es, (rx_events <$> cpus s) = [es ++ [tp_pktqueue 11 backlog_id 0 QUEUE_ENQUEUE; tp_queuecondition QUEUE_NOTEMPTY backlog_id backlog_id]]
  | None => False
  end.
Proof. vm_compute. split; [done|]. by exists [tp_pktqueue 10 backlog_id 0 QUEUE_ENQUEUE; tp_queuecondition QUEUE_EMPTY backlog_id backlog_id; rx_raised]. Qed.

(** A packet arrives while the poll has emptied the queue and goes on (the
    weight is 1): the event says that the queue is empty, and the softirq is not
    raised. *)
Example empty_not_scheduled :
  match rx_run 1000 300 1 (fun _ => 64) (fun _ => true) (fun skb => skb) [LEnqueue 0 10 0; LSoftirq 0; rx 0; rx 0; rx 0; LEnqueue 0 11 0] (net_init 1) with
  | Some (s, _) => (rx_pending <$> cpus s) = [false] /\
      exists es, (rx_events <$> cpus s) = [es ++ [tp_pktqueue 11 backlog_id 0 QUEUE_ENQUEUE; tp_queuecondition QUEUE_EMPTY backlog_id backlog_id]]
  | None => False
  end.
Proof.
  vm_compute. split; [done|]. by exists [tp_pktqueue 10 backlog_id 0 QUEUE_ENQUEUE; tp_queuecondition QUEUE_EMPTY backlog_id backlog_id; rx_raised;
    tp_loopstart 1 0 backlog_id backlog_id; tp_looprestart; tp_loopstop; tp_loopstart 1 0 backlog_id backlog_id; tp_looprestart;
    tp_pktqueue 10 backlog_id 0 QUEUE_DEQUEUE].
Qed.

Lemma steered_ok : Forall (label_ok (fun _ => 64) 2) steered.
Proof. repeat constructor; cbn; try lia; by intros d. Qed.

Lemma backlog_fifo_witness :
  exists s rs, boot_run steered (net_init 2) = Some (s, rs) /\
    forall c sd, cpus s !! c = Some sd ->
      accepted c steered rs = delivered sd ++ recv sd ++ process_queue sd ++ input_pkt_queue sd /\ Z.of_nat (length (input_pkt_queue sd)) <= 1000 + 1.
Proof. apply (backlog_fifo 1000 300 64 (fun _ => 64) (fun _ => true) (fun skb => skb)); [lia|lia|done|exact steered_ok]. Defined.

Lemma backlog_no_lost_wakeup_witness :
  exists s rs, boot_run steered (net_init 2) = Some (s, rs) /\
    forall c sd, cpus s !! c = Some sd -> process_queue sd ++ input_pkt_queue sd <> [] -> attended s c sd.
Proof. apply (backlog_no_lost_wakeup 1000 300 64 (fun _ => 64) (fun _ => true) (fun skb => skb)); [lia|lia|done|exact steered_ok]. Defined.

Definition two_packets : list rx_label := [LEnqueue 0 10 0; LEnqueue 0 11 0].
Definition two_queued : net := default (net_init 2) (fst <$> boot_run two_packets (net_init 2)).

Lemma softirq_drains_backlog_witness :
  exists k s' rs' sd', boot_run (LSoftirq 0 :: replicate k (rx 0)) two_queued = Some (s', rs') /\
    cpus s' !! 0%nat = Some sd' /\ softirq_end 64 0 300 [10; 11] [] sd'.
Proof.
  refine (softirq_drains_backlog 1000 300 64 (fun _ => 64) (fun _ => true) (fun skb => skb) _ _ _ 2 two_packets two_queued
    [Some 0; Some 0] 0 (default softnet_init (cpus two_queued !! 0%nat)) _ _ _ _ _ _);
    [lia|lia|done|repeat constructor; cbn; lia|vm_compute; reflexivity..].
Defined.
