(* ===== verification/Semaphore.v ===== *)
(** * Semaphores

    [kernel/semaphore.c] with the tracepoints of SEPExtract, for any number of
    tasks. The functions run their bodies under [sem->lock] and release it only
    around [schedule_timeout], so that the steps of the system are the sections
    between: the call of a function up to its return or its first sleep, and the
    section from a wake-up to the return or the next sleep. *)

From S2P Require Import Prelude Sepext Vsprintf.
From stdpp Require Import prelude gmap list.
From Stdlib Require Import ZArith Lia.

Open Scope Z_scope.
Open Scope list_scope.

Definition TASK_INTERRUPTIBLE : Z := 1.
Definition TASK_UNINTERRUPTIBLE : Z := 2.
Definition TASK_WAKEKILL : Z := 128.
Definition TASK_KILLABLE : Z := Z.lor TASK_WAKEKILL TASK_UNINTERRUPTIBLE.
Definition MAX_SCHEDULE_TIMEOUT : Z := 2147483647.

(** The signals of the running task: [signal_pending] and [__fatal_signal_pending]. *)
Record signals := MkSig { sig_pending : bool; sig_fatal : bool }.

Definition signal_pending_state (state : Z) (g : signals) : bool :=
  if negb (ctrue (Z.land state (Z.lor TASK_INTERRUPTIBLE TASK_WAKEKILL))) then false
  else if negb (sig_pending g) then false
  else ctrue (Z.land state TASK_INTERRUPTIBLE) || sig_fatal g.

(** [struct semaphore]; a waiter is known by its task. [upped] are the tasks
    whose waiter has [up] set: they have been taken off the list and have not
    returned yet. *)
Record semaphore := MkSem { sem_count : Z; wait_list : list Z; upped : list Z }.

Definition sema_init (val : Z) : semaphore := MkSem (u32 val) [] [].

(** How a section under the lock ends. *)
Inductive section_end := Return (r : Z) | Sleep (state timeout : Z).

Definition list_del (task : Z) (s : semaphore) : semaphore :=
  MkSem (sem_count s) (filter (fun t => t <> task) (wait_list s)) (upped s).

(** One round of the loop of [__down_common], up to [schedule_timeout]. *)
Definition down_round (task state timeout : Z) (g : signals) (s : semaphore) : section_end * semaphore :=
  if signal_pending_state state g then (Return (- EINTR), list_del task s)
  else if timeout <=? 0 then (Return (- ETIME), list_del task s)
  else (Sleep state timeout, s).

Definition __down_common (task state timeout : Z) (g : signals) (s : semaphore) : section_end * semaphore :=
  down_round task state timeout g (MkSem (sem_count s) (wait_list s ++ [task]) (upped s)).

(** The rest of the loop after [schedule_timeout] returned [timeout]. *)
Definition down_wake (task state timeout : Z) (g : signals) (s : semaphore) : section_end * semaphore :=
  if bool_decide (task ∈ upped s)
  then (Return 0, MkSem (sem_count s) (wait_list s) (filter (fun t => t <> task) (upped s)))
  else down_round task state timeout g s.

(** The functions that may wait, with their state and timeout. *)
Inductive down_kind := Down | DownInterruptible | DownKillable | DownTimeout (jiffies : Z).

Definition down_state (k : down_kind) : Z :=
  match k with
  | Down | DownTimeout _ => TASK_UNINTERRUPTIBLE
  | DownInterruptible => TASK_INTERRUPTIBLE
  | DownKillable => TASK_KILLABLE
  end.
Definition down_limit (k : down_kind) : Z := match k with DownTimeout j => j | _ => MAX_SCHEDULE_TIMEOUT end.

(** [down], [down_interruptible], [down_killable] and [down_timeout]; [loc] is
    the caller, [sem] the address of the semaphore. *)
Definition down_event (loc sem : Z) : tp_event := tp_semaphore_down loc sem SYNCH_GLOBAL.
Definition up_event (loc sem : Z) : tp_event := tp_semaphore_up loc sem SYNCH_GLOBAL.

Definition down (k : down_kind) (loc sem task : Z) (g : signals) (s : semaphore) : tp_event * section_end * semaphore :=
  let ev := down_event loc sem in
  if 0 <? sem_count s then (ev, Return 0, MkSem (u32 (sem_count s - 1)) (wait_list s) (upped s))
  else let '(e, s) := __down_common task (down_state k) (down_limit k) g s in (ev, e, s).

Definition down_trylock (loc sem : Z) (s : semaphore) : tp_event * section_end * semaphore :=
  let count := s32 (u32 (sem_count s - 1)) in
  let s := if 0 <=? count then MkSem count (wait_list s) (upped s) else s in
  (down_event loc sem, Return (zbool (count <? 0)), s).

(** [__up]: the first waiter; it is only called with one. *)
Definition __up (s : semaphore) : option semaphore :=
  match wait_list s with
  | t :: l => Some (MkSem (sem_count s) l (upped s ++ [t]))
  | [] => None
  end.

Definition up (loc sem : Z) (s : semaphore) : option (tp_event * semaphore) :=
  s ← (match wait_list s with
       | [] => Some (MkSem (u32 (sem_count s + 1)) [] (upped s))
       | _ => __up s
       end);
  Some (up_event loc sem, s).

(** ** The system: a semaphore, and the tasks that sleep in one of its functions *)

Record sem_sys := MkSys { sys_sem : semaphore; sys_asleep : gmap Z (Z * Z); sys_events : list tp_event }.

Inductive sem_label :=
  | LDown (k : down_kind) (loc task : Z) (g : signals)
  | LTry (loc task : Z)
  | LUp (loc : Z)
  | LWake (task timeout : Z) (g : signals).

Definition sem_addr : Z := 3221225472.

(** A step, and what the function returns to its caller, if it does. A task
    that sleeps makes no calls; only a task that sleeps wakes up. *)
Definition sem_step (lb : sem_label) (s : sem_sys) : option (option Z * sem_sys) :=
  let settle task e sem evs :=
    match e with
    | Return r => (Some r, MkSys sem (delete task (sys_asleep s)) (sys_events s ++ evs))
    | Sleep st tmo => (None, MkSys sem (<[task := (st, tmo)]> (sys_asleep s)) (sys_events s ++ evs))
    end in
  match lb with
  | LDown k loc task g =>
      match sys_asleep s !! task with
      | Some _ => None
      | None => let '(ev, e, sem) := down k loc sem_addr task g (sys_sem s) in Some (settle task e sem [ev])
      end
  | LTry loc task =>
      match sys_asleep s !! task with
      | Some _ => None
      | None => let '(ev, e, sem) := down_trylock loc sem_addr (sys_sem s) in Some (settle task e sem [ev])
      end
  | LUp loc =>
      '(ev, sem) ← up loc sem_addr (sys_sem s); Some (Some 0, MkSys sem (sys_asleep s) (sys_events s ++ [ev]))
  | LWake task timeout g =>
      '(st, _) ← sys_asleep s !! task;
      let '(e, sem) := down_wake task st timeout g (sys_sem s) in Some (settle task e sem [])
  end.

Fixpoint sem_run (ls : list sem_label) (s : sem_sys) : option (list (option Z) * sem_sys) :=
  match ls with
  | [] => Some ([], s)
  | l :: ls' => '(r, s) ← sem_step l s; '(rs, s) ← sem_run ls' s; Some (r :: rs, s)
  end.

Definition sem_boot (n : Z) : sem_sys := MkSys (sema_init n) ∅ [].

(** Successful acquisitions and releases in a run. *)
Definition acquires (l : sem_label) (r : option Z) : Z :=
  match l, r with LUp _, _ => 0 | _, Some r => if r =? 0 then 1 else 0 | _, None => 0 end.
Definition releases (l : sem_label) : Z := match l with LUp _ => 1 | _ => 0 end.

Fixpoint acquired (ls : list sem_label) (rs : list (option Z)) : Z :=
  match ls, rs with l :: ls', r :: rs' => acquires l r + acquired ls' rs' | _, _ => 0 end.
Fixpoint released (ls : list sem_label) : Z :=
  match ls with l :: ls' => releases l + released ls' | [] => 0 end.

Record sem_ok (s : sem_sys) : Prop := {
  so_count : 0 <= sem_count (sys_sem s) < 4294967296;
  so_wait : wait_list (sys_sem s) <> [] -> sem_count (sys_sem s) = 0;
  so_nodup : NoDup (wait_list (sys_sem s) ++ upped (sys_sem s));
  so_asleep : forall t, is_Some (sys_asleep s !! t) <-> t ∈ wait_list (sys_sem s) ++ upped (sys_sem s) }.

Section semaphore_proofs.

Lemma filter_ne_nodup (t : Z) (l : list Z) : t ∉ filter (fun x => x <> t) l.
Proof. rewrite list_elem_of_filter. by intros [? _]. Qed.

Lemma filter_ne_id (t : Z) (l : list Z) : t ∉ l -> filter (fun x => x <> t) l = l.
Proof.
  induction l as [|x l IH]; [done|]. rewrite not_elem_of_cons. intros [Hx Hl].
  rewrite filter_cons_True by congruence. by rewrite IH.
Qed.

Lemma filter_ne_length (t : Z) (l : list Z) :
  NoDup l -> t ∈ l -> Z.of_nat (length (filter (fun x => x <> t) l)) = Z.of_nat (length l) - 1.
Proof.
  induction 1 as [|x l Hx Hnd IH]; [by intros ?%not_elem_of_nil|]. intros [->|Hin]%elem_of_cons.
  - rewrite filter_cons_False by (by intros []). rewrite filter_ne_id by done. cbn [length]. lia.
  - rewrite filter_cons_True by (by intros ->). cbn [length]. specialize (IH Hin). lia.
Qed.

(** A task that leaves both lists. *)
Lemma leave_lists t (w u : list Z) (m : gmap Z (Z * Z)) :
  NoDup (w ++ u) -> (forall x, is_Some (m !! x) <-> x ∈ w ++ u) ->
  NoDup (filter (fun x => x <> t) w ++ filter (fun x => x <> t) u) /\
  (forall x, is_Some (delete t m !! x) <-> x ∈ filter (fun x => x <> t) w ++ filter (fun x => x <> t) u).
Proof.
  intros Hnd Hm. rewrite <- filter_app. split; [by apply NoDup_filter|].
  intros x. rewrite list_elem_of_filter, <- Hm, lookup_delete_is_Some. split; intros [? ?]; (split; [congruence|done]).
Qed.

(** What a round of the wait loop does to a waiter that is on the list. *)
Lemma down_round_ok task st tmo g c w u (m : gmap Z (Z * Z)) evs :
  0 <= c < 4294967296 -> (w <> [] -> c = 0) -> NoDup (w ++ u) -> task ∈ w ->
  (forall x, x <> task -> is_Some (m !! x) <-> x ∈ w ++ u) ->
  let '(e, sem) := down_round task st tmo g (MkSem c w u) in
  let s' := match e with
            | Return _ => MkSys sem (delete task m) evs
            | Sleep a b => MkSys sem (<[task := (a, b)]> m) evs
            end in
  sem_ok s' /\ sem_count sem = c /\ length (upped sem) = length u /\ e <> Return 0.
Proof.
  intros Hc Hw Hnd Hin Hm. assert (task ∉ u) as Hu.
  { apply NoDup_app in Hnd as (_ & Hd & _). by apply Hd. }
  assert (forall (x : Z), x ∈ filter (fun y => y <> task) w ++ u <-> x <> task /\ x ∈ w ++ u) as Hf.
  { intros x. rewrite !elem_of_app, list_elem_of_filter. split; [intros [[? ?]|?]|intros [? [?|?]]]; try tauto.
    split; [by intros ->|tauto]. }
  assert (sem_ok (MkSys (list_del task (MkSem c w u)) (delete task m) evs)) as Hdel.
  { split; cbn [sys_sem sem_count list_del wait_list upped sys_asleep].
    - done.
    - intros Hne. apply Hw. by intros ->.
    - rewrite <- (filter_ne_id task u) by done. rewrite <- filter_app. by apply NoDup_filter.
    - intros x. rewrite Hf, lookup_delete_is_Some. split; intros [Hx ?]; (split; [congruence|]); by apply Hm. }
  unfold down_round. destruct (signal_pending_state st g); [by split_and!|]. destruct (tmo <=? 0); [by split_and!|].
  split_and!; try done. split; cbn [sys_sem sem_count wait_list upped sys_asleep]; try done.
  intros x. destruct (decide (x = task)) as [->|Hx].
  - rewrite lookup_insert_eq. split; [|eauto]. intros _. apply elem_of_app. by left.
  - rewrite lookup_insert_ne by done. by apply Hm.
Qed.

Definition tokens (s : sem_sys) : Z := sem_count (sys_sem s) + Z.of_nat (length (upped (sys_sem s))).

Lemma step_down_ok k loc task g s r s' :
  sem_ok s -> sem_step (LDown k loc task g) s = Some (r, s') ->
  sem_ok s' /\ tokens s' + acquires (LDown k loc task g) r = tokens s.
Proof.
  intros [Hc Hw Hnd Hm] E. cbn [sem_step] in E. destruct (sys_asleep s !! task) eqn:Ha; [done|].
  assert (task ∉ wait_list (sys_sem s) ++ upped (sys_sem s)) as Hni by (rewrite <- Hm, Ha; by intros []).
  unfold down in E. unfold tokens. destruct (Z.ltb_spec 0 (sem_count (sys_sem s))) as [Hpos|Hz].
  - injection E as <- <-. cbn. rewrite u32_id by lia. split; [|cbn; lia]. split; cbn [sys_sem sem_count wait_list upped sys_asleep].
    + lia.
    + intros Hne. specialize (Hw Hne). lia.
    + done.
    + intros x. rewrite <- Hm. destruct (decide (x = task)) as [->|]; [rewrite lookup_delete_eq, Ha; split; by intros []|by rewrite lookup_delete_ne].
  - pose proof (down_round_ok task (down_state k) (down_limit k) g (sem_count (sys_sem s)) (wait_list (sys_sem s) ++ [task])
      (upped (sys_sem s)) (sys_asleep s) (sys_events s ++ [down_event loc sem_addr]) Hc ltac:(lia)) as H.
    assert (Permutation ((wait_list (sys_sem s) ++ [task]) ++ upped (sys_sem s)) (task :: wait_list (sys_sem s) ++ upped (sys_sem s))) as Hp
      by solve_Permutation.
    specialize (H ltac:(rewrite Hp; by constructor) ltac:(apply elem_of_app; right; by left)
      ltac:(intros x Hx; rewrite Hp, Hm, elem_of_cons; tauto)).
    unfold __down_common in E. destruct (down_round _ _ _ _ _) as [e sem]. destruct H as (Hok & Ec & El & Hne).
    destruct e as [r0|st tmo]; injection E as <- <-; (split; [exact Hok|]); cbn; rewrite Ec, El.
    + destruct (Z.eqb_spec r0 0) as [->|]; [done|lia].
    + lia.
Qed.

Lemma step_wake_ok task tmo g s r s' :
  sem_ok s -> sem_step (LWake task tmo g) s = Some (r, s') ->
  sem_ok s' /\ tokens s' + acquires (LWake task tmo g) r = tokens s.
Proof.
  intros [Hc Hw Hnd Hm] E. cbn [sem_step] in E. destruct (sys_asleep s !! task) as [[st tm]|] eqn:Ha; [|done].
  cbn [mbind option_bind] in E. unfold down_wake in E. unfold tokens.
  assert (task ∈ wait_list (sys_sem s) ++ upped (sys_sem s)) as Hin by (rewrite <- Hm, Ha; eauto).
  destruct (decide (task ∈ upped (sys_sem s))) as [Hu|Hu].
  - rewrite bool_decide_eq_true_2 in E by done. injection E as <- <-.
    assert (task ∉ wait_list (sys_sem s)) as Hwn by (intros ?; apply NoDup_app in Hnd as (_ & Hd & _); by eapply Hd).
    destruct (leave_lists task _ _ _ Hnd Hm) as [Hnd' Hm']. rewrite (filter_ne_id task (wait_list _)) in Hnd', Hm' by done.
    split; [by split|]. cbn [sys_sem sem_count upped acquires Z.eqb].
    apply NoDup_app in Hnd as (_ & _ & Hnd). rewrite filter_ne_length by done. lia.
  - rewrite bool_decide_eq_false_2 in E by done. apply elem_of_app in Hin as [Hin|?]; [|done].
    destruct (sys_sem s) as [c w u] eqn:Es. cbn [sem_count wait_list upped] in *.
    pose proof (down_round_ok task st tmo g c w u (sys_asleep s) (sys_events s ++ []) Hc Hw Hnd Hin ltac:(intros; apply Hm)) as H.
    destruct (down_round _ _ _ _ _) as [e sem]. destruct H as (Hok & Ec & El & Hne).
    destruct e as [r0|st' tmo']; injection E as <- <-; (split; [exact Hok|]); cbn; rewrite Ec, El.
    + destruct (Z.eqb_spec r0 0) as [->|]; [done|lia].
    + lia.
Qed.

Lemma step_try_ok loc task s r s' :
  sem_ok s -> sem_step (LTry loc task) s = Some (r, s') ->
  sem_ok s' /\ tokens s' + acquires (LTry loc task) r = tokens s.
Proof.
  intros [Hc Hw Hnd Hm] E. cbn [sem_step] in E. destruct (sys_asleep s !! task) eqn:Ha; [done|].
  unfold down_trylock in E. unfold tokens.
  assert (forall x, is_Some (delete task (sys_asleep s) !! x) <-> x ∈ wait_list (sys_sem s) ++ upped (sys_sem s)) as Hm'.
  { intros x. by rewrite delete_id, Hm. }
  set (c := s32 (u32 (sem_count (sys_sem s) - 1))) in *. injection E as <- <-.
  destruct (Z.leb_spec 0 c) as [Hc0|Hc0]; destruct (Z.ltb_spec c 0) as [Hc1|Hc1]; try lia; cbn [zbool acquires Z.eqb].
  - assert (c = sem_count (sys_sem s) - 1) as E.
    { unfold c, s32, wraps, u32, wrapu in *. change (2 ^ 32) with 4294967296 in *. change (2 ^ (32 - 1)) with 2147483648 in *.
      destruct (Z.eq_dec (sem_count (sys_sem s)) 0) as [Hz|Hz]; [rewrite Hz in Hc0; vm_compute in Hc0; by destruct Hc0|].
      rewrite (Z.mod_small (sem_count (sys_sem s) - 1)) in * by lia.
      pose proof (Z.mod_pos_bound (sem_count (sys_sem s) - 1 + 2147483648) 4294967296 ltac:(lia)).
      destruct (Z.lt_ge_cases (sem_count (sys_sem s) - 1) 2147483648).
      - rewrite Z.mod_small by lia. lia.
      - exfalso. assert ((sem_count (sys_sem s) - 1 + 2147483648) mod 4294967296 = sem_count (sys_sem s) - 1 + 2147483648 - 4294967296) as Hmod
          by (symmetry; apply (Z.mod_unique _ _ 1); lia). lia. }
    cbn [sys_sem sem_count upped]. split; [|lia]. split; cbn [sys_sem sem_count wait_list upped sys_asleep]; try done; [lia|].
    intros Hne. specialize (Hw Hne). lia.
  - split; [by split|]. cbn [sys_sem]. lia.
Qed.

Lemma step_up_ok loc s r s' :
  sem_ok s -> sem_count (sys_sem s) + 1 < 4294967296 -> sem_step (LUp loc) s = Some (r, s') ->
  sem_ok s' /\ tokens s' = tokens s + 1.
Proof.
  intros [Hc Hw Hnd Hm] Hb E. cbn [sem_step] in E. unfold up, __up in E. unfold tokens.
  destruct (wait_list (sys_sem s)) as [|t l] eqn:El; cbn [mbind option_bind] in E; injection E as <- <-; cbn [sys_sem sem_count upped].
  - rewrite u32_id by lia. split; [|lia]. split; cbn [sys_sem sem_count wait_list upped sys_asleep]; try done. lia.
  - assert (Permutation ((t :: l) ++ upped (sys_sem s)) (l ++ upped (sys_sem s) ++ [t])) as Hp by solve_Permutation.
    rewrite length_app. cbn [length]. split; [|lia]. split; cbn [sys_sem sem_count wait_list upped sys_asleep].
    + done.
    + intros _. by apply Hw.
    + by rewrite <- Hp.
    + intros x. by rewrite Hm, Hp.
Qed.

Lemma sem_step_ok l s r s' :
  sem_ok s -> sem_count (sys_sem s) + 1 < 4294967296 -> sem_step l s = Some (r, s') ->
  sem_ok s' /\ tokens s' + acquires l r = tokens s + releases l.
Proof.
  intros Hs Hb E. destruct l as [k loc task g|loc task|loc|task tmo g].
  - destruct (step_down_ok _ _ _ _ _ _ _ Hs E). cbn [releases]. split; [done|lia].
  - destruct (step_try_ok _ _ _ _ _ Hs E). cbn [releases]. split; [done|lia].
  - destruct (step_up_ok _ _ _ _ Hs Hb E). cbn [releases acquires]. split; [done|lia].
  - destruct (step_wake_ok _ _ _ _ _ _ Hs E). cbn [releases]. split; [done|lia].
Qed.

Lemma released_nonneg ls : 0 <= released ls.
Proof. induction ls as [|[] ls IH]; cbn; lia. Qed.

Lemma acquires_nonneg l r : 0 <= acquires l r.
Proof. unfold acquires. destruct l, r; try lia; by case_match. Qed.

Lemma sem_run_ok ls s rs s' :
  sem_ok s -> tokens s + released ls < 4294967295 -> sem_run ls s = Some (rs, s') ->
  sem_ok s' /\ tokens s' + acquired ls rs = tokens s + released ls.
Proof.
  revert s rs. induction ls as [|l ls IH]; intros s rs Hs Hb E.
  { cbn in E. injection E as <- <-. split; [done|]. cbn. lia. }
  cbn [sem_run released] in *. destruct (sem_step l s) as [[r s1]|] eqn:E1; [|done]. cbn [mbind option_bind] in E.
  destruct (sem_run ls s1) as [[rs1 s2]|] eqn:E2; [|done]. cbn [mbind option_bind] in E. injection E as <- <-.
  pose proof (released_nonneg ls). pose proof (acquires_nonneg l r).
  assert (0 <= releases l) by (destruct l; cbn; lia).
  destruct (sem_step_ok _ _ _ _ Hs ltac:(unfold tokens in Hb; lia) E1) as [Hs1 Ht1].
  destruct (IH s1 rs1 Hs1 ltac:(lia) E2) as [Hs2 Ht2]. split; [done|]. cbn [acquired]. lia.
Qed.

Lemma sem_boot_ok n : 0 <= n < 4294967296 -> sem_ok (sem_boot n) /\ tokens (sem_boot n) = n.
Proof.
  intros Hn. unfold sem_boot, sema_init, tokens. rewrite u32_id by done. split; [|cbn; lia].
  split; cbn; [lia|done|constructor|]. intros t. rewrite lookup_empty, elem_of_nil. split; [by intros []|done].
Qed.
End semaphore_proofs.

(** C16: in every run of a semaphore initialised to [n], the acquisitions that
    returned successfully never exceed [n] plus the releases; what is missing is
    exactly in the count or handed to a waiter that has not run yet. Tasks wait
    only while the count is zero, and exactly the waiting tasks and those that
    were handed the semaphore are asleep. *)
Theorem semaphore_counts (n : Z) (ls : list sem_label) (rs : list (option Z)) (s' : sem_sys) :
  0 <= n -> n + released ls < 4294967295 -> sem_run ls (sem_boot n) = Some (rs, s') ->
  acquired ls rs <= n + released ls /\
  sem_count (sys_sem s') + Z.of_nat (length (upped (sys_sem s'))) + acquired ls rs = n + released ls /\
  (wait_list (sys_sem s') <> [] -> sem_count (sys_sem s') = 0) /\
  (forall t, is_Some (sys_asleep s' !! t) <-> t ∈ wait_list (sys_sem s') ++ upped (sys_sem s')).
Proof.
  intros Hn Hb E. pose proof (released_nonneg ls). destruct (sem_boot_ok n ltac:(lia)) as [Hok Ht].
  destruct (sem_run_ok ls _ rs s' Hok ltac:(lia) E) as [[Hc Hw _ Hm] Ht']. unfold tokens in *. split_and!; (done || lia).
Qed.

(** Two tasks compete for a mutex; the second one waits and gets it from the
    first one; a third one times out. *)
Definition no_sig : signals := MkSig false false.
Definition sample_run : list sem_label :=
  [LDown Down 8 1 no_sig; LDown DownInterruptible 8 2 no_sig; LDown (DownTimeout 5) 8 3 no_sig;
   LUp 8; LWake 3 0 no_sig; LWake 2 2147483647 no_sig].

Lemma semaphore_counts_witness :
  exists rs s', sem_run sample_run (sem_boot 1) = Some (rs, s') /\
    rs = [Some 0; None; None; Some 0; Some (- ETIME); Some 0] /\
    acquired sample_run rs <= 1 + released sample_run /\
    sem_count (sys_sem s') + Z.of_nat (length (upped (sys_sem s'))) + acquired sample_run rs = 1 + released sample_run /\
    (wait_list (sys_sem s') <> [] -> sem_count (sys_sem s') = 0) /\
    (forall t, is_Some (sys_asleep s' !! t) <-> t ∈ wait_list (sys_sem s') ++ upped (sys_sem s')).
Proof.
  eexists. eexists. split; [reflexivity|]. split; [reflexivity|].
  apply (semaphore_counts 1 sample_run); [lia|cbn; lia|reflexivity].
Defined.

(** C38: [up] hands the semaphore to the task that has waited longest: its
    function returns success when it runs next, even if a signal arrived or its
    timeout expired meanwhile, and no other task can take the semaphore first. *)
Theorem up_hands_over (loc task : Z) (l : list Z) (s : sem_sys) (st : Z * Z) (tmo : Z) (g : signals) :
  sem_ok s -> wait_list (sys_sem s) = task :: l -> sys_asleep s !! task = Some st ->
  exists s1 s2, sem_step (LUp loc) s = Some (Some 0, s1) /\
    wait_list (sys_sem s1) = l /\ sem_count (sys_sem s1) = 0 /\
    sem_step (LWake task tmo g) s1 = Some (Some 0, s2) /\
    wait_list (sys_sem s2) = l /\ sem_count (sys_sem s2) = 0 /\ upped (sys_sem s2) = upped (sys_sem s).
Proof.
  intros Hs Hw Ha. pose proof (so_wait s Hs ltac:(by rewrite Hw)) as Hc. pose proof (so_nodup s Hs) as Hnd.
  cbn [sem_step]. unfold up, __up. rewrite Hw. cbn [mbind option_bind]. eexists. eexists. split; [reflexivity|].
  cbn [sys_sem wait_list sem_count sys_asleep]. split; [done|]. split; [done|].
  rewrite Ha. destruct st as [st0 tm]. cbn [mbind option_bind]. unfold down_wake. cbn [upped].
  rewrite bool_decide_eq_true_2 by (apply elem_of_app; right; by left).
  split; [reflexivity|]. cbn [sys_sem wait_list sem_count upped]. split_and!; try done.
  rewrite Hw in Hnd. cbn [app] in Hnd. apply NoDup_cons in Hnd as [Hni _].
  rewrite filter_app, filter_cons_False by (by intros []). rewrite filter_nil, app_nil_r. apply filter_ne_id.
  intros Hin. apply Hni, elem_of_app. by right.
Qed.

Definition waiting_sys : sem_sys :=
  MkSys (MkSem 0 [2; 3] []) {[2 := (TASK_INTERRUPTIBLE, 10); 3 := (TASK_UNINTERRUPTIBLE, 10)]} [].

Lemma waiting_sys_ok : sem_ok waiting_sys.
Proof.
  split; cbn [sys_sem sem_count wait_list upped sys_asleep waiting_sys].
  - lia.
  - done.
  - apply (bool_decide_unpack _). vm_compute. exact I.
  - intros t. change ([2; 3] ++ []) with [2; 3]. rewrite !elem_of_cons, elem_of_nil, lookup_insert_is_Some, lookup_singleton_is_Some.
    destruct (decide (2 = t)); intuition congruence.
Qed.

Lemma up_hands_over_witness :
  exists s1 s2, sem_step (LUp 8) waiting_sys = Some (Some 0, s1) /\
    wait_list (sys_sem s1) = [3] /\ sem_count (sys_sem s1) = 0 /\
    sem_step (LWake 2 0 (MkSig true true)) s1 = Some (Some 0, s2) /\
    wait_list (sys_sem s2) = [3] /\ sem_count (sys_sem s2) = 0 /\ upped (sys_sem s2) = [].
Proof.
  apply (up_hands_over 8 2 [3] waiting_sys (TASK_INTERRUPTIBLE, 10) 0 (MkSig true true) waiting_sys_ok); reflexivity.
Defined.

(** [down_trylock] records the same event whether or not it acquires the
    semaphore: on a semaphore that is taken it returns 1, and the trace shows
    the same [semaphore_down] as for an acquisition. *)
Theorem failed_trylock_traced (loc sem : Z) (s s0 : semaphore) :
  sem_count s0 = 0 ->
  (down_trylock loc sem s0).1 = (down_event loc sem, Return 1) /\ (down_trylock loc sem s0).2 = s0 /\
  (down_trylock loc sem s).1.1 = (down_trylock loc sem s0).1.1.
Proof. intros H. unfold down_trylock. rewrite H. by split_and!. Qed.

Lemma failed_trylock_traced_witness :
  (down_trylock 8 64 (MkSem 0 [] [])).1 = (down_event 8 64, Return 1) /\
  (down_trylock 8 64 (MkSem 0 [] [])).2 = MkSem 0 [] [] /\
  (down_trylock 8 64 (MkSem 1 [] [])).1.1 = (down_trylock 8 64 (MkSem 0 [] [])).1.1.
Proof. apply (failed_trylock_traced 8 64 (MkSem 1 [] []) (MkSem 0 [] [])). reflexivity. Defined.
