(* ===== verification/Completion.v ===== *)
(** * Completions

    The completion functions of [kernel/sched.c], with the tracepoints of
    SEPExtract, for any number of tasks, and the wait queue they use. As in
    [Semaphore] a step is a section under [x->wait.lock], which is released
    only around [schedule_timeout]. Other than a semaphore, a completion does
    not hand itself to a waiter: a waiter that was woken is still on the queue,
    and takes the completion when it runs. *)

From S2P Require Import Prelude Sepext Semaphore.
From stdpp Require Import prelude gmap list.
From Stdlib Require Import ZArith Lia.

Open Scope Z_scope.
Open Scope list_scope.

Definition TASK_RUNNING : Z := 0.
Definition TASK_NORMAL : Z := Z.lor TASK_INTERRUPTIBLE TASK_UNINTERRUPTIBLE.
Definition WQ_FLAG_EXCLUSIVE : Z := 1.

(** The functions that wait, with the argument [timeout] where they have one. *)
Inductive call :=
  | Wait | WaitTimeout (jiffies : Z)
  | WaitInterruptible | WaitInterruptibleTimeout (jiffies : Z)
  | WaitKillable | WaitKillableTimeout (jiffies : Z)
  | TryWait.
#[export] Instance call_eq_dec : EqDecision call.
Proof. solve_decision. Defined.

(** An entry of the wait queue, which lives on the stack of the waiting
    function: [wait.flags] and [wait.private], the latter with the state of the
    task; the call the task is in, and the timeout with which it sleeps. *)
Record waiter := MkWaiter {
  w_flags : Z; w_task : Z; w_pstate : Z; w_call : call; w_timeout : Z }.

(** [struct completion] *)
Record completion := MkCompl { done : Z; wait : list waiter }.

Definition init_completion : completion := MkCompl 0 [].

(** ** Waking up *)

Definition set_pstate (st : Z) (w : waiter) : waiter :=
  MkWaiter (w_flags w) (w_task w) st (w_call w) (w_timeout w).

(** What [try_to_wake_up] does to the state of the task; it is known by its
    pid. *)
Definition try_to_wake_up (mode : Z) (w : waiter) : bool * waiter :=
  if negb (ctrue (Z.land (w_pstate w) mode)) then (false, w) else (true, set_pstate TASK_RUNNING w).

(** [loc] is the call of [try_to_wake_up] in [default_wake_function]. *)
Definition default_wake_function (loc mode : Z) (w : waiter) : bool * waiter * list tp_event :=
  (try_to_wake_up mode w, [tp_wakeup loc (w_task w)]).

Fixpoint __wake_up_common (loc mode nr_exclusive : Z) (q : list waiter) : list waiter * list tp_event :=
  match q with
  | [] => ([], [])
  | curr :: q' =>
      let '(woken, w, ev) := default_wake_function loc mode curr in
      if woken && ctrue (Z.land (w_flags curr) WQ_FLAG_EXCLUSIVE) then
        let nr_exclusive := s32 (nr_exclusive - 1) in
        if nr_exclusive =? 0 then (w :: q', ev)
        else let '(q', evs) := __wake_up_common loc mode nr_exclusive q' in (w :: q', ev ++ evs)
      else let '(q', evs) := __wake_up_common loc mode nr_exclusive q' in (w :: q', ev ++ evs)
  end.

(** ** Completing *)

(** The tracepoints take a [sem_synch_scope]; the calls in [sched.c] give them
    a [sem_state_scope], which C converts by its number. *)
Definition synch_scope (x : sem_state_scope) : sem_synch_scope :=
  match x with STATE_LOCAL => SYNCH_LOCAL | STATE_GLOBAL => SYNCH_GLOBAL end.

Definition complete (loc wloc addr : Z) (x : completion) : list tp_event * completion :=
  let '(q, evs) := __wake_up_common wloc TASK_NORMAL 1 (wait x) in
  (tp_complete loc addr (synch_scope STATE_GLOBAL) :: evs, MkCompl (u32 (done x + 1)) q).

Definition complete_all (loc wloc addr : Z) (x : completion) : list tp_event * completion :=
  let '(q, evs) := __wake_up_common wloc TASK_NORMAL 0 (wait x) in
  (tp_complete_all loc addr (synch_scope STATE_GLOBAL) :: evs, MkCompl (u32 (done x + UINT_MAX / 2)) q).

(** ** Waiting *)

Definition wait_state (c : call) : Z :=
  match c with
  | WaitInterruptible | WaitInterruptibleTimeout _ => TASK_INTERRUPTIBLE
  | WaitKillable | WaitKillableTimeout _ => TASK_KILLABLE
  | _ => TASK_UNINTERRUPTIBLE
  end.

(** The argument [timeout] of [wait_for_common], an [unsigned long] converted
    to [long] where the caller has one. *)
Definition wait_limit (c : call) : Z :=
  match c with
  | WaitTimeout j | WaitInterruptibleTimeout j | WaitKillableTimeout j => s32 j
  | _ => MAX_SCHEDULE_TIMEOUT
  end.

Definition wait_event (loc addr : Z) (c : call) : tp_event :=
  match c with
  | Wait => tp_wait_for_completion loc addr (synch_scope STATE_GLOBAL)
  | WaitTimeout j => tp_wait_for_completion_timeout loc addr j (synch_scope STATE_GLOBAL)
  | WaitInterruptible => tp_wait_for_completion_interruptible loc addr (synch_scope STATE_GLOBAL)
  | WaitInterruptibleTimeout j => tp_wait_for_completion_interruptible_timeout loc addr j (synch_scope STATE_GLOBAL)
  | WaitKillable => tp_wait_for_completion_killable loc addr (synch_scope STATE_GLOBAL)
  | WaitKillableTimeout j => tp_wait_for_completion_killable_timeout loc addr j (synch_scope STATE_GLOBAL)
  | TryWait => tp_try_wait_for_completion loc addr (synch_scope STATE_GLOBAL)
  end.

(** What the functions make of the result of [wait_for_common]. *)
Definition wait_result (c : call) (t : Z) : Z :=
  match c with
  | Wait => 0
  | WaitTimeout _ => u32 t
  | WaitInterruptible | WaitKillable => if t =? - ERESTARTSYS then t else 0
  | _ => t
  end.

Definition __remove_wait_queue (task : Z) (q : list waiter) : list waiter :=
  filter (fun w => w_task w <> task) q.

(** The end of [do_wait_for_common] when [x->done] is not 0. *)
Definition wait_done (timeout : Z) (x : completion) : Z * completion :=
  (if timeout =? 0 then 1 else timeout, MkCompl (u32 (done x - 1)) (wait x)).

(** Behind the loop of [do_wait_for_common]. *)
Definition wait_leave (task timeout : Z) (x : completion) : Z * completion :=
  let x := MkCompl (done x) (__remove_wait_queue task (wait x)) in
  if done x =? 0 then (timeout, x) else wait_done timeout x.

(** The state in which [schedule_timeout] leaves the task while it waits: it
    does not sleep for a negative timeout. *)
Definition schedule_state (state timeout : Z) : Z := if timeout <? 0 then TASK_RUNNING else state.

(** One round of the loop, up to [schedule_timeout]; the waiter of [task] is on
    the queue. [None] for the result: the task sleeps. *)
Definition wait_round (c : call) (task timeout : Z) (g : signals) (x : completion) : option Z * completion :=
  if signal_pending_state (wait_state c) g then
    let '(t, x) := wait_leave task (- ERESTARTSYS) x in (Some t, x)
  else
    (None, MkCompl (done x) ((fun w => if w_task w =? task
       then MkWaiter (w_flags w) task (schedule_state (wait_state c) timeout) c timeout else w) <$> wait x)).

(** The call of a waiting function, up to its return or its first sleep. *)
Definition wait_for_common (c : call) (task : Z) (g : signals) (x : completion) : option Z * completion :=
  if done x =? 0 then
    wait_round c task (wait_limit c) g
      (MkCompl (done x) (wait x ++ [MkWaiter WQ_FLAG_EXCLUSIVE task TASK_RUNNING c (wait_limit c)]))
  else let '(t, x) := wait_done (wait_limit c) x in (Some t, x).

(** The section after [schedule_timeout] returned [timeout]. *)
Definition wait_wake (c : call) (task timeout : Z) (g : signals) (x : completion) : option Z * completion :=
  if (done x =? 0) && negb (timeout =? 0) then wait_round c task timeout g x
  else let '(t, x) := wait_leave task timeout x in (Some t, x).

Definition try_wait_for_completion (x : completion) : Z * completion :=
  if done x =? 0 then (0, x) else (1, MkCompl (u32 (done x - 1)) (wait x)).

Definition completion_done (x : completion) : Z := if done x =? 0 then 0 else 1.

(** What [schedule_timeout(timeout)] can return: without a timer the argument,
    otherwise what is left of it. *)
Definition slept (timeout t : Z) : bool :=
  if timeout =? MAX_SCHEDULE_TIMEOUT then t =? timeout
  else if timeout <? 0 then t =? 0
  else (0 <=? t) && (t <=? timeout).

(** ** The system *)

Record comp_sys := MkCSys { sys_x : completion; comp_events : list tp_event }.

(** [CWakeup] is a timer or a signal that wakes a task up; [CRun] the section of
    a task that runs again. *)
Inductive comp_label :=
  | CWait (c : call) (loc task : Z) (g : signals)
  | CComplete (loc : Z)
  | CCompleteAll (loc : Z)
  | CWakeup (task : Z)
  | CRun (task t : Z) (g : signals).

Section completion_system.
Context (addr wloc : Z).   (* of the completion; of the call in default_wake_function *)

Definition find_waiter (task : Z) (q : list waiter) : option waiter :=
  head (filter (fun w => w_task w = task) q).

(** A step, and the call that returned with its result, if one did. A task that
    waits makes no calls, and runs only when it has been woken. *)
Definition comp_step (lb : comp_label) (s : comp_sys) : option (option (call * Z) * comp_sys) :=
  let settle c evs (r : option Z * completion) :=
    (match r.1 with Some t => Some (c, wait_result c t) | None => None end, MkCSys r.2 (comp_events s ++ evs)) in
  match lb with
  | CWait c loc task g =>
      match find_waiter task (wait (sys_x s)) with
      | Some _ => None
      | None =>
          let ev := [wait_event loc addr c] in
          match c with
          | TryWait => let '(r, x) := try_wait_for_completion (sys_x s) in
                       Some (Some (TryWait, r), MkCSys x (comp_events s ++ ev))
          | _ => Some (settle c ev (wait_for_common c task g (sys_x s)))
          end
      end
  | CComplete loc => let '(evs, x) := complete loc wloc addr (sys_x s) in Some (None, MkCSys x (comp_events s ++ evs))
  | CCompleteAll loc => let '(evs, x) := complete_all loc wloc addr (sys_x s) in Some (None, MkCSys x (comp_events s ++ evs))
  | CWakeup task =>
      Some (None, MkCSys (MkCompl (done (sys_x s))
        ((fun w => if w_task w =? task then set_pstate TASK_RUNNING w else w) <$> wait (sys_x s))) (comp_events s))
  | CRun task t g =>
      w ← find_waiter task (wait (sys_x s));
      if (w_pstate w =? TASK_RUNNING) && slept (w_timeout w) t
      then Some (settle (w_call w) [] (wait_wake (w_call w) task t g (sys_x s))) else None
  end.

Fixpoint comp_run (ls : list comp_label) (s : comp_sys) : option (list (option (call * Z)) * comp_sys) :=
  match ls with
  | [] => Some ([], s)
  | l :: ls' => '(r, s) ← comp_step l s; '(rs, s) ← comp_run ls' s; Some (r :: rs, s)
  end.
End completion_system.

Definition comp_boot : comp_sys := MkCSys init_completion [].

(** ** Specification *)

(** Whether the caller learns from the result that there was a completion. *)
Definition succeeded (cr : call * Z) : bool :=
  match cr.1 with
  | Wait => true
  | WaitTimeout _ | WaitInterruptibleTimeout _ | WaitKillableTimeout _ => 0 <? cr.2
  | WaitInterruptible | WaitKillable => cr.2 =? 0
  | TryWait => cr.2 =? 1
  end.

Definition taken (r : option (call * Z)) : Z := match r with Some cr => zbool (succeeded cr) | None => 0 end.
Definition credit (l : comp_label) : Z :=
  match l with CComplete _ => 1 | CCompleteAll _ => UINT_MAX / 2 | _ => 0 end.

Definition total_taken (rs : list (option (call * Z))) : Z := foldr (fun r n => taken r + n) 0 rs.
Definition total_credit (ls : list comp_label) : Z := foldr (fun l n => credit l + n) 0 ls.

(** A timeout that is a [long]. *)
Definition call_ok (c : call) : Prop :=
  match c with
  | WaitTimeout j | WaitInterruptibleTimeout j | WaitKillableTimeout j => 0 <= j <= MAX_SCHEDULE_TIMEOUT
  | _ => True
  end.
Definition label_ok (l : comp_label) : Prop := match l with CWait c _ _ _ => call_ok c | _ => True end.

Definition asleep (w : waiter) : bool := negb (w_pstate w =? TASK_RUNNING).
Definition awake_count (q : list waiter) : Z := Z.of_nat (length (filter (fun w => asleep w = false) q)).

Definition waiter_ok (w : waiter) : Prop :=
  w_flags w = WQ_FLAG_EXCLUSIVE /\ (w_pstate w = TASK_RUNNING \/ w_pstate w = wait_state (w_call w)) /\
  0 <= w_timeout w <= MAX_SCHEDULE_TIMEOUT /\
  (wait_limit (w_call w) = MAX_SCHEDULE_TIMEOUT -> w_timeout w = MAX_SCHEDULE_TIMEOUT) /\
  call_ok (w_call w) /\ w_call w <> TryWait.

Record comp_ok (x : completion) : Prop := {
  co_done : 0 <= done x < 4294967296;
  co_waiters : Forall waiter_ok (wait x);
  co_tasks : NoDup (w_task <$> wait x);
  (** no wake-up is lost: while a task sleeps, every completion that is left
      has a waiter that was woken for it *)
  co_wake : Exists (fun w => asleep w = true) (wait x) -> done x <= awake_count (wait x) }.

Section completion_proofs.

(** *** The wait queue *)

Lemma awake_count_app l1 l2 : awake_count (l1 ++ l2) = awake_count l1 + awake_count l2.
Proof. unfold awake_count. rewrite filter_app, length_app. lia. Qed.

Lemma awake_count_cons w l : awake_count (w :: l) = zbool (negb (asleep w)) + awake_count l.
Proof.
  unfold awake_count. destruct (asleep w) eqn:E.
  - rewrite filter_cons_False by congruence. cbn. lia.
  - rewrite filter_cons_True by done. cbn [length negb zbool]. lia.
Qed.

Lemma awake_count_nonneg l : 0 <= awake_count l.
Proof. unfold awake_count. lia. Qed.

Lemma find_waiter_split task q w :
  find_waiter task q = Some w -> exists l1 l2, q = l1 ++ w :: l2 /\ w_task w = task.
Proof.
  unfold find_waiter. intros E. assert (w ∈ filter (fun w => w_task w = task) q) as Hin.
  { destruct (filter _ q); [done|]. injection E as ->. by left. }
  apply list_elem_of_filter in Hin as [Ht (l1 & l2 & ->)%list_elem_of_split]. eauto.
Qed.

Lemma find_waiter_None task q : find_waiter task q = None -> task ∉ w_task <$> q.
Proof.
  unfold find_waiter. intros E (w & -> & Hw)%list_elem_of_fmap.
  assert (w ∈ filter (fun v => w_task v = w_task w) q) as Hin by (by apply list_elem_of_filter).
  destruct (filter _ q); [by apply not_elem_of_nil in Hin|done].
Qed.

Lemma tasks_split l1 w l2 :
  NoDup (w_task <$> (l1 ++ w :: l2)) ->
  (w_task w ∉ w_task <$> l1) /\ (w_task w ∉ w_task <$> l2) /\ NoDup (w_task <$> (l1 ++ l2)).
Proof.
  rewrite !fmap_app, fmap_cons. intros H. rewrite <- Permutation_middle in H.
  apply NoDup_cons in H as [H1 H2]. rewrite elem_of_app in H1. tauto.
Qed.

Lemma find_waiter_eq l1 w l2 :
  NoDup (w_task <$> (l1 ++ w :: l2)) -> find_waiter (w_task w) (l1 ++ w :: l2) = Some w.
Proof.
  intros (H1 & _ & _)%tasks_split. unfold find_waiter. rewrite filter_app, filter_cons_True by done.
  replace (filter _ l1) with (@nil waiter); [done|]. symmetry. apply elem_of_nil_inv. intros v [Hv Hin]%list_elem_of_filter.
  apply H1. rewrite <- Hv. by apply list_elem_of_fmap_2.
Qed.

Lemma filter_task_id task q : task ∉ w_task <$> q -> __remove_wait_queue task q = q.
Proof.
  unfold __remove_wait_queue. induction q as [|v q IH]; [done|]. rewrite fmap_cons, not_elem_of_cons. intros [Hv Hq].
  rewrite filter_cons_True by congruence. by rewrite IH.
Qed.

Lemma remove_split l1 w l2 :
  NoDup (w_task <$> (l1 ++ w :: l2)) -> __remove_wait_queue (w_task w) (l1 ++ w :: l2) = l1 ++ l2.
Proof.
  intros (H1 & H2 & _)%tasks_split. unfold __remove_wait_queue. rewrite filter_app, filter_cons_False by (by intros []).
  f_equal; by apply filter_task_id.
Qed.

Lemma update_split (f : waiter -> waiter) l1 w l2 :
  NoDup (w_task <$> (l1 ++ w :: l2)) ->
  (fun v => if w_task v =? w_task w then f v else v) <$> (l1 ++ w :: l2) = l1 ++ f w :: l2.
Proof.
  intros (H1 & H2 & _)%tasks_split.
  assert (forall l : list waiter, (w_task w ∉ w_task <$> l) -> (fun v => if w_task v =? w_task w then f v else v) <$> l = l) as Hid.
  { induction l as [|v l IH]; [done|]. rewrite fmap_cons, not_elem_of_cons. intros [Hv Hl]. cbn.
    destruct (Z.eqb_spec (w_task v) (w_task w)); [congruence|]. f_equal. by apply IH. }
  rewrite fmap_app, fmap_cons, Z.eqb_refl. f_equal; [by apply Hid|]. f_equal. by apply Hid.
Qed.

(** Changes of the queue that keep the invariant. *)
Lemma comp_ok_remove d d' l1 w l2 :
  comp_ok (MkCompl d (l1 ++ w :: l2)) -> asleep w = false -> 0 <= d' -> d' = d - 1 \/ d' = 0 ->
  comp_ok (MkCompl d' (l1 ++ l2)).
Proof.
  intros [Hd Hw Ht Hk] Ha Hd' Hor. cbn [done wait] in *. apply Forall_app in Hw as [Hw1 Hw2]. apply Forall_cons in Hw2 as [_ Hw2].
  destruct (tasks_split _ _ _ Ht) as (_ & _ & Ht'). split; cbn [done wait]; [lia|by apply Forall_app|done|].
  intros He. rewrite awake_count_app in *. rewrite awake_count_cons, Ha in Hk. cbn [negb zbool] in Hk.
  pose proof (awake_count_nonneg l1). pose proof (awake_count_nonneg l2).
  assert (d <= awake_count l1 + (1 + awake_count l2)); [|lia]. apply Hk. apply Exists_app in He as [He|He]; apply Exists_app; [by left|].
  right. by apply Exists_cons_tl.
Qed.

Lemma comp_ok_replace d l1 w w' l2 :
  comp_ok (MkCompl d (l1 ++ w :: l2)) -> waiter_ok w' -> w_task w' = w_task w -> d = 0 \/ asleep w' = false ->
  comp_ok (MkCompl d (l1 ++ w' :: l2)).
Proof.
  intros [Hd Hw Ht Hk] Hw' E Hor. cbn [done wait] in *. apply Forall_app in Hw as [Hw1 Hw2]. apply Forall_cons in Hw2 as [_ Hw2].
  split; cbn [done wait]; [done|apply Forall_app; split; [done|by constructor]|by rewrite fmap_app, fmap_cons, E, <- fmap_cons, <- fmap_app|].
  intros He. rewrite awake_count_app, awake_count_cons in *.
  pose proof (awake_count_nonneg l1). pose proof (awake_count_nonneg l2).
  assert (0 <= zbool (negb (asleep w')) <= 1) by (destruct (asleep w'); cbn; lia).
  destruct Hor as [->|Ha]; [lia|]. rewrite Ha in *. cbn [negb zbool].
  assert (d <= awake_count l1 + (zbool (negb (asleep w)) + awake_count l2)); [|destruct (asleep w); cbn [negb zbool] in *; lia].
  apply Hk. apply Exists_app in He as [He|He]; apply Exists_app; [by left|right].
  apply Exists_cons in He as [He|He]; [congruence|]. by apply Exists_cons_tl.
Qed.

Lemma comp_ok_append w d q :
  comp_ok (MkCompl d q) -> d = 0 -> waiter_ok w -> w_task w ∉ w_task <$> q -> comp_ok (MkCompl d (q ++ [w])).
Proof.
  intros [Hd Hw Ht _] E Hok Hni. cbn [done wait] in *. split; cbn [done wait]; [done|apply Forall_app; split; [done|by constructor]| |].
  - rewrite fmap_app. apply NoDup_app. split; [done|]. split; [|apply NoDup_singleton].
    intros t Hin ->%list_elem_of_singleton. done.
  - intros _. pose proof (awake_count_nonneg (q ++ [w])). lia.
Qed.

Lemma comp_ok_less d d' q : comp_ok (MkCompl d q) -> 0 <= d' <= d -> comp_ok (MkCompl d' q).
Proof.
  intros [Hd Hw Ht Hk] Hle. cbn [done wait] in *. split; cbn [done wait]; [lia|done|done|]. intros He. specialize (Hk He). lia.
Qed.

(** The first element outside [P] is unique. *)
Lemma first_split {A} (P : A -> Prop) (l1 l2 k1 k2 : list A) (x y : A) :
  l1 ++ x :: l2 = k1 ++ y :: k2 -> Forall P l1 -> Forall P k1 -> ~ P x -> ~ P y -> k1 = l1 /\ y = x /\ k2 = l2.
Proof.
  intros E H1. revert k1 E. induction H1 as [|a l1 Ha H1 IH]; intros k1 E H2 Hx Hy.
  - destruct H2; injection E as -> ->; [done|contradiction].
  - destruct H2 as [|b k1 Hb H2]; [injection E as -> _; contradiction|]. injection E as -> E.
    destruct (IH k1 E H2 Hx Hy) as (-> & -> & ->). done.
Qed.

(** *** Waking *)

Lemma wake_ok w : waiter_ok w ->
  try_to_wake_up TASK_NORMAL w = (asleep w, set_pstate TASK_RUNNING w).
Proof.
  intros (_ & Hst & _). unfold try_to_wake_up, asleep. destruct w as [fl tk ps c tmo]. cbn in *.
  destruct Hst as [->| ->]; [done|]. by destruct c.
Qed.

Lemma set_pstate_awake w : asleep w = false -> set_pstate TASK_RUNNING w = w.
Proof. unfold asleep. intros E%negb_false_iff%Z.eqb_eq. destruct w. unfold set_pstate. cbn in *. by rewrite E. Qed.

Lemma set_pstate_ok w : waiter_ok w -> waiter_ok (set_pstate TASK_RUNNING w).
Proof. unfold waiter_ok. destruct w. cbn. tauto. Qed.

Lemma wake_one loc q :
  Forall waiter_ok q ->
  ((__wake_up_common loc TASK_NORMAL 1 q).1 = q /\ Forall (fun w => asleep w = false) q) \/
  exists l1 w l2, q = l1 ++ w :: l2 /\ Forall (fun v => asleep v = false) l1 /\ asleep w = true /\
    (__wake_up_common loc TASK_NORMAL 1 q).1 = l1 ++ set_pstate TASK_RUNNING w :: l2.
Proof.
  induction 1 as [|w q Hw Hq IH]; [by left|]. cbn [__wake_up_common]. unfold default_wake_function. rewrite (wake_ok w Hw).
  destruct Hw as (-> & _). change (ctrue (Z.land WQ_FLAG_EXCLUSIVE WQ_FLAG_EXCLUSIVE)) with true. change (s32 (1 - 1)) with 0.
  rewrite andb_true_r. cbn [Z.eqb]. destruct (asleep w) eqn:Ha.
  - right. exists [], w, q. by split_and!.
  - rewrite set_pstate_awake by done. destruct (__wake_up_common loc TASK_NORMAL 1 q) as [q1 evs]. cbn [fst] in *.
    destruct IH as [[-> IH]|(l1 & v & l2 & -> & H1 & H2 & ->)]; [left; split; [done|by constructor]|].
    right. exists (w :: l1), v, l2. split_and!; try done. by constructor.
Qed.

Lemma wake_every loc nr q :
  Forall waiter_ok q -> nr <= 0 -> -2147483648 + Z.of_nat (length q) <= nr ->
  (__wake_up_common loc TASK_NORMAL nr q).1 = set_pstate TASK_RUNNING <$> q.
Proof.
  intros Hq. revert nr. induction Hq as [|w q Hw Hq IH]; intros nr Hn Hl; [done|].
  cbn [__wake_up_common length] in *. unfold default_wake_function. rewrite (wake_ok w Hw).
  rewrite s32_id by lia. destruct (asleep w && _).
  - destruct (Z.eqb_spec (nr - 1) 0); [lia|]. specialize (IH (nr - 1) ltac:(lia) ltac:(lia)).
    destruct (__wake_up_common _ _ _ q). cbn in *. by rewrite IH.
  - specialize (IH nr ltac:(lia) ltac:(lia)). destruct (__wake_up_common _ _ _ q). cbn in *. by rewrite IH.
Qed.

(** *** Results *)

Lemma success_result c t : c <> TryWait -> 0 <= t <= MAX_SCHEDULE_TIMEOUT ->
  succeeded (c, wait_result c (if t =? 0 then 1 else t)) = true.
Proof.
  unfold MAX_SCHEDULE_TIMEOUT. intros Hc Ht. set (r := if t =? 0 then 1 else t).
  assert (0 < r <= 2147483647) as Hr by (unfold r; destruct (Z.eqb_spec t 0); lia).
  assert ((r =? - ERESTARTSYS) = false) as He by (apply Z.eqb_neq; unfold ERESTARTSYS; lia).
  destruct c; cbn [succeeded wait_result fst snd]; rewrite ?He, ?u32_id by lia; (done || apply Z.ltb_lt; lia).
Qed.

Lemma interrupted_result c g : c <> TryWait -> signal_pending_state (wait_state c) g = true ->
  succeeded (c, wait_result c (- ERESTARTSYS)) = false.
Proof. by destruct c. Qed.

Lemma timeout_result c : wait_limit c <> MAX_SCHEDULE_TIMEOUT -> succeeded (c, wait_result c 0) = false.
Proof. by destruct c. Qed.

Lemma wait_limit_range c : call_ok c -> 0 <= wait_limit c <= MAX_SCHEDULE_TIMEOUT.
Proof.
  unfold MAX_SCHEDULE_TIMEOUT. destruct c; cbn; unfold MAX_SCHEDULE_TIMEOUT; intros; rewrite ?s32_id by lia; lia.
Qed.

Lemma waiter_ok_waits c task ps tmo :
  call_ok c -> c <> TryWait -> ps = TASK_RUNNING \/ ps = wait_state c -> 0 <= tmo <= MAX_SCHEDULE_TIMEOUT ->
  (wait_limit c = MAX_SCHEDULE_TIMEOUT -> tmo = MAX_SCHEDULE_TIMEOUT) ->
  waiter_ok (MkWaiter WQ_FLAG_EXCLUSIVE task ps c tmo).
Proof. intros. unfold waiter_ok. cbn. tauto. Qed.

(** *** The sections *)

Lemma wait_round_ok c task tmo g l1 w l2 :
  comp_ok (MkCompl 0 (l1 ++ w :: l2)) -> w_task w = task -> w_flags w = WQ_FLAG_EXCLUSIVE -> asleep w = false ->
  call_ok c -> c <> TryWait -> 0 <= tmo <= MAX_SCHEDULE_TIMEOUT ->
  (wait_limit c = MAX_SCHEDULE_TIMEOUT -> tmo = MAX_SCHEDULE_TIMEOUT) ->
  exists r x, wait_round c task tmo g (MkCompl 0 (l1 ++ w :: l2)) = (r, x) /\ comp_ok x /\ done x = 0 /\
    match r with Some t => succeeded (c, wait_result c t) = false | None => True end.
Proof.
  intros Hx <- Hf Ha Hc Hn Ht Hm. pose proof (co_tasks _ Hx) as Hnd. cbn [wait] in Hnd. unfold wait_round.
  destruct (signal_pending_state (wait_state c) g) eqn:Es.
  - unfold wait_leave. cbn [done wait Z.eqb]. rewrite remove_split by done. eexists _, _. split; [reflexivity|].
    split; [by apply (comp_ok_remove 0 0 l1 w l2); [..|lia|right]|]. split; [done|]. by eapply interrupted_result.
  - eexists _, _. split; [reflexivity|]. cbn [done wait]. rewrite update_split by done. split; [|done].
    rewrite Hf. unfold schedule_state. destruct (Z.ltb_spec tmo 0); [lia|].
    apply (comp_ok_replace 0 l1 w); [done| |done|by left]. apply waiter_ok_waits; auto.
Qed.

Lemma wait_for_common_ok c task g x :
  comp_ok x -> task ∉ w_task <$> wait x -> call_ok c -> c <> TryWait ->
  exists r x', wait_for_common c task g x = (r, x') /\ comp_ok x' /\
    done x' + match r with Some t => zbool (succeeded (c, wait_result c t)) | None => 0 end = done x.
Proof.
  intros Hx Hni Hc Hn. destruct x as [d q]. unfold wait_for_common. cbn [done wait] in *. destruct (Z.eqb_spec d 0) as [->|Hd].
  - set (w := MkWaiter WQ_FLAG_EXCLUSIVE task TASK_RUNNING c (wait_limit c)).
    assert (waiter_ok w) as Hw by (apply waiter_ok_waits; auto using wait_limit_range).
    pose proof (wait_limit_range c Hc).
    destruct (wait_round_ok c task (wait_limit c) g q w []) as (r & x & E & Hok & Hd & Hr); auto.
    { by apply comp_ok_append. }
    exists r, x. split; [exact E|]. split; [done|]. rewrite Hd. destruct r as [t|]; [by rewrite Hr|done].
  - destruct (co_done _ Hx) as [Hd0 Hd1]. cbn [done] in *. eexists _, _. split; [reflexivity|]. cbn [done wait].
    rewrite u32_id by lia. split; [apply (comp_ok_less d); [done|lia]|].
    rewrite success_result by auto using wait_limit_range. cbn [zbool]. lia.
Qed.

Lemma slept_range tmo t : 0 <= tmo <= MAX_SCHEDULE_TIMEOUT -> slept tmo t = true ->
  0 <= t <= MAX_SCHEDULE_TIMEOUT /\ (tmo = MAX_SCHEDULE_TIMEOUT -> t = MAX_SCHEDULE_TIMEOUT).
Proof.
  unfold slept. intros H. destruct (Z.eqb_spec tmo MAX_SCHEDULE_TIMEOUT); [intros ->%Z.eqb_eq; lia|].
  destruct (Z.ltb_spec tmo 0); [lia|]. intros [?%Z.leb_le ?%Z.leb_le]%andb_true_iff. lia.
Qed.

Lemma wait_wake_ok d l1 w l2 t g :
  comp_ok (MkCompl d (l1 ++ w :: l2)) -> asleep w = false -> slept (w_timeout w) t = true ->
  exists r x, wait_wake (w_call w) (w_task w) t g (MkCompl d (l1 ++ w :: l2)) = (r, x) /\ comp_ok x /\
    (d <> 0 -> x = MkCompl (d - 1) (l1 ++ l2) /\ exists t', r = Some t' /\ succeeded (w_call w, wait_result (w_call w) t') = true) /\
    (d = 0 -> done x = 0 /\ match r with Some t => succeeded (w_call w, wait_result (w_call w) t) = false | None => True end).
Proof.
  intros Hx Ha Hs. pose proof (co_tasks _ Hx) as Hnd. cbn [wait] in Hnd. unfold wait_wake. cbn [done].
  assert (waiter_ok w) as (Hf & _ & Ht & Hm & Hc & Hn).
  { pose proof (co_waiters _ Hx) as H. cbn [wait] in H. apply Forall_app in H as [_ H]. by apply Forall_cons in H as [H _]. }
  destruct (slept_range _ _ Ht Hs) as [Ht' Hm']. destruct (Z.eqb_spec d 0) as [->|Hd]; cbn [andb].
  - destruct (Z.eqb_spec t 0) as [->|Ht0]; cbn [negb].
    + unfold wait_leave. cbn [done wait Z.eqb]. rewrite remove_split by done. eexists _, _. split; [reflexivity|].
      split; [by apply (comp_ok_remove 0 0 l1 w l2); [..|lia|right]|]. split; [done|]. intros _. split; [done|].
      apply timeout_result. intros E. specialize (Hm' (Hm E)). done.
    + destruct (wait_round_ok (w_call w) (w_task w) t g l1 w l2) as (r & x & E & Hok & Hd & Hr); auto.
      exists r, x. by split_and!.
  - destruct (co_done _ Hx) as [Hd0 Hd1]. cbn [done] in *. unfold wait_leave. cbn [done wait].
    destruct (Z.eqb_spec d 0); [done|]. rewrite remove_split by done. unfold wait_done. cbn [done wait]. rewrite u32_id by lia.
    eexists _, _. split; [reflexivity|]. split; [apply (comp_ok_remove d _ l1 w l2); (done || lia)|].
    split; [|lia]. intros _. split; [done|]. eexists. split; [reflexivity|]. by apply success_result.
Qed.

Lemma u32_less n : 0 <= n -> 0 <= u32 n < 4294967296 /\ u32 n <= n.
Proof. intros Hn. split; [apply (wrapu_range 32); lia|]. unfold u32, wrapu. apply Z.mod_le; lia. Qed.

Lemma complete_ok loc wloc addr x :
  comp_ok x -> comp_ok (complete loc wloc addr x).2 /\ done (complete loc wloc addr x).2 = u32 (done x + 1).
Proof.
  intros Hx. destruct x as [d q]. cbn [done] in *. destruct (co_done _ Hx) as [Hd _]. cbn [done] in Hd.
  unfold complete. cbn [done wait]. pose proof (wake_one wloc q (co_waiters _ Hx)) as Hw.
  destruct (__wake_up_common wloc TASK_NORMAL 1 q) as [q' evs]. cbn [fst snd done] in *. split; [|done]. destruct (u32_less (d + 1)) as [Hu Hle]; [lia|].
  destruct Hx as [Hd1 Hok Ht Hk]. cbn [done wait] in *.
  destruct Hw as [[-> Hall]|(l1 & w & l2 & -> & _ & Ha & ->)].
  - split; cbn [done wait]; [lia|done|done|]. intros He. apply Exists_exists in He as (w & Hin & Hw).
    apply (proj1 (Forall_forall _ _) Hall) in Hin. congruence.
  - apply Forall_app in Hok as [Hok1 Hok2]. apply Forall_cons in Hok2 as [Hokw Hok2].
    split; cbn [done wait].
    + lia.
    + apply Forall_app. split; [done|]. constructor; [by apply set_pstate_ok|done].
    + by rewrite fmap_app, fmap_cons in *.
    + intros _. rewrite awake_count_app, awake_count_cons in *. rewrite Ha in Hk. change (asleep (set_pstate TASK_RUNNING w)) with false.
      cbn [negb zbool] in *. assert (d <= awake_count l1 + (0 + awake_count l2)); [|lia].
      apply Hk, Exists_app. right. by apply Exists_cons_hd.
Qed.

Lemma complete_all_ok loc wloc addr x :
  comp_ok x -> Z.of_nat (length (wait x)) <= 2147483648 ->
  (complete_all loc wloc addr x).2 = MkCompl (u32 (done x + UINT_MAX / 2)) (set_pstate TASK_RUNNING <$> wait x) /\
  comp_ok (complete_all loc wloc addr x).2.
Proof.
  intros Hx Hl. destruct x as [d q]. cbn [done wait] in *. destruct (co_done _ Hx) as [Hd _]. cbn [done] in Hd.
  unfold complete_all. cbn [done wait]. pose proof (wake_every wloc 0 q (co_waiters _ Hx) ltac:(lia) ltac:(lia)) as Hw.
  destruct (__wake_up_common wloc TASK_NORMAL 0 q) as [q' evs]. cbn [fst snd] in *. subst q'.
  change (UINT_MAX / 2) with 2147483647 in *. destruct (u32_less (d + 2147483647)) as [Hu _]; [lia|]. split; [done|].
  destruct Hx as [Hd1 Hok Ht Hk]. cbn [done wait] in *. split; cbn [done wait].
  - lia.
  - apply Forall_fmap. eapply Forall_impl; [exact Hok|]. apply set_pstate_ok.
  - by rewrite <- list_fmap_compose.
  - intros He. exfalso. apply Exists_fmap in He. apply Exists_exists in He as (w & _ & Hw). done.
Qed.

(** *** Steps and runs *)

Lemma wake_up_length loc mode nr q : length (__wake_up_common loc mode nr q).1 = length q.
Proof.
  revert nr. induction q as [|w q IH]; intros nr; [done|]. cbn [__wake_up_common].
  destruct (default_wake_function loc mode w) as [[b w'] ev].
  pose proof (IH (s32 (nr - 1))). pose proof (IH nr).
  destruct (__wake_up_common loc mode (s32 (nr - 1)) q), (__wake_up_common loc mode nr q). cbn in *.
  repeat case_match; cbn; lia.
Qed.

Lemma remove_length task q : (length (__remove_wait_queue task q) <= length q)%nat.
Proof. apply length_filter. Qed.

Lemma wait_leave_length task t x : (length (wait (wait_leave task t x).2) <= length (wait x))%nat.
Proof. unfold wait_leave, wait_done. case_match; cbn [snd wait done]; apply remove_length. Qed.

Lemma wait_round_length c task t g x : (length (wait (wait_round c task t g x).2) <= length (wait x))%nat.
Proof.
  unfold wait_round. pose proof (wait_leave_length task (- ERESTARTSYS) x). destruct (wait_leave _ _ _). case_match; [done|].
  cbn [snd wait]. by rewrite length_fmap.
Qed.

Context (addr wloc : Z).

Lemma comp_step_length l s r s' :
  comp_step addr wloc l s = Some (r, s') -> (length (wait (sys_x s')) <= S (length (wait (sys_x s))))%nat.
Proof.
  destruct l as [c loc task g|loc|loc|task|task t g]; cbn [comp_step].
  - destruct (find_waiter _ _); [done|]. destruct (decide (c = TryWait)) as [->|Hc].
    { unfold try_wait_for_completion. destruct (done (sys_x s) =? 0); intros E; injection E as _ <-; cbn; lia. }
    assert ((length (wait (wait_for_common c task g (sys_x s)).2) <= S (length (wait (sys_x s))))%nat) as H.
    { unfold wait_for_common. destruct (done (sys_x s) =? 0); [|cbn; lia]. etrans; [apply wait_round_length|]. cbn [wait]. rewrite length_app. cbn. lia. }
    destruct c; try (by destruct Hc); intros E; injection E as _ <-; done.
  - unfold complete. pose proof (wake_up_length wloc TASK_NORMAL 1 (wait (sys_x s))). destruct (__wake_up_common _ _ _ _).
    intros [= _ <-]. cbn in *. lia.
  - unfold complete_all. pose proof (wake_up_length wloc TASK_NORMAL 0 (wait (sys_x s))). destruct (__wake_up_common _ _ _ _).
    intros [= _ <-]. cbn in *. lia.
  - intros [= _ <-]. cbn. rewrite length_fmap. lia.
  - destruct (find_waiter _ _); [|done]. cbn [mbind option_bind]. case_match; [|done]. intros [= _ <-]. cbn [sys_x].
    unfold wait_wake. case_match; [etrans; [apply wait_round_length|lia]|].
    pose proof (wait_leave_length task t (sys_x s)). destruct (wait_leave _ _ _). cbn in *. lia.
Qed.

Lemma step_wait_ok c loc task g s r s' :
  comp_ok (sys_x s) -> call_ok c -> comp_step addr wloc (CWait c loc task g) s = Some (r, s') ->
  comp_ok (sys_x s') /\ done (sys_x s') + taken r = done (sys_x s).
Proof.
  intros Hx Hc. cbn [comp_step]. destruct (find_waiter _ _) eqn:Ef; [done|]. apply find_waiter_None in Ef.
  destruct (decide (c = TryWait)) as [->|Hn].
  { destruct (sys_x s) as [d q]. destruct (co_done _ Hx) as [Hd Hd']. unfold try_wait_for_completion. cbn [done wait] in *.
    destruct (Z.eqb_spec d 0); intros [= <- <-]; cbn [sys_x done wait taken]; [split; [done|cbn; lia]|].
    rewrite u32_id by lia. split; [apply (comp_ok_less d); [done|lia]|cbn; lia]. }
  destruct (wait_for_common_ok c task g (sys_x s) Hx Ef Hc Hn) as (r0 & x' & E & Hok & Hd).
  destruct c; try (by destruct Hn); rewrite E; intros E1; injection E1 as <- <-; (split; [done|]); destruct r0; exact Hd.
Qed.

Lemma step_run_ok task t g s r s' :
  comp_ok (sys_x s) -> comp_step addr wloc (CRun task t g) s = Some (r, s') ->
  comp_ok (sys_x s') /\ done (sys_x s') + taken r = done (sys_x s).
Proof.
  intros Hx. cbn [comp_step]. destruct (find_waiter _ _) as [w|] eqn:Ef; [|done]. cbn [mbind option_bind].
  apply find_waiter_split in Ef as (l1 & l2 & Eq & <-). destruct (sys_x s) as [d q]. cbn [wait] in Eq. subst q.
  destruct ((w_pstate w =? TASK_RUNNING) && slept (w_timeout w) t) eqn:Ea; [|done]. apply andb_true_iff in Ea as [Ea Es].
  destruct (wait_wake_ok d l1 w l2 t g Hx ltac:(unfold asleep; by rewrite Ea) Es) as (r0 & x & E & Hok & H1 & H2).
  rewrite E. intros [= <- <-]. cbn [sys_x fst snd done]. split; [done|]. destruct (Z.eq_dec d 0) as [->|Hd].
  - destruct (H2 eq_refl) as [-> Hr]. destruct r0; cbn [taken]; [by rewrite Hr|done].
  - destruct (H1 Hd) as (-> & t' & -> & Hs). cbn [taken done]. rewrite Hs. cbn. lia.
Qed.

Lemma step_wakeup_ok task s : comp_ok (sys_x s) ->
  comp_ok (MkCompl (done (sys_x s)) ((fun w => if w_task w =? task then set_pstate TASK_RUNNING w else w) <$> wait (sys_x s))).
Proof.
  intros Hx. destruct (sys_x s) as [d q]. cbn [done wait]. destruct (decide (task ∈ w_task <$> q)) as [Hin|Hni].
  - apply list_elem_of_fmap in Hin as (w & -> & (l1 & l2 & ->)%list_elem_of_split).
    rewrite update_split by apply (co_tasks _ Hx). apply (comp_ok_replace d l1 w); [done| |done|by right].
    apply set_pstate_ok. pose proof (co_waiters _ Hx) as H. cbn [wait] in H. apply Forall_app in H as [_ H]. by apply Forall_cons in H as [H _].
  - replace (_ <$> q) with q; [done|]. symmetry. rewrite <- (list_fmap_id q) at 2. apply list_fmap_ext. intros i w Hw.
    destruct (Z.eqb_spec (w_task w) task) as [<-|]; [|done]. destruct Hni. apply list_elem_of_fmap_2. by apply list_elem_of_lookup_2 in Hw.
Qed.

Lemma comp_step_ok l s r s' :
  comp_ok (sys_x s) -> label_ok l -> Z.of_nat (length (wait (sys_x s))) <= 2147483648 ->
  comp_step addr wloc l s = Some (r, s') ->
  comp_ok (sys_x s') /\ done (sys_x s') + taken r = u32 (done (sys_x s) + credit l).
Proof.
  intros Hx Hl Hlen E. pose proof (co_done _ Hx) as Hd.
  assert (u32 (done (sys_x s) + 0) = done (sys_x s)) as H0 by (rewrite Z.add_0_r; apply u32_id; lia). destruct l as [c loc task g|loc|loc|task|task t g]; cbn [credit label_ok] in *.
  - rewrite H0. by eapply step_wait_ok.
  - cbn [comp_step] in E. pose proof (complete_ok loc wloc addr (sys_x s) Hx) as H.
    destruct (complete loc wloc addr (sys_x s)). injection E as <- <-. cbn [sys_x taken snd] in *. rewrite Z.add_0_r. exact H.
  - cbn [comp_step] in E. destruct (complete_all_ok loc wloc addr (sys_x s) Hx Hlen) as [H1 H2].
    destruct (complete_all loc wloc addr (sys_x s)). injection E as <- <-. cbn [sys_x taken snd] in *. rewrite Z.add_0_r. split; [done|]. by rewrite H1.
  - cbn [comp_step] in E. injection E as <- <-. cbn [sys_x taken done]. rewrite H0. split; [by apply step_wakeup_ok|lia].
  - rewrite H0. by eapply step_run_ok.
Qed.

Lemma total_credit_nonneg ls : 0 <= total_credit ls.
Proof.
  induction ls as [|l ls IH]; [done|]. change (total_credit (l :: ls)) with (credit l + total_credit ls).
  assert (0 <= credit l) by (destruct l; done). lia.
Qed.

Lemma taken_nonneg r : 0 <= taken r.
Proof. destruct r as [cr|]; [|done]. cbn. by destruct (succeeded cr). Qed.

Lemma u32_add_l a b : u32 (u32 a + b) = u32 (a + b).
Proof. unfold u32, wrapu. apply Zplus_mod_idemp_l. Qed.

Lemma comp_run_ok ls s rs s' :
  comp_ok (sys_x s) -> Forall label_ok ls -> Z.of_nat (length (wait (sys_x s))) + Z.of_nat (length ls) <= 2147483648 ->
  comp_run addr wloc ls s = Some (rs, s') ->
  comp_ok (sys_x s') /\ u32 (done (sys_x s') + total_taken rs) = u32 (done (sys_x s) + total_credit ls) /\
  (done (sys_x s) + total_credit ls < 4294967296 -> done (sys_x s') + total_taken rs = done (sys_x s) + total_credit ls).
Proof.
  intros Hx Hl. revert s rs Hx. induction Hl as [|l ls Hlo Hls IH]; intros s rs Hx Hlen E.
  { cbn in E. injection E as <- <-. split; [done|]. split; [done|]. cbn. lia. }
  cbn [comp_run] in E. destruct (comp_step addr wloc l s) as [[r s1]|] eqn:E1; [|done]. cbn [mbind option_bind] in E.
  destruct (comp_run addr wloc ls s1) as [[rs1 s2]|] eqn:E2; [|done]. cbn [mbind option_bind] in E. injection E as <- <-.
  change (total_credit (l :: ls)) with (credit l + total_credit ls) in *.
  change (total_taken (r :: rs1)) with (taken r + total_taken rs1). cbn [length] in Hlen.
  pose proof (total_credit_nonneg ls). pose proof (taken_nonneg r). pose proof (comp_step_length _ _ _ _ E1).
  destruct (comp_step_ok _ _ _ _ Hx Hlo ltac:(lia) E1) as [Hx1 Hd1].
  destruct (IH s1 rs1 Hx1 ltac:(lia) E2) as (Hx2 & Hm2 & Hd2). split; [done|]. split.
  - replace (done (sys_x s2) + (taken r + total_taken rs1)) with (done (sys_x s2) + total_taken rs1 + taken r) by lia.
    rewrite <- u32_add_l, Hm2, u32_add_l.
    replace (done (sys_x s1) + total_credit ls + taken r) with (done (sys_x s1) + taken r + total_credit ls) by lia.
    rewrite Hd1, u32_add_l. f_equal. lia.
  - intros Hb. assert (0 <= credit l) by (by destruct l). pose proof (co_done _ Hx).
    rewrite u32_id in Hd1 by lia. specialize (Hd2 ltac:(lia)). lia.
Qed.

Lemma comp_boot_ok : comp_ok (sys_x comp_boot).
Proof. split; cbn; [lia|constructor|constructor|by intros ?%Exists_nil]. Qed.
End completion_proofs.

(** C21: In every run of at most 2^31 steps from an initialised completion
    (timeouts are not negative), the value of [done] is what [complete] (1
    each) and [complete_all] (2^31 - 1 each) have added, less the calls whose result tells the caller
    that there was a completion (for [wait_for_completion], every call that
    returns), in 32 bits. As long as less than 2^32 was added, no completion
    is lost or duplicated: [done] and those calls add up to what was added.
    Beyond that the count wraps around and completions are lost
    ([complete_all_wraps]). A call that was interrupted or timed out takes
    nothing. *)
Theorem completion_counts (addr wloc : Z) (ls : list comp_label) (rs : list (option (call * Z))) (s' : comp_sys) :
  Forall label_ok ls -> Z.of_nat (length ls) <= 2147483648 ->
  comp_run addr wloc ls comp_boot = Some (rs, s') ->
  done (sys_x s') = u32 (total_credit ls - total_taken rs) /\
  (total_credit ls < 4294967296 -> done (sys_x s') + total_taken rs = total_credit ls).
Proof.
  intros Hl Hlen E. destruct (comp_run_ok addr wloc ls comp_boot rs s' comp_boot_ok Hl ltac:(cbn; lia) E) as (Hx & Hm & Hd).
  cbn [comp_boot sys_x done] in Hm, Hd. rewrite Z.add_0_l in Hm, Hd. split; [|done]. pose proof (co_done _ Hx).
  replace (total_credit ls - total_taken rs) with (total_credit ls + - total_taken rs) by lia.
  rewrite <- u32_add_l, <- Hm, u32_add_l, u32_id by lia. lia.
Qed.

(** Three tasks wait, one of them is interrupted and one times out after the
    completion it was woken for was taken by a fourth one. *)
Definition sample_comp : list comp_label :=
  [CWait WaitKillable 8 1 no_sig; CWait (WaitTimeout 10) 8 2 no_sig; CWait WaitInterruptible 8 3 no_sig;
   CWakeup 3; CRun 3 2147483647 (MkSig true false); CWakeup 1; CComplete 16; CWait TryWait 8 4 no_sig;
   CRun 2 0 no_sig; CComplete 16; CRun 1 2147483647 no_sig].

Definition sample_results : list (option (call * Z)) :=
  [None; None; None; None; Some (WaitInterruptible, -512); None; None; Some (TryWait, 1);
   Some (WaitTimeout 10, 0); None; Some (WaitKillable, 0)].

Lemma completion_counts_witness :
  exists s', comp_run 4096 24 sample_comp comp_boot = Some (sample_results, s') /\
    done (sys_x s') = u32 (total_credit sample_comp - total_taken sample_results) /\
    done (sys_x s') + total_taken sample_results = total_credit sample_comp.
Proof.
  eexists. split; [vm_compute; reflexivity|].
  edestruct (completion_counts 4096 24 sample_comp sample_results) as [H1 H2].
  - repeat constructor; vm_compute; discriminate.
  - vm_compute. discriminate.
  - vm_compute. reflexivity.
  - split; [exact H1|exact (H2 eq_refl)].
Defined.

(** C26: no wake-up is lost, in runs of at most 2^31 steps with timeouts that
    are not negative. Whenever a task sleeps in a completion although
    [done] is not 0, there are at least as many waiters already woken as [done] says, and
    any of them that runs returns with a completion, whatever signals it has
    and even if its timeout has expired. *)
Theorem completion_no_lost_wakeup (addr wloc : Z) (ls : list comp_label) (rs : list (option (call * Z)))
    (s : comp_sys) (w : waiter) :
  Forall label_ok ls -> Z.of_nat (length ls) <= 2147483648 ->
  comp_run addr wloc ls comp_boot = Some (rs, s) ->
  w ∈ wait (sys_x s) -> asleep w = true -> 0 < done (sys_x s) ->
  done (sys_x s) <= awake_count (wait (sys_x s)) /\
  (exists v, v ∈ wait (sys_x s) /\ asleep v = false) /\
  (forall v t g, v ∈ wait (sys_x s) -> asleep v = false -> slept (w_timeout v) t = true ->
     exists r s', comp_step addr wloc (CRun (w_task v) t g) s = Some (Some (w_call v, r), s') /\
       succeeded (w_call v, r) = true).
Proof.
  intros Hl Hlen E Hw Ha Hd.
  destruct (comp_run_ok addr wloc ls comp_boot rs s comp_boot_ok Hl ltac:(cbn; lia) E) as [Hx _].
  assert (done (sys_x s) <= awake_count (wait (sys_x s))) as Hk by (apply (co_wake _ Hx), Exists_exists; eauto).
  split; [done|]. split.
  - unfold awake_count in Hk. destruct (filter (fun w => asleep w = false) (wait (sys_x s))) as [|v l] eqn:Ef; [cbn in Hk; lia|].
    exists v. assert (v ∈ filter (fun w => asleep w = false) (wait (sys_x s))) as Hv by (rewrite Ef; by left).
    apply list_elem_of_filter in Hv. tauto.
  - intros v t g (l1 & l2 & Eq)%list_elem_of_split Hv Hs. destruct s as [[d q] evs]. cbn [sys_x done wait] in *. subst q.
    cbn [comp_step sys_x wait]. rewrite find_waiter_eq by apply (co_tasks _ Hx). cbn [mbind option_bind].
    rewrite Hs. unfold asleep in Hv. apply negb_false_iff in Hv as Hv'. rewrite Hv'. cbn [andb].
    destruct (wait_wake_ok d l1 v l2 t g Hx Hv Hs) as (r & x & Ew & _ & H1 & _). rewrite Ew.
    destruct (H1 ltac:(lia)) as (_ & t' & -> & Hsucc). eexists _, _. split; [reflexivity|done].
Qed.

(** Two sleepers; one was woken by a timer when the completion comes, so the
    other one is woken for it. *)
Definition sample_woken : list comp_label :=
  [CWait (WaitTimeout 10) 8 1 no_sig; CWait Wait 8 2 no_sig; CWait Wait 8 3 no_sig; CWakeup 1; CComplete 16].

Lemma completion_no_lost_wakeup_witness :
  exists rs s, comp_run 4096 24 sample_woken comp_boot = Some (rs, s) /\
  done (sys_x s) <= awake_count (wait (sys_x s)) /\
  (exists v, v ∈ wait (sys_x s) /\ asleep v = false) /\
  (forall v t g, v ∈ wait (sys_x s) -> asleep v = false -> slept (w_timeout v) t = true ->
     exists r s', comp_step 4096 24 (CRun (w_task v) t g) s = Some (Some (w_call v, r), s') /\
       succeeded (w_call v, r) = true).
Proof.
  eexists. eexists. split; [vm_compute; reflexivity|].
  eapply (completion_no_lost_wakeup 4096 24 sample_woken _ _ (MkWaiter 1 3 2 Wait 2147483647)).
  - repeat constructor; vm_compute; discriminate.
  - vm_compute. discriminate.
  - vm_compute. reflexivity.
  - cbn [sys_x wait]. right. right. left.
  - reflexivity.
  - reflexivity.
Defined.

(** [complete] wakes the task that has slept longest, and no other one. If
    it runs next, it returns with the completion. *)
Theorem complete_wakes_first (addr wloc loc d : Z) (l1 l2 : list waiter) (w : waiter) (evs : list tp_event) :
  comp_ok (MkCompl d (l1 ++ w :: l2)) -> d + 1 < 4294967296 -> Forall (fun v => asleep v = false) l1 -> asleep w = true ->
  exists s1, comp_step addr wloc (CComplete loc) (MkCSys (MkCompl d (l1 ++ w :: l2)) evs) = Some (None, s1) /\
    sys_x s1 = MkCompl (d + 1) (l1 ++ set_pstate TASK_RUNNING w :: l2) /\
    forall t g, slept (w_timeout w) t = true ->
      exists r s2, comp_step addr wloc (CRun (w_task w) t g) s1 = Some (Some (w_call w, r), s2) /\
        succeeded (w_call w, r) = true /\ sys_x s2 = MkCompl d (l1 ++ l2).
Proof.
  intros Hx Hd H1 Ha. destruct (complete_ok loc wloc addr _ Hx) as [Hok _]. cbn [comp_step sys_x].
  destruct (co_done _ Hx) as [Hd0 _]. cbn [done] in Hd0.
  assert ((complete loc wloc addr (MkCompl d (l1 ++ w :: l2))).2 = MkCompl (d + 1) (l1 ++ set_pstate TASK_RUNNING w :: l2)) as E.
  { unfold complete. cbn [wait done]. pose proof (wake_one wloc _ (co_waiters _ Hx)) as Hw. cbn [wait] in Hw.
    destruct (__wake_up_common _ _ _ _) as [q' evs']. cbn [fst snd] in *. rewrite u32_id by lia. f_equal.
    destruct Hw as [[_ Hall]|(k1 & v & k2 & Eq & Hk & Hv & ->)].
    - apply Forall_app in Hall as [_ Hall]. apply Forall_cons in Hall as [? _]. congruence.
    - destruct (first_split _ _ _ _ _ _ _ Eq H1 Hk ltac:(congruence) ltac:(congruence)) as (-> & -> & ->). done. }
  destruct (complete loc wloc addr _) as [evs' x]. cbn [snd] in *. subst x. eexists. split; [reflexivity|]. split; [done|].
  intros t g Hs. cbn [comp_step sys_x wait]. change (w_task w) with (w_task (set_pstate TASK_RUNNING w)).
  rewrite find_waiter_eq by apply (co_tasks _ Hok). cbn [mbind option_bind set_pstate w_pstate w_timeout Z.eqb andb]. rewrite Hs.
  destruct (wait_wake_ok (d + 1) l1 (set_pstate TASK_RUNNING w) l2 t g Hok eq_refl Hs) as (r & x & Ew & _ & Hr & _).
  destruct (Hr ltac:(lia)) as (-> & t' & -> & Hsucc). cbn [w_call w_task set_pstate] in *. rewrite Ew.
  eexists _, _. split; [reflexivity|]. split; [exact Hsucc|]. cbn [snd sys_x]. f_equal. lia.
Qed.

Definition sleeper (task : Z) : waiter := MkWaiter 1 task 2 Wait 2147483647.
Definition timed_out (task : Z) : waiter := MkWaiter 1 task 0 (WaitTimeout 10) 5.

Lemma sample_queue_ok : comp_ok (MkCompl 0 [timed_out 1; sleeper 2; sleeper 3]).
Proof.
  split; cbn [done wait].
  - lia.
  - repeat constructor; cbn; unfold MAX_SCHEDULE_TIMEOUT; auto; try done; lia.
  - apply (bool_decide_unpack _). vm_compute. exact I.
  - intros _. vm_compute. discriminate.
Qed.

Lemma complete_wakes_first_witness :
  exists s1, comp_step 4096 24 (CComplete 16) (MkCSys (MkCompl 0 [timed_out 1; sleeper 2; sleeper 3]) []) = Some (None, s1) /\
    sys_x s1 = MkCompl 1 [timed_out 1; set_pstate TASK_RUNNING (sleeper 2); sleeper 3] /\
    forall t g, slept 2147483647 t = true ->
      exists r s2, comp_step 4096 24 (CRun 2 t g) s1 = Some (Some (Wait, r), s2) /\
        succeeded (Wait, r) = true /\ sys_x s2 = MkCompl 0 [timed_out 1; sleeper 3].
Proof.
  apply (complete_wakes_first 4096 24 16 0 [timed_out 1] [sleeper 3] (sleeper 2) []).
  - exact sample_queue_ok.
  - lia.
  - by repeat constructor.
  - reflexivity.
Defined.

Section complete_all.
Context (addr wloc : Z) (tm : Z -> Z) (sg : Z -> signals).

(** The awake waiters of a completion that has enough for all of them run in
    any order: all succeed. *)
Lemma run_waiters order d q evs :
  comp_ok (MkCompl d q) -> Permutation order (w_task <$> q) -> Forall (fun w => asleep w = false) q ->
  Forall (fun w => slept (w_timeout w) (tm (w_task w)) = true) q -> Z.of_nat (length q) <= d ->
  exists rs s', comp_run addr wloc ((fun k => CRun k (tm k) (sg k)) <$> order) (MkCSys (MkCompl d q) evs) = Some (rs, s') /\
    Forall (fun r => exists cr, r = Some cr /\ succeeded cr = true) rs /\ sys_x s' = MkCompl (d - Z.of_nat (length q)) [].
Proof.
  revert d q evs. induction order as [|k order IH]; intros d q evs Hx Hp Ha Hs Hd.
  { apply Permutation_nil in Hp. destruct q; [|done]. eexists [], _. split; [reflexivity|]. split; [constructor|]. cbn. f_equal. lia. }
  assert (k ∈ w_task <$> q) as (w & -> & (l1 & l2 & ->)%list_elem_of_split)%list_elem_of_fmap by (rewrite <- Hp; by left).
  apply Forall_app in Ha as [Ha1 Ha2]. apply Forall_cons in Ha2 as [Haw Ha2].
  apply Forall_app in Hs as [Hs1 Hs2]. apply Forall_cons in Hs2 as [Hsw Hs2].
  rewrite length_app in *. cbn [length] in *.
  destruct (wait_wake_ok d l1 w l2 _ (sg (w_task w)) Hx Haw Hsw) as (r & x & Ew & Hok & Hr & _).
  destruct (Hr ltac:(lia)) as (-> & t' & -> & Hsucc).
  destruct (IH (d - 1) (l1 ++ l2) (evs ++ [])) as (rs & s' & Erun & Hrs & Es').
  - done.
  - apply (Permutation_cons_inv (a := w_task w)). rewrite Hp, !fmap_app, fmap_cons. by rewrite Permutation_middle.
  - by apply Forall_app.
  - by apply Forall_app.
  - rewrite length_app. lia.
  - rewrite fmap_cons. cbn [comp_run comp_step sys_x wait]. rewrite find_waiter_eq by apply (co_tasks _ Hx).
    cbn [mbind option_bind]. unfold asleep in Haw. apply negb_false_iff in Haw. rewrite Haw, Hsw. cbn [andb]. rewrite Ew.
    cbn [fst snd comp_events mbind option_bind]. rewrite Erun. cbn [mbind option_bind]. eexists _, s'. split; [reflexivity|]. split.
    + constructor; [eauto|done].
    + rewrite Es', length_app. f_equal. lia.
Qed.

End complete_all.

(** [complete_all] releases every task that waits: whatever the order in
    which they run afterwards, and whatever signals and timeouts they have met,
    all their calls succeed, nobody is left on the queue, and the completion
    stays completed for later calls. *)
Theorem complete_all_releases (addr wloc loc : Z) (tm : Z -> Z) (sg : Z -> signals) (order : list Z)
    (x : completion) (evs : list tp_event) :
  comp_ok x -> Z.of_nat (length (wait x)) < UINT_MAX / 2 -> done x + UINT_MAX / 2 < 4294967296 ->
  Permutation order (w_task <$> wait x) ->
  Forall (fun w => slept (w_timeout w) (tm (w_task w)) = true) (wait x) ->
  exists s1 rs s2, comp_step addr wloc (CCompleteAll loc) (MkCSys x evs) = Some (None, s1) /\
    comp_run addr wloc ((fun k => CRun k (tm k) (sg k)) <$> order) s1 = Some (rs, s2) /\
    Forall (fun r => exists cr, r = Some cr /\ succeeded cr = true) rs /\
    wait (sys_x s2) = [] /\ completion_done (sys_x s2) = 1.
Proof.
  change (UINT_MAX / 2) with 2147483647. intros Hx Hl Hd Hp Hs.
  destruct (complete_all_ok loc wloc addr x Hx ltac:(lia)) as [E Hok].
  change (UINT_MAX / 2) with 2147483647 in E. pose proof (co_done _ Hx). rewrite u32_id in E by lia. cbn [comp_step sys_x comp_events].
  destruct (complete_all loc wloc addr x) as [evs' x']. cbn [snd] in *. subst x'. change (UINT_MAX / 2) with 2147483647 in *.
  destruct (co_done _ Hx) as [Hd0 _].
  destruct (run_waiters addr wloc tm sg order (done x + 2147483647) (set_pstate TASK_RUNNING <$> wait x) (evs ++ evs'))
    as (rs & s2 & Erun & Hrs & Es2).
  - done.
  - by rewrite <- list_fmap_compose.
  - apply Forall_fmap. by apply Forall_true.
  - by apply Forall_fmap.
  - rewrite length_fmap. lia.
  - eexists _, rs, s2. split; [reflexivity|]. split; [exact Erun|]. split; [done|]. rewrite Es2, length_fmap. split; [done|].
    unfold completion_done. cbn [done]. destruct (Z.eqb_spec (done x + 2147483647 - Z.of_nat (length (wait x))) 0); [lia|done].
Qed.

Lemma complete_all_releases_witness :
  exists s1 rs s2,
    comp_step 4096 24 (CCompleteAll 16) (MkCSys (MkCompl 0 [timed_out 1; sleeper 2; sleeper 3]) []) = Some (None, s1) /\
    comp_run 4096 24 ((fun k => CRun k (if k =? 1 then 0 else 2147483647) no_sig) <$> [3; 1; 2]) s1 = Some (rs, s2) /\
    Forall (fun r => exists cr, r = Some cr /\ succeeded cr = true) rs /\
    wait (sys_x s2) = [] /\ completion_done (sys_x s2) = 1.
Proof.
  apply (complete_all_releases 4096 24 16 (fun k => if k =? 1 then 0 else 2147483647) (fun _ => no_sig)).
  - exact sample_queue_ok.
  - reflexivity.
  - reflexivity.
  - cbn. solve_Permutation.
  - repeat constructor.
Defined.

(** The counter wraps. Two calls of [complete_all] and two of [complete] make
    [done] 0 again: the completion looks as if nothing had happened, and the
    next task sleeps although it was completed four times. *)
Lemma complete_all_wraps :
  exists evs, comp_run 4096 24 [CCompleteAll 16; CCompleteAll 16; CComplete 16; CComplete 16; CWait Wait 8 1 no_sig] comp_boot =
    Some ([None; None; None; None; None], MkCSys (MkCompl 0 [sleeper 1]) evs).
Proof. eexists. vm_compute. reflexivity. Qed.

(** [completion_done] does not tell whether there are waiters: it is 0 for a
    completion nobody waits for. *)
Lemma completion_done_no_waiters : completion_done init_completion = 0 /\ wait init_completion = [].
Proof. by split. Qed.
