(* ===== verification/Gotext.v ===== *)
(** * Text in the analysis tools

    What the Go programs of the repository ([intraosdelay.go],
    [scripts/migrationdelay.go], [analyse.go]) use of Go's standard library to
    take a trace file apart: [bufio.ScanLines], [regexp.Split] with the
    expression [\s+], and [strconv.Atoi] and [strconv.ParseInt]; and how they
    read the lines that the reader of [Usnl] writes. A string is the list of its
    bytes. A [bufio.Scanner] gives up on lines of 64 KiB; the lines here are
    shorter. *)

From S2P Require Import Prelude Sepext Vsprintf Tracer Usnl.
From stdpp Require Import prelude gmap list strings.
From Stdlib Require Import ZArith Lia.

Open Scope Z_scope.
Open Scope list_scope.

(** ** Lines and fields *)

Definition drop_cr (s : list Z) : list Z :=
  match last s with Some 13 => take (length s - 1) s | _ => s end.

Fixpoint scan_lines (cur : list Z) (s : list Z) : list (list Z) :=
  match s with
  | [] => match cur with [] => [] | _ => [drop_cr cur] end
  | c :: s' => if c =? 10 then drop_cr cur :: scan_lines [] s' else scan_lines (cur ++ [c]) s'
  end.

Definition is_ws (c : Z) : bool := (c =? 9) || (c =? 10) || (c =? 12) || (c =? 13) || (c =? 32).

(** [inws]: the previous character belongs to a separator. *)
Fixpoint split_fields (inws : bool) (cur : list Z) (s : list Z) : list (list Z) :=
  match s with
  | [] => [cur]
  | c :: s' =>
      if is_ws c then if inws then split_fields true cur s' else cur :: split_fields true [] s'
      else split_fields false (cur ++ [c]) s'
  end.

(** [whitespace.Split(s, -1)] *)
Definition split_ws (s : list Z) : list (list Z) := split_fields false [] s.

(** ** Numbers: an [int] has 64 bits *)

Definition digit_val (c : Z) : Z :=
  if (48 <=? c) && (c <=? 57) then c - 48
  else if (97 <=? c) && (c <=? 122) then c - 97 + 10
  else if (65 <=? c) && (c <=? 90) then c - 65 + 10
  else 255.

Fixpoint parse_digits (base acc : Z) (s : list Z) : option Z :=
  match s with
  | [] => Some acc
  | c :: s' => if digit_val c <? base then parse_digits base (acc * base + digit_val c) s' else None
  end.

Definition parse_uint (base : Z) (s : list Z) : option Z :=
  match s with [] => None | _ => parse_digits base 0 s end.

(** [strconv.ParseInt(s, base, 64)]; [None] is an error, of syntax or of range. *)
Definition parse_int (base : Z) (s : list Z) : option Z :=
  match s with
  | 45 :: s' => n ← parse_uint base s'; if n <=? 2 ^ 63 then Some (- n) else None
  | 43 :: s' => n ← parse_uint base s'; if n <? 2 ^ 63 then Some n else None
  | _ => n ← parse_uint base s; if n <? 2 ^ 63 then Some n else None
  end.

Definition atoi (s : list Z) : option Z := parse_int 10 s.

Example split_ws_ex : split_ws (bytes_of "CTXSW      0 7 ") =
  [bytes_of "CTXSW"; bytes_of "0"; bytes_of "7"; []].
Proof. reflexivity. Qed.

Example parse_int_ex :
  atoi (bytes_of "-12") = Some (-12) /\ atoi (bytes_of "1x") = None /\ atoi [] = None /\
  parse_int 16 (bytes_of "bEEf") = Some 48879.
Proof. by split_and!. Qed.

(** ** Words *)

Definition word (s : list Z) : Prop := s <> [] /\ Forall (fun c => is_ws c = false) s.

Lemma split_fields_word w b cur s :
  Forall (fun c => is_ws c = false) w -> w <> [] -> split_fields b cur (w ++ s) = split_fields false (cur ++ w) s.
Proof.
  intros Hw. revert b cur. induction Hw as [|c w Hc Hw IH]; intros b cur Hne; [done|].
  cbn [app split_fields]. rewrite Hc. destruct w as [|d w]; [done|]. rewrite IH by done. by rewrite <- app_assoc.
Qed.

Lemma split_fields_skip n cur s : split_fields true cur (replicate n 32 ++ s) = split_fields true cur s.
Proof. induction n; [done|]. exact IHn. Qed.

(** A word, and at least one space behind it. *)
Lemma split_word_space w n s b :
  word w -> split_fields b [] (w ++ [32] ++ replicate n 32 ++ s) = w :: split_fields true [] s.
Proof. intros [Hne Hw]. rewrite split_fields_word by done. cbn. by rewrite split_fields_skip. Qed.

Lemma split_word_one w s b : word w -> split_fields b [] (w ++ [32] ++ s) = w :: split_fields true [] s.
Proof. apply (split_word_space w 0). Qed.

Lemma split_last_word w b : word w -> split_fields b [] w = [w].
Proof. intros [Hne Hw]. rewrite <- (app_nil_r w) at 1. by rewrite split_fields_word. Qed.

Lemma scan_line l cur rest : Forall (fun c => c <> 10) l -> scan_lines cur (l ++ [10] ++ rest) = drop_cr (cur ++ l) :: scan_lines [] rest.
Proof.
  intros H. revert cur. induction H as [|c l Hc Hl IH]; intros cur; cbn [app scan_lines]; [by rewrite app_nil_r|].
  destruct (Z.eqb_spec c 10); [done|]. rewrite IH. by rewrite <- app_assoc.
Qed.

Lemma drop_cr_id l c : c <> 13 -> drop_cr (l ++ [c]) = l ++ [c].
Proof.
  intros Hc. unfold drop_cr. rewrite last_snoc. destruct c as [|p|]; try done. do 4 (destruct p; try done).
Qed.

(** ** Numbers as words *)

Lemma parse_digits_app base a s1 s2 :
  parse_digits base a (s1 ++ s2) = (a' ← parse_digits base a s1; parse_digits base a' s2).
Proof.
  revert a. induction s1 as [|c s1 IH]; intros a; [done|]. cbn [app parse_digits]. destruct (digit_val c <? base); [apply IH|done].
Qed.

(** The value of digits, least significant first. *)
Fixpoint digits_val (base : Z) (ds : list Z) : Z :=
  match ds with [] => 0 | d :: ds' => d + base * digits_val base ds' end.

Lemma parse_digits_rev base (f : Z -> Z) ds :
  Forall (fun d => digit_val (f d) = d /\ d < base) ds -> parse_digits base 0 (f <$> rev ds) = Some (digits_val base ds).
Proof.
  induction 1 as [|d ds [Hd Hb] _ IH]; [done|]. cbn [rev digits_val]. rewrite fmap_app, parse_digits_app, IH. cbn.
  rewrite Hd. destruct (Z.ltb_spec d base); [|lia]. f_equal. lia.
Qed.

Lemma parse_int_word base s n :
  parse_digits base 0 s = Some n -> 0 <= n < 2 ^ 63 -> base <= 36 -> s <> [] -> parse_int base s = Some n.
Proof.
  intros E Hn Hb Hne. destruct s as [|c s]; [done|]. assert (digit_val c < base) as Hc.
  { cbn [parse_digits] in E. destruct (Z.ltb_spec (digit_val c) base); [done|congruence]. }
  assert (c <> 45 /\ c <> 43) as [H1 H2] by (split; intros ->; change (255 < base) in Hc; lia).
  unfold parse_int, parse_uint. rewrite E. cbn [mbind option_bind].
  destruct (Z.ltb_spec n (2 ^ 63)); [|lia]. destruct c as [|p|p]; try done. do 6 (destruct p as [p|p|]; try done).
Qed.

Lemma digits_val_dec f n : 0 <= n < 10 ^ Z.of_nat f -> digits_val 10 (dec_lsb f n) = n.
Proof. intros H. rewrite <- (lsb_val_dec f n H) at 2. generalize (dec_lsb f n). induction l; cbn [digits_val lsb_val]; [done|]. by rewrite IHl. Qed.

Lemma digits_val_hex f n : 0 <= n < 16 ^ Z.of_nat f -> digits_val 16 (hex_lsb f n) = n.
Proof.
  revert n. induction f as [|f IH]; intros n Hn; [cbn in Hn |- *; lia|].
  rewrite Nat2Z.inj_succ, Z.pow_succ_r in Hn by lia. cbn [hex_lsb]. destruct (Z.eqb_spec (n / 16) 0); cbn [digits_val]; [dlia|].
  rewrite IH; [dlia|]. split; [apply Z.div_pos; lia|]. apply Z.div_lt_upper_bound; lia.
Qed.

Lemma hex_lsb_digits f n : Forall (fun d => 0 <= d < 16) (hex_lsb f n).
Proof.
  revert n. induction f as [|f IH]; intros n; cbn [hex_lsb]; [done|]. constructor; [apply Z.mod_pos_bound; lia|].
  destruct (n / 16 =? 0); [done|]. apply IH.
Qed.

Lemma hex_digit_val d : 0 <= d < 16 -> digit_val (hex_digit d) = d /\ is_ws (hex_digit d) = false.
Proof.
  intros Hr. assert (d ∈ seqZ 0 16) as Hd by (apply elem_of_seqZ; lia). clear Hr.
  revert d Hd. apply (proj1 (Forall_forall _ _)). repeat constructor.
Qed.

Lemma dec_digit_val d : 0 <= d <= 9 -> digit_val (d + 48) = d /\ is_ws (d + 48) = false.
Proof.
  intros Hr. assert (d ∈ seqZ 0 10) as Hd by (apply elem_of_seqZ; lia). clear Hr.
  revert d Hd. apply (proj1 (Forall_forall _ _)). repeat constructor.
Qed.

Lemma rev_fmap_word (f : Z -> Z) (P : Z -> Prop) ds :
  ds <> [] -> Forall P ds -> (forall d, P d -> is_ws (f d) = false) -> word (f <$> rev ds).
Proof.
  intros Hne Hd Hf. split.
  - intros E%fmap_nil_inv. apply Hne. rewrite <- (rev_involutive ds), E. done.
  - apply Forall_fmap, Forall_rev. eapply Forall_impl; [exact Hd|]. exact Hf.
Qed.

Lemma dec_chars_word n : word (dec_chars n).
Proof.
  rewrite dec_chars_alt. apply (rev_fmap_word _ (fun d => 0 <= d <= 9)); [done|apply dec_lsb_digits|].
  intros d Hd. by apply dec_digit_val.
Qed.

Lemma hex_chars_word n : word (hex_chars n).
Proof.
  unfold hex_chars. replace (rev (hex_digit <$> hex_lsb 8 n)) with (hex_digit <$> rev (hex_lsb 8 n)) by apply map_rev.
  apply (rev_fmap_word _ (fun d => 0 <= d < 16)); [done|apply hex_lsb_digits|]. intros d Hd. by apply hex_digit_val.
Qed.

Lemma atoi_dec n : 0 <= n < 2 ^ 63 -> atoi (dec_chars n) = Some n.
Proof.
  intros Hn. apply parse_int_word; [|done|lia|apply dec_chars_word].
  rewrite dec_chars_alt, parse_digits_rev; [by rewrite digits_val_dec by lia|].
  eapply Forall_impl; [apply dec_lsb_digits|]. cbn. intros d Hd. split; [by apply dec_digit_val|lia].
Qed.

Lemma parse_int_hex n : 0 <= n < 4294967296 -> parse_int 16 (hex_chars n) = Some n.
Proof.
  intros Hn. apply parse_int_word; [|lia|lia|apply hex_chars_word]. unfold hex_chars.
  replace (rev (hex_digit <$> hex_lsb 8 n)) with (hex_digit <$> rev (hex_lsb 8 n)) by apply map_rev.
  rewrite parse_digits_rev; [by rewrite digits_val_hex|].
  eapply Forall_impl; [apply hex_lsb_digits|]. cbn. intros d Hd. split; [by apply hex_digit_val|lia].
Qed.

(** ** The lines of the trace *)

(** The name of an entry type without the spaces that pad it. *)
Fixpoint strip (s : list Z) : list Z :=
  match s with [] => [] | c :: s' => if is_ws c then [] else c :: strip s' end.

Definition type_name (ty : Z) : option (list Z) := strip ∘ bytes_of <$> typestring ty.

Lemma type_name_padded ty name :
  typestring ty = Some name -> exists k, bytes_of name = strip (bytes_of name) ++ replicate k 32 /\ word (strip (bytes_of name)).
Proof.
  assert (forallb (fun n => let b := bytes_of n in let w := strip b in
    bool_decide (b = w ++ replicate (length b - length w) 32) && negb (bool_decide (w = [])) && forallb (fun c => negb (is_ws c)) w)
    typestrings = true) as H by (vm_compute; reflexivity).
  intros E. unfold typestring, zget in E. destruct (0 <=? ty - 1); [|done]. apply list_elem_of_lookup_2, list_elem_of_In in E.
  rewrite forallb_forall in H. specialize (H _ E). cbv zeta in H.
  apply andb_true_iff in H as [[H1%bool_decide_eq_true H2%negb_true_iff%bool_decide_eq_false]%andb_true_iff H3].
  eexists. split; [exact H1|]. split; [done|]. rewrite forallb_forall in H3. apply Forall_forall. intros c Hc%list_elem_of_In.
  by apply negb_true_iff, H3.
Qed.

(** The nine fields of a line. *)
Definition entry_fields (name : list Z) (e : sepentry) : list (list Z) :=
  [name; dec_chars (se_cpu e); dec_chars (u16 (se_currpid e)); dec_chars (se_cycles e); dec_chars (u16 (se_pid1 e));
   dec_chars (u16 (se_pid2 e)); hex_chars (se_data e); hex_chars (se_addr e); hex_chars (se_location e)].

Lemma entry_line_fields e name :
  typestring (se_type e) = Some name ->
  exists l, entry_line e = Some (l ++ [10]) /\ split_ws l = entry_fields (strip (bytes_of name)) e /\
    Forall (fun c => c <> 10) l /\ drop_cr l = l.
Proof.
  intros Ht. destruct (type_name_padded _ _ Ht) as (k & Hn & Hw). unfold entry_line. rewrite Ht. cbn [mbind option_bind].
  eexists. split; [f_equal; rewrite !app_assoc; reflexivity|]. rewrite <- !app_assoc. split; [|split].
  - rewrite Hn at 1. unfold split_ws, entry_fields. rewrite <- !app_assoc.
    assert (forall A (x : A) k l, replicate k x ++ [x] ++ l = [x] ++ replicate k x ++ l) as Hrep.
    { intros A x k0 l. rewrite !app_assoc. f_equal. symmetry. apply replicate_cons_app. }
    rewrite Hrep, split_word_space by done.
    rewrite !split_word_one by auto using dec_chars_word, hex_chars_word.
    by rewrite split_last_word by apply hex_chars_word.
  - assert (forall w, word w -> Forall (fun c => c <> 10) w) as Hw10.
    { intros w [_ H]. eapply Forall_impl; [exact H|]. cbn. intros c Hc ->. done. }
    rewrite Hn, !Forall_app. split_and!; try (apply Hw10; solve [auto using dec_chars_word, hex_chars_word]);
      try (constructor; [done|constructor]). apply Forall_replicate. done.
  - rewrite !app_assoc. destruct (hex_chars_word (se_location e)) as [Hne Hws].
    destruct (hex_chars (se_location e)) as [|c0 cs] using rev_ind; [done|]. rewrite app_assoc. apply drop_cr_id.
    apply Forall_app in Hws as [_ Hc]. apply Forall_cons in Hc as [Hc _]. intros ->. done.
Qed.
