(* ===== verification/Delay.v ===== *)
(** * Delays of packets

    [intraosdelay.go], which measures from a trace how long the kernel takes
    from the reception of a packet to its transmission, and
    [scripts/migrationdelay.go], which does so behind a migration.

    The packet generator numbers its packets; [probe_sepext_pktextract] records
    the number (plus one) in the field [data] and the point where it was called
    in the field [pid2]: 0 at the start of the driver's receive loop, 1 when a
    packet goes to the IP layer, 2 when the driver has sent one.

    What the programs print is a list of [output]s, one constructor for each
    call of [fmt.Print*]. A panic is [None]: an index outside a slice, or the
    call of [panic]. *)

From S2P Require Import Prelude Sepext Vsprintf Tracer Usnl Gotext.
From stdpp Require Import prelude gmap list strings.
From Stdlib Require Import ZArith Lia.

Open Scope Z_scope.
Open Scope list_scope.

(** ** The programs *)

Definition delta (a b : Z) : Z :=
  if b <? a then s64 (s64 (4294967295 - a) + b) else s64 (b - a).

Inductive output :=
  | OErr | OEod
  | OEntry (entry : list (list Z))
  | OEvent (eventType seqno : Z)
  | OReceived (seqno : Z)
  | OSent (seqno : Z)
  | ODelta (seqno d : Z)
  | OMigration (cycles : Z)
  | ODeltaMigr (seqno d dm : Z)
  | ODone.

Record delay := MkDelay { rxstart : Z; lastCycles : Z; cycles : Z; packets : gmap Z Z }.

Definition delay_init : delay := MkDelay (-1) 0 0 ∅.

(** The [switch] on the type of a packet event. *)
Definition delay_event (eventType seqno : Z) (s : delay) : option (delay * list output) :=
  if eventType =? 0 then Some (MkDelay (cycles s) (lastCycles s) (cycles s) (packets s), [])
  else if eventType =? 1 then
    if rxstart s =? -1 then Some (s, [])
    else if negb (seqno =? 0)
    then Some (MkDelay (-1) (lastCycles s) (cycles s) (<[seqno := cycles s]> (packets s)), [OReceived seqno])
    else Some (MkDelay (-1) (lastCycles s) (cycles s) (packets s), [])
  else if eventType =? 2 then
    if negb (seqno =? 0) then
      match packets s !! seqno with
      | Some v => Some (MkDelay (rxstart s) (lastCycles s) (cycles s) (delete seqno (packets s)),
                        [OSent seqno; ODelta seqno (s64 (cycles s - v))])
      | None => Some (s, [OSent seqno])
      end
    else Some (s, [])
  else if eventType =? 4 then Some (s, [])
  else None.

(** One line of the loop of [main]. *)
Definition delay_line (line : list Z) (s : delay) : option (delay * list output) :=
  let entry := split_ws line in
  name ← entry !! 0%nat;
  if bool_decide (name = bytes_of "EOD") then Some (MkDelay (-1) (lastCycles s) (cycles s) ∅, [OEod])
  else if Z.of_nat (length entry) <? 3 then Some (s, [])
  else
    cpu ← entry !! 1%nat;
    if negb (bool_decide (cpu = bytes_of "0")) then Some (s, [])
    else
      f3 ← entry !! 3%nat;
      match atoi f3 with
      | None => Some (s, [OErr])
      | Some cyc =>
          let d := delta (lastCycles s) cyc in
          let s := MkDelay (rxstart s) cyc (s64 (cycles s + d)) (packets s) in
          if negb (bool_decide (name = bytes_of "PKTEXTR")) then Some (s, [])
          else
            f5 ← entry !! 5%nat;
            match parse_int 10 f5 with
            | None => Some (s, [OEntry entry; OErr])
            | Some eventType =>
                f6 ← entry !! 6%nat;
                match parse_int 16 f6 with
                | None => Some (s, [OEntry entry; OErr])
                | Some seqno =>
                    '(s, out) ← delay_event eventType seqno s;
                    Some (s, OEntry entry :: OEvent eventType seqno :: out)
                end
            end
      end.

Fixpoint delay_lines (lines : list (list Z)) (s : delay) : option (delay * list output) :=
  match lines with
  | [] => Some (s, [])
  | l :: lines' => '(s, out) ← delay_line l s; '(s, out') ← delay_lines lines' s; Some (s, out ++ out')
  end.

(** [main] of [intraosdelay.go] on the contents of its file. *)
Definition intraosdelay (file : list Z) : option (list output) :=
  '(s, out) ← delay_lines (scan_lines [] file) delay_init; Some (out ++ [ODone]).

(** *** [scripts/migrationdelay.go] *)

Record migration := MkMigr { m_delay : delay; lastMigration : Z }.

Definition migr_event (eventType seqno : Z) (s : migration) : migration * list output :=
  let d := m_delay s in
  if eventType =? 0 then (MkMigr (MkDelay (cycles d) (lastCycles d) (cycles d) (packets d)) (lastMigration s), [])
  else if eventType =? 1 then
    if rxstart d =? -1 then (s, [])
    else if negb (seqno =? 0)
    then (MkMigr (MkDelay (rxstart d) (lastCycles d) (cycles d) (<[seqno := rxstart d]> (packets d))) (lastMigration s),
          [OReceived seqno])
    else (s, [])
  else if eventType =? 2 then
    if negb (seqno =? 0) then
      match packets d !! seqno with
      | Some v => (MkMigr (MkDelay (rxstart d) (lastCycles d) (cycles d) (delete seqno (packets d))) (lastMigration s),
                   [OSent seqno; ODeltaMigr seqno (s64 (cycles d - v)) (s64 (cycles d - lastMigration s))])
      | None => (s, [OSent seqno])
      end
    else (s, [])
  else (s, []).

Definition migr_packet (name : list Z) (entry : list (list Z)) (s : migration) : option (migration * list output) :=
  if lastMigration s =? 0 then Some (s, [])
  else if negb (bool_decide (name = bytes_of "PKTEXTR")) then Some (s, [])
  else
    f5 ← entry !! 5%nat;
    match parse_int 10 f5 with
    | None => Some (s, [OErr])
    | Some eventType =>
        f6 ← entry !! 6%nat;
        match parse_int 16 f6 with
        | None => Some (s, [OErr])
        | Some seqno => let '(s, out) := migr_event eventType seqno s in Some (s, OEvent eventType seqno :: out)
        end
    end.

Definition migr_line (migrate_pid : Z) (line : list Z) (s : migration) : option (migration * list output) :=
  let entry := split_ws line in
  let d := m_delay s in
  name ← entry !! 0%nat;
  if bool_decide (name = bytes_of "EOD") then Some (MkMigr (MkDelay (-1) (lastCycles d) (cycles d) ∅) 0, [OEod])
  else if Z.of_nat (length entry) <? 3 then Some (s, [])
  else
    cpu ← entry !! 1%nat;
    if negb (bool_decide (cpu = bytes_of "0")) then Some (s, [])
    else
      f3 ← entry !! 3%nat;
      match atoi f3 with
      | None => Some (s, [OErr])
      | Some cyc =>
          let s := MkMigr (MkDelay (rxstart d) cyc (s64 (cycles d + delta (lastCycles d) cyc)) (packets d)) (lastMigration s) in
          if bool_decide (name = bytes_of "MIGRATE") then
            f2 ← entry !! 2%nat;
            match parse_int 10 f2 with
            | None => Some (s, [OErr])
            | Some pid =>
                if negb (pid =? migrate_pid) then Some (s, [])
                else
                  let s := MkMigr (m_delay s) (cycles (m_delay s)) in
                  '(s, out) ← migr_packet name entry s;
                  Some (s, OMigration (cycles (m_delay s)) :: out)
            end
          else migr_packet name entry s
      end.

(** ** Observations

    What a line of the reader means to [intraosdelay.go]: the end of a buffer,
    an entry of the other CPU, an entry of CPU 0, or a packet event on CPU 0. *)

Inductive obs := Eod | Other | Tick (cyc : Z) | Pkt (cyc eventType seqno : Z).

(** A line of the file: an entry, or [None] for the end-of-data marker. *)
Definition token_text (t : option sepentry) : list Z :=
  match t with Some e => line_of e | None => EOD_line end.
Definition trace_text (ts : list (option sepentry)) : list Z := concat (token_text <$> ts).

Definition obs_of (t : option sepentry) : obs :=
  match t with
  | None => Eod
  | Some e =>
      if negb (se_cpu e =? 0) then Other
      else if se_type e =? sepentry_type_val PKTEXTRACT then Pkt (se_cycles e) (u16 (se_pid2 e)) (se_data e)
      else Tick (se_cycles e)
  end.

Definition tick (cyc : Z) (s : delay) : delay :=
  MkDelay (rxstart s) cyc (s64 (cycles s + delta (lastCycles s) cyc)) (packets s).

Definition obs_step (o : obs) (s : delay) : option (delay * list output) :=
  match o with
  | Eod => Some (MkDelay (-1) (lastCycles s) (cycles s) ∅, [])
  | Other => Some (s, [])
  | Tick cyc => Some (tick cyc s, [])
  | Pkt cyc ty n => delay_event ty n (tick cyc s)
  end.

(** The delays among the outputs. *)
Definition deltas (out : list output) : list (Z * Z) :=
  omap (fun o => match o with ODelta n d => Some (n, d) | _ => None end) out.

(** The types of packet events the program knows. *)
Definition obs_ok (o : obs) : Prop :=
  match o with
  | Tick cyc => 0 <= cyc < 4294967296
  | Pkt cyc ty n => 0 <= cyc < 4294967296 /\ ty ∈ [0; 1; 2; 4] /\ 0 <= n
  | _ => True
  end.

Definition token_ok (t : option sepentry) : Prop :=
  match t with Some e => recorded e | None => True end.

Section reading.

Lemma dec_chars_zero n : 0 <= n < 2 ^ 63 -> bool_decide (dec_chars n = bytes_of "0") = (n =? 0).
Proof.
  intros Hn. destruct (Z.eqb_spec n 0) as [->|Hne]; [by apply bool_decide_eq_true|]. apply bool_decide_eq_false.
  intros E. pose proof (atoi_dec n Hn) as H. rewrite E in H. vm_compute in H. congruence.
Qed.

(** The name of the type tells packet events and the marker apart. *)
Lemma type_names ty name :
  typestring ty = Some name ->
  bool_decide (strip (bytes_of name) = bytes_of "EOD") = false /\
  bool_decide (strip (bytes_of name) = bytes_of "PKTEXTR") = (ty =? sepentry_type_val PKTEXTRACT).
Proof.
  assert (forall (i : nat) n, typestrings !! i = Some n ->
    bool_decide (strip (bytes_of n) = bytes_of "EOD") = false /\
    bool_decide (strip (bytes_of n) = bytes_of "PKTEXTR") = (Z.of_nat i + 1 =? sepentry_type_val PKTEXTRACT)) as H.
  { intros i n E. do 44 (destruct i as [|i]; [injection E as <-; vm_compute; by split|]). done. }
  unfold typestring, zget. destruct (Z.leb_spec 0 (ty - 1)); [|done]. intros E%H. rewrite Z2Nat.id in E by done.
  by replace (ty - 1 + 1) with ty in E by lia.
Qed.

Lemma delay_line_entry e s :
  recorded e ->
  exists l, line_of e = l ++ [10] /\ Forall (fun c => c <> 10) l /\ drop_cr l = l /\
    match obs_step (obs_of (Some e)) s with
    | Some (s', out) => exists out', delay_line l s = Some (s', out') /\ deltas out' = deltas out
    | None => delay_line l s = None
    end.
Proof.
  intros [Hwf (t & Ht & Hty)].
  assert (exists name, typestring (se_type e) = Some name) as [name Hname].
  { rewrite Hty. destruct t; try done; by eexists. }
  destruct (type_names _ _ Hname) as [He Hp]. destruct (entry_line_fields e name Hname) as (l & El & Es & Hl & Hc).
  exists l. split; [unfold line_of; by rewrite El|]. split; [done|]. split; [done|].
  unfold delay_line. rewrite Es. cbn [entry_fields lookup list_lookup mbind option_bind length]. rewrite He.
  change (Z.of_nat 9 <? 3) with false. cbn [obs_of obs_step]. destruct Hwf as [_ Hcy _ _ Hd _ _ _ Hcpu].
  rewrite dec_chars_zero by lia. destruct (se_cpu e =? 0); cbn [negb]; [|by eexists].
  rewrite atoi_dec, Hp by lia. cbv zeta. change (MkDelay _ _ _ _) with (tick (se_cycles e) s).
  destruct (se_type e =? sepentry_type_val PKTEXTRACT); cbn [negb obs_step]; [|by eexists].
  pose proof (u16_range (se_pid2 e)). unfold atoi in *.
  assert (parse_int 10 (dec_chars (u16 (se_pid2 e))) = Some (u16 (se_pid2 e))) as -> by (apply atoi_dec; lia).
  rewrite parse_int_hex by lia. destruct (delay_event _ _ _) as [[s' out]|]; [|done]. by eexists.
Qed.

Lemma delay_line_eod s : delay_line (bytes_of "EOD") s = Some (MkDelay (-1) (lastCycles s) (cycles s) ∅, [OEod]).
Proof. reflexivity. Qed.

Fixpoint obs_run (os : list obs) (s : delay) : option (delay * list output) :=
  match os with
  | [] => Some (s, [])
  | o :: os' => '(s, out) ← obs_step o s; '(s, out') ← obs_run os' s; Some (s, out ++ out')
  end.

Lemma deltas_app o1 o2 : deltas (o1 ++ o2) = deltas o1 ++ deltas o2.
Proof. unfold deltas. apply omap_app. Qed.

(** Reading the text of a trace is running through its observations. *)
Lemma delay_reads ts s :
  Forall token_ok ts ->
  match obs_run (obs_of <$> ts) s with
  | Some (s', out) => exists out', delay_lines (scan_lines [] (trace_text ts)) s = Some (s', out') /\ deltas out' = deltas out
  | None => delay_lines (scan_lines [] (trace_text ts)) s = None
  end.
Proof.
  intros Hts. revert s. induction Hts as [|t ts Ht Hts IH]; intros s; [by eexists|].
  unfold trace_text. rewrite !fmap_cons. cbn [concat obs_run].
  assert (exists l, token_text t = l ++ [10] /\ Forall (fun c => c <> 10) l /\ drop_cr l = l /\
    match obs_step (obs_of t) s with
    | Some (s', out) => exists out', delay_line l s = Some (s', out') /\ deltas out' = deltas out
    | None => delay_line l s = None
    end) as (l & El & Hl & Hc & Hs).
  { destruct t as [e|]; [by apply delay_line_entry|]. exists (bytes_of "EOD"). split; [done|]. split; [by repeat constructor|].
    split; [done|]. cbn [obs_of obs_step]. eexists. split; [apply delay_line_eod|done]. }
  rewrite El, <- app_assoc, scan_line by done. cbn [app delay_lines]. rewrite Hc.
  destruct (obs_step (obs_of t) s) as [[s1 out1]|]; cbn [mbind option_bind]; [|by rewrite Hs].
  destruct Hs as (out1' & -> & E1). cbn [mbind option_bind]. specialize (IH s1).
  destruct (obs_run (obs_of <$> ts) s1) as [[s2 out2]|]; cbn [mbind option_bind].
  - destruct IH as (out2' & E & E2). unfold trace_text in E. rewrite E. cbn [mbind option_bind]. eexists. split; [reflexivity|].
    by rewrite !deltas_app, E1, E2.
  - unfold trace_text in IH. by rewrite IH.
Qed.
End reading.

(** ** What is measured *)

(** Type and number of a packet event on CPU 0. *)
Definition evt (o : obs) : option (Z * Z) := match o with Pkt _ ty n => Some (ty, n) | _ => None end.
Definition cyc_of (o : obs) : option Z := match o with Tick c | Pkt c _ _ => Some c | _ => None end.

(** The last counter value of CPU 0, and the cycles summed up. *)
Definition clock (os : list obs) : Z * Z :=
  foldl (fun lt o => match cyc_of o with Some c => (c, lt.2 + delta lt.1 c) | None => lt end) (0, 0) os.

(** The driver has started its receive loop, and has not passed on a packet
    since. *)
Definition rx_open (os : list obs) : Prop :=
  exists h n, (evt <$> os !! h) = Some (Some (0, n)) /\
    forall k o, (h < k)%nat -> os !! k = Some o -> o <> Eod /\ forall m, evt o <> Some (1, m).

(** The [i]-th line is the reception of packet [n]. *)
Definition received (os : list obs) (n : Z) (i : nat) : Prop :=
  (evt <$> os !! i) = Some (Some (1, n)) /\ n <> 0 /\ rx_open (take i os).

(** Packet [n] was last received at the [i]-th line and has not been sent. *)
Definition pending (os : list obs) (n : Z) (i : nat) : Prop :=
  received os n i /\
  forall k o, (i < k)%nat -> os !! k = Some o -> o <> Eod /\ evt o <> Some (2, n) /\ ~ received os n k.

Section measuring.

Lemma rx_open_snoc os o :
  rx_open (os ++ [o]) <->
  (exists n, evt o = Some (0, n)) \/ (rx_open os /\ o <> Eod /\ forall m, evt o <> Some (1, m)).
Proof.
  split.
  - intros (h & n & Hh & Hk). destruct (decide (h < length os)%nat) as [Hlt|Hge].
    + right. rewrite lookup_app_l in Hh by done. split.
      * exists h, n. split; [done|]. intros k o' Hlk Ho'. apply (Hk k); [done|]. by apply lookup_app_l_Some.
      * apply (Hk (length os)); [lia|]. by apply list_lookup_middle.
    + left. exists n. destruct (decide (h = length os)) as [->|Hne].
      * rewrite list_lookup_middle in Hh by done. cbn in Hh. congruence.
      * rewrite lookup_ge_None_2 in Hh by (rewrite length_app; cbn; lia). done.
  - intros [[n Hn]|((h & n & Hh & Hk) & Ho)].
    + exists (length os), n. rewrite list_lookup_middle by done. split; [cbn; by rewrite Hn|].
      intros k o' Hlk Ho'%lookup_lt_Some. rewrite length_app in Ho'. cbn in Ho'. lia.
    + assert (h < length os)%nat as Hlt.
      { destruct (os !! h) eqn:E; [|done]. by apply lookup_lt_Some in E. }
      exists h, n. rewrite lookup_app_l by done. split; [done|]. intros k o' Hlk Ho'.
      apply lookup_app_Some in Ho' as [Ho'|[Hge Ho']]; [by apply (Hk k)|].
      apply list_lookup_singleton_Some in Ho' as [_ <-]. done.
Qed.

(** The next line is the reception of [n]. *)
Definition accepted (os : list obs) (o : obs) (n : Z) : Prop := evt o = Some (1, n) /\ n <> 0 /\ rx_open os.

Lemma received_old os o n i : (i < length os)%nat -> received (os ++ [o]) n i <-> received os n i.
Proof. intros Hi. unfold received. rewrite lookup_app_l, take_app_le by lia. done. Qed.

Lemma received_new os o n : received (os ++ [o]) n (length os) <-> accepted os o n.
Proof.
  unfold received, accepted. rewrite list_lookup_middle, take_app_length by done. cbn. split; intros (H & ?); (split; [|done]); congruence.
Qed.

Lemma pending_lt os n i : pending os n i -> (i < length os)%nat.
Proof. intros [(H & _) _]. destruct (os !! i) eqn:E; [|done]. by apply lookup_lt_Some in E. Qed.

Lemma pending_snoc os o n i :
  pending (os ++ [o]) n i <->
  (i = length os /\ accepted os o n) \/
  (pending os n i /\ o <> Eod /\ evt o <> Some (2, n) /\ ~ accepted os o n).
Proof.
  split.
  - intros Hp. pose proof (pending_lt _ _ _ Hp) as Hlt. destruct Hp as [Hr Hk]. rewrite length_app in Hlt. cbn in Hlt.
    destruct (decide (i = length os)) as [->|Hne]; [left; by rewrite <- received_new|]. right.
    destruct (Hk (length os) o ltac:(lia) (list_lookup_middle _ _ _ _ eq_refl)) as (H1 & H2 & H3). rewrite received_new in H3.
    split; [|done]. split; [by apply (received_old os o); [lia|]|]. intros k o' Hlk Ho'.
    destruct (Hk k o' Hlk ltac:(by apply lookup_app_l_Some)) as (G1 & G2 & G3). split; [done|]. split; [done|].
    rewrite received_old in G3 by (by apply lookup_lt_Some in Ho'). done.
  - intros [[-> Ha]|(Hp & H1 & H2 & H3)].
    + split; [by apply received_new|]. intros k o' Hlk Ho'%lookup_lt_Some. rewrite length_app in Ho'. cbn in Ho'. lia.
    + pose proof (pending_lt _ _ _ Hp) as Hlt. destruct Hp as [Hr Hk]. split; [by apply received_old|].
      intros k o' Hlk Ho'. apply lookup_app_Some in Ho' as [Ho'|[Hge Ho']].
      * destruct (Hk k o' Hlk Ho') as (G1 & G2 & G3). rewrite received_old by (by apply lookup_lt_Some in Ho'). done.
      * apply list_lookup_singleton_Some in Ho' as [Hz <-]. replace k with (length os) by lia. by rewrite received_new.
Qed.

Lemma clock_snoc os o :
  clock (os ++ [o]) = match cyc_of o with Some c => (c, (clock os).2 + delta (clock os).1 c) | None => clock os end.
Proof. unfold clock. rewrite foldl_app. cbn. done. Qed.

Lemma delta_range a b : 0 <= a < 4294967296 -> 0 <= b < 4294967296 -> 0 <= delta a b < 4294967296 /\
  delta a b = if b <? a then 4294967295 - a + b else b - a.
Proof.
  intros Ha Hb. unfold delta. assert (forall x, -4294967296 <= x <= 4294967296 -> s64 x = x) as Hid.
  { intros x Hx. apply (wraps_id 64); [lia|]. change (2 ^ (64 - 1)) with 9223372036854775808. lia. }
  destruct (Z.ltb_spec b a); rewrite ?Hid; rewrite ?Hid; lia.
Qed.

(** The state of the program after a trace. *)
Record measures (os : list obs) (s : delay) : Prop := {
  ms_clock : clock os = (lastCycles s, cycles s);
  ms_last : 0 <= lastCycles s < 4294967296;
  ms_cycles : 0 <= cycles s <= 4294967295 * Z.of_nat (length os);
  ms_rx : rxstart s <> -1 <-> rx_open os;
  ms_packets : forall n v, packets s !! n = Some v <-> exists i, pending os n i /\ v = (clock (take (S i) os)).2 }.

(** How the table of packets has to change. *)
Lemma packets_step os o (m m' : gmap Z Z) :
  (forall n v, m !! n = Some v <-> exists i, pending os n i /\ v = (clock (take (S i) os)).2) ->
  (forall n v, m' !! n = Some v <->
     (accepted os o n /\ v = (clock (os ++ [o])).2) \/
     (m !! n = Some v /\ o <> Eod /\ evt o <> Some (2, n) /\ ~ accepted os o n)) ->
  forall n v, m' !! n = Some v <-> exists i, pending (os ++ [o]) n i /\ v = (clock (take (S i) (os ++ [o]))).2.
Proof.
  intros Hm Hm' n v. rewrite Hm'. setoid_rewrite pending_snoc. rewrite Hm. split.
  - intros [[Ha ->]|((i & Hp & ->) & H)].
    + exists (length os). split; [by left|]. by rewrite take_ge by (rewrite length_app; cbn; lia).
    + exists i. split; [by right|]. pose proof (pending_lt _ _ _ Hp). by rewrite take_app_le by lia.
  - intros (i & [[-> Ha]|(Hp & H)] & ->).
    + left. split; [done|]. by rewrite take_ge by (rewrite length_app; cbn; lia).
    + right. split; [|done]. exists i. split; [done|]. pose proof (pending_lt _ _ _ Hp). by rewrite take_app_le by lia.
Qed.

Lemma measures_tick os o c s :
  measures os s -> Z.of_nat (length os) < 2147483648 -> cyc_of o = Some c -> 0 <= c < 4294967296 ->
  clock (os ++ [o]) = (lastCycles (tick c s), cycles (tick c s)) /\
  0 <= cycles (tick c s) <= 4294967295 * Z.of_nat (length (os ++ [o])).
Proof.
  intros [Hc Hl Hy _ _] Hlen Ho Hr. rewrite clock_snoc, Ho, Hc. cbn [tick lastCycles cycles fst snd].
  destruct (delta_range (lastCycles s) c Hl Hr) as [Hd _]. unfold s64. rewrite wraps_id.
  - rewrite length_app. cbn [length]. split; [done|]. lia.
  - lia.
  - change (2 ^ (64 - 1)) with 9223372036854775808. lia.
Qed.

Lemma clock_range os : Forall obs_ok os ->
  0 <= (clock os).1 < 4294967296 /\ 0 <= (clock os).2 <= 4294967295 * Z.of_nat (length os).
Proof.
  induction os as [|o os IH] using rev_ind; [cbn; lia|]. intros [Hos Ho]%Forall_app. apply Forall_cons in Ho as [Ho _].
  destruct (IH Hos) as [H1 H2]. rewrite clock_snoc, length_app. cbn [length].
  destruct (cyc_of o) as [c|] eqn:Ec; [|lia]. cbn [fst snd].
  assert (0 <= c < 4294967296) as Hc by (destruct o; cbn in *; try done; [|destruct Ho as (? & _)]; congruence).
  destruct (delta_range _ _ H1 Hc). lia.
Qed.

(** The delay of a packet that is sent now. *)
Definition delay_now (os : list obs) (o : obs) (n d : Z) : Prop :=
  evt o = Some (2, n) /\ exists i, pending os n i /\ d = (clock (os ++ [o])).2 - (clock (take (S i) os)).2.

(** Observations that are not packet events on CPU 0. *)
Lemma obs_step_quiet os o s :
  measures os s -> Z.of_nat (length os) < 2147483648 -> obs_ok o -> evt o = None ->
  exists s', obs_step o s = Some (s', []) /\ measures (os ++ [o]) s'.
Proof.
  intros Hm Hlen Hok He. assert (forall n, ~ accepted os o n) as Hna by (intros n [E _]; congruence).
  pose proof Hm as [Hc Hl Hy Hr Hp]. destruct o as [| |c|]; [..|done]; cbn [obs_step evt] in *; (eexists; split; [reflexivity|]).
  - split; cbn [lastCycles cycles rxstart packets].
    + by rewrite clock_snoc.
    + done.
    + rewrite length_app. cbn [length]. lia.
    + rewrite rx_open_snoc. split; [done|]. intros [[n ?]|(_ & ? & _)]; done.
    + apply (packets_step _ _ (packets s)); [done|]. intros n v. rewrite lookup_empty. split; [done|].
      intros [[[? _] _]|(_ & ? & _)]; done.
  - split.
    + by rewrite clock_snoc.
    + done.
    + rewrite length_app. cbn [length]. lia.
    + rewrite rx_open_snoc, Hr. split; [intros; right; by split_and!|]. intros [[n ?]|(? & _)]; done.
    + apply (packets_step _ _ (packets s)); [done|]. intros n v. split; [intros; right; by split_and!|].
      intros [[[? _] _]|(? & _)]; done.
  - destruct (measures_tick os (Tick c) c s Hm Hlen eq_refl Hok) as [Hc' Hy']. split.
    + done.
    + done.
    + done.
    + cbn [tick rxstart]. rewrite rx_open_snoc, Hr. split; [intros; right; by split_and!|]. intros [[n ?]|(? & _)]; done.
    + cbn [tick packets]. apply (packets_step _ _ (packets s)); [done|]. intros n v. split; [intros; right; by split_and!|].
      intros [[[? _] _]|(? & _)]; done.
Qed.

(** The start of the receive loop, and the type that is ignored. *)
Lemma obs_step_start os c ty m s :
  measures os s -> Z.of_nat (length os) < 2147483648 -> 0 <= c < 4294967296 -> ty = 0 \/ ty = 4 ->
  exists s', obs_step (Pkt c ty m) s = Some (s', []) /\ measures (os ++ [Pkt c ty m]) s'.
Proof.
  intros Hm Hlen Hc0 Hty. destruct (measures_tick os (Pkt c ty m) c s Hm Hlen eq_refl Hc0) as [Hc Hy].
  pose proof Hm as [_ _ _ Hr Hp].
  assert (forall n v, packets (tick c s) !! n = Some v <-> exists i, pending (os ++ [Pkt c ty m]) n i /\ v = (clock (take (S i) (os ++ [Pkt c ty m]))).2) as Hp'.
  { apply (packets_step _ _ (packets s)); [done|]. intros n v. cbn [tick packets]. split.
    - intros H. right. split; [done|]. split; [done|]. split; [|intros [E _]]; cbn [evt] in *; destruct Hty; congruence.
    - intros [[[E _] _]|(? & _)]; [|done]. cbn [evt] in E. destruct Hty; congruence. }
  destruct Hty as [-> | ->]; cbn [obs_step]; unfold delay_event; cbn [Z.eqb]; (eexists; split; [reflexivity|]).
  - split; cbn [lastCycles cycles rxstart packets]; try done. rewrite rx_open_snoc. cbn [evt].
    split; [intros _; left; by eexists|]. intros _. lia.
  - split; try done. cbn [tick rxstart]. rewrite Hr, rx_open_snoc. cbn [evt].
    split; [intros; right; split_and!; [done|done|congruence]|]. intros [[n ?]|(? & _)]; [congruence|done].
Qed.

Lemma obs_step_recv os c m s :
  measures os s -> Z.of_nat (length os) < 2147483648 -> 0 <= c < 4294967296 ->
  exists s' out, obs_step (Pkt c 1 m) s = Some (s', out) /\ measures (os ++ [Pkt c 1 m]) s' /\ deltas out = [].
Proof.
  intros Hm Hlen Hc0. destruct (measures_tick os (Pkt c 1 m) c s Hm Hlen eq_refl Hc0) as [Hc Hy].
  pose proof Hm as [_ _ _ Hr Hp]. cbn [obs_step]. unfold delay_event. cbn [Z.eqb Pos.eqb].
  assert (~ rx_open (os ++ [Pkt c 1 m])) as Hnr.
  { rewrite rx_open_snoc. cbn [evt]. intros [[n ?]|(_ & _ & H)]; [congruence|]. by apply (H m). }
  destruct (Z.eqb_spec (rxstart (tick c s)) (-1)) as [E|E]; cbn [tick rxstart] in E.
  - eexists _, []. split; [reflexivity|]. split; [|done]. assert (~ rx_open os) as Hn by (rewrite <- Hr; lia).
    split; try done; cbn [tick packets].
    apply (packets_step _ _ (packets s)); [done|]. intros n v. split.
    + intros H. right. split_and!; [done|done|done|]. by intros (_ & _ & ?).
    + intros [[(_ & _ & ?) _]|(? & _)]; done.
  - assert (rx_open os) as Ho by (by apply Hr). destruct (Z.eqb_spec m 0) as [->|Hm0]; cbn [negb].
    + eexists _, []. split; [reflexivity|]. split; [|done]. split; try done; cbn [tick rxstart packets].
      apply (packets_step _ _ (packets s)); [done|]. intros n v. split.
      * intros H. right. split_and!; [done|done|done|]. cbn [evt]. intros ([= <-] & ? & _). done.
      * intros [[(E1 & ? & _) _]|(? & _)]; [|done]. cbn [evt] in E1. congruence.
    + eexists _, [OReceived m]. split; [reflexivity|]. split; [|done]. split; try done; cbn [tick rxstart packets lastCycles cycles].
      apply (packets_step _ _ (packets s)); [done|]. intros n v. rewrite Hc. cbn [snd tick cycles].
      destruct (decide (n = m)) as [->|Hne].
      * rewrite lookup_insert_eq. split; [intros [= <-]; left; by split|]. intros [[_ ->]|(_ & _ & _ & H)]; [done|]. by destruct H.
      * rewrite lookup_insert_ne by done. split.
        -- intros H. right. split_and!; [done|done|done|]. cbn [evt]. by intros ([= <-] & _).
        -- intros [[([= <-] & _) _]|(? & _)]; done.
Qed.

Lemma obs_step_send os c m s :
  Forall obs_ok os -> measures os s -> Z.of_nat (length os) < 2147483648 -> 0 <= c < 4294967296 ->
  exists s' out, obs_step (Pkt c 2 m) s = Some (s', out) /\ measures (os ++ [Pkt c 2 m]) s' /\
    forall n d, (n, d) ∈ deltas out <-> delay_now os (Pkt c 2 m) n d.
Proof.
  intros Hos Hm Hlen Hc0. destruct (measures_tick os (Pkt c 2 m) c s Hm Hlen eq_refl Hc0) as [Hc Hy].
  pose proof Hm as [_ _ Hy0 Hr Hp]. cbn [obs_step]. unfold delay_event. cbn [Z.eqb Pos.eqb].
  assert (rxstart (tick c s) <> -1 <-> rx_open (os ++ [Pkt c 2 m])) as Hr'.
  { cbn [tick rxstart]. rewrite Hr, rx_open_snoc. cbn [evt].
    split; [intros; right; split_and!; [done|done|congruence]|]. intros [[n ?]|(? & _)]; [congruence|done]. }
  assert (forall n v, delete m (packets s) !! n = Some v <->
    exists i, pending (os ++ [Pkt c 2 m]) n i /\ v = (clock (take (S i) (os ++ [Pkt c 2 m]))).2) as Hp'.
  { apply (packets_step _ _ (packets s)); [done|]. intros n v. rewrite lookup_delete_Some. cbn [evt]. split.
    - intros [Hne H]. right. split_and!; [done|done|congruence|]. intros [E _]. cbn [evt] in E. congruence.
    - intros [[[E _] _]|(? & _ & H & _)]; [cbn [evt] in E; congruence|]. split; [congruence|done]. }
  destruct (packets s !! m) as [v|] eqn:El.
  - destruct (proj1 (Hp m v) El) as (i & Hi & Ev). assert (m <> 0) as Hm0 by (by destruct Hi as [(_ & ? & _) _]).
    destruct (Z.eqb_spec m 0) as [?|_]; [done|]. cbn [negb tick packets]. rewrite El. eexists _, _. split; [reflexivity|]. split; [by split|].
    intros n d. cbn [deltas omap list_omap]. rewrite list_elem_of_singleton. unfold delay_now. rewrite Hc. cbn [snd evt].
    assert (s64 (cycles (tick c s) - v) = cycles (tick c s) - v) as Es.
    { apply (wraps_id 64); [lia|]. change (2 ^ (64 - 1)) with 9223372036854775808. rewrite length_app in Hy. cbn [length] in Hy.
      assert (0 <= v <= 4294967295 * Z.of_nat (length os)) as Hv.
      { rewrite Ev. pose proof (clock_range (take (S i) os) ltac:(by apply Forall_take)) as [_ Hv].
        assert (length (take (S i) os) <= length os)%nat by (rewrite length_take; lia). lia. }
      lia. }
    change (cycles (MkDelay _ _ _ _)) with (cycles (tick c s)). rewrite Es. split.
    + intros [= -> ->]. split; [done|]. exists i. split; [done|]. by rewrite Ev.
    + intros [[= ->] (j & Hj & ->)]. assert (packets s !! n = Some (clock (take (S j) os)).2) as E2 by (apply Hp; eauto). congruence.
  - assert (packets (tick c s) = delete m (packets s)) as Ed by (cbn [tick packets]; symmetry; by apply delete_id).
    assert (measures (os ++ [Pkt c 2 m]) (tick c s)) as Hms by (split; try done; by rewrite Ed).
    assert (forall n d, ~ delay_now os (Pkt c 2 m) n d) as Hno.
    { intros n d [[= <-] (i & Hi & _)]. assert (packets s !! m = Some (clock (take (S i) os)).2) as E2 by (apply Hp; eauto). congruence. }
    destruct (m =? 0); cbn [negb tick packets]; rewrite ?El; eexists _, _; (split; [reflexivity|]); (split; [exact Hms|]);
      intros n d; (split; [by intros ?%not_elem_of_nil|by intros ?%Hno]).
Qed.

Lemma obs_step_measures os o s :
  Forall obs_ok os -> measures os s -> Z.of_nat (length os) < 2147483648 -> obs_ok o ->
  exists s' out, obs_step o s = Some (s', out) /\ measures (os ++ [o]) s' /\
    forall n d, (n, d) ∈ deltas out <-> delay_now os o n d.
Proof.
  intros Hos Hm Hlen Ho. assert (forall out : list output, deltas out = [] -> (forall n, evt o <> Some (2, n)) ->
    forall n d, (n, d) ∈ deltas out <-> delay_now os o n d) as Hq.
  { intros out -> Hn n d. split; [by intros ?%not_elem_of_nil|]. intros [E _]. by destruct (Hn n). }
  destruct (evt o) as [[ty m]|] eqn:Ee.
  - destruct o as [| | |c ty' m']; try done. injection Ee as -> ->. destruct Ho as (Hc & Hty & _).
    rewrite !elem_of_cons, elem_of_nil in Hty.
    destruct (decide (ty = 2)) as [->|H2]; [by apply obs_step_send|]. destruct (decide (ty = 1)) as [->|H1].
    + destruct (obs_step_recv os c m s Hm Hlen Hc) as (s' & out & E & Hm' & Hd). exists s', out. split_and!; [done|done|].
      apply Hq; [done|]. cbn [evt]. congruence.
    + destruct (obs_step_start os c ty m s Hm Hlen Hc ltac:(tauto)) as (s' & E & Hm'). exists s', []. split_and!; [done|done|].
      apply Hq; [done|]. cbn [evt]. congruence.
  - destruct (obs_step_quiet os o s Hm Hlen Ho Ee) as (s' & E & Hm'). exists s', []. split_and!; [done|done|]. by apply Hq.
Qed.

Lemma obs_run_app os1 os2 s :
  obs_run (os1 ++ os2) s = ('(s1, out1) ← obs_run os1 s; '(s2, out2) ← obs_run os2 s1; Some (s2, out1 ++ out2)).
Proof.
  revert s. induction os1 as [|o os1 IH]; intros s; cbn [app obs_run].
  - cbn [mbind option_bind]. by destruct (obs_run os2 s) as [[s2 out2]|].
  - destruct (obs_step o s) as [[s' out]|]; [|done]. cbn [mbind option_bind]. rewrite IH.
    destruct (obs_run os1 s') as [[s1 out1]|]; [|done]. cbn [mbind option_bind].
    destruct (obs_run os2 s1) as [[s2 out2]|]; [|done]. cbn [mbind option_bind]. by rewrite app_assoc.
Qed.

Lemma measures_init : measures [] delay_init.
Proof.
  split; cbn; try done; try lia.
  - split; [done|]. by intros (h & n & H & _).
  - intros n v. rewrite lookup_empty. split; [done|]. by intros (i & [(H & _) _] & _).
Qed.

Lemma obs_run_measures os :
  Forall obs_ok os -> Z.of_nat (length os) <= 2147483648 ->
  exists s out, obs_run os delay_init = Some (s, out) /\ measures os s.
Proof.
  induction os as [|o os IH] using rev_ind; [intros; eexists _, _; split; [done|apply measures_init]|].
  intros [Hos Ho]%Forall_app Hlen. apply Forall_cons in Ho as [Ho _]. rewrite length_app in Hlen. cbn [length] in Hlen.
  destruct (IH Hos ltac:(lia)) as (s & out & E & Hm).
  destruct (obs_step_measures os o s Hos Hm ltac:(lia) Ho) as (s' & out' & E' & Hm' & _).
  rewrite obs_run_app, E. cbn [mbind option_bind obs_run]. rewrite E'. cbn [mbind option_bind]. eauto.
Qed.

(** All delays of a run. *)
Lemma obs_run_deltas os :
  Forall obs_ok os -> Z.of_nat (length os) <= 2147483648 ->
  exists s out, obs_run os delay_init = Some (s, out) /\ measures os s /\
    forall n d, (n, d) ∈ deltas out <-> exists j o, os !! j = Some o /\ delay_now (take j os) o n d.
Proof.
  induction os as [|o os IH] using rev_ind.
  { intros _ _. exists delay_init, []. split_and!; [done|apply measures_init|]. intros n d. split; [by intros ?%not_elem_of_nil|]. by intros (j & o & ? & _). }
  intros [Hos Ho]%Forall_app Hlen. apply Forall_cons in Ho as [Ho _]. rewrite length_app in Hlen. cbn [length] in Hlen.
  destruct (IH Hos ltac:(lia)) as (s & out & E & Hm & Hd).
  destruct (obs_step_measures os o s Hos Hm ltac:(lia) Ho) as (s' & out' & E' & Hm' & Hd').
  exists s', (out ++ out'). rewrite obs_run_app, E. cbn [mbind option_bind obs_run]. rewrite E'. cbn [mbind option_bind]. rewrite app_nil_r.
  split_and!; [done|done|]. intros n d. rewrite deltas_app, elem_of_app, Hd, Hd'. split.
  - intros [(j & o' & Hj & H)|H].
    + exists j, o'. pose proof (lookup_lt_Some _ _ _ Hj). rewrite lookup_app_l, take_app_le by lia. done.
    + exists (length os), o. rewrite list_lookup_middle, take_app_length by done. done.
  - intros (j & o' & Hj & H). apply lookup_app_Some in Hj as [Hj|[Hj Ho']].
    + left. exists j, o'. pose proof (lookup_lt_Some _ _ _ Hj). rewrite take_app_le in H by lia. done.
    + right. apply list_lookup_singleton_Some in Ho' as [Hz ->]. replace j with (length os) in H by lia. by rewrite take_app_length in H.
Qed.

(** *** Lines of a trace that goes on *)

Lemma token_line t : token_ok t -> exists l, token_text t = l ++ [10] /\ Forall (fun c => c <> 10) l.
Proof.
  destruct t as [e|]; [intros He|intros _; by exists (bytes_of "EOD"); split; [|repeat constructor]].
  destruct (delay_line_entry e delay_init He) as (l & E & Hl & _). eauto.
Qed.

Lemma scan_text_app ts1 ts2 : Forall token_ok ts1 ->
  scan_lines [] (trace_text (ts1 ++ ts2)) = scan_lines [] (trace_text ts1) ++ scan_lines [] (trace_text ts2).
Proof.
  induction 1 as [|t ts1 Ht _ IH]; [done|]. unfold trace_text in *. rewrite <- app_comm_cons, !fmap_cons. cbn [concat].
  destruct (token_line t Ht) as (l & -> & Hl). rewrite <- !app_assoc, !scan_line by done. cbn [app]. by rewrite IH.
Qed.

Lemma delay_lines_app l1 l2 s :
  delay_lines (l1 ++ l2) s = ('(s1, out1) ← delay_lines l1 s; '(s2, out2) ← delay_lines l2 s1; Some (s2, out1 ++ out2)).
Proof.
  revert s. induction l1 as [|l l1 IH]; intros s; cbn [app delay_lines].
  - cbn [mbind option_bind]. by destruct (delay_lines l2 s) as [[s2 out2]|].
  - destruct (delay_line l s) as [[s' out]|]; [|done]. cbn [mbind option_bind]. rewrite IH.
    destruct (delay_lines l1 s') as [[s1 out1]|]; [|done]. cbn [mbind option_bind].
    destruct (delay_lines l2 s1) as [[s2 out2]|]; [|done]. cbn [mbind option_bind]. by rewrite app_assoc.
Qed.
End measuring.

(** C27: the delays that [intraosdelay.go] prints. It reads every file the
    tracer's reader writes, as long as the packet events in it have one of the
    four types it knows. For the line of an entry behind any such trace it prints
    a delay exactly if the entry is the transmission of a packet on CPU 0 that
    is pending: received since the last end of data and after the driver had
    restarted its receive loop, and not sent since. The delay is the
    difference of the cycles summed up at the two lines. *)
Theorem delays_measured (ts : list (option sepentry)) (t : option sepentry) :
  Forall token_ok (ts ++ [t]) -> Forall (fun t => obs_ok (obs_of t)) (ts ++ [t]) -> Z.of_nat (length ts) < 2147483648 ->
  exists out out',
    intraosdelay (trace_text ts) = Some (out ++ [ODone]) /\
    intraosdelay (trace_text (ts ++ [t])) = Some (out ++ out' ++ [ODone]) /\
    forall n d, (n, d) ∈ deltas out' <->
      evt (obs_of t) = Some (2, n) /\
      exists i, pending (obs_of <$> ts) n i /\
        d = (clock (obs_of <$> (ts ++ [t]))).2 - (clock (take (S i) (obs_of <$> ts))).2.
Proof.
  intros [Hts Ht]%Forall_app [Hos Ho]%Forall_app Hlen. pose proof (Forall_cons_1 _ _ _ Ht) as [Ht1 _].
  apply Forall_cons in Ho as [Ho _]. assert (Forall obs_ok (obs_of <$> ts)) as Hos' by (by apply Forall_fmap).
  destruct (obs_run_measures (obs_of <$> ts) Hos' ltac:(rewrite length_fmap; lia)) as (s & o1 & E1 & Hm).
  destruct (obs_step_measures _ (obs_of t) s Hos' Hm ltac:(rewrite length_fmap; lia) Ho) as (s' & o2 & E2 & _ & Hd).
  pose proof (delay_reads ts delay_init Hts) as H1. rewrite E1 in H1. destruct H1 as (out & L1 & _).
  pose proof (delay_reads [t] s Ht) as H2. cbn [fmap list_fmap obs_run] in H2. rewrite E2 in H2. cbn [mbind option_bind] in H2.
  destruct H2 as (out' & L2 & Ed). rewrite app_nil_r in Ed. exists out, out'. unfold intraosdelay. split; [by rewrite L1|].
  split; [rewrite scan_text_app, delay_lines_app, L1 by done; cbn [mbind option_bind]; rewrite L2; cbn [mbind option_bind]; by rewrite <- app_assoc|].
  intros n d. rewrite Ed, Hd. unfold delay_now. by rewrite fmap_app.
Qed.

Definition pkt_entry (cyc ty n : Z) : sepentry :=
  MkEntry (sepentry_type_val PKTEXTRACT) cyc 4660 ty n 0 3221225472 310 0.
Definition sample_trace : list (option sepentry) :=
  [Some (pkt_entry 100 0 0); Some (pkt_entry 4294967000 1 7);
   Some (MkEntry (sepentry_type_val CTXSWITCH) 1234 1 2 0 0 0 1 1); Some (MkEntry (sepentry_type_val CTXSWITCH) 50 1 2 0 0 0 1 0)].

Lemma sample_trace_ok :
  Forall token_ok (sample_trace ++ [Some (pkt_entry 350 2 7)]) /\
  Forall (fun t => obs_ok (obs_of t)) (sample_trace ++ [Some (pkt_entry 350 2 7)]).
Proof.
  assert (forall e ty, sepentry_wf e -> ty <> __TYPE_FIRST -> se_type e = sepentry_type_val ty -> token_ok (Some e)) as H
    by (intros e ty Hwf Hne E; split; [done|by exists ty]).
  split.
  - repeat (apply Forall_cons; split; [eapply H; [split; cbn; lia| |reflexivity]; done|]). constructor.
  - repeat (apply Forall_cons; split; [vm_compute; try done; split_and!; try done; repeat constructor|]). constructor.
Qed.

Lemma delays_measured_witness :
  exists out out',
    intraosdelay (trace_text sample_trace) = Some (out ++ [ODone]) /\
    intraosdelay (trace_text (sample_trace ++ [Some (pkt_entry 350 2 7)])) = Some (out ++ out' ++ [ODone]) /\
    forall n d, (n, d) ∈ deltas out' <->
      evt (obs_of (Some (pkt_entry 350 2 7))) = Some (2, n) /\
      exists i, pending (obs_of <$> sample_trace) n i /\
        d = (clock (obs_of <$> (sample_trace ++ [Some (pkt_entry 350 2 7)]))).2
            - (clock (take (S i) (obs_of <$> sample_trace))).2.
Proof.
  apply (delays_measured sample_trace (Some (pkt_entry 350 2 7))); [apply sample_trace_ok|apply sample_trace_ok|].
  vm_compute. reflexivity.
Defined.

(** The same run by computation: the counter wrapped once. *)
Example sample_delay :
  deltas <$> intraosdelay (trace_text (sample_trace ++ [Some (pkt_entry 350 2 7)])) = Some [(7, 645)].
Proof. vm_compute. reflexivity. Qed.

(** ** Cycles and time *)

(** [delta] on two values of a 32-bit counter that counts on between them. *)
Lemma delta_time a b : 0 <= a -> a <= b < a + 4294967296 ->
  delta (a mod 4294967296) (b mod 4294967296) = (b - a) - (b / 4294967296 - a / 4294967296).
Proof.
  intros Ha Hb. pose proof (Z.mod_pos_bound a 4294967296). pose proof (Z.mod_pos_bound b 4294967296).
  destruct (delta_range (a mod 4294967296) (b mod 4294967296)) as [_ ->]; [lia|lia|].
  destruct (Z.ltb_spec (b mod 4294967296) (a mod 4294967296)); dlia.
Qed.

(** The times at which the entries of CPU 0 in [os] were made, and the last one
    of them, given the one before. *)
Fixpoint timed (t0 : Z) (os : list obs) (t1 : Z) : Prop :=
  match os with
  | [] => t1 = t0
  | o :: os' => match cyc_of o with
                | None => timed t0 os' t1
                | Some c => exists t, c = t mod 4294967296 /\ t0 <= t < t0 + 4294967296 /\ timed t os' t1
                end
  end.

(** The cycles summed up fall behind. Between two entries of CPU 0, made at
    [t0] and [t1] with no gap of 2^32 cycles or more, the program counts one
    cycle less than have passed for every time the counter of 32 bits wrapped,
    because it takes the distance to [0xFFFFFFFF] and not to [0x100000000]. *)
Theorem clock_falls_behind (os1 os2 : list obs) (t0 t1 : Z) :
  0 <= t0 -> (clock os1).1 = t0 mod 4294967296 -> timed t0 os2 t1 ->
  (clock (os1 ++ os2)).2 - (clock os1).2 = (t1 - t0) - (t1 / 4294967296 - t0 / 4294967296).
Proof.
  revert os1 t0. induction os2 as [|o os2 IH]; intros os1 t0 H0 Hc Ht.
  - cbn in Ht. subst t1. rewrite app_nil_r. lia.
  - replace (os1 ++ o :: os2) with ((os1 ++ [o]) ++ os2) by (by rewrite <- app_assoc). cbn [timed] in Ht.
    destruct (cyc_of o) as [c|] eqn:Eo.
    + destruct Ht as (t & -> & Hr & Ht). specialize (IH (os1 ++ [o]) t ltac:(lia)). rewrite clock_snoc, Eo in IH. cbn [fst snd] in IH.
      specialize (IH eq_refl Ht). rewrite Hc, delta_time in IH by lia. lia.
    + specialize (IH (os1 ++ [o]) t0 H0). rewrite clock_snoc, Eo in IH. by apply IH.
Qed.

Lemma clock_falls_behind_witness :
  (clock ([Pkt 4294967000 1 7] ++ [Tick 50; Other; Pkt 350 2 7])).2 - (clock [Pkt 4294967000 1 7]).2
  = (4294967646 - 4294967000) - (4294967646 / 4294967296 - 4294967000 / 4294967296).
Proof.
  apply (clock_falls_behind [Pkt 4294967000 1 7] [Tick 50; Other; Pkt 350 2 7] 4294967000 4294967646); [lia|reflexivity|].
  cbn [timed cyc_of]. exists 4294967346. split; [reflexivity|]. split; [lia|]. exists 4294967646. split; [reflexivity|].
  split; [lia|]. reflexivity.
Defined.

(** ** Migrations *)

(** [migrationdelay.go] looks for the thread given on its command line in the
    third field, which is the task that was running when the entry was made. The
    migrated thread is in the fifth field: the migration of thread 93 by thread
    7 is overlooked, and that of thread 7 by thread 93 is taken for it. *)
Definition migrate_entry (current pid : Z) : sepentry :=
  MkEntry (sepentry_type_val MIGRATE) 500 pid 1 0 0 0 current 0.

Lemma migration_of_current_task :
  migr_line 93 (default [] (head (scan_lines [] (line_of (migrate_entry 7 93))))) (MkMigr delay_init 0)
    = Some (MkMigr (MkDelay (-1) 500 500 ∅) 0, []) /\
  migr_line 93 (default [] (head (scan_lines [] (line_of (migrate_entry 93 7))))) (MkMigr delay_init 0)
    = Some (MkMigr (MkDelay (-1) 500 500 ∅) 500, [OMigration 500]).
Proof. split; vm_compute; reflexivity. Qed.
