(* ===== verification/Pipeline.v ===== *)
(** * From the probes to the delays

    The parts of the system in a row: probes call [trace_entry] in the kernel,
    the wake-up reaches the reader, the reader asks for the entries and writes
    the trace file, and [intraosdelay.go] measures the delays of the packets in
    that file. Composed of the theorems about the parts: [Tracer], [Usnl],
    [Gotext] and [Delay]. *)

From S2P Require Import Prelude Sepext Vsprintf Tracer Usnl Gotext Delay.
From stdpp Require Import prelude list.
From Stdlib Require Import ZArith Lia.

Open Scope Z_scope.
Open Scope list_scope.

(** The calls in the kernel as the observations of the delay measurement: those
    made until the buffer is full, between two end-of-data markers. *)
Definition call_obs (ids envs : nat -> cpu_env) (avail : Z) (l : list te_args) : list obs :=
  [Eod] ++ ((fun e => obs_of (Some e)) <$> take (Z.to_nat avail) (call_entries ids 0 id_calls ++ call_entries envs 0 l)) ++ [Eod].

(** Packet events have one of the types the measurement knows. *)
Definition packet_call_ok (a : te_args) : Prop :=
  te_type a = PKTEXTRACT -> u16 (te_pid2 a) ∈ [0; 1; 2; 4].

Section pipeline.
Lemma recorded_obs_ok e :
  recorded e -> (se_type e = sepentry_type_val PKTEXTRACT -> u16 (se_pid2 e) ∈ [0; 1; 2; 4]) -> obs_ok (obs_of (Some e)).
Proof.
  intros [Hwf _] Hp. destruct Hwf as [_ Hcy _ _ Hd _ _ _ _]. unfold obs_of. destruct (negb _); [done|].
  destruct (Z.eqb_spec (se_type e) (sepentry_type_val PKTEXTRACT)); cbn [obs_ok]; [|lia]. split_and!; [lia|lia|auto|lia].
Qed.

Lemma call_entries_Forall (P : sepentry -> Prop) envs k l :
  Forall (fun a => forall env, P (make_entry env a)) l -> Forall P (call_entries envs k l).
Proof.
  intros H. revert k. induction H as [|a l Ha _ IH]; intros k; [constructor|]. rewrite call_entries_cons. by constructor.
Qed.

Lemma text_of_round es : EOD_line ++ concat (line_of <$> es) ++ EOD_line = trace_text ([None] ++ (Some <$> es) ++ [None]).
Proof.
  unfold trace_text. rewrite !fmap_app, !concat_app. cbn [fmap list_fmap concat token_text app]. rewrite app_nil_r. f_equal. f_equal.
  rewrite <- list_fmap_compose. done.
Qed.

Lemma sepentry_type_inj t t' : sepentry_type_val t = sepentry_type_val t' -> t = t'.
Proof. destruct t, t'; (done || (vm_compute; discriminate)). Qed.
End pipeline.

(** C12: from the probes to the delays. A reader starts tracing, the probes
    record more calls than the buffer holds, the wake-up is delivered and the
    reader writes the trace file. [intraosdelay.go] reads that file, and prints
    the delay [d] for packet [n] if and only if one of the calls recorded was the
    transmission of [n] on CPU 0 while [n] was pending: received on CPU 0 behind a
    start of the receive loop and not sent since. [d] is the difference of the
    cycles summed up at the two calls. *)
Theorem packet_delays_end_to_end (pid : Z) (envs ids : nat -> cpu_env) (k : tracer) (l : list te_args) (stack : list Z) :
  tracer_ok k -> 147 <= avail_entries k < 147 + Z.of_nat (length l) -> avail_entries k < 2147483640 ->
  stop_tracing_requested k = 0 -> tasklet_scheduled k = 0 -> lastread k = 0 -> pid <> 0 ->
  Forall probe_call l -> Forall (fun a => te_type a <> __TYPE_FIRST) l -> Forall packet_call_ok l ->
  exists k' u' out, sys_run pid true ids
      (replicate 3 EvUsnl ++ probe_events envs 0 l ++ [EvDeliver stack; EvUsnl]
        ++ replicate (2 * Z.to_nat (avail_entries k) + 2) EvUsnl)
      (MkSys k (usnl_init (0, 0)) [] []) = Some (MkSys k' u' [] []) /\
    intraosdelay (u_file u') = Some (out ++ [ODone]) /\
    forall n d, (n, d) ∈ deltas out <->
      let os := call_obs ids envs (avail_entries k) l in
      exists j o, os !! j = Some o /\ delay_now (take j os) o n d.
Proof.
  intros Hk Hav Hmax Hst Htas Hrd Hpid Hpr Hty Hpk.
  destruct (first_round pid envs ids k l stack) as (k' & u' & E & _ & Hfile & _); try done. exists k', u'.
  set (es := take _ _) in Hfile. rewrite text_of_round in Hfile.
  assert (Forall recorded es) as Hrec.
  { apply Forall_take, Forall_app. split; apply call_entries_recorded; [|done]. eapply Forall_impl; [apply id_calls_types|].
    intros a. cbv beta. intros Ha Heq. rewrite Heq in Ha. vm_compute in Ha. discriminate. }
  assert (Forall (fun e => se_type e = sepentry_type_val PKTEXTRACT -> u16 (se_pid2 e) ∈ [0; 1; 2; 4]) es) as Hp.
  { apply Forall_take, Forall_app. split; apply call_entries_Forall.
    - eapply Forall_impl; [apply id_calls_types|]. intros a. cbv beta. intros Ha env He. cbn [se_type make_entry] in He. rewrite He in Ha. vm_compute in Ha. discriminate.
    - eapply Forall_impl; [exact Hpk|]. intros a Ha env He. cbn [se_type se_pid2 make_entry] in *. rewrite (u16_id (u16 _)) by apply u16_range. by apply Ha, sepentry_type_inj. }
  set (ts := [None] ++ (Some <$> es) ++ [None]) in *. assert (call_obs ids envs (avail_entries k) l = obs_of <$> ts) as Hos.
  { unfold call_obs, ts. rewrite !fmap_app. cbn [fmap list_fmap obs_of]. by rewrite <- list_fmap_compose. }
  assert (Forall token_ok ts) as Hts.
  { unfold ts. rewrite !Forall_app. split_and!; try (by repeat constructor). by apply Forall_fmap. }
  assert (Forall obs_ok (obs_of <$> ts)) as Hok.
  { rewrite <- Hos. unfold call_obs. rewrite !Forall_app. split_and!; try (by repeat constructor). apply Forall_fmap.
    apply Forall_forall. intros e He. apply recorded_obs_ok; [by eapply (proj1 (Forall_forall _ _) Hrec)|by apply (proj1 (Forall_forall _ _) Hp)]. }
  destruct (obs_run_deltas (obs_of <$> ts) Hok) as (s & o & Er & _ & Hd).
  { rewrite length_fmap. unfold ts. rewrite !length_app, length_fmap. cbn [length]. unfold es. rewrite length_take. lia. }
  pose proof (delay_reads ts delay_init Hts) as H. rewrite Er in H. destruct H as (out & El & Ed). exists out.
  split; [done|]. split; [unfold intraosdelay; by rewrite Hfile, El|]. intros n d. cbv zeta. by rewrite Ed, Hd, Hos.
Qed.

(** The receive loop starts, packet 7 is received and sent; the last two calls
    find the buffer full. *)
Definition packet_call (ty n : Z) : te_args := MkTe 3221225472 PKTEXTRACT 4660 ty n 0.
Definition pipeline_calls : list te_args :=
  [packet_call 0 0; packet_call 1 7; packet_call 2 7; packet_call 1 8; packet_call 2 8].
Definition pipeline_envs (i : nat) : cpu_env := MkEnv (1000 * Z.of_nat i) 1 0.

Lemma packet_delays_end_to_end_witness :
  exists k' u' out, sys_run 77 true pipeline_envs
      (replicate 3 EvUsnl ++ probe_events pipeline_envs 0 pipeline_calls ++ [EvDeliver []; EvUsnl]
        ++ replicate (2 * Z.to_nat 150 + 2) EvUsnl)
      (MkSys (sample_tracer 150) (usnl_init (0, 0)) [] []) = Some (MkSys k' u' [] []) /\
    intraosdelay (u_file u') = Some (out ++ [ODone]) /\
    forall n d, (n, d) ∈ deltas out <->
      let os := call_obs pipeline_envs pipeline_envs 150 pipeline_calls in
      exists j o, os !! j = Some o /\ delay_now (take j os) o n d.
Proof.
  apply (packet_delays_end_to_end 77 pipeline_envs pipeline_envs (sample_tracer 150) pipeline_calls []);
    [exact sample_150_ok|vm_compute; split; congruence|reflexivity..|lia| | |].
  - repeat constructor.
  - repeat constructor; discriminate.
  - repeat (apply Forall_cons; split; [intros _; apply (bool_decide_unpack _); vm_compute; exact I|]). constructor.
Defined.

(** The delay by computation. *)
Example pipeline_delay :
  (s ← sys_run 77 true pipeline_envs
      (replicate 3 EvUsnl ++ probe_events pipeline_envs 0 pipeline_calls ++ [EvDeliver []; EvUsnl]
        ++ replicate (2 * Z.to_nat 150 + 2) EvUsnl)
      (MkSys (sample_tracer 150) (usnl_init (0, 0)) [] []);
   deltas <$> intraosdelay (u_file (usr s))) = Some [(7, 1000)].
Proof. vm_compute. reflexivity. Qed.
