(* ===== verification/Analyse.v ===== *)
(** * The trace analyser

    [analyse.go] reads a trace and cuts it into services: for every LEU (a
    thread or an interrupt) it keeps a stack of the services that are being
    executed, and when a service ends it files the entries seen in it under the
    LEU and the name of the service. This file models [run] with all its event
    handlers; the statistics made of the result afterwards ([createSignatures],
    [storeSignatures]) are not modelled.

    The program shares trace entries by pointer and changes some of them later
    (a loop is renamed when it restarts, a queue event when the next one belongs
    to it), so entries live in a heap: a pointer is an index into it. Slices of
    entries are lists of pointers; the other slices and maps are never shared
    under two names, and are values. A panic is [None]: an index outside a slice, a write
    to a nil map, the dereferencing of a nil pointer or the call of [panic].
    Strings are lists of bytes. An [int] has 64 bits; no trace is long enough to
    overflow the counters of this program, which are integers here. *)

From S2P Require Import Prelude Sepext Vsprintf Tracer Usnl Gotext Delay.
From stdpp Require Import prelude gmap list strings.
From Stdlib Require Import ZArith Lia.

Open Scope Z_scope.
Open Scope list_scope.

(** ** Data *)

Record Entry := MkE {
  EventType : list Z; CPU : Z; CurrentPid : Z; Pid1 : Z; Pid2 : Z;
  PacketId : list Z; Service : list Z; Location : list Z; Cycles : Z; LineNr : Z;
  e_TempVarId : Z; e_TempVars : list (list Z * Z); PEUDuration : Z; PEUIRQ : Z }.

(** [LEU]: name and pid. *)
Abbreviation LEU := (list Z * Z)%type.

Record ServiceStackElement := MkElem { Name : list Z; Entries : list nat; PacketIds : list Z }.
Record LEUentry := MkLEUentry { le_Entries : list nat; le_PacketIds : list Z }.
Record TempVar := MkTempVar { tv_Entry : option nat; tv_Value : Z }.

Record State := MkState {
  CurrentLEU : gmap Z LEU;
  ServiceStack : gmap Z (gmap LEU (list ServiceStackElement));
  Interrupted : list LEU;
  PEUStart : option nat; PEUEntries : list nat;     (* CurrentPEU *)
  LEUs : gmap LEU (gmap (list Z) (list LEUentry));
  TempVars : gmap (list Z) TempVar;
  LastAppended : option nat;
  TempVarId : Z;
  pktextrnr : Z;
  heap : list Entry }.

Definition set_CurrentLEU v s := MkState v (ServiceStack s) (Interrupted s) (PEUStart s) (PEUEntries s) (LEUs s)
  (TempVars s) (LastAppended s) (TempVarId s) (pktextrnr s) (heap s).
Definition set_ServiceStack v s := MkState (CurrentLEU s) v (Interrupted s) (PEUStart s) (PEUEntries s) (LEUs s)
  (TempVars s) (LastAppended s) (TempVarId s) (pktextrnr s) (heap s).
Definition set_Interrupted v s := MkState (CurrentLEU s) (ServiceStack s) v (PEUStart s) (PEUEntries s) (LEUs s)
  (TempVars s) (LastAppended s) (TempVarId s) (pktextrnr s) (heap s).
Definition set_PEU st es s := MkState (CurrentLEU s) (ServiceStack s) (Interrupted s) st es (LEUs s)
  (TempVars s) (LastAppended s) (TempVarId s) (pktextrnr s) (heap s).
Definition set_LEUs v s := MkState (CurrentLEU s) (ServiceStack s) (Interrupted s) (PEUStart s) (PEUEntries s) v
  (TempVars s) (LastAppended s) (TempVarId s) (pktextrnr s) (heap s).
Definition set_TempVars v s := MkState (CurrentLEU s) (ServiceStack s) (Interrupted s) (PEUStart s) (PEUEntries s) (LEUs s)
  v (LastAppended s) (TempVarId s) (pktextrnr s) (heap s).
Definition set_LastAppended v s := MkState (CurrentLEU s) (ServiceStack s) (Interrupted s) (PEUStart s) (PEUEntries s) (LEUs s)
  (TempVars s) v (TempVarId s) (pktextrnr s) (heap s).
Definition set_TempVarId v s := MkState (CurrentLEU s) (ServiceStack s) (Interrupted s) (PEUStart s) (PEUEntries s) (LEUs s)
  (TempVars s) (LastAppended s) v (pktextrnr s) (heap s).
Definition set_pktextrnr v s := MkState (CurrentLEU s) (ServiceStack s) (Interrupted s) (PEUStart s) (PEUEntries s) (LEUs s)
  (TempVars s) (LastAppended s) (TempVarId s) v (heap s).
Definition set_heap v s := MkState (CurrentLEU s) (ServiceStack s) (Interrupted s) (PEUStart s) (PEUEntries s) (LEUs s)
  (TempVars s) (LastAppended s) (TempVarId s) (pktextrnr s) v.

(** Copies of an entry with one field changed. *)
Definition with_EventType v e := MkE v (CPU e) (CurrentPid e) (Pid1 e) (Pid2 e) (PacketId e) (Service e) (Location e)
  (Cycles e) (LineNr e) (e_TempVarId e) (e_TempVars e) (PEUDuration e) (PEUIRQ e).
Definition with_PacketId v e := MkE (EventType e) (CPU e) (CurrentPid e) (Pid1 e) (Pid2 e) v (Service e) (Location e)
  (Cycles e) (LineNr e) (e_TempVarId e) (e_TempVars e) (PEUDuration e) (PEUIRQ e).
Definition with_Service v e := MkE (EventType e) (CPU e) (CurrentPid e) (Pid1 e) (Pid2 e) (PacketId e) v (Location e)
  (Cycles e) (LineNr e) (e_TempVarId e) (e_TempVars e) (PEUDuration e) (PEUIRQ e).
Definition with_Cycles v e := MkE (EventType e) (CPU e) (CurrentPid e) (Pid1 e) (Pid2 e) (PacketId e) (Service e) (Location e)
  v (LineNr e) (e_TempVarId e) (e_TempVars e) (PEUDuration e) (PEUIRQ e).
Definition with_TempVarId v e := MkE (EventType e) (CPU e) (CurrentPid e) (Pid1 e) (Pid2 e) (PacketId e) (Service e) (Location e)
  (Cycles e) (LineNr e) v (e_TempVars e) (PEUDuration e) (PEUIRQ e).
Definition with_TempVars v e := MkE (EventType e) (CPU e) (CurrentPid e) (Pid1 e) (Pid2 e) (PacketId e) (Service e) (Location e)
  (Cycles e) (LineNr e) (e_TempVarId e) v (PEUDuration e) (PEUIRQ e).
Definition with_PEU d irq e := MkE (EventType e) (CPU e) (CurrentPid e) (Pid1 e) (Pid2 e) (PacketId e) (Service e) (Location e)
  (Cycles e) (LineNr e) (e_TempVarId e) (e_TempVars e) d irq.

(** ** Programs: a state, and panics *)

Definition M (A : Type) : Type := State -> option (A * State).

#[export] Instance M_ret : MRet M := fun A x s => Some (x, s).
#[export] Instance M_bind : MBind M := fun A B k m s =>
  match m s with Some (x, s') => k x s' | None => None end.

Definition panic {A} : M A := fun _ => None.
Definition gets {A} (f : State -> A) : M A := fun s => Some (f s, s).
Definition modify (f : State -> State) : M unit := fun s => Some (tt, f s).
Definition need {A} (o : option A) : M A := match o with Some x => mret x | None => panic end.

(** Pointers to entries. *)
Definition deref (p : nat) : M Entry := h ← gets heap; need (h !! p).
Definition update (p : nat) (f : Entry -> Entry) : M unit :=
  e ← deref p; modify (fun s => set_heap (<[p := f e]> (heap s)) s).
Definition alloc (e : Entry) : M nat :=
  p ← gets (fun s => length (heap s)); modify (fun s => set_heap (heap s ++ [e]) s);; mret p.

(** Running a program. *)
Lemma bind_eq {A B} (m : M A) (k : A -> M B) s :
  (m ≫= k) s = match m s with Some (x, s') => k x s' | None => None end.
Proof. done. Qed.
Lemma ret_eq {A} (x : A) s : (mret x : M A) s = Some (x, s).
Proof. done. Qed.
Lemma gets_eq {A} (f : State -> A) s : gets f s = Some (f s, s).
Proof. done. Qed.
Lemma modify_eq f s : modify f s = Some (tt, f s).
Proof. done. Qed.
Lemma need_eq {A} (x : A) s : need (Some x) s = Some (x, s).
Proof. done. Qed.
Lemma deref_eq p e s : heap s !! p = Some e -> deref p s = Some (e, s).
Proof. intros H. unfold deref. by rewrite bind_eq, gets_eq, H. Qed.
Lemma alloc_eq e s : alloc e s = Some (length (heap s), set_heap (heap s ++ [e]) s).
Proof. done. Qed.

Ltac run1 :=
  first [rewrite bind_eq|rewrite gets_eq|rewrite modify_eq|rewrite ret_eq|rewrite need_eq|rewrite alloc_eq|erewrite deref_eq by eassumption];
  cbv beta iota.
Ltac runs := repeat run1.

(** [strings.Contains] *)
Fixpoint contains (sub s : list Z) : bool :=
  bool_decide (take (length sub) s = sub) || match s with [] => false | _ :: s' => contains sub s' end.
(** [len(s) >= len(pre) && s[0:len(pre)] == pre] *)
Definition has_prefix (pre s : list Z) : bool := bool_decide (take (length pre) s = pre).

(** [fmt.Sprintf("%d", x)] *)
Definition sprint_d (x : Z) : list Z := if x <? 0 then 45 :: dec_chars (- x) else dec_chars x.

(** The value [strconv.ParseInt(s, 16, 64)] returns when its error is ignored. *)
Fixpoint parse_sat (acc : Z) (s : list Z) : Z :=
  match s with
  | [] => Z.min acc (2 ^ 63 - 1)
  | c :: s' =>
      if digit_val c <? 16 then
        let acc := acc * 16 + digit_val c in
        if 2 ^ 64 <=? acc then 2 ^ 63 - 1 else parse_sat acc s'
      else 0
  end.
Definition parse_hex (s : list Z) : Z :=
  match parse_int 16 s with Some v => v | None => match s with 45 :: s' => - parse_sat 0 s' | 43 :: s' => parse_sat 0 s' | _ => parse_sat 0 s end end.

(** ** The service stacks *)

Definition GetIRQ (e : Entry) : M Z :=
  if has_prefix (bytes_of "HIRQ") (EventType e) then mret (Pid1 e) else panic.
Definition GetQueueAction (e : Entry) : M Z :=
  if bool_decide (EventType e = bytes_of "SRVQUEUE") then mret (Pid1 e) else panic.

Definition ENQUEUE : Z := 0.

Definition softirqs : gmap (list Z) (list Z) := list_to_map
  [(bytes_of "1", bytes_of "run_timer_softirq"); (bytes_of "2", bytes_of "net_tx_action"); (bytes_of "3", bytes_of "net_rx_action")].

Definition current (s : State) (cpu : Z) : LEU := default ([], 0) (CurrentLEU s !! cpu).

Definition GetCurrentServiceStack (p : nat) : M (list ServiceStackElement) :=
  e ← deref p; s ← gets id;
  match ServiceStack s !! CPU e with
  | Some m => mret (default [] (m !! current s (CPU e)))
  | None => modify (set_ServiceStack (<[CPU e := ∅]> (ServiceStack s)));; mret []
  end.

(** [s.ServiceStack[entry.CPU][s.CurrentLEU[entry.CPU]] = stack] *)
Definition SetStack (p : nat) (stack : list ServiceStackElement) : M unit :=
  e ← deref p; s ← gets id; m ← need (ServiceStack s !! CPU e);
  modify (set_ServiceStack (<[CPU e := <[current s (CPU e) := stack]> m]> (ServiceStack s))).

(** The top of a slice used as a stack, and the rest; an index of -1 panics. *)
Definition split_last {A} (l : list A) : M (list A * A) :=
  x ← need (last l); mret (take (length l - 1) l, x).

Definition Pop (p : nat) : M ServiceStackElement :=
  stack ← GetCurrentServiceStack p; '(rest, service) ← split_last stack; SetStack p rest;; mret service.

Definition GetTempVarId : M Z :=
  v ← gets TempVarId; modify (set_TempVarId (v + 1));; mret v.

Definition PushEntry (p : nat) : M unit :=
  stack ← GetCurrentServiceStack p; '(rest, top) ← split_last stack;
  SetStack p (rest ++ [MkElem (Name top) (Entries top ++ [p]) (PacketIds top)]);;
  modify (set_LastAppended (Some p)).

Definition PushService (p : nat) : M Z :=
  stack ← GetCurrentServiceStack p;
  (if (0 <? length stack)%nat then PushEntry p else mret tt);;
  modify (set_LastAppended (Some p));;
  mret (Z.of_nat (length stack)).

Definition PushNewService (p : nat) (newService : list Z) : M Z :=
  stack ← GetCurrentServiceStack p; e ← deref p;
  (if (0 <? length stack)%nat && negb (contains (bytes_of "irq_exit") (Location e))
   then c ← alloc e; PushEntry c else mret tt);;
  stack ← GetCurrentServiceStack p;
  SetStack p (stack ++ [MkElem newService [] []]);;
  e ← deref p; c ← alloc e; PushService c.

(** [state.LEUs[state.CurrentLEU[cpu]] = make(...)] if it is not there. *)
Definition ensure_LEU (cpu : Z) : M unit :=
  modify (fun s => match LEUs s !! current s cpu with
                   | Some _ => s
                   | None => set_LEUs (<[current s cpu := ∅]> (LEUs s)) s
                   end).

Definition PushServiceToLEU (p : nat) (elem : ServiceStackElement) : M unit :=
  e ← deref p; s ← gets id;
  m ← need (LEUs s !! current s (CPU e));
  modify (set_LEUs (<[current s (CPU e) :=
    <[Name elem := default [] (m !! Name elem) ++ [MkLEUentry (Entries elem) (PacketIds elem)]]> m]> (LEUs s))).

(** ** PEUs: work of a device that ends with an interrupt *)

Record peu_scan := MkScan { interruptWithIndex : nat; synchvar : list Z; intwithcompl : nat }.

(** "Got a match": the duration of the PEU is filled in. *)
Definition peu_match (v : peu_scan) : M unit :=
  s ← gets id; i ← need (PEUEntries s !! intwithcompl v); e ← deref i;
  start ← need (PEUStart s); se ← deref start;
  update start (with_PEU (Cycles e - Cycles se) (Pid1 e));;
  modify (set_PEU None []).

(** The loop over the entries of the PEU. *)
Fixpoint peu_loop (index : nat) (l : list nat) (v : peu_scan) : M unit :=
  match l with
  | [] => mret tt
  | p :: l' =>
      e ← deref p;
      if bool_decide (EventType e = bytes_of "HIRQENTRY") then peu_loop (S index) l' (MkScan index (synchvar v) (intwithcompl v))
      else if bool_decide (EventType e = bytes_of "HIRQEXIT") then peu_loop (S index) l' (MkScan 0 (synchvar v) (intwithcompl v))
      else if has_prefix (bytes_of "COMPL") (EventType e) || has_prefix (bytes_of "WAITCOMPL") (EventType e) then
        let v := if has_prefix (bytes_of "COMPL") (EventType e) && negb (interruptWithIndex v =? 0)%nat
                 then MkScan (interruptWithIndex v) (synchvar v) (interruptWithIndex v) else v in
        if bool_decide (synchvar v = []) then peu_loop (S index) l' (MkScan (interruptWithIndex v) (Service e) (intwithcompl v))
        else if bool_decide (synchvar v = Service e) && negb (intwithcompl v =? 0)%nat then peu_match v;; peu_loop (S index) l' v
        else peu_loop (S index) l' v
      else peu_loop (S index) l' v
  end.

Definition AppendToPEU (p : nat) : M unit :=
  e ← deref p;
  if CPU e =? 1 then mret tt
  else
    s ← gets id;
    if bool_decide (EventType e = bytes_of "PEUSTART") then
      modify (set_PEU (Some p) [])    (* the loop has nothing to look at *)
    else
      match PEUStart s with
      | None => mret tt
      | Some _ =>
          modify (set_PEU (PEUStart s) (PEUEntries s ++ [p]));;
          peu_loop 0 (PEUEntries s ++ [p]) (MkScan 0 [] 0)
      end.

(** [AppendToPEU] of the entry that was appended last to the service at [idx]. *)
Definition append_top (p : nat) (idx : nat) : M unit :=
  stack ← GetCurrentServiceStack p; elem ← need (stack !! idx); '(_, l) ← split_last (Entries elem); AppendToPEU l.

(** ** Event handlers *)

Definition handleCTXSW (p : nat) : M unit :=
  PushService p;;
  e ← deref p;
  modify (fun s => set_CurrentLEU (<[CPU e := (bytes_of "Thread", Pid2 e)]> (CurrentLEU s)) s);;
  PushService p;;
  ensure_LEU (CPU e).

(** The loop of [handleMIGRATE] over the CPUs. (Go visits a map in any order:
    the target is one of two CPUs, so at most one of them is looked at.) *)
Definition find_stack (newCPU : Z) (leu : LEU) (st : gmap Z (gmap LEU (list ServiceStackElement)))
    : option (Z * gmap LEU (list ServiceStackElement) * list ServiceStackElement) :=
  head (omap (fun cm : Z * gmap LEU (list ServiceStackElement) =>
          if cm.1 =? newCPU then None else (fun stack => (cm.1, cm.2, stack)) <$> cm.2 !! leu) (map_to_list st)).

Definition handleMIGRATE (p : nat) : M unit :=
  e ← deref p; s ← gets id;
  let leu := (bytes_of "Thread", Pid1 e) in
  match find_stack (Pid2 e) leu (ServiceStack s) with
  | None => mret tt
  | Some (cpu, m, stack) =>
      target ← need (ServiceStack s !! Pid2 e);
      modify (set_ServiceStack (<[cpu := delete leu m]> (<[Pid2 e := <[leu := stack]> target]> (ServiceStack s))))
  end.

Definition handleSRVENTRY (p : nat) : M unit :=
  update p (with_PacketId (bytes_of "0"));; e ← deref p; PushNewService p (Service e);; mret tt.

Definition handleSRVEXIT (p : nat) : M bool :=
  n ← PushService p;
  if n =? 0 then mret false
  else
    service ← Pop p; e ← deref p;
    ensure_LEU (CPU e);;
    modify (fun s => match LEUs s !! current s (CPU e) with
                     | Some m => match m !! Name service with
                                 | Some _ => s
                                 | None => set_LEUs (<[current s (CPU e) := <[Name service := []]> m]> (LEUs s)) s
                                 end
                     | None => s
                     end);;
    PushServiceToLEU p service;; PushService p;; mret true.

Definition handleHIRQEntry (p : nat) : M unit :=
  PushService p;;
  e ← deref p;
  modify (fun s => set_Interrupted (Interrupted s ++ [current s (CPU e)]) s);;
  irq ← GetIRQ e;
  modify (fun s => set_CurrentLEU (<[CPU e := (bytes_of "Hardware Interrupt", irq)]> (CurrentLEU s)) s);;
  ensure_LEU (CPU e);;
  n ← PushNewService p (bytes_of "HIRQ-" ++ sprint_d irq);
  if 0 <? n then append_top p (Z.to_nat (n - 1)) else mret tt.

Definition handleHIRQExit (p : nat) : M unit :=
  ok ← handleSRVEXIT p;
  if negb ok then mret tt
  else
    e ← deref p; i ← gets Interrupted; '(rest, leu) ← split_last i;
    modify (fun s => set_Interrupted rest (set_CurrentLEU (<[CPU e := leu]> (CurrentLEU s)) s));;
    n ← PushService p;
    if 0 <? n then append_top p (Z.to_nat (n - 1)) else mret tt.

Definition handleLOOPSTART (p : nat) : M unit :=
  stack ← GetCurrentServiceStack p; e ← deref p;
  if (0 <? length stack)%nat then PushNewService p (Location e);; mret tt else mret tt.

Definition handleLOOPRSTART (p : nat) : M unit :=
  stack ← GetCurrentServiceStack p;
  if (length stack =? 0)%nat then mret tt
  else
    '(_, topService) ← split_last stack; '(_, lastEntry) ← split_last (Entries topService);
    l ← deref lastEntry; e ← deref p;
    if bool_decide (EventType l = bytes_of "LOOPSTART") then
      update lastEntry (fun l => with_Cycles (Cycles e) (with_EventType (bytes_of "LOOPRSTART") l))
    else
      PushService p;;
      service ← Pop p;
      '(_, last) ← split_last (Entries service); l ← deref last;
      if negb (bool_decide (EventType l = bytes_of "LOOPRSTART")) then panic
      else
        first ← need (Entries service !! 0%nat);
        update first (with_EventType (bytes_of "LOOPSTART"));;
        PushServiceToLEU p service;;
        fe ← deref first; e ← deref p;
        firstEntry ← alloc (with_EventType (bytes_of "LOOPRSTART") (with_Cycles (Cycles e) fe));
        stack ← GetCurrentServiceStack p;
        SetStack p (stack ++ [MkElem (Name service) [] []]);;
        PushService firstEntry;; mret tt.

Definition handleLOOPSTOP (p : nat) : M unit :=
  stack ← GetCurrentServiceStack p;
  if (length stack <? 1)%nat then mret tt
  else
    service ← Pop p; e ← deref p;
    first ← need (Entries service !! 0%nat); fe ← deref first;
    copy ← alloc (with_Cycles (Cycles e) (with_EventType (bytes_of "LOOPRSTART") fe));
    let service := MkElem (Name service) (Entries service ++ [copy]) (PacketIds service) in
    (if bool_decide (EventType fe = bytes_of "LOOPRSTART") then
       update first (with_EventType (bytes_of "LOOPSTART"));; PushServiceToLEU p service
     else mret tt);;
    e2 ← alloc (with_EventType (bytes_of "LOOPSTOP") e);
    PushService e2;; mret tt.

Definition handleSRVQUEUE (p : nat) : M unit :=
  e ← deref p; action ← GetQueueAction e;
  if action =? ENQUEUE then
    (match softirqs !! Service e with
     | Some v => update p (with_Service v)
     | None => mret tt
     end);;
    PushService p;; mret tt
  else
    update p (with_PacketId (bytes_of "0"));; PushNewService p (Service e);; mret tt.

Definition handlePEUSTART (p : nat) : M unit :=
  n ← PushService p; if 0 <? n then append_top p (Z.to_nat (n - 1)) else mret tt.

Definition handleSync (p : nat) : M unit :=
  e ← deref p; tv ← gets (fun s => TempVars s !! Service e);
  let signal := bool_decide (EventType e = bytes_of "SEMUP") || bool_decide (EventType e = bytes_of "COMPL") in
  match tv with
  | Some tempVar =>
      stack ← GetCurrentServiceStack p;
      (match last stack with
       | Some lastService =>
           q ← need (tv_Entry tempVar);
           update q (fun t => with_TempVars (e_TempVars t ++ [(Name lastService, if signal then 1 else -1)]) t)
       | None => mret tt
       end);;
      update p (with_EventType (EventType e ++ [9] ++ bytes_of "(TEMP)"));;
      n ← PushService p;
      (if 0 <? n then stack ← GetCurrentServiceStack p; append_top p (length stack - 1) else mret tt);;
      let value := tv_Value tempVar + (if signal then 1 else -1) in
      modify (fun s => set_TempVars (if value =? 0 then delete (Service e) (TempVars s)
                                     else <[Service e := MkTempVar (tv_Entry tempVar) value]> (TempVars s)) s)
  | None =>
      n ← PushService p;
      if 0 <? n then stack ← GetCurrentServiceStack p; append_top p (length stack - 1) else mret tt
  end.

Definition handleTEMPSYNCH (p : nat) : M unit :=
  v ← GetTempVarId; update p (with_TempVarId v);; PushService p;;
  e ← deref p;
  modify (fun s => set_TempVars (<[Service e := MkTempVar (LastAppended s) 0]> (TempVars s)) s).

(** The loop at the end of the function appends the packet to copies of the
    elements of the stack, which is without effect. *)
Definition handlePKTQUEUE (p : nat) : M unit :=
  e ← deref p;
  (if bool_decide (EventType e = bytes_of "PKTQUEUEN") then
     la ← gets LastAppended; q ← need la; l ← deref q;
     if bool_decide (EventType l = bytes_of "PKTQUEUE") then
       update q (with_EventType (bytes_of "PKTQUEUEN"));; update p (with_EventType (bytes_of "PKTQUEUE"));;
       modify (fun s => set_pktextrnr (pktextrnr s + 1) s)
     else modify (set_pktextrnr 0)
   else modify (set_pktextrnr 0));;
  update p (fun e => with_PacketId (sprint_d (parse_hex (PacketId e))) e);;
  PushService p;; GetCurrentServiceStack p;; mret tt.

(** The map [handleEvent]; events without a handler are ignored. *)
Definition handlers : list (string * (nat -> M unit)) :=
  [("CTXSW", handleCTXSW); ("MIGRATE", handleMIGRATE); ("HIRQENTRY", handleHIRQEntry); ("HIRQEXIT", handleHIRQExit);
   ("LOOPRSTART", handleLOOPRSTART); ("LOOPSTART", handleLOOPSTART); ("LOOPSTOP", handleLOOPSTOP); ("PEUSTART", handlePEUSTART);
   ("COMPL", handleSync); ("SEMDOWN", handleSync); ("SEMUP", handleSync); ("WAITCOMPL", handleSync);
   ("PKTQUEUE", handlePKTQUEUE); ("PKTQUEUEN", handlePKTQUEUE);
   ("SRVENTRY", handleSRVENTRY); ("SRVEXIT", fun p => handleSRVEXIT p;; mret tt);
   ("SRVQUEUE", handleSRVQUEUE); ("TEMPSYNCH", handleTEMPSYNCH);
   ("QUEUECOND", fun p => PushService p;; mret tt); ("STATECOND", fun p => PushService p;; mret tt);
   ("STATEQUEUE", fun p => PushService p;; mret tt); ("SLEEP", fun p => PushService p;; mret tt);
   ("TTWAKEUP", fun p => PushService p;; mret tt); ("WAKEUP", fun p => PushService p;; mret tt)]%string.

Definition handleEvent (name : list Z) : option (nat -> M unit) :=
  (fun ih => ih.2.2) <$> list_find (fun h : string * (nat -> M unit) => bytes_of h.1 = name) handlers.

(** [e := Entry{...}] and the call of its handler. *)
Definition handle (e : Entry) : M unit :=
  match handleEvent (EventType e) with Some h => p ← alloc e; h p | None => mret tt end.

(** ** Reading the trace *)

Record PerCPUTraceState := MkTs { first : bool; limbo : bool; lastCycle : Z; ts_cycles : Z; cyc : Z }.

Record analysis := MkAn {
  an_state : State; traceState : list PerCPUTraceState;
  addr_map : gmap (list Z) Z; addr_map_synch : gmap (list Z) Z; lineNumber : Z }.

Definition state_init : State := MkState ∅ ∅ [] None [] ∅ ∅ None 0 0 [].
Definition analysis_init : analysis :=
  MkAn state_init (replicate 2 (MkTs true true 0 0 0)) ∅ ∅ 0.

(** What is reset at the end of a buffer: [Interrupted] is not. *)
Definition reset (s : State) : State :=
  set_PEU None [] (set_TempVars ∅ (set_CurrentLEU ∅ (set_ServiceStack ∅ s))).

(** The counters of a CPU when it makes an entry. *)
Definition advance (c : Z) (ts : PerCPUTraceState) : PerCPUTraceState :=
  let lastc := if first ts then c else cyc ts in
  MkTs false (limbo ts) (ts_cycles ts) (ts_cycles ts + delta lastc c) c.

(** How the body of the loop of [run] ends: with the next line, or by returning
    from [run]. *)
Inductive ends := Next (a : analysis) | Stop (a : analysis).

Definition analyse_line (line : list Z) (a : analysis) : option ends :=
  let a := MkAn (an_state a) (traceState a) (addr_map a) (addr_map_synch a) (lineNumber a + 1) in
  if (length line <? 3)%nat then None
  else if bool_decide (take 3 line = bytes_of "EOD") then
    Some (Next (MkAn (reset (an_state a))
      ((fun ts => MkTs true true (lastCycle ts) (ts_cycles ts) (cyc ts)) <$> traceState a)
      (addr_map a) (addr_map_synch a) (lineNumber a)))
  else
    let entry := split_ws line in
    name ← entry !! 0%nat;
    let is_queue := bool_decide (name = bytes_of "ID_QUEUE") in
    let is_synch := bool_decide (name = bytes_of "ID_SYNCH") in
    id ← (if is_queue || is_synch then f7 ← entry !! 7%nat; Some (negb (bool_decide (f7 = bytes_of "0"))) else Some false);
    if (id : bool) then
      f7 ← entry !! 7%nat; f4 ← entry !! 4%nat; pid1 ← atoi f4;
      Some (Next (if is_queue then MkAn (an_state a) (traceState a) (<[f7 := pid1]> (addr_map a)) (addr_map_synch a) (lineNumber a)
                  else MkAn (an_state a) (traceState a) (addr_map a) (<[f7 := pid1]> (addr_map_synch a)) (lineNumber a)))
    else if (length entry <? 9)%nat then Some (Next a)
    else
      f1 ← entry !! 1%nat; currentCPU ← atoi f1; ts ← zget (traceState a) currentCPU;
      if limbo ts && negb (bool_decide (name = bytes_of "CTXSW")) then Some (Next a)
      else
        let ts := MkTs (first ts) false (lastCycle ts) (ts_cycles ts) (cyc ts) in
        let put ts := MkAn (an_state a) (<[Z.to_nat currentCPU := ts]> (traceState a)) (addr_map a) (addr_map_synch a) (lineNumber a) in
        f2 ← entry !! 2%nat;
        match atoi f2 with
        | None => Some (Stop (put ts))
        | Some currentPid =>
            f3 ← entry !! 3%nat; c ← atoi f3;
            let ts := advance c ts in
            f4 ← entry !! 4%nat; pid1 ← atoi f4; f5 ← entry !! 5%nat; pid2 ← atoi f5;
            f6 ← entry !! 6%nat; f7 ← entry !! 7%nat; f8 ← entry !! 8%nat;
            let e := MkE name currentCPU currentPid pid1 pid2 f6 f7 f8 (ts_cycles ts) (lineNumber a) 0 [] 0 0 in
            '(_, s) ← handle e (an_state a);
            Some (Next (MkAn s (<[Z.to_nat currentCPU := ts]> (traceState a)) (addr_map a) (addr_map_synch a) (lineNumber a)))
        end.

Fixpoint analyse_lines (lines : list (list Z)) (a : analysis) : option analysis :=
  match lines with
  | [] => Some a
  | l :: lines' =>
      r ← analyse_line l a;
      match r with Next a => analyse_lines lines' a | Stop a => Some a end
  end.

(** [run] on the contents of its file. *)
Definition run (file : list Z) : option analysis := analyse_lines (scan_lines [] file) analysis_init.

(** ** Specification: service stacks of values

    On one CPU, for the events of service calls and interrupts and those that
    are only recorded, the sharing of entries cannot be observed: the analyser
    works as if the stacks held the entries themselves. A stack has its top
    first; [a_ins] has the completed executions of a service in an LEU. *)
Module StackSpec.
Record astate := MkA {
  a_cur : LEU;
  a_stk : LEU -> list (list Z * list Entry);
  a_int : list LEU;
  a_ins : LEU -> list Z -> list (list Entry) }.

Definition fupd {A B} `{EqDecision A} (f : A -> B) (a : A) (b : B) : A -> B :=
  fun x => if decide (x = a) then b else f x.

Definition set_stk (l : LEU) (st : list (list Z * list Entry)) (a : astate) : astate :=
  MkA (a_cur a) (fupd (a_stk a) l st) (a_int a) (a_ins a).
Definition top (a : astate) : list (list Z * list Entry) := a_stk a (a_cur a).

(** An entry is recorded in the service at the top, if there is one. *)
Definition record_top (e : Entry) (st : list (list Z * list Entry)) : list (list Z * list Entry) :=
  match st with [] => [] | (n, es) :: r => (n, es ++ [e]) :: r end.
Definition record (e : Entry) (a : astate) : astate := set_stk (a_cur a) (record_top e (top a)) a.

(** A service starts; the caller records it too, except in [irq_exit]. *)
Definition enter (e : Entry) (name : list Z) (a : astate) : astate :=
  let a := if contains (bytes_of "irq_exit") (Location e) then a else record e a in
  set_stk (a_cur a) ((name, [e]) :: top a) a.

(** A service ends: it is filed, and recorded by its caller. *)
Definition file (l : LEU) (n : list Z) (es : list Entry) (a : astate) : astate :=
  MkA (a_cur a) (a_stk a) (a_int a) (fupd (a_ins a) l (fupd (a_ins a l) n (a_ins a l n ++ [es]))).
Definition leave (e : Entry) (a : astate) : option astate :=
  match top (record e a) with
  | [] => None
  | (n, es) :: r => Some (record e (file (a_cur a) n es (set_stk (a_cur a) r a)))
  end.

(** Another LEU runs. *)
Definition switch (l : LEU) (i : list LEU) (a : astate) : astate := MkA l (a_stk a) i (a_ins a).

Definition irq_leu (e : Entry) : LEU := (bytes_of "Hardware Interrupt", Pid1 e).
Definition irq_name (e : Entry) : list Z := bytes_of "HIRQ-" ++ sprint_d (Pid1 e).

Definition interrupt (e : Entry) (a : astate) : astate :=
  let a := record e a in
  enter e (irq_name e) (switch (irq_leu e) (a_int a ++ [a_cur a]) a).
Definition resume (e : Entry) (a : astate) : option astate :=
  match leave e a with
  | None => Some a
  | Some a => l ← last (a_int a); Some (record e (switch l (take (length (a_int a) - 1) (a_int a)) a))
  end.

Definition quiet : list string := ["QUEUECOND"; "STATECOND"; "STATEQUEUE"; "SLEEP"; "TTWAKEUP"; "WAKEUP"]%string.
Definition is_quiet (e : Entry) : Prop := exists n, n ∈ quiet /\ EventType e = bytes_of n.

(** What the events of the specification do. *)
Inductive step : Entry -> astate -> astate -> Prop :=
  | step_quiet e a : is_quiet e -> step e a (record e a)
  | step_enter e a : EventType e = bytes_of "SRVENTRY" ->
      step e a (enter (with_PacketId (bytes_of "0") e) (Service e) a)
  | step_leave e a a' : EventType e = bytes_of "SRVEXIT" -> leave e a = Some a' -> step e a a'
  | step_idle e a : EventType e = bytes_of "SRVEXIT" -> leave e a = None -> step e a a
  | step_interrupt e a : EventType e = bytes_of "HIRQENTRY" -> step e a (interrupt e a)
  | step_resume e a a' : EventType e = bytes_of "HIRQEXIT" -> resume e a = Some a' -> step e a a'
  | step_switch e a : EventType e = bytes_of "CTXSW" ->
      step e a (let a := record e a in record e (switch (bytes_of "Thread", Pid2 e) (a_int a) a)).
End StackSpec.

Import StackSpec.

(** ** The analyser implements the specification *)

Definition derefs (h : list Entry) (ps : list nat) (es : list Entry) : Prop :=
  Forall2 (fun p e => h !! p = Some e) ps es.
Definition stack_rep (h : list Entry) (st : list ServiceStackElement) (v : list (list Z * list Entry)) : Prop :=
  Forall2 (fun el ne => Name el = ne.1 /\ derefs h (Entries el) ne.2) (rev st) v.

(** The executions of a service that the analyser has filed. *)
Definition filed (s : State) (l : LEU) (n : list Z) : list LEUentry :=
  default [] (LEUs s !! l ≫= fun m => m !! n).

Record rep (c : Z) (s : State) (a : astate) : Prop := {
  rp_cur : CurrentLEU s !! c = Some (a_cur a);
  rp_stk : exists m, ServiceStack s !! c = Some m /\ forall l, stack_rep (heap s) (default [] (m !! l)) (a_stk a l);
  rp_int : Interrupted s = a_int a;
  rp_peu : PEUStart s = None;
  rp_ins : forall l n, Forall2 (fun le es => derefs (heap s) (le_Entries le) es) (filed s l n) (a_ins a l n) }.

Section simulation.
Context (c : Z).

Lemma derefs_app h h' ps es : derefs h ps es -> derefs (h ++ h') ps es.
Proof. intros H. eapply Forall2_impl; [exact H|]. cbn. intros p e. apply lookup_app_l_Some. Qed.

Lemma stack_rep_app h h' st v : stack_rep h st v -> stack_rep (h ++ h') st v.
Proof. intros H. eapply Forall2_impl; [exact H|]. cbn. intros el ne [? ?]. split; [done|]. by apply derefs_app. Qed.

Lemma rep_alloc s a e : rep c s a -> rep c (set_heap (heap s ++ [e]) s) a.
Proof.
  intros [H1 (m & Hm & Hs) H3 H4 H5]. split; cbn; try done.
  - exists m. split; [done|]. intros l. by apply stack_rep_app.
  - intros l n. eapply Forall2_impl; [apply H5|]. cbn. intros. by apply derefs_app.
Qed.

Lemma fupd_eq {A B} `{EqDecision A} (f : A -> B) a b : fupd f a b a = b.
Proof. unfold fupd. by destruct (decide (a = a)). Qed.
Lemma fupd_ne {A B} `{EqDecision A} (f : A -> B) a b x : x <> a -> fupd f a b x = f x.
Proof. unfold fupd. by destruct (decide (x = a)). Qed.

Lemma rep_current s a : rep c s a -> current s c = a_cur a.
Proof. intros H. unfold current. by rewrite (rp_cur _ _ _ H). Qed.

(** Setting the stack of the running LEU. *)
Lemma sim_set s a p e st v :
  rep c s a -> heap s !! p = Some e -> CPU e = c -> stack_rep (heap s) st v ->
  exists s', SetStack p st s = Some (tt, s') /\ rep c s' (set_stk (a_cur a) v a) /\ heap s' = heap s /\ LEUs s' = LEUs s.
Proof.
  intros Hr Hp Hc Hst. pose proof (rep_current _ _ Hr) as Hcur. destruct Hr as [H1 (m & Hm & Hs) H3 H4 H5].
  unfold SetStack. runs. rewrite Hc. unfold id. rewrite Hm. runs.
  eexists. split; [reflexivity|]. split; [|done]. rewrite Hcur. split; cbn; try done.
  eexists. split; [by rewrite lookup_insert_eq|]. intros l. destruct (decide (l = a_cur a)) as [->|Hl].
  - by rewrite fupd_eq, lookup_insert_eq.
  - rewrite fupd_ne, lookup_insert_ne by done. apply Hs.
Qed.

Lemma sim_get s a p e :
  rep c s a -> heap s !! p = Some e -> CPU e = c ->
  exists st, GetCurrentServiceStack p s = Some (st, s) /\ stack_rep (heap s) st (top a).
Proof.
  intros Hr Hp Hc. pose proof (rep_current _ _ Hr) as Hcur. destruct Hr as [H1 (m & Hm & Hs) H3 H4 H5].
  unfold GetCurrentServiceStack. runs. unfold id. rewrite Hc, Hm, Hcur. runs.
  eexists. split; [reflexivity|]. apply Hs.
Qed.

Lemma stack_rep_nil h st : stack_rep h st [] -> st = [].
Proof. intros H%Forall2_nil_inv_r. rewrite <- (rev_involutive st), H. done. Qed.

Lemma stack_rep_top h st n es r :
  stack_rep h st ((n, es) :: r) ->
  exists rest el, st = rest ++ [el] /\ Name el = n /\ derefs h (Entries el) es /\ stack_rep h rest r.
Proof.
  unfold stack_rep. intros H. destruct st as [|el rest] using rev_ind; [by apply Forall2_nil_cons_inv in H|].
  rewrite rev_app_distr in H. cbn in H. apply Forall2_cons in H as [[? ?] ?]. by exists rest, el.
Qed.

Lemma stack_rep_cons h st el n es r :
  Name el = n -> derefs h (Entries el) es -> stack_rep h st r -> stack_rep h (st ++ [el]) ((n, es) :: r).
Proof. intros. unfold stack_rep. rewrite rev_app_distr. cbn. by constructor. Qed.

Lemma stack_rep_length h st v : stack_rep h st v -> length st = length v.
Proof. intros H%Forall2_length. by rewrite length_rev in H. Qed.

Lemma split_last_snoc {A} (l : list A) x s : split_last (l ++ [x]) s = Some ((l, x), s).
Proof.
  unfold split_last. rewrite last_snoc. runs. rewrite length_app. cbn [length].
  replace (length l + 1 - 1)%nat with (length l) by lia. by rewrite take_app_length.
Qed.

Lemma rep_last s a v : rep c s a -> rep c (set_LastAppended v s) a.
Proof. intros [H1 H2 H3 H4 H5]. by split. Qed.

Lemma derefs_snoc h ps es p e : derefs h ps es -> h !! p = Some e -> derefs h (ps ++ [p]) (es ++ [e]).
Proof. intros. apply Forall2_app; [done|]. by constructor. Qed.

Lemma sim_push_entry s a p e :
  rep c s a -> heap s !! p = Some e -> CPU e = c -> top a <> [] ->
  exists s', PushEntry p s = Some (tt, s') /\ rep c s' (record e a) /\ heap s' = heap s /\ LEUs s' = LEUs s.
Proof.
  intros Hr Hp Hc Hne. destruct (sim_get s a p e Hr Hp Hc) as (st & Eg & Hst). unfold PushEntry, record.
  destruct (top a) as [|[n es] r] eqn:Et; [done|]. destruct (stack_rep_top _ _ _ _ _ Hst) as (rest & el & -> & En & Hd & Hrest).
  runs. rewrite Eg. runs. rewrite split_last_snoc. runs.
  destruct (sim_set s a p e (rest ++ [MkElem (Name el) (Entries el ++ [p]) (PacketIds el)]) ((n, es ++ [e]) :: r) Hr Hp Hc)
    as (s' & Es & Hr' & Hh & Hl).
  { apply stack_rep_cons; [done|by apply derefs_snoc|done]. }
  rewrite Es. runs. eexists. split; [reflexivity|]. split; [by apply rep_last|done].
Qed.

Lemma record_empty e a : top a = [] -> forall l, a_stk (record e a) l = a_stk a l.
Proof.
  intros E l. unfold record. rewrite E. cbn. destruct (decide (l = a_cur a)) as [->|Hl]; [rewrite fupd_eq; by unfold top in E|].
  by rewrite fupd_ne.
Qed.

(** [rep] only looks at the values of the specification. *)
Lemma rep_ext s a a' :
  rep c s a -> a_cur a' = a_cur a -> a_int a' = a_int a -> (forall l, a_stk a' l = a_stk a l) ->
  (forall l n, a_ins a' l n = a_ins a l n) -> rep c s a'.
Proof.
  intros [H1 (m & Hm & Hs) H3 H4 H5] E1 E2 E3 E4. split; try congruence.
  - exists m. split; [done|]. intros l. rewrite E3. apply Hs.
  - intros l n. rewrite E4. apply H5.
Qed.

Lemma sim_push s a p e :
  rep c s a -> heap s !! p = Some e -> CPU e = c ->
  exists s', PushService p s = Some (Z.of_nat (length (top a)), s') /\ rep c s' (record e a) /\ heap s' = heap s /\ LEUs s' = LEUs s.
Proof.
  intros Hr Hp Hc. destruct (sim_get s a p e Hr Hp Hc) as (st & Eg & Hst). unfold PushService. runs. rewrite Eg. runs.
  rewrite (stack_rep_length _ _ _ Hst). destruct (top a) as [|ne r] eqn:Et.
  - cbn [length Nat.ltb Nat.leb]. runs. eexists. split; [reflexivity|].
    split; [|done]. apply rep_last. apply (rep_ext s a); try done. by apply record_empty.
  - destruct (sim_push_entry s a p e Hr Hp Hc ltac:(by rewrite Et)) as (s' & Es & Hr' & Hh & Hl).
    change (0 <? length (ne :: r))%nat with true. cbv iota. rewrite Es. runs. eexists. split; [reflexivity|].
    split; [by apply rep_last|done].
Qed.

Lemma top_set_stk v a : top (set_stk (a_cur a) v a) = v.
Proof. unfold top. cbn. apply fupd_eq. Qed.

Lemma stk_set_twice v v' a l : a_stk (set_stk (a_cur a) v (set_stk (a_cur a) v' a)) l = a_stk (set_stk (a_cur a) v a) l.
Proof. cbn. destruct (decide (l = a_cur a)) as [->|]; [by rewrite !fupd_eq|]. by rewrite !fupd_ne. Qed.

Lemma lookup_heap_last (h : list Entry) e : (h ++ [e]) !! length h = Some e.
Proof. by apply list_lookup_middle. Qed.

Lemma sim_new s a p e name :
  rep c s a -> heap s !! p = Some e -> CPU e = c ->
  exists s' h, PushNewService p name s = Some (Z.of_nat (S (length (top a))), s') /\ rep c s' (enter e name a) /\
    heap s' = heap s ++ h /\ LEUs s' = LEUs s.
Proof.
  intros Hr Hp Hc. destruct (sim_get s a p e Hr Hp Hc) as (st & Eg & Hst). unfold PushNewService. runs. rewrite Eg. runs.
  set (a1 := if contains (bytes_of "irq_exit") (Location e) then a else record e a).
  assert (exists s1 h1, ((if (0 <? length st)%nat && negb (contains (bytes_of "irq_exit") (Location e))
      then c0 ← alloc e; PushEntry c0 else mret tt) : M unit) s = Some (tt, s1) /\ rep c s1 a1 /\ heap s1 = heap s ++ h1 /\ LEUs s1 = LEUs s)
    as (s1 & h1 & E1 & Hr1 & Hh1 & Hl1).
  { rewrite (stack_rep_length _ _ _ Hst). subst a1. destruct (contains _ _); cbn [negb andb]; rewrite ?andb_false_r.
    - runs. exists s, []. rewrite app_nil_r. by split_and!.
    - rewrite andb_true_r. destruct (top a) as [|ne r] eqn:Et.
      + change (0 <? length (@nil (list Z * list Entry)))%nat with false. cbv iota. runs. exists s, []. rewrite app_nil_r. split_and!; try done.
        apply (rep_ext s a); try done. by apply record_empty.
      + change (0 <? length (ne :: r))%nat with true. cbv iota. runs.
        destruct (sim_push_entry (set_heap (heap s ++ [e]) s) a (length (heap s)) e) as (s1 & E & ? & Hh & ?);
          [by apply rep_alloc|apply lookup_heap_last|done|by rewrite Et|]. exists s1, [e]. by split_and!. }
  rewrite E1. runs.
  assert (heap s1 !! p = Some e) as Hp1 by (rewrite Hh1; by apply lookup_app_l_Some).
  destruct (sim_get s1 a1 p e Hr1 Hp1 Hc) as (st1 & Eg1 & Hst1). rewrite Eg1. runs.
  destruct (sim_set s1 a1 p e (st1 ++ [MkElem name [] []]) ((name, []) :: top a1) Hr1 Hp1 Hc) as (s2 & E2 & Hr2 & Hh2 & Hl2).
  { apply stack_rep_cons; [done|constructor|done]. }
  rewrite E2. runs. assert (heap s2 !! p = Some e) as Hp2 by (by rewrite Hh2). rewrite (deref_eq p e) by done. runs.
  destruct (sim_push (set_heap (heap s2 ++ [e]) s2) _ (length (heap s2)) e (rep_alloc _ _ e Hr2) (lookup_heap_last _ _) Hc)
    as (s3 & E3 & Hr3 & Hh3 & Hl3). rewrite E3, top_set_stk. exists s3, (h1 ++ [e]). split_and!.
  - assert (length (top a1) = length (top a)) as Ht; [|cbn [length]; by rewrite Ht].
    subst a1. destruct (contains _ _); [done|]. unfold record. rewrite top_set_stk. by destruct (top a) as [|[] ?].
  - eapply rep_ext; [exact Hr3|done|done| |done]. intros l. unfold record. rewrite top_set_stk. cbn [record_top app].
    change (a_cur (set_stk (a_cur a1) ((name, []) :: top a1) a1)) with (a_cur a1). rewrite stk_set_twice. done.
  - rewrite Hh3. cbn. rewrite Hh2, Hh1. by rewrite app_assoc.
  - rewrite Hl3. cbn. by rewrite Hl2, Hl1.
Qed.

(** Filing a service. *)
Lemma filed_insert s l m n v l' n' :
  LEUs s !! l = Some m ->
  filed (set_LEUs (<[l := <[n := v]> m]> (LEUs s)) s) l' n' = if decide (l' = l /\ n' = n) then v else filed s l' n'.
Proof.
  intros Hm. unfold filed. cbn [LEUs set_LEUs]. destruct (decide (l' = l)) as [->|Hl].
  - rewrite lookup_insert_eq, Hm. cbn. destruct (decide (n' = n)) as [->|Hn].
    + rewrite lookup_insert_eq. by rewrite decide_True.
    + rewrite lookup_insert_ne by done. rewrite decide_False by tauto. done.
  - rewrite lookup_insert_ne by done. by rewrite decide_False by tauto.
Qed.

Lemma ensure_LEU_ok s a : rep c s a ->
  exists s' m, ensure_LEU c s = Some (tt, s') /\ rep c s' a /\ heap s' = heap s /\ LEUs s' !! a_cur a = Some m.
Proof.
  intros Hr. unfold ensure_LEU. runs. rewrite (rep_current _ _ Hr). destruct (LEUs s !! a_cur a) as [m|] eqn:E; [by exists s, m|].
  exists (set_LEUs (<[a_cur a := ∅]> (LEUs s)) s), ∅. split; [done|]. split; [|split; [done|apply lookup_insert_eq]].
  destruct Hr as [H1 H2 H3 H4 H5]. split; try done. intros l n.
  assert (filed (set_LEUs (<[a_cur a := ∅]> (LEUs s)) s) l n = filed s l n) as ->; [|apply H5].
  unfold filed. cbn [LEUs set_LEUs]. destruct (decide (l = a_cur a)) as [->|Hl]; [rewrite lookup_insert_eq, E; cbn; by rewrite lookup_empty|].
  by rewrite lookup_insert_ne.
Qed.

Lemma sim_file s a p e el n es m :
  rep c s a -> heap s !! p = Some e -> CPU e = c -> Name el = n -> derefs (heap s) (Entries el) es -> LEUs s !! a_cur a = Some m ->
  exists s', PushServiceToLEU p el s = Some (tt, s') /\ rep c s' (file (a_cur a) n es a) /\ heap s' = heap s.
Proof.
  intros Hr Hp Hc Hn Hd Hm. unfold PushServiceToLEU. runs. unfold id. rewrite Hc, (rep_current _ _ Hr), Hm. runs.
  eexists. split; [reflexivity|]. split; [|done]. destruct Hr as [H1 H2 H3 H4 H5]. split; try done.
  intros l n'. rewrite (filed_insert s _ m) by done. cbn [file a_ins]. rewrite Hn. destruct (decide (l = a_cur a /\ n' = n)) as [[-> ->]|Hne].
  - rewrite !fupd_eq. apply Forall2_app; [|by constructor]. pose proof (H5 (a_cur a) n) as H. unfold filed in H. rewrite Hm in H. exact H.
  - destruct (decide (l = a_cur a)) as [->|]; [rewrite fupd_eq, fupd_ne by tauto|rewrite fupd_ne by done]; apply H5.
Qed.

Lemma sim_exit s a p e :
  rep c s a -> heap s !! p = Some e -> CPU e = c ->
  exists s', handleSRVEXIT p s = Some (bool_decide (leave e a <> None), s') /\
    rep c s' (default a (leave e a)) /\ heap s' = heap s.
Proof.
  intros Hr Hp Hc. destruct (sim_push s a p e Hr Hp Hc) as (s1 & E1 & Hr1 & Hh1 & Hl1). unfold handleSRVEXIT. runs. rewrite E1. runs.
  unfold leave. assert (top (record e a) = record_top e (top a)) as Et by (apply top_set_stk). rewrite Et.
  destruct (top a) as [|[n es] r] eqn:Eta; cbn [record_top].
  { cbn [length Z.of_nat Z.eqb]. runs. exists s1. split; [done|]. split; [|done]. cbn. apply (rep_ext _ _ _ Hr1); try done.
    intros l. symmetry. by apply record_empty. }
  change (Z.of_nat (length ((n, es) :: r)) =? 0) with false. cbv iota. unfold Pop. runs.
  assert (heap s1 !! p = Some e) as Hp1 by (by rewrite Hh1).
  destruct (sim_get s1 _ p e Hr1 Hp1 Hc) as (st & Eg & Hst). rewrite Eg. runs. rewrite Et in Hst. cbn [record_top] in Hst.
  destruct (stack_rep_top _ _ _ _ _ Hst) as (rest & el & -> & En & Hd & Hrest). rewrite split_last_snoc. runs.
  destruct (sim_set s1 _ p e rest r Hr1 Hp1 Hc Hrest) as (s2 & E2 & Hr2 & Hh2 & _). rewrite E2. runs.
  assert (heap s2 !! p = Some e) as Hp2 by (by rewrite Hh2). rewrite (deref_eq p e) by done. runs. rewrite Hc.
  set (a2 := set_stk (a_cur a) r (record e a)) in *.
  destruct (ensure_LEU_ok s2 a2 Hr2) as (s3 & m & E3 & Hr3 & Hh3 & Hm). rewrite E3. runs.
  rewrite (rep_current _ _ Hr3), Hm.
  set (s4 := match m !! Name el with Some _ => s3 | None => _ end).
  assert (rep c s4 a2 /\ heap s4 = heap s3 /\ exists m', LEUs s4 !! a_cur a2 = Some m') as (Hr4 & Hh4 & m' & Hm').
  { unfold s4. destruct (m !! Name el) as [v|] eqn:Ev; [by split_and!; [..|exists m]|].
    split; [|split; [done|eexists; apply lookup_insert_eq]]. destruct Hr3 as [H1 H2 H3 H4 H5]. split; try done. intros l n'.
    rewrite (filed_insert s3 _ m) by done. destruct (decide _) as [[-> ->]|_]; [|apply H5].
    pose proof (H5 (a_cur a2) (Name el)) as H. unfold filed in H. rewrite Hm in H. cbn in H. by rewrite Ev in H. }
  assert (heap s4 !! p = Some e) as Hp4 by (by rewrite Hh4, Hh3).
  destruct (sim_file s4 a2 p e el n (es ++ [e]) m' Hr4 Hp4 Hc En ltac:(by rewrite Hh4, Hh3, Hh2) Hm') as (s5 & E5 & Hr5 & Hh5).
  rewrite E5. runs. destruct (sim_push s5 _ p e Hr5 ltac:(by rewrite Hh5) Hc) as (s6 & E6 & Hr6 & Hh6 & _). rewrite E6. runs.
  exists s6. split; [done|]. cbn [default from_option id]. split; [|by rewrite Hh6, Hh5, Hh4, Hh3, Hh2].
  eapply rep_ext; [exact Hr6|done|done| |done]. intros l. unfold record at 1 2, file, a2, top. cbn [a_cur a_stk set_stk record].
  rewrite !fupd_eq. unfold fupd. by destruct (decide (l = a_cur a)).
Qed.

(** Without a PEU, [AppendToPEU] does nothing. *)
Lemma sim_append_top s a p e n es e' r :
  rep c s a -> heap s !! p = Some e -> CPU e = c -> top a = (n, es ++ [e']) :: r -> EventType e' <> bytes_of "PEUSTART" ->
  append_top p (length r) s = Some (tt, s).
Proof.
  intros Hr Hp Hc Et Hne. destruct (sim_get s a p e Hr Hp Hc) as (st & Eg & Hst). rewrite Et in Hst.
  destruct (stack_rep_top _ _ _ _ _ Hst) as (rest & el & -> & En & Hd & Hrest). unfold append_top. runs. rewrite Eg. runs.
  rewrite <- (stack_rep_length _ _ _ Hrest), list_lookup_middle by done. runs.
  apply Forall2_app_inv_r in Hd as (ps & qs & _ & Hq & ->). apply Forall2_cons_inv_r in Hq as (q & qs' & Hq & Hnil & ->).
  apply Forall2_nil_inv_r in Hnil as ->. rewrite split_last_snoc. runs. unfold AppendToPEU. runs.
  destruct (CPU e' =? 1); [done|]. runs. rewrite bool_decide_eq_false_2 by done. unfold id. by rewrite (rp_peu _ _ _ Hr).
Qed.

Lemma top_enter e name a : exists r, top (enter e name a) = (name, [] ++ [e]) :: r /\ length r = length (top a).
Proof.
  unfold enter. eexists. rewrite top_set_stk. split; [reflexivity|]. destruct (contains _ _); [done|].
  unfold record. rewrite top_set_stk. by destruct (top a) as [|[] ?].
Qed.

Lemma rep_switch s a l i :
  rep c s a -> rep c (set_CurrentLEU (<[c := l]> (CurrentLEU s)) (set_Interrupted i s)) (switch l i a).
Proof. intros [H1 H2 H3 H4 H5]. split; try done. apply lookup_insert_eq. Qed.

Lemma sim_hirqentry s a p e :
  rep c s a -> heap s !! p = Some e -> CPU e = c -> EventType e = bytes_of "HIRQENTRY" ->
  exists s', handleHIRQEntry p s = Some (tt, s') /\ rep c s' (interrupt e a).
Proof.
  intros Hr Hp Hc Et. destruct (sim_push s a p e Hr Hp Hc) as (s1 & E1 & Hr1 & Hh1 & _). unfold handleHIRQEntry. runs. rewrite E1. runs.
  assert (heap s1 !! p = Some e) as Hp1 by (by rewrite Hh1). rewrite (deref_eq p e) by done. runs.
  unfold GetIRQ. rewrite Et. change (has_prefix (bytes_of "HIRQ") (bytes_of "HIRQENTRY")) with true. cbv iota. runs. rewrite Hc.
  rewrite (rep_current _ _ Hr1), (rp_int _ _ _ Hr1).
  match goal with |- context [ensure_LEU c ?s2] => set (s2' := s2) end.
  set (a2 := switch (irq_leu e) (a_int (record e a) ++ [a_cur (record e a)]) (record e a)).
  assert (rep c s2' a2) as Hr2 by (by apply (rep_switch s1 (record e a))).
  destruct (ensure_LEU_ok _ _ Hr2) as (s3 & m & E3 & Hr3 & Hh3 & _). rewrite E3. runs.
  assert (heap s3 !! p = Some e) as Hp3 by (by rewrite Hh3).
  destruct (sim_new s3 _ p e (irq_name e) Hr3 Hp3 Hc) as (s4 & h4 & E4 & Hr4 & Hh4 & _). unfold irq_name in E4. rewrite E4. runs.
  destruct (top_enter e (irq_name e) a2) as (r & Etop & <-). rewrite (proj2 (Z.ltb_lt _ _)) by lia.
  replace (Z.to_nat (Z.of_nat (S (length r)) - 1)) with (length r) by lia.
  exists s4. split; [|done].
  eapply sim_append_top; [exact Hr4| |exact Hc|exact Etop|by rewrite Et]. rewrite Hh4. by apply lookup_app_l_Some.
Qed.

Lemma sim_hirqexit s a a' p e :
  rep c s a -> heap s !! p = Some e -> CPU e = c -> EventType e = bytes_of "HIRQEXIT" -> resume e a = Some a' ->
  exists s', handleHIRQExit p s = Some (tt, s') /\ rep c s' a'.
Proof.
  intros Hr Hp Hc Et Ha. destruct (sim_exit s a p e Hr Hp Hc) as (s1 & E1 & Hr1 & Hh1). unfold handleHIRQExit. runs. rewrite E1. runs.
  unfold resume in Ha. destruct (leave e a) as [a1|]; [|injection Ha as <-; cbn; runs; by exists s1].
  rewrite bool_decide_eq_true_2 by done. cbn [negb default from_option id] in *.
  assert (heap s1 !! p = Some e) as Hp1 by (by rewrite Hh1). runs. rewrite (rp_int _ _ _ Hr1).
  destruct (a_int a1) as [|l i _] eqn:Ei using rev_ind; [done|]. rewrite split_last_snoc. rewrite last_snoc in Ha. cbn in Ha.
  rewrite length_app in Ha. replace (length i + length [l] - 1)%nat with (length i) in Ha by (cbn [length]; lia).
  rewrite take_app_length in Ha. injection Ha as <-. runs. rewrite Hc.
  pose proof (rep_switch s1 a1 l i Hr1) as Hr2.
  match goal with |- context [PushService p ?s2] => change (rep c s2 (switch l i a1)) in Hr2; set (s2' := s2) in * end.
  assert (heap s2' !! p = Some e) as Hp2 by done.
  destruct (sim_push _ _ p e Hr2 Hp2 Hc) as (s3 & E3 & Hr3 & Hh3 & _). rewrite E3. runs. exists s3. split; [|done].
  destruct (top (switch l i a1)) as [|[n es] r] eqn:Etop; [done|]. rewrite (proj2 (Z.ltb_lt _ _)) by (cbn; lia).
  replace (Z.to_nat _) with (length r) by (cbn [length]; lia).
  eapply (sim_append_top _ _ _ e n es e r Hr3); [by rewrite Hh3|done| |by rewrite Et].
  unfold record. by rewrite top_set_stk, Etop.
Qed.

Lemma sim_ctxsw s a p e :
  rep c s a -> heap s !! p = Some e -> CPU e = c ->
  exists s', handleCTXSW p s = Some (tt, s') /\
    rep c s' (let a := record e a in record e (switch (bytes_of "Thread", Pid2 e) (a_int a) a)).
Proof.
  intros Hr Hp Hc. destruct (sim_push s a p e Hr Hp Hc) as (s1 & E1 & Hr1 & Hh1 & _). unfold handleCTXSW. runs. rewrite E1. runs.
  assert (heap s1 !! p = Some e) as Hp1 by (by rewrite Hh1). rewrite (deref_eq p e) by done. runs. rewrite Hc.
  pose proof (rep_switch s1 _ (bytes_of "Thread", Pid2 e) (a_int (record e a)) Hr1) as Hr2.
  rewrite <- (rp_int _ _ _ Hr1) in Hr2 at 1.
  match goal with |- context [PushService p ?s2] => set (s2' := s2) in *; assert (rep c s2' (switch (bytes_of "Thread", Pid2 e) (a_int (record e a)) (record e a))) as Hr3
    by (destruct Hr2; by split) end.
  destruct (sim_push s2' _ p e Hr3 Hp1 Hc) as (s3 & E3 & Hr4 & Hh3 & _). rewrite E3. runs.
  destruct (ensure_LEU_ok _ _ Hr4) as (s4 & m & E4 & Hr5 & _). exists s4. by split.
Qed.

Lemma sim_srventry s a e :
  rep c s a -> CPU e = c ->
  exists s', (p ← alloc e; handleSRVENTRY p) s = Some (tt, s') /\ rep c s' (enter (with_PacketId (bytes_of "0") e) (Service e) a).
Proof.
  intros Hr Hc. runs. unfold handleSRVENTRY, update. set (s0 := set_heap (heap s ++ [e]) s).
  assert (heap s0 !! length (heap s) = Some e) as H0 by apply lookup_heap_last. runs.
  set (e' := with_PacketId (bytes_of "0") e). replace (<[length (heap s) := e']> (heap s0)) with (heap s ++ [e'])
    by (cbn; by rewrite insert_app_r_alt, Nat.sub_diag).
  change (set_heap (heap s ++ [e']) s0) with (set_heap (heap s ++ [e']) s). set (s1 := set_heap (heap s ++ [e']) s).
  assert (heap s1 !! length (heap s) = Some e') as H1 by apply lookup_heap_last. rewrite (deref_eq _ e') by done. runs.
  destruct (sim_new s1 a (length (heap s)) e' (Service e') (rep_alloc _ _ e' Hr) H1 Hc) as (s2 & h & E & ? & _). rewrite E. runs. by exists s2.
Qed.


Lemma handler_names : NoDup ((fun h : string * (nat -> M unit) => bytes_of h.1) <$> handlers).
Proof. refine (bool_decide_unpack _ _). vm_compute. exact I. Qed.

Lemma handleEvent_at i n h : handlers !! i = Some (n, h) -> handleEvent (bytes_of n) = Some h.
Proof.
  intros Hi. unfold handleEvent. destruct (list_find_elem_of (fun h : string * (nat -> M unit) => bytes_of h.1 = bytes_of n) handlers (n, h))
    as [[j [n' h']] E]; [by eapply list_elem_of_lookup_2|done|]. rewrite E. cbn. apply list_find_Some in E as (Hj & En & _).
  assert (i = j) as <-; [|congruence]. eapply (proj1 (NoDup_alt _) handler_names); rewrite list_lookup_fmap, ?Hi, ?Hj; [done|]. cbn. by f_equal.
Qed.

Lemma handleEvent_quiet e : is_quiet e -> handleEvent (EventType e) = Some (fun p => PushService p;; mret tt).
Proof.
  intros (n & Hn & ->). unfold quiet in Hn. rewrite !elem_of_cons in Hn.
  destruct Hn as [->|[->|[->|[->|[->|[->|Hn]]]]]];
    [by apply (handleEvent_at 18)|by apply (handleEvent_at 19)|by apply (handleEvent_at 20)|by apply (handleEvent_at 21)
    |by apply (handleEvent_at 22)|by apply (handleEvent_at 23)|by apply not_elem_of_nil in Hn].
Qed.

Lemma sim_step s a a' e : rep c s a -> CPU e = c -> step e a a' -> exists s', handle e s = Some (tt, s') /\ rep c s' a'.
Proof.
  intros Hr Hc Hs. pose proof (rep_alloc s a e Hr) as Hr0. pose proof (lookup_heap_last (heap s) e) as Hp.
  change (heap s ++ [e]) with (heap (set_heap (heap s ++ [e]) s)) in Hp. unfold handle.
  destruct Hs as [e a Hq|e a Et|e a a' Et Hl|e a Et Hl|e a Et|e a a' Et Hl|e a Et].
  - rewrite handleEvent_quiet by done. runs. destruct (sim_push _ _ _ e Hr0 Hp Hc) as (s1 & E & ? & _). rewrite E. runs. by exists s1.
  - rewrite Et, (handleEvent_at 14 _ _ eq_refl). by apply sim_srventry.
  - rewrite Et, (handleEvent_at 15 _ _ eq_refl). runs.
    destruct (sim_exit _ _ _ e Hr0 Hp Hc) as (s1 & E & Hr1 & _). rewrite E. runs. rewrite Hl in Hr1. by exists s1.
  - rewrite Et, (handleEvent_at 15 _ _ eq_refl). runs.
    destruct (sim_exit _ _ _ e Hr0 Hp Hc) as (s1 & E & Hr1 & _). rewrite E. runs. rewrite Hl in Hr1. by exists s1.
  - rewrite Et, (handleEvent_at 2 _ _ eq_refl). runs. by apply (sim_hirqentry _ a _ e).
  - rewrite Et, (handleEvent_at 3 _ _ eq_refl). runs. by apply (sim_hirqexit _ a a' _ e).
  - rewrite Et, (handleEvent_at 0 _ _ eq_refl). runs. by apply (sim_ctxsw _ a _ e).
Qed.
End simulation.

(** The events of a trace one after another. *)
Fixpoint handle_all (es : list Entry) : M unit :=
  match es with [] => mret tt | e :: es' => handle e;; handle_all es' end.

Inductive steps : list Entry -> astate -> astate -> Prop :=
  | steps_nil a : steps [] a a
  | steps_cons e es a a' a'' : step e a a' -> steps es a' a'' -> steps (e :: es) a a''.

Lemma steps_app es es' a a' a'' : steps es a a' -> steps es' a' a'' -> steps (es ++ es') a a''.
Proof. induction 1; [done|]. intros. econstructor; eauto. Qed.

Lemma sim_steps c s a a' es :
  rep c s a -> Forall (fun e => CPU e = c) es -> steps es a a' -> exists s', handle_all es s = Some (tt, s') /\ rep c s' a'.
Proof.
  intros Hr Hc Hs. revert s Hr Hc. induction Hs as [a|e es a a' a'' Hs _ IH]; intros s Hr Hc; [by exists s|].
  apply Forall_cons in Hc as [Hc Hcs]. destruct (sim_step c s a a' e Hr Hc Hs) as (s1 & E & Hr1).
  destruct (IH s1 Hr1 Hcs) as (s2 & E2 & Hr2). exists s2. split; [|done]. cbn [handle_all]. runs. by rewrite E.
Qed.

(** ** Balanced executions *)

(** What runs on a CPU between two context switches, as a forest: recorded
    events, calls of services and interrupts (entry, exit, what happens in
    between, and what follows). *)
Inductive forest :=
  | Done
  | Event (e : Entry) (rest : forest)
  | Call (e x : Entry) (body rest : forest)
  | Irq (e x : Entry) (body rest : forest).

Fixpoint flatten (f : forest) : list Entry :=
  match f with
  | Done => []
  | Event e r => e :: flatten r
  | Call e x b r | Irq e x b r => e :: flatten b ++ x :: flatten r
  end.

(** What the service around a forest records of it. *)
Fixpoint vis (f : forest) : list Entry :=
  match f with
  | Done => []
  | Event e r => e :: vis r
  | Call e x _ r => (if contains (bytes_of "irq_exit") (Location e) then [] else [with_PacketId (bytes_of "0") e]) ++ x :: vis r
  | Irq e x _ r => e :: x :: vis r
  end.

(** The executions of services in a forest that runs in an LEU, in the order in
    which they end. *)
Fixpoint executions (l : LEU) (f : forest) : list (LEU * list Z * list Entry) :=
  match f with
  | Done => []
  | Event _ r => executions l r
  | Call e x b r => executions l b ++ [(l, Service e, with_PacketId (bytes_of "0") e :: vis b ++ [x])] ++ executions l r
  | Irq e x b r => executions (irq_leu e) b ++ [(irq_leu e, irq_name e, e :: vis b ++ [x])] ++ executions l r
  end.

(** The events are what they are taken for, and an interrupt is not interrupted
    by itself. *)
Fixpoint balanced (c : Z) (active : list Z) (f : forest) : Prop :=
  match f with
  | Done => True
  | Event e r => is_quiet e /\ CPU e = c /\ balanced c active r
  | Call e x b r =>
      EventType e = bytes_of "SRVENTRY" /\ EventType x = bytes_of "SRVEXIT" /\ CPU e = c /\ CPU x = c /\
      balanced c active b /\ balanced c active r
  | Irq e x b r =>
      EventType e = bytes_of "HIRQENTRY" /\ EventType x = bytes_of "HIRQEXIT" /\ CPU e = c /\ CPU x = c /\
      (Pid1 e ∉ active) /\ balanced c (Pid1 e :: active) b /\ balanced c active r
  end.

Lemma flatten_cpu c act f : balanced c act f -> Forall (fun e => CPU e = c) (flatten f).
Proof.
  revert act. induction f as [|e r IH|e x b IHb r IHr|e x b IHb r IHr]; cbn [balanced flatten]; intros act H; [constructor|..].
  - destruct H as (_ & ? & ?). constructor; eauto.
  - destruct H as (_ & _ & ? & ? & ? & ?). constructor; [done|]. apply Forall_app. split; [eauto|]. constructor; eauto.
  - destruct H as (_ & _ & ? & ? & _ & ? & ?). constructor; [done|]. apply Forall_app. split; [eauto|]. constructor; eauto.
Qed.

Definition rec_all (vs : list Entry) (st : list (list Z * list Entry)) : list (list Z * list Entry) :=
  match st with [] => [] | (n, es) :: r => (n, es ++ vs) :: r end.
Definition pick (l : LEU) (n : list Z) (xs : list (LEU * list Z * list Entry)) : list (list Entry) :=
  omap (fun x : LEU * list Z * list Entry => if decide (x.1 = (l, n)) then Some x.2 else None) xs.

(** The effect of a forest. *)
Record effect (vs : list Entry) (xs : list (LEU * list Z * list Entry)) (a a' : astate) : Prop := {
  ef_cur : a_cur a' = a_cur a;
  ef_int : a_int a' = a_int a;
  ef_stk : forall l, a_stk a' l = if decide (l = a_cur a) then rec_all vs (a_stk a l) else a_stk a l;
  ef_ins : forall l n, a_ins a' l n = a_ins a l n ++ pick l n xs }.

Definition idle (act : list Z) (a : astate) : Prop :=
  forall i, i ∉ act -> a_stk a (bytes_of "Hardware Interrupt", i) = [] /\ a_cur a <> (bytes_of "Hardware Interrupt", i).

Lemma rec_all_app vs ws st : rec_all (vs ++ ws) st = rec_all ws (rec_all vs st).
Proof. destruct st as [|[n es] r]; [done|]. cbn. by rewrite app_assoc. Qed.

Lemma effect_trans vs xs vs' xs' a a' a'' :
  effect vs xs a a' -> effect vs' xs' a' a'' -> effect (vs ++ vs') (xs ++ xs') a a''.
Proof.
  intros [C1 I1 S1 N1] [C2 I2 S2 N2]. split; try congruence.
  - intros l. rewrite S2, S1, C1. destruct (decide (l = a_cur a)); [by rewrite rec_all_app|done].
  - intros l n. rewrite N2, N1. unfold pick. by rewrite omap_app, app_assoc.
Qed.

Lemma effect_idle vs xs act a a' : effect vs xs a a' -> idle act a -> idle act a'.
Proof.
  intros [C _ S _] H i Hi. destruct (H i Hi) as [H1 H2]. rewrite S, C, H1. split; [|done]. by destruct (decide _).
Qed.

Lemma effect_record e a : effect [e] [] a (record e a).
Proof.
  split; try done.
  - intros l. unfold record, set_stk, fupd, top. cbn. destruct (decide (l = a_cur a)) as [->|]; [|done]. by destruct (a_stk a (a_cur a)) as [|[] ?].
  - intros l n. by rewrite app_nil_r.
Qed.

(** A service between its entry and its exit: the stack below is as before. *)
Lemma leave_top x n es r a :
  top a = (n, es) :: r ->
  exists a', leave x a = Some a' /\ a_cur a' = a_cur a /\ a_int a' = a_int a /\
    (forall l, a_stk a' l = if decide (l = a_cur a) then rec_all [x] r else a_stk a l) /\
    (forall l n', a_ins a' l n' = a_ins a l n' ++ pick l n' [(a_cur a, n, es ++ [x])]).
Proof.
  intros Et. unfold leave, record at 1. rewrite top_set_stk, Et. cbn [record_top]. eexists. split; [reflexivity|].
  split; [done|]. split; [done|]. split.
  - intros l. unfold record, top. cbn. destruct (decide (l = a_cur a)) as [->|]; [|by rewrite !fupd_ne].
    rewrite !fupd_eq. by destruct r as [|[] ?].
  - intros l n'. cbn. unfold fupd. destruct (decide (l = a_cur a)) as [->|Hl].
    + destruct (decide (n' = n)) as [->|Hn]; [by rewrite decide_True|]. rewrite decide_False by congruence. by rewrite app_nil_r.
    + rewrite decide_False by congruence. by rewrite app_nil_r.
Qed.

Lemma enter_facts e n a :
  let vs := if contains (bytes_of "irq_exit") (Location e) then [] else [e] in
  a_cur (enter e n a) = a_cur a /\ a_int (enter e n a) = a_int a /\ a_ins (enter e n a) = a_ins a /\
  forall l, a_stk (enter e n a) l = if decide (l = a_cur a) then (n, [e]) :: rec_all vs (a_stk a l) else a_stk a l.
Proof.
  cbv zeta. unfold enter. destruct (contains _ _); cbn [a_cur a_int a_ins set_stk record]; (split_and!; [done..|]); intros l.
  - unfold top, set_stk, fupd. cbn. destruct (decide (l = a_cur a)) as [->|]; [|done]. by destruct (a_stk a (a_cur a)) as [|[] ?]; cbn; rewrite ?app_nil_r.
  - unfold record, top, set_stk, fupd. cbn. destruct (decide (l = a_cur a)) as [->|]; [|done].
    rewrite decide_True by done. by destruct (a_stk a (a_cur a)) as [|[] ?].
Qed.

Lemma effect_call e x n vs xs a a2 :
  effect vs xs (enter e n a) a2 ->
  exists a3, leave x a2 = Some a3 /\
    effect ((if contains (bytes_of "irq_exit") (Location e) then [] else [e]) ++ [x]) (xs ++ [(a_cur a, n, e :: vs ++ [x])]) a a3.
Proof.
  intros [C I S N]. destruct (enter_facts e n a) as (C1 & I1 & N1 & S1). cbv zeta in S1. set (ws := if contains _ _ then _ else _) in *.
  destruct (leave_top x n (e :: vs) (rec_all ws (top a)) a2) as (a3 & El & C3 & I3 & S3 & N3).
  { unfold top at 1. rewrite C, S, C1, decide_True, S1, decide_True by done. done. }
  exists a3. split; [done|]. split; try congruence.
  - intros l. rewrite S3, S, S1, C, C1. destruct (decide (l = a_cur a)) as [->|]; [|done]. by rewrite rec_all_app.
  - intros l n'. rewrite N3, N, N1, C, C1, <- app_assoc. unfold pick. by rewrite omap_app.
Qed.

Lemma effect_irq e x vs xs a a2 act :
  idle act a -> (Pid1 e ∉ act) -> effect vs xs (interrupt e a) a2 ->
  exists a3, resume x a2 = Some a3 /\ effect [e; x] (xs ++ [(irq_leu e, irq_name e, e :: vs ++ [x])]) a a3.
Proof.
  intros Hi Hp He. destruct (Hi _ Hp) as [Hs Hc]. unfold interrupt in He. set (a1 := switch _ _ _) in He.
  destruct (effect_call e x _ _ _ _ _ He) as (a3 & El & [C I S N]). unfold resume. rewrite El, I.
  change (a_int a1) with (a_int a ++ [a_cur a]). rewrite last_snoc. cbn [mbind option_bind]. eexists. split; [reflexivity|].
  rewrite length_app. replace (length (a_int a) + length [a_cur a] - 1)%nat with (length (a_int a)) by (cbn; lia). rewrite take_app_length.
  destruct (effect_record e a) as [_ _ S0 _]. destruct (effect_record x (switch (a_cur a) (a_int a) a3)) as [_ _ S3 _].
  split; try done.
  - intros l. rewrite S3. cbn [switch a_stk a_cur]. rewrite S. change (a_stk a1) with (a_stk (record e a)). change (a_cur a1) with (irq_leu e).
    rewrite S0. destruct (decide (l = a_cur a)) as [->|Hl].
    + rewrite decide_False by (unfold irq_leu; congruence). by rewrite <- rec_all_app.
    + destruct (decide (l = irq_leu e)) as [->|]; [|done]. unfold irq_leu. by rewrite Hs.
Qed.

Lemma interrupt_idle e act a : idle act a -> (Pid1 e ∉ act) -> idle (Pid1 e :: act) (interrupt e a).
Proof.
  intros H He i [Hne Hi]%not_elem_of_cons. destruct (H i Hi) as [Hs Hc]. unfold interrupt. set (a1 := switch _ _ _).
  destruct (enter_facts e (irq_name e) a1) as (C & _ & _ & S). rewrite C, S. change (a_cur a1) with (irq_leu e). unfold irq_leu.
  rewrite decide_False by congruence. split; [|congruence]. change (a_stk a1) with (a_stk (record e a)).
  rewrite (ef_stk _ _ _ _ (effect_record e a)), Hs. by destruct (decide _).
Qed.

Lemma enter_idle e n act a : idle act a -> idle act (enter e n a).
Proof.
  intros H i Hi. destruct (H i Hi) as [Hs Hc]. destruct (enter_facts e n a) as (C & _ & _ & S). rewrite C, S. by rewrite decide_False.
Qed.

Lemma forest_effect c act f a :
  balanced c act f -> idle act a -> exists a', steps (flatten f) a a' /\ effect (vis f) (executions (a_cur a) f) a a'.
Proof.
  revert act a. induction f as [|e r IH|e x b IHb r IHr|e x b IHb r IHr]; cbn [balanced flatten vis executions]; intros act a Hb Hi.
  - exists a. split; [constructor|]. split; try done.
    + intros l. destruct (decide _); [|done]. by destruct (a_stk a l) as [|[n es] ?]; cbn; rewrite ?app_nil_r.
    + intros l n. by rewrite app_nil_r.
  - destruct Hb as (Hq & _ & Hb). pose proof (effect_record e a) as H1.
    destruct (IH act (record e a) Hb (effect_idle _ _ _ _ _ H1 Hi)) as (a' & Hs & He).
    exists a'. split; [by econstructor; [by apply step_quiet|]|]. by apply (effect_trans _ _ _ _ _ _ _ H1 He).
  - destruct Hb as (Ee & Ex & _ & _ & Hb & Hr). set (e0 := with_PacketId (bytes_of "0") e).
    destruct (IHb act (enter e0 (Service e) a) Hb (enter_idle _ _ _ _ Hi)) as (a2 & Hs2 & He2).
    destruct (effect_call e0 x _ _ _ _ _ He2) as (a3 & El & He3).
    destruct (IHr act a3 Hr (effect_idle _ _ _ _ _ He3 Hi)) as (a4 & Hs4 & He4). exists a4. split.
    + econstructor; [by apply step_enter|]. eapply steps_app; [exact Hs2|]. econstructor; [by eapply step_leave|done].
    + pose proof (effect_trans _ _ _ _ _ _ _ He3 He4) as H. rewrite (ef_cur _ _ _ _ He3), <- !app_assoc in H.
      destruct (enter_facts e0 (Service e) a) as (C & _). rewrite C in H. exact H.
  - destruct Hb as (Ee & Ex & _ & _ & Hp & Hb & Hr).
    destruct (IHb _ (interrupt e a) Hb (interrupt_idle _ _ _ Hi Hp)) as (a2 & Hs2 & He2).
    destruct (effect_irq e x _ _ _ _ _ Hi Hp He2) as (a3 & El & He3).
    destruct (IHr act a3 Hr (effect_idle _ _ _ _ _ He3 Hi)) as (a4 & Hs4 & He4). exists a4. split.
    + econstructor; [by apply step_interrupt|]. eapply steps_app; [exact Hs2|]. econstructor; [by eapply step_resume|done].
    + pose proof (effect_trans _ _ _ _ _ _ _ He3 He4) as H. rewrite (ef_cur _ _ _ _ He3), <- !app_assoc in H.
      unfold interrupt in H. destruct (enter_facts e (irq_name e) (switch (irq_leu e) (a_int (record e a) ++ [a_cur (record e a)]) (record e a))) as (C & _).
      rewrite C in H. exact H.
Qed.

(** A trace starts on a CPU with a context switch. *)
Definition started (l : LEU) : astate := MkA l (fun _ => []) [] (fun _ _ => []).

Lemma rep_start e :
  EventType e = bytes_of "CTXSW" ->
  exists s, handle e state_init = Some (tt, s) /\ rep (CPU e) s (started (bytes_of "Thread", Pid2 e)).
Proof.
  intros Et. unfold handle. rewrite Et, (handleEvent_at 0 _ _ eq_refl). runs. unfold handleCTXSW, PushService.
  set (s0 := set_heap _ _). assert (heap s0 !! 0%nat = Some e) as H0 by done. change (length (heap state_init)) with 0%nat.
  assert (GetCurrentServiceStack 0 s0 = Some ([], set_ServiceStack {[CPU e := ∅]} s0)) as E0.
  { unfold GetCurrentServiceStack. runs. unfold id, s0. cbn [ServiceStack state_init set_heap]. rewrite lookup_empty. runs. done. }
  runs. rewrite E0. runs. change (0 <? length [])%nat with false. cbv iota. runs.
  match goal with |- context [GetCurrentServiceStack 0 ?s] => set (s2 := s) end.
  assert (GetCurrentServiceStack 0 s2 = Some ([], s2)) as E2.
  { unfold GetCurrentServiceStack. rewrite bind_eq, (deref_eq 0 e) by done. runs. unfold id, s2. cbn [ServiceStack set_CurrentLEU set_LastAppended set_ServiceStack].
    rewrite lookup_singleton_eq. runs. by rewrite lookup_empty. }
  rewrite E2. runs. change (0 <? length [])%nat with false. cbv iota. runs. unfold ensure_LEU. runs. eexists. split; [reflexivity|].
  unfold current. cbn [CurrentLEU LEUs set_LastAppended set_CurrentLEU s2 set_ServiceStack s0 set_heap state_init].
  rewrite lookup_insert_eq, lookup_empty. cbn [default from_option id]. split; try done.
  - apply lookup_insert_eq.
  - exists ∅. split; [apply lookup_singleton_eq|]. intros l. rewrite lookup_empty. constructor.
  - intros l n. unfold filed. cbn [LEUs set_LEUs]. destruct (decide (l = (bytes_of "Thread", Pid2 e))) as [->|Hl].
    + rewrite lookup_insert_eq. cbn. rewrite lookup_empty. constructor.
    + rewrite lookup_insert_ne by done. rewrite lookup_empty. constructor.
Qed.

(** C29: the analyser implements the specification: from a state that represents
    service stacks of values, the events of service calls, interrupts, context
    switches and those that are only recorded, on one CPU and without a PEU, are handled
    without a panic, and the state afterwards represents what the specification
    makes of them. Sharing entries between the services, the copies and the
    lazily created maps cannot be observed. *)
Theorem analyser_refines (c : Z) (es : list Entry) (s : State) (a a' : astate) :
  rep c s a -> Forall (fun e => CPU e = c) es -> steps es a a' ->
  exists s', handle_all es s = Some (tt, s') /\ rep c s' a'.
Proof. apply sim_steps. Qed.

(** C20: the analyser reconstructs services. A CPU switches to a thread and
    executes any balanced combination of service calls, interrupts (nested to any
    depth, no interrupt within itself) and recorded events. Then nothing panics,
    the thread is the current LEU again, no interrupt is left open, and for every
    LEU and every name the executions filed are exactly those of that service in
    that LEU, in the order in which they ended, each with its own events: its
    entry, the events in it, the entries and exits of the services it called and
    of the interrupts that interrupted it, and its exit. Only the entry of a
    service whose location contains irq_exit is not recorded in the service
    that called it. *)
Theorem services_reconstructed (e : Entry) (f : forest) :
  EventType e = bytes_of "CTXSW" -> balanced (CPU e) [] f ->
  exists s, handle_all (e :: flatten f) state_init = Some (tt, s) /\
    current s (CPU e) = (bytes_of "Thread", Pid2 e) /\ Interrupted s = [] /\
    forall l n, Forall2 (fun le es => derefs (heap s) (le_Entries le) es)
      (filed s l n) (pick l n (executions (bytes_of "Thread", Pid2 e) f)).
Proof.
  intros Et Hb. destruct (rep_start e Et) as (s0 & E0 & Hr0).
  destruct (forest_effect (CPU e) [] f (started (bytes_of "Thread", Pid2 e)) Hb) as (a & Hs & He); [by intros i _; split|].
  destruct (sim_steps _ _ _ _ _ Hr0 (flatten_cpu _ _ _ Hb) Hs) as (s & E & Hr). exists s. destruct He as [C I _ N].
  split; [cbn [handle_all]; runs; by rewrite E0|]. split; [by rewrite (rep_current _ _ _ Hr), C|]. split; [by rewrite (rp_int _ _ _ Hr), I|].
  intros l n. pose proof (rp_ins _ _ _ Hr l n) as H. by rewrite N in H.
Qed.

(** *** A run *)

Definition ev (name : string) (cpu pid1 pid2 : Z) (service : string) (cycles : Z) : Entry :=
  MkE (bytes_of name) cpu 10 pid1 pid2 (bytes_of "0") (bytes_of service) (bytes_of "f") cycles 0 0 [] 0 0.

Definition sample_switch : Entry := ev "CTXSW" 0 1 10 "0" 0.
Definition sample_forest : forest :=
  Call (ev "SRVENTRY" 0 0 0 "tcp_sendmsg" 1) (ev "SRVEXIT" 0 0 0 "tcp_sendmsg" 9)
    (Event (ev "TTWAKEUP" 0 0 0 "0" 2)
      (Irq (ev "HIRQENTRY" 0 44 0 "0" 3) (ev "HIRQEXIT" 0 44 0 "0" 8)
         (Irq (ev "HIRQENTRY" 0 69 0 "0" 4) (ev "HIRQEXIT" 0 69 0 "0" 5) Done
            (Call (ev "SRVENTRY" 0 0 0 "net_rx_action" 6) (ev "SRVEXIT" 0 0 0 "net_rx_action" 7) Done Done)) Done)) Done.

Lemma sample_balanced : balanced 0 [] sample_forest.
Proof. cbn. unfold is_quiet. repeat split; try (refine (bool_decide_unpack _ _); exact I). by exists "TTWAKEUP"%string; split; [refine (bool_decide_unpack _ _); exact I|]. Qed.

Lemma services_reconstructed_witness :
  exists s, handle_all (sample_switch :: flatten sample_forest) state_init = Some (tt, s) /\
    current s 0 = (bytes_of "Thread", 10) /\ Interrupted s = [] /\
    forall l n, Forall2 (fun le es => derefs (heap s) (le_Entries le) es)
      (filed s l n) (pick l n (executions (bytes_of "Thread", 10) sample_forest)).
Proof. apply (services_reconstructed sample_switch sample_forest); [reflexivity|apply sample_balanced]. Defined.

Lemma analyser_refines_witness :
  exists s a s', handle sample_switch state_init = Some (tt, s) /\
    steps (flatten sample_forest) (started (bytes_of "Thread", 10)) a /\
    handle_all (flatten sample_forest) s = Some (tt, s') /\ rep 0 s' a.
Proof.
  destruct (rep_start sample_switch eq_refl) as (s & E & Hr).
  destruct (forest_effect 0 [] sample_forest (started (bytes_of "Thread", 10)) sample_balanced) as (a & Hs & _); [by intros i _; split|].
  destruct (analyser_refines 0 (flatten sample_forest) s _ a Hr (flatten_cpu _ _ _ sample_balanced) Hs) as (s' & E' & Hr').
  by exists s, a, s'.
Defined.

(** The cycles of the events filed for the service of the run. *)
Example sample_filed :
  (fun r : unit * State => (fun le => omap (fun p => Cycles <$> heap r.2 !! p) (le_Entries le)) <$>
     filed r.2 (bytes_of "Thread", 10) (bytes_of "tcp_sendmsg"))
    <$> handle_all (sample_switch :: flatten sample_forest) state_init = Some [[1; 2; 3; 8; 9]].
Proof. vm_compute. reflexivity. Qed.

(** *** Where the analyser goes wrong *)

(** The list of interrupted LEUs is one for all CPUs: when interrupts on two CPUs
    overlap, CPU 0 continues with the thread that CPU 1 was running. *)
Example interrupts_cross_cpus :
  (fun r : unit * State => current r.2 0) <$>
    handle_all [ev "CTXSW" 0 1 10 "0" 0; ev "CTXSW" 1 1 20 "0" 0;
                ev "SRVENTRY" 0 0 0 "a" 1; ev "SRVENTRY" 1 0 0 "b" 1;
                ev "HIRQENTRY" 0 44 0 "0" 2; ev "HIRQENTRY" 1 69 0 "0" 2; ev "HIRQEXIT" 0 44 0 "0" 3] state_init
  = Some (bytes_of "Thread", 20).
Proof. vm_compute. reflexivity. Qed.

(** The target of a migration has no map of stacks before it has made an entry:
    the analyser panics. *)
Example migrate_panics :
  handle_all [ev "CTXSW" 0 1 10 "0" 0; ev "SRVENTRY" 0 0 0 "a" 1; ev "MIGRATE" 0 10 1 "0" 2] state_init = None.
Proof. vm_compute. reflexivity. Qed.

(** Index 0 stands for "no interrupt": the completion in the first interrupt
    after the start of a PEU is not recognised, the one behind any other event is. *)
Definition peu_trace (between : list Entry) : list Entry :=
  [ev "CTXSW" 0 1 10 "0" 0; ev "SRVENTRY" 0 0 0 "send" 1; ev "PEUSTART" 0 0 0 "dma" 2] ++ between ++
  [ev "HIRQENTRY" 0 44 0 "0" 5; ev "COMPL" 0 0 0 "done" 6; ev "HIRQEXIT" 0 44 0 "0" 7; ev "WAITCOMPL" 0 0 0 "done" 8].
Definition peu_durations (es : list Entry) : option (list Z) :=
  (fun r : unit * State => filter (fun d => d <> 0) (PEUDuration <$> heap r.2)) <$> handle_all es state_init.

Example peu_first_interrupt_missed :
  peu_durations (peu_trace []) = Some [] /\ peu_durations (peu_trace [ev "SEMUP" 0 0 0 "lock" 3]) = Some [3].
Proof. split; vm_compute; reflexivity. Qed.
